(* ===== verification/_CoqProject ===== *)
-Q . S2P
Prelude.v
SocketBuffer.v
Proto.v
CodecProto.v
Connection.v
StdMap.v
Hash.v
Util.v
Nodes.v
Timers.v
Session.v
Coroutines.v
WorkerDataMgr.v
Effect.v
Protocol.v
Network.v
SysProto.v
SysCmd.v
ZkBio.v
ZkClient.v
Server.v
CoList.v
CoTimeout.v
CoLoop.v
CoStack.v
CoHook.v
CFloat.v
CJson.v
CJsonText.v
CJsonHeap.v
CJsonObject.v
CJsonTree.v
CJsonStore.v
HttpParser.v
HttpParserSafe.v
HttpSplit.v
HttpUrl.v
HttpMessage.v
CodecHttp.v
CodecHttpSpec.v
ConnectionHttp.v
