(* ===== verification/Prelude.v ===== *)
(** * co_kimserver: a verification library

    co_kimserver is a server framework of several processes.  A manager
    accepts connections and forks workers; each process runs one thread of
    coroutines (libco) that read protobuf or HTTP messages from sockets, hand
    them to modules and send answers.  The processes of a node, and the nodes
    of a cluster, talk in system commands; zookeeper tells them about each
    other, and a request is routed to a node by consistent hashing.  Paths
    below are relative to [src/src/core/].

    ** The parts, bottom up

    Each file has a Module of its name.  Its records are the fields of the
    class, its definitions the methods, under their names.

    - [Prelude]: machine integers ([u8], [u32], [u64], [i32]), checked memory,
      tactics.  [StdMap]: ordered containers.  [Effect]: the monad of code that
      returns ([Ret]), still waits when its fuel is used up ([Block]) or has
      undefined behaviour ([Undef]), with the logics [wp] (if it returns),
      [twp] (it returns) and [gwp] (it returns, or waits for a stated reason).
    - [SocketBuffer] ([util/socket_buffer]), [Proto] (messages), [CodecProto]
      ([codec/codec_proto]) and [Connection] ([connection]): bytes to messages.
    - [Hash] ([util/hash]), [Util] ([util/util]), [Nodes] ([nodes]): the node
      table and the ring.
    - [Timers] ([timers]), [Session] ([session]), [Coroutines] ([coroutines]),
      [WorkerDataMgr] ([worker_data_mgr]).
    - [Network] and [Server] ([network], [net/channel]): connections, sending,
      and the loops of a process.  [Protocol], [SysProto], [SysCmd]
      ([sys_cmd]): the system commands on top of [Network] and [Nodes].
    - [ZkBio] ([zookeeper/zk_bio]) and [ZkClient] ([zk_client]): the background
      thread, and registration and watches.
    - libco: [CoList] (the intrusive lists), [CoTimeout] (the timing wheel) and
      [CoLoop] (polling, conditions, [co_eventloop]) build on each other;
      [CoHook] (the replaced system calls, [libco/co_hook_sys_call.cpp]) waits
      through [CoLoop]; [CoStack] is the switching of coroutines that share
      stack memory.
    - JSON: [CFloat] (the double arithmetic that is used), [CJson] (the parser
      and printer of [util/json/cJSON.c] on bytes), [CJsonHeap] (its linked
      items on a heap), [CJsonObject] (the class, with the wrappers it hands
      out).  [CJsonText] (texts), [CJsonTree] (items on the heap as trees) and
      [CJsonStore] (objects as a store of trees) hold their theorems.
    - HTTP: [HttpParser] ([util/http/http_parser.c], one definition per state,
      composed in [http_parser_execute]), [HttpUrl] (its URL parser),
      [CodecHttp] ([codec/codec_http]) and [ConnectionHttp] (the HTTP paths of
      [connection.cpp]).  [HttpParserSafe], [HttpSplit], [HttpMessage] and
      [CodecHttpSpec] hold theorems, on the parser and on the codec.

    ** What is shown

    The comment of each theorem says what it assumes.

    - Bytes and messages: the buffer is a queue of bytes and never leaves its
      block; encoding and decoding are inverse for messages with a body and no
      zero in the head (for others encoding is undefined); a connection sends
      whole frames in order and delivers what arrives; a process whose modules
      answer every message handles exactly the messages of its stream.
    - Connections: a descriptor is closed once, a stale handle reaches nobody.
    - Cluster: routing takes the next virtual node; adding or deleting a node
      moves only its own keys; a worker that has been sent every change since
      the last registration has the manager's table; the commands for zookeeper
      are executed and answered in order and none twice, and all of them while
      the background thread runs.
    - Time and memory: due timers fire and the loop ends; cancelled ones do
      not; the pools and tables hold no dangling pointer.
    - libco: a round of the event loop wakes exactly the waiters with an event
      or a due timeout, and a sleeper neither early nor late; a coroutine finds
      its stack as it left it; a blocking write returns, in order and complete
      but when the system refuses the rest after a wait; merged polling reports to each entry its own events.
    - JSON: parsing ends on every text, and stays within it when its escapes
      and exponents are complete and in range; what is printed of a tree
      without floating point numbers, made by hand or by the parser, is parsed
      again into the same tree; the operations of [CJsonObject] are those of a
      store of independent trees, as long as no wrappers are handed out.
    - HTTP: the parser returns and stays within its block on any bytes; a
      stream that it accepts byte by byte it accepts in all blocks, with the
      same result for clients that append the parts of a string; a printed
      message is reported part by part as it was; a URL is cut into the parts it
      was made of, and the parts of any URL lie in it; a request and its response pass between two connections; [decode]
      has one kind of undefined behaviour, the conversion of a [Keep-Alive]
      that is too large.
    - Failures: several theorems prove a defect of the code on the model, for
      all inputs that show it where they can be described: a message that is
      lost in [conn_read], a request line that [decode] never refuses, wrappers
      that go stale, an index that crashes the manager, a string that overruns
      its buffer.

    ** Parameters

    Code outside the repository is a class with the laws its documentation
    gives, and has a concrete instance in the witnesses: [Malloc], [Protobuf]
    and [Messages] (generated serialisation), [Digest] (MD5), [HashOrder]
    (iteration of unordered maps), [Kernel] and [Sys] (system calls), [Epoll],
    [Zookeeper], [Libm] (the mathematical functions) and [Zip] (compression).
    The callbacks of [HttpParser] are arguments; [Obeys] and [Keeps] say what a
    client may do in them, and [CodecHttp] does.  Orders in which hash maps
    are walked through and the content of uninitialised structures are
    arguments.  Two parameters stand for other code of the repository: [Json]
    for what [ZkClient] reads from and writes to JSON texts, by [util/json]
    and by protobuf, and [Sockets] for the wrapper of accept in
    [net/anet.cpp].  What other coroutines do while one waits is a
    parameter as well ([SchedulerSpec], [OwnedScheduler], [Others]), and so are
    the modules.

    ** Bounds and fuel

    Fuel is used for loops that are not structural.  [relink] and [mark] get
    one more than the number of nodes, which no list exceeds; [write_loop] gets
    the length of the buffer, as every round but the last writes a byte;
    [co_cond_broadcast] gets one more than the number of waiters; [msg_loop]
    needs more than the number of buffered messages.  Theorems about these
    loops say that they return.  The loops of the server that run for ever are
    [Block] when the fuel is used up, and their theorems hold for any fuel.
    [drain] may run for ever when coroutines keep waking each other; its
    theorem says when it ends.  The parser of JSON gets the length of the text,
    and every walk over linked items the size of the heap, which is enough on
    well-formed heaps.  [http_parser_execute] looks at a byte at most five times
    ([reexecute]) and its loops get one more than the length of the block;
    [hex_loop] prints the eight digits of a 32-bit number.  The theorems of
    [CoLoop] ask for a clock between 1 and [2^61] ms and a round within [2^31]
    ms of the last.

    ** Not modelled

    - [node_connection.cpp]: queues of requests over [Connection] and the
      conditions of [CoLoop].
    - [redis], [mysql], [zookeeper/zk.cpp]: layers over client libraries that
      are not in the repository.
    - [manager.cpp], [worker.cpp], [server.cpp], [module*.cpp], start-up in
      [network.cpp]: fork, signals, [dlopen] and configuration files.
    - [sys_config], [util/log], [util/set_proc_title], [net/anet]: input and
      output.
    - [libco/coctx_swap.S]: assembly; its effect in [CoStack] is that the other
      coroutine runs.
    - Of cJSON, the reference items and [cJSON_InitHooks], which nothing uses.

    Next: [node_connection.cpp] on [CoLoop], then the JSON texts of [ZkClient]
    on [CJsonObject]. *)

From stdpp Require Export base gmap sets list strings pretty option fin_maps.
From Stdlib Require Export ZArith Lia Ascii.

#[global] Open Scope Z_scope.

Create HintDb kim.

(** ** Tactics *)

(** Closes the conjuncts of a specification one by one. *)
Ltac kauto := try solve [done | lia | simpl; lia | congruence | eauto 3 with kim].
Ltac ksplit := split_and?; kauto.

(** Gives the result of a function whose definition has been evaluated, and
    leaves the properties of that result. *)
Ltac kresult :=
  repeat match goal with |- exists _, _ => eexists end;
  try (lazymatch goal with |- (_ = _) /\ _ => split; [reflexivity |] end); ksplit.

(** Case analysis on the boolean comparisons of the code. *)
Ltac kcase_on e :=
  match e with
  | (?x =? ?y) => destruct (Z.eqb_spec x y)
  | (?x <? ?y) => destruct (Z.ltb_spec x y)
  | (?x <=? ?y) => destruct (Z.leb_spec x y)
  end.
Ltac kcase :=
  match goal with
  | |- context [?x =? ?y] => kcase_on (x =? y)
  | |- context [?x <? ?y] => kcase_on (x <? y)
  | |- context [?x <=? ?y] => kcase_on (x <=? y)
  end.

(** ** Machine integers *)

Definition u8 (z : Z) : Z := z mod 2 ^ 8.
Definition u32 (z : Z) : Z := z mod 2 ^ 32.
Definition u64 (z : Z) : Z := z mod 2 ^ 64.

Definition i32 (z : Z) : Z :=
  let m := z mod 2 ^ 32 in if m <? 2 ^ 31 then m else m - 2 ^ 32.

#[global] Arguments u8 : simpl never.
#[global] Arguments u32 : simpl never.
#[global] Arguments u64 : simpl never.
#[global] Arguments i32 : simpl never.
#[global] Arguments Z.eqb : simpl never.
#[global] Arguments Z.ltb : simpl never.
#[global] Arguments Z.leb : simpl never.

Definition INT_MAX : Z := 2 ^ 31 - 1.

Lemma u32_range z : 0 <= u32 z < 2 ^ 32.
Proof. apply Z.mod_pos_bound; lia. Qed.

Lemma u64_range z : 0 <= u64 z < 2 ^ 64.
Proof. apply Z.mod_pos_bound; lia. Qed.

Lemma i32_range z : - 2 ^ 31 <= i32 z < 2 ^ 31.
Proof.
  unfold i32. pose proof (Z.mod_pos_bound z (2 ^ 32)).
  destruct (Z.ltb_spec (z mod 2 ^ 32) (2 ^ 31)); lia.
Qed.

Lemma u32_small z : 0 <= z < 2 ^ 32 -> u32 z = z.
Proof. apply Z.mod_small. Qed.

Lemma u64_small z : 0 <= z < 2 ^ 64 -> u64 z = z.
Proof. apply Z.mod_small. Qed.

Lemma i32_small z : - 2 ^ 31 <= z < 2 ^ 31 -> i32 z = z.
Proof.
  intros H. unfold i32. destruct (Z.ltb_spec (z mod 2 ^ 32) (2 ^ 31)) as [L|L].
  - destruct (decide (0 <= z)).
    + apply Z.mod_small; lia.
    + rewrite <- (Z.mod_unique z (2 ^ 32) (-1) (z + 2 ^ 32)) in L; lia.
  - destruct (decide (0 <= z)).
    + rewrite Z.mod_small in L; lia.
    + rewrite <- (Z.mod_unique z (2 ^ 32) (-1) (z + 2 ^ 32)); lia.
Qed.

Lemma u32_u64 z : u32 (u64 z) = u32 z.
Proof.
  unfold u32, u64. change (2 ^ 64) with (2 ^ 32 * 2 ^ 32).
  rewrite Z.rem_mul_r by lia.
  rewrite Z.mul_comm, Z_mod_plus_full. apply Z.mod_mod; lia.
Qed.

(** ** Characters

    [char] is signed on the platforms the server supports; [schar] is its
    value as an [int], [uchar] the value of the same byte read as
    [unsigned char]. *)

Definition uchar (c : ascii) : Z := Z.of_N (N_of_ascii c).
Definition schar (c : ascii) : Z :=
  let v := uchar c in if v <? 128 then v else v - 256.
Definition char_of (z : Z) : ascii := ascii_of_N (Z.to_N (u8 z)).
Definition NUL : ascii := ascii_of_N 0.

Lemma uchar_range c : 0 <= uchar c < 256.
Proof. destruct c as [[] [] [] [] [] [] [] []]; cbv; split; congruence. Qed.

Lemma uchar_char_of z : uchar (char_of z) = u8 z.
Proof.
  unfold uchar, char_of. pose proof (Z.mod_pos_bound z (2 ^ 8)).
  rewrite N_ascii_embedding by (unfold u8; lia). unfold u8; lia.
Qed.

Lemma char_of_uchar c : char_of (uchar c) = c.
Proof. destruct c as [[] [] [] [] [] [] [] []]; reflexivity. Qed.

(** The bytes of a [std::string]. *)
Abbreviation bytes := (list ascii).
Abbreviation str_bytes := String.list_ascii_of_string.
Abbreviation bytes_str := String.string_of_list_ascii.

(** ** Flat memory

    A heap block is the list of its bytes.  Every access is checked: [None]
    is an access out of the block, undefined behaviour in the source. *)

Section memory.
Context {A : Type}.
Implicit Types (l m d : list A).

Definition zlen l : Z := Z.of_nat (length l).

Definition slice (off len : Z) l : list A := take (Z.to_nat len) (drop (Z.to_nat off) l).

Definition mem_read m (off len : Z) : option (list A) :=
  if (0 <=? off) && (0 <=? len) && (off + len <=? zlen m) then Some (slice off len m) else None.

Definition mem_write m (off : Z) d : option (list A) :=
  if (0 <=? off) && (off + zlen d <=? zlen m)
  then Some (take (Z.to_nat off) m ++ d ++ drop (Z.to_nat (off + zlen d)) m) else None.

Lemma zlen_nonneg l : 0 <= zlen l.
Proof. unfold zlen; lia. Qed.

Lemma zlen_app l m : zlen (l ++ m) = zlen l + zlen m.
Proof. unfold zlen. rewrite length_app. lia. Qed.

Lemma zlen_drop (n : nat) (l : list A) : zlen (drop n l) <= zlen l.
Proof. unfold zlen. rewrite length_drop. lia. Qed.

Lemma app_same_nil l m : l = l ++ m -> m = [].
Proof. intros E. apply (f_equal length) in E. rewrite length_app in E. destruct m; [done | simpl in E; lia]. Qed.

Lemma zlen_nil_inv l : zlen l = 0 -> l = [].
Proof. unfold zlen. destruct l; [done | simpl; lia]. Qed.

Lemma zlen_slice off len l :
  0 <= off -> 0 <= len -> off + len <= zlen l -> zlen (slice off len l) = len.
Proof.
  unfold zlen, slice. intros. rewrite length_take, length_drop. lia.
Qed.

Lemma slice_nil off l : slice off 0 l = [].
Proof. reflexivity. Qed.

Lemma slice_all l : slice 0 (zlen l) l = l.
Proof. unfold slice, zlen. rewrite Nat2Z.id. simpl. by rewrite drop_0, firstn_all. Qed.

Lemma slice_slice off len o n l :
  0 <= off -> 0 <= o -> 0 <= n -> o + n <= len ->
  slice o n (slice off len l) = slice (off + o) n l.
Proof.
  intros. unfold slice. rewrite skipn_firstn_comm, take_take, drop_drop.
  f_equal; [lia | f_equal; lia].
Qed.

Lemma slice_split off a b l :
  0 <= off -> 0 <= a -> 0 <= b ->
  slice off (a + b) l = slice off a l ++ slice (off + a) b l.
Proof.
  intros. unfold slice.
  replace (Z.to_nat (off + a)) with (Z.to_nat off + Z.to_nat a)%nat by lia.
  rewrite <- drop_drop, Z2Nat.inj_add by lia.
  by rewrite take_take_drop.
Qed.

Lemma slice_app_l off len l m :
  0 <= off -> 0 <= len -> off + len <= zlen l -> slice off len (l ++ m) = slice off len l.
Proof.
  unfold slice, zlen. intros. rewrite drop_app_le by lia. rewrite take_app_le; [done |].
  rewrite length_drop. lia.
Qed.

Lemma slice_app_r off len l m :
  zlen l <= off -> slice off len (l ++ m) = slice (off - zlen l) len m.
Proof.
  unfold slice, zlen. intros. rewrite drop_app_ge by lia. f_equal. f_equal. lia.
Qed.

Lemma slice_app_exact l m : slice (zlen l) (zlen m) (l ++ m) = m.
Proof. rewrite slice_app_r by lia. rewrite Z.sub_diag. apply slice_all. Qed.

Lemma mem_read_Some m off len d :
  mem_read m off len = Some d <->
  0 <= off /\ 0 <= len /\ off + len <= zlen m /\ d = slice off len m.
Proof.
  unfold mem_read.
  destruct (Z.leb_spec 0 off), (Z.leb_spec 0 len), (Z.leb_spec (off + len) (zlen m));
    simpl; split; intros E; try discriminate; try (destruct_and! E; lia).
  - by simplify_eq.
  - destruct_and! E. by subst.
Qed.

Lemma mem_read_ok m off len :
  0 <= off -> 0 <= len -> off + len <= zlen m -> mem_read m off len = Some (slice off len m).
Proof. intros. by apply mem_read_Some. Qed.

Lemma mem_read_zlen m off len d : mem_read m off len = Some d -> zlen d = len.
Proof. intros (?&?&?&->)%mem_read_Some. by apply zlen_slice. Qed.

Lemma mem_write_ok m off d :
  0 <= off -> off + zlen d <= zlen m ->
  mem_write m off d = Some (take (Z.to_nat off) m ++ d ++ drop (Z.to_nat (off + zlen d)) m).
Proof.
  intros. unfold mem_write.
  destruct (Z.leb_spec 0 off), (Z.leb_spec (off + zlen d) (zlen m)); simpl; try lia. done.
Qed.

Lemma mem_write_Some m off d m' :
  mem_write m off d = Some m' ->
  0 <= off /\ off + zlen d <= zlen m /\
  m' = take (Z.to_nat off) m ++ d ++ drop (Z.to_nat (off + zlen d)) m.
Proof.
  unfold mem_write.
  destruct (Z.leb_spec 0 off), (Z.leb_spec (off + zlen d) (zlen m)); simpl; intros [=]; auto.
Qed.

Lemma mem_write_zlen m off d m' : mem_write m off d = Some m' -> zlen m' = zlen m.
Proof.
  intros (?&?&->)%mem_write_Some. unfold zlen in *.
  rewrite !length_app, length_take, length_drop. lia.
Qed.

(** What lies before the written range is untouched, and the range holds
    the written bytes. *)
Lemma mem_write_slice m off d m' r :
  mem_write m off d = Some m' -> 0 <= r -> r <= off ->
  slice r (off - r + zlen d) m' = slice r (off - r) m ++ d.
Proof.
  intros (?&?&->)%mem_write_Some ??.
  assert (Hl : zlen (take (Z.to_nat off) m) = off).
  { unfold zlen in *. rewrite length_take. lia. }
  rewrite slice_split by (pose proof (zlen_nonneg d); lia). f_equal.
  - rewrite slice_app_l by lia. unfold slice.
    rewrite skipn_firstn_comm, take_take. f_equal. lia.
  - replace (r + (off - r)) with (zlen (take (Z.to_nat off) m)) by lia.
    rewrite slice_app_r by lia. rewrite Z.sub_diag.
    rewrite slice_app_l by (pose proof (zlen_nonneg d); lia). apply slice_all.
Qed.

Lemma mem_write_slice_take m off d m' r n :
  mem_write m off d = Some m' -> 0 <= r -> r <= off -> 0 <= n <= zlen d ->
  slice r (off - r + n) m' = slice r (off - r) m ++ take (Z.to_nat n) d.
Proof.
  intros E ???. pose proof (mem_write_Some _ _ _ _ E) as (?&?&_).
  pose proof (mem_write_zlen _ _ _ _ E).
  replace (slice r (off - r + n) m') with (slice 0 (off - r + n) (slice r (off - r + zlen d) m'))
    by (rewrite slice_slice by lia; f_equal; lia).
  rewrite (mem_write_slice _ _ _ _ _ E) by lia.
  assert (L : zlen (slice r (off - r) m) = off - r) by (apply zlen_slice; lia).
  rewrite slice_split by lia. rewrite Z.add_0_l.
  rewrite slice_app_l, slice_app_r by lia.
  rewrite <- L at 1. rewrite slice_all, L, Z.sub_diag. done.
Qed.

End memory.

#[export] Hint Resolve zlen_nonneg u32_range u64_range uchar_range : kim.
