(* ===== verification/SocketBuffer.v ===== *)
(** * SocketBuffer: the byte buffer between a socket and a codec

    Model of [util/socket_buffer.h] and [util/socket_buffer.cpp].  The heap
    block behind [m_buffer] is the list of its bytes ([nullptr] is the empty
    block); every [memcpy] goes through the checked accesses of [Prelude], so
    [None] means an access out of the block or a loop that never ends.
    [malloc] belongs to the C library: it is a parameter (class [Malloc]) that
    may fail and gives no guarantee on the contents of a fresh block. *)

From S2P Require Import Prelude.

(** ** The allocator and the kernel *)

Class Malloc := malloc : Z -> option bytes.

(** A block of [n] bytes lies in the user address space, which is at most
    2^57 bytes on the 64-bit platforms of the server. *)
Definition ADDRESS_SPACE : Z := 2 ^ 57.

Class MallocSpec `{Malloc} : Prop :=
  malloc_zlen : forall n b, 0 <= n -> malloc n = Some b -> zlen b = n /\ n <= ADDRESS_SPACE.

(** The result of [readv] (the bytes received) or [send] (how many bytes
    were taken), or the [errno] of a failed call. *)
Inductive io_read := RecvData (d : bytes) | RecvErr (e : Z).
Inductive io_write := SentBytes (n : Z) | SendErr (e : Z).

(** Linux transfers at most this many bytes per call. *)
Definition MAX_RW_COUNT : Z := 2147479552.

Module SocketBuffer.

Definition BUFFER_MAX_READ : Z := 8192.
Definition DEFAULT_BUFFER_SIZE : Z := 32.
Definition EXTRABUF_SIZE : Z := 32768.

Record SocketBuffer := mk {
  m_buffer : bytes;
  m_buffer_len : Z;
  m_write_idx : Z;
  m_read_idx : Z;
}.

Definition empty : SocketBuffer := mk [] 0 0 0.

Definition set_read_index (b : SocketBuffer) (idx : Z) : SocketBuffer :=
  mk (m_buffer b) (m_buffer_len b) (m_write_idx b) idx.
Definition set_write_index (b : SocketBuffer) (idx : Z) : SocketBuffer :=
  mk (m_buffer b) (m_buffer_len b) idx (m_read_idx b).
Definition advance_read_index (b : SocketBuffer) (step : Z) : SocketBuffer :=
  set_read_index b (u64 (m_read_idx b + step)).
Definition advance_write_index (b : SocketBuffer) (step : Z) : SocketBuffer :=
  set_write_index b (u64 (m_write_idx b + step)).

Definition is_readable (b : SocketBuffer) : bool := m_read_idx b <? m_write_idx b.
Definition is_writeable (b : SocketBuffer) : bool := m_write_idx b <? m_buffer_len b.
Definition readable_len (b : SocketBuffer) : Z :=
  if is_readable b then m_write_idx b - m_read_idx b else 0.
Definition writeable_len (b : SocketBuffer) : Z :=
  if is_writeable b then m_buffer_len b - m_write_idx b else 0.
Definition capacity (b : SocketBuffer) : Z := m_buffer_len b.
Definition limit (b : SocketBuffer) : SocketBuffer :=
  mk (m_buffer b) (m_write_idx b) (m_write_idx b) (m_read_idx b).
Definition clear (b : SocketBuffer) : SocketBuffer :=
  mk (m_buffer b) (m_buffer_len b) 0 0.

(** [while (cap < min_cap) cap <<= 1] on [size_t].  After 64 doublings the
    64-bit [cap] is 0 and stays 0, so running out of this fuel is exactly a
    loop that never ends. *)
Fixpoint grow (fuel : nat) (cap min_cap : Z) : option Z :=
  if cap <? min_cap then
    match fuel with
    | O => None
    | S fuel => grow fuel (u64 (Z.shiftl cap 1)) min_cap
    end
  else Some cap.

Section ops.
Context `{Malloc}.

Definition compact (b : SocketBuffer) (size : Z) : option (Z * SocketBuffer) :=
  if writeable_len b <? size then Some (0, b) else
  let total := u32 (capacity b) in
  let readable_bytes := u32 (readable_len b) in
  let finish new_buffer :=
    (u32 (total - readable_bytes), mk new_buffer readable_bytes readable_bytes 0) in
  if 0 <? readable_bytes then
    match malloc readable_bytes with
    | None => Some (0, b)
    | Some new_buffer =>
        d ← mem_read (m_buffer b) (m_read_idx b) readable_bytes;
        new_buffer ← mem_write new_buffer 0 d;
        Some (finish new_buffer)
    end
  else Some (finish []).

Definition ensure_writeable (b : SocketBuffer) (min : Z) : option (bool * SocketBuffer) :=
  if min <=? writeable_len b then Some (true, b) else
  let cap := capacity b in
  '(_, b) ← (if BUFFER_MAX_READ <? cap then compact b min else Some (0, b));
  let cap := if cap =? 0 then DEFAULT_BUFFER_SIZE else cap in
  let min_cap := u64 (m_write_idx b + min) in
  cap ← grow 64 cap min_cap;
  match malloc cap with
  | Some tmp =>
      d ← mem_read (m_buffer b) (m_read_idx b) (readable_len b);
      tmp ← mem_write tmp 0 d;
      Some (true, mk tmp cap (readable_len b) 0)
  | None => Some (false, b)
  end.

Definition _write (b : SocketBuffer) (data : bytes) : option (Z * SocketBuffer) :=
  '(ok, b) ← ensure_writeable b (zlen data);
  if (ok : bool) then
    m ← mem_write (m_buffer b) (m_write_idx b) data;
    Some (i32 (zlen data), mk m (m_buffer_len b) (u64 (m_write_idx b + zlen data)) (m_read_idx b))
  else Some (-1, b).

Definition write_byte (b : SocketBuffer) (ch : ascii) : option (Z * SocketBuffer) := _write b [ch].

Definition _read (b : SocketBuffer) (len : Z) : option (Z * bytes * SocketBuffer) :=
  if readable_len b <? len then Some (-1, [], b) else
  d ← mem_read (m_buffer b) (m_read_idx b) len;
  Some (i32 len, d, set_read_index b (u64 (m_read_idx b + len))).

Definition read_byte (b : SocketBuffer) : option (bool * bytes * SocketBuffer) :=
  '(n, d, b) ← _read b 1; Some (n =? 1, d, b).

(** [_write(SocketBuffer* unit, size_t len)]: moves bytes from [unit] into
    this buffer; the result is (ret, this, unit). *)
Definition write_unit (b unit : SocketBuffer) (len : Z) : option (Z * SocketBuffer * SocketBuffer) :=
  let len := if readable_len unit <? len then readable_len unit else len in
  d ← mem_read (m_buffer unit) (m_read_idx unit) len;
  '(ret, b) ← _write b d;
  let unit := if 0 <? ret then set_read_index unit (u64 (m_read_idx unit + ret)) else unit in
  Some (ret, b, unit).

(** [_read(SocketBuffer* unit, size_t len)]: the result is (ret, this, unit). *)
Definition read_unit (b unit : SocketBuffer) (len : Z) : option (Z * SocketBuffer * SocketBuffer) :=
  '(ret, unit, b) ← write_unit unit b len; Some (ret, b, unit).

Definition set_bytes (b : SocketBuffer) (data : bytes) (index : Z) : option (Z * SocketBuffer) :=
  if m_write_idx b <? u64 (index + zlen data) then Some (-1, b) else
  m ← mem_write (m_buffer b) index data;
  Some (i32 (zlen data), mk m (m_buffer_len b) (m_write_idx b) (m_read_idx b)).

Definition copy_out (b : SocketBuffer) (len : Z) : option (Z * bytes) :=
  if len =? 0 then Some (0, []) else
  let len := if readable_len b <? len then readable_len b else len in
  d ← mem_read (m_buffer b) (m_read_idx b) len;
  Some (i32 len, d).

(** [copy_out(SocketBuffer* unit, size_t len)]: this buffer is unchanged;
    the result is (ret, unit). *)
Definition copy_out_unit (b unit : SocketBuffer) (len : Z) : option (Z * SocketBuffer) :=
  '(ok, unit) ← ensure_writeable unit len;
  if (ok : bool) then
    '(ret, d) ← copy_out b len;
    m ← mem_write (m_buffer unit) (m_write_idx unit) d;
    let unit := mk m (m_buffer_len unit) (m_write_idx unit) (m_read_idx unit) in
    Some (ret, if 0 <? ret then set_write_index unit (u64 (m_write_idx unit + ret)) else unit)
  else Some (-1, unit).

Definition skip_bytes (b : SocketBuffer) (len : Z) : SocketBuffer := advance_read_index b (i32 len).

Definition DiscardReadedBytes (b : SocketBuffer) : option SocketBuffer :=
  if 0 <? m_read_idx b then
    if is_readable b then
      let tmp := readable_len b in
      d ← mem_read (m_buffer b) (m_read_idx b) tmp;
      m ← mem_write (m_buffer b) 0 d;
      Some (mk m (m_buffer_len b) tmp 0)
    else Some (mk (m_buffer b) (m_buffer_len b) 0 0)
  else Some b.

Definition ToString (b : SocketBuffer) : option bytes :=
  mem_read (m_buffer b) (m_read_idx b) (readable_len b).

(** [_vprintf]: [text] is what the format and its arguments expand to.
    [vsnprintf] stores at most [space - 1] characters and a NUL, and returns
    the length of the whole expansion, or -1 when it is no [int].  The loop runs
    at most twice: the second time there is room for twice the text. *)
Definition vsnprintf (m : bytes) (off space : Z) (text : bytes) : option bytes :=
  if space =? 0 then Some m
  else mem_write m off (take (Z.to_nat (space - 1)) text ++ [NUL]).

Fixpoint vprintf_loop (fuel : nat) (b : SocketBuffer) (text : bytes) (result : Z)
  : option (Z * SocketBuffer) :=
  match fuel with
  | O => None
  | S fuel =>
      let space := writeable_len b in
      let sz := if INT_MAX <? zlen text then -1 else zlen text in
      m ← vsnprintf (m_buffer b) (m_write_idx b) space text;
      let b := mk m (m_buffer_len b) (m_write_idx b) (m_read_idx b) in
      if sz <? 0 then Some (result, b) else
      let result := i32 (result + sz) in
      if sz <? space then Some (result, advance_write_index b sz) else
      '(ok, b) ← ensure_writeable b (u64 (i32 (Z.shiftl sz 1)));
      if (ok : bool) then vprintf_loop fuel b text result else Some (result, b)
  end.

Definition _vprintf (b : SocketBuffer) (text : bytes) : option (Z * SocketBuffer) :=
  '(ok, b) ← ensure_writeable b 64;
  if (ok : bool) then vprintf_loop 2 b text 0 else Some (0, b).

(** [write_fd]: the result is (n, err, bytes the kernel took, buffer). *)
Definition write_fd (b : SocketBuffer) (err : Z) (io : io_write)
  : option (Z * Z * bytes * SocketBuffer) :=
  let readable := i32 (readable_len b) in
  if readable =? 0 then Some (0, err, [], b) else
  d ← mem_read (m_buffer b) (m_read_idx b) readable;
  match io with
  | SendErr e => Some (-1, e, [], b)
  | SentBytes n =>
      if (0 <=? n) && (n <=? readable)
      then Some (n, err, take (Z.to_nat n) d, set_read_index b (u64 (m_read_idx b + n)))
      else None
  end.

(** [read_fd]: [readv] fills the writable part of the buffer first and
    [extrabuf] (offered only when the writable part is at most its size) with
    the rest.  The result is (n, err, buffer). *)
Definition read_fd (b : SocketBuffer) (err : Z) (io : io_read) : option (Z * Z * SocketBuffer) :=
  let writable := writeable_len b in
  match io with
  | RecvErr e => Some (-1, e, b)
  | RecvData d =>
      let n := zlen d in
      let offered := if EXTRABUF_SIZE <? writable then writable else writable + EXTRABUF_SIZE in
      if (offered <? n) || (MAX_RW_COUNT <? n) then None else
      m ← mem_write (m_buffer b) (m_write_idx b) (take (Z.to_nat writable) d);
      let b := mk m (m_buffer_len b) (m_write_idx b) (m_read_idx b) in
      if n <=? writable then Some (n, err, set_write_index b (u64 (m_write_idx b + n)))
      else
        '(_, b) ← _write (set_write_index b (m_buffer_len b)) (drop (Z.to_nat writable) d);
        Some (n, err, b)
  end.

End ops.

(** ** The invariant and the queue a buffer stands for

    [wf] is the picture of the header file:
    [0 <= m_read_idx <= m_write_idx <= m_buffer_len], inside the block. *)

Record wf (b : SocketBuffer) : Prop := mk_wf {
  wf_read : 0 <= m_read_idx b;
  wf_read_write : m_read_idx b <= m_write_idx b;
  wf_write_len : m_write_idx b <= m_buffer_len b;
  wf_len_block : m_buffer_len b <= zlen (m_buffer b);
  wf_block : zlen (m_buffer b) <= ADDRESS_SPACE;
}.

(** The bytes a reader has not consumed yet. *)
Definition contents (b : SocketBuffer) : bytes :=
  slice (m_read_idx b) (m_write_idx b - m_read_idx b) (m_buffer b).

Lemma wf_empty : wf empty.
Proof. split; done. Qed.

Lemma contents_empty : contents empty = [].
Proof. reflexivity. Qed.

Lemma readable_len_wf b : wf b -> readable_len b = m_write_idx b - m_read_idx b.
Proof.
  intros []. unfold readable_len, is_readable.
  destruct (Z.ltb_spec (m_read_idx b) (m_write_idx b)); lia.
Qed.

Lemma writeable_len_wf b : wf b -> writeable_len b = m_buffer_len b - m_write_idx b.
Proof.
  intros []. unfold writeable_len, is_writeable.
  destruct (Z.ltb_spec (m_write_idx b) (m_buffer_len b)); lia.
Qed.

Lemma zlen_contents b : wf b -> zlen (contents b) = m_write_idx b - m_read_idx b.
Proof. intros []. apply zlen_slice; lia. Qed.

Lemma readable_len_contents b : wf b -> readable_len b = zlen (contents b).
Proof. intros W. by rewrite readable_len_wf, zlen_contents. Qed.

(** A block whose first bytes are the unread bytes, read from index 0. *)
Lemma contents_copy (m d : bytes) n cap :
  mem_write m 0 d = Some n -> zlen d <= cap -> cap <= zlen m -> zlen m <= ADDRESS_SPACE ->
  wf (mk n cap (zlen d) 0) /\ contents (mk n cap (zlen d) 0) = d.
Proof.
  intros E ???. pose proof (mem_write_zlen _ _ _ _ E) as L.
  pose proof (mem_write_slice _ _ _ _ 0 E) as S. split.
  - split; simpl; pose proof (zlen_nonneg d); lia.
  - unfold contents; simpl. simpl in S. rewrite Z.sub_0_r. apply S; lia.
Qed.

Lemma grow_ok fuel cap min_cap :
  0 < cap -> min_cap <= 2 ^ 63 -> min_cap <= cap * 2 ^ Z.of_nat fuel ->
  exists cap', grow fuel cap min_cap = Some cap' /\ cap <= cap' /\ min_cap <= cap' /\
    cap' <= Z.max cap (2 * min_cap).
Proof.
  revert cap. induction fuel as [|fuel IH]; intros cap Hc Hm Hf; simpl.
  - destruct (Z.ltb_spec cap min_cap); [simpl in Hf; lia | eauto with lia].
  - destruct (Z.ltb_spec cap min_cap); [| eauto with lia].
    rewrite Z.shiftl_mul_pow2, u64_small by lia.
    destruct (IH (cap * 2 ^ 1)) as (c & -> & ? & ? & ?); [lia | lia | | eauto with lia].
    rewrite <- Z.mul_assoc, <- Z.pow_add_r by lia.
    by replace (1 + Z.of_nat fuel) with (Z.of_nat (S fuel)) by lia.
Qed.

#[global] Arguments grow : simpl never.

(** The largest block [ensure_writeable] may ask for. *)
Definition grow_bound (b : SocketBuffer) (min : Z) : Z := 2 * (m_buffer_len b + min) + 32.

(** The allocator has blocks of up to [n] bytes left. *)
Definition alloc_ok `{Malloc} (n : Z) : Prop := forall k, 0 <= k <= n -> malloc k <> None.

(** An allocation of at most [n] bytes failed. *)
Definition alloc_fails `{Malloc} (n : Z) : Prop := exists k, 0 <= k <= n /\ malloc k = None.

Lemma alloc_fails_mono `{Malloc} n k : alloc_fails n -> n <= k -> alloc_fails k.
Proof. intros (j & ? & ?) ?. exists j. split; [lia | done]. Qed.

Lemma alloc_ok_fails `{Malloc} n k : alloc_ok n -> alloc_fails k -> k <= n -> False.
Proof. intros O (j & ? & E) ?. apply (O j); [lia | done]. Qed.

Section specs.
Context `{MallocSpec}.

Lemma compact_spec b size :
  wf b -> readable_len b < 2 ^ 32 ->
  exists ret b', compact b size = Some (ret, b') /\ wf b' /\ contents b' = contents b.
Proof.
  intros W R. pose proof (zlen_contents b W) as C. pose proof (readable_len_wf b W) as L.
  pose proof W as []. unfold compact.
  destruct (writeable_len b <? size); [by kresult |].
  rewrite (u32_small (readable_len b)) by lia.
  kcase.
  - destruct (malloc (readable_len b)) as [nb|] eqn:E; [| by kresult].
    apply malloc_zlen in E as [E ?]; [| lia].
    rewrite L in *. rewrite mem_read_ok by lia. simpl. fold (contents b).
    rewrite mem_write_ok by lia. simpl.
    destruct (contents_copy nb (contents b) _ (m_write_idx b - m_read_idx b)
                (mem_write_ok nb 0 (contents b) ltac:(lia) ltac:(lia))) as [? HC]; try lia.
    rewrite C in *. kresult.
  - assert (readable_len b = 0) as E by lia. rewrite E. kresult.
    symmetry. apply zlen_nil_inv. lia.
Qed.

(** [ensure_writeable] only calls [compact] when there is not enough room,
    and [compact] returns at once in that case. *)
Lemma compact_short b size : writeable_len b < size -> compact b size = Some (0, b).
Proof. intros L. unfold compact. apply Z.ltb_lt in L. by rewrite L. Qed.

Lemma ensure_writeable_spec b min :
  wf b -> 0 <= min <= 2 ^ 62 ->
  exists ok b', ensure_writeable b min = Some (ok, b') /\ wf b' /\ contents b' = contents b /\
    m_buffer_len b' <= grow_bound b min /\
    (if (ok : bool) then m_write_idx b' + min <= m_buffer_len b'
     else b' = b /\ alloc_fails (grow_bound b min)).
Proof.
  intros W M. pose proof (zlen_contents b W) as C. pose proof (readable_len_wf b W) as L.
  pose proof (writeable_len_wf b W) as LW. pose proof W as [].
  unfold ADDRESS_SPACE, grow_bound, alloc_fails in *.
  unfold ensure_writeable.
  destruct (Z.leb_spec min (writeable_len b)) as [G|G]; [by kresult |].
  assert ((if BUFFER_MAX_READ <? capacity b then compact b min else Some (0, b)) = Some (0, b)) as ->.
  { destruct (_ <? _); [by apply compact_short | done]. }
  simpl. rewrite u64_small by lia.
  set (cap := if capacity b =? 0 then DEFAULT_BUFFER_SIZE else capacity b).
  assert (0 < cap /\ capacity b <= cap <= m_buffer_len b + 32) as [? ?].
  { subst cap. unfold capacity, DEFAULT_BUFFER_SIZE. kcase; lia. }
  destruct (grow_ok 64 cap (m_write_idx b + min)) as (cap' & -> & ? & ? & CM); [lia..|]. simpl.
  unfold capacity in *.
  destruct (malloc cap') as [tmp|] eqn:E; [| kresult; exists cap'; split; [lia | done]].
  apply malloc_zlen in E as [E ?]; [| lia].
  rewrite L in *. rewrite mem_read_ok by lia. simpl. fold (contents b).
  rewrite mem_write_ok by lia. simpl.
  destruct (contents_copy tmp (contents b) _ cap'
              (mem_write_ok tmp 0 (contents b) ltac:(lia) ltac:(lia))) as [? HC]; try lia.
  rewrite C in *. kresult.
Qed.

(** Taking [n] unread bytes. *)
Lemma consume_spec b n :
  wf b -> 0 <= n <= zlen (contents b) ->
  mem_read (m_buffer b) (m_read_idx b) n = Some (take (Z.to_nat n) (contents b)) /\
  wf (set_read_index b (u64 (m_read_idx b + n))) /\
  contents (set_read_index b (u64 (m_read_idx b + n))) = drop (Z.to_nat n) (contents b).
Proof.
  intros W N. rewrite zlen_contents in N by done. pose proof W as []. unfold ADDRESS_SPACE in *.
  rewrite u64_small by lia. rewrite mem_read_ok by lia. unfold contents, slice; simpl. split_and!.
  - rewrite take_take. by replace (Z.to_nat n `min` _)%nat with (Z.to_nat n) by lia.
  - split; simpl; unfold ADDRESS_SPACE; lia.
  - rewrite skipn_firstn_comm, drop_drop. f_equal; [lia | f_equal; lia].
Qed.

Lemma _write_spec b data :
  wf b -> zlen data <= INT_MAX ->
  exists ret b', _write b data = Some (ret, b') /\ wf b' /\
    m_buffer_len b' <= grow_bound b (zlen data) /\
    (ret = zlen data /\ contents b' = contents b ++ data \/
     ret = -1 /\ b' = b /\ alloc_fails (grow_bound b (zlen data))).
Proof.
  unfold INT_MAX. intros W D. pose proof (zlen_nonneg data).
  destruct (ensure_writeable_spec b (zlen data)) as (ok & b' & E & W' & C' & B' & O); [done | lia |].
  unfold _write. rewrite E. simpl. destruct ok; [| destruct O as [-> ?]; kresult; right; kresult].
  pose proof W' as []. unfold ADDRESS_SPACE in *.
  destruct (mem_write (m_buffer b') (m_write_idx b') data) as [m|] eqn:M;
    [| rewrite mem_write_ok in M by lia; done].
  simpl. rewrite i32_small, u64_small by lia.
  pose proof (mem_write_zlen _ _ _ _ M).
  pose proof (mem_write_slice _ _ _ _ (m_read_idx b') M) as S.
  kresult.
  - split; simpl; unfold ADDRESS_SPACE; lia.
  - left. split; [done |]. rewrite <- C'. unfold contents; simpl.
    rewrite <- S by lia. f_equal; lia.
Qed.

Lemma _read_spec b len :
  wf b -> 0 <= len <= INT_MAX -> len <= zlen (contents b) ->
  exists b', _read b len = Some (len, take (Z.to_nat len) (contents b), b') /\ wf b' /\
    contents b' = drop (Z.to_nat len) (contents b).
Proof.
  unfold INT_MAX. intros W L LC. destruct (consume_spec b len) as (R & W' & C'); [done | lia |].
  unfold _read. rewrite readable_len_contents by done. kcase; [lia |].
  rewrite R. simpl. rewrite i32_small by lia. kresult.
Qed.

Lemma _read_short b len :
  wf b -> zlen (contents b) < len -> _read b len = Some (-1, [], b).
Proof. intros. unfold _read. rewrite readable_len_contents by done. kcase; [done | lia]. Qed.

Lemma skip_bytes_spec b len :
  wf b -> 0 <= len <= INT_MAX -> len <= zlen (contents b) ->
  wf (skip_bytes b len) /\ contents (skip_bytes b len) = drop (Z.to_nat len) (contents b).
Proof.
  unfold INT_MAX. intros W L LC. destruct (consume_spec b len) as (_ & W' & C'); [done | lia |].
  unfold skip_bytes, advance_read_index. by rewrite i32_small by lia.
Qed.

Lemma DiscardReadedBytes_spec b :
  wf b -> exists b', DiscardReadedBytes b = Some b' /\ wf b' /\ contents b' = contents b.
Proof.
  intros W. pose proof (zlen_contents b W) as C. pose proof (readable_len_wf b W) as L.
  pose proof W as []. unfold DiscardReadedBytes. kcase; [| kresult].
  destruct (is_readable b) eqn:R.
  - rewrite L. rewrite mem_read_ok by lia. simpl. fold (contents b).
    rewrite mem_write_ok by lia. simpl.
    destruct (contents_copy (m_buffer b) (contents b) _ (m_buffer_len b)
                (mem_write_ok (m_buffer b) 0 (contents b) ltac:(lia) ltac:(lia))) as [? HC]; try lia.
    rewrite C in *. kresult.
  - unfold is_readable in R. apply Z.ltb_ge in R. kresult; [split; simpl; lia |].
    symmetry. apply zlen_nil_inv. lia.
Qed.

Lemma write_fd_spec b err n :
  wf b -> zlen (contents b) <= INT_MAX -> 0 <= n <= zlen (contents b) ->
  exists b' m, write_fd b err (SentBytes n) = Some (m, err, take (Z.to_nat m) (contents b), b') /\
    wf b' /\ contents b' = drop (Z.to_nat m) (contents b) /\
    m = (if zlen (contents b) =? 0 then 0 else n).
Proof.
  unfold INT_MAX. intros W L N. destruct (consume_spec b n) as (R & W' & C'); [done | lia |].
  destruct (consume_spec b (zlen (contents b))) as (RA & _); [done | lia |].
  unfold write_fd. rewrite readable_len_contents, i32_small by (done || lia). kcase.
  - exists b, 0. by rewrite (zlen_nil_inv (contents b)) by done.
  - rewrite RA. simpl. do 2 kcase; try lia. simpl.
    eexists _, n. split; [| done]. rewrite take_take. do 3 f_equal. f_equal. lia.
Qed.

(** What [readv] may have put into the two buffers it is offered. *)
Definition recv_ok (b : SocketBuffer) (d : bytes) : Prop :=
  zlen d <= MAX_RW_COUNT /\
  zlen d <= (if EXTRABUF_SIZE <? writeable_len b then writeable_len b
             else writeable_len b + EXTRABUF_SIZE).

Lemma read_fd_spec b err d :
  wf b -> recv_ok b d ->
  exists b', read_fd b err (RecvData d) = Some (zlen d, err, b') /\ wf b' /\
    (contents b' = contents b ++ d \/
     contents b' = contents b ++ take (Z.to_nat (writeable_len b)) d /\
     alloc_fails (grow_bound b (zlen d))).
Proof.
  intros W [D1 D2]. pose proof (writeable_len_wf b W) as LW. pose proof W as [].
  unfold MAX_RW_COUNT in *. unfold read_fd. set (wr := writeable_len b) in *.
  pose proof (zlen_nonneg d).
  assert ((_ <? zlen d) || (MAX_RW_COUNT <? zlen d) = false) as -> by
    (apply orb_false_iff; split; apply Z.ltb_ge; unfold MAX_RW_COUNT; lia).
  set (d0 := take (Z.to_nat wr) d).
  assert (L0 : zlen d0 = Z.min wr (zlen d)) by (unfold d0, zlen in *; rewrite length_take; lia).
  destruct (mem_write (m_buffer b) (m_write_idx b) d0) as [m|] eqn:M;
    [| rewrite mem_write_ok in M by lia; done]. simpl.
  pose proof (mem_write_zlen _ _ _ _ M).
  pose proof (mem_write_slice _ _ _ _ (m_read_idx b) M) as S. unfold ADDRESS_SPACE in *.
  set (b0 := mk m (m_buffer_len b) (m_write_idx b + zlen d0) (m_read_idx b)).
  assert (W0 : wf b0) by (split; simpl; unfold ADDRESS_SPACE; lia).
  assert (C0 : contents b0 = contents b ++ d0).
  { unfold contents, b0; simpl. rewrite <- S by lia. f_equal; lia. }
  unfold set_write_index; simpl. kcase.
  - rewrite u64_small by lia. assert (d0 = d) as E.
    { unfold d0. apply take_ge. unfold zlen in *. lia. }
    exists b0. unfold b0 in *. rewrite E in *. ksplit.
  - assert (mk m (m_buffer_len b) (m_buffer_len b) (m_read_idx b) = b0) as ->
      by (unfold b0; f_equal; lia).
    destruct (_write_spec b0 (drop (Z.to_nat wr) d)) as (ret & b' & -> & W' & _ & R); [done | |].
    { unfold INT_MAX, zlen in *. rewrite length_drop. lia. }
    simpl. kresult. destruct R as [[? ->] | (? & -> & ?)]; rewrite C0; [left |].
    + rewrite <- app_assoc. f_equal. apply take_drop.
    + right. split; [done |]. eapply alloc_fails_mono; [done |]. unfold grow_bound; simpl.
      unfold zlen in *. rewrite length_drop. lia.
Qed.

(** One round of [_vprintf]'s loop: the bytes already in the queue are kept,
    and the text joins them when it fits with its NUL. *)
Lemma vsnprintf_spec b text :
  wf b -> 0 < writeable_len b ->
  exists m, vsnprintf (m_buffer b) (m_write_idx b) (writeable_len b) text = Some m /\
    wf (mk m (m_buffer_len b) (m_write_idx b) (m_read_idx b)) /\
    contents (mk m (m_buffer_len b) (m_write_idx b) (m_read_idx b)) = contents b /\
    (zlen text < writeable_len b ->
     let b' := mk m (m_buffer_len b) (u64 (m_write_idx b + zlen text)) (m_read_idx b) in
     wf b' /\ contents b' = contents b ++ text).
Proof.
  intros W S. pose proof (writeable_len_wf b W) as LW. pose proof W as []. unfold vsnprintf.
  kcase; [lia |]. set (d := take _ text ++ [NUL]). unfold ADDRESS_SPACE in *.
  assert (L : zlen d = Z.min (writeable_len b - 1) (zlen text) + 1).
  { unfold d. rewrite zlen_app. unfold zlen. rewrite length_take. simpl. lia. }
  pose proof (zlen_nonneg text).
  destruct (mem_write (m_buffer b) (m_write_idx b) d) as [m|] eqn:M;
    [| rewrite mem_write_ok in M by lia; done].
  pose proof (mem_write_zlen _ _ _ _ M).
  exists m. split; [done |]. split; [split; simpl; unfold ADDRESS_SPACE; lia |].
  unfold contents; simpl. split.
  - pose proof (mem_write_slice_take _ _ _ _ (m_read_idx b) 0 M) as E.
    rewrite app_nil_r, Z.add_0_r in E. apply E; lia.
  - intros. rewrite u64_small by lia. split; [split; simpl; unfold ADDRESS_SPACE; lia |].
    replace (m_write_idx b + zlen text - m_read_idx b)
      with (m_write_idx b - m_read_idx b + zlen text) by lia.
    rewrite (mem_write_slice_take _ _ _ _ (m_read_idx b) _ M) by lia. f_equal.
    unfold d. rewrite take_app_le by (unfold zlen in *; rewrite length_take; lia).
    rewrite take_take. apply take_ge. unfold zlen in *. lia.
Qed.

(** [_vprintf] appends the text; it returns the length of the text when the
    first attempt fits and twice that length when the buffer had to grow. *)
Lemma _vprintf_grows b text :
  wf b -> zlen text < 2 ^ 29 -> alloc_ok (4 * (m_buffer_len b + zlen text) + 512) ->
  exists b0 b', ensure_writeable b 64 = Some (true, b0) /\
    _vprintf b text =
      Some ((if zlen text <? writeable_len b0 then 1 else 2) * zlen text, b') /\
    (wf b' /\ contents b' = contents b ++ text) /\ m_buffer_len b' <= 4 * (m_buffer_len b + zlen text) + 512.
Proof.
  intros W T NF. pose proof (zlen_nonneg text).
  destruct (ensure_writeable_spec b 64) as (ok & b0 & E & W0 & C0 & B0 & O); [done | lia |].
  pose proof W as []. unfold grow_bound in *.
  destruct ok; [| destruct O as [_ F]; destruct (alloc_ok_fails _ _ NF F); lia].
  exists b0. unfold _vprintf. rewrite E. simpl. rewrite <- C0. clear E C0 W.
  pose proof (writeable_len_wf b0 W0) as L0.
  destruct (vsnprintf_spec b0 text) as (m & -> & W1 & C1 & F1); [done | lia |]. simpl.
  set (b1 := mk m (m_buffer_len b0) (m_write_idx b0) (m_read_idx b0)) in *.
  assert ((INT_MAX <? zlen text) = false) as G0 by (apply Z.ltb_ge; unfold INT_MAX; lia).
  rewrite G0. destruct (Z.ltb_spec (zlen text) 0); [lia |]. rewrite Z.add_0_l, (i32_small (zlen text)) by lia.
  destruct (Z.ltb_spec (zlen text) (writeable_len b0)) as [G|G].
  { destruct (F1 G) as [W' C']. eexists. split; [done |].
    rewrite Z.mul_1_l. split; [done |]. split; [split; [exact W' | exact C'] |]. simpl. lia. }
  rewrite Z.shiftl_mul_pow2 by lia. rewrite (i32_small (zlen text * 2 ^ 1)), (u64_small (zlen text * 2 ^ 1)) by lia.
  destruct (ensure_writeable_spec b1 (zlen text * 2 ^ 1)) as (ok & b2 & E & W2 & C2 & B2 & O2); [done | lia |].
  rewrite E. simpl. unfold grow_bound in O2, B2; simpl in O2, B2.
  destruct ok; [| destruct O2 as [_ F]; destruct (alloc_ok_fails _ _ NF F); lia].
  pose proof (writeable_len_wf b2 W2) as L2.
  destruct (vsnprintf_spec b2 text) as (m2 & -> & _ & _ & F2); [done | lia |]. simpl.
  destruct (Z.ltb_spec (zlen text) 0); [lia |].
  destruct (Z.ltb_spec (zlen text) (writeable_len b2)); [| lia].
  destruct F2 as [W' C']; [lia |]. eexists. split; [done |]. split.
  { rewrite i32_small by lia. do 2 f_equal. lia. }
  split; [| simpl; lia]. split; [exact W' |]. unfold advance_write_index, set_write_index; simpl in *. congruence.
Qed.

Lemma _vprintf_spec b text :
  wf b -> zlen text < 2 ^ 29 -> alloc_ok (4 * (m_buffer_len b + zlen text) + 512) ->
  exists b0 b', ensure_writeable b 64 = Some (true, b0) /\
    _vprintf b text =
      Some ((if zlen text <? writeable_len b0 then 1 else 2) * zlen text, b') /\
    wf b' /\ contents b' = contents b ++ text.
Proof. intros W T A. destruct (_vprintf_grows b text W T A) as (b0 & b' & E & P & C & _). by exists b0, b'. Qed.

(** ** The promise to the codecs: a first-in first-out byte queue

    A call on the buffer, the caller's obligations, and the bytes the call
    put into the queue and took out of it. *)

Inductive op :=
  | OWrite (d : bytes)
  | OPrintf (text : bytes)
  | ORecv (d : bytes)
  | ORead (len : Z)
  | OSkip (len : Z)
  | OSend (n : Z)
  | OCompact (size : Z)
  | OEnsure (min : Z)
  | ODiscard.

Definition op_ok (b : SocketBuffer) (o : op) : Prop :=
  match o with
  | OWrite d => zlen d <= INT_MAX
  | OPrintf t => zlen t < 2 ^ 29 /\ alloc_ok (4 * (m_buffer_len b + zlen t) + 512)
  | ORecv d => recv_ok b d /\ alloc_ok (grow_bound b (zlen d))
  | ORead len => 0 <= len <= INT_MAX
  | OSkip len => 0 <= len <= INT_MAX /\ len <= readable_len b
  | OSend n => readable_len b <= INT_MAX /\ 0 <= n <= readable_len b
  | OCompact _ => readable_len b < 2 ^ 32
  | OEnsure min => 0 <= min <= 2 ^ 62
  | ODiscard => True
  end.

Definition step (b : SocketBuffer) (o : op) : option (bytes * bytes * SocketBuffer) :=
  match o with
  | OWrite d => '(ret, b') ← _write b d; Some (if ret =? zlen d then d else [], [], b')
  | OPrintf t => '(_, b') ← _vprintf b t; Some (t, [], b')
  | ORecv d => '(_, _, b') ← read_fd b 0 (RecvData d); Some (d, [], b')
  | ORead len => '(_, d, b') ← _read b len; Some ([], d, b')
  | OSkip len => d ← mem_read (m_buffer b) (m_read_idx b) len; Some ([], d, skip_bytes b len)
  | OSend n => '(_, _, d, b') ← write_fd b 0 (SentBytes n); Some ([], d, b')
  | OCompact size => '(_, b') ← compact b size; Some ([], [], b')
  | OEnsure min => '(_, b') ← ensure_writeable b min; Some ([], [], b')
  | ODiscard => b' ← DiscardReadedBytes b; Some ([], [], b')
  end.

Lemma step_spec b o :
  wf b -> op_ok b o ->
  exists di do b', step b o = Some (di, do, b') /\ wf b' /\ contents b ++ di = do ++ contents b'.
Proof.
  intros W O. pose proof (readable_len_contents b W) as L.
  destruct o as [d|t|d|len|len|n|size|min|]; cbn [op_ok] in O; cbn [step].
  - destruct (_write_spec b d W O) as (ret & b' & -> & W' & _ & [[-> C]|(-> & -> & _)]); simpl.
    + rewrite Z.eqb_refl. kresult.
    + pose proof (zlen_nonneg d). destruct (Z.eqb_spec (-1) (zlen d)); [lia |]. kresult.
      apply app_nil_r.
  - destruct (_vprintf_spec b t W) as (? & b' & _ & -> & W' & C); [apply O | apply O |]. kresult.
  - destruct (read_fd_spec b 0 d W (proj1 O)) as (b' & -> & W' & [C|[_ F]]); [kresult |].
    destruct (alloc_ok_fails _ _ (proj2 O) F); lia.
  - destruct (decide (len <= zlen (contents b))).
    + destruct (_read_spec b len) as (b' & -> & W' & C); [done | lia | lia |]. simpl. kresult.
      rewrite C, take_drop. apply app_nil_r.
    + rewrite _read_short by (done || lia). kresult. apply app_nil_r.
  - destruct (consume_spec b len) as (-> & _); [done | lia |]. simpl.
    destruct (skip_bytes_spec b len) as [W' C]; [done | lia | lia |]. kresult.
    rewrite C, take_drop. apply app_nil_r.
  - destruct (write_fd_spec b 0 n) as (b' & m & -> & W' & C & _); [done | lia | lia |]. simpl. kresult.
    rewrite C, take_drop. apply app_nil_r.
  - destruct (compact_spec b size) as (? & b' & -> & W' & C); [done | lia |]. simpl. kresult.
    rewrite C. apply app_nil_r.
  - destruct (ensure_writeable_spec b min) as (? & b' & -> & W' & C & _); [done | lia |]. simpl. kresult.
    rewrite C. apply app_nil_r.
  - destruct (DiscardReadedBytes_spec b) as (b' & -> & W' & C); [done |]. simpl. kresult.
    rewrite C. apply app_nil_r.
Qed.

(** The buffers a client can reach from a new one, with everything that went
    into the queue and everything that came out of it. *)
Inductive trace : SocketBuffer -> bytes -> bytes -> Prop :=
  | trace_new : trace empty [] []
  | trace_step b i o c di do b' :
      trace b i o -> op_ok b c -> step b c = Some (di, do, b') -> trace b' (i ++ di) (o ++ do).

Lemma trace_inv b i o : trace b i o -> wf b /\ i = o ++ contents b.
Proof.
  induction 1 as [|b i o c di do b' T [W ->] O E].
  - split; [apply wf_empty | done].
  - destruct (step_spec b c W O) as (? & ? & ? & E' & W' & C). simplify_eq. split; [done |].
    rewrite <- !app_assoc. by f_equal.
Qed.

(** C11: a [SocketBuffer] is a byte queue.  Whatever sequence of reads, writes,
    formatted writes, socket transfers, skips, compactions and reallocations
    led to it, the indices satisfy
    [0 <= m_read_idx <= m_write_idx <= m_buffer_len] inside the block and the
    bytes accepted so far are exactly those delivered so far followed by the
    readable bytes: nothing is lost, duplicated or reordered.  This holds as
    long as formatted writes and reads from a socket get the memory they ask
    for; a write that gets none accepts nothing and says so.  When a read from
    a socket finds no memory for what does not fit, the bytes that fit are
    appended, the others are lost, and the caller is told the number of all.
    (The sizes are those that the callers have: at most [INT_MAX], texts below
    [2^29] and reads no larger than the kernel allows.) *)
Theorem socket_buffer_fifo b i o :
  trace b i o -> (wf b /\ i = o ++ contents b) /\
  forall d err, recv_ok b d -> exists b', read_fd b err (RecvData d) = Some (zlen d, err, b') /\ wf b' /\
    (contents b' = contents b ++ d \/
     contents b' = contents b ++ take (Z.to_nat (writeable_len b)) d /\ alloc_fails (grow_bound b (zlen d))).
Proof. intros T. destruct (trace_inv _ _ _ T) as [W C]. split; [done |]. intros d err R. by apply read_fd_spec. Qed.

(** C20: no call on a reachable buffer reads or writes outside its block, and
    the doubling loop of [ensure_writeable] ends: every operation whose
    caller obligations hold returns a buffer that is reachable again. *)
Theorem socket_buffer_safe b i o c :
  trace b i o -> op_ok b c ->
  exists di do b', step b c = Some (di, do, b') /\ trace b' (i ++ di) (o ++ do).
Proof.
  intros T O. destruct (trace_inv _ _ _ T) as [W _].
  destruct (step_spec b c W O) as (di & do & b' & E & _). exists di, do, b'. split; [done |].
  by eapply trace_step.
Qed.

(** [_vprintf] appends exactly the formatted text, but what it returns is
    the length of the text only when the first attempt fits in the space
    [ensure_writeable(64)] gives; when the buffer has to grow a second time
    it returns twice the length, because the length of both attempts is added
    to [result]. *)
Theorem vprintf_appends_and_counts b text :
  wf b -> zlen text < 2 ^ 29 -> alloc_ok (4 * (m_buffer_len b + zlen text) + 512) ->
  exists b0 b', ensure_writeable b 64 = Some (true, b0) /\
    _vprintf b text =
      Some ((if zlen text <? writeable_len b0 then 1 else 2) * zlen text, b') /\
    wf b' /\ contents b' = contents b ++ text.
Proof. apply _vprintf_spec. Qed.

End specs.

(** ** Witnesses: an allocator that zeroes its blocks *)

Definition zero_malloc : Malloc := fun n =>
  if n <=? ADDRESS_SPACE then Some (replicate (Z.to_nat n) NUL) else None.

Lemma zero_malloc_spec : @MallocSpec zero_malloc.
Proof.
  intros n b N. unfold malloc, zero_malloc. kcase; intros [=]; subst.
  unfold zlen. rewrite length_replicate. lia.
Qed.

Lemma zero_malloc_ok n : n <= ADDRESS_SPACE -> @alloc_ok zero_malloc n.
Proof. intros L k K. unfold malloc, zero_malloc. kcase; [done | lia]. Qed.

(** A buffer that holds exactly the bytes [d]. *)
Definition buffer_of (d : bytes) : SocketBuffer := mk d (zlen d) (zlen d) 0.

Lemma wf_buffer_of d : zlen d <= ADDRESS_SPACE -> wf (buffer_of d).
Proof. intros. pose proof (zlen_nonneg d). split; simpl; lia. Qed.

Lemma contents_buffer_of d : contents (buffer_of d) = d.
Proof. unfold contents; simpl. rewrite Z.sub_0_r. apply slice_all. Qed.

Definition hello : bytes := str_bytes "hello world".

Definition run1 (b : SocketBuffer) (o : op) : SocketBuffer :=
  match @step zero_malloc b o with Some (_, _, b') => b' | None => b end.

Lemma hello_trace :
  @trace zero_malloc (run1 (run1 empty (OWrite hello)) (ORead 5)) hello (str_bytes "hello").
Proof.
  apply (@trace_step zero_malloc (run1 empty (OWrite hello)) hello [] (ORead 5) [] (str_bytes "hello")).
  - apply (@trace_step zero_malloc empty [] [] (OWrite hello) hello []);
      [apply trace_new | done | vm_compute; reflexivity].
  - done.
  - vm_compute; reflexivity.
Defined.

Lemma socket_buffer_fifo_witness :
  let b := run1 (run1 empty (OWrite hello)) (ORead 5) in
  wf b /\ hello = str_bytes "hello" ++ contents b.
Proof. exact (proj1 (@socket_buffer_fifo zero_malloc zero_malloc_spec _ _ _ hello_trace)). Defined.

Lemma socket_buffer_safe_witness :
  exists di do b', @step zero_malloc empty (OWrite hello) = Some (di, do, b') /\
    @trace zero_malloc b' ([] ++ di) ([] ++ do).
Proof.
  apply (@socket_buffer_safe zero_malloc zero_malloc_spec empty [] [] (OWrite hello)).
  - apply trace_new.
  - done.
Defined.

(** A line of 100 characters on a new buffer: 200 is returned. *)
Lemma vprintf_appends_and_counts_witness :
  exists b0 b', @ensure_writeable zero_malloc empty 64 = Some (true, b0) /\
    @_vprintf zero_malloc empty (replicate 100 "a"%char) =
      Some ((if 100 <? writeable_len b0 then 1 else 2) * 100, b') /\
    wf b' /\ contents b' = contents empty ++ replicate 100 "a"%char /\
    (if 100 <? writeable_len b0 then 1 else 2) * 100 = 200.
Proof.
  destruct (@vprintf_appends_and_counts zero_malloc zero_malloc_spec empty (replicate 100 "a"%char))
    as (b0 & b' & E & V & W & C).
  - apply wf_empty.
  - reflexivity.
  - apply zero_malloc_ok. vm_compute. discriminate.
  - exists b0, b'. assert (b0 = mk (replicate 64 NUL) 64 0 0) as ->
      by (vm_compute in E; injection E as <-; reflexivity).
    done.
Defined.

End SocketBuffer.
