(* ===== verification/Proto.v ===== *)
(** * Messages and their wire format

    [MsgHead] and [MsgBody] are the messages of [protobuf/proto/msg.proto]; the
    classes that serialise them are generated by protoc at build time, so
    serialisation is a parameter of the model (class [Protobuf]) and
    [ProtobufSpec] states what the code relies on: the proto3 wire format of
    a message with three fixed-width fields, and that parsing inverts
    serialising when the numbers are in range and the strings are UTF-8.  [WireFormat] at the end of the file is a concrete instance.

    The system messages of [protobuf/sys/nodes.proto] and [payload.proto] are
    handled in the same way by the files that use them. *)

From S2P Require Import Prelude.

Module Pb.

(** [fd_t] of [server.h]: a socket and the id of its connection. *)
Record fd_t := mk_fd { fd : Z; id : Z }.

Definition fd_default : fd_t := mk_fd (-1) 0.

Record MsgHead := mk_head { cmd : Z; seq : Z; len : Z }.

Inductive msg_type :=
  | NoType
  | ReqTarget (route_id : Z) (route : bytes)
  | RspResult (code : Z) (msg : bytes).

Record MsgBody := mk_body {
  body_type : msg_type;
  data : bytes;
  add_on : bytes;
  trace_id : bytes;
}.

Definition head_default : MsgHead := mk_head 0 0 0.
Definition body_default : MsgBody := mk_body NoType [] [] [].

(** [class Msg]: a head and a body created on first use, and the connection
    they came from. *)
Record Msg := mk_msg { ft : fd_t; head : MsgHead; body : MsgBody }.

Definition new_msg (f : fd_t) : Msg := mk_msg f head_default body_default.

(** [head()->Clear(); body()->Clear();] *)
Definition msg_clear (m : Msg) : Msg := mk_msg (ft m) head_default body_default.

(** The ranges of the field types: fixed32, sfixed32, uint32 and int32. *)
Definition head_wf (h : MsgHead) : Prop :=
  0 <= cmd h < 2 ^ 32 /\ 0 <= seq h < 2 ^ 32 /\ - 2 ^ 31 <= len h < 2 ^ 31.

(** UTF-8, without surrogates and without longer forms than needed: the proto3
    strings [route] and [trace_id] are refused by the parser otherwise. *)
Definition continues (c : ascii) : bool := (128 <=? uchar c) && (uchar c <? 192).

Fixpoint utf8 (l : bytes) : bool :=
  match l with
  | [] => true
  | a :: l1 =>
      let x := uchar a in
      if x <? 128 then utf8 l1 else
      match l1 with
      | [] => false
      | b :: l2 =>
          if (194 <=? x) && (x <? 224) then continues b && utf8 l2 else
          match l2 with
          | [] => false
          | c :: l3 =>
              if (224 <=? x) && (x <? 240)
              then continues b && continues c && (negb (x =? 224) || (160 <=? uchar b)) && (negb (x =? 237) || (uchar b <? 160)) && utf8 l3
              else
              match l3 with
              | [] => false
              | d :: l4 =>
                  (240 <=? x) && (x <? 245) && continues b && continues c && continues d &&
                  (negb (x =? 240) || (144 <=? uchar b)) && (negb (x =? 244) || (uchar b <? 144)) && utf8 l4
              end
          end
      end
  end.

Definition body_wf (b : MsgBody) : Prop :=
  utf8 (trace_id b) = true /\
  match body_type b with
  | NoType => True
  | ReqTarget r route => 0 <= r < 2 ^ 32 /\ utf8 route = true
  | RspResult c _ => - 2 ^ 31 <= c < 2 ^ 31
  end.

Class Protobuf := {
  head_serialize : MsgHead -> bytes;
  head_parse : bytes -> option MsgHead;
  body_serialize : MsgBody -> bytes;
  body_parse : bytes -> option MsgBody;
}.

(** proto3 leaves a field out of the wire when it holds its default value; a
    fixed-width 32-bit field takes a tag byte and four bytes. *)
Definition field_size (z : Z) : Z := if z =? 0 then 0 else 5.

Class ProtobufSpec `{Protobuf} : Prop := {
  head_size h : zlen (head_serialize h) = field_size (cmd h) + field_size (seq h) + field_size (len h);
  head_roundtrip h : head_wf h -> head_parse (head_serialize h) = Some h;
  body_roundtrip b : body_wf b -> body_parse (body_serialize b) = Some b;
}.

End Pb.

(** ** A concrete wire format

    The head as protobuf encodes it; the body with each string written as
    marked characters up to an end mark. *)

Module WireFormat.
Import Pb.

Definition le32 (z : Z) : bytes :=
  [char_of z; char_of (z / 2 ^ 8); char_of (z / 2 ^ 16); char_of (z / 2 ^ 24)].

Definition of_le32 (a b c d : ascii) : Z :=
  uchar a + 2 ^ 8 * uchar b + 2 ^ 16 * uchar c + 2 ^ 24 * uchar d.

Lemma of_le32_le32 z a b c d : le32 z = [a; b; c; d] -> of_le32 a b c d = u32 z.
Proof.
  intros [=]; subst. unfold of_le32. rewrite !uchar_char_of. unfold u8, u32.
  Z.div_mod_to_equations. lia.
Qed.

Lemma i32_u32 z : i32 (u32 z) = i32 z.
Proof. unfold i32, u32. by rewrite Z.mod_mod by lia. Qed.

Definition CMD_TAG : Z := 13.
Definition SEQ_TAG : Z := 21.
Definition LEN_TAG : Z := 29.

Definition enc_field (tag z : Z) : bytes := if z =? 0 then [] else char_of tag :: le32 z.

Definition enc_head (h : MsgHead) : bytes :=
  enc_field CMD_TAG (cmd h) ++ enc_field SEQ_TAG (seq h) ++ enc_field LEN_TAG (len h).

Fixpoint dec_fields (bs : bytes) (h : MsgHead) : option MsgHead :=
  match bs with
  | [] => Some h
  | t :: a :: b :: c :: d :: rest =>
      let v := of_le32 a b c d in
      if uchar t =? CMD_TAG then dec_fields rest (mk_head v (seq h) (len h))
      else if uchar t =? SEQ_TAG then dec_fields rest (mk_head (cmd h) v (len h))
      else if uchar t =? LEN_TAG then dec_fields rest (mk_head (cmd h) (seq h) (i32 v))
      else None
  | _ => None
  end.

Fixpoint enc_str (l : bytes) : bytes :=
  match l with [] => [NUL] | c :: l => char_of 1 :: c :: enc_str l end.

Fixpoint dec_str (bs : bytes) : option (bytes * bytes) :=
  match bs with
  | [] => None
  | m :: bs =>
      if uchar m =? 0 then Some ([], bs)
      else match bs with
           | [] => None
           | c :: bs => '(l, rest) ← dec_str bs; Some (c :: l, rest)
           end
  end.

Definition enc_type (t : msg_type) : bytes :=
  match t with
  | NoType => [char_of 0]
  | ReqTarget r s => char_of 1 :: le32 r ++ enc_str s
  | RspResult c s => char_of 2 :: le32 c ++ enc_str s
  end.

Definition dec_type (bs : bytes) : option (msg_type * bytes) :=
  match bs with
  | t :: rest =>
      if uchar t =? 0 then Some (NoType, rest)
      else match rest with
           | a :: b :: c :: d :: rest =>
               let v := of_le32 a b c d in
               '(s, rest) ← dec_str rest;
               if uchar t =? 1 then Some (ReqTarget v s, rest)
               else if uchar t =? 2 then Some (RspResult (i32 v) s, rest)
               else None
           | _ => None
           end
  | [] => None
  end.

Definition enc_body (b : MsgBody) : bytes :=
  enc_type (body_type b) ++ enc_str (data b) ++ enc_str (add_on b) ++ enc_str (trace_id b).

Definition dec_body (bs : bytes) : option MsgBody :=
  '(t, bs) ← dec_type bs;
  '(d, bs) ← dec_str bs;
  '(a, bs) ← dec_str bs;
  '(i, bs) ← dec_str bs;
  match bs with [] => Some (mk_body t d a i) | _ => None end.

Lemma dec_enc_str l rest : dec_str (enc_str l ++ rest) = Some (l, rest).
Proof. induction l as [|c l IH]; simpl; [done |]. by rewrite IH. Qed.

Lemma dec_enc_type t rest :
  match t with
  | NoType => True
  | ReqTarget r route => 0 <= r < 2 ^ 32 /\ utf8 route = true
  | RspResult c _ => - 2 ^ 31 <= c < 2 ^ 31
  end -> dec_type (enc_type t ++ rest) = Some (t, rest).
Proof.
  destruct t as [|r s|c s]; intros R; [done | |];
    unfold dec_type, enc_type, le32; rewrite <- app_comm_cons, <- app_assoc;
    rewrite uchar_char_of; simpl; rewrite dec_enc_str; simpl;
    erewrite of_le32_le32 by reflexivity.
  - by rewrite u32_small by apply R.
  - by rewrite i32_u32, i32_small.
Qed.

Lemma dec_enc_body b : body_wf b -> dec_body (enc_body b) = Some b.
Proof.
  intros [_ W]. unfold dec_body, enc_body. rewrite dec_enc_type by done. simpl.
  rewrite !dec_enc_str. simpl. rewrite dec_enc_str. simpl.
  rewrite <- (app_nil_r (enc_str (trace_id b))), dec_enc_str. by destruct b.
Qed.

Lemma dec_enc_head h : head_wf h -> dec_fields (enc_head h) head_default = Some h.
Proof.
  destruct h as [c s l]. intros (C & S & L); simpl in *.
  unfold enc_head, enc_field; simpl.
  destruct (Z.eqb_spec c 0) as [->|], (Z.eqb_spec s 0) as [->|], (Z.eqb_spec l 0) as [->|];
    unfold le32; simpl; rewrite ?uchar_char_of; cbn -[of_le32 i32];
    repeat (erewrite of_le32_le32 by reflexivity);
    rewrite ?i32_u32, ?u32_small, ?i32_small by lia; done.
Qed.

Lemma enc_head_size h :
  zlen (enc_head h) = field_size (cmd h) + field_size (seq h) + field_size (len h).
Proof.
  unfold enc_head, enc_field, field_size. rewrite !zlen_app.
  by repeat kcase.
Qed.

Definition wire : Protobuf := {|
  head_serialize := enc_head;
  head_parse := fun bs => dec_fields bs head_default;
  body_serialize := enc_body;
  body_parse := dec_body;
|}.

Lemma wire_spec : @ProtobufSpec wire.
Proof. split; [apply enc_head_size | apply dec_enc_head | apply dec_enc_body]. Qed.

End WireFormat.
