(* ===== verification/CodecProto.v ===== *)
(** * CodecProto: framing of protobuf messages

    Model of [codec/codec_proto.cpp].  A frame is a [MsgHead] of exactly 15
    bytes followed by [head.len()] bytes of [MsgBody].  Null pointers are
    [None]; the result [None] of a function is undefined behaviour (an access
    out of a block, a signed overflow). *)

From S2P Require Import Prelude SocketBuffer Proto.
Import SocketBuffer.

Module Codec.

(** [Codec::TYPE] and [Codec::STATUS] of [codec/codec.h]. *)
Inductive TYPE := UNKNOWN | PROTOBUF | HTTP | PRIVATE.
Inductive STATUS := OK | ERR | PAUSE | CLOSED.

#[export] Instance TYPE_eq_dec : EqDecision TYPE.
Proof. solve_decision. Defined.
#[export] Instance STATUS_eq_dec : EqDecision STATUS.
Proof. solve_decision. Defined.

(** [strcasecmp(a, b) == 0]. *)
Definition tolower (c : ascii) : ascii :=
  if (65 <=? uchar c) && (uchar c <=? 90) then char_of (uchar c + 32) else c.
Definition strcaseeq (a b : string) : bool :=
  bool_decide (tolower <$> str_bytes a = tolower <$> str_bytes b).

Definition get_codec_type (codec_type : string) : TYPE :=
  if strcaseeq codec_type "protobuf" then PROTOBUF
  else if strcaseeq codec_type "http" then HTTP
  else if strcaseeq codec_type "private" then PRIVATE
  else UNKNOWN.

End Codec.

Module CodecProto.
Import Codec.

Definition PROTO_MSG_HEAD_LEN : Z := 15.

Section codec.
Context `{Malloc} `{Pb.Protobuf}.

(** What [SerializeAsString().c_str()] points to: the bytes and a NUL. *)
Definition c_str_block (s : bytes) : bytes := s ++ [NUL].

Definition encode (msg : option Pb.Msg) (sbuf : option SocketBuffer)
  : option (STATUS * option SocketBuffer) :=
  match sbuf, msg with
  | Some sbuf, Some msg =>
      let head := Pb.head msg in
      let body := Pb.body msg in
      let body_len := zlen (Pb.body_serialize body) in
      d ← mem_read (c_str_block (Pb.head_serialize head)) 0 PROTO_MSG_HEAD_LEN;
      '(write_len, sbuf) ← _write sbuf d;
      if negb (write_len =? PROTO_MSG_HEAD_LEN) then Some (ERR, Some sbuf) else
      let len := write_len in
      if Pb.len head <=? 0 then Some (OK, Some sbuf) else
      d ← mem_read (c_str_block (Pb.body_serialize body)) 0 body_len;
      '(write_len, sbuf) ← _write sbuf d;
      if negb (write_len =? i32 body_len)
      then Some (ERR, Some (set_write_index sbuf (u64 (m_write_idx sbuf - len))))
      else Some (OK, Some sbuf)
  | _, _ => Some (ERR, sbuf)
  end.

(** The message is filled in place; after a failed parse its contents are
    unspecified and the callers do not look at them, the model leaves it as
    it was. *)
Definition decode (sbuf : option SocketBuffer) (msg : option Pb.Msg)
  : option (STATUS * option Pb.Msg * option SocketBuffer) :=
  match sbuf, msg with
  | Some b, Some m =>
      if readable_len b <? PROTO_MSG_HEAD_LEN then Some (PAUSE, msg, sbuf) else
      d ← mem_read (m_buffer b) (m_read_idx b) PROTO_MSG_HEAD_LEN;
      match Pb.head_parse d with
      | None => Some (ERR, msg, sbuf)
      | Some head =>
          let m := Pb.mk_msg (Pb.ft m) head (Pb.body m) in
          if Pb.len head <=? 0
          then Some (OK, Some m, Some (skip_bytes b PROTO_MSG_HEAD_LEN))
          else if INT_MAX <? PROTO_MSG_HEAD_LEN + Pb.len head then None
          else if i32 (readable_len b) <? PROTO_MSG_HEAD_LEN + Pb.len head
          then Some (PAUSE, Some m, sbuf)
          else
            d ← mem_read (m_buffer b) (m_read_idx b + PROTO_MSG_HEAD_LEN) (Pb.len head);
            match Pb.body_parse d with
            | None => Some (ERR, Some m, sbuf)
            | Some body =>
                Some (OK, Some (Pb.mk_msg (Pb.ft m) head body),
                      Some (skip_bytes b (PROTO_MSG_HEAD_LEN + Pb.len head)))
            end
      end
  | _, _ => Some (ERR, msg, sbuf)
  end.

End codec.

(** ** Frames *)

Definition frame `{Pb.Protobuf} (m : Pb.Msg) : bytes :=
  Pb.head_serialize (Pb.head m) ++ Pb.body_serialize (Pb.body m).

(** What [send_req], [send_ack] and the modules build: a non-zero command and
    sequence number, and the length of the serialised body in the head. *)
Record msg_ok `{Pb.Protobuf} (m : Pb.Msg) : Prop := mk_msg_ok {
  msg_head_wf : Pb.head_wf (Pb.head m);
  msg_body_wf : Pb.body_wf (Pb.body m);
  msg_cmd : Pb.cmd (Pb.head m) <> 0;
  msg_seq : Pb.seq (Pb.head m) <> 0;
  msg_len : Pb.len (Pb.head m) = zlen (Pb.body_serialize (Pb.body m));
  msg_len_pos : 0 < Pb.len (Pb.head m);
  msg_len_max : Pb.len (Pb.head m) <= INT_MAX - PROTO_MSG_HEAD_LEN;
}.

Section specs.
Context `{MallocSpec} `{Pb.ProtobufSpec}.

Lemma msg_ok_head_size m : msg_ok m -> zlen (Pb.head_serialize (Pb.head m)) = PROTO_MSG_HEAD_LEN.
Proof.
  intros []. rewrite Pb.head_size. unfold Pb.field_size. by repeat kcase; try lia.
Qed.

Lemma zlen_frame m : msg_ok m -> zlen (frame m) = PROTO_MSG_HEAD_LEN + Pb.len (Pb.head m).
Proof.
  intros M. unfold frame. rewrite zlen_app, msg_ok_head_size by done. by destruct M as [_ _ _ _ -> _ _].
Qed.

Lemma c_str_block_read s : mem_read (c_str_block s) 0 (zlen s) = Some s.
Proof.
  unfold c_str_block. rewrite mem_read_ok by (rewrite ?zlen_app; pose proof (zlen_nonneg s); unfold zlen in *; simpl; lia).
  rewrite slice_app_l by (pose proof (zlen_nonneg s); lia). by rewrite slice_all.
Qed.

(** The memory one [encode] may ask for. *)
Definition encode_bound (b : SocketBuffer) (m : Pb.Msg) : Z :=
  2 * (grow_bound b PROTO_MSG_HEAD_LEN + Pb.len (Pb.head m)) + 32.

Lemma encode_spec b m :
  wf b -> msg_ok m ->
  exists st b', encode (Some m) (Some b) = Some (st, Some b') /\ wf b' /\
    (st = OK /\ contents b' = contents b ++ frame m \/
     st = ERR /\ contents b' = contents b /\ alloc_fails (encode_bound b m)).
Proof.
  intros W M. pose proof M as [_ _ _ _ L LP LM]. pose proof (msg_ok_head_size m M) as HS.
  unfold encode. rewrite <- HS. rewrite (c_str_block_read (Pb.head_serialize _)).
  cbn [mbind option_bind]. rewrite HS.
  unfold encode_bound, INT_MAX, PROTO_MSG_HEAD_LEN in *. pose proof W as [].
  destruct (_write_spec b (Pb.head_serialize (Pb.head m))) as (r1 & b1 & -> & W1 & B1 & R1);
    [done | unfold INT_MAX; lia |]. simpl. rewrite HS in *.
  destruct R1 as [[-> C1] | (-> & -> & F)].
  2:{ kresult. right. ksplit. eapply alloc_fails_mono; [done |]. unfold grow_bound in *. lia. }
  simpl. destruct (Z.leb_spec (Pb.len (Pb.head m)) 0); [lia |].
  rewrite c_str_block_read. simpl.
  destruct (_write_spec b1 (Pb.body_serialize (Pb.body m))) as (r2 & b2 & -> & W2 & _ & R2);
    [done | unfold INT_MAX; lia |]. simpl. rewrite i32_small by lia. rewrite <- L in *.
  destruct R2 as [[-> C2] | (-> & -> & F)].
  - rewrite Z.eqb_refl. simpl. kresult. left. split; [done |]. unfold frame.
    by rewrite C2, C1, app_assoc.
  - destruct (Z.eqb_spec (-1) (Pb.len (Pb.head m))); [lia |]. simpl.
    pose proof (zlen_contents b1 W1) as L1. rewrite C1, zlen_app, HS in L1.
    pose proof (zlen_nonneg (contents b)). pose proof W1 as []. unfold ADDRESS_SPACE in *.
    rewrite u64_small by lia. kresult.
    + split; simpl; unfold ADDRESS_SPACE; lia.
    + right. ksplit.
      * unfold contents at 1. simpl.
        replace (m_write_idx b1 - 15 - m_read_idx b1) with (zlen (contents b)) by lia.
        rewrite <- (Z.add_0_r (m_read_idx b1)), <- (slice_slice _ (m_write_idx b1 - m_read_idx b1)) by lia.
        fold (contents b1). rewrite C1, slice_app_l by lia. apply slice_all.
      * eapply alloc_fails_mono; [done |]. unfold grow_bound in *. lia.
Qed.

(** The first bytes of the readable part of a buffer. *)
Lemma contents_slice b o n :
  wf b -> 0 <= o -> 0 <= n -> o + n <= zlen (contents b) ->
  mem_read (m_buffer b) (m_read_idx b + o) n = Some (slice o n (contents b)).
Proof.
  intros W ???. rewrite zlen_contents in * by done. pose proof W as [].
  rewrite mem_read_ok by lia. unfold contents. by rewrite slice_slice by lia.
Qed.

Lemma contents_slice0 b n :
  wf b -> 0 <= n <= zlen (contents b) ->
  mem_read (m_buffer b) (m_read_idx b) n = Some (slice 0 n (contents b)).
Proof. intros. rewrite <- contents_slice by (done || lia). by rewrite Z.add_0_r. Qed.

Lemma decode_frame b m rest m0 :
  wf b -> msg_ok m -> zlen (contents b) <= INT_MAX -> contents b = frame m ++ rest ->
  exists b', decode (Some b) (Some m0) =
      Some (OK, Some (Pb.mk_msg (Pb.ft m0) (Pb.head m) (Pb.body m)), Some b') /\
    wf b' /\ contents b' = rest.
Proof.
  intros W M LI C. pose proof M as [HW BW _ _ L LP LM]. pose proof (msg_ok_head_size m M) as HS.
  pose proof (zlen_frame m M) as FS. pose proof (zlen_nonneg rest).
  assert (LC : zlen (contents b) = zlen (frame m) + zlen rest) by (rewrite C; apply zlen_app).
  unfold INT_MAX, PROTO_MSG_HEAD_LEN in *. unfold decode. rewrite readable_len_contents by done.
  unfold PROTO_MSG_HEAD_LEN, INT_MAX in *. kcase; [lia |].
  rewrite contents_slice0 by (done || lia). simpl.
  assert (slice 0 15 (contents b) = Pb.head_serialize (Pb.head m)) as ->.
  { rewrite C. unfold frame. rewrite <- app_assoc, slice_app_l, <- HS by lia. apply slice_all. }
  rewrite Pb.head_roundtrip by done. destruct (Z.leb_spec (Pb.len (Pb.head m)) 0); [lia |].
  destruct (Z.ltb_spec (2 ^ 31 - 1) (15 + Pb.len (Pb.head m))); [lia |].
  rewrite i32_small by lia. kcase; [lia |].
  rewrite contents_slice by (done || lia). simpl.
  assert (slice 15 (Pb.len (Pb.head m)) (contents b) = Pb.body_serialize (Pb.body m)) as ->.
  { rewrite C. unfold frame. rewrite <- app_assoc, slice_app_r, HS, Z.sub_diag by lia.
    rewrite slice_app_l, L by lia. apply slice_all. }
  rewrite Pb.body_roundtrip by done.
  destruct (skip_bytes_spec b (15 + Pb.len (Pb.head m))) as [W' C']; [done | unfold INT_MAX; lia | lia |].
  kresult. rewrite C', C, <- FS. unfold zlen. rewrite Nat2Z.id. apply drop_app_length.
Qed.

(** A frame that has not arrived completely: the codec waits and consumes
    nothing. *)
Lemma decode_partial b m tail m0 :
  wf b -> msg_ok m -> frame m = contents b ++ tail -> tail <> [] ->
  exists m1, decode (Some b) (Some m0) = Some (PAUSE, Some m1, Some b) /\ Pb.ft m1 = Pb.ft m0.
Proof.
  intros W M C T. pose proof M as [HW BW _ _ L LP LM]. pose proof (msg_ok_head_size m M) as HS.
  pose proof (zlen_frame m M) as FS.
  assert (0 < zlen tail) by (destruct tail; [done | unfold zlen; simpl; lia]).
  assert (LC : zlen (frame m) = zlen (contents b) + zlen tail) by (rewrite C; apply zlen_app).
  unfold decode. rewrite readable_len_contents by done. unfold PROTO_MSG_HEAD_LEN, INT_MAX in *.
  pose proof (zlen_nonneg (contents b)).
  kcase; [eauto |].
  rewrite contents_slice0 by (done || lia). simpl.
  assert (slice 0 15 (contents b) = Pb.head_serialize (Pb.head m)) as ->.
  { rewrite <- (slice_app_l 0 15 _ tail), <- C by lia. unfold frame.
    rewrite slice_app_l, <- HS by lia. apply slice_all. }
  rewrite Pb.head_roundtrip by done. destruct (Z.leb_spec (Pb.len (Pb.head m)) 0); [lia |].
  destruct (Z.ltb_spec (2 ^ 31 - 1) (15 + Pb.len (Pb.head m))); [lia |].
  rewrite i32_small by lia. kcase; [eauto | lia].
Qed.

(** [encode] is atomic.  For a message with a non-empty body it either
    appends the whole frame and returns [OK], or, when memory runs out,
    returns [ERR] with the queue as it was: a failed body write takes the
    head back. *)
Theorem codec_encode_atomic b m :
  wf b -> msg_ok m ->
  exists st b', encode (Some m) (Some b) = Some (st, Some b') /\ wf b' /\
    (st = OK /\ contents b' = contents b ++ frame m \/
     st = ERR /\ contents b' = contents b /\ alloc_fails (encode_bound b m)).
Proof. apply encode_spec. Qed.

(** A head with a zero field is shorter than the bytes that are read from it. *)
Lemma encode_short b m : Pb.cmd (Pb.head m) = 0 \/ Pb.seq (Pb.head m) = 0 \/ Pb.len (Pb.head m) = 0 -> encode (Some m) (Some b) = None.
Proof.
  intros Z0. unfold encode. assert (zlen (c_str_block (Pb.head_serialize (Pb.head m))) < PROTO_MSG_HEAD_LEN) as L.
  { unfold c_str_block. rewrite zlen_app, Pb.head_size. unfold Pb.field_size, PROTO_MSG_HEAD_LEN. change (zlen [NUL]) with 1. repeat kcase; lia. }
  unfold mem_read. destruct (Z.leb_spec (0 + PROTO_MSG_HEAD_LEN) (zlen (c_str_block (Pb.head_serialize (Pb.head m))))); [lia |]. by rewrite andb_false_r.
Qed.

(** C17: what one side encodes the other side decodes.  A message with a
    non-zero command and sequence number, with UTF-8 text in the fields that
    are strings, and with a non-empty body of at most [INT_MAX - 15] bytes whose
    size is in its head, is encoded into an empty send buffer when the memory
    suffices; followed by anything else in the receive buffer (of at most
    [INT_MAX] bytes in all) it is decoded to the same head and body, and exactly
    its frame is consumed.  For a message whose command, sequence number or
    length is zero (a heartbeat without a body, say) encoding is undefined: the
    serialised head has fewer than the 15 bytes that are read. *)
Theorem codec_roundtrip b m r m0 rest :
  wf b -> msg_ok m -> alloc_ok (encode_bound b m) -> contents b = [] ->
  wf r -> zlen (contents r) <= INT_MAX ->
  (exists b', encode (Some m) (Some b) = Some (OK, Some b') /\
    (contents r = contents b' ++ rest ->
     exists r', decode (Some r) (Some m0) =
         Some (OK, Some (Pb.mk_msg (Pb.ft m0) (Pb.head m) (Pb.body m)), Some r') /\
       wf r' /\ contents r' = rest)) /\
  (forall m', Pb.cmd (Pb.head m') = 0 \/ Pb.seq (Pb.head m') = 0 \/ Pb.len (Pb.head m') = 0 -> encode (Some m') (Some b) = None).
Proof.
  intros W M A C WR LR. split; [| apply encode_short].
  destruct (encode_spec b m W M) as (st & b' & E & W' & [[-> C']|(_ & _ & F)]).
  - exists b'. split; [done |]. rewrite C', C. intros CR. by eapply decode_frame.
  - destruct (alloc_ok_fails _ _ A F); lia.
Qed.

(** [decode] waits for a whole frame.  As long as the receive buffer holds
    a strict prefix of the frame of a message (possibly cut inside the head)
    the answer is [PAUSE] and no byte is consumed. *)
Theorem codec_decode_waits b m tail m0 :
  wf b -> msg_ok m -> frame m = contents b ++ tail -> tail <> [] ->
  exists m1, decode (Some b) (Some m0) = Some (PAUSE, Some m1, Some b) /\ Pb.ft m1 = Pb.ft m0.
Proof. apply decode_partial. Qed.

(** A message whose head has a zero field, in particular one without a
    body, cannot be encoded: proto3 leaves the field out, the head is shorter
    than 15 bytes, and [_write(head->SerializeAsString().c_str(), 15)] reads
    past the end of the string. *)
Theorem codec_encode_empty_body_overreads b m :
  (Pb.cmd (Pb.head m) = 0 \/ Pb.seq (Pb.head m) = 0 \/ Pb.len (Pb.head m) = 0) ->
  encode (Some m) (Some b) = None.
Proof.
  intros Z0. unfold encode, mem_read.
  assert (zlen (c_str_block (Pb.head_serialize (Pb.head m))) <= 11) as L.
  { unfold c_str_block. rewrite zlen_app, Pb.head_size. unfold Pb.field_size.
    change (zlen [NUL]) with 1. repeat kcase; try lia; destruct_or! Z0; lia. }
  destruct (Z.leb_spec (0 + PROTO_MSG_HEAD_LEN) (zlen (c_str_block (Pb.head_serialize (Pb.head m)))));
    [unfold PROTO_MSG_HEAD_LEN in *; lia |]. by rewrite andb_false_r.
Qed.

(** The length a peer puts in the head is not bounded.  With a length of
    more than [INT_MAX - 15] the test of [decode] for a complete frame
    overflows a signed [int]. *)
Theorem codec_decode_length_overflow b h rest m0 :
  wf b -> Pb.head_wf h -> zlen (Pb.head_serialize h) = PROTO_MSG_HEAD_LEN ->
  contents b = Pb.head_serialize h ++ rest -> INT_MAX - PROTO_MSG_HEAD_LEN < Pb.len h ->
  decode (Some b) (Some m0) = None.
Proof.
  intros W HW HS C L. pose proof (zlen_nonneg rest).
  assert (LC : zlen (contents b) = 15 + zlen rest) by (rewrite C, zlen_app, HS; done).
  unfold decode. rewrite readable_len_contents by done. unfold INT_MAX, PROTO_MSG_HEAD_LEN in *.
  kcase; [lia |]. rewrite contents_slice0 by (done || lia). simpl.
  assert (slice 0 15 (contents b) = Pb.head_serialize h) as ->.
  { rewrite C, slice_app_l, <- HS by lia. apply slice_all. }
  rewrite Pb.head_roundtrip by done. do 2 (kcase; try lia). done.
Qed.

End specs.

(** ** Witnesses *)

Definition ping : Pb.Msg :=
  Pb.mk_msg Pb.fd_default (Pb.mk_head 1001 7 12) (Pb.mk_body Pb.NoType (str_bytes "ping") [] []).

#[local] Existing Instance zero_malloc.
#[local] Existing Instance WireFormat.wire.

Lemma ping_ok : msg_ok ping.
Proof. split; vm_compute; intuition discriminate. Qed.

Lemma codec_encode_atomic_witness :
  exists st b', encode (Some ping) (Some empty) = Some (st, Some b') /\ wf b' /\
    (st = OK /\ contents b' = contents empty ++ frame ping \/
     st = ERR /\ contents b' = contents empty /\ alloc_fails (encode_bound empty ping)).
Proof.
  exact (@codec_encode_atomic _ zero_malloc_spec _ WireFormat.wire_spec empty ping wf_empty ping_ok).
Defined.

Lemma codec_roundtrip_witness :
  let r := buffer_of (frame ping ++ str_bytes "more") in
  exists b', encode (Some ping) (Some empty) = Some (OK, Some b') /\
    (contents r = contents b' ++ str_bytes "more" ->
     exists r', decode (Some r) (Some (Pb.new_msg (Pb.mk_fd 9 2))) =
         Some (OK, Some (Pb.mk_msg (Pb.mk_fd 9 2) (Pb.head ping) (Pb.body ping)), Some r') /\
       wf r' /\ contents r' = str_bytes "more").
Proof.
  intros r.
  refine (proj1 (@codec_roundtrip _ zero_malloc_spec _ WireFormat.wire_spec empty ping r
           (Pb.new_msg (Pb.mk_fd 9 2)) (str_bytes "more") _ _ _ _ _ _)).
  - apply wf_empty.
  - apply ping_ok.
  - apply zero_malloc_ok. vm_compute. discriminate.
  - reflexivity.
  - apply wf_buffer_of. vm_compute. discriminate.
  - vm_compute. discriminate.
Defined.

Lemma codec_decode_waits_witness :
  let b := buffer_of (take 20 (frame ping)) in
  exists m1, decode (Some b) (Some (Pb.new_msg Pb.fd_default)) = Some (PAUSE, Some m1, Some b) /\
    Pb.ft m1 = Pb.fd_default.
Proof.
  intros b.
  apply (@codec_decode_waits WireFormat.wire WireFormat.wire_spec b ping (drop 20 (frame ping))
           (Pb.new_msg Pb.fd_default)).
  - apply wf_buffer_of. vm_compute. discriminate.
  - apply ping_ok.
  - reflexivity.
  - vm_compute. discriminate.
Defined.

Lemma codec_encode_empty_body_overreads_witness :
  encode (Some (Pb.mk_msg Pb.fd_default (Pb.mk_head 31 7 0) Pb.body_default)) (Some empty) = None.
Proof.
  apply (@codec_encode_empty_body_overreads _ _ WireFormat.wire_spec). right. right. reflexivity.
Defined.

Lemma codec_decode_length_overflow_witness :
  decode (Some (buffer_of (Pb.head_serialize (Pb.mk_head 1001 7 INT_MAX)))) (Some (Pb.new_msg Pb.fd_default))
  = None.
Proof.
  apply (@codec_decode_length_overflow _ WireFormat.wire_spec _ (Pb.mk_head 1001 7 INT_MAX) []).
  - apply wf_buffer_of. vm_compute. discriminate.
  - vm_compute. intuition discriminate.
  - reflexivity.
  - reflexivity.
  - reflexivity.
Defined.

#[global] Arguments encode : simpl never.
#[global] Arguments decode : simpl never.

End CodecProto.
