(* ===== verification/Connection.v ===== *)
(** * Connection: one socket with its buffers and its codec

    Model of [connection.h] and [connection.cpp].  The kernel's answers to
    [readv] and [send] are inputs, in the order of the calls; an empty list
    means that the socket has nothing (or takes nothing) at the moment.  The
    value of [now()] is an input as well.  The address and the private data of
    a connection are opaque to this class and are left out. *)

From S2P Require Import Prelude SocketBuffer Proto CodecProto.
Import SocketBuffer Codec.

Definition EAGAIN : Z := 11.

Module Connection.

Inductive STATE := UNKOWN | TRY_CONNECT | CONNECTING | CONNECTED | CLOSED_STATE | ERROR.

#[export] Instance STATE_eq_dec : EqDecision STATE.
Proof. solve_decision. Defined.

(** [m_codec] points to a [CodecProto] or to a [CodecHttp], which has its own
    keep-alive time; [codec_type] is the type tag of the base class. *)
Inductive codec_class := CProto | CHttp (keep_alive : Z).
Record codec := mk_codec { codec_cls : codec_class; codec_type : TYPE }.

Record Connection := mk {
  m_ft : Pb.fd_t;
  m_codec : option codec;
  m_is_system : bool;
  m_errno : Z;
  m_state : STATE;
  m_recv_buf : option SocketBuffer;
  m_send_buf : option SocketBuffer;
  m_node_id : string;
  m_read_cnt : Z;
  m_read_bytes : Z;
  m_write_cnt : Z;
  m_write_bytes : Z;
  m_active_time : Z;
  m_keep_alive : Z;
}.

Definition new (fd id now : Z) : Connection :=
  mk (Pb.mk_fd fd id) None false 0 UNKOWN None None "" 0 0 0 0 now 0.

Definition set_state (c : Connection) (s : STATE) : Connection :=
  mk (m_ft c) (m_codec c) (m_is_system c) (m_errno c) s (m_recv_buf c) (m_send_buf c) (m_node_id c)
     (m_read_cnt c) (m_read_bytes c) (m_write_cnt c) (m_write_bytes c) (m_active_time c) (m_keep_alive c).
Definition set_codec (c : Connection) (k : option codec) : Connection :=
  mk (m_ft c) k (m_is_system c) (m_errno c) (m_state c) (m_recv_buf c) (m_send_buf c) (m_node_id c)
     (m_read_cnt c) (m_read_bytes c) (m_write_cnt c) (m_write_bytes c) (m_active_time c) (m_keep_alive c).
Definition set_system (c : Connection) (s : bool) : Connection :=
  mk (m_ft c) (m_codec c) s (m_errno c) (m_state c) (m_recv_buf c) (m_send_buf c) (m_node_id c)
     (m_read_cnt c) (m_read_bytes c) (m_write_cnt c) (m_write_bytes c) (m_active_time c) (m_keep_alive c).
Definition set_node_id (c : Connection) (n : string) : Connection :=
  mk (m_ft c) (m_codec c) (m_is_system c) (m_errno c) (m_state c) (m_recv_buf c) (m_send_buf c) n
     (m_read_cnt c) (m_read_bytes c) (m_write_cnt c) (m_write_bytes c) (m_active_time c) (m_keep_alive c).
Definition set_active_time (c : Connection) (t : Z) : Connection :=
  mk (m_ft c) (m_codec c) (m_is_system c) (m_errno c) (m_state c) (m_recv_buf c) (m_send_buf c) (m_node_id c)
     (m_read_cnt c) (m_read_bytes c) (m_write_cnt c) (m_write_bytes c) t (m_keep_alive c).
Definition set_keep_alive (c : Connection) (t : Z) : Connection :=
  mk (m_ft c) (m_codec c) (m_is_system c) (m_errno c) (m_state c) (m_recv_buf c) (m_send_buf c) (m_node_id c)
     (m_read_cnt c) (m_read_bytes c) (m_write_cnt c) (m_write_bytes c) (m_active_time c) t.
Definition set_errno (c : Connection) (e : Z) : Connection :=
  mk (m_ft c) (m_codec c) (m_is_system c) e (m_state c) (m_recv_buf c) (m_send_buf c) (m_node_id c)
     (m_read_cnt c) (m_read_bytes c) (m_write_cnt c) (m_write_bytes c) (m_active_time c) (m_keep_alive c).
Definition set_recv_buf (c : Connection) (b : option SocketBuffer) : Connection :=
  mk (m_ft c) (m_codec c) (m_is_system c) (m_errno c) (m_state c) b (m_send_buf c) (m_node_id c)
     (m_read_cnt c) (m_read_bytes c) (m_write_cnt c) (m_write_bytes c) (m_active_time c) (m_keep_alive c).
Definition set_send_buf (c : Connection) (b : option SocketBuffer) : Connection :=
  mk (m_ft c) (m_codec c) (m_is_system c) (m_errno c) (m_state c) (m_recv_buf c) b (m_node_id c)
     (m_read_cnt c) (m_read_bytes c) (m_write_cnt c) (m_write_bytes c) (m_active_time c) (m_keep_alive c).
(** [m_read_cnt++; m_read_bytes += n;] and the same for writes. *)
Definition count_read (c : Connection) (n : Z) : Connection :=
  mk (m_ft c) (m_codec c) (m_is_system c) (m_errno c) (m_state c) (m_recv_buf c) (m_send_buf c) (m_node_id c)
     (i32 (m_read_cnt c + 1)) (u64 (m_read_bytes c + n)) (m_write_cnt c) (m_write_bytes c)
     (m_active_time c) (m_keep_alive c).
Definition count_write (c : Connection) (n : Z) : Connection :=
  mk (m_ft c) (m_codec c) (m_is_system c) (m_errno c) (m_state c) (m_recv_buf c) (m_send_buf c) (m_node_id c)
     (m_read_cnt c) (m_read_bytes c) (i32 (m_write_cnt c + 1)) (u64 (m_write_bytes c + n))
     (m_active_time c) (m_keep_alive c).

Definition fd (c : Connection) : Z := Pb.fd (m_ft c).
Definition id (c : Connection) : Z := Pb.id (m_ft c).

Definition is_connected (c : Connection) : bool := bool_decide (m_state c = CONNECTED).
Definition is_try_connect (c : Connection) : bool := bool_decide (m_state c = TRY_CONNECT).
Definition is_invalid (c : Connection) : bool :=
  match m_state c with UNKOWN | CLOSED_STATE | ERROR => true | _ => false end.

Definition is_http (c : Connection) : bool :=
  match m_codec c with Some k => bool_decide (codec_type k = HTTP) | None => false end.

Definition is_need_alive_check (c : Connection) : bool := negb (is_http c).

Definition keep_alive (c : Connection) : Z :=
  if is_http c then
    match m_codec c with
    | Some (mk_codec (CHttp k) _) => if 0 <=? i32 k then i32 k else m_keep_alive c
    | _ => m_keep_alive c
    end
  else m_keep_alive c.

Definition init (c : Connection) (t : TYPE) (now : Z) : bool * Connection :=
  let obj :=
    match t with
    | HTTP => Some (mk_codec (CHttp 0) HTTP)
    | PROTOBUF => Some (mk_codec CProto PROTOBUF)
    | _ => m_codec c
    end in
  match obj with
  | None => (false, c)
  | Some k => (true, set_codec (set_active_time c now) (Some (mk_codec (codec_cls k) t)))
  end.

Section io.
Context `{Malloc} `{Pb.Protobuf}.

(** [capacity() > BUFFER_MAX_READ && readable_len() < capacity() / 2]: give
    the memory back. *)
Definition recovery (b : SocketBuffer) : option SocketBuffer :=
  if (BUFFER_MAX_READ <? capacity b) && (readable_len b <? capacity b / 2)
  then '(_, b) ← compact b (u64 (readable_len b * 2)); Some b
  else Some b.

(** [Connection::conn_read()]: the result is the status, the connection and
    the answers of the kernel that are left. *)
Definition conn_read_sock (c : Connection) (now : Z) (sock : list io_read)
  : option (STATUS * Connection * list io_read) :=
  if is_invalid c then Some (ERR, c, sock) else
  let b := default empty (m_recv_buf c) in
  let '(io, sock) := match sock with [] => (RecvErr EAGAIN, []) | io :: sock => (io, sock) end in
  '(read_len, err, b) ← read_fd b (m_errno c) io;
  let c := set_errno (set_recv_buf c (Some b)) err in
  if read_len =? 0 then Some (CLOSED, c, sock)
  else if read_len <? 0 then Some (if err =? EAGAIN then PAUSE else ERR, c, sock)
  else
    let c := count_read c read_len in
    b ← recovery b;
    Some (OK, set_active_time (set_recv_buf c (Some b)) now, sock).

(** [Connection::conn_write()]: the result also has the bytes the peer will
    receive. *)
Definition conn_write_sock (c : Connection) (now : Z) (sock : list io_write)
  : option (STATUS * bytes * Connection * list io_write) :=
  if is_invalid c then Some (ERR, [], c, sock) else
  match m_send_buf c with
  | None => Some (OK, [], c, sock)
  | Some b =>
      if negb (is_readable b) then Some (OK, [], c, sock) else
      let '(io, sock) := match sock with [] => (SendErr EAGAIN, []) | io :: sock => (io, sock) end in
      '(write_len, err, out, b) ← write_fd b (m_errno c) io;
      let c := set_errno (set_send_buf c (Some b)) err in
      if write_len <? 0 then Some (if err =? EAGAIN then PAUSE else ERR, [], c, sock) else
      let c := count_write c write_len in
      b ← recovery b;
      let c := set_active_time (set_send_buf c (Some b)) now in
      Some (if 0 <? readable_len b then PAUSE else OK, out, c, sock)
  end.

(** [dynamic_cast<CodecProto*>(m_codec)] fails on a null pointer and on an
    http codec. *)
Definition decode_proto (c : Connection) (msg : Pb.Msg) : option (STATUS * Pb.Msg * Connection) :=
  match m_codec c with
  | Some (mk_codec CProto _) =>
      '(st, msg', b) ← CodecProto.decode (m_recv_buf c) (Some msg);
      Some (st, default msg msg', set_recv_buf c b)
  | _ => Some (ERR, msg, c)
  end.

Definition fetch_data (c : Connection) (msg : Pb.Msg) : option (STATUS * Pb.Msg * Connection) :=
  match m_state c with
  | UNKOWN | ERROR => Some (ERR, msg, c)
  | _ => decode_proto c msg
  end.

(** [Connection::conn_read(std::shared_ptr<Msg> msg)] *)
Definition conn_read (c : Connection) (msg : Pb.Msg) (now : Z) (sock : list io_read)
  : option (STATUS * Pb.Msg * Connection * list io_read) :=
  '(ret, msg, c) ← (match m_recv_buf c with
                    | Some _ => fetch_data c msg
                    | None => Some (PAUSE, msg, c)
                    end);
  '(ret, c, sock) ← (if bool_decide (ret = PAUSE) then conn_read_sock c now sock
                     else Some (ret, c, sock));
  if bool_decide (ret = OK) then
    '(ret, msg, c) ← decode_proto c msg; Some (ret, msg, c, sock)
  else Some (ret, msg, c, sock).

Definition conn_append_message (c : Connection) (msg : Pb.Msg) : option (STATUS * Connection) :=
  if is_invalid c then Some (ERR, c) else
  match m_codec c with
  | Some (mk_codec CProto _) =>
      '(st, b) ← CodecProto.encode (Some msg) (Some (default empty (m_send_buf c)));
      Some (st, set_send_buf c b)
  | _ => Some (ERR, c)
  end.

(** [Connection::conn_write(std::shared_ptr<Msg> msg)] *)
Definition conn_write (c : Connection) (msg : Pb.Msg) (now : Z) (sock : list io_write)
  : option (STATUS * bytes * Connection * list io_write) :=
  '(st, c) ← conn_append_message c msg;
  if bool_decide (st = OK) then conn_write_sock c now sock else Some (st, [], c, sock).

End io.

(** ** Receiving *)

(** The bytes received and not yet decoded, the bytes waiting to be sent. *)
Definition rx (c : Connection) : bytes := from_option contents [] (m_recv_buf c).
Definition tx (c : Connection) : bytes := from_option contents [] (m_send_buf c).

(** A connection that can talk protobuf. *)
Record proto_conn (c : Connection) : Prop := mk_proto_conn {
  pc_codec : exists t, m_codec c = Some (mk_codec CProto t);
  pc_valid : is_invalid c = false;
  pc_recv : wf (default empty (m_recv_buf c));
  pc_send : wf (default empty (m_send_buf c));
}.

(** What the read and write paths never touch. *)
Definition same_conn (c c' : Connection) : Prop :=
  m_ft c' = m_ft c /\ m_codec c' = m_codec c /\ m_is_system c' = m_is_system c /\
  m_state c' = m_state c /\ m_node_id c' = m_node_id c /\ m_keep_alive c' = m_keep_alive c.

#[export] Instance same_conn_equiv : Equivalence same_conn.
Proof.
  unfold same_conn. split; [intros c | intros c c' | intros c c' c'']; intuition congruence.
Qed.

Lemma rx_default c : rx c = contents (default empty (m_recv_buf c)).
Proof. unfold rx. by destruct (m_recv_buf c). Qed.

Lemma tx_default c : tx c = contents (default empty (m_send_buf c)).
Proof. unfold tx. by destruct (m_send_buf c). Qed.

Lemma is_invalid_state c c' : m_state c' = m_state c -> is_invalid c' = is_invalid c.
Proof. unfold is_invalid. by intros ->. Qed.

Section specs.
Context `{MallocSpec} `{Pb.ProtobufSpec}.

Lemma recovery_spec b :
  wf b -> readable_len b < 2 ^ 32 ->
  exists b', recovery b = Some b' /\ wf b' /\ contents b' = contents b.
Proof.
  intros W R. unfold recovery. destruct (_ && _); [| kresult].
  destruct (compact_spec b (u64 (readable_len b * 2))) as (? & b' & -> & W' & C); [done | lia |].
  simpl. kresult.
Qed.

(** The receive path after the kernel handed over the bytes [d]. *)
Lemma conn_read_sock_bytes c now d sock :
  is_invalid c = false -> wf (default empty (m_recv_buf c)) -> 0 < zlen d ->
  recv_ok (default empty (m_recv_buf c)) d ->
  alloc_ok (grow_bound (default empty (m_recv_buf c)) (zlen d)) ->
  zlen (rx c ++ d) <= INT_MAX ->
  exists c' b, conn_read_sock c now (RecvData d :: sock) = Some (OK, c', sock) /\
    same_conn c c' /\ m_send_buf c' = m_send_buf c /\
    m_recv_buf c' = Some b /\ wf b /\ contents b = rx c ++ d.
Proof.
  intros V WR D RO A L. unfold conn_read_sock. rewrite V.
  destruct (read_fd_spec _ (m_errno c) d WR RO) as (b & -> & W & [C | [_ F]]).
  2:{ destruct (alloc_ok_fails _ _ A F); lia. }
  simpl. kcase_on (zlen d =? 0); [lia |]. kcase_on (zlen d <? 0); [lia |]. rewrite rx_default in *.
  destruct (recovery_spec b W) as (b' & -> & W' & C').
  { rewrite readable_len_contents, C by done. unfold INT_MAX in L. lia. }
  simpl. eexists _, b'. split; [reflexivity |]. split_and!; try done. congruence.
Qed.

Lemma conn_read_sock_data c now d sock :
  proto_conn c -> 0 < zlen d -> recv_ok (default empty (m_recv_buf c)) d ->
  alloc_ok (grow_bound (default empty (m_recv_buf c)) (zlen d)) ->
  zlen (rx c ++ d) <= INT_MAX ->
  exists c', conn_read_sock c now (RecvData d :: sock) = Some (OK, c', sock) /\
    proto_conn c' /\ same_conn c c' /\ rx c' = rx c ++ d /\ tx c' = tx c /\
    is_Some (m_recv_buf c').
Proof.
  intros [K V WR WS] D RO A L.
  destruct (conn_read_sock_bytes c now d sock V WR D RO A L) as (c' & b & -> & S & Sb & Rb & W & C).
  exists c'. split; [done |]. pose proof S as (_ & Sc & _ & Ss & _).
  split_and!; [| done | unfold rx; by rewrite Rb | unfold tx; by rewrite Sb | by rewrite Rb].
  split; [by rewrite Sc | by rewrite (is_invalid_state c) | by rewrite Rb | by rewrite Sb].
Qed.

Lemma conn_read_sock_other c now io sock :
  proto_conn c ->
  (io = RecvData [] \/ exists e, io = RecvErr e) ->
  exists st c', conn_read_sock c now (io :: sock) = Some (st, c', sock) /\ st <> OK /\
    (st = PAUSE <-> io = RecvErr EAGAIN) /\
    proto_conn c' /\ same_conn c c' /\ rx c' = rx c /\ tx c' = tx c.
Proof.
  intros [K V WR WS] IO. unfold conn_read_sock. rewrite V. rewrite rx_default.
  destruct IO as [-> | [e ->]].
  - destruct (read_fd_spec _ (m_errno c) [] WR) as (b & -> & W & C).
    { split; [done |]. unfold EXTRABUF_SIZE.
      pose proof (writeable_len_wf _ WR). pose proof WR as []. change (zlen []) with 0.
      destruct (_ <? _); lia. }
    simpl. assert (contents b = contents (default empty (m_recv_buf c))) as E.
    { destruct C as [->|[-> _]]; rewrite ?take_nil, ?app_nil_r; done. }
    kresult; by split.
  - simpl. kcase; kresult; try (by split); try (split; congruence).
Qed.

(** ** Decoding *)

(** The beginning of a frame, cut somewhere before its end. *)
Definition partial (l : bytes) : Prop :=
  l = [] \/ exists m tail, CodecProto.msg_ok m /\ CodecProto.frame m = l ++ tail /\ tail <> [].

Definition deliver (m0 m : Pb.Msg) : Pb.Msg := Pb.mk_msg (Pb.ft m0) (Pb.head m) (Pb.body m).

Lemma decode_proto_frame c m0 m rest :
  proto_conn c -> CodecProto.msg_ok m -> rx c = CodecProto.frame m ++ rest ->
  zlen (rx c) <= INT_MAX ->
  exists c', decode_proto c m0 = Some (OK, deliver m0 m, c') /\
    proto_conn c' /\ same_conn c c' /\ rx c' = rest /\ tx c' = tx c /\ is_Some (m_recv_buf c').
Proof.
  intros [[t K] V WR WS] M C L. unfold decode_proto. rewrite K.
  destruct (m_recv_buf c) as [b|] eqn:B.
  - unfold rx in C, L. rewrite B in C, L. simpl in *.
    destruct (CodecProto.decode_frame b m rest m0) as (b' & -> & W' & C'); [done..|].
    simpl. kresult. split; simpl; eauto.
  - exfalso. unfold rx in C. rewrite B in C. apply (f_equal zlen) in C.
    rewrite zlen_app, CodecProto.zlen_frame in C by done. destruct M.
    pose proof (zlen_nonneg rest). change (zlen (from_option contents [] None)) with 0 in C.
    unfold CodecProto.PROTO_MSG_HEAD_LEN in *. lia.
Qed.

Lemma decode_proto_partial c m0 :
  proto_conn c -> is_Some (m_recv_buf c) -> partial (rx c) ->
  exists m1, decode_proto c m0 = Some (PAUSE, m1, c) /\ Pb.ft m1 = Pb.ft m0.
Proof.
  intros PC [b B] P. pose proof PC as [[t K] V WR WS]. unfold decode_proto. rewrite K, B.
  unfold rx in P. rewrite B in *. simpl in *.
  assert (exists m1, CodecProto.decode (Some b) (Some m0) = Some (PAUSE, Some m1, Some b) /\
                     Pb.ft m1 = Pb.ft m0) as (m1 & -> & F).
  { destruct P as [E | (m & tail & M & E & T)]; [| by eapply CodecProto.decode_partial].
    unfold CodecProto.decode. rewrite readable_len_contents, E by done. simpl. eauto. }
  simpl. exists m1. rewrite <- B. by destruct c.
Qed.

Lemma fetch_data_valid c m0 : is_invalid c = false -> fetch_data c m0 = decode_proto c m0.
Proof. unfold is_invalid, fetch_data. by destruct (m_state c). Qed.

(** With nothing complete in the buffer, [conn_read] asks the kernel. *)
Lemma conn_read_asks c m0 now sock :
  proto_conn c -> partial (rx c) ->
  exists m1, Pb.ft m1 = Pb.ft m0 /\
    conn_read c m0 now sock =
      ('(ret, c, sock) ← conn_read_sock c now sock;
       if bool_decide (ret = OK) then
         '(ret, msg, c) ← decode_proto c m1; Some (ret, msg, c, sock)
       else Some (ret, m1, c, sock)).
Proof.
  intros PC P. unfold conn_read. destruct (m_recv_buf c) as [b|] eqn:B; [| by exists m0].
  rewrite fetch_data_valid by apply PC.
  destruct (decode_proto_partial c m0) as (m1 & -> & F); [done | by rewrite B | done |].
  by exists m1.
Qed.

(** With nothing complete in the buffer and new bytes from the kernel: the
    next frame, or a partial one. *)
Lemma conn_read_next c m0 now d sock :
  proto_conn c -> partial (rx c) -> 0 < zlen d -> recv_ok (default empty (m_recv_buf c)) d ->
  alloc_ok (grow_bound (default empty (m_recv_buf c)) (zlen d)) ->
  zlen (rx c ++ d) <= INT_MAX ->
  (forall m rest, CodecProto.msg_ok m -> rx c ++ d = CodecProto.frame m ++ rest ->
     exists c', conn_read c m0 now (RecvData d :: sock) = Some (OK, deliver m0 m, c', sock) /\
       proto_conn c' /\ same_conn c c' /\ rx c' = rest /\ is_Some (m_recv_buf c')) /\
  (partial (rx c ++ d) ->
     exists m1 c', conn_read c m0 now (RecvData d :: sock) = Some (PAUSE, m1, c', sock) /\
       proto_conn c' /\ same_conn c c' /\ rx c' = rx c ++ d).
Proof.
  intros PC P D RO A L. destruct (conn_read_asks c m0 now (RecvData d :: sock) PC P) as (m1 & F & ->).
  destruct (conn_read_sock_data c now d sock) as (c1 & -> & PC1 & S1 & R1 & T1 & B1); [done..|].
  simpl. split.
  - intros m rest M E.
    destruct (decode_proto_frame c1 m1 m rest) as (c' & -> & PC' & S' & R' & _ & B'); [done | done | congruence.. |].
    simpl. kresult; [unfold deliver; by rewrite F | by etrans].
  - intros P1. rewrite <- R1 in P1. destruct (decode_proto_partial c1 m1 PC1 B1 P1) as (m2 & -> & _).
    simpl. by kresult.
Qed.

(** A partial frame is not a complete one. *)
Lemma partial_not_frame m rest : CodecProto.msg_ok m -> ~ partial (CodecProto.frame m ++ rest).
Proof.
  intros M P. pose proof (CodecProto.zlen_frame m M) as F. pose proof (CodecProto.msg_ok_head_size m M) as S.
  destruct P as [E | (m' & tail & M' & E & T)].
  { apply app_eq_nil in E as [E _]. rewrite E in F. destruct M. unfold CodecProto.PROTO_MSG_HEAD_LEN in F.
    change (zlen []) with 0 in F. lia. }
  pose proof (CodecProto.zlen_frame m' M') as F'. pose proof (CodecProto.msg_ok_head_size m' M') as S'.
  assert (Hd : Pb.head_serialize (Pb.head m') = Pb.head_serialize (Pb.head m)).
  { unfold CodecProto.frame in E. rewrite <- !app_assoc in E. apply app_inj_1 in E as [E _]; [done |].
    unfold zlen in *. lia. }
  assert (Eh : Pb.head m' = Pb.head m).
  { apply (f_equal Pb.head_parse) in Hd. rewrite !Pb.head_roundtrip in Hd by (by destruct M, M'). congruence. }
  apply (f_equal zlen) in E. rewrite !zlen_app, F, F', Eh in E. destruct tail as [|x tail]; [done |].
  pose proof (zlen_nonneg rest). pose proof (zlen_nonneg tail). unfold zlen in *. cbn in E. lia.
Qed.

(** With a complete frame in the buffer it decodes twice and asks for nothing. *)
Lemma conn_read_twice c m0 m rest now sock :
  proto_conn c -> CodecProto.msg_ok m -> rx c = CodecProto.frame m ++ rest ->
  zlen (rx c) <= INT_MAX ->
  exists c1, proto_conn c1 /\ same_conn c c1 /\ rx c1 = rest /\ is_Some (m_recv_buf c1) /\
    conn_read c m0 now sock =
      ('(ret, msg, c) ← decode_proto c1 (deliver m0 m); Some (ret, msg, c, sock)).
Proof.
  intros PC M R L. destruct (decode_proto_frame c m0 m rest) as (c1 & E & PC1 & S & R1 & _ & B1); [done..|].
  exists c1. split_and!; [done..|]. unfold conn_read.
  destruct (m_recv_buf c) as [b|] eqn:B.
  - rewrite fetch_data_valid by apply PC. rewrite E. done.
  - unfold decode_proto in E. destruct PC as [[t K] _ _ _]. rewrite K, B in E. done.
Qed.

(** ** Sending *)

(** Any connection that is not invalid: with another codec nothing is queued. *)
Lemma conn_append_any c m :
  is_invalid c = false -> wf (default empty (m_send_buf c)) -> CodecProto.msg_ok m ->
  exists st c', conn_append_message c m = Some (st, c') /\ same_conn c c' /\
    m_recv_buf c' = m_recv_buf c /\ wf (default empty (m_send_buf c')) /\
    (st = OK /\ tx c' = tx c ++ CodecProto.frame m \/
     st = ERR /\ tx c' = tx c /\
       ((exists t, m_codec c = Some (mk_codec CProto t)) ->
        alloc_fails (CodecProto.encode_bound (default empty (m_send_buf c)) m))).
Proof.
  intros V WS M. unfold conn_append_message. rewrite V.
  destruct (m_codec c) as [[[|k] t]|] eqn:K.
  - destruct (CodecProto.encode_spec _ m WS M) as (st & b & -> & W & D). simpl.
    rewrite tx_default. kresult. destruct D as [[-> D]|(-> & D & F)]; [left | right]; unfold tx; simpl; auto.
  - kresult. right. split_and!; [done..|]. by intros [? ?].
  - kresult. right. split_and!; [done..|]. by intros [? ?].
Qed.

Lemma conn_append_spec c m :
  proto_conn c -> CodecProto.msg_ok m ->
  exists st c', conn_append_message c m = Some (st, c') /\ proto_conn c' /\ same_conn c c' /\
    rx c' = rx c /\
    (st = OK /\ tx c' = tx c ++ CodecProto.frame m \/
     st = ERR /\ tx c' = tx c /\
       alloc_fails (CodecProto.encode_bound (default empty (m_send_buf c)) m)).
Proof.
  intros [K V WR WS] M. destruct (conn_append_any c m V WS M) as (st & c' & -> & S & R & W & D).
  eexists _, _. split; [done |]. pose proof S as (_ & Sc & _ & Ss & _). split_and!; [| done | unfold rx; by rewrite R |].
  - split; [by rewrite Sc | by rewrite (is_invalid_state c) | by rewrite R | done].
  - destruct D as [|(? & ? & ?)]; auto.
Qed.

(** What [send] may answer on the pending bytes of [c]. *)
Definition send_ok (c : Connection) (io : io_write) : Prop :=
  match io with SentBytes n => 0 <= n <= zlen (tx c) | SendErr _ => True end.

Lemma status_drained (l : bytes) : (if 0 <? zlen l then PAUSE else OK) = OK <-> l = [].
Proof. destruct l as [|x l]; [done |]. kcase; [done |]. unfold zlen in *. simpl in *. lia. Qed.

Lemma conn_write_sock_any c now io sock :
  is_invalid c = false -> wf (default empty (m_send_buf c)) -> zlen (tx c) <= INT_MAX -> send_ok c io ->
  exists st out c' sock', conn_write_sock c now (io :: sock) = Some (st, out, c', sock') /\
    same_conn c c' /\ m_recv_buf c' = m_recv_buf c /\ wf (default empty (m_send_buf c')) /\
    tx c = out ++ tx c' /\ (st = OK <-> tx c' = []).
Proof.
  intros V WS L IO. unfold conn_write_sock. rewrite V.
  unfold send_ok in IO. rewrite tx_default in *. unfold tx in *.
  destruct (m_send_buf c) as [b|] eqn:B; simpl in *; [| by kresult; rewrite B].
  pose proof (readable_len_contents b WS) as RL.
  destruct (is_readable b) eqn:R; simpl.
  2:{ assert (contents b = []).
      { apply zlen_nil_inv. rewrite <- RL. unfold readable_len. by rewrite R. }
      by kresult; rewrite B. }
  assert (0 < zlen (contents b)) as NE.
  { rewrite zlen_contents by done. unfold is_readable in R. apply Z.ltb_lt in R. lia. }
  destruct io as [n|e].
  - destruct (write_fd_spec b (m_errno c) n) as (b1 & k & -> & W1 & C1 & Ek); [done..|].
    destruct (Z.eqb_spec (zlen (contents b)) 0); [lia | subst k]. simpl.
    kcase_on (n <? 0); [lia |].
    destruct (recovery_spec b1 W1) as (b2 & -> & W2 & C2).
    { rewrite readable_len_contents, C1 by done. pose proof (zlen_drop (Z.to_nat n) (contents b)).
      unfold INT_MAX in L. lia. }
    simpl. rewrite (readable_len_contents b2), C2, C1 by done. kresult.
    + simpl. rewrite C2, C1. by rewrite take_drop.
    + simpl. rewrite C2, C1. apply status_drained.
  - unfold write_fd. rewrite RL. unfold INT_MAX in L. rewrite i32_small by lia.
    kcase_on (zlen (contents b) =? 0); [lia |].
    rewrite CodecProto.contents_slice0 by (done || lia). simpl.
    kresult; simpl. destruct (contents b); [done |]. split; by destruct (e =? EAGAIN).
Qed.

Lemma conn_write_sock_spec c now io sock :
  proto_conn c -> zlen (tx c) <= INT_MAX -> send_ok c io ->
  exists st out c' sock', conn_write_sock c now (io :: sock) = Some (st, out, c', sock') /\
    proto_conn c' /\ same_conn c c' /\ rx c' = rx c /\ tx c = out ++ tx c' /\
    (st = OK <-> tx c' = []).
Proof.
  intros [K V WR WS] L IO.
  destruct (conn_write_sock_any c now io sock V WS L IO) as (st & out & c' & sock' & -> & S & R & W & T & O).
  eexists _, _, _, _. split; [done |]. pose proof S as (_ & Sc & _ & Ss & _).
  split_and!; [| done | unfold rx; by rewrite R | done | done].
  split; [by rewrite Sc | by rewrite (is_invalid_state c) | by rewrite R | done].
Qed.

(** ** The life of a sending connection *)

(** The two calls that send: [conn_write(msg)] and the retry [conn_write()],
    with the kernel's answer. *)
Inductive send_op := SWrite (m : Pb.Msg) (now : Z) (io : io_write) | SFlush (now : Z) (io : io_write).

Definition send_op_ok (c : Connection) (o : send_op) : Prop :=
  match o with
  | SWrite m _ io => CodecProto.msg_ok m /\ zlen (tx c ++ CodecProto.frame m) <= INT_MAX /\
      alloc_ok (CodecProto.encode_bound (default empty (m_send_buf c)) m) /\
      match io with SentBytes n => 0 <= n <= zlen (tx c ++ CodecProto.frame m) | SendErr _ => True end
  | SFlush _ io => zlen (tx c) <= INT_MAX /\ send_ok c io
  end.

Definition send_step (c : Connection) (o : send_op) : option (list Pb.Msg * bytes * Connection) :=
  match o with
  | SWrite m now io => '(_, out, c, _) ← conn_write c m now [io]; Some ([m], out, c)
  | SFlush now io => '(_, out, c, _) ← conn_write_sock c now [io]; Some ([], out, c)
  end.

(** [sends c ms out]: [c] was given the messages [ms] and put [out] on the wire. *)
Inductive sends : Connection -> list Pb.Msg -> bytes -> Prop :=
| sends_new c : proto_conn c -> tx c = [] -> sends c [] []
| sends_step c ms out o ms' out' c' :
    sends c ms out -> send_op_ok c o -> send_step c o = Some (ms', out', c') ->
    sends c' (ms ++ ms') (out ++ out').

Definition stream (ms : list Pb.Msg) : bytes := concat (CodecProto.frame <$> ms).

Lemma stream_app ms ms' : stream (ms ++ ms') = stream ms ++ stream ms'.
Proof. unfold stream. by rewrite fmap_app, concat_app. Qed.

Lemma stream_one m : stream [m] = CodecProto.frame m.
Proof. unfold stream. simpl. by rewrite app_nil_r. Qed.

Lemma send_step_spec c o :
  proto_conn c -> send_op_ok c o ->
  exists ms out c', send_step c o = Some (ms, out, c') /\ proto_conn c' /\
    Forall CodecProto.msg_ok ms /\ tx c ++ stream ms = out ++ tx c'.
Proof.
  intros PC O. destruct o as [m now io | now io]; simpl in O; simpl.
  - destruct O as (M & L & A & IO). unfold conn_write.
    destruct (conn_append_spec c m PC M) as (st & c1 & -> & PC1 & S1 & R1 & [[-> T1] | (_ & _ & F)]).
    2:{ exfalso. by eapply alloc_ok_fails. }
    simpl. destruct (conn_write_sock_spec c1 now io []) as (st & out & c' & sock' & -> & PC' & S' & R' & T' & _);
      [done | by rewrite T1 | by unfold send_ok; rewrite T1 |].
    simpl. kresult. by rewrite stream_one, <- T1, T'.
  - destruct O as [L IO].
    destruct (conn_write_sock_spec c now io []) as (st & out & c' & sock' & -> & PC' & S' & R' & T' & _);
      [done.. |].
    simpl. kresult. by rewrite app_nil_r.
Qed.

Lemma sends_inv c ms out :
  sends c ms out ->
  proto_conn c /\ Forall CodecProto.msg_ok ms /\ stream ms = out ++ tx c.
Proof.
  induction 1 as [c PC T | c ms out o ms' out' c' _ (PC & F & S) O E].
  - by rewrite T.
  - destruct (send_step_spec c o PC O) as (? & ? & ? & E' & PC' & F' & T). simplify_eq.
    split_and!; [done | by apply Forall_app |]. by rewrite stream_app, S, <- !app_assoc, T.
Qed.

(** ** Properties *)

(** C30: whatever mixture of new messages, retries, partial sends and socket
    errors, the bytes on the wire followed by the bytes still queued are the
    frames of the accepted messages in the order of the calls: nothing is
    lost, duplicated or reordered on the sending side.

    The messages are those that the codec can frame ([msg_ok]: a non-zero
    command and sequence number, a body that is not empty), there is memory for
    them, at most [INT_MAX] bytes are queued, and the kernel takes no more bytes
    than it is offered ([send_op_ok]). *)
Theorem connection_send_stream c ms out :
  sends c ms out -> proto_conn c /\ stream ms = out ++ tx c.
Proof. intros S. by destruct (sends_inv _ _ _ S) as (? & _ & ?). Qed.

(** A connection without a complete message in its buffer delivers the
    next one: the bytes the kernel hands over are appended, the first frame is
    returned as soon as it is complete (the rest stays buffered), and until
    then the caller is told to wait. *)
Theorem connection_read_delivers c m0 now d sock :
  proto_conn c -> partial (rx c) -> 0 < zlen d -> recv_ok (default empty (m_recv_buf c)) d ->
  alloc_ok (grow_bound (default empty (m_recv_buf c)) (zlen d)) ->
  zlen (rx c ++ d) <= INT_MAX ->
  (forall m rest, CodecProto.msg_ok m -> rx c ++ d = CodecProto.frame m ++ rest ->
     exists c', conn_read c m0 now (RecvData d :: sock) = Some (OK, deliver m0 m, c', sock) /\
       proto_conn c' /\ rx c' = rest) /\
  (partial (rx c ++ d) ->
     exists m1 c', conn_read c m0 now (RecvData d :: sock) = Some (PAUSE, m1, c', sock) /\
       proto_conn c' /\ rx c' = rx c ++ d).
Proof.
  intros PC P D RO A L. destruct (conn_read_next c m0 now d sock PC P D RO A L) as [F W]. split.
  - intros m rest M E. destruct (F m rest M E) as (c' & ? & ? & _ & ? & _). eauto.
  - intros P1. destruct (W P1) as (m1 & c' & ? & ? & _ & ?). eauto.
Qed.

(** C39: a connection that already has a complete message in its buffer loses
    it: [conn_read] decodes it, and because the status is then [OK] decodes a
    second time into the same [Msg].  The caller gets the second message when
    it is complete and is told to wait otherwise; the first message is gone
    in both cases and the kernel is not asked for anything.

    The connection is open and talks protobuf, the messages have a non-zero
    command and sequence number and a body that is not empty, and at most
    [INT_MAX] bytes are buffered. *)
Theorem connection_read_loses_buffered_message c m0 m rest now sock :
  proto_conn c -> CodecProto.msg_ok m -> rx c = CodecProto.frame m ++ rest ->
  zlen (rx c) <= INT_MAX ->
  (forall m2 rest2, CodecProto.msg_ok m2 -> rest = CodecProto.frame m2 ++ rest2 ->
     exists c', conn_read c m0 now sock = Some (OK, deliver m0 m2, c', sock) /\ rx c' = rest2) /\
  (partial rest ->
     exists m1 c', conn_read c m0 now sock = Some (PAUSE, m1, c', sock) /\ rx c' = rest).
Proof.
  intros PC M R L.
  destruct (conn_read_twice c m0 m rest now sock) as (c1 & PC1 & S1 & R1 & B1 & ->); [done..|].
  assert (zlen (rx c1) <= INT_MAX).
  { rewrite R, zlen_app in L. rewrite R1. pose proof (zlen_nonneg (CodecProto.frame m)). lia. }
  split.
  - intros m2 rest2 M2 E.
    destruct (decode_proto_frame c1 (deliver m0 m) m2 rest2) as (c' & -> & _ & _ & R' & _);
      [done | done | congruence | done |].
    simpl. by kresult.
  - intros P. rewrite <- R1 in P.
    destruct (decode_proto_partial c1 (deliver m0 m) PC1 B1 P) as (m2 & -> & _). simpl. by kresult.
Qed.

End specs.

(** ** Witnesses *)

#[local] Existing Instance zero_malloc.
#[local] Existing Instance WireFormat.wire.

(** An established connection with the bytes [d] in its receive buffer. *)
Definition talking (d : bytes) : Connection :=
  set_recv_buf (set_state (snd (init (new 8 1 0) PROTOBUF 0)) CONNECTED) (Some (buffer_of d)).

Lemma proto_conn_talking d : zlen d <= ADDRESS_SPACE -> proto_conn (talking d).
Proof. intros L. split; simpl; [by eexists | done | by apply wf_buffer_of | apply wf_empty]. Qed.

Lemma rx_talking d : rx (talking d) = d.
Proof. apply contents_buffer_of. Qed.

Lemma partial_ping n : (n < length (CodecProto.frame CodecProto.ping))%nat ->
  partial (take n (CodecProto.frame CodecProto.ping)).
Proof.
  intros L. right. exists CodecProto.ping, (drop n (CodecProto.frame CodecProto.ping)).
  split_and!; [apply CodecProto.ping_ok | by rewrite take_drop |].
  intros E. apply (f_equal length) in E. rewrite length_drop in E.
  change (length []) with 0%nat in E. lia.
Qed.

Lemma connection_send_stream_witness :
  let o := SWrite CodecProto.ping 5 (SentBytes 10) in
  exists c', send_step (talking []) o = Some ([CodecProto.ping], take 10 (CodecProto.frame CodecProto.ping), c') /\
    proto_conn c' /\
    stream [CodecProto.ping] = take 10 (CodecProto.frame CodecProto.ping) ++ tx c'.
Proof.
  intros o. eexists. split; [vm_compute; reflexivity |].
  apply (@connection_send_stream zero_malloc zero_malloc_spec WireFormat.wire WireFormat.wire_spec _
           ([] ++ [CodecProto.ping]) ([] ++ take 10 (CodecProto.frame CodecProto.ping))).
  eapply (sends_step (talking []) [] [] o).
  - apply sends_new; [by apply proto_conn_talking | done].
  - split_and!; [apply CodecProto.ping_ok | by vm_compute | apply zero_malloc_ok; by vm_compute | done | by vm_compute].
  - vm_compute. reflexivity.
Defined.

Lemma connection_read_delivers_witness :
  let f := CodecProto.frame CodecProto.ping in
  let m0 := Pb.new_msg (Pb.mk_fd 8 1) in
  exists c', conn_read (talking (take 20 f)) m0 5 [RecvData (drop 20 f)] =
      Some (OK, deliver m0 CodecProto.ping, c', []) /\ proto_conn c' /\ rx c' = [].
Proof.
  intros f m0.
  destruct (@connection_read_delivers zero_malloc zero_malloc_spec WireFormat.wire WireFormat.wire_spec
              (talking (take 20 f)) m0 5 (drop 20 f) []) as [D _].
  - apply proto_conn_talking. vm_compute. discriminate.
  - rewrite rx_talking. apply partial_ping. vm_compute. lia.
  - reflexivity.
  - split; vm_compute; discriminate.
  - apply zero_malloc_ok. vm_compute. discriminate.
  - vm_compute. discriminate.
  - apply D; [apply CodecProto.ping_ok | vm_compute; reflexivity].
Defined.

Lemma connection_read_loses_buffered_message_witness :
  let f := CodecProto.frame CodecProto.ping in
  let m0 := Pb.new_msg (Pb.mk_fd 8 1) in
  exists m1 c', conn_read (talking (f ++ take 20 f)) m0 5 [] = Some (PAUSE, m1, c', []) /\
    rx c' = take 20 f.
Proof.
  intros f m0.
  destruct (@connection_read_loses_buffered_message zero_malloc WireFormat.wire WireFormat.wire_spec
              (talking (f ++ take 20 f)) m0 CodecProto.ping (take 20 f) 5 []) as [_ D].
  - apply proto_conn_talking. vm_compute. discriminate.
  - apply CodecProto.ping_ok.
  - apply rx_talking.
  - vm_compute. discriminate.
  - apply D. apply partial_ping. vm_compute. lia.
Defined.

End Connection.
