(* ===== verification/StdMap.v ===== *)
(** * StdMap: the ordered containers of the C++ library

    [std::map] as a finite map whose keys have a total order: [begin()],
    [lower_bound(k)] and iteration in key order; [std::sort] and
    [std::set_difference] on vectors. *)

From S2P Require Import Prelude.
From Stdlib Require Import OrderedTypeEx Sorting.Permutation.
From stdpp Require Import sorting.

#[local] Open Scope Z_scope.

(** ** Key orders *)

Class KeyOrder (K : Type) := kle : K -> K -> bool.

Class KeyOrderSpec (K : Type) `{KeyOrder K} : Prop := {
  kle_refl x : kle x x = true;
  kle_trans x y z : kle x y = true -> kle y z = true -> kle x z = true;
  kle_antisym x y : kle x y = true -> kle y x = true -> x = y;
  kle_total x y : kle x y = true \/ kle y x = true;
}.

#[global] Instance Z_key_order : KeyOrder Z := Z.leb.

#[global] Instance Z_key_order_spec : KeyOrderSpec Z.
Proof. split; unfold kle, Z_key_order; intros *; rewrite ?Z.leb_le; lia. Qed.

(** [std::pair] is ordered lexicographically. *)
#[global] Instance pair_key_order : KeyOrder (Z * Z) := fun p q =>
  (p.1 <? q.1) || ((p.1 =? q.1) && (p.2 <=? q.2)).

#[global] Instance pair_key_order_spec : KeyOrderSpec (Z * Z).
Proof.
  split; unfold kle, pair_key_order; intros *; rewrite ?orb_true_iff, ?andb_true_iff,
    ?Z.ltb_lt, ?Z.eqb_eq, ?Z.leb_le; [lia.. | | lia].
  destruct x, y; simpl. intros. f_equal; lia.
Qed.

(** [std::string] compares its bytes as unsigned characters. *)
#[global] Instance string_key_order : KeyOrder string := fun a b =>
  match String.compare a b with Gt => false | _ => true end.

#[global] Instance string_key_order_spec : KeyOrderSpec string.
Proof.
  assert (T : forall x y z, String.compare x y = Lt -> String.compare y z = Lt -> String.compare x z = Lt).
  { intros x y z. rewrite !String_as_OT.cmp_lt. apply String_as_OT.lt_trans. }
  assert (R : forall x, String.compare x x = Eq) by (intros x; by apply String_as_OT.cmp_eq).
  assert (S : forall x y, String.compare y x = CompOpp (String.compare x y))
    by (intros x y; apply String_as_OT.cmp_antisym).
  split; unfold kle, string_key_order.
  - intros x. by rewrite R.
  - intros x y z. destruct (String.compare x y) eqn:A, (String.compare y z) eqn:B; try done; intros _ _.
    + apply String_as_OT.cmp_eq in A, B. subst. by rewrite R.
    + apply String_as_OT.cmp_eq in A. subst. by rewrite B.
    + apply String_as_OT.cmp_eq in B. subst. by rewrite A.
    + by rewrite (T x y z).
  - intros x y. rewrite (S x y).
    destruct (String.compare x y) eqn:A; simpl; try done. intros _ _. by apply String_as_OT.cmp_eq.
  - intros x y. rewrite (S x y).
    destruct (String.compare x y); simpl; auto.
Qed.

Section ordered_map.
Context {K : Type} `{Countable K} `{KeyOrderSpec K} {A : Type}.
Implicit Types (m : gmap K A) (l : list (K * A)).

(** The entry with the smallest key. *)
Fixpoint list_min l : option (K * A) :=
  match l with
  | [] => None
  | p :: l =>
      match list_min l with
      | Some q => Some (if kle p.1 q.1 then p else q)
      | None => Some p
      end
  end.

(** [m.begin()] and [m.lower_bound(k)], with [None] for [m.end()]. *)
Definition map_begin m : option (K * A) := list_min (map_to_list m).
Definition lower_bound m (k : K) : option (K * A) :=
  list_min (filter (fun p => kle k p.1 = true) (map_to_list m)).

Lemma list_min_None l : list_min l = None <-> l = [].
Proof. destruct l as [|p l]; simpl; [done |]. by destruct (list_min l). Qed.

Lemma list_min_Some l p :
  list_min l = Some p -> p ∈ l /\ forall q, q ∈ l -> kle p.1 q.1 = true.
Proof.
  revert p. induction l as [|x l IH]; intros p; simpl; [done |].
  destruct (list_min l) as [q|] eqn:E.
  - destruct (IH q eq_refl) as [Q M]. destruct (kle x.1 q.1) eqn:L; intros [= <-].
    + split; [by left |]. intros r [->|R]%elem_of_cons; [apply kle_refl |]. eapply kle_trans; eauto.
    + split; [by right |]. intros r [->|R]%elem_of_cons; [| by apply M].
      destruct (kle_total q.1 x.1); congruence.
  - intros [= <-]. apply list_min_None in E as ->. split; [by left |].
    intros r R. apply list_elem_of_singleton in R as ->. apply kle_refl.
Qed.

Lemma map_begin_Some m k a :
  map_begin m = Some (k, a) -> m !! k = Some a /\ forall k' a', m !! k' = Some a' -> kle k k' = true.
Proof.
  intros [I M]%list_min_Some. apply elem_of_map_to_list in I. split; [done |].
  intros k' a' E. apply (M (k', a')). by apply elem_of_map_to_list.
Qed.

Lemma map_begin_None m : map_begin m = None <-> m = ∅.
Proof. unfold map_begin. rewrite list_min_None. apply map_to_list_empty_iff. Qed.

Lemma lower_bound_Some m k k' a :
  lower_bound m k = Some (k', a) ->
  m !! k' = Some a /\ kle k k' = true /\
  forall k'' a', m !! k'' = Some a' -> kle k k'' = true -> kle k' k'' = true.
Proof.
  intros [I M]%list_min_Some. apply list_elem_of_filter in I as [L I].
  apply elem_of_map_to_list in I. split_and!; [done..|].
  intros k'' a' E L'. apply (M (k'', a')). apply list_elem_of_filter. by rewrite elem_of_map_to_list.
Qed.

Lemma lower_bound_None m k :
  lower_bound m k = None <-> forall k' a, m !! k' = Some a -> kle k k' = false.
Proof.
  unfold lower_bound. rewrite list_min_None. split.
  - intros E k' a L. apply not_true_is_false. intros T.
    assert ((k', a) ∈ filter (fun p => kle k p.1 = true) (map_to_list m)) as I.
    { apply list_elem_of_filter. by rewrite elem_of_map_to_list. }
    rewrite E in I. by apply not_elem_of_nil in I.
  - intros N. destruct (filter _ _) as [|[k' a] l] eqn:E; [done |].
    assert ((k', a) ∈ filter (fun p => kle k p.1 = true) (map_to_list m)) as I by (rewrite E; by left).
    apply list_elem_of_filter in I as [L I]. apply elem_of_map_to_list, N in I. simpl in L. congruence.
Qed.

(** The characterisations determine the results. *)
Lemma map_begin_unique m k a :
  m !! k = Some a -> (forall k' a', m !! k' = Some a' -> kle k k' = true) -> map_begin m = Some (k, a).
Proof.
  intros E M. destruct (map_begin m) as [[k' a']|] eqn:B.
  - apply map_begin_Some in B as [E' M']. assert (k = k') as <- by eauto using kle_antisym. congruence.
  - apply map_begin_None in B as ->. by rewrite lookup_empty in E.
Qed.

Lemma lower_bound_unique m k k' a :
  m !! k' = Some a -> kle k k' = true ->
  (forall k'' a', m !! k'' = Some a' -> kle k k'' = true -> kle k' k'' = true) ->
  lower_bound m k = Some (k', a).
Proof.
  intros E L M. destruct (lower_bound m k) as [[k2 a2]|] eqn:B.
  - apply lower_bound_Some in B as (E' & L' & M'). assert (k' = k2) as <- by eauto using kle_antisym.
    congruence.
  - rewrite lower_bound_None in B. rewrite (B k' a E) in L. done.
Qed.

(** Iteration in key order. *)
Definition by_key (p q : K * A) : Prop := kle p.1 q.1 = true.

#[global] Instance by_key_dec p q : Decision (by_key p q).
Proof. unfold by_key. apply _. Defined.

Definition entries m : list (K * A) := merge_sort by_key (map_to_list m).

Lemma elem_of_entries m k a : (k, a) ∈ entries m <-> m !! k = Some a.
Proof. unfold entries. by rewrite merge_sort_Permutation, elem_of_map_to_list. Qed.

End ordered_map.

(** ** Sorting and set difference *)

Section sorted.
Context {K : Type} `{EqDecision K} `{KeyOrderSpec K}.
Implicit Types l r : list K.

Definition key_le (x y : K) : Prop := kle x y = true.

#[global] Instance key_le_dec x y : Decision (key_le x y).
Proof. unfold key_le. apply _. Defined.

#[global] Instance key_le_total : Total key_le.
Proof. intros x y. apply kle_total. Qed.

#[global] Instance key_le_trans : Transitive key_le.
Proof. intros x y z. apply kle_trans. Qed.

Definition std_sort l : list K := merge_sort key_le l.

Definition klt (x y : K) : bool := negb (kle y x).

(** [std::set_difference] on sorted ranges. *)
Fixpoint set_difference l : list K -> list K :=
  match l with
  | [] => fun _ => []
  | a :: l' =>
      fix go r :=
        match r with
        | [] => a :: l'
        | b :: r' =>
            if klt a b then a :: set_difference l' r
            else if klt b a then go r'
            else set_difference l' r'
        end
  end.

Abbreviation count := (count_occ (fun x y : K => decide (x = y))).

Lemma klt_false x y : klt x y = false -> key_le y x.
Proof. unfold klt, key_le. by destruct (kle y x). Qed.

Lemma klt_notin x y r : klt x y = true -> StronglySorted key_le (y :: r) -> count (y :: r) x = 0%nat.
Proof.
  intros L S. apply count_occ_not_In. intros I. unfold klt in L.
  assert (key_le y x) as C; [| unfold key_le in C; by rewrite C in L].
  destruct I as [->|I]; [apply kle_refl |].
  apply StronglySorted_inv in S as [_ F]. rewrite List.Forall_forall in F. by apply F.
Qed.

Lemma set_difference_count l r x :
  StronglySorted key_le l -> StronglySorted key_le r ->
  count (set_difference l r) x = (count l x - count r x)%nat.
Proof.
  intros SL. revert r. induction l as [|a l IHl]; intros r SR; [done |].
  pose proof (StronglySorted_inv SL) as [SL' FL].
  induction r as [|b r IHr]; [simpl; lia |].
  pose proof (StronglySorted_inv SR) as [SR' FR]. cbn [set_difference].
  destruct (klt a b) eqn:AB; [| destruct (klt b a) eqn:BA].
  - pose proof (klt_notin a b r AB SR) as N. pose proof (IHl SL' (b :: r) SR) as E.
    simpl in *. destruct (decide (a = x)) as [->|]; lia.
  - etransitivity; [exact (IHr SR') |]. pose proof (klt_notin b a l BA SL) as N. simpl in *.
    destruct (decide (b = x)) as [->|]; lia.
  - assert (a = b) as <- by (apply kle_antisym; by apply klt_false).
    rewrite (IHl SL' r SR'). simpl. destruct (decide (a = x)); lia.
Qed.

Lemma std_sort_sorted l : StronglySorted key_le (std_sort l).
Proof. unfold std_sort. apply StronglySorted_merge_sort; apply _. Qed.

Lemma std_sort_Permutation l : std_sort l ≡ₚ l.
Proof. apply merge_sort_Permutation. Qed.

Lemma std_sort_count l x : count (std_sort l) x = count l x.
Proof. apply Permutation_count_occ, std_sort_Permutation. Qed.

End sorted.
