(* ===== verification/Hash.v ===== *)
(** * Hash: the hash functions of the consistent-hashing ring

    Model of [util/hash.cpp] at its machine widths: [uint64_t] and [uint32_t]
    arithmetic wraps, [char] is sign-extended where the code converts it
    without a mask, and the blocks of [murmur3_32] are little-endian words. *)

From S2P Require Import Prelude.

Module Hash.

Definition FNV_64_INIT : Z := 0x100000001b3.
Definition FNV_64_PRIME : Z := 0xcbf29ce484222325.

Definition fnv1_step (hash : Z) (ch : ascii) : Z :=
  Z.lxor (u64 (hash * FNV_64_PRIME)) (u64 (schar ch)).

Definition hash_fnv1_64 (key : bytes) : Z := u32 (foldl fnv1_step FNV_64_INIT key).

Definition fnv1a_step (hash : Z) (ch : ascii) : Z :=
  u32 (Z.lxor hash (u32 (schar ch)) * u32 FNV_64_PRIME).

Definition hash_fnv1a_64 (key : bytes) : Z := foldl fnv1a_step (u32 FNV_64_INIT) key.

Definition ROT32 (x y : Z) : Z := Z.lor (u32 (Z.shiftl x y)) (Z.shiftr x (32 - y)).

Definition c1 : Z := 0xcc9e2d51.
Definition c2 : Z := 0x1b873593.

(** [k *= c1; k = ROT32(k, r1); k *= c2;] *)
Definition mix_block (k : Z) : Z := u32 (ROT32 (u32 (k * c1)) 15 * c2).

Definition murmur_step (hash k : Z) : Z :=
  u32 (ROT32 (Z.lxor hash (mix_block k)) 13 * 5 + 0xe6546b64).

(** The [uint32_t] at four bytes of memory. *)
Definition load32 (b0 b1 b2 b3 : ascii) : Z :=
  Z.lor (Z.lor (Z.lor (Z.shiftl (uchar b3) 24) (Z.shiftl (uchar b2) 16)) (Z.shiftl (uchar b1) 8))
        (uchar b0).

(** The loop over the blocks; the result has the bytes of [tail]. *)
Fixpoint murmur_blocks (hash : Z) (key : bytes) : Z * bytes :=
  match key with
  | b0 :: b1 :: b2 :: b3 :: key' => murmur_blocks (murmur_step hash (load32 b0 b1 b2 b3)) key'
  | tail => (hash, tail)
  end.

Definition murmur_tail (hash : Z) (tail : bytes) : Z :=
  match tail with
  | [t0; t1; t2] =>
      Z.lxor hash (mix_block (Z.lxor (Z.lxor (Z.shiftl (uchar t2) 16) (Z.shiftl (uchar t1) 8)) (uchar t0)))
  | [t0; t1] => Z.lxor hash (mix_block (Z.lxor (Z.shiftl (uchar t1) 8) (uchar t0)))
  | [t0] => Z.lxor hash (mix_block (uchar t0))
  | _ => hash
  end.

Definition murmur_final (hash len : Z) : Z :=
  let hash := Z.lxor hash len in
  let hash := Z.lxor hash (Z.shiftr hash 16) in
  let hash := u32 (hash * 0x85ebca6b) in
  let hash := Z.lxor hash (Z.shiftr hash 13) in
  let hash := u32 (hash * 0xc2b2ae35) in
  Z.lxor hash (Z.shiftr hash 16).

Definition murmur3_32 (key : bytes) (seed : Z) : Z :=
  let '(hash, tail) := murmur_blocks seed key in
  murmur_final (murmur_tail hash tail) (u32 (zlen key)).

(** ** Words and their bits *)

Definition word (x : Z) : Prop := 0 <= x < 2 ^ 32.

Lemma word_u32 z : word (u32 z).
Proof. apply u32_range. Qed.

Lemma u32_land z : u32 z = Z.land z (Z.ones 32).
Proof. unfold u32. by rewrite Z.land_ones by lia. Qed.

Lemma word_bits x : word x <-> 0 <= x /\ forall i, 32 <= i -> Z.testbit x i = false.
Proof.
  split.
  - intros [L H]. split; [done |]. intros i I. destruct (Z.eq_dec x 0) as [->|]; [apply Z.bits_0 |].
    apply Z.bits_above_log2; [done |]. apply Z.log2_lt_pow2; [lia |].
    apply Z.lt_le_trans with (2 ^ 32); [done |]. apply Z.pow_le_mono_r; lia.
  - intros [L B]. split; [done |]. replace x with (u32 x); [apply u32_range |].
    rewrite u32_land. apply Z.bits_inj'. intros i I. rewrite Z.land_spec.
    destruct (Z.ltb_spec i 32).
    + rewrite Z.ones_spec_low by lia. apply andb_true_r.
    + by rewrite B, Z.ones_spec_high by lia.
Qed.

Lemma word_lxor x y : word x -> word y -> word (Z.lxor x y).
Proof.
  rewrite !word_bits. intros [? X] [? Y]. split; [by apply Z.lxor_nonneg |].
  intros i I. by rewrite Z.lxor_spec, X, Y.
Qed.

Lemma word_lor x y : word x -> word y -> word (Z.lor x y).
Proof.
  rewrite !word_bits. intros [? X] [? Y]. split; [by apply Z.lor_nonneg |].
  intros i I. by rewrite Z.lor_spec, X, Y.
Qed.

Lemma word_shiftr x n : word x -> 0 <= n -> word (Z.shiftr x n).
Proof.
  rewrite !word_bits. intros [? X] N. split; [by apply Z.shiftr_nonneg |].
  intros i I. rewrite Z.shiftr_spec by lia. apply X. lia.
Qed.

Lemma word_rot x y : word x -> 0 <= y <= 32 -> word (ROT32 x y).
Proof. intros. apply word_lor; [apply word_u32 | apply word_shiftr; [done | lia]]. Qed.

#[local] Hint Resolve word_u32 word_lxor word_lor word_shiftr word_rot : kim.

Lemma u32_lxor x y : u32 (Z.lxor x y) = Z.lxor (u32 x) (u32 y).
Proof.
  rewrite !u32_land. apply Z.bits_inj'. intros i I.
  rewrite !Z.land_spec, !Z.lxor_spec, !Z.land_spec.
  by destruct (Z.testbit x i), (Z.testbit y i), (Z.testbit (Z.ones 32) i).
Qed.

Lemma lxor_cancel_l h x y : Z.lxor h x = Z.lxor h y -> x = y.
Proof.
  intros E. apply (f_equal (Z.lxor h)) in E.
  by rewrite <- !Z.lxor_assoc, !Z.lxor_nilpotent, !Z.lxor_0_l in E.
Qed.

Lemma lxor_cancel_r h x y : Z.lxor x h = Z.lxor y h -> x = y.
Proof. rewrite !(Z.lxor_comm _ h). apply lxor_cancel_l. Qed.

(** Multiplication by an odd constant can be undone. *)
Lemma u32_mul_cancel p q x y :
  u32 (p * q) = 1 -> word x -> word y -> u32 (x * p) = u32 (y * p) -> x = y.
Proof.
  unfold word, u32. intros I X Y E.
  assert (U : forall z, 0 <= z < 2 ^ 32 -> ((z * p) mod 2 ^ 32 * q) mod 2 ^ 32 = z).
  { intros z Z0. rewrite Zmult_mod_idemp_l. rewrite <- Z.mul_assoc, <- Zmult_mod_idemp_r, I.
    rewrite Z.mul_1_r. by apply Z.mod_small. }
  rewrite <- (U x X), <- (U y Y). by rewrite E.
Qed.

Lemma u32_add_cancel n x y : u32 (x + n) = u32 (y + n) -> u32 x = u32 y.
Proof.
  unfold u32. intros E. replace x with (x + n - n) by lia. replace y with (y + n - n) by lia.
  by rewrite Zminus_mod, E, <- Zminus_mod.
Qed.

Lemma rot_spec x y i :
  word x -> 0 < y < 32 -> 0 <= i < 32 ->
  Z.testbit (ROT32 x y) i = Z.testbit x (if i <? y then i + (32 - y) else i - y).
Proof.
  rewrite word_bits. intros [X B] Y I. unfold ROT32.
  rewrite Z.lor_spec, u32_land, Z.land_spec, Z.shiftr_spec, Z.ones_spec_low, andb_true_r by lia.
  kcase.
  - by rewrite Z.shiftl_spec_low by lia.
  - rewrite Z.shiftl_spec by lia. rewrite (B (i + (32 - y))) by lia. apply orb_false_r.
Qed.

Lemma rot_inj x z y : 0 < y < 32 -> word x -> word z -> ROT32 x y = ROT32 z y -> x = z.
Proof.
  intros Y X Z0 E. apply Z.bits_inj'. intros i I. destruct (Z.ltb_spec i 32).
  - set (j := if i <? 32 - y then i + y else i - (32 - y)).
    assert (0 <= j < 32 /\ (if j <? y then j + (32 - y) else j - y) = i) as [J K].
    { unfold j. kcase; repeat kcase; lia. }
    pose proof (rot_spec x y j X Y J) as EX. pose proof (rot_spec z y j Z0 Y J) as EZ.
    rewrite K in EX, EZ. congruence.
  - apply word_bits in X as [_ X], Z0 as [_ Z0]. by rewrite X, Z0.
Qed.

(** [x ^= x >> n] can be undone: the top [n] bits are unchanged, and every
    lower bit is determined by the bits above it. *)
Lemma xorshift_inj n x y :
  0 < n -> word x -> word y ->
  Z.lxor x (Z.shiftr x n) = Z.lxor y (Z.shiftr y n) -> x = y.
Proof.
  intros N X Y E. apply word_bits in X as [X BX], Y as [Y BY].
  assert (forall k, forall i, 0 <= i -> 32 - Z.of_nat k <= i -> Z.testbit x i = Z.testbit y i) as H.
  { induction k as [|k IH]; intros i I K; [rewrite BX, BY by lia; done |].
    apply (f_equal (fun z => Z.testbit z i)) in E. rewrite !Z.lxor_spec, !Z.shiftr_spec in E by lia.
    rewrite (IH (i + n)) in E by lia.
    by destruct (Z.testbit x i), (Z.testbit y i), (Z.testbit y (i + n)). }
  apply Z.bits_inj'. intros i I. apply (H 32%nat); lia.
Qed.

Lemma schar_u32_inj a b : u32 (schar a) = u32 (schar b) -> a = b.
Proof.
  intros E. rewrite <- (char_of_uchar a), <- (char_of_uchar b). f_equal.
  unfold schar, u32 in E. pose proof (uchar_range a). pose proof (uchar_range b).
  revert E. repeat kcase; intros E.
  - by rewrite !Z.mod_small in E by lia.
  - rewrite (Z.mod_small (uchar a)), <- (Z.mod_unique (uchar b - 256) (2 ^ 32) (-1) (uchar b - 256 + 2 ^ 32)) in E; lia.
  - rewrite (Z.mod_small (uchar b)), <- (Z.mod_unique (uchar a - 256) (2 ^ 32) (-1) (uchar a - 256 + 2 ^ 32)) in E; lia.
  - rewrite <- (Z.mod_unique (uchar a - 256) (2 ^ 32) (-1) (uchar a - 256 + 2 ^ 32)),
      <- (Z.mod_unique (uchar b - 256) (2 ^ 32) (-1) (uchar b - 256 + 2 ^ 32)) in E; lia.
Qed.

(** ** Folds whose step can be undone *)

Section undo.
Context {A : Type} (f : Z -> A -> Z).
Hypothesis f_word : forall h a, word h -> word (f h a).
Hypothesis f_inj : forall h h' a, word h -> word h' -> f h a = f h' a -> h = h'.

Lemma foldl_word l h : word h -> word (foldl f h l).
Proof using f_word. revert h. induction l; simpl; auto. Qed.

Lemma foldl_inj l h h' : word h -> word h' -> foldl f h l = foldl f h' l -> h = h'.
Proof using f_word f_inj.
  revert h h'. induction l as [|a l IH]; simpl; intros h h' W W' E; [done |].
  apply (f_inj h h' a); [done..|]. apply IH; auto.
Qed.

End undo.

Lemma fnv1a_step_inj h h' ch : word h -> word h' -> fnv1a_step h ch = fnv1a_step h' ch -> h = h'.
Proof.
  intros W W' E. apply (lxor_cancel_r (u32 (schar ch))).
  eapply (u32_mul_cancel (u32 FNV_64_PRIME) 0x150140ad); [vm_compute; reflexivity | eauto with kim .. | exact E].
Qed.

Lemma word_mix_block k : word (mix_block k).
Proof. apply word_u32. Qed.

Lemma word_murmur_step h k : word (murmur_step h k).
Proof. apply word_u32. Qed.

#[local] Hint Resolve word_mix_block word_murmur_step : kim.

Lemma mix_block_inj k k' : word k -> word k' -> mix_block k = mix_block k' -> k = k'.
Proof.
  intros W W' E. unfold mix_block in E.
  apply (u32_mul_cancel c2 0x56ed309b) in E; [| done | apply word_rot; kauto ..].
  apply rot_inj in E; [| kauto ..].
  by apply (u32_mul_cancel c1 0xdee13bb1) in E.
Qed.

(** Everything in a round of [murmur3_32] can be undone. *)
Lemma murmur_step_cancel x y :
  word x -> word y -> u32 (ROT32 x 13 * 5 + 0xe6546b64) = u32 (ROT32 y 13 * 5 + 0xe6546b64) -> x = y.
Proof.
  intros X Y E. apply u32_add_cancel in E.
  apply (u32_mul_cancel 5 0xcccccccd) in E; [| done | apply word_rot; kauto ..].
  apply rot_inj in E; kauto.
Qed.

Lemma murmur_step_inj_hash h h' k : word h -> word h' -> murmur_step h k = murmur_step h' k -> h = h'.
Proof.
  intros W W' E%murmur_step_cancel; [| eauto with kim ..]. by eapply lxor_cancel_r.
Qed.

Lemma murmur_step_inj_block h k k' :
  word h -> word k -> word k' -> murmur_step h k = murmur_step h k' -> k = k'.
Proof.
  intros W K K' E%murmur_step_cancel; [| eauto with kim ..].
  apply lxor_cancel_l in E. by apply mix_block_inj.
Qed.

Lemma murmur_final_inj h h' len : word h -> word h' -> word len -> murmur_final h len = murmur_final h' len -> h = h'.
Proof.
  intros W W' L E. unfold murmur_final in E.
  apply xorshift_inj in E; [| lia | apply word_u32 ..].
  apply (u32_mul_cancel _ 0x7ed1b41d) in E; [| done | eauto 6 with kim lia ..].
  apply xorshift_inj in E; [| lia | apply word_u32 ..].
  apply (u32_mul_cancel _ 0xa5cb9243) in E; [| done | eauto 6 with kim lia ..].
  apply xorshift_inj in E; [| lia | eauto with kim ..].
  by apply lxor_cancel_r in E.
Qed.

(** ** Bytes and words *)

Lemma land_disjoint x y n : 0 <= n -> x mod 2 ^ n = 0 -> 0 <= y < 2 ^ n -> Z.land x y = 0.
Proof.
  intros N X [Y0 Y]. apply Z.bits_inj'. intros i I. rewrite Z.land_spec, Z.bits_0.
  destruct (Z.ltb_spec i n).
  - rewrite <- (Z.mod_pow2_bits_low x n i), X by lia. by rewrite Z.bits_0.
  - destruct (Z.eq_dec y 0) as [->|]; [by rewrite Z.bits_0, andb_false_r |].
    rewrite (Z.bits_above_log2 y i); [apply andb_false_r | done |].
    apply Z.lt_le_trans with n; [apply Z.log2_lt_pow2; lia | done].
Qed.

Lemma lor_add x y n : 0 <= n -> x mod 2 ^ n = 0 -> 0 <= y < 2 ^ n -> Z.lor x y = x + y.
Proof. intros N X Y. rewrite <- Z.add_lor_land, (land_disjoint x y n) by done. lia. Qed.

Lemma lxor_add x y n : 0 <= n -> x mod 2 ^ n = 0 -> 0 <= y < 2 ^ n -> Z.lxor x y = x + y.
Proof. intros N X Y. rewrite Z.lxor_lor; [by apply (lor_add x y n) | by apply (land_disjoint x y n)]. Qed.

Lemma load32_sum b0 b1 b2 b3 :
  load32 b0 b1 b2 b3 = uchar b3 * 2 ^ 24 + uchar b2 * 2 ^ 16 + uchar b1 * 2 ^ 8 + uchar b0.
Proof.
  unfold load32. rewrite !Z.shiftl_mul_pow2 by lia.
  pose proof (uchar_range b0). pose proof (uchar_range b1). pose proof (uchar_range b2).
  rewrite (lor_add _ (uchar b2 * _) 24), (lor_add _ (uchar b1 * _) 16), (lor_add _ (uchar b0) 8);
    Z.to_euclidean_division_equations; lia.
Qed.

Lemma tail3_sum t0 t1 t2 :
  Z.lxor (Z.lxor (Z.shiftl (uchar t2) 16) (Z.shiftl (uchar t1) 8)) (uchar t0) =
  uchar t2 * 2 ^ 16 + uchar t1 * 2 ^ 8 + uchar t0.
Proof.
  rewrite !Z.shiftl_mul_pow2 by lia. pose proof (uchar_range t0). pose proof (uchar_range t1).
  rewrite (lxor_add _ (uchar t1 * _) 16), (lxor_add _ (uchar t0) 8);
    Z.to_euclidean_division_equations; lia.
Qed.

Lemma tail2_sum t0 t1 : Z.lxor (Z.shiftl (uchar t1) 8) (uchar t0) = uchar t1 * 2 ^ 8 + uchar t0.
Proof.
  rewrite !Z.shiftl_mul_pow2 by lia. pose proof (uchar_range t0).
  rewrite (lxor_add _ (uchar t0) 8); Z.to_euclidean_division_equations; lia.
Qed.

Lemma uchar_inj a b : uchar a = uchar b -> a = b.
Proof. intros E. rewrite <- (char_of_uchar a), <- (char_of_uchar b). by f_equal. Qed.

(** The hash before the final avalanche. *)
Definition murmur_raw (hash : Z) (key : bytes) : Z :=
  let '(hash, tail) := murmur_blocks hash key in murmur_tail hash tail.

Lemma bytes_ind4 (P : bytes -> Prop) :
  (forall l, (length l < 4)%nat -> P l) ->
  (forall b0 b1 b2 b3 l, P l -> P (b0 :: b1 :: b2 :: b3 :: l)) -> forall l, P l.
Proof.
  intros S L. fix IH 1. intros [|b0 [|b1 [|b2 [|b3 l]]]]; try (apply S; simpl; lia). apply L, IH.
Qed.

Lemma murmur_raw_block h b0 b1 b2 b3 l :
  murmur_raw h (b0 :: b1 :: b2 :: b3 :: l) = murmur_raw (murmur_step h (load32 b0 b1 b2 b3)) l.
Proof. reflexivity. Qed.

Lemma word_murmur_raw key : forall h, word h -> word (murmur_raw h key).
Proof.
  induction key as [l L | b0 b1 b2 b3 l IH] using bytes_ind4; intros h W; [| rewrite murmur_raw_block; auto with kim].
  destruct l as [|b0 [|b1 [|b2 [|b3 l]]]]; simpl in L; try lia; cbn; auto with kim.
Qed.

Lemma murmur_raw_inj_hash key : forall h h', word h -> word h' -> murmur_raw h key = murmur_raw h' key -> h = h'.
Proof.
  induction key as [l L | b0 b1 b2 b3 l IH] using bytes_ind4; intros h h' W W' E.
  - destruct l as [|b0 [|b1 [|b2 [|b3 l]]]]; simpl in L; try lia; cbn in E;
      [done | by apply lxor_cancel_r in E ..].
  - rewrite !murmur_raw_block in E. apply IH in E; [| eauto with kim ..].
    by apply murmur_step_inj_hash in E.
Qed.

Lemma word_load32 b0 b1 b2 b3 : word (load32 b0 b1 b2 b3).
Proof.
  rewrite load32_sum. unfold word.
  pose proof (uchar_range b0). pose proof (uchar_range b1). pose proof (uchar_range b2).
  pose proof (uchar_range b3). lia.
Qed.

Lemma load32_raw_inj h b0 b1 b2 b3 d0 d1 d2 d3 l :
  word h ->
  murmur_raw h (b0 :: b1 :: b2 :: b3 :: l) = murmur_raw h (d0 :: d1 :: d2 :: d3 :: l) ->
  load32 b0 b1 b2 b3 = load32 d0 d1 d2 d3.
Proof.
  intros W E. rewrite !murmur_raw_block in E. apply murmur_raw_inj_hash in E; [| eauto with kim ..].
  apply murmur_step_inj_block in E; [done | done | apply word_load32 ..].
Qed.

Lemma tail_raw_inj h k k' : word k -> word k' -> Z.lxor h (mix_block k) = Z.lxor h (mix_block k') -> k = k'.
Proof. intros K K' E%lxor_cancel_l. by apply mix_block_inj. Qed.

Lemma word_uchar t0 : word (uchar t0).
Proof. unfold word. pose proof (uchar_range t0). lia. Qed.

Lemma word_tail2 t0 t1 : word (Z.lxor (Z.shiftl (uchar t1) 8) (uchar t0)).
Proof.
  rewrite tail2_sum. unfold word. pose proof (uchar_range t0). pose proof (uchar_range t1). lia.
Qed.

Lemma word_tail3 t0 t1 t2 :
  word (Z.lxor (Z.lxor (Z.shiftl (uchar t2) 16) (Z.shiftl (uchar t1) 8)) (uchar t0)).
Proof.
  rewrite tail3_sum. unfold word.
  pose proof (uchar_range t0). pose proof (uchar_range t1). pose proof (uchar_range t2). lia.
Qed.

Lemma murmur_raw_inj_byte pre : forall h a b post,
  word h -> murmur_raw h (pre ++ a :: post) = murmur_raw h (pre ++ b :: post) -> a = b.
Proof.
  induction pre as [pre L | b0 b1 b2 b3 pre IH] using bytes_ind4; intros h a b post W E.
  - apply uchar_inj.
    destruct pre as [|p0 [|p1 [|p2 [|p3 pre]]]]; [.. | simpl in L; lia]; cbn [app] in E;
      destruct post as [|q0 [|q1 [|q2 post]]]; first
        [ apply load32_raw_inj in E; [rewrite !load32_sum in E; lia | done]
        | cbn in E; apply tail_raw_inj in E;
          [rewrite ?tail3_sum, ?tail2_sum in E; lia | auto using word_uchar, word_tail2, word_tail3 ..] ].
  - cbn [app] in E. rewrite !murmur_raw_block in E. by apply IH in E; [| eauto with kim].
Qed.

Lemma murmur3_inj_byte pre a b post seed :
  word seed -> murmur3_32 (pre ++ a :: post) seed = murmur3_32 (pre ++ b :: post) seed -> a = b.
Proof.
  intros W E. apply (murmur_raw_inj_byte pre seed a b post W).
  assert (L : forall c, u32 (zlen (pre ++ c :: post)) = u32 (zlen (pre ++ a :: post)))
    by (intros c; by rewrite !zlen_app).
  assert (F : forall c, murmur3_32 (pre ++ c :: post) seed =
                        murmur_final (murmur_raw seed (pre ++ c :: post)) (u32 (zlen (pre ++ a :: post)))).
  { intros c. unfold murmur3_32, murmur_raw. rewrite L. by destruct (murmur_blocks _ _). }
  rewrite !F in E. apply murmur_final_inj in E; [done | apply word_murmur_raw; done .. | apply word_u32].
Qed.

Lemma fnv1a_inj_byte pre a b post :
  hash_fnv1a_64 (pre ++ a :: post) = hash_fnv1a_64 (pre ++ b :: post) -> a = b.
Proof.
  unfold hash_fnv1a_64. rewrite !foldl_app. cbn [foldl]. intros E.
  assert (Wf : forall h c, word h -> word (fnv1a_step h c)) by (intros; apply word_u32).
  apply (foldl_inj fnv1a_step Wf fnv1a_step_inj) in E; [| apply word_u32 ..].
  set (h := foldl fnv1a_step _ pre) in E.
  assert (word h) by (apply (foldl_word fnv1a_step Wf), word_u32).
  apply (u32_mul_cancel (u32 FNV_64_PRIME) 0x150140ad) in E; [| vm_compute; reflexivity | eauto with kim ..].
  apply lxor_cancel_l in E. by apply schar_u32_inj.
Qed.

Definition fnv1_step32 (h : Z) (ch : ascii) : Z :=
  Z.lxor (u32 (h * u32 FNV_64_PRIME)) (u32 (schar ch)).

Lemma fnv1_fold key : hash_fnv1_64 key = foldl fnv1_step32 (u32 FNV_64_INIT) key.
Proof.
  unfold hash_fnv1_64. generalize FNV_64_INIT as h. induction key as [|ch key IH]; intros h; [done |].
  cbn [foldl]. rewrite IH. f_equal. unfold fnv1_step, fnv1_step32. rewrite u32_lxor, !u32_u64. f_equal.
  unfold u32. by rewrite Z.mul_mod by done.
Qed.

Lemma word_fnv1_step32 h ch : word h -> word (fnv1_step32 h ch).
Proof. intros _. unfold fnv1_step32. auto with kim. Qed.

Lemma fnv1_step32_inj h h' ch : word h -> word h' -> fnv1_step32 h ch = fnv1_step32 h' ch -> h = h'.
Proof.
  intros W W' E%lxor_cancel_r. apply (u32_mul_cancel (u32 FNV_64_PRIME) 0x150140ad) in E; [done | | done..].
  vm_compute. reflexivity.
Qed.

Lemma fnv1_inj_byte pre a b post :
  hash_fnv1_64 (pre ++ a :: post) = hash_fnv1_64 (pre ++ b :: post) -> a = b.
Proof.
  rewrite !fnv1_fold, !foldl_app. cbn [foldl]. intros E.
  pose proof (foldl_word fnv1_step32 word_fnv1_step32 pre (u32 FNV_64_INIT) (word_u32 _)).
  apply (foldl_inj fnv1_step32 word_fnv1_step32 fnv1_step32_inj) in E; [| by apply word_fnv1_step32 ..].
  apply lxor_cancel_l in E. by apply schar_u32_inj.
Qed.

(** Every hash is a [uint32_t]. *)
Lemma hash_fnv1_64_word key : word (hash_fnv1_64 key).
Proof. apply word_u32. Qed.

Lemma hash_fnv1a_64_word key : word (hash_fnv1a_64 key).
Proof. apply foldl_word; [intros; apply word_u32 | apply word_u32]. Qed.

Lemma murmur3_32_word key seed : word seed -> word (murmur3_32 key seed).
Proof.
  intros W. unfold murmur3_32. pose proof (word_murmur_raw key seed W) as R. unfold murmur_raw in R.
  destruct (murmur_blocks seed key). unfold murmur_final.
  apply word_lxor; [apply word_u32 | apply word_shiftr; [apply word_u32 | lia]].
Qed.

(** ** Properties *)

(** The 64-bit state of [hash_fnv1_64] does not matter: the result is the
    same hash computed in 32 bits all along, because the returned half never
    depends on the upper half. *)
Theorem fnv1_is_32_bit key :
  hash_fnv1_64 key =
  foldl (fun h ch => Z.lxor (u32 (h * u32 FNV_64_PRIME)) (u32 (schar ch))) (u32 FNV_64_INIT) key.
Proof. apply fnv1_fold. Qed.

(** Changing one byte of a key changes its hash, for each of the three
    functions and every position: every step of the loops can be undone. *)
Theorem hash_detects_one_byte pre a b post seed :
  a <> b -> 0 <= seed < 2 ^ 32 ->
  hash_fnv1a_64 (pre ++ a :: post) <> hash_fnv1a_64 (pre ++ b :: post) /\
  hash_fnv1_64 (pre ++ a :: post) <> hash_fnv1_64 (pre ++ b :: post) /\
  murmur3_32 (pre ++ a :: post) seed <> murmur3_32 (pre ++ b :: post) seed.
Proof.
  intros N W. split_and!; intros E; apply N.
  - by apply fnv1a_inj_byte in E.
  - by apply fnv1_inj_byte in E.
  - by apply murmur3_inj_byte in E.
Qed.

Lemma hash_detects_one_byte_witness :
  hash_fnv1a_64 (str_bytes "user:1001") <> hash_fnv1a_64 (str_bytes "user:2001") /\
  hash_fnv1_64 (str_bytes "user:1001") <> hash_fnv1_64 (str_bytes "user:2001") /\
  murmur3_32 (str_bytes "user:1001") 0x1b3 <> murmur3_32 (str_bytes "user:2001") 0x1b3.
Proof.
  apply (hash_detects_one_byte (str_bytes "user:") "1"%char "2"%char (str_bytes "001") 0x1b3);
    [discriminate | lia].
Defined.

End Hash.
