(* ===== verification/Util.v ===== *)
(** * Util: formatting, splitting and comparing

    Model of the pure functions of [util/util.h] and [util/util.cpp].  A
    [std::string] is a [string]; [c_str] cuts it at its first NUL, and
    [snprintf] cuts the text at the size of its array.  [md5] and the clocks
    belong to other libraries and are parameters where they are used. *)

From S2P Require Import Prelude StdMap.

Module Util.

(** ** Formatting *)

(** What a C function sees of [s.c_str()]. *)
Fixpoint c_cut (l : bytes) : bytes :=
  match l with
  | [] => []
  | ch :: l => if bool_decide (ch = NUL) then [] else ch :: c_cut l
  end.
Definition c_str (s : string) : bytes := c_cut (str_bytes s).

(** [%d] *)
Definition dec (n : Z) : bytes := str_bytes (pretty n).

(** [char buf[size]; snprintf(buf, size, ...); std::string(buf)] for a text
    without NUL. *)
Definition snprintf (size : nat) (text : bytes) : string := bytes_str (take (size - 1) text).

(** [format_str] after its format has been applied to the arguments. *)
Definition format_str (text : bytes) : string := snprintf 256 text.

Definition addr_text (host : string) (port : Z) : bytes := c_str host ++ str_bytes ":" ++ dec port.

Definition format_addr (host : string) (port : Z) : string := snprintf 64 (addr_text host port).

Definition format_nodes_id (host : string) (port index : Z) : string :=
  snprintf 128 (addr_text host port ++ str_bytes "." ++ dec index).

Definition format_redis_cmds (argv : list string) : string :=
  foldr (fun it oss => it +:+ " " +:+ oss) "" argv.

(** ** [std::stoi] *)

Definition is_space (ch : ascii) : bool :=
  let v := uchar ch in (v =? 32) || ((9 <=? v) && (v <=? 13)).
Definition digit (ch : ascii) : option Z :=
  let v := uchar ch in if (48 <=? v) && (v <=? 57) then Some (v - 48) else None.

Fixpoint skip_spaces (l : bytes) : bytes :=
  match l with
  | ch :: l' => if is_space ch then skip_spaces l' else l
  | [] => []
  end.

(** The value of the leading digits, if there is one. *)
Fixpoint digits (l : bytes) (acc : option Z) : option Z :=
  match l with
  | ch :: l =>
      match digit ch with
      | Some d => digits l (Some (default 0 acc * 10 + d))
      | None => acc
      end
  | [] => acc
  end.

Definition signed_digits (l : bytes) : option Z :=
  match l with
  | ch :: l' =>
      if bool_decide (ch = "-"%char) then Z.opp <$> digits l' None
      else if bool_decide (ch = "+"%char) then digits l' None
      else digits l None
  | [] => None
  end.

(** [None] is the exception [std::invalid_argument] or [std::out_of_range]. *)
Definition stoi (s : string) : option Z :=
  v ← signed_digits (skip_spaces (str_bytes s));
  if (- 2 ^ 31 <=? v) && (v <? 2 ^ 31) then Some v else None.

Definition str_to_int (d : string) : option Z :=
  if bool_decide (d = "") then Some 0 else stoi d.

(** ** Splitting *)

(** [find_first_not_of(seq, cur)] on the text from [cur] on. *)
Fixpoint skip_in (seq l : bytes) : bytes :=
  match l with
  | [] => []
  | ch :: l' => if bool_decide (ch ∈ seq) then skip_in seq l' else l
  end.

(** [find(seq, pre)] on the text from [pre] on: what lies before the first
    occurrence, and the text that starts with it. *)
Fixpoint find_seq (seq l : bytes) : option (bytes * bytes) :=
  if bool_decide (seq `prefix_of` l) then Some ([], l) else
  match l with
  | [] => None
  | ch :: l' => '(a, r) ← find_seq seq l'; Some (ch :: a, r)
  end.

Fixpoint split_go (fuel : nat) (seq l : bytes) : option (list bytes) :=
  match fuel with
  | O => None
  | S fuel =>
      match skip_in seq l with
      | [] => Some []
      | pre =>
          match find_seq seq pre with
          | None => Some [pre]
          | Some (tok, rest) => toks ← split_go fuel seq rest; Some (tok :: toks)
          end
      end
  end.

Definition trim (l : bytes) : bytes :=
  reverse (skip_in [" "%char] (reverse (skip_in [" "%char] l))).

Definition split_str (s seq : string) (trim_blank : bool) : option (list string) :=
  toks ← split_go (S (String.length s)) (str_bytes seq) (str_bytes s);
  Some (map bytes_str (if trim_blank && negb (bool_decide (seq = " ")) then map trim toks else toks)).

(** ** Differences *)

(** [diff_cmp] sorts both vectors in place: the result is the difference and
    the two sorted vectors. *)
Definition diff_cmp `{KeyOrder K} (first second : list K) : list K * list K * list K :=
  let first := std_sort first in
  let second := std_sort second in
  (set_difference first second, first, second).

(** ** The limit of open files *)

(** [setrlimit] answers [None] for success or an [errno]. *)
Fixpoint limit_loop (fuel : nat) (setrlimit : Z -> option Z) (bestlimit oldlimit error : Z)
  : option (Z * Z) :=
  match fuel with
  | O => None
  | S fuel =>
      if oldlimit <? bestlimit then
        match setrlimit bestlimit with
        | None => Some (bestlimit, error)
        | Some e =>
            if bestlimit <? 16 then Some (bestlimit, e)
            else limit_loop fuel setrlimit (u64 (bestlimit - 16)) oldlimit e
        end
      else Some (bestlimit, error)
  end.

Definition adjust_files_limit (fuel : nat) (getrlimit : Z + Z) (setrlimit : Z -> option Z)
    (max_clients error : Z) : option (Z * Z) :=
  let maxfiles := u64 max_clients in
  match getrlimit with
  | inr e => Some (1024, e)
  | inl oldlimit =>
      if maxfiles <=? oldlimit then Some (max_clients, error) else
      '(bestlimit, error) ← limit_loop fuel setrlimit maxfiles oldlimit error;
      let bestlimit := if bestlimit <? oldlimit then oldlimit else bestlimit in
      Some (i32 bestlimit, error)
  end.

(** ** Decimal numbers *)

Lemma str_bytes_app s t : str_bytes (s +:+ t) = str_bytes s ++ str_bytes t.
Proof. induction s as [|ch s IH]; simpl; [done |]. f_equal. exact IH. Qed.

Lemma str_bytes_inj s t : str_bytes s = str_bytes t -> s = t.
Proof. intros E. by rewrite <- (String.string_of_list_ascii_of_string s), E, String.string_of_list_ascii_of_string. Qed.

Lemma dec_inj n m : dec n = dec m -> n = m.
Proof. intros E%str_bytes_inj. by apply (inj pretty). Qed.

(** A digit. *)
Definition is_digit (ch : ascii) : Prop := exists n, (n < 10)%N /\ ch = pretty_N_char n.

Lemma digit_char n : (n < 10)%N -> digit (pretty_N_char n) = Some (Z.of_N n).
Proof.
  intros L. assert (n ∈ [0;1;2;3;4;5;6;7;8;9]%N) as I.
  { rewrite !elem_of_cons, elem_of_nil. lia. }
  repeat (apply elem_of_cons in I as [->|I]; [reflexivity |]). by apply elem_of_nil in I.
Qed.

Lemma is_digit_neq ch d : is_digit ch -> digit d = None -> ch <> d.
Proof. intros (n & L & ->) N <-. by rewrite digit_char in N. Qed.

(** The digits of a natural number in front of [s], and what [digits] reads. *)
Lemma pretty_N_go_digits x s :
  exists ds, str_bytes (pretty_N_go x s) = ds ++ str_bytes s /\ Forall is_digit ds /\
    (ds = [] <-> x = 0%N) /\
    forall l acc, digits (ds ++ l) (Some acc) = digits l (Some (acc * 10 ^ zlen ds + Z.of_N x)).
Proof.
  revert s. induction (N.lt_wf_0 x) as [x _ IH]; intros s.
  destruct (decide (x = 0%N)) as [->|].
  { exists []. split_and!; [done | done | done |]. intros l acc.
    cbn [app]. do 2 f_equal. change (zlen (@nil ascii)) with 0. lia. }
  rewrite pretty_N_go_step by lia.
  destruct (IH (x `div` 10)%N) with (s := String (pretty_N_char (x `mod` 10)) s) as (ds & E & F & _ & D).
  { apply N.div_lt; lia. }
  assert (x `mod` 10 < 10)%N by (apply N.mod_lt; lia).
  exists (ds ++ [pretty_N_char (x `mod` 10)]). split_and!.
  - rewrite E. simpl. by rewrite <- app_assoc.
  - apply Forall_app. split; [done |]. constructor; [by eexists | done].
  - split; [by destruct ds | done].
  - intros l acc. rewrite <- app_assoc, D. cbn [app digits]. rewrite digit_char by done.
    cbn [default]. f_equal. f_equal. unfold zlen. rewrite length_app, Nat2Z.inj_add.
    cbn [length]. rewrite Z.pow_add_r by lia. rewrite Z.pow_1_r.
    assert (Z.of_N x = Z.of_N (x `div` 10) * 10 + Z.of_N (x `mod` 10)) as -> by (pose proof (N.div_mod x 10); lia).
    unfold id. ring.
Qed.
Lemma pretty_pos_digits p :
  exists ds, dec (Zpos p) = ds /\ Forall is_digit ds /\ ds <> [] /\ digits ds None = Some (Zpos p).
Proof.
  destruct (pretty_N_go_digits (Npos p) "") as (ds & E & F & N & D).
  assert (E' : dec (Zpos p) = ds) by (rewrite <- (app_nil_r ds); exact E).
  exists ds. assert (ds <> []) by (intros ->; by destruct N as [N _]; specialize (N eq_refl)).
  split_and!; [done..|]. destruct ds as [|d ds]; [done |].
  specialize (D [] 0). rewrite app_nil_r in D. cbn [digits] in D |- *.
  destruct (digit d) as [v|]; [| by rewrite Z.mul_0_l in D]. cbn [default] in *. exact D.
Qed.

(** [%d] writes digits, with a minus in front of a negative number. *)
Lemma dec_shape n :
  exists ds, Forall is_digit ds /\ ds <> [] /\ digits ds None = Some (Z.abs n) /\
    dec n = (if n <? 0 then ["-"%char] else []) ++ ds.
Proof.
  destruct n as [|p|p].
  - exists ["0"%char]. split_and!; [| done..]. constructor; [by exists 0%N | done].
  - destruct (pretty_pos_digits p) as (ds & E & F & N & D). by exists ds.
  - destruct (pretty_pos_digits p) as (ds & E & F & N & D). exists ds. split_and!; [done..|].
    change (dec (Zneg p)) with (str_bytes ("-" +:+ pretty (Zpos p))). rewrite str_bytes_app.
    by rewrite <- E.
Qed.

Lemma dec_notin n ch : digit ch = None -> ch <> "-"%char -> ch ∉ dec n.
Proof.
  intros D M I. destruct (dec_shape n) as (ds & F & _ & _ & E). rewrite E, elem_of_app in I.
  destruct I as [I|I].
  - destruct (n <? 0); [by apply list_elem_of_singleton in I | by apply elem_of_nil in I].
  - rewrite Forall_forall in F. exact (is_digit_neq _ _ (F _ I) D eq_refl).
Qed.

Lemma digit_not_space ch : is_digit ch -> is_space ch = false /\ ch <> "-"%char /\ ch <> "+"%char.
Proof.
  intros (n & L & ->). assert (n ∈ [0;1;2;3;4;5;6;7;8;9]%N) as I.
  { rewrite !elem_of_cons, elem_of_nil. lia. }
  repeat (apply elem_of_cons in I as [->|I]; [done |]). by apply elem_of_nil in I.
Qed.

Lemma stoi_dec n : - 2 ^ 31 <= n < 2 ^ 31 -> stoi (pretty n) = Some n.
Proof.
  intros R. destruct (dec_shape n) as (ds & F & N & D & E). unfold stoi. fold (dec n).
  assert (signed_digits (skip_spaces (dec n)) = Some n) as ->.
  { rewrite E. destruct (Z.ltb_spec n 0).
    - cbn [app skip_spaces]. change (is_space "-"%char) with false. cbn [signed_digits].
      rewrite bool_decide_true, D by done. cbn [fmap option_fmap option_map]. f_equal. lia.
    - destruct ds as [|d ds]; [done |]. apply Forall_cons in F as [Fd _].
      destruct (digit_not_space d Fd) as (S & M & P). cbn [app skip_spaces]. rewrite S.
      unfold signed_digits. rewrite !bool_decide_false by done. rewrite D. f_equal. lia. }
  cbn [mbind option_bind]. destruct (Z.leb_spec (- 2 ^ 31) n), (Z.ltb_spec n (2 ^ 31)); try lia. done.
Qed.

(** ** Splitting at a separator that is not in the left part *)

Lemma app_sep_inj {A} (x : A) l1 r1 l2 r2 :
  x ∉ l1 -> x ∉ l2 -> l1 ++ (x :: r1) = l2 ++ (x :: r2) -> l1 = l2 /\ r1 = r2.
Proof.
  revert l2. induction l1 as [|a l1 IH]; intros [|b l2] N1 N2 E; simplify_eq/=.
  - done.
  - by destruct N2; left.
  - by destruct N1; left.
  - apply not_elem_of_cons in N1 as [_ N1], N2 as [_ N2]. by destruct (IH l2 N1 N2) as [-> ->].
Qed.

Lemma c_cut_id l : NUL ∉ l -> c_cut l = l.
Proof.
  induction l as [|ch l IH]; [done |]. intros [N I]%not_elem_of_cons. simpl.
  rewrite bool_decide_false by done. by rewrite IH.
Qed.

Lemma snprintf_fits size text : (length text < size)%nat -> str_bytes (snprintf size text) = text.
Proof.
  intros L. unfold snprintf. rewrite String.list_ascii_of_string_of_list_ascii.
  apply take_ge. lia.
Qed.

(** A host name as the configuration gives it. *)
Definition host_ok (host : string) : Prop :=
  (NUL ∉ str_bytes host) /\ (":"%char ∉ str_bytes host).

Definition int (z : Z) : Prop := - 2 ^ 31 <= z < 2 ^ 31.

(** The text of a node id fits its array. *)
Definition id_fits (host : string) (port index : Z) : Prop :=
  (length (addr_text host port ++ str_bytes "." ++ dec index) < 128)%nat.

Lemma addr_text_inj h p h' p' rest rest' :
  host_ok h -> host_ok h' ->
  addr_text h p ++ ("."%char :: rest) = addr_text h' p' ++ ("."%char :: rest') ->
  h = h' /\ p = p' /\ rest = rest'.
Proof.
  intros [N C] [N' C']. unfold addr_text, c_str. rewrite !c_cut_id, <- !app_assoc by done. intros E.
  apply app_sep_inj in E as [E1 E2]; [| done..]. cbn [app str_bytes] in E2.
  apply app_sep_inj in E2 as [E2 E3]; [| by apply dec_notin..].
  split_and!; [by apply str_bytes_inj | by apply dec_inj | done].
Qed.

(** [limit_loop] gives up or finds a limit within [bestlimit / 16 + 2] rounds. *)
Lemma limit_loop_spec fuel setrlimit best old error :
  16 <= old -> 0 <= best < 2 ^ 64 -> best / 16 < Z.of_nat fuel ->
  exists r e, limit_loop fuel setrlimit best old error = Some (r, e) /\ 0 <= r <= best /\
    (r <= old \/ old < r /\ setrlimit r = None /\
       (forall l, r < l <= best -> (best - l) mod 16 = 0 -> setrlimit l <> None)).
Proof.
  intros O. revert best error. induction fuel as [|fuel IH]; intros best error B F;
    [exfalso; Z.to_euclidean_division_equations; lia |].
  cbn [limit_loop]. kcase; [| by exists best, error; repeat split; try lia].
  destruct (setrlimit best) as [e|] eqn:S.
  2:{ exists best, error. repeat split; try lia. right. split_and!; [lia | done | intros; lia]. }
  kcase; [lia |]. rewrite u64_small by lia.
  destruct (IH (best - 16) e) as (r & e' & -> & R & D); [lia | Z.to_euclidean_division_equations; lia |].
  exists r, e'. repeat split; try lia. destruct D as [|(? & ? & M)]; [by left | right].
  repeat split; [done..|]. intros l L D. destruct (decide (l <= best - 16)).
  - apply M; [lia |]. Z.to_euclidean_division_equations; lia.
  - assert (l = best) as -> by (Z.to_euclidean_division_equations; lia). by rewrite S.
Qed.

(** ** Tokens *)

Lemma skip_in_head seq l ch l' : skip_in seq l = ch :: l' -> ch ∉ seq.
Proof.
  induction l as [|x l IH]; simpl; [done |]. case_bool_decide; [done |]. by intros [= -> ->].
Qed.

Lemma skip_in_length seq l : (length (skip_in seq l) <= length l)%nat.
Proof. induction l as [|x l IH]; simpl; [done |]. case_bool_decide; simpl; lia. Qed.

Lemma find_seq_app seq l a r : find_seq seq l = Some (a, r) -> l = a ++ r /\ seq `prefix_of` r.
Proof.
  revert a. induction l as [|x l IH]; simpl; intros a.
  - case_bool_decide; [intros [= <- <-]; done | done].
  - case_bool_decide; [intros [= <- <-]; done |].
    destruct (find_seq seq l) as [[a' r']|]; [| done]. intros [= <- <-].
    by destruct (IH a' eq_refl) as [-> ?].
Qed.

(** The text that is left after a token is shorter, so the loop ends. *)
Lemma split_progress seq ch l a r :
  seq <> [] -> ch ∉ seq -> find_seq seq (ch :: l) = Some (a, r) -> (length r <= length l)%nat.
Proof.
  intros N I E. simpl in E. case_bool_decide as P.
  - exfalso. destruct seq as [|x seq]; [done |]. destruct P as [k P]. simplify_eq/=. by destruct I; left.
  - destruct (find_seq seq l) as [[a' r']|] eqn:F; [| done]. simplify_eq/=.
    apply find_seq_app in F as [-> _]. rewrite length_app. lia.
Qed.

Lemma split_go_total fuel seq l :
  seq <> [] -> (length l < fuel)%nat -> is_Some (split_go fuel seq l).
Proof.
  intros N. revert l. induction fuel as [|fuel IH]; intros l L; [lia |]. cbn [split_go].
  destruct (skip_in seq l) as [|ch pre] eqn:S; [eauto |].
  destruct (find_seq seq (ch :: pre)) as [[tok rest]|] eqn:F; [| eauto].
  pose proof (split_progress _ _ _ _ _ N (skip_in_head _ _ _ _ S) F).
  pose proof (skip_in_length seq l) as SL. rewrite S in SL. simpl in SL.
  destruct (IH rest) as [toks ->]; [lia |]. by eexists.
Qed.

(** The maximal runs of characters other than [c]; [cur] is the run being
    read, backwards. *)
Fixpoint runs (c : ascii) (l cur : bytes) : list bytes :=
  let flush := match cur with [] => [] | _ => [reverse cur] end in
  match l with
  | [] => flush
  | x :: l => if bool_decide (x = c) then flush ++ runs c l [] else runs c l (x :: cur)
  end.

Lemma runs_skip c l : runs c l [] = runs c (skip_in [c] l) [].
Proof.
  induction l as [|x l IH]; [done |]. cbn [skip_in].
  destruct (decide (x = c)) as [->|N].
  - rewrite bool_decide_true by by left. simpl. by rewrite bool_decide_true.
  - rewrite bool_decide_false; [done |]. by intros ?%list_elem_of_singleton.
Qed.

Lemma runs_run c a cur l :
  c ∉ a -> a ++ cur <> [] ->
  runs c (a ++ c :: l) cur = (reverse cur ++ a) :: runs c l [] /\ runs c a cur = [reverse cur ++ a].
Proof.
  revert cur. induction a as [|x a IH]; intros cur I N; cbn [app runs].
  - rewrite app_nil_r. destruct cur; [done |]. by rewrite bool_decide_true.
  - apply not_elem_of_cons in I as [X I]. rewrite !bool_decide_false by done.
    destruct (IH (x :: cur) I) as [-> ->]; [by destruct a |].
    by rewrite !reverse_cons, <- !app_assoc.
Qed.

Lemma find_seq_char c l :
  match find_seq [c] l with
  | Some (a, r) => (c ∉ a) /\ exists r', r = c :: r' /\ l = a ++ c :: r'
  | None => c ∉ l
  end.
Proof.
  induction l as [|x l IH]; simpl; [apply not_elem_of_nil |].
  case_bool_decide as P.
  - destruct P as [k P]. simplify_eq/=. split; [apply not_elem_of_nil | by exists k].
  - assert (x <> c) by (intros ->; apply P; by exists l).
    destruct (find_seq [c] l) as [[a r]|]; simpl; [| by apply not_elem_of_cons].
    destruct IH as (I & r' & -> & ->). split; [by apply not_elem_of_cons | by exists r'].
Qed.

Lemma split_go_runs fuel c l : (length l < fuel)%nat -> split_go fuel [c] l = Some (runs c l []).
Proof.
  revert l. induction fuel as [|fuel IH]; intros l L; [lia |]. rewrite runs_skip. cbn [split_go].
  destruct (skip_in [c] l) as [|ch pre] eqn:S; [done |].
  pose proof (skip_in_head _ _ _ _ S) as H. pose proof (skip_in_length [c] l) as SL.
  rewrite S in SL. pose proof (find_seq_char c (ch :: pre)) as F.
  destruct (find_seq [c] (ch :: pre)) as [[tok rest]|] eqn:E.
  - destruct F as (I & r & -> & A). rewrite A. destruct (runs_run c tok [] r I) as [-> _].
    { destruct tok; simplify_eq/=; [by destruct H; left | done]. }
    pose proof (split_progress [c] _ _ _ _ ltac:(discriminate) H E). simpl in *.
    rewrite IH by (simpl; lia). simpl. by rewrite bool_decide_true.
  - destruct (runs_run c (ch :: pre) [] [] F) as [_ ->]; [by rewrite app_nil_r | done].
Qed.

(** ** Properties *)

(** Node ids identify workers: two nodes whose id texts fit the array
    have the same id only if host, port and worker index agree. *)
Theorem format_nodes_id_injective h p i h' p' i' :
  host_ok h -> host_ok h' -> id_fits h p i -> id_fits h' p' i' ->
  format_nodes_id h p i = format_nodes_id h' p' i' -> h = h' /\ p = p' /\ i = i'.
Proof.
  intros H H' F F' E. apply (f_equal str_bytes) in E. unfold format_nodes_id in E.
  rewrite !snprintf_fits in E by done.
  apply addr_text_inj in E as (-> & -> & E); [| done..]. by apply dec_inj in E.
Qed.

(** [str_to_int] reads back what [%d] and [std::to_string] write. *)
Lemma str_to_int_pretty n : - 2 ^ 31 <= n < 2 ^ 31 -> str_to_int (pretty n) = Some n.
Proof.
  intros R. unfold str_to_int. rewrite bool_decide_false; [by apply stoi_dec |].
  intros E. destruct (dec_shape n) as (ds & _ & N & _ & D). unfold dec in D. rewrite E in D.
  destruct (n <? 0), ds; done.
Qed.

(** [diff_cmp] is the difference of multisets, whatever the order of the
    two vectors, and leaves both vectors permuted into sorted order. *)
Theorem diff_cmp_multiset (first second : list string) diff f s :
  diff_cmp first second = (diff, f, s) ->
  f ≡ₚ first /\ s ≡ₚ second /\
  forall x, count_occ (fun x y => decide (x = y)) diff x =
    (count_occ (fun x y => decide (x = y)) first x - count_occ (fun x y => decide (x = y)) second x)%nat.
Proof.
  intros [= <- <- <-]. split_and!; [apply std_sort_Permutation..|].
  intros x. rewrite set_difference_count by apply std_sort_sorted. by rewrite !std_sort_count.
Qed.

(** [split_str] ends on every text as soon as the separator is not empty,
    and splits at a one-character separator into the maximal runs of other
    characters, in order (blanks around them removed on request). *)
Theorem split_str_tokens s seq c tb :
  seq <> "" ->
  is_Some (split_str s seq tb) /\
  (seq = String c "" ->
   split_str s seq tb =
     Some (map bytes_str (if tb && negb (bool_decide (seq = " ")) then map trim (runs c (str_bytes s) [])
                          else runs c (str_bytes s) []))).
Proof.
  intros N. assert (L : (length (str_bytes s) < S (String.length s))%nat).
  { clear. induction s; simpl in *; lia. }
  unfold split_str. split.
  - destruct (split_go_total (S (String.length s)) (str_bytes seq) (str_bytes s)) as [t ->];
      [by destruct seq | done | by eexists].
  - intros ->. cbn [str_bytes]. by rewrite split_go_runs.
Qed.

(** [adjust_files_limit] ends, never lowers the limit, and what it
    reports above the old limit is a limit the kernel granted, the highest of
    the ones it tries. *)
Theorem adjust_files_limit_granted fuel old setrlimit max_clients error :
  16 <= old -> 0 <= max_clients <= INT_MAX -> max_clients / 16 < Z.of_nat fuel ->
  exists r e, adjust_files_limit fuel (inl old) setrlimit max_clients error = Some (r, e) /\
    (max_clients <= old /\ r = max_clients \/
     old < max_clients /\ old <= r <= max_clients /\
     (r = old \/ setrlimit r = None /\
        forall l, r < l <= max_clients -> (max_clients - l) mod 16 = 0 -> setrlimit l <> None)).
Proof.
  unfold INT_MAX. intros O M F. unfold adjust_files_limit. rewrite u64_small by lia.
  kcase; [eexists _, _; split; [done | by left] |].
  destruct (limit_loop_spec fuel setrlimit max_clients old error) as (r & e & -> & R & D); [lia..|].
  simpl. kcase; eexists _, _; (split; [done |]); right; rewrite i32_small by lia.
  - split_and!; [lia.. | by left].
  - split_and!; [lia.. |]. destruct D as [D | (_ & G & A)]; [left; lia | by right].
Qed.

(** ** Witnesses *)

Lemma localhost_ok : host_ok "127.0.0.1".
Proof. split; apply (bool_decide_eq_true _); vm_compute; reflexivity. Qed.

Lemma format_nodes_id_injective_witness :
  "127.0.0.1" = "127.0.0.1" /\ 3344 = 3344 /\ 2 = 2.
Proof.
  apply (format_nodes_id_injective "127.0.0.1" 3344 2 "127.0.0.1" 3344 2);
    [exact localhost_ok | exact localhost_ok | vm_compute; lia | vm_compute; lia | reflexivity].
Defined.

Lemma diff_cmp_multiset_witness :
  ["a"; "b"; "c"] ≡ₚ ["c"; "a"; "b"] /\ ["a"; "d"] ≡ₚ ["d"; "a"] /\
  count_occ (fun x y => decide (x = y)) ["b"; "c"] "b" = 1%nat.
Proof.
  destruct (diff_cmp_multiset ["c"; "a"; "b"] ["d"; "a"] ["b"; "c"] ["a"; "b"; "c"] ["a"; "d"])
    as (F & S & C); [vm_compute; reflexivity |].
  split; [exact F | split; [exact S | rewrite C; reflexivity]].
Defined.

Lemma split_str_tokens_witness :
  split_str "/kimserver//nodes" "/" true = Some ["kimserver"; "nodes"].
Proof.
  destruct (split_str_tokens "/kimserver//nodes" "/" "/"%char true) as [_ E]; [discriminate |].
  rewrite E by reflexivity. vm_compute. reflexivity.
Defined.

Lemma adjust_files_limit_granted_witness :
  exists r e, adjust_files_limit 700 (inl 1024) (fun l => if l <=? 4096 then None else Some 1) 10032 0 = Some (r, e) /\
    (10032 <= 1024 /\ r = 10032 \/
     1024 < 10032 /\ 1024 <= r <= 10032 /\
     (r = 1024 \/ (fun l => if l <=? 4096 then None else Some 1) r = None /\
        forall l, r < l <= 10032 -> (10032 - l) mod 16 = 0 ->
          (fun l => if l <=? 4096 then None else Some 1) l <> None)).
Proof.
  apply (adjust_files_limit_granted 700 1024 (fun l => if l <=? 4096 then None else Some 1) 10032 0);
    [lia | unfold INT_MAX; lia | vm_compute; reflexivity].
Defined.

End Util.
