(* ===== verification/Nodes.v ===== *)
(** * Nodes: the registry of cluster nodes and the consistent-hashing ring

    Model of [nodes.h] and [nodes.cpp], with the messages of [nodes.proto].
    The unordered maps are finite maps, the ring of a node type is an ordered
    map from virtual nodes to nodes.  A [node_t] is never changed after it is
    created, so the shared pointers are the node itself.  [active_time] is a
    finite [double], kept as the multiple of [2^-1074] it denotes; the digest
    function of the crypto library is a parameter. *)

From S2P Require Import Prelude StdMap Hash Util.
From stdpp Require Import vector.

#[local] Open Scope Z_scope.

(** MD5: sixteen bytes for every input. *)
Class Digest := digest : bytes -> vec ascii 16.

Import Util.

Module Nodes.

Definition DEFAULT_NODE_CNT : Z := 200.

Record zk_node := mk_zk_node {
  path : string;
  type : string;
  host : string;
  port : Z;
  worker_cnt : Z;
  active_time : Z;
}.

#[export] Instance zk_node_eq_dec : EqDecision zk_node.
Proof. solve_decision. Defined.

Record node_t := mk_node {
  node_id : string;
  node_type : string;
  node_host : string;
  node_port : Z;
  worker_index : Z;
  vnodes : list Z;
}.

#[export] Instance node_t_eq_dec : EqDecision node_t.
Proof. solve_decision. Defined.

Inductive HASH_ALGORITHM := FNV1A_64 | FNV1_64 | MURMUR3_32.

Abbreviation VNODE2NODE_MAP := (gmap Z node_t).

Record Nodes := mk {
  m_vnode_cnt : Z;
  m_ha : HASH_ALGORITHM;
  m_version : Z;
  m_my_zk_node : string;
  m_host_zk_paths : gmap string string;
  m_zk_nodes : gmap string zk_node;
  m_nodes : gmap string node_t;
  m_vnodes : gmap string VNODE2NODE_MAP;
}.

Definition new (vnode_cnt : Z) (ha : HASH_ALGORITHM) : Nodes := mk vnode_cnt ha 0 "" ∅ ∅ ∅ ∅.

Definition set_host_zk_paths (s : Nodes) x : Nodes :=
  mk (m_vnode_cnt s) (m_ha s) (m_version s) (m_my_zk_node s) x (m_zk_nodes s) (m_nodes s) (m_vnodes s).
Definition set_zk_nodes (s : Nodes) x : Nodes :=
  mk (m_vnode_cnt s) (m_ha s) (m_version s) (m_my_zk_node s) (m_host_zk_paths s) x (m_nodes s) (m_vnodes s).
Definition set_nodes (s : Nodes) x : Nodes :=
  mk (m_vnode_cnt s) (m_ha s) (m_version s) (m_my_zk_node s) (m_host_zk_paths s) (m_zk_nodes s) x (m_vnodes s).
Definition set_vnodes (s : Nodes) x : Nodes :=
  mk (m_vnode_cnt s) (m_ha s) (m_version s) (m_my_zk_node s) (m_host_zk_paths s) (m_zk_nodes s) (m_nodes s) x.
(** [m_version++] on a [uint32_t]. *)
Definition bump (s : Nodes) : Nodes :=
  mk (m_vnode_cnt s) (m_ha s) (u32 (m_version s + 1)) (m_my_zk_node s) (m_host_zk_paths s) (m_zk_nodes s)
     (m_nodes s) (m_vnodes s).

Definition set_my_zk_node_path (s : Nodes) (p : string) : Nodes :=
  mk (m_vnode_cnt s) (m_ha s) (m_version s) p (m_host_zk_paths s) (m_zk_nodes s) (m_nodes s) (m_vnodes s).
Definition get_my_zk_node_path (s : Nodes) : string := m_my_zk_node s.
Definition get_zk_nodes (s : Nodes) : gmap string zk_node := m_zk_nodes s.
Definition version (s : Nodes) : Z := m_version s.

Definition clear (s : Nodes) : Nodes :=
  mk (m_vnode_cnt s) (m_ha s) (m_version s) "" ∅ ∅ ∅ ∅.

Definition is_valid_zk_node (z : zk_node) : bool :=
  negb (bool_decide (path z = "") || bool_decide (host z = "") || (port z =? 0) ||
        bool_decide (type z = "") || (worker_cnt z =? 0) || (active_time z =? 0)).

(** [format_str("%s:%d", host, port)] *)
Definition host_key (z : zk_node) : string := format_str (addr_text (host z) (i32 (port z))).

(** The ids of the workers of [z]: the loops [for i = 1 .. last]. *)
Definition worker_id (z : zk_node) (i : Z) : string :=
  format_nodes_id (host z) (i32 (port z)) (i32 i).

Section nodes.
Context `{Digest}.

(** [md5] fills a string of the digest's size. *)
Definition md5 (input : bytes) : bytes := vec_to_list (digest input).

(** Four little-endian words of the digest. *)
Fixpoint digest_words (s : bytes) : list Z :=
  match s with
  | b0 :: b1 :: b2 :: b3 :: s => Hash.load32 b0 b1 b2 b3 :: digest_words s
  | _ => []
  end.

Definition vnode_text (cnt : Z) (id : string) (i : Z) : bytes :=
  dec (i32 (cnt - i)) ++ str_bytes "@" ++ c_str id ++ str_bytes "#" ++ dec i.

Definition gen_vnodes (s : Nodes) (id : string) : list Z :=
  flat_map (fun i => digest_words (md5 (str_bytes (format_str (vnode_text (m_vnode_cnt s) id i)))))
           (seqZ 0 (Z.quot (m_vnode_cnt s) 4)).

Definition hash (s : Nodes) (obj : string) : Z :=
  match m_ha s with
  | FNV1_64 => Hash.hash_fnv1_64 (str_bytes obj)
  | MURMUR3_32 => Hash.murmur3_32 (str_bytes obj) 0x000001b3
  | FNV1A_64 => Hash.hash_fnv1a_64 (str_bytes obj)
  end.

(** [vnode2node.insert({v, node})] for every virtual node: an occupied place
    keeps its node. *)
Definition insert_vnodes (ring : VNODE2NODE_MAP) (n : node_t) (vs : list Z) : VNODE2NODE_MAP :=
  foldl (fun ring v => match ring !! v with Some _ => ring | None => <[v:=n]> ring end) ring vs.

Definition add_node (s : Nodes) (type host : string) (port worker : Z) : bool * Nodes :=
  let id := format_nodes_id host port worker in
  match m_nodes s !! id with
  | Some _ => (true, s)
  | None =>
      let s := bump s in
      let vnode2node := default ∅ (m_vnodes s !! type) in
      let vs := gen_vnodes s id in
      let node := mk_node id type host port worker vs in
      let vnode2node' := insert_vnodes vnode2node node vs in
      let s := set_vnodes s (<[type:=vnode2node']> (m_vnodes s)) in
      if bool_decide (size vnode2node' = size vnode2node) then (false, s)
      else (true, set_nodes s (<[id:=node]> (m_nodes s)))
  end.

Definition del_node (s : Nodes) (id : string) : bool * Nodes :=
  match m_nodes s !! id with
  | None => (false, s)
  | Some node =>
      let s := bump s in
      let s :=
        match m_vnodes s !! node_type node with
        | Some ring => set_vnodes s (<[node_type node := foldl (fun r v => delete v r) ring (vnodes node)]> (m_vnodes s))
        | None => s
        end in
      (true, set_nodes s (delete id (m_nodes s)))
  end.

(** The loops over the workers of a zookeeper node. *)
Definition add_workers (s : Nodes) (z : zk_node) : Nodes :=
  foldl (fun s i => snd (add_node s (type z) (host z) (i32 (port z)) (i32 i))) s (seqZ 1 (worker_cnt z)).
Definition del_workers (s : Nodes) (z : zk_node) (n : Z) : Nodes :=
  foldl (fun s i => snd (del_node s (worker_id z i))) s (seqZ 1 n).

Definition del_zk_node (s : Nodes) (p : string) : bool * Nodes :=
  match m_zk_nodes s !! p with
  | None => (false, s)
  | Some z =>
      let s := del_workers s z (worker_cnt z) in
      let s := set_host_zk_paths s (delete (host_key z) (m_host_zk_paths s)) in
      (true, set_zk_nodes s (delete p (m_zk_nodes s)))
  end.

(** Behind the deletion the code logs [old.path()] of the element that is
    erased by then.  Log lines are not part of the model, so neither is this
    read of freed memory. *)
Definition check_zk_node_host (s : Nodes) (cur : zk_node) : bool * Nodes :=
  match m_host_zk_paths s !! host_key cur with
  | None => (true, s)
  | Some p =>
      match m_zk_nodes s !! p with
      | None => (true, set_host_zk_paths s (delete (host_key cur) (m_host_zk_paths s)))
      | Some old =>
          if bool_decide (path cur = path old) then (true, s)
          else if active_time cur <=? active_time old then (false, s)
          else (true, snd (del_zk_node s (path old)))
      end
  end.

(** In the update branch [old] is a reference to the element that
    [m_zk_nodes[znode.path()] = znode] overwrites, so the loop that follows
    reads the new node. *)
Definition add_zk_node (s : Nodes) (z : zk_node) : bool * Nodes :=
  if negb (is_valid_zk_node z) then (false, s) else
  let '(ok, s) := check_zk_node_host s z in
  if negb ok then (false, s) else
  let s :=
    match m_zk_nodes s !! path z with
    | None => add_workers (set_zk_nodes s (<[path z := z]> (m_zk_nodes s))) z
    | Some old =>
        if bool_decide (old = z) then s else
        let s := set_zk_nodes s (<[path z := z]> (m_zk_nodes s)) in
        let old := default z (m_zk_nodes s !! path z) in
        add_workers (del_workers s old (worker_cnt old - 1)) z
    end in
  (true, set_host_zk_paths s (<[host_key z := path z]> (m_host_zk_paths s))).

(** The vectors are the added and the deleted paths and the sorted input. *)
Definition get_zk_diff_nodes (s : Nodes) (t : string) (ins : list string)
  : list string * list string * list string :=
  let vec := fst <$> filter (fun p => t = type p.2) (map_to_list (m_zk_nodes s)) in
  let '(adds, ins, vec) := diff_cmp ins vec in
  let '(dels, vec, ins) := diff_cmp vec ins in
  (adds, dels, ins).

Definition get_node_worker_index (s : Nodes) (id : string) : Z :=
  match m_nodes s !! id with Some n => worker_index n | None => -1 end.

Definition get_node_in_hash (s : Nodes) (t obj : string) : option node_t :=
  match m_vnodes s !! t with
  | None => None
  | Some vnode2node =>
      let hash_key := hash s obj in
      if bool_decide (size vnode2node = 0%nat) then None else
      match lower_bound vnode2node hash_key with
      | Some (_, n) => Some n
      | None => snd <$> map_begin vnode2node
      end
  end.

Definition get_node_in_hash_int (s : Nodes) (t : string) (obj : Z) : option node_t :=
  get_node_in_hash s t (pretty obj).

(** ** Replicas

    Two registries with the same nodes; the version and the own path may
    differ.  Every operation works on replicas alike. *)

Record same_table (s s' : Nodes) : Prop := mk_same {
  same_cnt : m_vnode_cnt s = m_vnode_cnt s';
  same_ha : m_ha s = m_ha s';
  same_hosts : m_host_zk_paths s = m_host_zk_paths s';
  same_zks : m_zk_nodes s = m_zk_nodes s';
  same_nodes : m_nodes s = m_nodes s';
  same_vnodes : m_vnodes s = m_vnodes s';
}.

#[export] Instance same_table_equiv : Equivalence same_table.
Proof.
  split; [by intros s | by intros s s' [] | intros s s' s'' [] []].
  split; congruence.
Qed.

#[export] Instance add_node_proper t h p w : Proper (same_table ==> prod_relation eq same_table) (fun s => add_node s t h p w).
Proof.
  intros [] [] []; cbn in *; subst. unfold add_node. cbn.
  destruct (_ !! _); [done |]. change (gen_vnodes (bump (mk ?c ?a ?v ?m ?h ?z ?n ?x))) with (gen_vnodes (mk c a 0 "" h z n x)).
  by case_bool_decide.
Qed.

#[export] Instance del_node_proper id : Proper (same_table ==> prod_relation eq same_table) (fun s => del_node s id).
Proof.
  intros [] [] []; cbn in *; subst. unfold del_node. cbn. destruct (_ !! _) as [n|]; [| done].
  by destruct (_ !! _).
Qed.

Lemma foldl_proper {A} (f : A -> Nodes -> bool * Nodes) (l : list A) :
  (forall a, Proper (same_table ==> prod_relation eq same_table) (f a)) ->
  Proper (same_table ==> same_table) (fun s => foldl (fun s a => snd (f a s)) s l).
Proof.
  intros F. induction l as [|a l IH]; intros s s' E; cbn [foldl]; [done |]. apply IH. by apply F.
Qed.

#[export] Instance add_workers_proper z : Proper (same_table ==> same_table) (fun s => add_workers s z).
Proof. apply (foldl_proper (fun i s => add_node s (type z) (host z) (i32 (port z)) (i32 i))). apply _. Qed.

#[export] Instance del_workers_proper z n : Proper (same_table ==> same_table) (fun s => del_workers s z n).
Proof. apply (foldl_proper (fun i s => del_node s (worker_id z i))). apply _. Qed.

Lemma same_set_host s s' x : same_table s s' -> same_table (set_host_zk_paths s x) (set_host_zk_paths s' x).
Proof. by intros []; split. Qed.

Lemma same_set_zk s s' x : same_table s s' -> same_table (set_zk_nodes s x) (set_zk_nodes s' x).
Proof. by intros []; split. Qed.

#[export] Instance del_zk_node_proper p : Proper (same_table ==> prod_relation eq same_table) (fun s => del_zk_node s p).
Proof.
  intros s s' E. unfold del_zk_node. rewrite (same_zks _ _ E). destruct (_ !! _) as [z|]; [| done].
  pose proof (del_workers_proper z (worker_cnt z) s s' E) as W. cbv beta in W. split; [done |].
  rewrite (same_hosts _ _ W), (same_zks _ _ (same_set_host _ _ _ W)). by apply same_set_zk, same_set_host.
Qed.

#[export] Instance check_zk_node_host_proper z :
  Proper (same_table ==> prod_relation eq same_table) (fun s => check_zk_node_host s z).
Proof.
  intros s s' E. unfold check_zk_node_host. rewrite (same_hosts _ _ E), (same_zks _ _ E).
  destruct (_ !! _) as [p|]; [| done]. destruct (_ !! _) as [old|].
  - case_bool_decide; [done |]. destruct (_ <=? _); [done |]. split; [done |]. by apply del_zk_node_proper.
  - split; [done |]. by apply same_set_host.
Qed.

#[export] Instance add_zk_node_proper z : Proper (same_table ==> prod_relation eq same_table) (fun s => add_zk_node s z).
Proof.
  intros s s' E. unfold add_zk_node. destruct (negb _); [done |].
  destruct (check_zk_node_host_proper z s s' E) as [B C].
  destruct (check_zk_node_host s z) as [ok s1], (check_zk_node_host s' z) as [ok' s1']. cbn in B, C. subst ok'.
  destruct ok; cbn [negb]; [| done]. split; [done |]. cbn [snd].
  set (w := match m_zk_nodes s1 !! path z with Some _ => _ | None => _ end).
  set (w' := match m_zk_nodes s1' !! path z with Some _ => _ | None => _ end).
  assert (W : same_table w w').
  { subst w w'. rewrite (same_zks _ _ C). destruct (m_zk_nodes s1' !! path z) as [old|].
    - cbn. case_bool_decide; [done |]. apply add_workers_proper, del_workers_proper. by apply same_set_zk.
    - apply add_workers_proper. by apply same_set_zk. }
  rewrite (same_hosts _ _ W). by apply same_set_host.
Qed.

(** A refused node leaves no trace. *)
Lemma add_zk_node_refused s z : fst (add_zk_node s z) = false -> snd (add_zk_node s z) = s.
Proof.
  unfold add_zk_node. destruct (negb _); [done |]. unfold check_zk_node_host.
  repeat (case_match; cbn; try done). all: by simplify_eq.
Qed.

(** ** The ring *)

Lemma bool_decide_cons_ne (v x : Z) vs : v <> x -> bool_decide (v ∈ x :: vs) = bool_decide (v ∈ vs).
Proof. intros N. apply bool_decide_ext. rewrite elem_of_cons. tauto. Qed.

Lemma insert_vnodes_lookup ring n vs v :
  insert_vnodes ring n vs !! v =
  match ring !! v with
  | Some m => Some m
  | None => if bool_decide (v ∈ vs) then Some n else None
  end.
Proof.
  unfold insert_vnodes. revert ring. induction vs as [|x vs IH]; intros ring; cbn [foldl].
  { rewrite bool_decide_false by apply not_elem_of_nil. by destruct (ring !! v). }
  rewrite IH. destruct (decide (v = x)) as [->|N].
  - rewrite (bool_decide_true (x ∈ x :: vs)) by by left.
    destruct (ring !! x) eqn:E; [by rewrite E | by rewrite lookup_insert_eq].
  - rewrite bool_decide_cons_ne by done.
    destruct (ring !! x) eqn:E; [done |]. by rewrite lookup_insert_ne by done.
Qed.

Lemma delete_vnodes_lookup (ring : VNODE2NODE_MAP) vs v :
  foldl (fun r v => delete v r) ring vs !! v = if bool_decide (v ∈ vs) then None else ring !! v.
Proof.
  revert ring. induction vs as [|x vs IH]; intros ring; cbn [foldl].
  { by rewrite bool_decide_false by apply not_elem_of_nil. }
  rewrite IH. destruct (decide (v = x)) as [->|N].
  - rewrite (bool_decide_true (x ∈ x :: vs)) by by left. rewrite lookup_delete_eq. by case_bool_decide.
  - rewrite bool_decide_cons_ne by done.
    by rewrite lookup_delete_ne by done.
Qed.

(** All places were taken: the ring is unchanged. *)
Lemma insert_vnodes_full ring n vs :
  size (insert_vnodes ring n vs) = size ring -> insert_vnodes ring n vs = ring.
Proof.
  intros E. symmetry. apply map_subseteq_size_eq; [| lia].
  apply map_subseteq_spec. intros v m L. by rewrite insert_vnodes_lookup, L.
Qed.

(** ** The invariant *)

Definition ring (s : Nodes) (t : string) : VNODE2NODE_MAP := default ∅ (m_vnodes s !! t).

Record inv (s : Nodes) : Prop := mk_inv {
  inv_ring t v n : ring s t !! v = Some n ->
    node_type n = t /\ v ∈ vnodes n /\ m_nodes s !! node_id n = Some n;
  inv_nodes id n : m_nodes s !! id = Some n -> node_id n = id /\ vnodes n = gen_vnodes s id;
  inv_zk p z : m_zk_nodes s !! p = Some z -> path z = p /\ is_valid_zk_node z = true;
}.

Lemma nodes_new_inv cnt ha : inv (new cnt ha).
Proof.
  split; unfold ring; simpl; intros *; rewrite lookup_empty; [| done | done].
  simpl. by rewrite lookup_empty.
Qed.

Lemma ring_insert s t r t' :
  ring (set_vnodes s (<[t:=r]> (m_vnodes s))) t' = if bool_decide (t' = t) then r else ring s t'.
Proof.
  unfold ring. simpl. case_bool_decide as E; [subst; by rewrite lookup_insert_eq |].
  by rewrite lookup_insert_ne by done.
Qed.

(** What one [add_node] does to the ring and to the registry. *)
Lemma add_node_spec s t h p w :
  let id := format_nodes_id h p w in
  let n := mk_node id t h p w (gen_vnodes s id) in
  exists ok s', add_node s t h p w = (ok, s') /\
    m_zk_nodes s' = m_zk_nodes s /\ m_host_zk_paths s' = m_host_zk_paths s /\
    m_vnode_cnt s' = m_vnode_cnt s /\ m_ha s' = m_ha s /\
    ((exists m, m_nodes s !! id = Some m) /\ ok = true /\ s' = s \/
     m_nodes s !! id = None /\ ok = true /\ m_nodes s' = <[id:=n]> (m_nodes s) /\
       (forall t', ring s' t' = if bool_decide (t' = t) then insert_vnodes (ring s t) n (vnodes n) else ring s t') \/
     m_nodes s !! id = None /\ ok = false /\ m_nodes s' = m_nodes s /\ (forall t', ring s' t' = ring s t') /\
       forall v, v ∈ vnodes n -> is_Some (ring s t !! v)).
Proof.
  intros id n. unfold add_node. fold id. destruct (m_nodes s !! id) as [m|] eqn:E.
  { exists true, s. split_and!; [done..|]. left. by split; [exists m |]. }
  change (gen_vnodes (bump s) id) with (gen_vnodes s id). fold n.
  change (default ∅ (m_vnodes (bump s) !! t)) with (ring s t).
  case_bool_decide as F; (eexists _, _; split_and!; [done..|]; right).
  - right. apply insert_vnodes_full in F. split_and!; [done..| |].
    + intros t'. rewrite ring_insert, F. by case_bool_decide; subst.
    + intros v V. rewrite <- F, insert_vnodes_lookup. cbn [n vnodes] in V.
      rewrite bool_decide_true by done. by destruct (ring s t !! v).
  - left. split_and!; [done..|]. intros t'. by rewrite <- (ring_insert (bump s)).
Qed.

Lemma add_node_inv s t h p w : inv s -> inv (snd (add_node s t h p w)).
Proof.
  intros I. pose proof I as [R N Z]. destruct (add_node_spec s t h p w) as (ok & s' & -> & Ez & _ & Ec & _ & D).
  simpl. assert (G : forall id, gen_vnodes s' id = gen_vnodes s id) by (intros; unfold gen_vnodes; by rewrite Ec).
  destruct D as [(_ & _ & ->) | [(Fr & _ & En & Er) | (Fr & _ & En & Er & _)]]; [done | |].
  - set (n := mk_node _ t h p w _) in *. split.
    + intros t' v m L. rewrite Er in L. rewrite En. case_bool_decide; subst.
      * rewrite insert_vnodes_lookup in L. destruct (ring s t !! v) as [m'|] eqn:E.
        -- simplify_eq. destruct (R _ _ _ E) as (? & ? & O). split_and!; [done..|].
           rewrite lookup_insert_ne; [done |]. intros X. rewrite <- X in O. congruence.
        -- case_bool_decide; simplify_eq. split_and!; [done..|]. apply lookup_insert_eq.
      * destruct (R _ _ _ L) as (? & ? & O). split_and!; [done..|].
        rewrite lookup_insert_ne; [done |]. intros X. rewrite <- X in O. congruence.
    + intros id m L. rewrite G. rewrite En in L. apply lookup_insert_Some in L as [[<- <-]|[_ L]]; [done |].
      by apply N.
    + intros q z. rewrite Ez. apply Z.
  - split; [intros t' v m; rewrite Er, En; apply R | intros id m; rewrite En, G; apply N |].
    intros q z. rewrite Ez. apply Z.
Qed.

(** What one [del_node] does. *)
Lemma del_node_spec s id :
  exists ok s', del_node s id = (ok, s') /\
    m_zk_nodes s' = m_zk_nodes s /\ m_host_zk_paths s' = m_host_zk_paths s /\
    m_vnode_cnt s' = m_vnode_cnt s /\ m_ha s' = m_ha s /\ m_nodes s' = delete id (m_nodes s) /\
    match m_nodes s !! id with
    | None => ok = false /\ s' = s
    | Some n => ok = true /\
        forall t v, ring s' t !! v =
          if bool_decide (t = node_type n /\ v ∈ vnodes n) then None else ring s t !! v
    end.
Proof.
  unfold del_node. destruct (m_nodes s !! id) as [n|] eqn:E.
  2:{ exists false, s. split_and!; try done. by rewrite delete_id. }
  eexists _, _. split; [done |]. destruct (m_vnodes (bump s) !! node_type n) as [r|] eqn:R; split_and!; try done.
  - intros t v. unfold ring at 1. simpl. destruct (decide (t = node_type n)) as [->|N].
    + rewrite lookup_insert_eq. simpl. rewrite delete_vnodes_lookup. unfold ring. simpl in R. rewrite R.
      repeat case_bool_decide; tauto.
    + rewrite lookup_insert_ne by done. rewrite bool_decide_false by tauto. done.
  - intros t v. case_bool_decide as B; [| done]. destruct B as [-> _].
    unfold ring. simpl in *. rewrite R. apply lookup_empty.
Qed.

Lemma del_node_inv s id : inv s -> inv (snd (del_node s id)).
Proof.
  intros [R N Z]. destruct (del_node_spec s id) as (ok & s' & -> & Ez & _ & Ec & _ & En & D). simpl.
  assert (G : forall id, gen_vnodes s' id = gen_vnodes s id) by (intros; unfold gen_vnodes; by rewrite Ec).
  destruct (m_nodes s !! id) as [n|] eqn:E; [| destruct D as [_ ->]; by split].
  destruct D as [_ Er]. split.
  - intros t v m L. rewrite Er in L. case_bool_decide as B; [done |].
    destruct (R t v m L) as (T & V & O). split_and!; [done..|]. rewrite En.
    rewrite lookup_delete_ne; [done |]. intros ->. destruct B. by simplify_eq.
  - intros id' m L. rewrite G. rewrite En in L. apply lookup_delete_Some in L as [_ L]. by apply N.
  - intros q z. rewrite Ez. apply Z.
Qed.

(** The worker loops. *)
Lemma foldl_inv {A} (f : Nodes -> A -> Nodes) l s :
  (forall s a, inv s -> inv (f s a)) -> inv s -> inv (foldl f s l).
Proof. intros F. revert s. induction l; simpl; auto. Qed.

Lemma add_workers_inv s z : inv s -> inv (add_workers s z).
Proof. apply foldl_inv. intros. by apply add_node_inv. Qed.

Lemma del_workers_inv s z n : inv s -> inv (del_workers s z n).
Proof. apply foldl_inv. intros. by apply del_node_inv. Qed.

(** Fields the loops leave alone. *)
Definition same_zk (s s' : Nodes) : Prop :=
  m_zk_nodes s' = m_zk_nodes s /\ m_host_zk_paths s' = m_host_zk_paths s /\
  m_vnode_cnt s' = m_vnode_cnt s /\ m_ha s' = m_ha s.

#[local] Instance same_zk_preorder : PreOrder same_zk.
Proof. split; [done |]. intros x y z (?&?&?&?) (?&?&?&?). unfold same_zk. split_and!; congruence. Qed.

Lemma foldl_same_zk {A} (f : Nodes -> A -> Nodes) l s :
  (forall s a, same_zk s (f s a)) -> same_zk s (foldl f s l).
Proof. intros F. revert s. induction l as [|a l IH]; intros s; simpl; [done |]. etrans; [apply F | apply IH]. Qed.

Lemma add_workers_same s z : same_zk s (add_workers s z).
Proof.
  apply foldl_same_zk. intros s' i.
  by destruct (add_node_spec s' (type z) (host z) (i32 (port z)) (i32 i)) as (ok & s2 & -> & ? & ? & ? & ? & _).
Qed.

Lemma del_workers_same s z n : same_zk s (del_workers s z n).
Proof.
  apply foldl_same_zk. intros s' i.
  by destruct (del_node_spec s' (worker_id z i)) as (ok & s2 & -> & ? & ? & ? & ? & _).
Qed.

(** The settings of a table never change. *)
Definition same_settings (s s' : Nodes) : Prop := m_vnode_cnt s' = m_vnode_cnt s /\ m_ha s' = m_ha s.

Lemma del_zk_node_settings s p : same_settings s (snd (del_zk_node s p)).
Proof. unfold del_zk_node. destruct (m_zk_nodes s !! p) as [z|]; [| done]. by destruct (del_workers_same s z (worker_cnt z)) as (_ & _ & ? & ?). Qed.

Lemma add_zk_node_settings s z : same_settings s (snd (add_zk_node s z)).
Proof.
  unfold add_zk_node. destruct (negb _); [done |].
  assert (C : same_settings s (snd (check_zk_node_host s z))).
  { unfold check_zk_node_host. destruct (_ !! _) as [p|]; [| done]. destruct (_ !! _) as [old|]; [| done].
    case_bool_decide; [done |]. destruct (_ <=? _); [done |]. apply del_zk_node_settings. }
  destruct (check_zk_node_host s z) as [ok s1]. destruct ok; cbn [negb snd] in *; [| done].
  enough (W : same_settings s1 (match m_zk_nodes s1 !! path z with
    | None => add_workers (set_zk_nodes s1 (<[path z := z]> (m_zk_nodes s1))) z
    | Some old => if bool_decide (old = z) then s1 else
        let s := set_zk_nodes s1 (<[path z := z]> (m_zk_nodes s1)) in
        let old := default z (m_zk_nodes s !! path z) in add_workers (del_workers s old (worker_cnt old - 1)) z end)).
  { destruct C as [C1 C2], W as [W1 W2]. split; [etrans; [exact W1 | exact C1] | etrans; [exact W2 | exact C2]]. }
  destruct (m_zk_nodes s1 !! path z) as [old|].
  - case_bool_decide; [done |]. cbv zeta. set (s2 := set_zk_nodes s1 _). set (old' := default z _).
    destruct (del_workers_same s2 old' (worker_cnt old' - 1)) as (_ & _ & D1 & D2).
    destruct (add_workers_same (del_workers s2 old' (worker_cnt old' - 1)) z) as (_ & _ & A1 & A2).
    split; [by rewrite A1, D1 | by rewrite A2, D2].
  - by destruct (add_workers_same (set_zk_nodes s1 (<[path z := z]> (m_zk_nodes s1))) z) as (_ & _ & ? & ?).
Qed.

(** The invariant does not depend on the host table, and a valid node may be
    entered under its path. *)
Lemma inv_set_host s x : inv s -> inv (set_host_zk_paths s x).
Proof. intros [R N Z]. by split. Qed.

Lemma inv_insert_zk s z : is_valid_zk_node z = true -> inv s -> inv (set_zk_nodes s (<[path z := z]> (m_zk_nodes s))).
Proof.
  intros V [R N Z]. split; [done | done |]. simpl. intros p z' L.
  apply lookup_insert_Some in L as [[<- <-]|[_ L]]; [done | by apply Z].
Qed.

Lemma inv_delete_zk s p : inv s -> inv (set_zk_nodes s (delete p (m_zk_nodes s))).
Proof.
  intros [R N Z]. split; [done | done |]. simpl. intros q z [_ L]%lookup_delete_Some. by apply Z.
Qed.

Lemma del_zk_node_inv s p : inv s -> inv (snd (del_zk_node s p)).
Proof.
  intros I. unfold del_zk_node. destruct (m_zk_nodes s !! p) as [z|]; [| done]. simpl.
  apply (inv_delete_zk (set_host_zk_paths _ _)), inv_set_host. by apply del_workers_inv.
Qed.

Lemma check_zk_node_host_inv s z : inv s -> inv (snd (check_zk_node_host s z)).
Proof.
  intros I. unfold check_zk_node_host. destruct (m_host_zk_paths s !! host_key z) as [p|]; [| done].
  destruct (m_zk_nodes s !! p) as [old|]; [| by apply inv_set_host].
  case_bool_decide; [done |]. destruct (_ <=? _); [done |]. by apply del_zk_node_inv.
Qed.

Lemma add_zk_node_inv s z : inv s -> inv (snd (add_zk_node s z)).
Proof.
  intros I. unfold add_zk_node. destruct (is_valid_zk_node z) eqn:V; [| done]. simpl.
  pose proof (check_zk_node_host_inv s z I) as I'. destruct (check_zk_node_host s z) as [ok s1].
  simpl in I'. destruct ok; [| done]. apply inv_set_host.
  destruct (m_zk_nodes s1 !! path z) as [old|]; [case_bool_decide; [done |] |];
    apply add_workers_inv; [apply del_workers_inv |]; by apply inv_insert_zk.
Qed.

(** ** The operations of the registry *)

Inductive op := AddZk (z : zk_node) | DelZk (p : string) | Clear | SetMyPath (p : string).

Definition run (s : Nodes) (o : op) : Nodes :=
  match o with
  | AddZk z => snd (add_zk_node s z)
  | DelZk p => snd (del_zk_node s p)
  | Clear => clear s
  | SetMyPath p => set_my_zk_node_path s p
  end.

Inductive reachable : Nodes -> Prop :=
| reach_new cnt ha : reachable (new cnt ha)
| reach_op s o : reachable s -> reachable (run s o).

Lemma nodes_inv s : reachable s -> inv s.
Proof.
  induction 1 as [cnt ha | s [z|p| |p] _ IH]; simpl.
  - apply nodes_new_inv.
  - by apply add_zk_node_inv.
  - by apply del_zk_node_inv.
  - split; unfold ring; simpl; intros *; rewrite lookup_empty; [| done | done].
    simpl. by rewrite lookup_empty.
  - destruct IH as [R N Z]. by split.
Qed.

(** ** Routing *)

(** The search of [get_node_in_hash]. *)
Definition route (r : VNODE2NODE_MAP) (h : Z) : option node_t :=
  match lower_bound r h with
  | Some (_, n) => Some n
  | None => snd <$> map_begin r
  end.

Lemma get_node_in_hash_route s t obj : get_node_in_hash s t obj = route (ring s t) (hash s obj).
Proof.
  unfold get_node_in_hash, ring. destruct (m_vnodes s !! t) as [r|]; [| done].
  simpl. case_bool_decide as E; [| done]. by apply map_size_empty_inv in E as ->.
Qed.

(** [v] is the first place of the ring at or after [h], or the first place of
    all when there is none. *)
Definition first_at (r : VNODE2NODE_MAP) (h v : Z) : Prop :=
  (h <= v /\ forall v', is_Some (r !! v') -> h <= v' -> v <= v') \/
  (forall v', is_Some (r !! v') -> v' < h /\ v <= v').

Lemma route_Some r h n : route r h = Some n <-> exists v, r !! v = Some n /\ first_at r h v.
Proof.
  unfold route. split.
  - destruct (lower_bound r h) as [[v m]|] eqn:L.
    + intros [= ->]. apply lower_bound_Some in L as (E & G & M). exists v. split; [done | left].
      split; [by apply Z.leb_le |]. intros v' [m' V] H'. apply Z.leb_le. eapply M; [done | by apply Z.leb_le].
    + destruct (map_begin r) as [[v m]|] eqn:B; [| done]. intros [= ->].
      apply map_begin_Some in B as [E M]. rewrite lower_bound_None in L. exists v. split; [done | right].
      intros v' [m' V]. split; [apply Z.leb_gt; by eapply L | apply Z.leb_le; by eapply M].
  - intros (v & E & [[G M]|M]).
    + rewrite (lower_bound_unique r h v n); [done | done | by apply Z.leb_le |].
      intros v' m' V H'. apply Z.leb_le, M; [by eexists | by apply Z.leb_le].
    + assert (lower_bound r h = None) as ->.
      { apply lower_bound_None. intros v' m' V. apply Z.leb_gt. by apply M; eexists. }
      rewrite (map_begin_unique r v n); [done | done |].
      intros v' m' V. apply Z.leb_le. by apply M; eexists.
Qed.

Lemma route_None r h : route r h = None <-> r = ∅.
Proof.
  split; [| intros ->; done]. intros E. unfold route in E.
  destruct (lower_bound r h) as [[]|]; [done |].
  destruct (map_begin r) as [[]|] eqn:B; [done |]. by apply map_begin_None.
Qed.

(** Consistent hashing: in a smaller ring a key stays where it was as long as
    its place is still there. *)
Lemma route_sub r r' h v n :
  r' ⊆ r -> r !! v = Some n -> first_at r h v -> r' !! v = Some n -> route r' h = Some n.
Proof.
  intros S E F E'. apply route_Some. exists v. split; [done |].
  assert (T : forall v', is_Some (r' !! v') -> is_Some (r !! v')).
  { intros v' [m V]. exists m. by eapply lookup_weaken. }
  destruct F as [[G M]|M]; [left; split; [done | eauto] | right; eauto].
Qed.

(** The way from the key to the place, clockwise on the ring of [2^32]. *)
Definition distance (h v : Z) : Z := (v - h) mod 2 ^ 32.

Lemma first_at_nearest r h v v' :
  Hash.word h -> (forall v, is_Some (r !! v) -> Hash.word v) -> is_Some (r !! v) ->
  first_at r h v -> is_Some (r !! v') -> distance h v <= distance h v'.
Proof.
  unfold Hash.word, distance. intros Hh W V F V'. pose proof (W v V). pose proof (W v' V').
  assert (D : forall x, 0 <= x < 2 ^ 32 -> (x - h) mod 2 ^ 32 = if x <? h then x - h + 2 ^ 32 else x - h).
  { intros x X. kcase; [symmetry; apply Z.mod_unique with (-1); lia | apply Z.mod_small; lia]. }
  rewrite !D by lia. destruct F as [[G M]|M].
  - pose proof (M v' V'). repeat kcase; lia.
  - pose proof (M v V). pose proof (M v' V'). repeat kcase; lia.
Qed.

Lemma digest_words_word l x : x ∈ digest_words l -> Hash.word x.
Proof.
  induction l as [l L | b0 b1 b2 b3 l IH] using Hash.bytes_ind4.
  - destruct l as [|? [|? [|? [|? ?]]]]; simpl in *; try lia; by intros ?%elem_of_nil.
  - cbn [digest_words]. intros [->|I]%elem_of_cons; [apply Hash.word_load32 | by apply IH].
Qed.

Lemma gen_vnodes_word s id x : x ∈ gen_vnodes s id -> Hash.word x.
Proof.
  unfold gen_vnodes. rewrite list_elem_of_In, in_flat_map. intros (i & _ & I).
  apply list_elem_of_In in I. by apply digest_words_word in I.
Qed.

Lemma hash_word s obj : Hash.word (hash s obj).
Proof.
  unfold hash. destruct (m_ha s); [apply Hash.hash_fnv1a_64_word | apply Hash.hash_fnv1_64_word |].
  apply Hash.murmur3_32_word. unfold Hash.word. lia.
Qed.

(** Every place of a reachable ring is a [uint32_t]. *)
Lemma ring_word s t v : inv s -> is_Some (ring s t !! v) -> Hash.word v.
Proof.
  intros [R N _] [n E]. destruct (R _ _ _ E) as (_ & V & O). destruct (N _ _ O) as [_ G].
  rewrite G in V. by apply gen_vnodes_word in V.
Qed.

(** *** Growing and shrinking *)

Lemma hash_ha s s' obj : m_ha s' = m_ha s -> hash s' obj = hash s obj.
Proof. unfold hash. by intros ->. Qed.

(** A key of [s] is routed as before or to a node with an id of [ids]. *)
Definition moves_to (ids : string -> Prop) (s s' : Nodes) : Prop :=
  m_ha s' = m_ha s /\ forall t obj,
    get_node_in_hash s' t obj = get_node_in_hash s t obj \/
    exists n, get_node_in_hash s' t obj = Some n /\ ids (node_id n).

Lemma moves_to_trans ids s1 s2 s3 : moves_to ids s1 s2 -> moves_to ids s2 s3 -> moves_to ids s1 s3.
Proof.
  intros [H1 M1] [H2 M2]. split; [congruence |]. intros t obj.
  destruct (M2 t obj) as [-> | ?]; [apply M1 | by right].
Qed.

Lemma moves_to_ring ids s s' :
  m_ha s' = m_ha s ->
  (forall t, ring s t ⊆ ring s' t) ->
  (forall t v n, ring s' t !! v = Some n -> ring s t !! v = None -> ids (node_id n)) ->
  moves_to ids s s'.
Proof.
  intros Hh S F. split; [done |]. intros t obj. rewrite !get_node_in_hash_route, (hash_ha s s') by done.
  destruct (route (ring s' t) (hash s obj)) as [n|] eqn:E.
  - apply route_Some in E as (v & E & A). destruct (ring s t !! v) as [m|] eqn:L.
    + left. pose proof (lookup_weaken _ _ _ _ L (S t)) as L'. simplify_eq.
      symmetry. eapply route_sub; [apply S | done..].
    + right. exists n. split; [done | by eapply F].
  - left. apply route_None in E. pose proof (S t) as St. rewrite E in St.
    symmetry. apply route_None, map_empty. intros v. destruct (ring s t !! v) eqn:L; [| done].
    by eapply lookup_weaken in L; [| exact St].
Qed.

Lemma add_node_moves s t h p w : moves_to (eq (format_nodes_id h p w)) s (snd (add_node s t h p w)).
Proof.
  destruct (add_node_spec s t h p w) as (ok & s' & -> & _ & _ & _ & Eh & D). simpl.
  destruct D as [(_ & _ & ->) | [(_ & _ & _ & Er) | (_ & _ & _ & Er & _)]].
  - split; [done |]. by left.
  - apply moves_to_ring; [done | |].
    + intros t'. rewrite Er. case_bool_decide; subst; [| done].
      apply map_subseteq_spec. intros v m L. by rewrite insert_vnodes_lookup, L.
    + intros t' v m L N. rewrite Er in L. case_bool_decide; subst; [| congruence].
      rewrite insert_vnodes_lookup, N in L. case_bool_decide; by simplify_eq.
  - apply moves_to_ring; [done | intros t'; by rewrite Er |]. intros t' v m. rewrite Er. congruence.
Qed.

Definition is_worker_of (z : zk_node) (id : string) : Prop :=
  exists i, 1 <= i <= worker_cnt z /\ id = worker_id z i.

Lemma moves_to_mono (P Q : string -> Prop) s s' :
  (forall id, P id -> Q id) -> moves_to P s s' -> moves_to Q s s'.
Proof.
  intros I [Hh M]. split; [done |]. intros t obj. destruct (M t obj) as [?|(n & ? & ?)]; [by left |].
  right. exists n. auto.
Qed.

Lemma add_workers_moves s z : moves_to (is_worker_of z) s (add_workers s z).
Proof.
  unfold add_workers.
  assert (I : forall i, i ∈ seqZ 1 (worker_cnt z) -> 1 <= i <= worker_cnt z)
    by (intros i; rewrite elem_of_seqZ; lia).
  revert s I. generalize (seqZ 1 (worker_cnt z)) as l. induction l as [|i l IH]; intros s I; simpl.
  - split; [done | by left].
  - eapply moves_to_trans; [| apply IH; intros; apply I; by right].
    eapply moves_to_mono; [| apply add_node_moves]. intros id <-. exists i. split; [apply I; by left | done].
Qed.

(** No place of the ring is claimed by two nodes. *)
Definition no_clash (s : Nodes) : Prop :=
  forall id n v, m_nodes s !! id = Some n -> v ∈ vnodes n -> ring s (node_type n) !! v = Some n.

Lemma del_node_keeps s id :
  inv s -> no_clash s ->
  no_clash (snd (del_node s id)) /\ m_ha (snd (del_node s id)) = m_ha s /\
  forall t obj n, get_node_in_hash s t obj = Some n -> node_id n <> id ->
    get_node_in_hash (snd (del_node s id)) t obj = Some n.
Proof.
  intros I C. destruct (del_node_spec s id) as (ok & s' & -> & _ & _ & _ & Eh & En & D). simpl.
  destruct (m_nodes s !! id) as [d|] eqn:E; [| by destruct D as [_ ->]].
  destruct D as [_ Er]. split_and!; [| done |].
  - intros id' n v L V. rewrite En in L. apply lookup_delete_Some in L as [N L].
    pose proof (C _ _ _ L V) as P. rewrite Er. case_bool_decide as B; [| done].
    destruct B as [T V']. pose proof (C _ _ _ E V') as P'. rewrite <- T in P'.
    destruct (inv_nodes _ I _ _ L), (inv_nodes _ I _ _ E). congruence.
  - intros t obj n G N. rewrite get_node_in_hash_route in *. rewrite (hash_ha s s') by done.
    apply route_Some in G as (v & G & F). apply (route_sub (ring s t) _ _ v); [| done | done |].
    + apply map_subseteq_spec. intros x m. rewrite Er. by case_bool_decide.
    + rewrite Er. case_bool_decide as B; [| done]. destruct B as [-> V].
      pose proof (C _ _ _ E V) as P. destruct (inv_nodes _ I _ _ E). congruence.
Qed.

Lemma del_workers_keeps s z k :
  inv s -> no_clash s ->
  forall t obj n, get_node_in_hash s t obj = Some n ->
    (forall i, 1 <= i <= k -> node_id n <> worker_id z i) ->
    get_node_in_hash (del_workers s z k) t obj = Some n.
Proof.
  unfold del_workers. intros I C t obj n G N.
  assert (N' : forall i, i ∈ seqZ 1 k -> node_id n <> worker_id z i)
    by (intros i; rewrite elem_of_seqZ; intros; apply N; lia).
  clear N. revert s I C G N'. generalize (seqZ 1 k) as l.
  induction l as [|i l IH]; intros s I C G N; simpl; [done |].
  destruct (del_node_keeps s (worker_id z i) I C) as (C' & _ & K).
  apply IH; [by apply del_node_inv | done | apply K; [done | apply N; by left] | intros; apply N; by right].
Qed.

(** *** The registry under the worker loops *)

Lemma del_workers_other s z k id :
  (forall i, 1 <= i <= k -> id <> worker_id z i) ->
  m_nodes (del_workers s z k) !! id = m_nodes s !! id.
Proof.
  unfold del_workers. intros N.
  assert (N' : forall i, i ∈ seqZ 1 k -> id <> worker_id z i)
    by (intros i; rewrite elem_of_seqZ; intros; apply N; lia).
  clear N. revert s N'. generalize (seqZ 1 k) as l. induction l as [|i l IH]; intros s N; simpl; [done |].
  rewrite IH by (intros; apply N; by right).
  destruct (del_node_spec s (worker_id z i)) as (ok & s' & -> & _ & _ & _ & _ & En & _). simpl.
  rewrite En. apply lookup_delete_ne. intros <-. by apply (N i); [left |].
Qed.

Lemma del_workers_gone s z k i : 1 <= i <= k -> m_nodes (del_workers s z k) !! worker_id z i = None.
Proof.
  unfold del_workers. intros I. assert (M : i ∈ seqZ 1 k) by (apply elem_of_seqZ; lia).
  assert (K : forall l s id, m_nodes s !! id = None ->
            m_nodes (foldl (fun s i => snd (del_node s (worker_id z i))) s l) !! id = None).
  { induction l as [|j l IH]; intros s' id E; simpl; [done |]. apply IH.
    destruct (del_node_spec s' (worker_id z j)) as (ok & s2 & -> & _ & _ & _ & _ & En & _). simpl.
    rewrite En. apply lookup_delete_None. by right. }
  apply list_elem_of_split in M as (l1 & l2 & ->). rewrite foldl_app. simpl. apply K.
  destruct (del_node_spec (foldl (fun s i => snd (del_node s (worker_id z i))) s l1) (worker_id z i))
    as (ok & s2 & -> & _ & _ & _ & _ & En & _). simpl. rewrite En. apply lookup_delete_eq.
Qed.

Lemma add_workers_other s z id :
  (forall i, 1 <= i <= worker_cnt z -> id <> worker_id z i) \/ is_Some (m_nodes s !! id) ->
  m_nodes (add_workers s z) !! id = m_nodes s !! id.
Proof.
  unfold add_workers. intros N.
  assert (N' : (forall i, i ∈ seqZ 1 (worker_cnt z) -> id <> worker_id z i) \/ is_Some (m_nodes s !! id)).
  { destruct N as [N|]; [left | by right]. intros i. rewrite elem_of_seqZ. intros. apply N; lia. }
  clear N. revert s N'. generalize (seqZ 1 (worker_cnt z)) as l.
  induction l as [|i l IH]; intros s N; simpl; [done |].
  destruct (add_node_spec s (type z) (host z) (i32 (port z)) (i32 i)) as (ok & s' & -> & _ & _ & _ & _ & D). simpl.
  assert (m_nodes s' !! id = m_nodes s !! id) as E.
  { destruct D as [(_ & _ & ->) | [(Fr & _ & En & _) | (_ & _ & En & _)]]; [done | | by rewrite En].
    rewrite En. apply lookup_insert_ne. destruct N as [N | [n N]]; [| intros <-; congruence].
    intros <-. by apply (N i); [left |]. }
  rewrite <- E. apply IH. rewrite E. destruct N as [N|]; [left | by right]. intros j J. apply N. by right.
Qed.

(** A node whose host is unknown passes the host check. *)
Lemma check_zk_node_host_free s z : m_host_zk_paths s !! host_key z = None -> check_zk_node_host s z = (true, s).
Proof. unfold check_zk_node_host. by intros ->. Qed.

Lemma add_zk_node_fresh s z :
  is_valid_zk_node z = true -> m_host_zk_paths s !! host_key z = None -> m_zk_nodes s !! path z = None ->
  exists s1, s1 = add_workers (set_zk_nodes s (<[path z := z]> (m_zk_nodes s))) z /\
    add_zk_node s z = (true, set_host_zk_paths s1 (<[host_key z := path z]> (m_host_zk_paths s))) /\
    m_zk_nodes s1 = <[path z := z]> (m_zk_nodes s).
Proof.
  intros V Hh P. eexists. split; [done |]. unfold add_zk_node. rewrite V, check_zk_node_host_free by done.
  simpl. rewrite P. destruct (add_workers_same (set_zk_nodes s (<[path z := z]> (m_zk_nodes s))) z) as (Ez & Ep & _).
  rewrite Ez, Ep. done.
Qed.

(** ** Properties *)

(** C29: [get_node_in_hash] routes a key to a live node of the requested type,
    the owner of the nearest virtual node clockwise from the key's hash, and
    fails only when the type has no node in the ring. *)
Theorem nodes_route_nearest s t obj :
  reachable s ->
  match get_node_in_hash s t obj with
  | Some n => node_type n = t /\ m_nodes s !! node_id n = Some n /\
      exists v, v ∈ vnodes n /\ ring s t !! v = Some n /\
        forall v', is_Some (ring s t !! v') -> distance (hash s obj) v <= distance (hash s obj) v'
  | None => ring s t = ∅
  end.
Proof.
  intros I%nodes_inv. rewrite get_node_in_hash_route.
  destruct (route _ _) as [n|] eqn:E; [| by apply route_None in E].
  apply route_Some in E as (v & E & F). destruct (inv_ring _ I _ _ _ E) as (T & V & O).
  split_and!; [done..|]. exists v. split_and!; [done..|]. intros v'.
  apply (first_at_nearest (ring s t)); [apply hash_word | | by eexists | done].
  intros x. by apply ring_word.
Qed.

(** C16: registering a node moves keys only to that node's workers; removing
    one leaves every key of the other nodes where it was (when no virtual node
    is claimed twice). *)
Theorem nodes_consistent_hashing s z :
  reachable s -> is_valid_zk_node z = true ->
  m_host_zk_paths s !! host_key z = None -> m_zk_nodes s !! path z = None ->
  (forall t obj,
     get_node_in_hash (snd (add_zk_node s z)) t obj = get_node_in_hash s t obj \/
     exists n, get_node_in_hash (snd (add_zk_node s z)) t obj = Some n /\ is_worker_of z (node_id n)) /\
  (forall p d, m_zk_nodes s !! p = Some d -> no_clash s ->
     forall t obj n, get_node_in_hash s t obj = Some n -> ~ is_worker_of d (node_id n) ->
       get_node_in_hash (snd (del_zk_node s p)) t obj = Some n).
Proof.
  intros I%nodes_inv V Hh P. split.
  - destruct (add_zk_node_fresh s z V Hh P) as (s1 & -> & -> & _).
    apply (add_workers_moves (set_zk_nodes s (<[path z := z]> (m_zk_nodes s))) z).
  - intros p d D C t obj n G N. unfold del_zk_node. rewrite D. simpl.
    change (get_node_in_hash (del_workers s d (worker_cnt d)) t obj = Some n).
    apply del_workers_keeps; [done..|]. intros i L E. apply N. by exists i.
Qed.

(** Registering a node and deleting it again restores the registry. *)
Theorem nodes_add_del_roundtrip s z :
  is_valid_zk_node z = true ->
  m_host_zk_paths s !! host_key z = None -> m_zk_nodes s !! path z = None ->
  (forall i, 1 <= i <= worker_cnt z -> m_nodes s !! worker_id z i = None) ->
  exists s1 s2, add_zk_node s z = (true, s1) /\ m_zk_nodes s1 !! path z = Some z /\
    m_host_zk_paths s1 !! host_key z = Some (path z) /\
    del_zk_node s1 (path z) = (true, s2) /\
    m_zk_nodes s2 = m_zk_nodes s /\ m_host_zk_paths s2 = m_host_zk_paths s /\ m_nodes s2 = m_nodes s.
Proof.
  intros V Hh P F. destruct (add_zk_node_fresh s z V Hh P) as (s1 & E1 & EA & Z1).
  set (s1' := set_host_zk_paths s1 (<[host_key z := path z]> (m_host_zk_paths s))) in *.
  destruct (del_workers_same s1' z (worker_cnt z)) as (Zd & Hd & _).
  assert (L : m_zk_nodes s1' !! path z = Some z) by (simpl; rewrite Z1; apply lookup_insert_eq).
  eexists s1', _. split_and!; [done | done | apply lookup_insert_eq | unfold del_zk_node; by rewrite L | | |]; simpl.
  - rewrite Zd. simpl. rewrite Z1. by apply delete_insert_id.
  - rewrite Hd. simpl. by apply delete_insert_id.
  - apply map_eq. intros id.
    destruct (decide (id ∈ worker_id z <$> seqZ 1 (worker_cnt z))) as [M|N].
    + apply list_elem_of_fmap in M as (i & -> & I). apply elem_of_seqZ in I. rewrite del_workers_gone by lia. symmetry. apply F. lia.
    + assert (N' : forall i, 1 <= i <= worker_cnt z -> id <> worker_id z i).
      { intros i I ->. apply N, list_elem_of_fmap. exists i. split; [done | apply elem_of_seqZ; lia]. }
      rewrite del_workers_other by done. simpl. rewrite E1.
      etransitivity; [by apply add_workers_other; left | done].
Qed.

(** Updating a registered path (fewer workers, or another host or port)
    leaves the workers that are gone registered for ever: the update loop
    reads the new data through the reference [old], so nothing removes them,
    and deleting the path later does not either. *)
Theorem nodes_update_keeps_stale_workers s z old id n :
  reachable s -> is_valid_zk_node z = true ->
  m_zk_nodes s !! path z = Some old -> is_worker_of old id -> m_nodes s !! id = Some n ->
  ~ is_worker_of z id -> default (path z) (m_host_zk_paths s !! host_key z) = path z ->
  exists s1 s2, add_zk_node s z = (true, s1) /\ m_zk_nodes s1 !! path z = Some z /\
    m_nodes s1 !! id = Some n /\ del_zk_node s1 (path z) = (true, s2) /\ m_nodes s2 !! id = Some n.
Proof.
  intros I%nodes_inv V O W N NW Hh.
  assert (D : forall i, 1 <= i <= worker_cnt z -> id <> worker_id z i) by (intros i L ->; apply NW; by exists i).
  assert (old <> z) by (intros ->; done).
  assert (C : check_zk_node_host s z = (true, s)).
  { unfold check_zk_node_host. destruct (m_host_zk_paths s !! host_key z) as [p|]; [simpl in Hh; subst p | done].
    rewrite O. destruct (inv_zk _ I _ _ O) as [-> _]. by rewrite bool_decide_true. }
  unfold add_zk_node. rewrite V, C. simpl. rewrite O, bool_decide_false by done.
  rewrite lookup_insert_eq. simpl. set (s0 := set_zk_nodes s _).
  assert (Zs : m_zk_nodes (add_workers (del_workers s0 z (worker_cnt z - 1)) z) !! path z = Some z).
  { destruct (add_workers_same (del_workers s0 z (worker_cnt z - 1)) z) as [-> _].
    destruct (del_workers_same s0 z (worker_cnt z - 1)) as [-> _]. apply lookup_insert_eq. }
  assert (Ns : m_nodes (add_workers (del_workers s0 z (worker_cnt z - 1)) z) !! id = Some n).
  { rewrite add_workers_other by by left. rewrite del_workers_other; [done |]. intros i L. apply D. lia. }
  eexists _, _. split; [done |]. split; [exact Zs |]. split; [exact Ns |].
  unfold del_zk_node. cbn [m_zk_nodes set_host_zk_paths]. rewrite Zs. split; [done |]. simpl.
  rewrite del_workers_other by done. exact Ns.
Qed.

Lemma count_NoDup (l : list string) x :
  NoDup l -> count_occ (fun x y => decide (x = y)) l x = if bool_decide (x ∈ l) then 1%nat else 0%nat.
Proof.
  intros N. case_bool_decide as E.
  - apply NoDup_count_occ'; [by apply NoDup_ListNoDup | by apply list_elem_of_In].
  - apply count_occ_not_In. by rewrite <- list_elem_of_In.
Qed.

Lemma elem_of_diff_cmp (first second : list string) x :
  NoDup first -> NoDup second ->
  x ∈ (diff_cmp first second).1.1 <-> x ∈ first /\ x ∉ second.
Proof.
  intros N1 N2. simpl. rewrite list_elem_of_In, (count_occ_In (fun x y => decide (x = y))).
  rewrite set_difference_count by apply std_sort_sorted.
  rewrite !std_sort_count, !count_NoDup by done.
  repeat case_bool_decide; split; intros; try tauto; lia.
Qed.

(** [get_zk_diff_nodes] computes what the watcher has to do: the paths to
    add are the children that are not registered, the paths to delete the
    registered nodes of the type that are no longer children. *)
Theorem nodes_diff_complete s t ins adds dels ins' :
  NoDup ins -> get_zk_diff_nodes s t ins = (adds, dels, ins') ->
  (forall p, p ∈ adds <-> p ∈ ins /\ ~ exists z, m_zk_nodes s !! p = Some z /\ type z = t) /\
  (forall p, p ∈ dels <-> (exists z, m_zk_nodes s !! p = Some z /\ type z = t) /\ p ∉ ins).
Proof.
  intros N E. unfold get_zk_diff_nodes in E. set (vec := fst <$> _) in E.
  assert (Nv : NoDup vec).
  { apply (NoDup_fmap_fst _); [| apply NoDup_filter, NoDup_map_to_list].
    intros p z1 z2 [_ A]%list_elem_of_filter [_ B]%list_elem_of_filter.
    apply elem_of_map_to_list in A, B. congruence. }
  assert (V : forall p, p ∈ vec <-> exists z, m_zk_nodes s !! p = Some z /\ type z = t).
  { intros p. unfold vec. rewrite list_elem_of_fmap. split.
    - intros ([q z] & -> & [T M]%list_elem_of_filter). apply elem_of_map_to_list in M. simpl in *. eauto.
    - intros (z & M & T). exists (p, z). split; [done |]. apply list_elem_of_filter.
      by rewrite elem_of_map_to_list. }
  unfold diff_cmp in E. injection E as <- <- <-.
  pose proof (elem_of_diff_cmp ins vec) as D1.
  pose proof (elem_of_diff_cmp (std_sort vec) (std_sort ins)) as D2. simpl in D1, D2.
  split; intros p.
  - rewrite D1 by done. by rewrite V.
  - rewrite D2 by (by rewrite std_sort_Permutation). rewrite !std_sort_Permutation. by rewrite V.
Qed.

Lemma del_zk_node_zk s p z :
  m_zk_nodes s !! p = Some z -> m_zk_nodes (snd (del_zk_node s p)) = delete p (m_zk_nodes s).
Proof.
  intros E. unfold del_zk_node. rewrite E. simpl. by destruct (del_workers_same s z (worker_cnt z)) as [-> _].
Qed.

(** Of two paths that claim the same host and port the younger wins: an
    announcement that is not younger is refused without any effect, a younger
    one replaces the old path. *)
Theorem nodes_younger_wins s z p old :
  reachable s -> is_valid_zk_node z = true ->
  m_host_zk_paths s !! host_key z = Some p -> m_zk_nodes s !! p = Some old -> path z <> p ->
  (active_time z <= active_time old -> add_zk_node s z = (false, s)) /\
  (active_time old < active_time z ->
   exists s', add_zk_node s z = (true, s') /\ m_zk_nodes s' !! p = None /\
     m_zk_nodes s' !! path z = Some z /\ m_host_zk_paths s' !! host_key z = Some (path z)).
Proof.
  intros I%nodes_inv V Hh O N. destruct (inv_zk _ I _ _ O) as [Ep _].
  unfold add_zk_node, check_zk_node_host. rewrite V, Hh, O, Ep, bool_decide_false by done. simpl. split.
  - intros L. by rewrite (proj2 (Z.leb_le _ _) L).
  - intros L. rewrite (proj2 (Z.leb_gt _ _) L). simpl. pose proof (del_zk_node_zk s p old O) as D.
    set (s1 := snd (del_zk_node s p)) in *. eexists. split; [done |]. cbn [m_zk_nodes m_host_zk_paths set_host_zk_paths].
    assert (G : forall s', same_zk (set_zk_nodes s1 (<[path z := z]> (m_zk_nodes s1))) s' ->
                m_zk_nodes s' !! p = None /\ m_zk_nodes s' !! path z = Some z).
    { intros s' (-> & _). simpl. rewrite lookup_insert_eq, lookup_insert_ne, D by done. by rewrite lookup_delete_eq. }
    apply and_assoc. split; [| apply lookup_insert_eq].
    destruct (m_zk_nodes s1 !! path z) as [o|] eqn:E; [case_bool_decide as B |].
    + subst o. split; [rewrite D; apply lookup_delete_eq | done].
    + apply G. etrans; [apply del_workers_same | apply add_workers_same].
    + apply G, add_workers_same.
Qed.

End nodes.

(** ** Witnesses *)

(** A toy digest: the input backwards, cut or filled to sixteen bytes. *)
Definition toy_digest : Digest := fun l =>
  fun_to_vec (fun i : fin 16 => default NUL (reverse l !! fin_to_nat i)).

#[local] Existing Instance toy_digest.

Definition gate (p h : string) (cnt time : Z) : zk_node := mk_zk_node p "gate" h 3344 cnt time.

(** One gate with two workers, eight virtual nodes each. *)
Definition one_gate : Nodes := run (new 8 FNV1A_64) (AddZk (gate "/n/1" "10.0.0.1" 2 100)).

Lemma one_gate_reachable : reachable one_gate.
Proof. apply reach_op, reach_new. Qed.

Lemma nodes_route_nearest_witness :
  match get_node_in_hash one_gate "gate" "user:1001" with
  | Some n => node_type n = "gate" /\ m_nodes one_gate !! node_id n = Some n /\
      exists v, v ∈ vnodes n /\ ring one_gate "gate" !! v = Some n /\
        forall v', is_Some (ring one_gate "gate" !! v') ->
          distance (hash one_gate "user:1001") v <= distance (hash one_gate "user:1001") v'
  | None => ring one_gate "gate" = ∅
  end /\ is_Some (get_node_in_hash one_gate "gate" "user:1001").
Proof.
  split; [apply (nodes_route_nearest one_gate "gate" "user:1001"); exact one_gate_reachable |].
  vm_compute. eexists. reflexivity.
Defined.

Lemma nodes_consistent_hashing_witness :
  let z := gate "/n/2" "10.0.0.2" 3 100 in
  get_node_in_hash (snd (add_zk_node one_gate z)) "gate" "user:7" = get_node_in_hash one_gate "gate" "user:7" \/
  exists n, get_node_in_hash (snd (add_zk_node one_gate z)) "gate" "user:7" = Some n /\
    is_worker_of z (node_id n).
Proof.
  intros z. destruct (nodes_consistent_hashing one_gate z) as [A _];
    [exact one_gate_reachable | reflexivity | vm_compute; reflexivity | vm_compute; reflexivity | apply A].
Defined.

Lemma nodes_add_del_roundtrip_witness :
  let z := gate "/n/2" "10.0.0.2" 2 100 in
  exists s1 s2, add_zk_node one_gate z = (true, s1) /\ m_zk_nodes s1 !! path z = Some z /\
    m_host_zk_paths s1 !! host_key z = Some (path z) /\
    del_zk_node s1 (path z) = (true, s2) /\
    m_zk_nodes s2 = m_zk_nodes one_gate /\ m_host_zk_paths s2 = m_host_zk_paths one_gate /\
    m_nodes s2 = m_nodes one_gate.
Proof.
  intros z. apply (nodes_add_del_roundtrip one_gate z); [vm_compute; reflexivity .. |].
  intros i I. assert (i = 1 \/ i = 2) as [-> | ->] by (cbn in I; lia); vm_compute; reflexivity.
Defined.

(** The gate comes back with one worker: its second worker stays. *)
Lemma nodes_update_keeps_stale_workers_witness :
  let z := gate "/n/1" "10.0.0.1" 1 200 in
  exists n s1 s2, add_zk_node one_gate z = (true, s1) /\ m_zk_nodes s1 !! path z = Some z /\
    m_nodes s1 !! "10.0.0.1:3344.2" = Some n /\ del_zk_node s1 (path z) = (true, s2) /\
    m_nodes s2 !! "10.0.0.1:3344.2" = Some n.
Proof.
  intros z. destruct (m_nodes one_gate !! "10.0.0.1:3344.2") as [n|] eqn:E; [| vm_compute in E; discriminate].
  exists n. apply (nodes_update_keeps_stale_workers one_gate z (gate "/n/1" "10.0.0.1" 2 100) "10.0.0.1:3344.2" n).
  - exact one_gate_reachable.
  - reflexivity.
  - vm_compute. reflexivity.
  - exists 2. split; [cbn; lia | vm_compute; reflexivity].
  - exact E.
  - intros (i & I & D). assert (i = 1) as -> by (cbn in I; lia). vm_compute in D. discriminate.
  - vm_compute. reflexivity.
Defined.

Lemma nodes_diff_complete_witness :
  (forall p, p ∈ ["/n/7"] <-> p ∈ ["/n/7"] /\ ~ exists z, m_zk_nodes one_gate !! p = Some z /\ type z = "gate") /\
  (forall p, p ∈ ["/n/1"] <-> (exists z, m_zk_nodes one_gate !! p = Some z /\ type z = "gate") /\ p ∉ ["/n/7"]).
Proof.
  apply (nodes_diff_complete one_gate "gate" ["/n/7"] ["/n/7"] ["/n/1"] ["/n/7"]);
    [apply NoDup_singleton | vm_compute; reflexivity].
Defined.

Lemma nodes_younger_wins_witness :
  let z := gate "/n/2" "10.0.0.1" 2 100 in add_zk_node one_gate z = (false, one_gate).
Proof.
  intros z.
  destruct (nodes_younger_wins one_gate z "/n/1" (gate "/n/1" "10.0.0.1" 2 100)) as [A _];
    [exact one_gate_reachable | reflexivity | vm_compute; reflexivity | vm_compute; reflexivity | discriminate |].
  apply A. reflexivity.
Defined.

End Nodes.
