(* ===== verification/Timers.v ===== *)
(** * Timers: the timer queue

    Model of [timer.h], [timers.h] and [timers.cpp].  [m_timers] is an ordered
    map keyed by (due time, id), [m_ids] finds the key of an id.  The answers
    of [mstime()] are a function of the number of readings so far.  What
    happens while a callback runs (it may add and delete timers, and so may
    other coroutines when it yields) is the list of timer operations of that
    call, an argument of the model. *)

From S2P Require Import Prelude StdMap.
From Stdlib Require Import Sorted.

#[local] Open Scope Z_scope.

Module Timers.

Definition DEFAULT_TIMER_RATE : Z := 10.

(** [if ((ms <= 1000 / m_hz) || !(m_cronloops % (ms / (1000 / m_hz))))];
    [None] is a division by zero. *)
Definition run_with_period (hz cronloops ms : Z) : option bool :=
  if hz =? 0 then None else
  let step := Z.quot 1000 hz in
  if ms <=? step then Some true
  else if step =? 0 then None
  else if Z.quot ms step =? 0 then None
  else Some (Z.rem cronloops (Z.quot ms step) =? 0).

(** (due time, timer id) *)
Abbreviation TimerGrpID := (Z * Z)%type.

(** A callback is known by its identity; [None] is [nullptr]. *)
Record Timer := mk_timer {
  t_id : Z;
  t_after_time : Z;
  t_repeat_time : Z;
  t_privdata : Z;
  t_callback : option Z;
}.

Record Timers := mk {
  m_cronloops : Z;
  m_last_timer_id : Z;
  m_timers : gmap TimerGrpID Timer;
  m_ids : gmap Z TimerGrpID;
}.

Definition new : Timers := mk 1 0 ∅ ∅.

Definition set_timers (s : Timers) x : Timers := mk (m_cronloops s) (m_last_timer_id s) x (m_ids s).
Definition set_ids (s : Timers) x : Timers := mk (m_cronloops s) (m_last_timer_id s) (m_timers s) x.

(** [++m_last_timer_id]; [None] is the overflow of the [int]. *)
Definition new_tid (s : Timers) : option (Z * Timers) :=
  if m_last_timer_id s =? INT_MAX then None
  else Some (m_last_timer_id s + 1, mk (m_cronloops s) (m_last_timer_id s + 1) (m_timers s) (m_ids s)).

(** [mstime] is the reading of the clock made by the call. *)
Definition add_timer (s : Timers) (mstime : Z) (fn : option Z) (after repeat privdata : Z)
  : option (Z * Timers) :=
  '(id, s) ← new_tid s;
  let gid := (u64 (mstime + after), id) in
  let timer := mk_timer id after repeat privdata fn in
  let s := set_timers s (<[gid:=timer]> (m_timers s)) in
  Some (id, set_ids s (<[id:=gid]> (m_ids s))).

Definition del_timer (s : Timers) (id : Z) : bool * Timers :=
  match m_ids s !! id with
  | None => (false, s)
  | Some gid =>
      let s := match m_timers s !! gid with
               | Some _ => set_timers s (delete gid (m_timers s))
               | None => s
               end in
      (true, set_ids s (delete id (m_ids s)))
  end.

(** Operations made while a callback runs. *)
Inductive cmd := TAdd (fn : option Z) (after repeat privdata : Z) | TDel (id : Z).

(** The queue with the number of clock readings and the callbacks made so far
    (key and timer; the arguments are [id], [repeat_time() != 0] and
    [privdata]). *)
Record world := mk_world { timers : Timers; reads : nat; calls : list (TimerGrpID * Timer) }.

Section run.
Context (clock : nat -> Z) (during : nat -> list cmd).

Definition do_cmd (w : world) (c : cmd) : option world :=
  match c with
  | TAdd fn after repeat privdata =>
      '(_, s) ← add_timer (timers w) (clock (reads w)) fn after repeat privdata;
      Some (mk_world s (S (reads w)) (calls w))
  | TDel id => Some (mk_world (snd (del_timer (timers w) id)) (reads w) (calls w))
  end.

Fixpoint do_cmds (w : world) (l : list cmd) : option world :=
  match l with
  | [] => Some w
  | c :: l => w ← do_cmd w c; do_cmds w l
  end.

(** [callback(timer->id(), timer->repeat_time() != 0, timer->privdata())] *)
Definition call (w : world) (gid : TimerGrpID) (t : Timer) : option world :=
  match t_callback t with
  | None => Some w
  | Some _ => do_cmds (mk_world (timers w) (reads w) (calls w ++ [(gid, t)])) (during (length (calls w)))
  end.

(** One round of the loop, for the first timer of the map: it leaves the map,
    its callback runs, and it is queued again or forgotten. *)
Definition fire_begin (w : world) (gid : TimerGrpID) : world :=
  mk_world (set_timers (timers w) (delete gid (m_timers (timers w)))) (reads w) (calls w).

Definition fire_end (w : world) (gid : TimerGrpID) (t : Timer) : world :=
  let s := timers w in
  if negb (t_repeat_time t =? 0) then
    let new_gid := (u64 (clock (reads w) + t_repeat_time t), gid.2) in
    let s := set_timers s (<[new_gid:=t]> (m_timers s)) in
    mk_world (set_ids s (<[gid.2:=new_gid]> (m_ids s))) (S (reads w)) (calls w)
  else
    (* [m_ids.find(gid.first)] *)
    mk_world (set_ids s (delete (i32 gid.1) (m_ids s))) (reads w) (calls w).

Definition fire (w : world) (gid : TimerGrpID) (t : Timer) : option world :=
  w ← call (fire_begin w gid) gid t;
  Some (fire_end w gid t).

Fixpoint fire_loop (fuel : nat) (now : Z) (w : world) : option world :=
  match fuel with
  | O => None
  | S fuel =>
      match map_begin (m_timers (timers w)) with
      | Some (gid, t) =>
          if gid.1 <? now then w ← fire w gid t; fire_loop fuel now w
          else Some w
      | None => Some w
      end
  end.

(** [TimerCron::on_repeat_timer].  Its last block, under [run_with_period],
    only logs how many timers there are and is left out. *)
Definition on_repeat_timer (fuel : nat) (w : world) : option world :=
  fire_loop fuel (u64 (clock (reads w))) (mk_world (timers w) (S (reads w)) (calls w)).

(** [TimerCron::on_timer] *)
Definition on_timer (fuel : nat) (w : world) : option world :=
  w ← on_repeat_timer fuel w;
  let s := timers w in
  if m_cronloops s =? INT_MAX then None
  else Some (mk_world (mk (m_cronloops s + 1) (m_last_timer_id s) (m_timers s) (m_ids s)) (reads w) (calls w)).

(** ** Due timers *)

Definition due (now : Z) (m : gmap TimerGrpID Timer) : gmap TimerGrpID Timer :=
  filter (fun p => p.1.1 < now) m.

Lemma due_lookup now m k t : due now m !! k = Some t <-> m !! k = Some t /\ k.1 < now.
Proof. unfold due. by rewrite map_lookup_filter_Some. Qed.

(** The clock does not go back behind [now] from reading [r] on, and adding
    [after] to it does not overflow. *)
Definition clock_from (r : nat) (now : Z) : Prop := forall n, (r <= n)%nat -> now <= clock n < 2 ^ 63.

Definition cmd_ok (c : cmd) : Prop :=
  match c with TAdd _ after repeat _ => 0 <= after < 2 ^ 63 /\ 0 <= repeat < 2 ^ 63 | TDel _ => True end.

Definition timers_ok (s : Timers) : Prop :=
  forall k t, m_timers s !! k = Some t -> 0 <= t_repeat_time t < 2 ^ 63.

Definition is_del (c : cmd) : bool := match c with TDel _ => true | _ => false end.

(** A piece of the loop adds nothing that is due already. *)
Record later (now : Z) (w w' : world) : Prop := mk_later {
  later_due : due now (m_timers (timers w')) ⊆ due now (m_timers (timers w));
  later_reads : (reads w <= reads w')%nat;
  later_ok : timers_ok (timers w) -> timers_ok (timers w');
}.

#[local] Instance later_preorder now : PreOrder (later now).
Proof.
  split; [by split |]. intros x y z [D1 R1 O1] [D2 R2 O2].
  split; [by etrans | lia | auto].
Qed.

Lemma due_insert_later now m k t : now <= k.1 -> due now (<[k:=t]> m) = due now m.
Proof.
  intros L. apply map_eq. intros j. apply option_eq. intros x. rewrite !due_lookup.
  destruct (decide (j = k)) as [->|N]; [split; intros [? ?]; lia |]. by rewrite lookup_insert_ne.
Qed.

Lemma due_delete_sub now m k : due now (delete k m) ⊆ due now m.
Proof.
  apply map_subseteq_spec. intros j t. rewrite !due_lookup. intros [E L].
  apply lookup_delete_Some in E as [_ E]. done.
Qed.

Lemma due_time now r after :
  clock_from r now -> 0 <= now -> 0 <= after < 2 ^ 63 -> now <= u64 (clock r + after).
Proof. intros C N A. pose proof (C r ltac:(lia)). rewrite u64_small by lia. lia. Qed.

Lemma do_cmd_spec now w c :
  0 <= now -> clock_from (reads w) now -> cmd_ok c -> m_last_timer_id (timers w) < INT_MAX ->
  exists w', do_cmd w c = Some w' /\ later now w w' /\ calls w' = calls w /\
    m_last_timer_id (timers w') <= m_last_timer_id (timers w) + 1 /\
    (is_del c = false -> due now (m_timers (timers w')) = due now (m_timers (timers w))).
Proof.
  intros N C O L. destruct c as [fn after repeat priv | id]; simpl.
  - unfold add_timer, new_tid. kcase; [lia |]. simpl. eexists. split; [done |].
    destruct O as [A R]. pose proof (due_time now (reads w) after C N A) as D. split_and!; simpl; try lia; try done.
    + split; simpl; [by rewrite due_insert_later | lia |].
      intros T k t E. simpl in E. apply lookup_insert_Some in E as [[<- <-]|[_ E]]; [done | by eapply T].
    + intros _. by apply due_insert_later.
  - eexists. split; [done |]. unfold del_timer.
    destruct (m_ids (timers w) !! id) as [gid|]; simpl; [| by split_and!; [| | lia |]].
    destruct (m_timers (timers w) !! gid) eqn:E; simpl; (split_and!; [| done | lia | done]); split; simpl; try done.
    + apply due_delete_sub.
    + intros T k t' E'. simpl in E'. apply lookup_delete_Some in E' as [_ E']. by eapply T.
Qed.

Lemma do_cmds_spec now w l :
  0 <= now -> clock_from (reads w) now -> Forall cmd_ok l ->
  m_last_timer_id (timers w) + zlen l <= INT_MAX ->
  exists w', do_cmds w l = Some w' /\ later now w w' /\ calls w' = calls w /\
    m_last_timer_id (timers w') <= m_last_timer_id (timers w) + zlen l /\
    (Forall (fun c => is_del c = false) l -> due now (m_timers (timers w')) = due now (m_timers (timers w))).
Proof.
  intros N. revert w. induction l as [|c l IH]; intros w C O L.
  - exists w. unfold zlen. simpl. by split_and!; [| | | lia |].
  - apply Forall_cons in O as [Oc O]. assert (zlen (c :: l) = zlen l + 1) as Z1 by (unfold zlen; simpl; lia).
    pose proof (zlen_nonneg l).
    destruct (do_cmd_spec now w c N C Oc) as (w1 & E1 & La1 & C1 & I1 & K1); [lia |].
    destruct (IH w1) as (w2 & E2 & La2 & C2 & I2 & K2); [| done | lia |].
    { intros n Hn. apply C. destruct La1. lia. }
    exists w2. simpl. rewrite E1. simpl. split_and!; [done | by etrans | congruence | lia |].
    intros [D1 D2]%Forall_cons. rewrite K2 by done. auto.
Qed.

(** What the callbacks do is bounded: at most [B] operations each. *)
Definition calls_ok (B : Z) : Prop := forall n, Forall cmd_ok (during n) /\ zlen (during n) <= B.

(** No callback deletes a timer. *)
Definition no_deletes : Prop := forall n, Forall (fun c => is_del c = false) (during n).

Definition called (gid : TimerGrpID) (t : Timer) : list (TimerGrpID * Timer) :=
  match t_callback t with Some _ => [(gid, t)] | None => [] end.

Lemma call_spec now B w gid t :
  0 <= now -> clock_from (reads w) now -> calls_ok B -> 0 <= B ->
  m_last_timer_id (timers w) + B <= INT_MAX ->
  exists w', call w gid t = Some w' /\ later now w w' /\ calls w' = calls w ++ called gid t /\
    m_last_timer_id (timers w') <= m_last_timer_id (timers w) + B /\
    (no_deletes -> due now (m_timers (timers w')) = due now (m_timers (timers w))).
Proof.
  intros N C K B0 L. unfold call, called. destruct (t_callback t).
  - destruct (K (length (calls w))) as [O Z1].
    destruct (do_cmds_spec now (mk_world (timers w) (reads w) (calls w ++ [(gid, t)])) (during (length (calls w))))
      as (w' & -> & La & Ca & I & D); simpl in *; [done.. | lia |].
    exists w'. split_and!; [done | | done | lia |]; [by destruct La; split |]. intros ND. apply D, ND.
  - exists w. rewrite app_nil_r. by split_and!; [| | | lia |].
Qed.

Lemma fire_spec now B w gid t :
  0 <= now -> clock_from (reads w) now -> calls_ok B -> 0 <= B ->
  m_last_timer_id (timers w) + B <= INT_MAX -> timers_ok (timers w) ->
  m_timers (timers w) !! gid = Some t ->
  exists w', fire w gid t = Some w' /\ later now w w' /\ due now (m_timers (timers w')) !! gid = None /\
    calls w' = calls w ++ called gid t /\
    m_last_timer_id (timers w') <= m_last_timer_id (timers w) + B /\
    (no_deletes -> due now (m_timers (timers w')) = delete gid (due now (m_timers (timers w)))).
Proof.
  intros N C K B0 L T E. unfold fire, fire_end. set (w0 := fire_begin w gid).
  assert (D0 : due now (m_timers (timers w0)) = delete gid (due now (m_timers (timers w)))).
  { unfold due. simpl. by rewrite map_filter_delete. }
  assert (La0 : later now w w0).
  { split; simpl; [apply due_delete_sub | lia |]. intros _ k x X. simpl in X.
    apply lookup_delete_Some in X as [_ X]. by eapply T. }
  destruct (call_spec now B w0 gid t N C K B0 L) as (w1 & -> & La1 & C1 & I1 & ND1). simpl.
  assert (G : due now (m_timers (timers w1)) !! gid = None).
  { destruct (due now (m_timers (timers w1)) !! gid) eqn:X; [| done].
    eapply lookup_weaken in X; [| apply La1]. by rewrite D0, lookup_delete_eq in X. }
  destruct (Z.eqb_spec (t_repeat_time t) 0) as [R|R]; simpl.
  - eexists. split; [done |]. split_and!; simpl; try done.
    + etrans; [exact La0 |]. etrans; [exact La1 |]. by split.
    + intros ND. by rewrite ND1, D0.
  - eexists. split; [done |].
    assert (NG : now <= u64 (clock (reads w1) + t_repeat_time t)).
    { apply (due_time now); [| done | by eapply T]. intros n Hn. apply C.
      pose proof (later_reads _ _ _ La1). simpl in *. lia. }
    split_and!; simpl; try done.
    + etrans; [exact La0 |]. etrans; [exact La1 |]. split; simpl; [by rewrite due_insert_later | lia |].
      intros T1 k x X. simpl in X. apply lookup_insert_Some in X as [[_ <-]|[_ X]]; [by eapply T | by eapply T1].
    + by rewrite due_insert_later.
    + intros ND. rewrite due_insert_later by done. by rewrite ND1, D0.
Qed.

(** The keys in the order of the map, strictly. *)
Definition gid_lt (x y : TimerGrpID) : Prop := kle x y = true /\ x <> y.

(** The outcome of the loop: nothing due is left, and the calls [L] made are
    for due timers, in order of due time, each at most once; without deletions
    every due timer is called. *)
Record fired (now : Z) (w w' : world) (L : list (TimerGrpID * Timer)) : Prop := mk_fired {
  fired_all : due now (m_timers (timers w')) = ∅;
  fired_calls : calls w' = calls w ++ L;
  fired_order : StronglySorted gid_lt L.*1;
  fired_sound gid t : (gid, t) ∈ L -> due now (m_timers (timers w)) !! gid = Some t /\ t_callback t <> None;
  fired_complete : no_deletes ->
    forall gid t, due now (m_timers (timers w)) !! gid = Some t -> t_callback t <> None -> (gid, t) ∈ L;
}.

Lemma fired_stop now w :
  (forall k, is_Some (m_timers (timers w) !! k) -> now <= k.1) -> fired now w w [].
Proof.
  intros M. assert (Em : due now (m_timers (timers w)) = ∅).
  { apply map_empty. intros k. destruct (due _ _ !! k) as [t|] eqn:X; [| done].
    apply due_lookup in X as [X Lt]. pose proof (M k (ex_intro _ t X)). lia. }
  split; [done | by rewrite app_nil_r | constructor | by intros ? ? ?%elem_of_nil |].
  intros _ k t. by rewrite Em, lookup_empty.
Qed.

Lemma fired_step now w w1 w' gid t L :
  due now (m_timers (timers w)) !! gid = Some t ->
  (forall k x, m_timers (timers w) !! k = Some x -> kle gid k = true) ->
  later now w w1 -> due now (m_timers (timers w1)) !! gid = None -> calls w1 = calls w ++ called gid t ->
  (no_deletes -> due now (m_timers (timers w1)) = delete gid (due now (m_timers (timers w)))) ->
  fired now w1 w' L -> fired now w w' (called gid t ++ L).
Proof.
  intros E M La G Ca ND [A C O S K]. split; [done | by rewrite C, Ca, app_assoc | | |].
  - unfold called. destruct (t_callback t); [| done]. simpl. constructor; [done |].
    apply Forall_forall. intros k ([k' x] & -> & X)%list_elem_of_fmap. apply S in X as [X _]. simpl. split.
    + eapply lookup_weaken in X; [| apply La]. apply due_lookup in X as [X _]. by eapply M.
    + intros ->. by rewrite G in X.
  - intros k x [X|X]%elem_of_app.
    + unfold called in X. destruct (t_callback t) eqn:T; [| by apply elem_of_nil in X].
      apply list_elem_of_singleton in X. simplify_eq. split; [done | by rewrite T].
    + apply S in X as [X T]. split; [| done]. eapply lookup_weaken; [exact X | apply La].
  - intros D k x X T. apply elem_of_app. destruct (decide (k = gid)) as [->|Nk].
    + left. simplify_eq. unfold called. destruct (t_callback t); [by left | done].
    + right. apply K; [done | | done]. by rewrite (ND D), lookup_delete_ne.
Qed.

Lemma fire_loop_spec now B fuel w :
  0 <= now -> clock_from (reads w) now -> calls_ok B -> 0 <= B -> timers_ok (timers w) ->
  m_last_timer_id (timers w) + B * Z.of_nat (size (due now (m_timers (timers w)))) <= INT_MAX ->
  (size (due now (m_timers (timers w))) < fuel)%nat ->
  exists w' L, fire_loop fuel now w = Some w' /\ fired now w w' L.
Proof.
  intros N. revert w. induction fuel as [|fuel IH]; intros w C K B0 T I F; [lia |]. simpl.
  destruct (map_begin (m_timers (timers w))) as [[gid t]|] eqn:B1.
  2:{ apply map_begin_None in B1. exists w, []. split; [done |]. apply fired_stop.
      intros k [t X]. by rewrite B1, lookup_empty in X. }
  pose proof (map_begin_Some _ _ _ B1) as [E M]. simpl. kcase.
  2:{ exists w, []. split; [done |]. apply fired_stop. intros k [x X]. apply M in X.
      unfold kle, pair_key_order in X. apply orb_true_iff in X. rewrite andb_true_iff, Z.ltb_lt, Z.eqb_eq in X. lia. }
  assert (Du : due now (m_timers (timers w)) !! gid = Some t) by (by apply due_lookup).
  assert (1 <= Z.of_nat (size (due now (m_timers (timers w))))).
  { assert (size (due now (m_timers (timers w))) <> 0%nat); [| lia].
    intros Z0%map_size_empty_inv. by rewrite Z0, lookup_empty in Du. }
  destruct (fire_spec now B w gid t) as (w1 & -> & La & G & Ca & I1 & ND); [done.. | nia | done | done |]. simpl.
  assert (Sz : (size (due now (m_timers (timers w1))) < size (due now (m_timers (timers w))))%nat).
  { apply map_subset_size. split; [apply La |]. intros X. eapply lookup_weaken in Du; [| exact X]. congruence. }
  destruct (IH w1) as (w' & L & -> & Fi).
  - intros n Hn. apply C. destruct La. lia.
  - done.
  - done.
  - by apply La.
  - nia.
  - lia.
  - exists w', (called gid t ++ L). split; [done |]. eapply fired_step; eauto.
Qed.

(** ** The two tables agree *)

Record consistent (s : Timers) : Prop := mk_consistent {
  cons_key k t : m_timers s !! k = Some t -> m_ids s !! k.2 = Some k /\ t_id t = k.2;
  cons_ids id k : m_ids s !! id = Some k -> k.2 = id /\ 1 <= id <= m_last_timer_id s;
}.

(** No timer with the id [id] is in the queue. *)
Definition absent (id : Z) (s : Timers) : Prop := forall k, is_Some (m_timers s !! k) -> k.2 <> id.

Lemma consistent_new : consistent new.
Proof. split; simpl; intros *; by rewrite lookup_empty. Qed.

Lemma del_timer_consistent s id : consistent s -> consistent (snd (del_timer s id)).
Proof.
  intros [K I]. unfold del_timer. destruct (m_ids s !! id) as [gid|] eqn:E; [| by split]. simpl.
  destruct (I _ _ E) as [G _]. split.
  - intros k t X. destruct (m_timers s !! gid) eqn:X0; simpl in *.
    + apply lookup_delete_Some in X as [N X]. destruct (K _ _ X) as [L ?]. split; [| done].
      rewrite lookup_delete_ne; [done |]. intros Ek. rewrite <- Ek in L. congruence.
    + destruct (K _ _ X) as [L ?]. split; [| done].
      rewrite lookup_delete_ne; [done |]. intros Ek. rewrite <- Ek in L. congruence.
  - intros j k X. destruct (m_timers s !! gid); simpl in *; apply lookup_delete_Some in X as [_ X]; by apply I.
Qed.

Lemma add_timer_consistent s t fn after repeat priv id s' :
  0 <= m_last_timer_id s -> consistent s -> add_timer s t fn after repeat priv = Some (id, s') ->
  consistent s' /\ id = m_last_timer_id s + 1 /\ m_last_timer_id s' = id /\ absent id s.
Proof.
  intros L [K I] E. unfold add_timer, new_tid in E. destruct (_ =? INT_MAX); [done |]. injection E as <- <-.
  assert (A : absent (m_last_timer_id s + 1) s).
  { intros k [x X] Ek. apply K in X as [X _]. apply I in X. lia. }
  split_and!; [| done..]. split; simpl.
  - intros k x X. apply lookup_insert_Some in X as [[<- <-]|[N X]]; simpl; [by rewrite lookup_insert_eq |].
    destruct (K _ _ X). rewrite lookup_insert_ne; [done |]. intros Ek. by apply (A k).
  - intros j k X. apply lookup_insert_Some in X as [[<- <-]|[N X]]; simpl; [lia |].
    destruct (I _ _ X). split; [done | lia].
Qed.

Lemma del_timer_absent s id j : absent j s -> absent j (snd (del_timer s id)).
Proof.
  intros A k. unfold del_timer. destruct (m_ids s !! id) as [gid|]; simpl; [| apply A].
  destruct (m_timers s !! gid); simpl; [| apply A]. intros [x X]. apply lookup_delete_Some in X as [_ X].
  apply A. by eexists.
Qed.

Lemma do_cmds_consistent l w w' j :
  0 <= m_last_timer_id (timers w) -> consistent (timers w) -> do_cmds w l = Some w' ->
  consistent (timers w') /\ m_last_timer_id (timers w) <= m_last_timer_id (timers w') /\
  (j <= m_last_timer_id (timers w) -> absent j (timers w) -> absent j (timers w')).
Proof.
  revert w. induction l as [|c l IH]; intros w L C E; simpl in E.
  { simplify_eq. split_and!; [done | lia | done]. }
  destruct c as [fn after repeat priv | id]; simpl in E.
  - destruct (add_timer _ _ _ _ _ _) as [[i s1]|] eqn:A; [| done]. simpl in E.
    pose proof A as A'. unfold add_timer, new_tid in A'.
    destruct (add_timer_consistent _ _ _ _ _ _ _ _ L C A) as (C1 & -> & L1 & Ab).
    apply IH in E as (C2 & L2 & A2); [| simpl; lia | exact C1]. simpl in *. split_and!; [done | lia |].
    intros J Aj. apply A2; [lia |]. destruct (_ =? INT_MAX); [done |]. injection A' as <-.
    intros k [x X]. simpl in X. apply lookup_insert_Some in X as [[<- _]|[_ X]]; [simpl; lia |].
    apply Aj. by eexists.
  - assert (m_last_timer_id (snd (del_timer (timers w) id)) = m_last_timer_id (timers w)) as El.
    { unfold del_timer. destruct (m_ids (timers w) !! id) as [gid|]; [| done].
      by destruct (m_timers (timers w) !! gid). }
    apply IH in E as (C2 & L2 & A2); [| simpl; lia | by apply del_timer_consistent].
    simpl in *. split_and!; [done | lia |]. intros J Aj. apply A2; [lia | by apply del_timer_absent].
Qed.

(** The due time, taken for an id, is not the id of a queued timer. *)
Definition no_alias (gid : TimerGrpID) (s : Timers) : Prop := absent (i32 gid.1) s.

Lemma fire_begin_consistent w gid t :
  consistent (timers w) -> m_timers (timers w) !! gid = Some t ->
  consistent (timers (fire_begin w gid)) /\ absent gid.2 (timers (fire_begin w gid)) /\
  t_id t = gid.2 /\ 1 <= gid.2 <= m_last_timer_id (timers w).
Proof.
  intros [K I] E. destruct (K _ _ E) as [Eg Et]. destruct (I _ _ Eg) as [_ R]. split_and!; try done; try lia.
  - split; [| done]. intros k x X. simpl in X. apply lookup_delete_Some in X as [_ X]. by apply K.
  - intros k [x X] Ek. simpl in X. apply lookup_delete_Some in X as [N X]. apply K in X as [X _].
    rewrite Ek in X. congruence.
Qed.

Lemma fire_end_consistent w gid t :
  consistent (timers w) -> absent gid.2 (timers w) -> t_id t = gid.2 ->
  1 <= gid.2 <= m_last_timer_id (timers w) ->
  (t_repeat_time t = 0 -> no_alias gid (timers w)) ->
  consistent (timers (fire_end w gid t)) /\
  m_last_timer_id (timers (fire_end w gid t)) = m_last_timer_id (timers w).
Proof.
  intros [K I] A Et R NA. unfold fire_end.
  destruct (Z.eqb_spec (t_repeat_time t) 0) as [R0|R0]; simpl; (split; [| done]).
  - specialize (NA R0). split; simpl in *.
    + intros k x X. destruct (K _ _ X). split; [| done]. rewrite lookup_delete_ne; [done |].
      intros Ek. apply (NA k); [by eexists | done].
    + intros j k X. apply lookup_delete_Some in X as [_ X]. by apply I.
  - split; simpl.
    + intros k x X. apply lookup_insert_Some in X as [[<- <-]|[N X]]; simpl; [by rewrite lookup_insert_eq |].
      destruct (K _ _ X). split; [| done]. rewrite lookup_insert_ne; [done |].
      intros Ek. apply (A k); [by eexists | done].
    + intros j k X. apply lookup_insert_Some in X as [[<- <-]|[N X]]; simpl; [lia | by apply I].
Qed.

(** A round forgets no queued timer but the one it fires. *)
Lemma fire_end_keeps w gid t k x :
  absent gid.2 (timers w) -> m_timers (timers w) !! k = Some x ->
  m_timers (timers (fire_end w gid t)) !! k = Some x.
Proof.
  intros A X. unfold fire_end. destruct (negb _); simpl; [| done].
  rewrite lookup_insert_ne; [done |]. intros E. apply (A k); [by eexists | by rewrite <- E].
Qed.

Lemma fire_consistent w w' gid t :
  0 <= m_last_timer_id (timers w) -> consistent (timers w) -> m_timers (timers w) !! gid = Some t ->
  fire w gid t = Some w' -> (t_repeat_time t = 0 -> no_alias gid (timers w')) ->
  consistent (timers w') /\ m_last_timer_id (timers w) <= m_last_timer_id (timers w').
Proof.
  intros L C E F NA. unfold fire in F.
  destruct (fire_begin_consistent w gid t C E) as (C0 & A0 & Et & R).
  destruct (call (fire_begin w gid) gid t) as [w1|] eqn:Cl; [| done]. injection F as <-.
  assert (consistent (timers w1) /\ m_last_timer_id (timers w) <= m_last_timer_id (timers w1) /\
          absent gid.2 (timers w1)) as (C1 & L1 & A1).
  { unfold call in Cl. destruct (t_callback t); [| simplify_eq; split_and!; [done | simpl; lia | done]].
    eapply (do_cmds_consistent _ _ _ gid.2) in Cl as (? & ? & Ab); [| done | done].
    split_and!; [done | done |]. apply Ab; [simpl; lia | done]. }
  destruct (fire_end_consistent w1 gid t C1 A1 Et) as [C' L']; [lia | | split; [done | lia]].
  intros R0 k X. apply NA; [done |]. unfold fire_end. by rewrite R0.
Qed.

(** ** The life of the queue *)

(** The states between two rounds: timers are added and deleted, and the
    first timer fires; the due time of a one-shot timer is never the id of a
    timer that is queued then. *)
Inductive treach : world -> Prop :=
| treach_new r : treach (mk_world new r [])
| treach_cmd w c w' : treach w -> do_cmd w c = Some w' -> treach w'
| treach_fire w gid t w' :
    treach w -> map_begin (m_timers (timers w)) = Some (gid, t) -> fire w gid t = Some w' ->
    (t_repeat_time t = 0 -> no_alias gid (timers w')) -> treach w'.

Lemma treach_inv w : treach w -> consistent (timers w) /\ 0 <= m_last_timer_id (timers w).
Proof.
  induction 1 as [r | w c w' _ [C L] E | w gid t w' _ [C L] B F NA].
  - split; [apply consistent_new | done].
  - destruct (do_cmds_consistent [c] w w' 0 L C) as (? & ? & _); [simpl; by rewrite E | split; [done | lia]].
  - apply map_begin_Some in B as [B _]. destruct (fire_consistent _ _ _ _ L C B F NA). split; [done | lia].
Qed.

(** A timer that deletes itself in its callback while it is not queued. *)
Lemma repeating_timer_resurrected w gid t w' :
  t_repeat_time t <> 0 -> t_callback t <> None ->
  fire w gid t = Some w' -> exists due, m_timers (timers w') !! (due, gid.2) = Some t.
Proof.
  intros R _ F. unfold fire, fire_end in F. destruct (call _ gid t) as [w1|]; [| done]. simpl in F.
  destruct (Z.eqb_spec (t_repeat_time t) 0); [done |]. injection F as <-. simpl.
  eexists. apply lookup_insert_eq.
Qed.

(** ** Properties *)

(** C28: one run of [on_repeat_timer] ends (in as many rounds as timers were
    due when it started, whatever the callbacks do) and leaves no timer that
    was due; the callbacks are those of due timers, in the order of their due
    times, at most once each, and all of them unless a callback deletes
    timers. *)
Theorem timers_fire_due B fuel w :
  let now := clock (reads w) in
  0 <= now -> clock_from (S (reads w)) now -> now < 2 ^ 63 -> calls_ok B -> 0 <= B -> timers_ok (timers w) ->
  m_last_timer_id (timers w) + B * Z.of_nat (size (due now (m_timers (timers w)))) <= INT_MAX ->
  (size (due now (m_timers (timers w))) < fuel)%nat ->
  exists w' L, on_repeat_timer fuel w = Some w' /\ fired now w w' L.
Proof.
  intros now N C N2 K B0 T I F. unfold on_repeat_timer. fold now. rewrite u64_small by lia.
  destruct (fire_loop_spec now B fuel (mk_world (timers w) (S (reads w)) (calls w)))
    as (w' & L & E & []); [done..|].
  exists w', L. split; [done | by split].
Qed.

(** In every state of the queue a timer that is queued can be cancelled:
    [del_timer] finds it by its id, removes it and no other timer, and the id
    is never given to another timer. *)
Theorem timers_cancel w k t :
  treach w -> m_timers (timers w) !! k = Some t ->
  exists s', del_timer (timers w) (t_id t) = (true, s') /\
    m_timers s' = delete k (m_timers (timers w)) /\ absent (t_id t) s' /\
    forall now fn after repeat priv id s2, add_timer s' now fn after repeat priv = Some (id, s2) -> id <> t_id t.
Proof.
  intros [C L]%treach_inv E. pose proof C as [K I]. destruct (K _ _ E) as [Ek Et]. destruct (I _ _ Ek) as [_ R].
  unfold del_timer. rewrite Et, Ek, E. eexists. split; [done |]. simpl. split_and!; [done | |].
  - intros j [x X] Ej. simpl in X. apply lookup_delete_Some in X as [N X]. apply K in X as [X _].
    rewrite Ej in X. congruence.
  - intros now fn after repeat priv id s2 A. unfold add_timer, new_tid in A. simpl in A.
    destruct (_ =? INT_MAX); [done |]. injection A as <- _. lia.
Qed.

(** When a one-shot timer fires, [m_ids.find(gid.first)] looks up the due
    time instead of the id.  The id of the timer stays in [m_ids] for ever,
    and [del_timer] still claims to delete it; and if the due time happens to
    be (as an [int]) the id of a queued timer, that timer cannot be cancelled
    any more. *)
Theorem timers_one_shot_forgets_wrong_id w gid t :
  treach w -> m_timers (timers w) !! gid = Some t -> t_repeat_time t = 0 -> t_callback t = None ->
  exists w', fire w gid t = Some w' /\ absent gid.2 (timers w') /\
    (i32 gid.1 <> gid.2 -> fst (del_timer (timers w') gid.2) = true) /\
    forall k x, m_timers (timers w) !! k = Some x -> k <> gid -> k.2 = i32 gid.1 ->
      m_timers (timers w') !! k = Some x /\ del_timer (timers w') k.2 = (false, timers w').
Proof.
  intros [C L]%treach_inv E R N. pose proof C as [K I]. destruct (K _ _ E) as [Ek Et].
  unfold fire, call, fire_end. rewrite N, R. simpl. eexists. split; [done |]. simpl. split_and!.
  - intros j [x X] Ej. simpl in X. apply lookup_delete_Some in X as [Nj X]. apply K in X as [X _].
    rewrite Ej in X. congruence.
  - intros A. unfold del_timer. simpl. by rewrite lookup_delete_ne, Ek.
  - intros k x X Nk Al. split; [by rewrite lookup_delete_ne by done |].
    unfold del_timer. simpl. by rewrite Al, lookup_delete_eq.
Qed.

End run.

(** ** Witnesses *)

(** A clock that ticks once per reading, from [t0] on. *)
Definition ticking (t0 : Z) (n : nat) : Z := t0 + Z.min (Z.of_nat n) 1000.

(** The callbacks of the witness add a timer. *)
Definition adds_one (n : nat) : list cmd := [TAdd None 50 0 0].

(** A repeating and a one-shot timer. *)
Definition two_timers : world :=
  default (mk_world new 0 []) (do_cmds (ticking 1000) (mk_world new 0 []) [TAdd (Some 1) 5 10 0; TAdd None 0 0 0]).

(** The same, some time later. *)
Definition two_timers_late : world := mk_world (timers two_timers) 100 [].

Lemma two_timers_ok : timers_ok (timers two_timers_late).
Proof.
  assert (E : map_to_list (m_timers (timers two_timers_late)) =
    [((1005, 1), mk_timer 1 5 10 0 (Some 1)); ((1001, 2), mk_timer 2 0 0 0 None)]) by (vm_compute; reflexivity).
  intros k t M. apply elem_of_map_to_list in M. rewrite E, !elem_of_cons, elem_of_nil in M.
  destruct M as [[= _ ->]|[[= _ ->]|[]]]; simpl; lia.
Qed.

Lemma timers_fire_due_witness :
  exists w' L, on_repeat_timer (ticking 1000) adds_one 5 two_timers_late = Some w' /\
    fired adds_one (ticking 1000 100) two_timers_late w' L.
Proof.
  apply (timers_fire_due (ticking 1000) adds_one 1 5 two_timers_late).
  - unfold ticking. simpl. lia.
  - intros n Hn. unfold ticking. simpl in *. lia.
  - unfold ticking. simpl. lia.
  - intros n. split; [repeat constructor; simpl; lia | vm_compute; discriminate].
  - lia.
  - exact two_timers_ok.
  - vm_compute. discriminate.
  - vm_compute. lia.
Defined.

Definition one_timer : world :=
  default (mk_world new 0 []) (do_cmd (ticking 1000) (mk_world new 0 []) (TAdd (Some 1) 5 10 0)).

Lemma two_timers_reachable : treach (ticking 1000) (fun _ => []) two_timers.
Proof.
  apply (treach_cmd _ _ one_timer (TAdd None 0 0 0)); [| vm_compute; reflexivity].
  apply (treach_cmd _ _ (mk_world new 0 []) (TAdd (Some 1) 5 10 0)); [| vm_compute; reflexivity].
  exact (treach_new _ _ 0).
Qed.

Lemma timers_cancel_witness :
  exists s', del_timer (timers two_timers) 1 = (true, s') /\
    m_timers s' = delete (1005, 1) (m_timers (timers two_timers)) /\ absent 1 s' /\
    forall now fn after repeat priv id s2, add_timer s' now fn after repeat priv = Some (id, s2) -> id <> 1.
Proof.
  apply (timers_cancel (ticking 1000) (fun _ => []) two_timers (1005, 1) (mk_timer 1 5 10 0 (Some 1)));
    [exact two_timers_reachable | vm_compute; reflexivity].
Defined.

Lemma timers_one_shot_forgets_wrong_id_witness :
  exists w', fire (ticking 1000) (fun _ => []) two_timers (1001, 2) (mk_timer 2 0 0 0 None) = Some w' /\
    absent 2 (timers w') /\ (i32 1001 <> 2 -> fst (del_timer (timers w') 2) = true) /\
    forall k x, m_timers (timers two_timers) !! k = Some x -> k <> (1001, 2) -> k.2 = i32 1001 ->
      m_timers (timers w') !! k = Some x /\ del_timer (timers w') k.2 = (false, timers w').
Proof.
  apply (timers_one_shot_forgets_wrong_id (ticking 1000) (fun _ => []) two_timers (1001, 2) (mk_timer 2 0 0 0 None));
    [exact two_timers_reachable | vm_compute; reflexivity | reflexivity | reflexivity].
Defined.

End Timers.
