(* ===== verification/Session.v ===== *)
(** * Session: objects with a time limit

    Model of [session.h] and [session.cpp].  The manager owns a timer queue
    and a table from session ids to (timer id, session).  The closures given
    to the queue are numbered; a closure captures its session.  What a
    session's [on_timeout] does with the manager is the list of manager calls
    of that timeout, an argument of the model. *)

From S2P Require Import Prelude StdMap Util Timers.
Import Util Timers.

#[local] Open Scope Z_scope.

Module Session.

Definition SESSION_TIMEOUT_VAL : Z := 5 * 1000.

(** A session object: its identity, its class and [m_sessid]. *)
Record Session := mk_session { sess_ref : Z; sess_class : Z; m_sessid : string }.

(** The callers have a non-const session, so [id()] is a [const char*]. *)
Definition sess_id (s : Session) : string := bytes_str (c_str (m_sessid s)).

Record tm_session_t := mk_tm { timer_id : Z; session : Session }.

Record SessionMgr := mk {
  m_timers : world;
  m_sessions : gmap string tm_session_t;
  closures : list Session;
}.

Definition init (reads : nat) : SessionMgr := mk (mk_world Timers.new reads []) ∅ [].

Section mgr.
Context (clock : nat -> Z).

(** [SessionMgr::add_timer]: a new closure is handed to the queue. *)
Definition add_timer (m : SessionMgr) (s : Session) (after repeat : Z)
  : option (tm_session_t * SessionMgr) :=
  let w := m_timers m in
  '(id, ts) ← Timers.add_timer (timers w) (clock (reads w)) (Some (zlen (closures m))) after repeat 0;
  Some (mk_tm id s, mk (mk_world ts (S (reads w)) (calls w)) (m_sessions m) (closures m ++ [s])).

Definition del_timer (m : SessionMgr) (id : Z) : bool * SessionMgr :=
  let w := m_timers m in
  let '(ok, ts) := Timers.del_timer (timers w) id in
  (ok, mk (mk_world ts (reads w) (calls w)) (m_sessions m) (closures m)).

Definition add_session (m : SessionMgr) (s : option Session) (after repeat : Z) : option (bool * SessionMgr) :=
  match s with
  | None => Some (false, m)
  | Some s =>
      if after =? 0 then Some (false, m) else
      match m_sessions m !! sess_id s with
      | Some _ => Some (false, m)
      | None =>
          '(tm, m) ← add_timer m s after repeat;
          Some (true, mk (m_timers m) (<[sess_id s := tm]> (m_sessions m)) (closures m))
      end
  end.

Definition get_session (m : SessionMgr) (id : string) : option Session := session <$> m_sessions m !! id.

Definition del_session (m : SessionMgr) (id : string) : bool * SessionMgr :=
  match m_sessions m !! id with
  | None => (false, m)
  | Some tm =>
      let m := snd (del_timer m (timer_id tm)) in
      (true, mk (m_timers m) (delete id (m_sessions m)) (closures m))
  end.

(** [get_alloc_session<T>]: [cls] is the class [T], [ref] the identity of the
    object [std::make_shared] would create. *)
Definition get_alloc_session (m : SessionMgr) (cls ref : Z) (id : string) (after repeat : Z)
  : option (option Session * SessionMgr) :=
  let cast := match get_session m id with
              | Some s => if sess_class s =? cls then Some s else None
              | None => None
              end in
  match cast with
  | Some s => Some (Some s, m)
  | None =>
      let s := mk_session ref cls id in
      '(ok, m) ← add_session m (Some s) after repeat;
      Some (if (ok : bool) then Some s else None, m)
  end.

(** The calls a session may make on the manager. *)
Inductive cmd := CAdd (s : Session) (after repeat : Z) | CDel (id : string).

Definition do_cmd (m : SessionMgr) (c : cmd) : option SessionMgr :=
  match c with
  | CAdd s after repeat => '(_, m) ← add_session m (Some s) after repeat; Some m
  | CDel id => Some (snd (del_session m id))
  end.

Fixpoint do_cmds (m : SessionMgr) (l : list cmd) : option SessionMgr :=
  match l with
  | [] => Some m
  | c :: l => m ← do_cmd m c; do_cmds m l
  end.

(** The closure: [on_timeout], then [del_session] unless it repeats. *)
Definition on_expire (m : SessionMgr) (s : Session) (is_repeat : bool) (on_timeout : list cmd)
  : option SessionMgr :=
  m ← do_cmds m on_timeout;
  Some (if is_repeat then m else snd (del_session m (sess_id s))).

(** One round of the timer queue of the manager. *)
Definition fire (m : SessionMgr) (gid : TimerGrpID) (t : Timer) (on_timeout : list cmd) : option SessionMgr :=
  let w := fire_begin (m_timers m) gid in
  let m := mk (mk_world (timers w) (reads w) (calls w ++ [(gid, t)])) (m_sessions m) (closures m) in
  cb ← t_callback t;
  s ← closures m !! Z.to_nat cb;
  m ← on_expire m s (negb (t_repeat_time t =? 0)) on_timeout;
  Some (mk (fire_end clock (m_timers m) gid t) (m_sessions m) (closures m)).

(** ** The invariant *)

(** The timer of [tm] is queued, and its closure has captured the session. *)
Definition live (m : SessionMgr) (tm : tm_session_t) : Prop :=
  exists gid t cb, Timers.m_timers (timers (m_timers m)) !! gid = Some t /\ gid.2 = timer_id tm /\
    t_callback t = Some cb /\ closures m !! Z.to_nat cb = Some (session tm).

(** [f] is the timer that is firing, if there is one, with its session. *)
Record inv (f : option (Z * Session)) (m : SessionMgr) : Prop := mk_inv {
  inv_timers : consistent (timers (m_timers m));
  inv_last : 0 <= m_last_timer_id (timers (m_timers m));
  inv_closures gid t : Timers.m_timers (timers (m_timers m)) !! gid = Some t ->
    exists cb s, t_callback t = Some cb /\ closures m !! Z.to_nat cb = Some s;
  inv_sessions k tm : m_sessions m !! k = Some tm ->
    sess_id (session tm) = k /\ (live m tm \/ f = Some (timer_id tm, session tm));
  inv_firing id s : f = Some (id, s) ->
    absent id (timers (m_timers m)) /\ 1 <= id <= m_last_timer_id (timers (m_timers m));
}.

Lemma inv_init r : inv None (init r).
Proof.
  by split.
Qed.

(** Two sessions never share a timer. *)
Lemma inv_timer_unique f m k1 k2 tm1 tm2 :
  inv f m -> m_sessions m !! k1 = Some tm1 -> m_sessions m !! k2 = Some tm2 ->
  timer_id tm1 = timer_id tm2 -> k1 = k2.
Proof.
  intros I E1 E2 T. destruct (inv_sessions _ _ I _ _ E1) as [<- D1], (inv_sessions _ _ I _ _ E2) as [<- D2].
  f_equal. pose proof (inv_timers _ _ I) as [K _].
  destruct D1 as [(g1 & t1 & c1 & Q1 & G1 & B1 & S1) | F1], D2 as [(g2 & t2 & c2 & Q2 & G2 & B2 & S2) | F2].
  - destruct (K _ _ Q1) as [X1 _], (K _ _ Q2) as [X2 _]. rewrite G1, T, <- G2 in X1. by simplify_eq.
  - destruct (inv_firing _ _ I _ _ F2) as [A _]. destruct (A g1); [by eexists | congruence].
  - destruct (inv_firing _ _ I _ _ F1) as [A _]. destruct (A g2); [by eexists | congruence].
  - congruence.
Qed.

(** Deleting a timer touches only the queue entry of that id. *)
Lemma del_timer_queue ts id gid t :
  consistent ts -> Timers.m_timers ts !! gid = Some t -> gid.2 <> id ->
  Timers.m_timers (snd (Timers.del_timer ts id)) !! gid = Some t.
Proof.
  intros [K I] E N. unfold Timers.del_timer. destruct (m_ids ts !! id) as [g|] eqn:G; [| done]. simpl.
  destruct (Timers.m_timers ts !! g); simpl; [| done]. rewrite lookup_delete_ne; [done |].
  intros ->. apply I in G as [G _]. done.
Qed.

Lemma del_timer_queue_sub ts id gid t :
  Timers.m_timers (snd (Timers.del_timer ts id)) !! gid = Some t -> Timers.m_timers ts !! gid = Some t.
Proof.
  unfold Timers.del_timer. destruct (m_ids ts !! id) as [g|]; [| done]. simpl.
  destruct (Timers.m_timers ts !! g); simpl; [| done]. by intros [_ E]%lookup_delete_Some.
Qed.

Lemma del_timer_last ts id : m_last_timer_id (snd (Timers.del_timer ts id)) = m_last_timer_id ts.
Proof.
  unfold Timers.del_timer. destruct (m_ids ts !! id) as [g|]; [| done]. by destruct (Timers.m_timers ts !! g).
Qed.

Lemma del_session_spec m id :
  exists ok m', del_session m id = (ok, m') /\ closures m' = closures m /\
    m_sessions m' = delete id (m_sessions m) /\ reads (m_timers m') = reads (m_timers m) /\
    match m_sessions m !! id with
    | None => ok = false /\ m' = m
    | Some tm => ok = true /\ timers (m_timers m') = snd (Timers.del_timer (timers (m_timers m)) (timer_id tm))
    end.
Proof.
  unfold del_session. destruct (m_sessions m !! id) as [tm|] eqn:E.
  - unfold del_timer. destruct (Timers.del_timer _ _) as [ok ts] eqn:D. eexists _, _.
    by split.
  - exists false, m. split_and!; try done. by rewrite delete_id.
Qed.

Lemma del_session_inv f m id : inv f m -> inv f (snd (del_session m id)).
Proof.
  intros I. destruct (del_session_spec m id) as (ok & m' & -> & Ec & Es & _ & D). simpl.
  destruct (m_sessions m !! id) as [tm|] eqn:E; [| by destruct D as [_ ->]]. destruct D as [_ Et].
  pose proof I as [C L Cl S F]. split.
  - rewrite Et. by apply del_timer_consistent.
  - by rewrite Et, del_timer_last.
  - intros gid t. rewrite Et, Ec. intros Q%del_timer_queue_sub. by eapply Cl.
  - intros k tm' X. rewrite Es in X. apply lookup_delete_Some in X as [N X]. destruct (S _ _ X) as [K D].
    split; [done |]. destruct D as [(gid & t & cb & Q & G & B & Sx) | D]; [left | by right].
    exists gid, t, cb. rewrite Ec. split_and!; try done. rewrite Et. apply del_timer_queue; [done.. |].
    rewrite G. intros T. apply N. by eapply (inv_timer_unique f m id k tm tm').
  - intros j s Fj. destruct (F _ _ Fj) as [A R]. rewrite Et, del_timer_last. split; [| done].
    by apply del_timer_absent.
Qed.

Lemma add_session_inv f m s after repeat ok m' :
  inv f m -> add_session m (Some s) after repeat = Some (ok, m') ->
  inv f m' /\ closures m `prefix_of` closures m' /\
  m_last_timer_id (timers (m_timers m)) <= m_last_timer_id (timers (m_timers m')).
Proof.
  intros I E. unfold add_session in E. destruct (after =? 0); [by simplify_eq |].
  destruct (m_sessions m !! sess_id s) as [x|] eqn:N; [by simplify_eq |].
  unfold add_timer in E. destruct (Timers.add_timer _ _ _ _ _ _) as [[id ts]|] eqn:A; [| done]. simplify_eq/=.
  pose proof I as [C L Cl S F].
  destruct (add_timer_consistent _ _ _ _ _ _ _ _ L C A) as (C' & Ei & L' & Ab).
  unfold Timers.add_timer, new_tid in A. destruct (_ =? INT_MAX); [done |]. injection A as Ei' Ets.
  set (gid := (u64 (clock (reads (m_timers m)) + after), id)).
  assert (Q : Timers.m_timers ts = <[gid := mk_timer id after repeat 0 (Some (zlen (closures m)))]>
                (Timers.m_timers (timers (m_timers m)))) by (subst; done).
  clear Ets. assert (P : closures m `prefix_of` closures m ++ [s]) by (by eexists).
  assert (Keep : forall g t, Timers.m_timers (timers (m_timers m)) !! g = Some t -> Timers.m_timers ts !! g = Some t).
  { intros g t X. rewrite Q, lookup_insert_ne; [done |]. intros <-. apply (Ab gid); [by eexists | done]. }
  split; [| by split; [| lia]]. split; simpl; try done.
  - lia.
  - intros g t X. rewrite Q in X. apply lookup_insert_Some in X as [[<- <-]|[_ X]]; simpl.
    + exists (zlen (closures m)), s. split; [done |]. unfold zlen. by rewrite Nat2Z.id, list_lookup_middle.
    + destruct (Cl _ _ X) as (cb & s' & ? & ?). exists cb, s'. split; [done | by eapply prefix_lookup_Some].
  - intros k tm X. apply lookup_insert_Some in X as [[<- <-]|[_ X]]; simpl.
    + split; [done |]. left. exists gid. eexists _, _. simpl. rewrite Q, lookup_insert_eq.
      split_and!; [done.. |]. simpl. unfold zlen. by rewrite Nat2Z.id, list_lookup_middle.
    + destruct (S _ _ X) as [Kx D]. split; [done |]. destruct D as [(g & t & cb & Qx & G & B & Sx) | D]; [left | by right].
      exists g, t, cb. simpl. split_and!; [by apply Keep | done | done |]. by eapply prefix_lookup_Some.
  - intros j s' Fj. destruct (F _ _ Fj) as [Aj R]. split; [| lia]. intros g [t X]. rewrite Q in X.
    apply lookup_insert_Some in X as [[<- _]|[_ X]]; [simpl; lia | apply Aj; by eexists].
Qed.

Lemma do_cmds_inv f l m m' :
  inv f m -> do_cmds m l = Some m' -> inv f m' /\ closures m `prefix_of` closures m'.
Proof.
  revert m. induction l as [|c l IH]; intros m I E; simpl in E; [by simplify_eq |].
  destruct (do_cmd m c) as [m1|] eqn:D; [| done]. simpl in E.
  assert (inv f m1 /\ closures m `prefix_of` closures m1) as [I1 P1].
  { destruct c as [s after repeat | id]; cbn [do_cmd] in D.
    - destruct (add_session m (Some s) after repeat) as [[ok m2]|] eqn:A; [| done]. simplify_eq/=.
      by destruct (add_session_inv _ _ _ _ _ _ _ I A) as (? & ? & _).
    - injection D as <-. split; [by apply del_session_inv |].
      destruct (del_session_spec m id) as (ok & m2 & -> & Ec & _). simpl. by rewrite Ec. }
  destruct (IH m1 I1 E) as [I' P']. split; [done | by etrans].
Qed.

Lemma on_expire_inv f m s rep l m' :
  inv f m -> on_expire m s rep l = Some m' ->
  inv f m' /\ closures m `prefix_of` closures m' /\ (rep = false -> m_sessions m' !! sess_id s = None).
Proof.
  intros I E. unfold on_expire in E. destruct (do_cmds m l) as [m1|] eqn:D; [| done]. injection E as <-.
  destruct (do_cmds_inv _ _ _ _ I D) as [I1 P1]. destruct rep; [done |].
  split; [by apply del_session_inv |].
  destruct (del_session_spec m1 (sess_id s)) as (ok & m2 & -> & Ec & Es & _). simpl. rewrite Ec, Es.
  split; [done |]. intros _. apply lookup_delete_eq.
Qed.

Lemma fire_begin_inv m gid t s cb :
  inv None m -> Timers.m_timers (timers (m_timers m)) !! gid = Some t -> t_callback t = Some cb ->
  closures m !! Z.to_nat cb = Some s ->
  inv (Some (gid.2, s)) (mk (mk_world (timers (fire_begin (m_timers m) gid)) (reads (m_timers m))
                               (calls (m_timers m) ++ [(gid, t)])) (m_sessions m) (closures m)) /\
  t_id t = gid.2.
Proof.
  intros [C L Cl S _] E B Sx. destruct (fire_begin_consistent _ gid t C E) as (C0 & A0 & Et & R).
  split; [| done]. split; simpl; try done.
  - intros g x [_ X]%lookup_delete_Some. by eapply Cl.
  - intros k tm X. destruct (S _ _ X) as [K [(g & x & cb' & Q & G & B' & S')|]]; [| done]. split; [done |].
    destruct (decide (g = gid)) as [->|N].
    + right. simplify_eq. by rewrite G.
    + left. exists g, x, cb'. simpl. by rewrite lookup_delete_ne.
  - intros j s' [= <- <-]. split; [done | lia].
Qed.

Lemma fire_inv m gid t l m' :
  inv None m -> Timers.m_timers (timers (m_timers m)) !! gid = Some t -> fire m gid t l = Some m' ->
  (t_repeat_time t = 0 -> no_alias gid (timers (m_timers m'))) -> inv None m'.
Proof.
  intros I E F NA. unfold fire in F. destruct (inv_closures _ _ I _ _ E) as (cb & s & B & Sx).
  rewrite B in F. simpl in F. rewrite Sx in F. simpl in F.
  destruct (fire_begin_inv m gid t s cb I E B Sx) as [I0 Et]. simpl in I0.
  destruct (on_expire _ _ _ _) as [m1|] eqn:X; [| done]. injection F as <-.
  destruct (on_expire_inv _ _ _ _ _ _ I0 X) as ([C L Cl S Fi] & P & Gone). simpl in P.
  destruct (Fi _ _ eq_refl) as [A R]. simpl in NA.
  destruct (fire_end_consistent clock (m_timers m1) gid t C A Et R) as [C' L'].
  { intros R0 k Xk. apply NA; [done |]. unfold fire_end. by rewrite R0. }
  assert (Sx1 : closures m1 !! Z.to_nat cb = Some s) by (by eapply prefix_lookup_Some).
  split; simpl; try done.
  - by rewrite L'.
  - intros g x Q. unfold fire_end in Q. destruct (negb _); simpl in Q; [| by eapply Cl].
    apply lookup_insert_Some in Q as [[_ <-]|[_ Q]]; [by exists cb, s | by eapply Cl].
  - intros k tm Xk. destruct (S _ _ Xk) as [K D]. split; [done |]. left.
    destruct D as [(g & x & cb' & Q & G & B' & S') | [= G Es]].
    + exists g, x, cb'. simpl. split_and!; [by apply fire_end_keeps | done..].
    + destruct (Z.eqb_spec (t_repeat_time t) 0) as [R0|R0]; simpl in Gone.
      { rewrite Es, K in Gone. rewrite Gone in Xk; done. }
      eexists _, t, cb. simpl. unfold fire_end. rewrite (proj2 (Z.eqb_neq _ _) R0). simpl.
      split_and!; [apply lookup_insert_eq | done | done | by rewrite <- Es].
Qed.

(** The states of the manager between the rounds of its queue; as for the
    queue itself, the due time of a one-shot timer is not the id of a timer
    that is queued then. *)
Inductive sreach : SessionMgr -> Prop :=
| sreach_init r : sreach (init r)
| sreach_cmd m c m' : sreach m -> do_cmd m c = Some m' -> sreach m'
| sreach_fire m gid t l m' :
    sreach m -> map_begin (Timers.m_timers (timers (m_timers m))) = Some (gid, t) ->
    fire m gid t l = Some m' ->
    (t_repeat_time t = 0 -> no_alias gid (timers (m_timers m'))) -> sreach m'.

Lemma sreach_inv m : sreach m -> inv None m.
Proof.
  induction 1 as [r | m c m' _ I E | m gid t l m' _ I B F NA].
  - apply inv_init.
  - apply (do_cmds_inv None [c] m); [done |]. simpl. by rewrite E.
  - apply map_begin_Some in B as [B _]. by eapply fire_inv.
Qed.

(** ** Properties *)

(** C33: every session that can be looked up has a timer of its own in the
    queue, so none is kept for ever; whatever [on_timeout] does, a session
    added without repetition is gone from the table when that timer has
    fired. *)
Theorem session_expires m k tm :
  sreach m -> m_sessions m !! k = Some tm ->
  exists gid t, Timers.m_timers (timers (m_timers m)) !! gid = Some t /\ gid.2 = timer_id tm /\
    (forall k' tm', m_sessions m !! k' = Some tm' -> timer_id tm' = gid.2 -> k' = k) /\
    forall l m', fire m gid t l = Some m' -> t_repeat_time t = 0 -> get_session m' k = None.
Proof.
  intros I%sreach_inv E. destruct (inv_sessions _ _ I _ _ E) as [K [(gid & t & cb & Q & G & B & Sx)|]]; [| done].
  exists gid, t. split_and!; [done | done | |].
  - intros k' tm' E' T. eapply (inv_timer_unique None m k' k tm' tm); [done.. | congruence].
  - intros l m' F R. unfold fire in F. rewrite B in F. simpl in F. rewrite Sx in F. simpl in F.
    destruct (fire_begin_inv m gid t _ cb I Q B Sx) as [I0 _]. simpl in I0.
    destruct (on_expire _ _ _ _) as [m1|] eqn:X; [| done]. injection F as <-.
    destruct (on_expire_inv _ _ _ _ _ _ I0 X) as (_ & _ & Gone). rewrite R in Gone.
    unfold get_session. simpl. rewrite K in Gone. by rewrite Gone.
Qed.

(** A repeating session that deletes itself in its own [on_timeout] is
    taken out of the table, but its timer is queued again: the session goes on
    being called, and the manager can no longer delete it. *)
Theorem session_self_delete_leaves_timer m k tm gid t m' :
  sreach m -> m_sessions m !! k = Some tm -> Timers.m_timers (timers (m_timers m)) !! gid = Some t ->
  gid.2 = timer_id tm -> t_repeat_time t <> 0 -> fire m gid t [CDel k] = Some m' ->
  get_session m' k = None /\ del_session m' k = (false, m') /\
  exists due cb, Timers.m_timers (timers (m_timers m')) !! (due, gid.2) = Some t /\
    t_callback t = Some cb /\ closures m' !! Z.to_nat cb = Some (session tm).
Proof.
  intros I%sreach_inv E Q G R F.
  destruct (inv_sessions _ _ I _ _ E) as [K [(gid2 & t2 & cb & Q2 & G2 & B & Sx)|]]; [| done].
  assert (gid2 = gid) as ->.
  { pose proof (inv_timers _ _ I) as [C _]. destruct (C _ _ Q) as [X _], (C _ _ Q2) as [X2 _].
    rewrite G in X. rewrite G2 in X2. congruence. }
  simplify_eq. unfold fire in F. rewrite B in F. simpl in F. rewrite Sx in F. simpl in F.
  unfold on_expire in F. cbn [do_cmds do_cmd mbind option_bind] in F.
  rewrite (proj2 (Z.eqb_neq _ _) R) in F. cbn [negb] in F.
  set (m0 := mk (mk_world _ _ _) _ _) in F.
  destruct (del_session_spec m0 (sess_id (session tm))) as (ok & m1 & E1 & Ec & Es & _).
  rewrite E1 in F. injection F as <-.
  unfold get_session, del_session. simpl. rewrite Es, lookup_delete_eq. split_and!; [done | done |].
  eexists _, cb. unfold fire_end. rewrite (proj2 (Z.eqb_neq _ _) R). simpl.
  split_and!; [apply lookup_insert_eq | done | by rewrite Ec].
Qed.

End mgr.

(** ** Witnesses *)

Definition alice : Session := mk_session 1 7 "alice".
Definition bob : Session := mk_session 2 7 "bob".

(** One session that expires once and one that repeats. *)
Definition with_alice : SessionMgr := default (init 0) (do_cmd (ticking 1000) (init 0) (CAdd alice 5000 0)).
Definition with_both : SessionMgr := default (init 0) (do_cmd (ticking 1000) with_alice (CAdd bob 100 100)).

Lemma with_both_reachable : sreach (ticking 1000) with_both.
Proof.
  apply (sreach_cmd _ with_alice (CAdd bob 100 100)); [| vm_compute; reflexivity].
  apply (sreach_cmd _ (init 0) (CAdd alice 5000 0)); [apply sreach_init | vm_compute; reflexivity].
Qed.

Lemma session_expires_witness :
  exists gid t, Timers.m_timers (timers (m_timers with_both)) !! gid = Some t /\ gid.2 = 1 /\
    (forall k' tm', m_sessions with_both !! k' = Some tm' -> timer_id tm' = gid.2 -> k' = "alice") /\
    forall l m', fire (ticking 1000) with_both gid t l = Some m' -> t_repeat_time t = 0 ->
      get_session m' "alice" = None.
Proof.
  apply (session_expires (ticking 1000) with_both "alice" (mk_tm 1 alice));
    [exact with_both_reachable | vm_compute; reflexivity].
Defined.

Definition bob_timer : Timer := mk_timer 2 100 100 0 (Some 1).

(** [bob] deletes himself when his time is over. *)
Definition bob_gone : SessionMgr :=
  default (init 0) (fire (ticking 1000) with_both (1101, 2) bob_timer [CDel "bob"]).

Lemma session_self_delete_leaves_timer_witness :
  get_session bob_gone "bob" = None /\ del_session bob_gone "bob" = (false, bob_gone) /\
  exists due cb, Timers.m_timers (timers (m_timers bob_gone)) !! (due, 2) = Some bob_timer /\
    t_callback bob_timer = Some cb /\ closures bob_gone !! Z.to_nat cb = Some bob.
Proof.
  apply (session_self_delete_leaves_timer (ticking 1000) with_both "bob" (mk_tm 2 bob) (1101, 2) bob_timer bob_gone);
    [exact with_both_reachable | vm_compute; reflexivity | vm_compute; reflexivity | reflexivity | discriminate
    | vm_compute; reflexivity].
Defined.

End Session.
