(* ===== verification/Coroutines.v ===== *)
(** * Coroutines: the pool of coroutines

    Model of [coroutines.h] and [coroutines.cpp].  A coroutine object is known
    by its address; [co_pfn] has the objects that are allocated and the
    function each of them runs, so a use after [co_release] and a second
    [co_release] are the value [None].  The address [co_create] returns is an
    argument.  [co_resume] runs the function of the coroutine: what it does to
    the pool are later operations. *)

From S2P Require Import Prelude Timers.
Import Timers.

#[local] Open Scope Z_scope.

Module Coroutines.

Definition FREE_CO_MAX_CNT_ONCE : nat := 1000.
Definition MAX_CO_CNT : Z := 100000.

Record Coroutines := mk {
  m_is_exit : bool;
  m_max_co_cnt : Z;
  m_cronloops : Z;
  m_work_coroutines : gset Z;
  m_free_coroutines : list Z;
  co_pfn : gmap Z (option Z);
}.

Definition new : Coroutines := mk false MAX_CO_CNT 1 ∅ [] ∅.

Definition set_max_co_cnt (s : Coroutines) (cnt : Z) : Coroutines :=
  mk (m_is_exit s) cnt (m_cronloops s) (m_work_coroutines s) (m_free_coroutines s) (co_pfn s).
Definition exit_libco (s : Coroutines) : Coroutines :=
  mk true (m_max_co_cnt s) (m_cronloops s) (m_work_coroutines s) (m_free_coroutines s) (co_pfn s).
Definition set_pool (s : Coroutines) (work : gset Z) (free : list Z) (pfn : gmap Z (option Z)) : Coroutines :=
  mk (m_is_exit s) (m_max_co_cnt s) (m_cronloops s) work free pfn.

(** The event loop goes on as long as its check answers 0. *)
Definition run_check (s : Coroutines) : Z := if m_is_exit s then -1 else 0.

(** [co->pfn = fn] *)
Definition store_pfn (pfn : gmap Z (option Z)) (co : Z) (fn : option Z) : option (gmap Z (option Z)) :=
  match pfn !! co with Some _ => Some (<[co:=fn]> pfn) | None => None end.

(** The result is null or the coroutine that was resumed. *)
Definition start_co (s : Coroutines) (fn : option Z) (fresh : Z) : option (option Z * Coroutines) :=
  match fn with
  | None => Some (None, s)
  | Some _ =>
      if m_max_co_cnt s <? i32 (Z.of_nat (size (m_work_coroutines s))) then Some (None, s) else
      match m_free_coroutines s with
      | [] => Some (Some fresh, set_pool s ({[fresh]} ∪ m_work_coroutines s) [] (<[fresh:=fn]> (co_pfn s)))
      | co :: free =>
          pfn ← store_pfn (co_pfn s) co fn;
          Some (Some co, set_pool s (m_work_coroutines s) free pfn)
      end
  end.

Definition add_free_co (s : Coroutines) (co : option Z) : option (bool * Coroutines) :=
  match co with
  | None => Some (false, s)
  | Some co =>
      if bool_decide (co ∈ m_work_coroutines s) then
        pfn ← store_pfn (co_pfn s) co None;
        Some (true, set_pool s (m_work_coroutines s ∖ {[co]}) (m_free_coroutines s ++ [co]) pfn)
      else Some (false, s)
  end.

Definition co_release (pfn : gmap Z (option Z)) (co : Z) : option (gmap Z (option Z)) :=
  match pfn !! co with Some _ => Some (delete co pfn) | None => None end.

(** [while (!m_free_coroutines.empty() && i++ < n)] *)
Fixpoint release_loop (n : nat) (free : list Z) (pfn : gmap Z (option Z))
  : option (list Z * gmap Z (option Z)) :=
  match n, free with
  | S n, co :: free => pfn ← co_release pfn co; release_loop n free pfn
  | _, _ => Some (free, pfn)
  end.

Definition on_repeat_timer (s : Coroutines) : option Coroutines :=
  hit ← run_with_period DEFAULT_TIMER_RATE (m_cronloops s) 1000;
  if (hit : bool) then
    '(free, pfn) ← release_loop FREE_CO_MAX_CNT_ONCE (m_free_coroutines s) (co_pfn s);
    Some (set_pool s (m_work_coroutines s) free pfn)
  else Some s.

Definition on_timer (s : Coroutines) : option Coroutines :=
  s ← on_repeat_timer s;
  if m_cronloops s =? INT_MAX then None
  else Some (mk (m_is_exit s) (m_max_co_cnt s) (m_cronloops s + 1) (m_work_coroutines s) (m_free_coroutines s) (co_pfn s)).

Fixpoint release_all (l : list Z) (pfn : gmap Z (option Z)) : option (gmap Z (option Z)) :=
  match l with
  | [] => Some pfn
  | co :: l => pfn ← co_release pfn co; release_all l pfn
  end.

(** [clear], the part of [destroy] that is about coroutines. *)
Definition clear (s : Coroutines) : option Coroutines :=
  pfn ← release_all (m_free_coroutines s) (co_pfn s);
  pfn ← release_all (elements (m_work_coroutines s)) pfn;
  Some (set_pool s ∅ [] pfn).

(** ** The life of the pool *)

Inductive op := OStart (fn : option Z) (fresh : Z) | OFree (co : option Z) | OTimer | OClear
  | OExit | OMax (cnt : Z).

Definition step (s : Coroutines) (o : op) : option Coroutines :=
  match o with
  | OStart fn fresh => snd <$> start_co s fn fresh
  | OFree co => snd <$> add_free_co s co
  | OTimer => on_timer s
  | OClear => clear s
  | OExit => Some (exit_libco s)
  | OMax cnt => Some (set_max_co_cnt s cnt)
  end.

(** What the environment guarantees: the allocator returns fresh objects, the
    cron counter does not overflow. *)
Definition op_ok (s : Coroutines) (o : op) : Prop :=
  match o with
  | OStart _ fresh => co_pfn s !! fresh = None
  | OTimer => m_cronloops s < INT_MAX
  | _ => True
  end.

Inductive reachable : Coroutines -> Prop :=
| reach_new : reachable new
| reach_step s o s' : reachable s -> op_ok s o -> step s o = Some s' -> reachable s'.

(** The pool: working and free coroutines are allocated, and none is both. *)
Record inv (s : Coroutines) : Prop := mk_inv {
  inv_disjoint co : co ∈ m_free_coroutines s -> co ∉ m_work_coroutines s;
  inv_nodup : NoDup (m_free_coroutines s);
  inv_free co : co ∈ m_free_coroutines s -> is_Some (co_pfn s !! co);
  inv_work co : co ∈ m_work_coroutines s -> is_Some (co_pfn s !! co);
}.

Lemma store_pfn_spec pfn co fn :
  is_Some (pfn !! co) -> store_pfn pfn co fn = Some (<[co:=fn]> pfn) /\
    forall x, is_Some (pfn !! x) -> is_Some (<[co:=fn]> pfn !! x).
Proof.
  intros [f E]. unfold store_pfn. rewrite E. split; [done |]. intros x X.
  destruct (decide (x = co)) as [->|]; [rewrite lookup_insert_eq; eauto | by rewrite lookup_insert_ne].
Qed.

Lemma release_loop_spec n free pfn :
  NoDup free -> (forall co, co ∈ free -> is_Some (pfn !! co)) ->
  exists gone left pfn', release_loop n free pfn = Some (left, pfn') /\ free = gone ++ left /\
    length gone = Nat.min n (length free) /\
    forall x, pfn' !! x = if bool_decide (x ∈ gone) then None else pfn !! x.
Proof.
  revert free pfn. induction n as [|n IH]; intros free pfn N A.
  { exists [], free, pfn. by split_and!. }
  destruct free as [|co free]; simpl.
  { exists [], [], pfn. by split_and!. }
  apply NoDup_cons in N as [Nc N]. unfold co_release. destruct (A co) as [f E]; [by left |]. rewrite E. simpl.
  destruct (IH free (delete co pfn) N) as (gone & left & pfn' & -> & -> & L & P).
  { intros x X. rewrite lookup_delete_ne; [apply A; by right |]. by intros ->. }
  exists (co :: gone), left, pfn'. split_and!; [done | done | simpl in *; lia |]. intros x. rewrite P.
  destruct (decide (x = co)) as [->|Nx].
  - rewrite (bool_decide_true (co ∈ co :: gone)) by by left. rewrite lookup_delete_eq. by case_bool_decide.
  - rewrite lookup_delete_ne by done.
    rewrite (bool_decide_ext (x ∈ co :: gone) (x ∈ gone)); [done |]. rewrite elem_of_cons. tauto.
Qed.

Lemma release_all_loop l pfn :
  release_all l pfn = ('(_, pfn) ← release_loop (length l) l pfn; Some pfn).
Proof.
  revert pfn. induction l as [|co l IH]; intros pfn; simpl; [done |].
  destruct (co_release pfn co); simpl; [apply IH | done].
Qed.

Lemma release_all_spec l pfn :
  NoDup l -> (forall co, co ∈ l -> is_Some (pfn !! co)) ->
  exists pfn', release_all l pfn = Some pfn' /\
    forall x, pfn' !! x = if bool_decide (x ∈ l) then None else pfn !! x.
Proof.
  intros N A. rewrite release_all_loop.
  destruct (release_loop_spec (length l) l pfn N A) as (gone & left & pfn' & -> & -> & L & P).
  simpl. exists pfn'. split; [done |]. rewrite length_app in L.
  assert (left = []) as -> by (apply length_zero_iff_nil; lia). intros x. by rewrite P, app_nil_r.
Qed.

Lemma on_repeat_timer_spec s :
  inv s -> exists s', on_repeat_timer s = Some s' /\ inv s' /\ m_work_coroutines s' = m_work_coroutines s /\
    m_cronloops s' = m_cronloops s /\ m_max_co_cnt s' = m_max_co_cnt s /\
    exists gone, m_free_coroutines s = gone ++ m_free_coroutines s'.
Proof.
  intros I. pose proof I as [D N F W]. unfold on_repeat_timer.
  destruct (run_with_period _ _ _) as [hit|] eqn:P; [| unfold run_with_period in P; by vm_compute in P].
  cbn [mbind option_bind]. destruct hit; [| by exists s; split_and!; try done; exists []].
  destruct (release_loop_spec FREE_CO_MAX_CNT_ONCE _ _ N F) as (gone & left & pfn' & -> & E & _ & L).
  simpl. eexists. split; [done |]. simpl. split_and!; try done; [| by exists gone].
  rewrite E in *. apply NoDup_app in N as (_ & N & Nl). split; simpl.
  - intros co X. apply D, elem_of_app. by right.
  - done.
  - intros co X. rewrite L. case_bool_decide as B; [by destruct (N co B) |]. apply F, elem_of_app. by right.
  - intros co X. rewrite L. case_bool_decide as B; [| by apply W].
    destruct (D co); [apply elem_of_app; by left | done].
Qed.

Lemma start_co_inv s fn fresh r s' :
  inv s -> co_pfn s !! fresh = None -> start_co s fn fresh = Some (r, s') -> inv s'.
Proof.
  intros I A E. pose proof I as [D N F W]. unfold start_co in E. destruct fn; [| by simplify_eq].
  destruct (_ <? _); [by simplify_eq |]. destruct (m_free_coroutines s) as [|co free] eqn:Fr.
  - simplify_eq. split; simpl; [by intros ? ?%elem_of_nil | constructor | by intros ? ?%elem_of_nil |]. intros co [->%elem_of_singleton|X]%elem_of_union.
    + rewrite lookup_insert_eq. eauto.
    + rewrite lookup_insert_ne; [by apply W |]. intros ->. apply W in X as [? X]. congruence.
  - destruct (store_pfn_spec (co_pfn s) co (Some z)) as [Es K]; [apply F; by left |].
    rewrite Es in E. simplify_eq/=. apply NoDup_cons in N as [Nc N]. split; simpl; try done.
    + intros x X. apply D. by right.
    + intros x X. apply K, F. by right.
    + intros x X. by apply K, W.
Qed.

Lemma add_free_co_inv s co : inv s -> exists r s', add_free_co s co = Some (r, s') /\ inv s'.
Proof.
  intros I. pose proof I as [D N F W]. unfold add_free_co. destruct co as [co|]; [| eauto].
  case_bool_decide as B; [| eauto].
  destruct (store_pfn_spec (co_pfn s) co None (W _ B)) as [-> K]. simpl. eexists _, _. split; [done |].
  split; simpl.
  - intros x X. rewrite not_elem_of_difference, elem_of_singleton. apply elem_of_app in X as [X|X].
    + left. by apply D.
    + right. by apply list_elem_of_singleton in X.
  - apply NoDup_app. split_and!; [done | | apply NoDup_singleton]. intros x X ->%list_elem_of_singleton. by apply (D co).
  - intros x [X| ->%list_elem_of_singleton]%elem_of_app; [by apply K, F | by apply K, W].
  - intros x [X _]%elem_of_difference. by apply K, W.
Qed.

Lemma clear_spec s :
  inv s -> exists s', clear s = Some s' /\ inv s' /\
    (forall co, co ∈ m_free_coroutines s \/ co ∈ m_work_coroutines s -> co_pfn s' !! co = None) /\
    m_work_coroutines s' = ∅ /\ m_free_coroutines s' = [].
Proof.
  intros [D N F W]. unfold clear.
  destruct (release_all_spec _ _ N F) as (p1 & -> & P1). simpl.
  destruct (release_all_spec (elements (m_work_coroutines s)) p1) as (p2 & -> & P2).
  { apply NoDup_elements. }
  { intros co X%elem_of_elements. rewrite P1. case_bool_decide as B; [by destruct (D co) | by apply W]. }
  simpl. eexists. split; [done |]. simpl. split_and!; try done.
  - split; simpl; try set_solver. constructor.
  - intros co X. rewrite P2. case_bool_decide as B; [done |]. rewrite P1. case_bool_decide; [done |].
    rewrite elem_of_elements in B. tauto.
Qed.

Lemma pool_step_inv s o : inv s -> op_ok s o -> exists s', step s o = Some s' /\ inv s'.
Proof.
  intros I O. destruct o as [fn fresh | co | | | | cnt]; simpl in O; cbn [step].
  - assert (exists r s', start_co s fn fresh = Some (r, s')) as (r & s' & E).
    { unfold start_co. destruct fn; [| eauto]. destruct (_ <? _); [eauto |].
      destruct (m_free_coroutines s) as [|co free] eqn:Fr; [eauto |].
      destruct (store_pfn_spec (co_pfn s) co (Some z)) as [-> _]; [| simpl; eauto].
      apply (inv_free _ I). rewrite Fr. by left. }
    rewrite E. exists s'. split; [done |]. by eapply start_co_inv.
  - destruct (add_free_co_inv s co I) as (r & s' & -> & I'). by exists s'.
  - unfold on_timer. destruct (on_repeat_timer_spec s I) as (s' & -> & [D N F W] & _ & C & _). simpl.
    kcase; [lia |]. eexists. split; [done |]. by split.
  - destruct (clear_spec s I) as (s' & -> & I' & _). by exists s'.
  - eexists. split; [done |]. by destruct I.
  - eexists. split; [done |]. by destruct I.
Qed.

Lemma pool_inv s : reachable s -> inv s.
Proof.
  induction 1 as [| s o s' _ I O E].
  - split; simpl; try set_solver. constructor.
  - destruct (pool_step_inv s o I O) as (? & ? & ?). by simplify_eq.
Qed.

(** ** Properties *)

(** C31: whatever the order of starts, returns, timer runs and clears, no
    coroutine object is used after it was released or released twice, none is
    working and free at the same time, and clearing the pool releases every
    coroutine it knows. *)
Theorem coroutines_pool_safe s o :
  reachable s -> op_ok s o ->
  exists s', step s o = Some s' /\ reachable s' /\
    (forall co, co ∈ m_free_coroutines s' -> (co ∉ m_work_coroutines s') /\ is_Some (co_pfn s' !! co)) /\
    (o = OClear -> forall co, co ∈ m_free_coroutines s \/ co ∈ m_work_coroutines s -> co_pfn s' !! co = None).
Proof.
  intros R O. pose proof (pool_inv s R) as I. destruct (pool_step_inv s o I O) as (s' & E & I').
  exists s'. split_and!; [done | by eapply reach_step | |].
  - intros co X. split; [by apply (inv_disjoint _ I') | by apply (inv_free _ I')].
  - intros ->. destruct (clear_spec s I) as (s2 & E2 & _ & P & _). simpl in E. by simplify_eq.
Qed.

(** A coroutine can be reused once only.  [start_co] takes it from the
    free list without entering it into the working set, so when it is done
    [add_free_co] refuses it: the object is in neither container and nothing
    releases it any more, not even [clear]. *)
Theorem coroutines_reused_once s fn co free :
  reachable s -> m_free_coroutines s = co :: free ->
  Z.of_nat (size (m_work_coroutines s)) <= m_max_co_cnt s <= INT_MAX ->
  exists s', start_co s (Some fn) 0 = Some (Some co, s') /\
    add_free_co s' (Some co) = Some (false, s') /\
    exists s'', clear s' = Some s'' /\ is_Some (co_pfn s'' !! co).
Proof.
  intros I%pool_inv Fr M. unfold start_co, INT_MAX in *. rewrite i32_small by lia. kcase; [lia |].
  rewrite Fr. destruct (store_pfn_spec (co_pfn s) co (Some fn)) as [-> K].
  { apply (inv_free _ I). rewrite Fr. by left. }
  simpl. eexists. split; [done |].
  assert (Nw : co ∉ m_work_coroutines s) by (apply (inv_disjoint _ I); rewrite Fr; by left).
  split; [simpl; by rewrite bool_decide_false |].
  pose proof (inv_nodup _ I) as N. rewrite Fr in N. apply NoDup_cons in N as [Nc N].
  unfold clear. simpl. destruct (release_all_spec free (<[co:=Some fn]> (co_pfn s)) N) as (p1 & -> & P1).
  { intros x X. apply K, (inv_free _ I). rewrite Fr. by right. }
  simpl. destruct (release_all_spec (elements (m_work_coroutines s)) p1) as (p2 & -> & P2).
  { apply NoDup_elements. }
  { intros x X%elem_of_elements. rewrite P1. case_bool_decide as B; [| by apply K, (inv_work _ I)].
    destruct (inv_disjoint _ I x); [rewrite Fr; by right | done]. }
  simpl. eexists. split; [done |]. simpl. rewrite P2, bool_decide_false by (by rewrite elem_of_elements).
  rewrite P1, bool_decide_false by done. rewrite lookup_insert_eq. eauto.
Qed.

(** ** Witnesses *)

(** A coroutine at address 100 has been started and has ended. *)
Definition one_free : Coroutines :=
  default new (s ← step new (OStart (Some 1) 100); step s (OFree (Some 100))).

Lemma one_free_reachable : reachable one_free.
Proof.
  apply (reach_step (default new (step new (OStart (Some 1) 100))) (OFree (Some 100)));
    [| done | vm_compute; reflexivity].
  apply (reach_step new (OStart (Some 1) 100)); [apply reach_new | done | vm_compute; reflexivity].
Qed.

Lemma coroutines_pool_safe_witness :
  exists s', step one_free OClear = Some s' /\ reachable s' /\
    (forall co, co ∈ m_free_coroutines s' -> (co ∉ m_work_coroutines s') /\ is_Some (co_pfn s' !! co)) /\
    (OClear = OClear -> forall co, co ∈ m_free_coroutines one_free \/ co ∈ m_work_coroutines one_free ->
       co_pfn s' !! co = None).
Proof. exact (coroutines_pool_safe one_free OClear one_free_reachable I). Defined.

Lemma coroutines_reused_once_witness :
  exists s', start_co one_free (Some 2) 0 = Some (Some 100, s') /\
    add_free_co s' (Some 100) = Some (false, s') /\
    exists s'', clear s' = Some s'' /\ is_Some (co_pfn s'' !! 100).
Proof.
  apply (coroutines_reused_once one_free 2 100 []);
    [exact one_free_reachable | vm_compute; reflexivity | split; vm_compute; discriminate].
Defined.

End Coroutines.
