(* ===== verification/WorkerDataMgr.v ===== *)
(** * WorkerDataMgr: the manager's table of worker processes

    Model of [worker_data_mgr.h] and [worker_data_mgr.cpp], with the message
    [Payload].  The table owns its records through raw pointers: [heap] has
    the records that are allocated, and a read through a pointer that was
    deleted is the value [None].  [m_workers] is the list of its entries in
    iteration order; where the library puts a new entry (a rehash may permute
    all of them) is a parameter.  [m_itr_worker] is a position of that list. *)

From S2P Require Import Prelude Proto.

#[local] Open Scope Z_scope.

(** The iteration order of an [unordered_map] after an insertion. *)
Class HashOrder := rehash : list (Z * Z) -> list (Z * Z).
Class HashOrderSpec `{HashOrder} : Prop := rehash_perm l : rehash l ≡ₚ l.

Module WorkerDataMgr.

Record Payload := mk_payload {
  worker_index : Z;
  conn_cnt : Z;
  cmd_cnt : Z;
  read_cnt : Z;
  read_bytes : Z;
  write_cnt : Z;
  write_bytes : Z;
  create_time : Z;
}.

Definition payload_default : Payload := mk_payload 0 0 0 0 0 0 0 0.

Record worker_info_t := mk_info {
  pid : Z;
  index : Z;
  fctrl : Pb.fd_t;
  fdata : Pb.fd_t;
  work_path : string;
  payload : Payload;
}.

Record WorkerDataMgr := mk {
  heap : gmap Z worker_info_t;
  m_workers : list (Z * Z);
  m_itr_worker : nat;
  m_index_workers : gmap Z Z;
}.

Definition new : WorkerDataMgr := mk ∅ [] 0 ∅.

(** [m_workers.find(pid)] *)
Definition find (l : list (Z * Z)) (pid : Z) : option Z := snd <$> List.find (fun p => p.1 =? pid) l.

Definition erase (l : list (Z * Z)) (pid : Z) : list (Z * Z) := filter (fun p => p.1 <> pid) l.

Definition del_worker_info (s : WorkerDataMgr) (pid : Z) : option (bool * WorkerDataMgr) :=
  match find (m_workers s) pid with
  | None => Some (false, s)
  | Some p =>
      info ← heap s !! p;
      let index_workers := delete (index info) (m_index_workers s) in
      Some (true, mk (delete p (heap s)) (erase (m_workers s) pid) 0 index_workers)
  end.

Section order.
Context `{HashOrder}.

(** [p] is the address the allocator returns for the new record. *)
Definition add_worker_info (s : WorkerDataMgr) (index pid : Z) (fctrl fdata : Pb.fd_t) (p : Z)
  : option (bool * WorkerDataMgr) :=
  '(_, s) ← (match find (m_workers s) pid with
             | Some _ => del_worker_info s pid
             | None => Some (false, s)
             end);
  let info := mk_info pid index fctrl fdata "" payload_default in
  Some (true, mk (<[p:=info]> (heap s)) (rehash ((pid, p) :: m_workers s)) 0
                 (<[index:=p]> (m_index_workers s))).

Definition get_worker_info_by_pid (s : WorkerDataMgr) (pid : Z) : option Z := find (m_workers s) pid.
Definition get_worker_info_by_index (s : WorkerDataMgr) (i : Z) : option Z := m_index_workers s !! i.
Definition get_infos (s : WorkerDataMgr) : list (Z * Z) := m_workers s.

Definition get_worker_index (s : WorkerDataMgr) (pid : Z) : option Z :=
  match find (m_workers s) pid with
  | Some p => index <$> heap s !! p
  | None => Some (-1)
  end.

Definition get_worker_data_fd (s : WorkerDataMgr) (i : Z) : option Z :=
  match m_index_workers s !! i with
  | Some p => (fun info => Pb.fd (fdata info)) <$> heap s !! p
  | None => Some (-1)
  end.

(** [None] inside is the answer [false]. *)
Definition get_worker_channel (s : WorkerDataMgr) (pid : Z) : option (option (Z * Z)) :=
  match find (m_workers s) pid with
  | Some p => info ← heap s !! p; Some (Some (Pb.fd (fctrl info), Pb.fd (fdata info)))
  | None => Some None
  end.

(** Incrementing or reading [end()] is undefined. *)
Definition get_next_worker_data_fd (s : WorkerDataMgr) : option (Z * WorkerDataMgr) :=
  match m_workers s with
  | [] => Some (-1, s)
  | _ =>
      if bool_decide (m_itr_worker s < length (m_workers s))%nat then
        let itr := S (m_itr_worker s) in
        let itr := if bool_decide (itr = length (m_workers s)) then O else itr in
        '(_, p) ← m_workers s !! itr;
        info ← heap s !! p;
        Some (Pb.fd (fdata info), mk (heap s) (m_workers s) itr (m_index_workers s))
      else None
  end.

(** A record's payload is replaced through its pointer. *)
Definition set_payload (s : WorkerDataMgr) (p : Z) (pl : Payload) : option WorkerDataMgr :=
  info ← heap s !! p;
  Some (mk (<[p := mk_info (pid info) (index info) (fctrl info) (fdata info) (work_path info) pl]> (heap s))
           (m_workers s) (m_itr_worker s) (m_index_workers s)).

(** ** The invariant *)

Record inv (s : WorkerDataMgr) : Prop := mk_inv {
  inv_pids : NoDup (m_workers s).*1;
  inv_workers pd p : (pd, p) ∈ m_workers s -> exists info, heap s !! p = Some info /\ pid info = pd;
  inv_index i p : m_index_workers s !! i = Some p ->
    exists info, heap s !! p = Some info /\ index info = i /\ (pid info, p) ∈ m_workers s;
  inv_itr : (m_itr_worker s < length (m_workers s))%nat \/ m_itr_worker s = O;
}.

Lemma workers_new_inv : inv new.
Proof. split; simpl; [constructor | by intros ? ? ?%elem_of_nil | done | by right]. Qed.

Lemma find_Some l pd p : NoDup l.*1 -> find l pd = Some p <-> (pd, p) ∈ l.
Proof.
  unfold find. induction l as [|[q x] l IH]; simpl; [intros _; split; [done | by intros ?%elem_of_nil] |].
  intros [Nq N]%NoDup_cons. destruct (Z.eqb_spec q pd) as [->|Nqd]; simpl.
  - rewrite elem_of_cons. split; [intros [= ->]; by left |]. intros [[= ->]|X]; [done |].
    destruct Nq. apply list_elem_of_fmap. by exists (pd, p).
  - rewrite IH, elem_of_cons by done. split; [by right |]. intros [[= -> ->]|]; done.
Qed.

Lemma find_None l pd : find l pd = None <-> pd ∉ l.*1.
Proof.
  unfold find. induction l as [|[q x] l IH]; simpl; [split; [intros _; apply not_elem_of_nil | done] |].
  destruct (Z.eqb_spec q pd) as [->|N]; simpl.
  - split; [done |]. intros X. destruct X. by left.
  - rewrite IH, not_elem_of_cons. split; [by intros X; split | tauto].
Qed.

Lemma elem_of_erase l pd q p : (q, p) ∈ erase l pd <-> (q, p) ∈ l /\ q <> pd.
Proof. unfold erase. rewrite list_elem_of_filter. simpl. tauto. Qed.

Lemma NoDup_erase l pd : NoDup l.*1 -> NoDup (erase l pd).*1 /\ pd ∉ (erase l pd).*1.
Proof.
  intros N. split.
  - unfold erase. induction l as [|[q x] l IH]; simpl; [done |]. apply NoDup_cons in N as [Nq N].
    rewrite filter_cons. simpl. case_decide; [| by apply IH]. simpl. apply NoDup_cons. split; [| by apply IH].
    intros ([q' y] & -> & [_ X]%list_elem_of_filter)%list_elem_of_fmap. apply Nq, list_elem_of_fmap. by exists (q', y).
  - intros ([q y] & -> & [X _]%list_elem_of_filter)%list_elem_of_fmap. done.
Qed.

Lemma del_worker_info_spec s pd :
  inv s -> exists ok s', del_worker_info s pd = Some (ok, s') /\ inv s' /\ find (m_workers s') pd = None /\
    (forall q, q <> pd -> forall p, (q, p) ∈ m_workers s' <-> (q, p) ∈ m_workers s).
Proof.
  intros I. pose proof I as [N W X T]. unfold del_worker_info.
  destruct (find (m_workers s) pd) as [p|] eqn:F; [| by exists false, s].
  apply find_Some in F; [| done]. destruct (W _ _ F) as (info & Hp & Pi). rewrite Hp. simpl.
  destruct (NoDup_erase (m_workers s) pd N) as [N' Np].
  eexists _, _. split; [done |]. simpl. split_and!; [| by apply find_None | intros; rewrite elem_of_erase; tauto].
  split; simpl; [done | | | by right].
  - intros q x [Q Nq]%elem_of_erase. destruct (W _ _ Q) as (i2 & H2 & P2). exists i2. split; [| done].
    rewrite lookup_delete_ne; [done |]. intros ->. congruence.
  - intros i x Y. apply lookup_delete_Some in Y as [Ni Y]. destruct (X _ _ Y) as (i2 & H2 & I2 & M2).
    assert (x <> p) by (intros ->; congruence). exists i2. rewrite lookup_delete_ne by done.
    split_and!; [done | done |]. apply elem_of_erase. split; [done |]. intros Ep. rewrite Ep in M2.
    apply (find_Some _ _ _ N) in M2, F. congruence.
Qed.

Context `{!HashOrderSpec}.

Lemma add_worker_info_spec s i pd fc fd p :
  inv s -> heap s !! p = None ->
  exists s', add_worker_info s i pd fc fd p = Some (true, s') /\ inv s' /\
    find (m_workers s') pd = Some p /\ m_index_workers s' !! i = Some p /\
    heap s' !! p = Some (mk_info pd i fc fd "" payload_default).
Proof.
  intros I F. unfold add_worker_info.
  assert (exists ok s1, (match find (m_workers s) pd with
                         | Some _ => del_worker_info s pd
                         | None => Some (false, s)
                         end) = Some (ok, s1) /\ inv s1 /\ find (m_workers s1) pd = None /\ heap s1 !! p = None)
    as (ok & s1 & -> & [N W X T] & Fp & Fr).
  { destruct (find (m_workers s) pd) as [q|] eqn:E; [| by exists false, s].
    destruct (del_worker_info_spec s pd I) as (ok & s1 & D & I1 & F1 & _). exists ok, s1. split_and!; try done.
    unfold del_worker_info in D. rewrite E in D. destruct (heap s !! q); [| done]. simpl in D. injection D as _ <-.
    simpl. apply lookup_delete_None. by right. }
  simpl. apply find_None in Fp. eexists. split; [done |]. simpl.
  assert (P : forall q x, (q, x) ∈ rehash ((pd, p) :: m_workers s1) <-> (q, x) = (pd, p) \/ (q, x) ∈ m_workers s1)
    by (intros q x; by rewrite (rehash_perm (_ :: _)), elem_of_cons).
  assert (N' : NoDup (rehash ((pd, p) :: m_workers s1)).*1)
    by (rewrite (rehash_perm (_ :: _)); by apply NoDup_cons).
  split_and!; [| apply find_Some; [done |]; apply P; by left | apply lookup_insert_eq | apply lookup_insert_eq].
  split; simpl; [done | | |].
  - intros q x [[= -> ->]|Q]%P; [rewrite lookup_insert_eq; eauto |].
    destruct (W _ _ Q) as (info & Hx & ?). rewrite lookup_insert_ne; [eauto |]. intros ->. congruence.
  - intros j x Y. apply lookup_insert_Some in Y as [[<- <-]|[_ Y]].
    + rewrite lookup_insert_eq. eexists. split_and!; [done | done |]. apply P. by left.
    + destruct (X _ _ Y) as (info & Hx & ? & ?). rewrite lookup_insert_ne; [| by intros ->; congruence].
      exists info. split_and!; [done | done |]. apply P. by right.
  - by right.
Qed.

(** ** The operations *)

Inductive op := OAdd (i pd : Z) (fc fd : Pb.fd_t) (p : Z) | ODel (pd : Z) | ONext | OPayload (p : Z) (pl : Payload).

Definition step (s : WorkerDataMgr) (o : op) : option WorkerDataMgr :=
  match o with
  | OAdd i pd fc fd p => snd <$> add_worker_info s i pd fc fd p
  | ODel pd => snd <$> del_worker_info s pd
  | ONext => snd <$> get_next_worker_data_fd s
  | OPayload p pl => set_payload s p pl
  end.

(** The allocator returns fresh memory; a payload is stored through a pointer
    the table just handed out. *)
Definition op_ok (s : WorkerDataMgr) (o : op) : Prop :=
  match o with
  | OAdd _ _ _ _ p => heap s !! p = None
  | OPayload p _ => exists i, m_index_workers s !! i = Some p
  | _ => True
  end.

Inductive reachable : WorkerDataMgr -> Prop :=
| reach_new : reachable new
| reach_step s o s' : reachable s -> op_ok s o -> step s o = Some s' -> reachable s'.

(** The data fd of the worker at a position. *)
Definition data_fd (s : WorkerDataMgr) (e : Z * Z) : Z :=
  match heap s !! e.2 with Some info => Pb.fd (fdata info) | None => -1 end.

Lemma get_next_spec s :
  inv s -> m_workers s <> [] ->
  let itr := if bool_decide (S (m_itr_worker s) = length (m_workers s)) then O else S (m_itr_worker s) in
  exists e, m_workers s !! itr = Some e /\
    get_next_worker_data_fd s = Some (data_fd s e, mk (heap s) (m_workers s) itr (m_index_workers s)) /\
    (itr < length (m_workers s))%nat.
Proof.
  intros [N W X T] Ne itr.
  assert (L : (m_itr_worker s < length (m_workers s))%nat).
  { destruct T as [|T]; [done |]. rewrite T. destruct (m_workers s); [done | simpl; lia]. }
  assert (L' : (itr < length (m_workers s))%nat) by (unfold itr; case_bool_decide; lia).
  destruct (lookup_lt_is_Some_2 _ _ L') as [[q p] E]. exists (q, p). split_and!; [done | | done].
  assert (G : get_next_worker_data_fd s =
    if bool_decide (m_itr_worker s < length (m_workers s))%nat then
      '(_, p) ← m_workers s !! itr; info ← heap s !! p;
      Some (Pb.fd (fdata info), mk (heap s) (m_workers s) itr (m_index_workers s))
    else None).
  { unfold get_next_worker_data_fd. by destruct (m_workers s). }
  rewrite G, bool_decide_true, E by done. unfold data_fd. simpl.
  apply list_elem_of_lookup_2 in E. destruct (W _ _ E) as (info & -> & _). done.
Qed.

Lemma workers_step_inv s o : inv s -> op_ok s o -> exists s', step s o = Some s' /\ inv s'.
Proof.
  intros I O. destruct o as [i pd fc fd p | pd | | p pl]; cbn [step]; simpl in O.
  - destruct (add_worker_info_spec s i pd fc fd p I O) as (s' & -> & I' & _). by exists s'.
  - destruct (del_worker_info_spec s pd I) as (ok & s' & -> & I' & _). by exists s'.
  - destruct (decide (m_workers s = [])) as [E|E].
    + unfold get_next_worker_data_fd. rewrite E. by exists s.
    + destruct (get_next_spec s I E) as (e & _ & -> & L). eexists. split; [done |].
      destruct I as [N W X T]. split; simpl; try done. by left.
  - destruct O as [i O]. destruct I as [N W X T]. destruct (X _ _ O) as (info & Hp & _).
    unfold set_payload. rewrite Hp. simpl. eexists. split; [done |].
    assert (K : forall q x, heap s !! q = Some x -> exists y,
              <[p := mk_info (pid info) (index info) (fctrl info) (fdata info) (work_path info) pl]> (heap s) !! q = Some y /\
              pid y = pid x /\ index y = index x).
    { intros q x Q. destruct (decide (q = p)) as [->|]; [rewrite lookup_insert_eq | rewrite lookup_insert_ne by done; eauto].
      simplify_eq. eexists. split; [done |]. done. }
    split; simpl; try done.
    + intros q x Q. destruct (W _ _ Q) as (y & Y & ?). destruct (K _ _ Y) as (z & ? & ? & ?). exists z. split; congruence.
    + intros j x Y. destruct (X _ _ Y) as (y & Q & ? & M). destruct (K _ _ Q) as (z & ? & Pz & ?). exists z.
      split_and!; [done | congruence | by rewrite Pz].
Qed.

Lemma workers_inv s : reachable s -> inv s.
Proof.
  induction 1 as [| s o s' _ I O E]; [apply workers_new_inv |].
  destruct (workers_step_inv s o I O) as (? & ? & ?). by simplify_eq.
Qed.

(** The next [n] answers. *)
Fixpoint next_fds (n : nat) (s : WorkerDataMgr) : option (list Z * WorkerDataMgr) :=
  match n with
  | O => Some ([], s)
  | S n => '(fd, s) ← get_next_worker_data_fd s; '(fds, s) ← next_fds n s; Some (fd :: fds, s)
  end.

Definition at_itr (s : WorkerDataMgr) (k : nat) : WorkerDataMgr := mk (heap s) (m_workers s) k (m_index_workers s).

Lemma inv_at_itr s k : inv s -> (k < length (m_workers s))%nat -> inv (at_itr s k).
Proof. intros [N W X T] L. split; simpl; try done. by left. Qed.

(** [n] steps from position [k] that stay within the list. *)
Lemma next_fds_within s n k :
  inv s -> (k + n < length (m_workers s))%nat ->
  next_fds n (at_itr s k) = Some (data_fd s <$> take n (drop (S k) (m_workers s)), at_itr s (k + n)).
Proof.
  intros I. revert k. induction n as [|n IH]; intros k L.
  - simpl. by rewrite Nat.add_0_r.
  - assert (Ne : m_workers (at_itr s k) <> []) by (simpl; intros E; rewrite E in L; simpl in L; lia).
    destruct (get_next_spec (at_itr s k) (inv_at_itr s k I ltac:(lia)) Ne) as (e & E & G & _).
    cbn [next_fds]. rewrite G. simpl in E |- *. rewrite bool_decide_false in E |- * by lia.
    fold (at_itr s (S k)). rewrite IH by lia. simpl. rewrite (drop_S _ _ _ E). simpl.
    do 2 f_equal. unfold at_itr. f_equal. lia.
Qed.

Lemma next_fds_app n1 n2 s :
  next_fds (n1 + n2) s =
  ('(l1, s) ← next_fds n1 s; '(l2, s) ← next_fds n2 s; Some (l1 ++ l2, s)).
Proof.
  revert s. induction n1 as [|n1 IH]; intros s; simpl; [by destruct (next_fds n2 s) as [[]|] |].
  destruct (get_next_worker_data_fd s) as [[fd s1]|]; simpl; [| done]. rewrite IH.
  destruct (next_fds n1 s1) as [[l1 s2]|]; simpl; [| done]. by destruct (next_fds n2 s2) as [[]|].
Qed.

Lemma next_fds_wrap s k :
  inv s -> (S k = length (m_workers s))%nat ->
  get_next_worker_data_fd (at_itr s k) = (e ← m_workers s !! 0%nat; Some (data_fd s e, at_itr s 0)).
Proof.
  intros I L. assert (Ne : m_workers (at_itr s k) <> []) by (simpl; intros E; rewrite E in L; simpl in L; lia).
  destruct (get_next_spec (at_itr s k) (inv_at_itr s k I ltac:(lia)) Ne) as (e & E & -> & _).
  simpl in E |- *. rewrite bool_decide_true in E |- * by lia. by rewrite E.
Qed.

(** ** Properties *)

(** C32: no operation of the table follows a dangling pointer, and the two
    indexes agree with the records: what is found under an index is a record
    with that index, registered under its own pid. *)
Theorem worker_table_safe s o :
  reachable s -> op_ok s o ->
  exists s', step s o = Some s' /\ reachable s' /\
    (forall i p, get_worker_info_by_index s' i = Some p ->
       exists info, heap s' !! p = Some info /\ index info = i /\ get_worker_info_by_pid s' (pid info) = Some p /\
         get_worker_data_fd s' i = Some (Pb.fd (fdata info)) /\ get_worker_index s' (pid info) = Some i).
Proof.
  intros R O. destruct (workers_step_inv s o (workers_inv s R) O) as (s' & E & [N W X T]).
  exists s'. split_and!; [done | by eapply reach_step |]. intros i p G.
  destruct (X _ _ G) as (info & Hp & Ei & M). apply (find_Some _ _ _ N) in M.
  exists info. unfold get_worker_info_by_pid, get_worker_info_by_index, get_worker_data_fd, get_worker_index in *.
  rewrite M, G, Hp. simpl. by rewrite Ei.
Qed.

(** New connections are spread evenly: in as many consecutive calls as
    there are workers, [get_next_worker_data_fd] returns the data channel of
    every worker exactly once and then starts over. *)
Theorem worker_round_robin s :
  reachable s -> m_workers s <> [] ->
  exists fds s', next_fds (length (m_workers s)) s = Some (fds, s') /\
    fds ≡ₚ data_fd s <$> m_workers s /\ s' = s.
Proof.
  intros I%workers_inv Ne. set (k := m_itr_worker s).
  assert (L : (k < length (m_workers s))%nat).
  { destruct (inv_itr _ I) as [|T]; [done |]. unfold k. rewrite T. destruct (m_workers s); [done | simpl; lia]. }
  assert (Es : s = at_itr s k) by (by destruct s).
  set (n := (length (m_workers s) - S k)%nat).
  replace (length (m_workers s)) with (n + (1 + k))%nat by lia.
  assert (G : next_fds (n + (1 + k)) (at_itr s k) =
    Some ((data_fd s <$> take n (drop (S k) (m_workers s))) ++
          (data_fd s <$> take (1 + k) (m_workers s)), at_itr s k)).
  { rewrite next_fds_app, next_fds_within by (done || lia). cbn [mbind option_bind].
    rewrite next_fds_app. cbn [next_fds]. rewrite next_fds_wrap by (done || lia).
    destruct (m_workers s !! 0%nat) as [e|] eqn:E0; [| apply lookup_ge_None in E0; lia].
    cbn [mbind option_bind]. rewrite next_fds_within by (done || lia). cbn [mbind option_bind app].
    destruct (m_workers s); [done |]. by simplify_eq/=. }
  eexists _, _. split; [rewrite Es at 1; exact G |]. split; [| done]. rewrite <- fmap_app. apply fmap_Permutation.
  rewrite take_ge by (rewrite length_drop; lia).
  etrans; [apply Permutation_app_comm |]. by rewrite take_drop.
Qed.

End order.

(** ** Witnesses *)

Definition front : HashOrder := fun l => l.

Lemma front_spec : @HashOrderSpec front.
Proof. intros l. reflexivity. Qed.

#[local] Existing Instance front.

Definition add_op (i pd f p : Z) : op := OAdd i pd (Pb.mk_fd f 1) (Pb.mk_fd (f + 1) 2) p.

(** Three workers. *)
Definition three : WorkerDataMgr :=
  default new (s ← step new (add_op 1 501 10 7000); s ← step s (add_op 2 502 12 7100); step s (add_op 3 503 14 7200)).

Definition two : WorkerDataMgr :=
  default new (s ← step new (add_op 1 501 10 7000); step s (add_op 2 502 12 7100)).

Lemma three_reachable : reachable three.
Proof.
  apply (reach_step two (add_op 3 503 14 7200)); [| vm_compute; reflexivity ..].
  apply (reach_step (default new (step new (add_op 1 501 10 7000))) (add_op 2 502 12 7100)); [| vm_compute; reflexivity ..].
  apply (reach_step new (add_op 1 501 10 7000)); [apply reach_new | vm_compute; reflexivity ..].
Qed.

Lemma worker_table_safe_witness :
  exists s', step three (ODel 502) = Some s' /\ reachable s' /\
    (forall i p, get_worker_info_by_index s' i = Some p ->
       exists info, heap s' !! p = Some info /\ index info = i /\ get_worker_info_by_pid s' (pid info) = Some p /\
         get_worker_data_fd s' i = Some (Pb.fd (fdata info)) /\ get_worker_index s' (pid info) = Some i).
Proof. exact (@worker_table_safe front front_spec three (ODel 502) three_reachable I). Defined.

Lemma worker_round_robin_witness :
  exists fds s', next_fds 3 three = Some (fds, s') /\ fds ≡ₚ data_fd three <$> m_workers three /\ s' = three.
Proof.
  apply (@worker_round_robin front front_spec three three_reachable). vm_compute. discriminate.
Defined.

End WorkerDataMgr.
