(* ===== verification/Effect.v ===== *)
(** * Effect: code that changes state, waits or goes wrong

    The methods of the server are functions of the state of the process.  A
    method returns a value and the new state, or is still waiting for the
    kernel when the fuel of its loop is used up, or runs into undefined
    behaviour. *)

From S2P Require Import Prelude.

Inductive outcome (S A : Type) := Ret (a : A) (s : S) | Block (s : S) | Undef.
Arguments Ret {S A} a s.
Arguments Block {S A} s.
Arguments Undef {S A}.

Definition M (S A : Type) : Type := S -> outcome S A.

#[export] Instance M_ret S : MRet (M S) := fun A a s => Ret a s.
#[export] Instance M_bind S : MBind (M S) := fun A B f m s =>
  match m s with Ret a s' => f a s' | Block s' => Block s' | Undef => Undef end.

Definition get {S} : M S S := fun s => Ret s s.
Definition gets {S A} (f : S -> A) : M S A := fun s => Ret (f s) s.
Definition modify {S} (f : S -> S) : M S unit := fun s => Ret tt (f s).
(** A pointer, a partial operation: nothing there is undefined behaviour. *)
Definition deref {S A} (o : option A) : M S A := fun s =>
  match o with Some a => Ret a s | None => Undef end.
Definition block {S A} : M S A := fun s => Block s.

Lemma bind_ret S A B (m : M S A) (f : A -> M S B) s a s' :
  m s = Ret a s' -> (m ≫= f) s = f a s'.
Proof. unfold mbind, M_bind. by intros ->. Qed.

(** ** Weakest preconditions

    [wp m Q s]: from [s] the method [m] never runs into undefined behaviour,
    and if it returns, its result and the new state satisfy [Q]. *)
Definition wp {S A} (m : M S A) (Q : A -> S -> Prop) (s : S) : Prop :=
  match m s with Ret a s' => Q a s' | Block _ => True | Undef => False end.

Section wp.
Context {S : Type}.

Lemma wp_bind {A B} (m : M S A) (f : A -> M S B) Q s :
  wp m (fun a s' => wp (f a) Q s') s -> wp (m ≫= f) Q s.
Proof. unfold wp, mbind, M_bind. by destruct (m s). Qed.

Lemma wp_mono {A} (m : M S A) (P Q : A -> S -> Prop) s :
  (forall a s', P a s' -> Q a s') -> wp m P s -> wp m Q s.
Proof. unfold wp. intros I. destruct (m s); auto. Qed.

Lemma wp_ret {A} (a : A) (Q : A -> S -> Prop) s : Q a s -> wp (mret a) Q s.
Proof. done. Qed.

Lemma wp_gets {A} (f : S -> A) Q s : Q (f s) s -> wp (gets f) Q s.
Proof. done. Qed.

Lemma wp_get (Q : S -> S -> Prop) s : Q s s -> wp get Q s.
Proof. done. Qed.

Lemma wp_modify f (Q : unit -> S -> Prop) s : Q tt (f s) -> wp (modify f) Q s.
Proof. done. Qed.

Lemma wp_block {A} (Q : A -> S -> Prop) s : wp block Q s.
Proof. done. Qed.

Lemma wp_deref {A} (o : option A) a (Q : A -> S -> Prop) s : o = Some a -> Q a s -> wp (deref o) Q s.
Proof. by intros ->. Qed.

Lemma wp_Ret {A} (m : M S A) Q s a s' : wp m Q s -> m s = Ret a s' -> Q a s'.
Proof. unfold wp. intros W E. by rewrite E in W. Qed.

Lemma wp_returns {A} (m : M S A) (Q : A -> S -> Prop) s a s' : m s = Ret a s' -> Q a s' -> wp m Q s.
Proof. unfold wp. by intros ->. Qed.

End wp.

(** ** Total correctness

    [twp m Q s]: from [s] the method [m] returns, and its result and the new
    state satisfy [Q]. *)
Definition twp {S A} (m : M S A) (Q : A -> S -> Prop) (s : S) : Prop :=
  match m s with Ret a s' => Q a s' | _ => False end.

Section twp.
Context {S : Type}.

Lemma twp_bind {A B} (m : M S A) (f : A -> M S B) Q s :
  twp m (fun a s' => twp (f a) Q s') s -> twp (m ≫= f) Q s.
Proof. unfold twp, mbind, M_bind. by destruct (m s). Qed.

Lemma twp_mono {A} (m : M S A) (P Q : A -> S -> Prop) s :
  twp m P s -> (forall a s', P a s' -> Q a s') -> twp m Q s.
Proof. unfold twp. intros T I. destruct (m s); auto. Qed.

Lemma twp_wp {A} (m : M S A) (Q : A -> S -> Prop) s : twp m Q s -> wp m Q s.
Proof. unfold twp, wp. by destruct (m s). Qed.

Lemma twp_Ret {A} (m : M S A) (Q : A -> S -> Prop) s : twp m Q s -> exists a s', m s = Ret a s' /\ Q a s'.
Proof. unfold twp. destruct (m s) as [a s'| |]; [by exists a, s' | done | done]. Qed.

Lemma twp_returns {A} (m : M S A) (Q : A -> S -> Prop) s a s' : m s = Ret a s' -> Q a s' -> twp m Q s.
Proof. unfold twp. by intros ->. Qed.

Lemma twp_get (Q : S -> S -> Prop) s : Q s s -> twp get Q s.
Proof. done. Qed.

Lemma twp_deref {A} (o : option A) a (Q : A -> S -> Prop) s : o = Some a -> Q a s -> twp (deref o) Q s.
Proof. by intros ->. Qed.

End twp.

(** Both at once: [m] may still wait only if [P] holds. *)
Definition gwp (P : Prop) {S A} (m : M S A) (Q : A -> S -> Prop) (s : S) : Prop :=
  match m s with Ret a s' => Q a s' | Block _ => P | Undef => False end.

Section gwp.
Context {S : Type} (P : Prop).

Lemma gwp_bind {A B} (m : M S A) (f : A -> M S B) Q s :
  gwp P m (fun a s' => gwp P (f a) Q s') s -> gwp P (m ≫= f) Q s.
Proof. unfold gwp, mbind, M_bind. by destruct (m s). Qed.

Lemma gwp_mono {A} (m : M S A) (Q R : A -> S -> Prop) s :
  gwp P m Q s -> (forall a s', Q a s' -> R a s') -> gwp P m R s.
Proof. unfold gwp. intros T I. destruct (m s); auto. Qed.

Lemma twp_gwp {A} (m : M S A) (Q : A -> S -> Prop) s : twp m Q s -> gwp P m Q s.
Proof. unfold twp, gwp. by destruct (m s). Qed.

End gwp.

(** Symbolic execution of a method under [wp]. *)
Ltac wp_step :=
  lazymatch goal with
  | |- wp (_ ≫= _) _ _ => apply wp_bind
  | |- wp (mret _) _ _ => apply wp_ret
  | |- wp (gets _) _ _ => apply wp_gets
  | |- wp get _ _ => apply wp_get
  | |- wp (modify _) _ _ => apply wp_modify
  | |- wp block _ _ => apply wp_block
  | |- wp (if ?b then _ else _) _ _ => destruct b eqn:?
  end.
