(* ===== verification/Protocol.v ===== *)
(** * Protocol: error codes and system commands

    The enumerations of [error.h] and [protocol.h]. *)

From S2P Require Import Prelude.

#[local] Open Scope Z_scope.

(** [E_ERROR] *)
Definition ERR_OK : Z := 0.
Definition ERR_FAILED : Z := 1.
Definition ERR_INVALID_MSG_DATA : Z := 2.
Definition ERR_INVALID_WORKER_INDEX : Z := 3.
Definition ERR_UNKOWN_CMD : Z := 4.
Definition ERR_INVALID_PARAMS : Z := 5.
Definition ERR_INVALID_CONN : Z := 6.
Definition ERR_SEND_DATA_FAILED : Z := 7.
Definition ERR_ENCODE_DATA_FAILED : Z := 8.
Definition ERR_INVALID_PROCESS_TYPE : Z := 9.
Definition ERR_INVALID_PROTOBUF_PACKET : Z := 10.
Definition ERR_INVALID_RESPONSE : Z := 11.
Definition ERR_TRANSFER_FD_FAILED : Z := 12.
Definition ERR_TRANSFER_FD_DONE : Z := 13.
Definition ERR_NODE_CONNECT_FAILED : Z := 14.
Definition ERR_CAN_NOT_FIND_NODE : Z := 15.
Definition ERR_CAN_NOT_FIND_CONN : Z := 16.
Definition ERR_READ_DATA_FAILED : Z := 17.
Definition ERR_READ_DATA_TIMEOUT : Z := 18.
Definition ERR_PACKET_DECODE_FAILED : Z := 19.
Definition ERR_CONN_CLOSED : Z := 20.
Definition ERR_DB_MGR_EXIT : Z := 21.
Definition ERR_REDIS_CONNECT_FAILED : Z := 11001.

(** [E_CMD] *)
Definition CMD_REQ_CONNECT_TO_WORKER : Z := 21.
Definition CMD_RSP_CONNECT_TO_WORKER : Z := 22.
Definition CMD_REQ_TELL_WORKER : Z := 23.
Definition CMD_RSP_TELL_WORKER : Z := 24.
Definition CMD_REQ_HEART_BEAT : Z := 31.
Definition CMD_RSP_HEART_BEAT : Z := 32.
Definition CMD_REQ_ADD_ZK_NODE : Z := 41.
Definition CMD_RSP_ADD_ZK_NODE : Z := 42.
Definition CMD_REQ_DEL_ZK_NODE : Z := 43.
Definition CMD_RSP_DEL_ZK_NODE : Z := 44.
Definition CMD_REQ_SYNC_ZK_NODES : Z := 45.
Definition CMD_RSP_SYNC_ZK_NODES : Z := 46.
Definition CMD_REQ_REGISTER_NODE : Z := 47.
Definition CMD_RSP_REGISTER_NODE : Z := 48.
Definition CMD_REQ_UPDATE_PAYLOAD : Z := 49.
Definition CMD_RSP_UPDATE_PAYLOAD : Z := 50.
Definition CMD_SYS_END : Z := 999.
