(* ===== verification/Network.v ===== *)
(** * Network: the connection table and the sending side of a process

    Model of the part of [network.h] and [network.cpp] that owns the
    connections: creating and closing them, the protection against reused
    descriptors, and the [send_*] methods.  The loops that accept connections
    and handle requests are in [Server].

    Connections are objects that coroutines share; [objs] has them all by
    their id (ids are never reused), [m_conns] the ids the table knows.  The
    answers of the kernel are functions of the number of calls so far
    ([ticks]); [co_sleep] runs the other coroutines, an arbitrary change of the
    state.  [trace] records what the process does to the outside. *)

From S2P Require Import Prelude SocketBuffer Proto CodecProto Connection Nodes Timers WorkerDataMgr Effect Protocol.
Import SocketBuffer Codec.

#[local] Open Scope Z_scope.

Module Network.

Abbreviation Conn := Connection.Connection.

Inductive proc_type := UNKNOWN | MANAGER | WORKER.

#[export] Instance proc_type_eq_dec : EqDecision proc_type.
Proof. solve_decision. Defined.

(** The values of [SysConfig]. *)
Record SysConfig := mk_config {
  node_type : string;
  node_host : string;
  node_port : Z;
  gate_host : string;
  gate_port : Z;
  gate_codec : string;
  keep_alive : Z;
  max_clients : Z;
  is_reuseport : bool;
}.

(** What is set when the process starts. *)
Record Setup := mk_setup {
  m_type : proc_type;
  m_config : SysConfig;
  m_worker_index : Z;
  m_manager_fctrl : Pb.fd_t;
  m_manager_fdata : Pb.fd_t;
  m_node_fd : Z;
  m_gate_fd : Z;
  m_gate_codec : TYPE;
  m_keep_alive : Z;
  m_max_clients : Z;
}.

Record Table := mk_table {
  objs : gmap Z Conn;
  m_conns : gset Z;
  m_fd_conns : gmap Z Z;
  m_node_conns : gmap string Z;
}.

(** A message between manager and worker that carries a descriptor. *)
Record channel_t := mk_channel { ch_fd : Z; ch_family : Z; ch_codec : Z; ch_is_system : Z }.

Inductive event :=
  | EvAccept (fd : Z)
  | EvClose (fd : Z)
  | EvQueue (id : Z) (m : Pb.Msg)
  | EvSend (id : Z) (data : bytes)
  | EvHandle (m : Pb.Msg)
  | EvTransfer (channel : Z) (ch : channel_t)
  | EvSpawn (id : Z)
  | EvExit (code : Z).

Record Network := mk {
  setup : Setup;
  table : Table;
  m_seq : Z;
  m_payload : WorkerDataMgr.Payload;
  m_nodes : Nodes.Nodes;
  m_worker_data_mgr : WorkerDataMgr.WorkerDataMgr;
  ticks : nat;
  trace : list event;
}.

Definition set_setup (n : Network) (x : Setup) : Network :=
  mk x (table n) (m_seq n) (m_payload n) (m_nodes n) (m_worker_data_mgr n) (ticks n) (trace n).
Definition set_table (n : Network) (t : Table) : Network :=
  mk (setup n) t (m_seq n) (m_payload n) (m_nodes n) (m_worker_data_mgr n) (ticks n) (trace n).
Definition set_seq (n : Network) (s : Z) : Network :=
  mk (setup n) (table n) s (m_payload n) (m_nodes n) (m_worker_data_mgr n) (ticks n) (trace n).
Definition set_payload (n : Network) (p : WorkerDataMgr.Payload) : Network :=
  mk (setup n) (table n) (m_seq n) p (m_nodes n) (m_worker_data_mgr n) (ticks n) (trace n).
Definition set_nodes (n : Network) (x : Nodes.Nodes) : Network :=
  mk (setup n) (table n) (m_seq n) (m_payload n) x (m_worker_data_mgr n) (ticks n) (trace n).
Definition set_workers (n : Network) (x : WorkerDataMgr.WorkerDataMgr) : Network :=
  mk (setup n) (table n) (m_seq n) (m_payload n) (m_nodes n) x (ticks n) (trace n).
Definition tick (n : Network) : Network :=
  mk (setup n) (table n) (m_seq n) (m_payload n) (m_nodes n) (m_worker_data_mgr n) (S (ticks n)) (trace n).
Definition log (n : Network) (e : event) : Network :=
  mk (setup n) (table n) (m_seq n) (m_payload n) (m_nodes n) (m_worker_data_mgr n) (ticks n) (trace n ++ [e]).

Definition set_objs (t : Table) x : Table := mk_table x (m_conns t) (m_fd_conns t) (m_node_conns t).
Definition set_conns (t : Table) x : Table := mk_table (objs t) x (m_fd_conns t) (m_node_conns t).
Definition set_fd_conns (t : Table) x : Table := mk_table (objs t) (m_conns t) x (m_node_conns t).
Definition set_node_conns (t : Table) x : Table := mk_table (objs t) (m_conns t) (m_fd_conns t) x.

Definition put_conn (n : Network) (id : Z) (c : Conn) : Network :=
  set_table n (set_objs (table n) (<[id:=c]> (objs (table n)))).

Definition is_worker (n : Network) : bool := bool_decide (m_type (setup n) = WORKER).
Definition is_manager (n : Network) : bool := bool_decide (m_type (setup n) = MANAGER).

(** [node_port()] answers the port of the gate. *)
Definition net_node_port (n : Network) : Z := gate_port (m_config (setup n)).

(** [cmd & 0x00000001] *)
Definition is_request (cmd : Z) : bool := negb (Z.land cmd 1 =? 0).

(** The cached clock: every tenth call and every forced call reads it.  The
    state is [m_time_index] and [m_now_time]. *)
Definition now (time_index now_time mstime : Z) (force : bool) : Z * Z * Z :=
  if force then (mstime, time_index, mstime) else
  let time_index := i32 (time_index + 1) in
  let now_time := if Z.rem time_index 10 =? 0 then mstime else now_time in
  (now_time, time_index, now_time).

(** The kernel, the scheduler and the clock. *)
Class Kernel := {
  readv : nat -> Z -> Z -> io_read;       (** tick, descriptor, room *)
  sendv : nat -> Z -> bytes -> io_write;  (** tick, descriptor, bytes offered *)
  sockopt : nat -> Z -> bool;             (** a socket option can be set *)
  sendmsg : nat -> Z -> Z;                (** 0, or the errno of [sendmsg] *)
  now_value : nat -> Z;                   (** what [now()] answers *)
  co_start : nat -> bool;                 (** a coroutine can be started *)
  sleep : Network -> Network;             (** what happens during [co_sleep] *)
}.

Section network.
Context `{Malloc} `{Pb.Protobuf} `{Kernel} (fuel : nat).

Abbreviation N := (M Network).

(** One answer of the kernel. *)
Definition ask {A} (f : nat -> A) : N A := fun n => Ret (f (ticks n)) (tick n).

Definition co_sleep : N unit := modify (fun n => tick (sleep n)).

Definition obj (id : Z) : N Conn := fun n =>
  match objs (table n) !! id with Some c => Ret c n | None => Undef end.

Definition new_seq : N Z := fun n => let s := u64 (m_seq n + 1) in Ret s (set_seq n s).

Definition close_fd (fd : Z) : N unit := modify (fun n => log n (EvClose fd)).

(** [create_conn(fd)] *)
Definition create_conn_fd (fd : Z) : N Z :=
  id ← new_seq;
  t ← ask now_value;
  modify (fun n =>
    let c := Connection.set_keep_alive (Connection.new fd id t) (m_keep_alive (setup n)) in
    set_table n (mk_table (<[id:=c]> (objs (table n))) ({[id]} ∪ m_conns (table n))
                          (<[fd:=id]> (m_fd_conns (table n))) (m_node_conns (table n)))) ;;
  mret id.

(** [create_conn(fd, codec, is_channel)]: null or the id of the connection. *)
Definition create_conn (fd : Z) (codec : TYPE) (is_channel : bool) : N (option Z) :=
  ok ← ask (fun k => sockopt k fd);
  if negb ok then mret None else
  ok ← (if is_channel then mret true else ask (fun k => sockopt k fd));
  if negb ok then mret None else
  ok ← (if is_channel then mret true else ask (fun k => sockopt k fd));
  if negb ok then mret None else
  id ← create_conn_fd fd;
  t ← ask now_value;
  c ← obj id;
  let c := snd (Connection.init c codec t) in
  t ← ask now_value;
  let c := Connection.set_state (Connection.set_active_time c t) Connection.CONNECTED in
  let c := if is_channel then Connection.set_system c true else c in
  modify (fun n => put_conn n id c) ;;
  mret (Some id).

(** [close_conn(id)] *)
Definition close_conn (id : Z) : N bool :=
  t ← gets table;
  if bool_decide (id ∈ m_conns t) then
    c ← obj id;
    let c := Connection.set_state c Connection.CLOSED_STATE in
    modify (fun n => put_conn n id c) ;;
    modify (fun n =>
      if bool_decide (Connection.m_node_id c = "") then n
      else set_table n (set_node_conns (table n) (delete (Connection.m_node_id c) (m_node_conns (table n))))) ;;
    modify (fun n => set_table n (set_conns (table n) (m_conns (table n) ∖ {[id]}))) ;;
    t ← gets table;
    (if bool_decide (m_fd_conns t !! Connection.fd c = Some (Connection.id c)) then
       modify (fun n => set_table n (set_fd_conns (table n) (delete (Connection.fd c) (m_fd_conns (table n))))) ;;
       close_fd (Connection.fd c)
     else mret tt) ;;
    mret true
  else mret false.

(** [is_valid_conn(id)] *)
Definition is_valid_conn (t : Table) (id : Z) : bool :=
  if bool_decide (id ∈ m_conns t) then
    match objs t !! id with
    | Some c =>
        if Connection.is_invalid c then false
        else match m_fd_conns t !! Connection.fd c with
             | None => false
             | Some id' => id' =? Connection.id c
             end
    | None => false
    end
  else false.

Definition get_conn (t : Table) (ft : Pb.fd_t) : option Z :=
  if bool_decide (Pb.id ft ∈ m_conns t) then
    match objs t !! Pb.id ft with
    | Some c => if Connection.fd c =? Pb.fd ft then Some (Pb.id ft) else None
    | None => None
    end
  else None.

Definition update_conn_state (ft : Pb.fd_t) (state : Connection.STATE) : N bool :=
  t ← gets table;
  if bool_decide (Pb.id ft ∈ m_conns t) then
    c ← obj (Pb.id ft);
    modify (fun n => put_conn n (Pb.id ft) (Connection.set_state c state)) ;;
    mret true
  else mret false.

Definition add_client_conn (node_id : string) (ft : Pb.fd_t) : N bool :=
  t ← gets table;
  match get_conn t ft with
  | None => mret false
  | Some id =>
      modify (fun n => set_table n (set_node_conns (table n) (<[node_id:=id]> (m_node_conns (table n))))) ;;
      mret true
  end.

(** ** Sending *)

Definition count_write (n : Network) (cnt bytes : Z) : Network :=
  let p := m_payload n in
  set_payload n (WorkerDataMgr.mk_payload (WorkerDataMgr.worker_index p) (WorkerDataMgr.conn_cnt p)
    (WorkerDataMgr.cmd_cnt p) (WorkerDataMgr.read_cnt p) (WorkerDataMgr.read_bytes p)
    (u32 (WorkerDataMgr.write_cnt p + cnt)) (u32 (WorkerDataMgr.write_bytes p + bytes))
    (WorkerDataMgr.create_time p)).

Definition count_read (n : Network) (cnt bytes : Z) : Network :=
  let p := m_payload n in
  set_payload n (WorkerDataMgr.mk_payload (WorkerDataMgr.worker_index p) (WorkerDataMgr.conn_cnt p)
    (WorkerDataMgr.cmd_cnt p) (u32 (WorkerDataMgr.read_cnt p + cnt)) (u32 (WorkerDataMgr.read_bytes p + bytes))
    (WorkerDataMgr.write_cnt p) (WorkerDataMgr.write_bytes p) (WorkerDataMgr.create_time p)).

Definition conn_write_data (id : Z) : N STATUS :=
  c ← obj id;
  io ← ask (fun k => sendv k (Connection.fd c) (Connection.tx c));
  t ← ask now_value;
  '(status, out, c', _) ← deref (Connection.conn_write_sock c t [io]);
  modify (fun n => put_conn n id c') ;;
  modify (fun n => log n (EvSend id out)) ;;
  (if bool_decide (status = ERR) then mret tt
   else modify (fun n => count_write n (Connection.m_write_cnt c' - Connection.m_write_cnt c)
                                       (Connection.m_write_bytes c' - Connection.m_write_bytes c))) ;;
  mret status.

Fixpoint send_loop (fuel : nat) (id : Z) : N Z :=
  match fuel with
  | O => block
  | S fuel =>
      t ← gets table;
      if negb (is_valid_conn t id) then mret ERR_INVALID_CONN else
      status ← conn_write_data id;
      match status with
      | OK => mret ERR_OK
      | PAUSE => co_sleep ;; send_loop fuel id
      | _ => mret ERR_SEND_DATA_FAILED
      end
  end.

(** [send_to(c, msg)] *)
Definition send_to (c : option Z) (msg : Pb.Msg) : N Z :=
  match c with
  | None => mret ERR_INVALID_CONN
  | Some id =>
      c ← obj id;
      if Connection.is_invalid c then mret ERR_INVALID_CONN else
      '(status, c) ← deref (Connection.conn_append_message c msg);
      modify (fun n => put_conn n id c) ;;
      if bool_decide (status = OK) then
        modify (fun n => log n (EvQueue id msg)) ;;
        send_loop fuel id
      else mret ERR_ENCODE_DATA_FAILED
  end.

(** [send_to(ft, msg)] *)
Definition send_to_ft (ft : Pb.fd_t) (msg : Pb.Msg) : N Z :=
  t ← gets table;
  send_to (get_conn t ft) msg.

Definition body_len (b : Pb.MsgBody) : Z := i32 (zlen (Pb.body_serialize b)).

Definition ack_msg (req : Pb.Msg) (err : Z) (errstr : string) (data : bytes) : Pb.Msg :=
  let body := Pb.mk_body (Pb.RspResult err (str_bytes errstr)) data [] [] in
  let head := Pb.mk_head (u32 (Pb.cmd (Pb.head req) + 1)) (Pb.seq (Pb.head req)) (body_len body) in
  Pb.mk_msg Pb.fd_default head body.

Definition send_ack (req : Pb.Msg) (err : Z) (errstr : string) (data : bytes) : N Z :=
  send_to_ft (Pb.ft req) (ack_msg req err errstr data).

Definition req_msg (cmd seq : Z) (data : bytes) : Pb.Msg :=
  let body := Pb.mk_body Pb.NoType data [] [] in
  Pb.mk_msg Pb.fd_default (Pb.mk_head (u32 cmd) (u32 seq) (body_len body)) body.

(** [send_req(c, ...)]: [return false] is [ERR_OK]. *)
Definition send_req (c : option Z) (cmd seq : Z) (data : bytes) : N Z :=
  match c with
  | None => mret 0
  | Some id => send_to (Some id) (req_msg cmd seq data)
  end.

(** [send_req(ft, ...)] *)
Definition send_req_ft (ft : Pb.fd_t) (cmd seq : Z) (data : bytes) : N Z :=
  send_to_ft ft (req_msg cmd seq data).

Definition send_to_manager (cmd seq : Z) (data : bytes) : N Z :=
  n ← get;
  if negb (is_worker n) then mret ERR_INVALID_PROCESS_TYPE else
  let id := Pb.id (m_manager_fctrl (setup n)) in
  if bool_decide (id ∈ m_conns (table n)) then send_req (Some id) cmd seq data
  else mret ERR_INVALID_CONN.

(** One worker of the loop of [send_to_workers]. *)
Definition send_to_worker (e : Z * Z) (cmd seq : Z) (data : bytes) : N unit :=
  n ← get;
  info ← deref (WorkerDataMgr.heap (m_worker_data_mgr n) !! e.2);
  let id := Pb.id (WorkerDataMgr.fctrl info) in
  if bool_decide (id ∈ m_conns (table n)) then
    c ← obj id;
    if Connection.is_invalid c then mret tt else send_req (Some id) cmd seq data ;; mret tt
  else mret tt.

(** The table of workers must not change while it is iterated. *)
Fixpoint send_each (workers l : list (Z * Z)) (cmd seq : Z) (data : bytes) : N unit :=
  match l with
  | [] => mret tt
  | e :: l =>
      send_to_worker e cmd seq data ;;
      n ← get;
      if bool_decide (WorkerDataMgr.m_workers (m_worker_data_mgr n) = workers)
      then send_each workers l cmd seq data else deref None
  end.

Definition send_to_workers (cmd seq : Z) (data : bytes) : N Z :=
  n ← get;
  if negb (is_manager n) then mret ERR_INVALID_PROCESS_TYPE else
  let workers := WorkerDataMgr.get_infos (m_worker_data_mgr n) in
  send_each workers workers cmd seq data ;;
  mret ERR_OK.

(** ** Passing descriptors *)

(** [static_cast<int>(codec)] and back. *)
Definition codec_int (t : TYPE) : Z :=
  match t with Codec.UNKNOWN => 0 | PROTOBUF => 1 | HTTP => 2 | PRIVATE => 3 end.

(** [write_channel]: 0, [EAGAIN] or -1. *)
Definition write_channel (channel : Z) (ch : channel_t) : N Z :=
  err ← ask (fun k => sendmsg k channel);
  if err =? 0 then modify (fun n => log n (EvTransfer channel ch)) ;; mret 0
  else if err =? Connection.EAGAIN then mret err else mret (-1).

(** ** Shutting down *)

(** The loop of [close_fds] over the connections, in some order. *)
Fixpoint close_each (ids : list Z) : N unit :=
  match ids with
  | [] => mret tt
  | id :: ids =>
      c ← obj id;
      (if Connection.is_invalid c then mret tt else close_fd (Connection.fd c)) ;;
      close_each ids
  end.

Definition close_fds : N unit :=
  t ← gets table;
  close_each (elements (m_conns t)) ;;
  modify (fun n => set_table n (set_node_conns (set_conns (table n) ∅) ∅)).

Definition close_channel (fd0 fd1 : Z) : N unit := close_fd fd0 ;; close_fd fd1.

(** ** Configuration *)

Definition set_gate_codec (s : Setup) (codec : string) : bool * Setup :=
  match get_codec_type codec with
  | Codec.UNKNOWN => (false, s)
  | t => (true, mk_setup (m_type s) (m_config s) (m_worker_index s) (m_manager_fctrl s) (m_manager_fdata s)
                         (m_node_fd s) (m_gate_fd s) t (m_keep_alive s) (m_max_clients s))
  end.

(** [set_keep_alive(secs)]: the seconds of the configuration become the
    milliseconds of [m_keep_alive]. *)
Definition set_keep_alive (s : Setup) (ms : Z) : Setup :=
  mk_setup (m_type s) (m_config s) (m_worker_index s) (m_manager_fctrl s) (m_manager_fdata s)
           (m_node_fd s) (m_gate_fd s) (m_gate_codec s) ms (m_max_clients s).

Definition load_config (s : Setup) (config : SysConfig) : bool * Setup :=
  let '(ok, s) := if bool_decide (gate_codec config = "") then (true, s) else set_gate_codec s (gate_codec config) in
  if negb ok then (false, s) else
  let s := if 0 <? keep_alive config then set_keep_alive s (u64 (keep_alive config)) else s in
  if bool_decide (node_type config = "") then (false, s) else (true, s).

(** ** The table *)

Record tinv (n : Network) : Prop := mk_tinv {
  tinv_seq : 0 <= m_seq n < 2 ^ 64;
  tinv_objs id c : objs (table n) !! id = Some c -> Connection.id c = id /\ 1 <= id <= m_seq n;
  tinv_conns id : id ∈ m_conns (table n) -> is_Some (objs (table n) !! id);
  tinv_fds fd id : m_fd_conns (table n) !! fd = Some id ->
    id ∈ m_conns (table n) /\ exists c, objs (table n) !! id = Some c /\ Connection.fd c = fd;
}.

(** The new connection of [create_conn]. *)
Lemma create_conn_spec fd codec chan n :
  exists r n', create_conn fd codec chan n = Ret r n' /\ trace n' = trace n /\
    (r = None /\ table n' = table n /\ m_seq n' = m_seq n \/
     exists c, r = Some (u64 (m_seq n + 1)) /\ m_seq n' = u64 (m_seq n + 1) /\
       table n' = mk_table (<[u64 (m_seq n + 1) := c]> (objs (table n)))
                           ({[u64 (m_seq n + 1)]} ∪ m_conns (table n))
                           (<[fd := u64 (m_seq n + 1)]> (m_fd_conns (table n))) (m_node_conns (table n)) /\
       Connection.m_ft c = Pb.mk_fd fd (u64 (m_seq n + 1)) /\ Connection.m_state c = Connection.CONNECTED /\
       Connection.m_recv_buf c = None /\ Connection.m_send_buf c = None).
Proof.
  unfold create_conn, create_conn_fd, ask, new_seq, obj, modify, gets, mret, M_ret, mbind, M_bind. cbn.
  destruct (sockopt (ticks n) fd); cbn; [| eexists _, _; split; [done |]; cbn; tauto].
  destruct chan; cbn.
  - rewrite lookup_insert_eq. eexists _, _. split; [done |]. split; [done |]. right.
    eexists. cbn. rewrite insert_insert_eq. split; [done |]. split; [done |]. split; [done |].
    by unfold Connection.init; destruct codec.
  - destruct (sockopt (S (ticks n)) fd); cbn; [| eexists _, _; split; [done |]; cbn; tauto].
    destruct (sockopt (S (S (ticks n))) fd); cbn; [| eexists _, _; split; [done |]; cbn; tauto].
    rewrite lookup_insert_eq. eexists _, _. split; [done |]. split; [done |]. right.
    eexists. cbn. rewrite insert_insert_eq. split; [done |]. split; [done |]. split; [done |].
    by unfold Connection.init; destruct codec.
Qed.

Lemma close_conn_spec id n :
  tinv n -> exists b n', close_conn id n = Ret b n' /\ m_seq n' = m_seq n /\
    ((id ∉ m_conns (table n)) /\ b = false /\ n' = n \/
     exists c, id ∈ m_conns (table n) /\ b = true /\ objs (table n) !! id = Some c /\
       objs (table n') = <[id := Connection.set_state c Connection.CLOSED_STATE]> (objs (table n)) /\
       m_conns (table n') = m_conns (table n) ∖ {[id]} /\
       if bool_decide (m_fd_conns (table n) !! Connection.fd c = Some id)
       then m_fd_conns (table n') = delete (Connection.fd c) (m_fd_conns (table n)) /\
            trace n' = trace n ++ [EvClose (Connection.fd c)]
       else m_fd_conns (table n') = m_fd_conns (table n) /\ trace n' = trace n).
Proof.
  intros T. unfold close_conn, obj, close_fd, modify, gets, mret, M_ret, mbind, M_bind. cbn.
  case_bool_decide as I; [| by exists false, n; split_and!; try done; left].
  destruct (tinv_conns _ T _ I) as [c E]. destruct (tinv_objs _ T _ _ E) as [Ei _]. rewrite E.
  change (Connection.id (Connection.set_state c Connection.CLOSED_STATE)) with (Connection.id c).
  change (Connection.fd (Connection.set_state c Connection.CLOSED_STATE)) with (Connection.fd c).
  rewrite Ei.
  destruct (bool_decide (Connection.m_node_id _ = "")); cbn;
    case_bool_decide as B; (eexists _, _; split; [done |]; split; [done |]; right; exists c; cbn;
    split_and!; try done; by case_bool_decide).
Qed.

Lemma tinv_create n n' r fd codec chan :
  tinv n -> m_seq n < 2 ^ 64 - 1 -> create_conn fd codec chan n = Ret r n' -> tinv n'.
Proof.
  intros T B E. destruct (create_conn_spec fd codec chan n) as (r2 & n2 & E2 & _ & D). rewrite E in E2. simplify_eq.
  pose proof T as [S O C F].
  destruct D as [(-> & Et & Es) | (c & -> & Es & Et & Eft & _)].
  { split; [by rewrite Es | rewrite Et, Es; done | by rewrite Et | by rewrite Et]. }
  assert (U : u64 (m_seq n + 1) = m_seq n + 1) by (apply u64_small; lia). rewrite U in *.
  assert (Fr : objs (table n) !! (m_seq n + 1) = None).
  { destruct (objs (table n) !! (m_seq n + 1)) eqn:X; [apply O in X; lia | done]. }
  split; rewrite ?Et, ?Es; cbn.
  - lia.
  - intros id x X. apply lookup_insert_Some in X as [[<- <-]|[_ X]].
    + unfold Connection.id. rewrite Eft. cbn. lia.
    + apply O in X as [? ?]. split; [done | lia].
  - intros id [->%elem_of_singleton|X]%elem_of_union; [rewrite lookup_insert_eq; eauto |].
    destruct (C _ X) as [x Y]. rewrite lookup_insert_ne by (intros <-; congruence). eauto.
  - intros g id X. apply lookup_insert_Some in X as [[<- <-]|[_ X]].
    + split; [set_solver |]. exists c. rewrite lookup_insert_eq. split; [done |].
      unfold Connection.fd. by rewrite Eft.
    + destruct (F _ _ X) as (M & x & Y & ?). split; [set_solver |]. exists x.
      rewrite lookup_insert_ne by (intros <-; congruence). done.
Qed.

Lemma tinv_close n n' id b : tinv n -> close_conn id n = Ret b n' -> tinv n'.
Proof.
  intros T E. destruct (close_conn_spec id n T) as (b2 & n2 & E2 & Es & D). rewrite E in E2. simplify_eq.
  destruct D as [(_ & _ & ->) | (c & I & _ & Ec & Eo & Em & D)]; [done |].
  pose proof T as [S O C F]. split; rewrite ?Es, ?Eo, ?Em.
  - done.
  - intros j x X. apply lookup_insert_Some in X as [[<- <-]|[_ X]]; [by apply (O _ c) | by apply O].
  - intros j [X _]%elem_of_difference. destruct (decide (j = id)) as [->|]; [rewrite lookup_insert_eq; eauto |].
    rewrite lookup_insert_ne by done. by apply C.
  - intros g j X. case_bool_decide as B; destruct D as [Ef _]; rewrite Ef in X.
    + apply lookup_delete_Some in X as [Ng X]. destruct (F _ _ X) as (M & x & Y & Z1).
      assert (j <> id) by (intros ->; simplify_eq). split; [set_solver |].
      exists x. by rewrite lookup_insert_ne.
    + destruct (F _ _ X) as (M & x & Y & Z1). assert (j <> id) by (intros ->; simplify_eq; congruence).
      split; [set_solver |]. exists x. by rewrite lookup_insert_ne.
Qed.

(** Steps that only change what is inside the connections: reading, writing,
    state changes, node names. *)
Record inside (n n' : Network) : Prop := mk_inside {
  in_seq : m_seq n <= m_seq n' < 2 ^ 64;
  in_conns : m_conns (table n') = m_conns (table n);
  in_fds : m_fd_conns (table n') = m_fd_conns (table n);
  in_objs id : Connection.m_ft <$> objs (table n') !! id = Connection.m_ft <$> objs (table n) !! id;
}.

Lemma tinv_inside n n' : tinv n -> inside n n' -> tinv n'.
Proof.
  intros [S O C F] [Is Ic If Io].
  assert (B : forall id c', objs (table n') !! id = Some c' ->
            exists c, objs (table n) !! id = Some c /\ Connection.m_ft c = Connection.m_ft c').
  { intros id c' E. specialize (Io id). rewrite E in Io. destruct (objs (table n) !! id); [| done].
    cbn in Io. injection Io as Io. eauto. }
  assert (G : forall id c, objs (table n) !! id = Some c ->
            exists c', objs (table n') !! id = Some c' /\ Connection.m_ft c' = Connection.m_ft c).
  { intros id c E. specialize (Io id). rewrite E in Io. destruct (objs (table n') !! id); [| done].
    cbn in Io. injection Io as Io. eauto. }
  split; rewrite ?Ic, ?If.
  - lia.
  - intros id c' E. destruct (B _ _ E) as (c & X & Ef). destruct (O _ _ X) as [Y ?].
    unfold Connection.id in *. rewrite <- Ef. split; [done | lia].
  - intros id I. destruct (C _ I) as [c E]. destruct (G _ _ E) as (c' & ? & _). eauto.
  - intros fd id E. destruct (F _ _ E) as (I & c & X & Ef). split; [done |].
    destruct (G _ _ X) as (c' & Y & Ef'). exists c'. split; [done |].
    unfold Connection.fd in *. congruence.
Qed.

(** The life of the table, with the descriptors that are open: the kernel
    hands out descriptors that are not open, a connection is closed by its id,
    and every other method works inside the connections. *)
Inductive life : gset Z -> Network -> Prop :=
| life_new n : tinv n -> m_conns (table n) = ∅ -> m_fd_conns (table n) = ∅ -> life ∅ n
| life_create o n fd codec chan id n' :
    life o n -> fd ∉ o -> m_seq n < 2 ^ 64 - 1 ->
    create_conn fd codec chan n = Ret (Some id) n' -> life ({[fd]} ∪ o) n'
| life_refuse o n fd codec chan n' :
    life o n -> fd ∉ o -> create_conn fd codec chan n = Ret None n' -> life o n'
| life_close o n id b n' l :
    life o n -> close_conn id n = Ret b n' -> trace n' = trace n ++ l ->
    life (o ∖ list_to_set (omap (fun e => match e with EvClose fd => Some fd | _ => None end) l)) n'
| life_inside o n n' : life o n -> inside n n' -> life o n'.

(** Every connection of the table owns its descriptor. *)
Definition owns (n : Network) : Prop := forall id c, id ∈ m_conns (table n) -> objs (table n) !! id = Some c -> m_fd_conns (table n) !! Connection.fd c = Some id.

Lemma owns_create (o : gset Z) n fd codec chan r n' :
  tinv n -> owns n -> m_seq n < 2 ^ 64 - 1 -> (forall fd id, m_fd_conns (table n) !! fd = Some id -> fd ∈ o) -> fd ∉ o ->
  create_conn fd codec chan n = Ret r n' -> owns n'.
Proof.
  intros T O B F Nf E. destruct (create_conn_spec fd codec chan n) as (r2 & n2 & E2 & _ & D). rewrite E in E2. simplify_eq.
  unfold owns. destruct D as [(_ & -> & _) | (c & _ & _ & -> & Eft & _)]; [exact O |]. cbn.
  rewrite u64_small by (destruct (tinv_seq _ T); lia). intros id x I X. apply lookup_insert_Some in X as [[<- <-] | [Ne X]].
  - unfold Connection.fd. rewrite Eft. apply lookup_insert_eq.
  - assert (I' : id ∈ m_conns (table n)) by set_solver. pose proof (O _ _ I' X) as L.
    rewrite lookup_insert_ne; [done |]. intros ->. by apply Nf, (F _ id).
Qed.

Lemma owns_close n id b n' : tinv n -> owns n -> close_conn id n = Ret b n' -> owns n'.
Proof.
  intros T O E. destruct (close_conn_spec id n T) as (b2 & n2 & E2 & _ & D). rewrite E in E2. simplify_eq.
  destruct D as [(_ & _ & ->) | (c & I & _ & Ec & Eo & Em & D)]; [done |].
  intros j x J X. rewrite Em in J. rewrite Eo in X. rewrite lookup_insert_ne in X by set_solver.
  pose proof (O j x ltac:(set_solver) X) as L. rewrite (bool_decide_true _ (O _ _ I Ec)) in D. destruct D as [-> _].
  rewrite lookup_delete_ne; [done |]. intros Ef. rewrite <- Ef, (O _ _ I Ec) in L. set_solver.
Qed.

Lemma owns_inside n n' : owns n -> inside n n' -> owns n'.
Proof.
  intros O [_ Ic If Io] id c'. rewrite Ic, If. intros I E. specialize (Io id). rewrite E in Io.
  destruct (objs (table n) !! id) as [c|] eqn:X; [| done]. cbn in Io. injection Io as Io.
  unfold Connection.fd. rewrite Io. by apply O.
Qed.

Lemma life_inv o n : life o n -> tinv n /\ owns n /\ forall fd id, m_fd_conns (table n) !! fd = Some id -> fd ∈ o.
Proof.
  induction 1 as [n T Ec Ef | o n fd codec chan id n' _ (T & O & F) Nf B E | o n fd codec chan n' _ (T & O & F) Nf E
                 | o n id b n' l _ (T & O & F) E El | o n n' _ (T & O & F) I].
  - split_and!; [done | intros id c; rewrite Ec; set_solver |]. intros fd id. by rewrite Ef.
  - split_and!; [by eapply tinv_create | by eapply owns_create |].
    destruct (create_conn_spec fd codec chan n) as (r & n2 & E2 & _ & D). rewrite E in E2. simplify_eq.
    destruct D as [(? & _) | (c & _ & _ & Et & _)]; [done |]. intros g j. rewrite Et. cbn.
    intros [[<- _]|[_ X]]%lookup_insert_Some; [set_solver |]. apply F in X. set_solver.
  - destruct (create_conn_spec fd codec chan n) as (r & n2 & E2 & _ & D). rewrite E in E2. simplify_eq.
    destruct D as [(_ & Et & Es) | (c & ? & _)]; [| done].
    split_and!; [| unfold owns; by rewrite Et | by rewrite Et]. destruct T. split; rewrite ?Et, ?Es; done.
  - split_and!; [by eapply tinv_close | by eapply owns_close |].
    destruct (close_conn_spec id n T) as (b2 & n2 & E2 & _ & D). rewrite E in E2. simplify_eq.
    destruct D as [(_ & _ & ->) | (c & _ & _ & Ec & _ & _ & D)].
    + apply app_same_nil in El as ->. intros g j X.
      apply F in X. set_solver.
    + intros g j X. case_bool_decide; destruct D as [Ef Etr]; rewrite Ef in X; rewrite Etr in El.
      * apply app_inv_head in El as <-. apply lookup_delete_Some in X as [Ng X]. apply F in X. set_solver.
      * apply app_same_nil in El as ->. apply F in X. set_solver.
  - split_and!; [by eapply tinv_inside | by eapply owns_inside |]. intros fd id. rewrite (in_fds _ _ I). apply F.
Qed.

(** A closed id never comes back. *)
Definition retired (id : Z) (n : Network) : Prop := id <= m_seq n /\ id ∉ m_conns (table n).

Lemma retired_create id n fd codec chan r n' :
  tinv n -> m_seq n < 2 ^ 64 - 1 -> retired id n -> create_conn fd codec chan n = Ret r n' -> retired id n'.
Proof.
  intros T B [L N] E. destruct (create_conn_spec fd codec chan n) as (r2 & n2 & E2 & _ & D).
  rewrite E in E2. simplify_eq. destruct (tinv_seq _ T).
  destruct D as [(-> & Et & Es) | (c & -> & Es & Et & _)]; unfold retired; rewrite Et, Es; [done |].
  rewrite u64_small by lia. cbn. split; [lia |]. rewrite not_elem_of_union, not_elem_of_singleton. split; [lia | done].
Qed.

Lemma retired_close id j n b n' : tinv n -> retired id n -> close_conn j n = Ret b n' -> retired id n'.
Proof.
  intros T [L N] E. destruct (close_conn_spec j n T) as (b2 & n2 & E2 & Es & D). rewrite E in E2. simplify_eq.
  destruct D as [(_ & _ & ->) | (c & _ & _ & _ & _ & Em & _)]; [done |].
  unfold retired. rewrite Es, Em. split; [done |]. set_solver.
Qed.

Lemma retired_inside id n n' : retired id n -> inside n n' -> retired id n'.
Proof. intros [L N] [Is Ic _ _]. unfold retired. rewrite Ic. split; [lia | done]. Qed.

(** What may happen after a state, as in [life]. *)
Inductive later : Network -> Network -> Prop :=
| later_refl n : later n n
| later_create n n1 fd codec chan r n2 :
    later n n1 -> m_seq n1 < 2 ^ 64 - 1 -> create_conn fd codec chan n1 = Ret r n2 -> later n n2
| later_close n n1 id b n2 : later n n1 -> close_conn id n1 = Ret b n2 -> later n n2
| later_inside n n1 n2 : later n n1 -> inside n1 n2 -> later n n2.

Lemma later_retired id n n' : tinv n -> retired id n -> later n n' -> tinv n' /\ retired id n'.
Proof.
  intros T R L. induction L as [n | n n1 fd codec chan r n2 _ IH B E | n n1 j b n2 _ IH E | n n1 n2 _ IH I].
  - done.
  - destruct (IH T R). split; [by eapply tinv_create | by eapply retired_create].
  - destruct (IH T R). split; [by eapply tinv_close | by eapply retired_close].
  - destruct (IH T R). split; [by eapply tinv_inside | by eapply retired_inside].
Qed.

(** ** Properties of the table *)

(** C5: closing a connection of the table closes its descriptor, once: the one
    call of [close] that [close_conn] makes is for the descriptor of that
    connection, which is open and which no other connection of the table has
    (the kernel never hands out a descriptor that is open), and afterwards
    neither the connection nor its descriptor is in the table.  Closing an id
    that is not in the table does nothing, and so does closing the same
    connection again. *)
Theorem network_close_once o n id b n' :
  life o n -> close_conn id n = Ret b n' ->
  (id ∈ m_conns (table n) -> b = true /\
     exists c, objs (table n) !! id = Some c /\ trace n' = trace n ++ [EvClose (Connection.fd c)] /\ Connection.fd c ∈ o /\
       (forall j d, j ∈ m_conns (table n) -> objs (table n) !! j = Some d -> Connection.fd d = Connection.fd c -> j = id) /\
       m_conns (table n') = m_conns (table n) ∖ {[id]} /\ m_fd_conns (table n') = delete (Connection.fd c) (m_fd_conns (table n))) /\
  (id ∉ m_conns (table n) -> b = false /\ n' = n) /\
  close_conn id n' = Ret false n'.
Proof.
  intros (T & O & F)%life_inv E. pose proof (tinv_close _ _ _ _ T E) as T'.
  destruct (close_conn_spec id n T) as (b2 & n2 & E2 & _ & D). rewrite E in E2. injection E2 as <- <-. split_and!.
  - intros I. destruct D as [(N & _) | (c & _ & -> & Ec & _ & Em & D)]; [done |]. split; [done |].
    pose proof (O _ _ I Ec) as L. rewrite (bool_decide_true _ L) in D. destruct D as [Ef Et]. exists c.
    split_and!; [done | done | by eapply F | | done | done]. intros j d J Ed Efd. apply (O _ _ J) in Ed. congruence.
  - intros I. destruct D as [(_ & -> & ->) | (c & ? & _)]; done.
  - destruct (close_conn_spec id n' T') as (b3 & n3 & E3 & _ & D3). rewrite E3.
    destruct D3 as [(_ & -> & ->) | (c3 & I3 & _)]; [done |].
    destruct D as [(N & _ & ->) | (c & _ & _ & _ & _ & Em & _)]; [done |]. rewrite Em in I3. set_solver.
Qed.

(** C18: a handle outlives its connection safely: after the connection is
    closed, whatever happens then (the kernel may give its descriptor to new
    connections), sending through the old [fd_t] is refused and changes
    nothing, so no answer reaches a stranger. *)
Theorem network_stale_handle o n id c n1 n2 b msg :
  life o n -> objs (table n) !! id = Some c -> close_conn id n = Ret b n1 -> later n1 n2 ->
  send_to_ft (Connection.m_ft c) msg n2 = Ret ERR_INVALID_CONN n2.
Proof.
  intros (T & _ & _)%life_inv Ec E L. pose proof (tinv_close _ _ _ _ T E) as T1.
  destruct (tinv_objs _ T _ _ Ec) as [Ei R].
  assert (Re : retired id n1).
  { destruct (close_conn_spec id n T) as (b2 & n3 & E2 & Es & D). rewrite E in E2. injection E2 as <- <-.
    split; [lia |]. destruct D as [(N & _ & ->) | (x & _ & _ & _ & _ & Em & _)]; [done |]. rewrite Em. set_solver. }
  destruct (later_retired id n1 n2 T1 Re L) as [_ [_ N]].
  unfold send_to_ft, get_conn, gets, mbind, M_bind. unfold Connection.id in Ei. rewrite Ei.
  by rewrite bool_decide_false.
Qed.

(** ** The wire *)

(** The messages queued on a connection, and the bytes put on its wire. *)
Definition queued (id : Z) (tr : list event) : list Pb.Msg :=
  omap (fun e => match e with EvQueue j m => if j =? id then Some m else None | _ => None end) tr.
Definition sent (id : Z) (tr : list event) : bytes :=
  concat (omap (fun e => match e with EvSend j d => if j =? id then Some d else None | _ => None end) tr).

Lemma queued_app id tr tr' : queued id (tr ++ tr') = queued id tr ++ queued id tr'.
Proof. apply omap_app. Qed.

Lemma queued_own id m : queued id [EvQueue id m] = [m].
Proof. unfold queued. cbn. by rewrite Z.eqb_refl. Qed.

Lemma sent_app id tr tr' : sent id (tr ++ tr') = sent id tr ++ sent id tr'.
Proof. unfold sent. by rewrite omap_app, concat_app. Qed.

(** The bytes on the wire of every connection, followed by its send buffer,
    are the frames of the queued messages. *)
Definition framed (n : Network) : Prop :=
  forall id c, objs (table n) !! id = Some c ->
    wf (default empty (Connection.m_send_buf c)) /\ zlen (Connection.tx c) <= INT_MAX /\
    Connection.stream (queued id (trace n)) = sent id (trace n) ++ Connection.tx c.

(** The kernel takes a prefix of what it is offered and delivers no more than
    there is room for. *)
Class KernelSpec : Prop := {
  sendv_prefix k fd d n : sendv k fd d = SentBytes n -> 0 <= n <= zlen d;
  readv_room k fd room d : readv k fd room = RecvData d -> zlen d <= room /\ zlen d <= MAX_RW_COUNT;
}.

(** Other coroutines add to the trace, keep the connection objects and respect
    the framing. *)
Class SchedulerSpec : Prop := {
  sleep_framed n : framed n -> framed (sleep n);
  sleep_trace n : trace n `prefix_of` trace (sleep n);
  sleep_objs n id : is_Some (objs (table n) !! id) -> is_Some (objs (table (sleep n)) !! id);
}.

Lemma framed_put n id c c' evs :
  framed n -> objs (table n) !! id = Some c ->
  wf (default empty (Connection.m_send_buf c')) -> zlen (Connection.tx c') <= INT_MAX ->
  (forall j, j <> id -> queued j evs = [] /\ sent j evs = []) ->
  Connection.tx c ++ Connection.stream (queued id evs) = sent id evs ++ Connection.tx c' ->
  forall n', objs (table n') = <[id:=c']> (objs (table n)) -> trace n' = trace n ++ evs -> framed n'.
Proof.
  intros F E W L Fr T n' Eo Et j x X. rewrite Eo in X. rewrite Et, queued_app, sent_app, Connection.stream_app.
  apply lookup_insert_Some in X as [[<- <-]|[Nj X]].
  - destruct (F _ _ E) as (_ & _ & S). split_and!; [done..|]. by rewrite S, <- !app_assoc, T.
  - destruct (F _ _ X) as (? & ? & S). destruct (Fr j) as [-> ->]; [done |].
    split_and!; [done..|]. by rewrite !app_nil_r.
Qed.

Context `{!MallocSpec} `{!Pb.ProtobufSpec} `{!KernelSpec} `{!SchedulerSpec}.

Lemma wp_obj id c (Q : Conn -> Network -> Prop) n : objs (table n) !! id = Some c -> Q c n -> wp (obj id) Q n.
Proof. unfold wp, obj. by intros ->. Qed.

Lemma conn_write_data_spec n id c :
  framed n -> objs (table n) !! id = Some c -> Connection.is_invalid c = false ->
  wp (conn_write_data id) (fun st n' => framed n' /\ trace n `prefix_of` trace n' /\
        queued id (trace n') = queued id (trace n) /\
        exists c', objs (table n') !! id = Some c' /\ (st = OK <-> Connection.tx c' = [])) n.
Proof.
  intros F E V. destruct (F _ _ E) as (W & L & _). unfold conn_write_data.
  unfold obj, ask, modify, wp, mbind, M_bind. cbn. rewrite E.
  set (io := sendv _ _ _). assert (IO : Connection.send_ok c io).
  { unfold Connection.send_ok. destruct io eqn:X; [| done]. by apply sendv_prefix in X. }
  destruct (Connection.conn_write_sock_any c (now_value (S (ticks n))) io [] V W L IO)
    as (st & out & c' & sock' & -> & S & R & W' & T & O). cbn.
  assert (L' : zlen (Connection.tx c') <= INT_MAX).
  { rewrite T, zlen_app in L. pose proof (zlen_nonneg out). lia. }
  set (P := fun n' => objs (table n') = <[id:=c']> (objs (table n)) /\ trace n' = trace n ++ [EvSend id out]).
  assert (G : forall n', P n' -> framed n' /\ trace n `prefix_of` trace n' /\
            queued id (trace n') = queued id (trace n) /\
            exists c'', objs (table n') !! id = Some c'' /\ (st = OK <-> Connection.tx c'' = [])).
  { intros n' [Po Pt]. split_and!.
    - eapply (framed_put n id c c' [EvSend id out]); [done..| | | done | done].
      + intros j Nj. cbn. destruct (Z.eqb_spec id j); [congruence | done].
      + cbn. unfold sent. cbn. rewrite Z.eqb_refl. cbn. by rewrite !app_nil_r.
    - rewrite Pt. by eexists.
    - rewrite Pt, queued_app. cbn. by rewrite app_nil_r.
    - exists c'. rewrite Po, lookup_insert_eq. split; [done | apply O]. }
  case_bool_decide; cbn; apply G; by split.
Qed.

Lemma is_valid_conn_obj t id :
  is_valid_conn t id = true -> exists c, objs t !! id = Some c /\ Connection.is_invalid c = false.
Proof.
  unfold is_valid_conn. case_bool_decide; [| done]. destruct (objs t !! id) as [c|]; [| done].
  destruct (Connection.is_invalid c) eqn:V; [done | eauto].
Qed.

Lemma send_loop_spec k n id :
  framed n ->
  wp (send_loop k id) (fun r n' => framed n' /\ trace n `prefix_of` trace n' /\
        (r = ERR_OK -> Connection.stream (queued id (trace n')) = sent id (trace n'))) n.
Proof.
  revert n. induction k as [|k IH]; intros n F; [done |]. cbn [send_loop].
  wp_step. wp_step. destruct (is_valid_conn (table n) id) eqn:V; cbn [negb].
  2:{ apply wp_ret. split_and!; [done | reflexivity | discriminate]. }
  destruct (is_valid_conn_obj _ _ V) as (c & E & Vc). wp_step.
  eapply wp_mono; [| exact (conn_write_data_spec n id c F E Vc)]. intros st n1 (F1 & P1 & _ & c1 & E1 & O1).
  destruct st.
  - apply wp_ret. split_and!; [done..|]. intros _. destruct (F1 _ _ E1) as (_ & _ & ->).
    rewrite (proj1 O1) by done. by rewrite app_nil_r.
  - apply wp_ret. split_and!; [done | done | discriminate].
  - wp_step. unfold co_sleep. wp_step. eapply wp_mono; [| apply IH].
    + intros r n2 (F2 & P2 & O2). split_and!; [done | | done]. etrans; [exact P1 |].
      etrans; [apply sleep_trace | exact P2].
    + intros j x. apply (sleep_framed n1 F1).
  - apply wp_ret. split_and!; [done | done | discriminate].
Qed.

(** ** Property of the wire *)

(** C3: concurrent senders never mix their bytes: whatever the other
    coroutines send on the connection while [send_to] waits for the socket,
    the wire followed by the send buffer is at every return a sequence of
    whole frames in the order of queueing; when [send_to] answers [ERR_OK] the
    frame of its message is on the wire completely.

    The message is one that the codec can frame ([msg_ok]: a non-zero command
    and sequence number, a body that is not empty), the bytes to be sent are at
    most [INT_MAX], and while [send_to] sleeps the other coroutines use the
    connection as it does, through calls that keep whole frames
    ([SchedulerSpec]). *)
Theorem network_send_whole_frames n id c m :
  framed n -> objs (table n) !! id = Some c -> CodecProto.msg_ok m ->
  zlen (Connection.tx c ++ CodecProto.frame m) <= INT_MAX ->
  wp (send_to (Some id) m) (fun r n' => framed n' /\
        (r = ERR_OK -> m ∈ queued id (trace n') /\
           sent id (trace n') = Connection.stream (queued id (trace n')))) n.
Proof.
  intros F E M L. destruct (F _ _ E) as (W & _ & _). unfold send_to. wp_step.
  apply (wp_obj id c); [done |]. destruct (Connection.is_invalid c) eqn:V.
  { apply wp_ret. split; [done | discriminate]. }
  destruct (Connection.conn_append_any c m V W M) as (st & c' & Ea & _ & _ & W' & D).
  wp_step. apply (wp_deref _ _ _ _ Ea). wp_step. wp_step.
  destruct D as [[-> T] | (-> & T & _)].
  - rewrite bool_decide_true by done. wp_step. wp_step. set (n1 := log _ _).
    assert (F1 : framed n1).
    { eapply (framed_put n id c c' [EvQueue id m]); [done | done | done | by rewrite T | | | done | done].
      - intros j Nj. cbn. destruct (Z.eqb_spec id j); [congruence | done].
      - rewrite queued_own, Connection.stream_one. by rewrite T. }
    eapply wp_mono; [| exact (send_loop_spec fuel n1 id F1)]. intros r n' (F' & P & O).
    split; [done |]. intros R. split; [| by rewrite O].
    destruct P as [tr Et]. rewrite Et. change (trace n1) with (trace n ++ [EvQueue id m]).
    rewrite !queued_app, queued_own.
    apply elem_of_app. left. apply elem_of_app. right. by left.
  - rewrite bool_decide_false by done. apply wp_ret. split; [| discriminate].
    eapply (framed_put n id c c' []); [done | done | done | | done | | done | cbn; by rewrite app_nil_r].
    + rewrite T. rewrite zlen_app in L. pose proof (zlen_nonneg (CodecProto.frame m)). lia.
    + cbn. by rewrite T, app_nil_r.
Qed.

End network.

(** ** Witnesses *)

(** A kernel that accepts everything and delivers nothing. *)
Definition easy_kernel : Kernel := {|
  readv _ _ _ := RecvErr EAGAIN;
  sendv _ _ d := SentBytes (zlen d);
  sockopt _ _ := true;
  sendmsg _ _ := 0;
  now_value _ := 1000;
  co_start _ := true;
  sleep n := n;
|}.

#[local] Existing Instances zero_malloc WireFormat.wire easy_kernel.

Definition config0 : SysConfig := mk_config "gate" "127.0.0.1" 3333 "127.0.0.1" 3344 "protobuf" 15 1000 false.

Definition setup0 (t : proc_type) : Setup :=
  mk_setup t config0 1 Pb.fd_default Pb.fd_default (-1) (-1) PROTOBUF 15000 896.

Definition net0 (t : proc_type) : Network :=
  mk (setup0 t) (mk_table ∅ ∅ ∅ ∅) 0 WorkerDataMgr.payload_default (Nodes.new 200 Nodes.FNV1A_64)
     WorkerDataMgr.new 0 [].

(** The state a method leaves. *)
Definition after {A} (o : outcome Network A) : Network :=
  match o with Ret _ n | Block n => n | Undef => net0 UNKNOWN end.

(** A worker with one connection, on descriptor 9. *)
Definition net1 : Network := after (create_conn 9 PROTOBUF false (net0 WORKER)).

Lemma net0_life t : life ∅ (net0 t).
Proof. apply life_new; [| done | done]. split; cbn; [lia | done | set_solver | done]. Qed.

Lemma net1_life : life {[9]} net1.
Proof.
  replace {[9]} with ({[9]} ∪ ∅ : gset Z) by set_solver.
  apply (life_create ∅ (net0 WORKER) 9 PROTOBUF false 1); [apply net0_life | set_solver | done | vm_compute; reflexivity].
Qed.

Definition net1_closed : Network := after (close_conn 1 net1).

Lemma network_close_once_witness :
  trace net1_closed = trace net1 ++ [EvClose 9] /\ close_conn 1 net1_closed = Ret false net1_closed.
Proof.
  destruct (network_close_once {[9]} net1 1 true net1_closed) as (A & _ & B); [exact net1_life | vm_compute; reflexivity |].
  destruct A as (_ & c & Ec & Et & _); [apply (bool_decide_unpack _); vm_compute; exact I |].
  split; [| exact B]. rewrite Et. vm_compute in Ec. injection Ec as <-. reflexivity.
Defined.

(** The descriptor 9 is given to a second connection; the handle of the first
    one is refused. *)
Definition net2 : Network := after (create_conn 9 PROTOBUF false net1_closed).

Lemma network_stale_handle_witness :
  send_to_ft 100 (Pb.mk_fd 9 1) CodecProto.ping net2 = Ret ERR_INVALID_CONN net2.
Proof.
  destruct (objs (table net1) !! 1) as [c|] eqn:E; [| vm_compute in E; discriminate].
  replace (Pb.mk_fd 9 1) with (Connection.m_ft c) by (vm_compute in E; injection E as <-; reflexivity).
  apply (network_stale_handle 100 {[9]} net1 1 c net1_closed net2 true);
    [exact net1_life | exact E | vm_compute; reflexivity |].
  apply (later_create net1_closed net1_closed 9 PROTOBUF false (Some 2));
    [apply later_refl | vm_compute; reflexivity | vm_compute; reflexivity].
Defined.

Lemma net1_framed : framed net1.
Proof.
  intros id c E. assert (Eo : objs (table net1) = <[1 := Connection.set_keep_alive
      (Connection.set_state (Connection.set_active_time (snd (Connection.init (Connection.new 9 1 1000) PROTOBUF 1000)) 1000)
         Connection.CONNECTED) 15000]> ∅) by (vm_compute; reflexivity).
  rewrite Eo in E. apply lookup_insert_Some in E as [[<- <-]|[_ E]]; [| by rewrite lookup_empty in E].
  split_and!; [apply wf_empty | done | reflexivity].
Qed.

(** A kernel that takes at most eight bytes at a time, so that [send_to] waits. *)
Definition slow_kernel : Kernel := {|
  readv _ _ _ := RecvErr EAGAIN;
  sendv _ _ d := SentBytes (zlen d `min` 8);
  sockopt _ _ := true;
  sendmsg _ _ := 0;
  now_value _ := 1000;
  co_start _ := true;
  sleep n := n;
|}.

Lemma slow_kernel_spec : @KernelSpec slow_kernel.
Proof. split; [| done]. intros k fd d n [= <-]. pose proof (zlen_nonneg d). lia. Qed.

Lemma slow_scheduler : @SchedulerSpec WireFormat.wire slow_kernel.
Proof. by split. Qed.

Lemma network_send_whole_frames_witness :
  wp (@send_to zero_malloc WireFormat.wire slow_kernel 100 (Some 1) CodecProto.ping) (fun r n' => framed n' /\
        (r = ERR_OK -> CodecProto.ping ∈ queued 1 (trace n') /\
           sent 1 (trace n') = Connection.stream (queued 1 (trace n')))) net1 /\
  exists n', @send_to zero_malloc WireFormat.wire slow_kernel 100 (Some 1) CodecProto.ping net1 = Ret ERR_OK n' /\
    (2 < length (trace n') - length (trace net1))%nat.
Proof.
  split; [| eexists; split; [vm_compute; reflexivity | vm_compute; lia]].
  destruct (objs (table net1) !! 1) as [c|] eqn:E; [| vm_compute in E; discriminate].
  apply (@network_send_whole_frames zero_malloc WireFormat.wire slow_kernel 100 zero_malloc_spec
           WireFormat.wire_spec slow_kernel_spec slow_scheduler net1 1 c CodecProto.ping);
    [exact net1_framed | exact E | exact CodecProto.ping_ok |].
  vm_compute in E. injection E as <-. vm_compute. discriminate.
Defined.

End Network.
