(* ===== verification/SysProto.v ===== *)
(** * SysProto: the system messages

    The messages of [protobuf/sys/nodes.proto] ([zk_node] is in Nodes,
    [Payload] of [payload.proto] in WorkerDataMgr).  Their classes are
    generated by protoc, so serialisation is a parameter with the law that
    parsing inverts it on messages whose fields are in range; proto3 strings
    are UTF-8, the law asks for ASCII. *)

From S2P Require Import Prelude Nodes WorkerDataMgr.

#[local] Open Scope Z_scope.

Module SysProto.

#[local] Existing Instance Nodes.zk_node_eq_dec.

Record register_node := mk_register { version : Z; my_zk_path : string; nodes : list Nodes.zk_node }.

Record target_node := mk_target { tn_node_type : string; tn_ip : string; tn_port : Z; tn_worker_index : Z }.

Definition text_ok (s : string) : Prop := Forall (fun c => uchar c < 128) (str_bytes s).
#[export] Instance text_ok_dec s : Decision (text_ok s) := _.
Definition u32_ok (z : Z) : Prop := 0 <= z < 2 ^ 32.
#[export] Instance u32_ok_dec z : Decision (u32_ok z) := _.

Definition zk_node_ok (z : Nodes.zk_node) : Prop :=
  text_ok (Nodes.path z) /\ text_ok (Nodes.type z) /\ text_ok (Nodes.host z) /\
  u32_ok (Nodes.port z) /\ u32_ok (Nodes.worker_cnt z).
#[export] Instance zk_node_ok_dec z : Decision (zk_node_ok z).
Proof. unfold zk_node_ok. apply _. Defined.

Definition register_ok (r : register_node) : Prop :=
  u32_ok (version r) /\ text_ok (my_zk_path r) /\ Forall zk_node_ok (nodes r).
#[export] Instance register_ok_dec r : Decision (register_ok r).
Proof. unfold register_ok. apply _. Defined.

Definition target_ok (t : target_node) : Prop :=
  text_ok (tn_node_type t) /\ text_ok (tn_ip t) /\ u32_ok (tn_port t) /\ u32_ok (tn_worker_index t).

Definition payload_ok (p : WorkerDataMgr.Payload) : Prop :=
  u32_ok (WorkerDataMgr.worker_index p) /\ u32_ok (WorkerDataMgr.conn_cnt p) /\
  u32_ok (WorkerDataMgr.cmd_cnt p) /\ u32_ok (WorkerDataMgr.read_cnt p) /\
  u32_ok (WorkerDataMgr.read_bytes p) /\ u32_ok (WorkerDataMgr.write_cnt p) /\
  u32_ok (WorkerDataMgr.write_bytes p).

Class Messages := {
  zk_node_serialize : Nodes.zk_node -> bytes;
  zk_node_parse : bytes -> option Nodes.zk_node;
  register_serialize : register_node -> bytes;
  register_parse : bytes -> option register_node;
  target_serialize : target_node -> bytes;
  target_parse : bytes -> option target_node;
  payload_serialize : WorkerDataMgr.Payload -> bytes;
  payload_parse : bytes -> option WorkerDataMgr.Payload;
}.

Class MessagesSpec `{Messages} : Prop := {
  zk_node_roundtrip z : zk_node_ok z -> zk_node_parse (zk_node_serialize z) = Some z;
  register_roundtrip r : register_ok r -> register_parse (register_serialize r) = Some r;
  target_roundtrip t : target_ok t -> target_parse (target_serialize t) = Some t;
  payload_roundtrip p : payload_ok p -> payload_parse (payload_serialize p) = Some p;
}.

(** ** A concrete encoding

    Every message is a countable type: its number, in binary. *)

Fixpoint bits (p : positive) : bytes :=
  match p with
  | xH => []
  | xO p => char_of 0 :: bits p
  | xI p => char_of 1 :: bits p
  end.

Fixpoint unbits (l : bytes) : positive :=
  match l with [] => xH | c :: l => if uchar c =? 0 then xO (unbits l) else xI (unbits l) end.

Lemma unbits_bits p : unbits (bits p) = p.
Proof. induction p as [p IH|p IH|]; cbn [bits unbits]; [by rewrite IH | by rewrite IH | done]. Qed.

Definition serialize {A} `{Countable A} (x : A) : bytes := bits (encode x).
Definition parse {A} `{Countable A} (l : bytes) : option A := decode (unbits l).

Lemma parse_serialize {A} `{Countable A} (x : A) : parse (serialize x) = Some x.
Proof. unfold parse, serialize. by rewrite unbits_bits, decode_encode. Qed.

#[export] Instance zk_node_countable : Countable Nodes.zk_node.
Proof.
  apply (inj_countable' (fun z => (Nodes.path z, Nodes.type z, Nodes.host z, Nodes.port z, Nodes.worker_cnt z, Nodes.active_time z))
           (fun '(a, b, c, d, e, f) => Nodes.mk_zk_node a b c d e f)).
  by intros [].
Defined.

#[export] Instance register_eq_dec : EqDecision register_node.
Proof. solve_decision. Defined.

#[export] Instance register_countable : Countable register_node.
Proof.
  apply (inj_countable' (fun r => (version r, my_zk_path r, nodes r)) (fun '(a, b, c) => mk_register a b c)).
  by intros [].
Defined.

#[export] Instance target_eq_dec : EqDecision target_node.
Proof. solve_decision. Defined.

#[export] Instance target_countable : Countable target_node.
Proof.
  apply (inj_countable' (fun t => (tn_node_type t, tn_ip t, tn_port t, tn_worker_index t))
           (fun '(a, b, c, d) => mk_target a b c d)).
  by intros [].
Defined.

#[export] Instance payload_eq_dec : EqDecision WorkerDataMgr.Payload.
Proof. solve_decision. Defined.

#[export] Instance payload_countable : Countable WorkerDataMgr.Payload.
Proof.
  apply (inj_countable'
    (fun p => (WorkerDataMgr.worker_index p, WorkerDataMgr.conn_cnt p, WorkerDataMgr.cmd_cnt p,
               WorkerDataMgr.read_cnt p, WorkerDataMgr.read_bytes p, WorkerDataMgr.write_cnt p,
               WorkerDataMgr.write_bytes p, WorkerDataMgr.create_time p))
    (fun '(a, b, c, d, e, f, g, h) => WorkerDataMgr.mk_payload a b c d e f g h)).
  by intros [].
Defined.

Definition numbered : Messages := {|
  zk_node_serialize := serialize; zk_node_parse := parse;
  register_serialize := serialize; register_parse := parse;
  target_serialize := serialize; target_parse := parse;
  payload_serialize := serialize; payload_parse := parse;
|}.

Lemma numbered_spec : @MessagesSpec numbered.
Proof. split; intros; apply parse_serialize. Qed.

End SysProto.
