(* ===== verification/SysCmd.v ===== *)
(** * SysCmd: the system commands

    Model of [sys_cmd.h] and [sys_cmd.cpp]: the messages between a manager and
    its workers, and between nodes that contact each other.  The handlers are
    methods of the network; an exception nobody catches ([std::stoi] on a text
    that is no number) is the outcome [Undef]. *)

From S2P Require Import Prelude SocketBuffer Proto CodecProto Connection Util Nodes Timers WorkerDataMgr Effect Protocol Network SysProto.
Import SocketBuffer Util Network SysProto.

#[local] Open Scope Z_scope.

Module SysCmd.

Section syscmd.
Context `{Malloc} `{Pb.Protobuf} `{Kernel} `{Digest} `{Messages} (fuel : nat).

Abbreviation N := (M Network).
Abbreviation send_ack := (Network.send_ack fuel).
Abbreviation send_req := (Network.send_req fuel).
Abbreviation send_req_ft := (Network.send_req_ft fuel).
Abbreviation send_to_manager := (Network.send_to_manager fuel).
Abbreviation send_to_workers := (Network.send_to_workers fuel).

Definition req_cmd (req : Pb.Msg) : Z := Pb.cmd (Pb.head req).
Definition req_data (req : Pb.Msg) : bytes := Pb.data (Pb.body req).

(** ** Requests *)

Definition send_heart_beat (c : Z) : N Z :=
  seq ← new_seq;
  send_req (Some c) CMD_REQ_HEART_BEAT seq (str_bytes "heartbeat").

Definition send_connect_req_to_worker (c : Z) : N Z :=
  conn ← obj c;
  n ← get;
  let worker_index := Nodes.get_node_worker_index (m_nodes n) (Connection.m_node_id conn) in
  if worker_index =? -1 then mret ERR_INVALID_WORKER_INDEX else
  seq ← new_seq;
  ret ← send_req (Some c) CMD_REQ_CONNECT_TO_WORKER seq (dec worker_index);
  if negb (ret =? ERR_OK) then mret ret else
  conn ← obj c;
  modify (fun n => put_conn n c (Connection.set_state conn Connection.CONNECTING)) ;;
  mret ERR_OK.

Definition send_payload_to_manager (pl : WorkerDataMgr.Payload) : N Z :=
  seq ← new_seq;
  send_to_manager CMD_REQ_UPDATE_PAYLOAD seq (payload_serialize pl).

Definition send_add_zk_node_to_worker (node : Nodes.zk_node) : N Z :=
  seq ← new_seq;
  send_to_workers CMD_REQ_ADD_ZK_NODE seq (zk_node_serialize node).

Definition send_del_zk_node_to_worker (zk_path : string) : N Z :=
  seq ← new_seq;
  send_to_workers CMD_REQ_DEL_ZK_NODE seq (str_bytes zk_path).

Definition send_reg_zk_node_to_worker (rn : register_node) : N Z :=
  seq ← new_seq;
  send_to_workers CMD_REQ_REGISTER_NODE seq (register_serialize rn).

(** The answer is a [bool] in an [int]: 0 for a failure. *)
Definition send_zk_nodes_version_to_manager (version : Z) : N Z :=
  seq ← new_seq;
  ret ← send_to_manager CMD_REQ_SYNC_ZK_NODES seq (dec version);
  mret (if ret =? ERR_OK then 1 else 0).

Definition on_repeat_timer (cronloops : Z) : N unit :=
  n ← get;
  if is_worker n then
    hit ← deref (Timers.run_with_period Timers.DEFAULT_TIMER_RATE cronloops (5 * 60 * 1000));
    if hit : bool
    then send_zk_nodes_version_to_manager (i32 (Nodes.version (m_nodes n))) ;; mret tt
    else mret tt
  else mret tt.

(** ** Answers *)

(** The code of the answer is logged, not returned. *)
Definition check_rsp (req : Pb.Msg) : Z :=
  match Pb.body_type (Pb.body req) with
  | Pb.RspResult _ _ => ERR_OK
  | _ => ERR_INVALID_RESPONSE
  end.

Definition on_rsp_update_payload (req : Pb.Msg) : N Z := mret (check_rsp req).
Definition on_rsp_add_zk_node (req : Pb.Msg) : N Z := mret (check_rsp req).
Definition on_rsp_del_zk_node (req : Pb.Msg) : N Z := mret (check_rsp req).
Definition on_rsp_reg_zk_node (req : Pb.Msg) : N Z := mret (check_rsp req).
Definition on_rsp_heart_beat (req : Pb.Msg) : N Z := mret ERR_OK.

(** [clear], [set_my_zk_node_path] and the loop of [add_zk_node]. *)
Definition load_nodes (s : Nodes.Nodes) (rn : register_node) : Nodes.Nodes :=
  foldl (fun s z => snd (Nodes.add_zk_node s z))
        (Nodes.set_my_zk_node_path (Nodes.clear s) (my_zk_path rn)) (nodes rn).

Definition on_rsp_sync_zk_nodes (req : Pb.Msg) : N Z :=
  let ret := check_rsp req in
  if negb (ret =? ERR_OK) then mret ret else
  match register_parse (req_data req) with
  | None => mret ERR_INVALID_RESPONSE
  | Some rn =>
      n ← get;
      (if version rn =? Nodes.version (m_nodes n) then mret tt
       else modify (fun n => set_nodes n (load_nodes (m_nodes n) rn))) ;;
      mret ERR_OK
  end.

(** ** Handlers of the manager *)

Definition on_req_update_payload (req : Pb.Msg) : N Z :=
  match payload_parse (req_data req) with
  | None => mret ERR_INVALID_PROTOBUF_PACKET
  | Some pl =>
      n ← get;
      match WorkerDataMgr.get_worker_info_by_index (m_worker_data_mgr n) (i32 (WorkerDataMgr.worker_index pl)) with
      | None =>
          send_ack req ERR_INVALID_WORKER_INDEX "can not find worker index!" [] ;;
          mret ERR_INVALID_WORKER_INDEX
      | Some info =>
          workers ← deref (WorkerDataMgr.set_payload (m_worker_data_mgr n) info pl);
          modify (fun n => set_workers n workers) ;;
          send_ack req ERR_OK "ok" []
      end
  end.

(** What the manager answers to a worker's version: the version it was sent,
    with the nodes when its own differs. *)
Definition sync_answer (s : Nodes.Nodes) (version : Z) : register_node :=
  if Nodes.version s =? version then mk_register version "" []
  else mk_register version (Nodes.get_my_zk_node_path s) (snd <$> map_to_list (Nodes.get_zk_nodes s)).

Definition on_req_sync_zk_nodes (req : Pb.Msg) : N Z :=
  v ← deref (str_to_int (bytes_str (req_data req)));
  n ← get;
  ret ← send_ack req ERR_OK "ok" (register_serialize (sync_answer (m_nodes n) (u32 v)));
  mret (if ret =? ERR_OK then ERR_OK else ERR_SEND_DATA_FAILED).

(** The loop that passes the descriptor on. *)
Fixpoint transfer_loop (fuel : nat) (channel : Z) (ch : channel_t) : N Z :=
  match fuel with
  | O => block
  | S fuel =>
      err ← write_channel channel ch;
      if err =? ERR_OK then mret ERR_TRANSFER_FD_DONE
      else if err =? Connection.EAGAIN then co_sleep ;; transfer_loop fuel channel ch
      else mret ERR_TRANSFER_FD_FAILED
  end.

Definition AF_INET : Z := 2.

Definition on_req_connect_to_worker (req : Pb.Msg) : N Z :=
  let fd := Pb.fd (Pb.ft req) in
  n ← get;
  let worker_cnt := i32 (zlen (WorkerDataMgr.get_infos (m_worker_data_mgr n))) in
  worker_index ← deref (str_to_int (bytes_str (req_data req)));
  if (worker_index =? 0) || (worker_cnt <? worker_index) then
    send_ack req ERR_INVALID_WORKER_INDEX "invalid worker index!" [] ;;
    mret ERR_INVALID_WORKER_INDEX
  else
    ret ← send_ack req ERR_OK "ok" [];
    if negb (ret =? ERR_OK) then mret ERR_SEND_DATA_FAILED else
    n ← get;
    channel ← deref (WorkerDataMgr.get_worker_data_fd (m_worker_data_mgr n) worker_index);
    transfer_loop fuel channel (mk_channel fd AF_INET (codec_int Codec.PROTOBUF) 1).

Definition handle_manager_msg (req : Pb.Msg) : N Z :=
  let cmd := req_cmd req in
  if cmd =? CMD_REQ_CONNECT_TO_WORKER then on_req_connect_to_worker req
  else if cmd =? CMD_RSP_ADD_ZK_NODE then on_rsp_add_zk_node req
  else if cmd =? CMD_RSP_DEL_ZK_NODE then on_rsp_del_zk_node req
  else if cmd =? CMD_RSP_REGISTER_NODE then on_rsp_reg_zk_node req
  else if cmd =? CMD_REQ_SYNC_ZK_NODES then on_req_sync_zk_nodes req
  else if cmd =? CMD_REQ_UPDATE_PAYLOAD then on_req_update_payload req
  else mret ERR_UNKOWN_CMD.

(** ** Handlers of a worker *)

Definition on_req_add_zk_node (req : Pb.Msg) : N Z :=
  match zk_node_parse (req_data req) with
  | None =>
      send_ack req ERR_INVALID_MSG_DATA "parse request failed!" [] ;;
      mret ERR_INVALID_PROTOBUF_PACKET
  | Some zn =>
      n ← get;
      let '(ok, s) := Nodes.add_zk_node (m_nodes n) zn in
      modify (fun n => set_nodes n s) ;;
      if ok : bool then send_ack req ERR_OK "ok" []
      else
        ret ← send_ack req ERR_FAILED "add zk node failed!" [];
        mret (if ret =? ERR_OK then ERR_OK else ERR_SEND_DATA_FAILED)
  end.

Definition on_req_del_zk_node (req : Pb.Msg) : N Z :=
  let zk_path := bytes_str (req_data req) in
  if bool_decide (zk_path = "") then
    send_ack req ERR_INVALID_MSG_DATA "parse request failed!" [] ;;
    mret ERR_INVALID_RESPONSE
  else
    modify (fun n => set_nodes n (snd (Nodes.del_zk_node (m_nodes n) zk_path))) ;;
    ret ← send_ack req ERR_OK "ok" [];
    mret (if ret =? ERR_OK then ERR_OK else ERR_SEND_DATA_FAILED).

Definition on_req_reg_zk_node (req : Pb.Msg) : N Z :=
  match register_parse (req_data req) with
  | None =>
      send_ack req ERR_INVALID_MSG_DATA "parse request data failed!" [] ;;
      mret ERR_INVALID_RESPONSE
  | Some rn =>
      modify (fun n => set_nodes n (load_nodes (m_nodes n) rn)) ;;
      ret ← send_ack req ERR_OK "ok" [];
      mret (if ret =? ERR_OK then ERR_OK else ERR_SEND_DATA_FAILED)
  end.

Definition on_req_heart_beat (req : Pb.Msg) : N Z :=
  ret ← send_ack req ERR_OK "" [];
  mret (if ret =? ERR_OK then ret else ERR_REDIS_CONNECT_FAILED).

(** The description of this worker. *)
Definition my_target (n : Network) : target_node :=
  mk_target (node_type (m_config (setup n))) (node_host (m_config (setup n)))
            (u32 (net_node_port n)) (u32 (m_worker_index (setup n))).

Definition target_id (tn : target_node) : string :=
  format_nodes_id (tn_ip tn) (i32 (tn_port tn)) (i32 (tn_worker_index tn)).

(** The parsed message is overwritten with the worker's own description before
    its id is taken. *)
Definition on_req_tell_worker (req : Pb.Msg) : N Z :=
  match target_parse (req_data req) with
  | None =>
      send_ack req ERR_INVALID_MSG_DATA "parse request failed!" [] ;;
      mret ERR_INVALID_RESPONSE
  | Some _ =>
      tn ← gets my_target;
      ret ← send_ack req ERR_OK "ok" (target_serialize tn);
      if negb (ret =? ERR_OK) then mret ERR_REDIS_CONNECT_FAILED else
      update_conn_state (Pb.ft req) Connection.CONNECTED ;;
      add_client_conn (target_id tn) (Pb.ft req) ;;
      mret ERR_OK
  end.

Definition on_rsp_tell_worker (req : Pb.Msg) : N Z :=
  let ret := check_rsp req in
  if negb (ret =? ERR_OK) then mret ret else
  match target_parse (req_data req) with
  | None => mret ERR_INVALID_RESPONSE
  | Some tn =>
      update_conn_state (Pb.ft req) Connection.CONNECTED ;;
      add_client_conn (target_id tn) (Pb.ft req) ;;
      mret ERR_OK
  end.

Definition on_rsp_connect_to_worker (req : Pb.Msg) : N Z :=
  let ret := check_rsp req in
  if negb (ret =? ERR_OK) then mret ret else
  tn ← gets my_target;
  seq ← new_seq;
  ret ← send_req_ft (Pb.ft req) CMD_REQ_TELL_WORKER seq (target_serialize tn);
  mret ret.

Definition handle_worker_msg (req : Pb.Msg) : N Z :=
  let cmd := req_cmd req in
  if cmd =? CMD_RSP_CONNECT_TO_WORKER then on_rsp_connect_to_worker req
  else if cmd =? CMD_REQ_HEART_BEAT then on_req_heart_beat req
  else if cmd =? CMD_RSP_HEART_BEAT then on_rsp_heart_beat req
  else if cmd =? CMD_REQ_TELL_WORKER then on_req_tell_worker req
  else if cmd =? CMD_RSP_TELL_WORKER then on_rsp_tell_worker req
  else if cmd =? CMD_REQ_ADD_ZK_NODE then on_req_add_zk_node req
  else if cmd =? CMD_REQ_DEL_ZK_NODE then on_req_del_zk_node req
  else if cmd =? CMD_REQ_REGISTER_NODE then on_req_reg_zk_node req
  else if cmd =? CMD_RSP_SYNC_ZK_NODES then on_rsp_sync_zk_nodes req
  else if cmd =? CMD_RSP_UPDATE_PAYLOAD then on_rsp_update_payload req
  else mret ERR_UNKOWN_CMD.

Definition handle_msg (req : Pb.Msg) : N Z :=
  if CMD_SYS_END <=? req_cmd req then mret ERR_UNKOWN_CMD else
  n ← get;
  if is_manager n then handle_manager_msg req else handle_worker_msg req.


(** ** What the messages do to the node table *)

(** The table after a message of the manager. *)
Definition apply_req (s : Nodes.Nodes) (cmd : Z) (data : bytes) : Nodes.Nodes :=
  if cmd =? CMD_REQ_ADD_ZK_NODE then
    match zk_node_parse data with Some z => snd (Nodes.add_zk_node s z) | None => s end
  else if cmd =? CMD_REQ_DEL_ZK_NODE then
    if bool_decide (bytes_str data = "") then s else snd (Nodes.del_zk_node s (bytes_str data))
  else if cmd =? CMD_REQ_REGISTER_NODE then
    match register_parse data with Some rn => load_nodes s rn | None => s end
  else s.

Lemma set_nodes_id n : set_nodes n (m_nodes n) = n.
Proof. by destruct n. Qed.

(** Decides the comparisons of command numbers. *)
Ltac eval_cmds :=
  repeat match goal with
  | |- context [?a =? ?b] =>
      let v := eval vm_compute in (a =? b) in
      match v with true => idtac | false => idtac end; change (a =? b) with v; cbv iota
  end.

(** A worker that handles such a message has the new table before its first
    wait: only the answer and its error code are left to do. *)
Lemma handle_worker_table req n :
  req_cmd req ∈ [CMD_REQ_ADD_ZK_NODE; CMD_REQ_DEL_ZK_NODE; CMD_REQ_REGISTER_NODE] ->
  exists err errstr (k : Z -> N Z), handle_worker_msg req n =
    (send_ack req err errstr [] ≫= k) (set_nodes n (apply_req (m_nodes n) (req_cmd req) (req_data req))).
Proof.
  rewrite !elem_of_cons. intros [E | [E | [E | []%not_elem_of_nil]]];
    unfold handle_worker_msg, apply_req; rewrite E; eval_cmds.
  - unfold on_req_add_zk_node. destruct (zk_node_parse _) as [z|].
    + rewrite (bind_ret _ _ _ get _ n n n) by done.
      destruct (Nodes.add_zk_node (m_nodes n) z) as [ok s]. rewrite (bind_ret _ _ _ _ _ n tt (set_nodes n s)) by done.
      destruct ok; [| by do 3 eexists]. exists ERR_OK, "ok", mret. unfold mbind, M_bind, mret, M_ret.
      by destruct (Network.send_ack _ _ _ _ _ _).
    + rewrite set_nodes_id. by do 3 eexists.
  - unfold on_req_del_zk_node. case_bool_decide.
    + rewrite set_nodes_id. by do 3 eexists.
    + by do 3 eexists.
  - unfold on_req_reg_zk_node. destruct (register_parse _) as [rn|].
    + by do 3 eexists.
    + rewrite set_nodes_id. by do 3 eexists.
Qed.

Lemma u32_i32 z : 0 <= z < 2 ^ 32 -> u32 (i32 z) = z.
Proof.
  unfold u32, i32. intros R. rewrite (Z.mod_small z) by done. destruct (Z.ltb_spec z (2 ^ 31)).
  - by apply Z.mod_small.
  - rewrite <- (Z.mod_small z (2 ^ 32)) at 2 by done. rewrite <- (Z_mod_plus_full _ 1). f_equal. lia.
Qed.

(** [k] times the channel was full and the coroutine slept, from [n] to [n2]. *)
Fixpoint waits (channel : Z) (k : nat) (n n2 : Network) : Prop :=
  match k with
  | O => n2 = n
  | S k => sendmsg (ticks n) channel = Connection.EAGAIN /\ waits channel k (tick (sleep (tick n))) n2
  end.

(** Then the kernel takes the descriptor, or refuses it, and nothing else is done. *)
Lemma transfer_loop_spec fu channel ch k n n2 : waits channel k n n2 -> (k < fu)%nat ->
  sendmsg (ticks n2) channel <> Connection.EAGAIN ->
  transfer_loop fu channel ch n = if sendmsg (ticks n2) channel =? 0
    then Ret ERR_TRANSFER_FD_DONE (log (tick n2) (EvTransfer channel ch)) else Ret ERR_TRANSFER_FD_FAILED (tick n2).
Proof.
  revert fu n. induction k as [|k IH]; intros [|fu] n Ws Fu Na; try lia; cbn [transfer_loop].
  - cbn in Ws. subst n2. unfold write_channel, ask, mbind, M_bind. destruct (Z.eqb_spec (sendmsg (ticks n) channel) 0); [done |].
    apply Z.eqb_neq in Na. by rewrite Na.
  - destruct Ws as [E Ws]. unfold write_channel, ask, mbind, M_bind. rewrite E. cbn [mret M_ret].
    change (Connection.EAGAIN =? 0) with false. rewrite Z.eqb_refl. by apply IH; [| lia |].
Qed.

(** ** Properties *)

(** The periodic synchronisation of a worker repairs nothing: the manager
    answers with the version the worker sent, whatever its own table is, so
    the worker finds the versions equal and keeps its table. *)
Theorem syscmd_sync_never_repairs `{!MessagesSpec} (w m : Network) req :
  0 <= Nodes.version (m_nodes w) < 2 ^ 32 ->
  req_data req = dec (i32 (Nodes.version (m_nodes w))) ->
  register_ok (sync_answer (m_nodes m) (Nodes.version (m_nodes w))) ->
  exists d k, on_req_sync_zk_nodes req m = (send_ack req ERR_OK "ok" d ≫= k) m /\
    forall rsp code msg, Pb.body rsp = Pb.mk_body (Pb.RspResult code msg) d [] [] ->
      on_rsp_sync_zk_nodes rsp w = Ret ERR_OK w.
Proof.
  intros V D O. assert (S : str_to_int (bytes_str (req_data req)) = Some (i32 (Nodes.version (m_nodes w)))).
  { rewrite D. unfold dec. rewrite String.string_of_list_ascii_of_string. apply str_to_int_pretty. apply i32_range. }
  unfold on_req_sync_zk_nodes. rewrite S. do 2 eexists. split; [done |].
  intros rsp code msg B. unfold on_rsp_sync_zk_nodes, check_rsp, req_data. rewrite B. cbn.
  rewrite u32_i32 by done. rewrite register_roundtrip by done.
  change (ERR_OK =? ERR_OK) with true. unfold mbind, M_bind, get. cbn [negb].
  assert (version (sync_answer (m_nodes m) (Nodes.version (m_nodes w))) = Nodes.version (m_nodes w)) as ->.
  { unfold sync_answer. by destruct (_ =? _). }
  by rewrite Z.eqb_refl.
Qed.

(** C34: the descriptor of a node that asks for worker [i] goes to worker [i].
    The request's text is the number [i] of a worker of the manager's table,
    and the manager's answer to the node went out ([n1] is the state then).
    While the kernel answers EAGAIN for the data channel of that worker the
    handler only sleeps ([k] times, fewer than the bound on the tries), and
    then its whole effect is decided by the kernel's next answer: when the
    kernel takes the descriptor, it went once to the data channel of the worker
    with index [i], as a system connection of the protobuf codec, nothing else
    was done, and the transfer is reported; when the kernel refuses it, nothing
    was done and the failure is reported.  So no other worker ever gets it. *)
Theorem syscmd_connect_reaches_worker req i n n1 p info k n2 :
  req_data req = dec i -> 1 <= i <= zlen (WorkerDataMgr.get_infos (m_worker_data_mgr n)) ->
  zlen (WorkerDataMgr.get_infos (m_worker_data_mgr n)) < 2 ^ 31 ->
  send_ack req ERR_OK "ok" [] n = Ret ERR_OK n1 ->
  WorkerDataMgr.inv (m_worker_data_mgr n1) ->
  WorkerDataMgr.m_index_workers (m_worker_data_mgr n1) !! i = Some p ->
  WorkerDataMgr.heap (m_worker_data_mgr n1) !! p = Some info ->
  let channel := Pb.fd (WorkerDataMgr.fdata info) in
  waits channel k n1 n2 -> (k < fuel)%nat -> sendmsg (ticks n2) channel <> Connection.EAGAIN ->
  WorkerDataMgr.index info = i /\
  on_req_connect_to_worker req n = if sendmsg (ticks n2) channel =? 0
    then Ret ERR_TRANSFER_FD_DONE (log (tick n2) (EvTransfer channel (mk_channel (Pb.fd (Pb.ft req)) AF_INET 1 1)))
    else Ret ERR_TRANSFER_FD_FAILED (tick n2).
Proof.
  intros D I C A W X Y channel Ws Fu Na. split.
  { destruct (WorkerDataMgr.inv_index _ W _ _ X) as (info' & Y' & ? & _). congruence. }
  assert (S : str_to_int (bytes_str (req_data req)) = Some i).
  { rewrite D. unfold dec. rewrite String.string_of_list_ascii_of_string. apply str_to_int_pretty. lia. }
  assert (G : WorkerDataMgr.get_worker_data_fd (m_worker_data_mgr n1) i = Some channel).
  { unfold WorkerDataMgr.get_worker_data_fd. by rewrite X, Y. }
  unfold on_req_connect_to_worker, mbind, M_bind, get. rewrite S. cbn [deref]. rewrite i32_small by lia.
  destruct (Z.eqb_spec i 0), (Z.ltb_spec (zlen (WorkerDataMgr.get_infos (m_worker_data_mgr n))) i); [lia.. |].
  cbn [orb]. rewrite A, Z.eqb_refl. cbn [negb]. rewrite G. cbn [deref]. by apply (transfer_loop_spec _ _ _ k).
Qed.

(** C35: a node can crash a manager: a connect request whose text does not
    start like a number makes [std::stoi] throw in the handler, and nothing
    catches the exception. *)
Theorem syscmd_bad_index_crashes (n : Network) req ch l :
  is_manager n = true -> req_cmd req = CMD_REQ_CONNECT_TO_WORKER ->
  req_data req = ch :: l -> is_space ch = false -> digit ch = None -> ch <> "-"%char -> ch <> "+"%char ->
  handle_msg req n = Undef.
Proof.
  intros M C D Sp Dg Nm Np. unfold handle_msg. rewrite C. change (CMD_SYS_END <=? _) with false.
  unfold mbind, M_bind, get. rewrite M. unfold handle_manager_msg. rewrite C. eval_cmds.
  unfold on_req_connect_to_worker, mbind, M_bind, get, deref.
  assert (S : str_to_int (bytes_str (req_data req)) = None).
  { rewrite D. unfold str_to_int. rewrite bool_decide_false by done. unfold stoi.
    rewrite String.list_ascii_of_string_of_list_ascii. cbn [skip_spaces]. rewrite Sp. cbn [signed_digits].
    rewrite !bool_decide_false by done. cbn [digits]. by rewrite Dg. }
  by rewrite S.
Qed.

End syscmd.

(** ** Witnesses *)

#[local] Existing Instances zero_malloc WireFormat.wire easy_kernel Nodes.toy_digest numbered.

Definition request (cmd : Z) (data : bytes) (f : Pb.fd_t) : Pb.Msg :=
  Pb.mk_msg f (Pb.mk_head cmd 7 (zlen data)) (Pb.mk_body Pb.NoType data [] []).

(** A manager that knows a gate, and a worker that asks for news. *)
Definition manager0 : Network := set_nodes (net0 MANAGER) Nodes.one_gate.
Definition sync_req : Pb.Msg := request CMD_REQ_SYNC_ZK_NODES (dec 0) (Pb.mk_fd 9 1).

Lemma manager0_answer :
  sync_answer (m_nodes manager0) 0 = mk_register 0 "" [Nodes.gate "/n/1" "10.0.0.1" 2 100].
Proof. vm_compute. reflexivity. Qed.

Lemma manager0_answer_ok : register_ok (sync_answer (m_nodes manager0) 0).
Proof.
  rewrite manager0_answer. apply (bool_decide_unpack _). vm_compute. exact I.
Qed.

Lemma syscmd_sync_never_repairs_witness :
  exists d k, on_req_sync_zk_nodes 9 sync_req manager0 =
      (Network.send_ack 9 sync_req ERR_OK "ok" d ≫= k) manager0 /\
    forall rsp code msg, Pb.body rsp = Pb.mk_body (Pb.RspResult code msg) d [] [] ->
      on_rsp_sync_zk_nodes rsp (net0 WORKER) = Ret ERR_OK (net0 WORKER).
Proof.
  refine (@syscmd_sync_never_repairs zero_malloc WireFormat.wire easy_kernel Nodes.toy_digest numbered 9 numbered_spec
           (net0 WORKER) manager0 sync_req _ _ manager0_answer_ok).
  - split; [reflexivity | vm_compute; reflexivity].
  - reflexivity.
Defined.

(** A manager with a node's connection and one worker. *)
Definition manager1 : Network :=
  set_workers (after (create_conn 9 Codec.PROTOBUF false (net0 MANAGER))) WorkerDataMgr.three.

Lemma syscmd_bad_index_crashes_witness :
  handle_msg 9 (request CMD_REQ_CONNECT_TO_WORKER (str_bytes "x") (Pb.mk_fd 9 1)) manager1 = Undef.
Proof. by apply (syscmd_bad_index_crashes 9 manager1 _ "x"%char []). Defined.

(** The node asks for the second of three workers. *)
Definition connect_req : Pb.Msg := request CMD_REQ_CONNECT_TO_WORKER (dec 2) (Pb.mk_fd 9 1).

Definition manager1_acked : Network := after (Network.send_ack 9 connect_req ERR_OK "ok" [] manager1).

Lemma syscmd_connect_reaches_worker_witness :
  on_req_connect_to_worker 9 connect_req manager1 =
    Ret ERR_TRANSFER_FD_DONE (log (tick manager1_acked) (EvTransfer 13 (mk_channel 9 AF_INET 1 1))).
Proof.
  refine (proj2 (syscmd_connect_reaches_worker 9 connect_req 2 manager1 manager1_acked 7100
            (WorkerDataMgr.mk_info 502 2 (Pb.mk_fd 12 1) (Pb.mk_fd 13 2) "" WorkerDataMgr.payload_default) 0 manager1_acked
            _ _ _ _ _ _ _ _ _ _));
    [done | split; vm_compute; discriminate | vm_compute; reflexivity | vm_compute; reflexivity
    | | vm_compute; reflexivity | vm_compute; reflexivity | done | lia | vm_compute; discriminate].
  apply (@WorkerDataMgr.workers_inv WorkerDataMgr.front WorkerDataMgr.front_spec), WorkerDataMgr.three_reachable.
Defined.

End SysCmd.
