(* ===== verification/ZkBio.v ===== *)
(** * ZkBio: the background thread of the zookeeper client

    Model of [zookeeper/zk_task.h] and of the queues of [zookeeper/zk_bio.h],
    [zk_bio.cpp].  Two threads share the two lists under a mutex: the process
    submits commands and handles the answers from a timer, the background
    thread executes one command after the other.  A step is what happens
    while the mutex is held, or one access to [m_stop_thread], which no mutex
    protects; between steps the threads interleave freely. *)

From S2P Require Import Prelude.

#[local] Open Scope Z_scope.

Module ZkBio.

Inductive CMD :=
  | UNKNOWN_CMD
  | REGISTER
  | GET
  | SET_DATA
  | DELETE
  | NOTIFY_SESSION_CONNECTD
  | NOTIFY_SESSION_CONNECTING
  | NOTIFY_SESSION_EXPIRED
  | NOTIFY_NODE_CREATED
  | NOTIFY_NODE_DELETED
  | NOTIFY_NODE_DATA_CAHNGED
  | NOTIFY_NODE_CHILD_CAHNGED
  | END.

Record zk_result := mk_result { error : Z; errstr : string; value : string; values : list string }.

Record zk_task := mk_task {
  path : string;
  task_value : string;
  cmd : CMD;
  create_time : Z;
  res : zk_result;
}.

Definition result0 : zk_result := mk_result 0 "" "" [].

Definition set_res (t : zk_task) (r : zk_result) : zk_task :=
  mk_task (path t) (task_value t) (cmd t) (create_time t) r.

(** Where the background thread is: not created, in front of the test of
    [m_stop_thread], behind it and waiting for a command, executing a command,
    or at its end. *)
Inductive thread_at := NotStarted | Testing | Waiting | Running (t : zk_task) | Ended.

(** The members of [Bio], the thread, and the local list of [handle_acks]. *)
Record Bio := mk_bio {
  m_stop_thread : bool;
  m_req_tasks : list zk_task;
  thread : thread_at;
  m_ack_tasks : list zk_task;
  handling : list zk_task;
}.

Definition new : Bio := mk_bio true [] NotStarted [] [].

(** The two effects of [bio_init]: the thread exists before [m_stop_thread] is
    cleared, and may run in between. *)
Definition bio_create (b : Bio) : Bio := mk_bio (m_stop_thread b) (m_req_tasks b) Testing (m_ack_tasks b) (handling b).
Definition bio_started (b : Bio) : Bio := mk_bio false (m_req_tasks b) (thread b) (m_ack_tasks b) (handling b).

(** [bio_init] when the thread does not run in between; [created] is the answer
    of [pthread_create]. *)
Definition bio_init (created : bool) (b : Bio) : bool * Bio := if created then (true, bio_started (bio_create b)) else (false, b).

Definition bio_stop (b : Bio) : Bio := mk_bio true (m_req_tasks b) (thread b) (m_ack_tasks b) (handling b).

Definition add_cmd_task (b : Bio) (p : string) (c : CMD) (v : string) (now : Z) : Bio :=
  mk_bio (m_stop_thread b) (m_req_tasks b ++ [mk_task p v c now result0]) (thread b) (m_ack_tasks b) (handling b).

(** The loop of [bio_process_tasks]: [while (!bio->m_stop_thread)], *)
Definition test_stop (b : Bio) : option Bio :=
  match thread b with
  | Testing => Some (mk_bio (m_stop_thread b) (m_req_tasks b) (if m_stop_thread b then Ended else Waiting) (m_ack_tasks b) (handling b))
  | _ => None
  end.

(** taking the first command, or waiting for one (whatever [m_stop_thread] is
    by now), *)
Definition take_task (b : Bio) : option Bio :=
  match thread b, m_req_tasks b with
  | Waiting, t :: l => Some (mk_bio (m_stop_thread b) l (Running t) (m_ack_tasks b) (handling b))
  | _, _ => None
  end.

(** [bio_process_cmd(task)], with the result it leaves in the task, and
    [add_ack_task(task)]. *)
Definition add_ack_task (b : Bio) (r : zk_result) : option Bio :=
  match thread b with
  | Running t => Some (mk_bio (m_stop_thread b) (m_req_tasks b) Testing (m_ack_tasks b ++ [set_res t r]) (handling b))
  | _ => None
  end.

(** The loop of [handle_acks] that fetches at most 100 answers. *)
Fixpoint fetch (i : nat) (acks tasks : list zk_task) : list zk_task * list zk_task :=
  match i, acks with
  | S i, t :: acks => fetch i acks (tasks ++ [t])
  | _, _ => (acks, tasks)
  end.

Definition fetch_acks (b : Bio) : option Bio :=
  match handling b with
  | [] =>
      let '(acks, tasks) := fetch 100 (m_ack_tasks b) [] in
      Some (mk_bio (m_stop_thread b) (m_req_tasks b) (thread b) acks tasks)
  | _ => None
  end.

(** The next [timer_process_ack(v)] of the loop over the fetched answers. *)
Definition next_ack (b : Bio) : option (zk_task * Bio) :=
  match handling b with
  | t :: l => Some (t, mk_bio (m_stop_thread b) (m_req_tasks b) (thread b) (m_ack_tasks b) l)
  | [] => None
  end.

(** ** The two threads *)

(** The work on commands that are there: steps of the background thread, and
    of the timer with the answers handled so far. *)
Inductive work : Bio * list zk_task -> Bio * list zk_task -> Prop :=
| work_test b acks b' : test_stop b = Some b' -> work (b, acks) (b', acks)
| work_take b acks b' : take_task b = Some b' -> work (b, acks) (b', acks)
| work_ack b acks r b' : add_ack_task b r = Some b' -> work (b, acks) (b', acks)
| work_fetch b acks b' : fetch_acks b = Some b' -> work (b, acks) (b', acks)
| work_next b acks t b' : next_ack b = Some (t, b') -> work (b, acks) (b', acks ++ [t]).

(** All that can happen, with the commands submitted so far and the answers
    handled so far; [bio_init] is called once. *)
Inductive reach : Bio -> list zk_task -> list zk_task -> Prop :=
| reach_new : reach new [] []
| reach_create b subs acks : reach b subs acks -> thread b = NotStarted -> reach (bio_create b) subs acks
| reach_started b subs acks : reach b subs acks -> thread b <> NotStarted -> reach (bio_started b) subs acks
| reach_stop b subs acks : reach b subs acks -> reach (bio_stop b) subs acks
| reach_add b subs acks p c v now :
    reach b subs acks -> reach (add_cmd_task b p c v now) (subs ++ [mk_task p v c now result0]) acks
| reach_work b subs acks b' acks' : reach b subs acks -> work (b, acks) (b', acks') -> reach b' subs acks'.

(** A task without its result. *)
Definition key (t : zk_task) : zk_task := set_res t result0.

Definition running (b : Bio) : list zk_task := match thread b with Running t => [t] | _ => [] end.

Definition pending (b : Bio) : list zk_task := handling b ++ m_ack_tasks b ++ running b ++ m_req_tasks b.

Lemma fetch_spec i acks tasks : fetch i acks tasks = (drop i acks, tasks ++ take i acks).
Proof.
  revert acks tasks. induction i as [|i IH]; intros [|t acks] tasks; cbn; [by rewrite app_nil_r .. |].
  by rewrite IH, <- app_assoc.
Qed.

(** No step of the work loses a command or changes the order. *)
Lemma work_order b acks b' acks' : work (b, acks) (b', acks') -> key <$> acks' ++ pending b' = key <$> acks ++ pending b.
Proof.
  intros W. inversion W as [? ? ? E | ? ? ? E | ? ? r ? E | ? ? ? E | ? ? t ? E]; subst; unfold pending, running.
  - unfold test_stop in E. destruct (thread b); try done. injection E as <-. cbn. by destruct (m_stop_thread b).
  - unfold take_task in E. destruct (thread b); try done. destruct (m_req_tasks b); [done |]. by injection E as <-.
  - unfold add_ack_task in E. destruct (thread b); try done. injection E as <-. cbn. by rewrite !fmap_app, <- !app_assoc.
  - unfold fetch_acks in E. destruct (handling b); [| done]. rewrite fetch_spec in E. injection E as <-.
    cbn [handling m_ack_tasks thread m_req_tasks app]. by rewrite (app_assoc (take _ _)), take_drop.
  - unfold next_ack in E. destruct (handling b) as [|x l]; [done |]. injection E as <- <-. cbn. by rewrite <- app_assoc.
Qed.

Lemma bio_order b subs acks : reach b subs acks -> key <$> acks ++ pending b = subs.
Proof.
  induction 1 as [| b subs acks _ IH E | b subs acks _ IH | b subs acks _ IH | b subs acks p c v now _ IH | b subs acks b' acks' _ IH W].
  - done.
  - rewrite <- IH. unfold pending, running. cbn. by rewrite E.
  - done.
  - done.
  - rewrite <- IH. unfold pending, running. cbn. by rewrite !app_assoc, !fmap_app.
  - rewrite <- IH. by apply work_order.
Qed.

(** *** The work can be finished *)

Definition set_handling (b : Bio) l : Bio := mk_bio (m_stop_thread b) (m_req_tasks b) (thread b) (m_ack_tasks b) l.
Definition set_acks (b : Bio) l : Bio := mk_bio (m_stop_thread b) (m_req_tasks b) (thread b) l (handling b).

Lemma work_handling b acks : rtc work (b, acks) (set_handling b [], acks ++ handling b).
Proof.
  destruct b as [s q th a h]. cbn. revert acks. induction h as [|t h IH]; intros acks; [by rewrite app_nil_r |].
  eapply rtc_l; [by eapply work_next |]. cbn. replace (acks ++ t :: h) with ((acks ++ [t]) ++ h) by (by rewrite <- app_assoc). apply IH.
Qed.

Lemma work_acks b acks : handling b = [] -> rtc work (b, acks) (set_acks b [], acks ++ m_ack_tasks b).
Proof.
  destruct b as [s q th a h]. cbn. intros ->. remember (length a) as n eqn:E. revert a acks E.
  induction n as [n IH] using lt_wf_ind. intros a acks ->. destruct a as [|t a]; [rewrite app_nil_r; apply rtc_refl |].
  eapply rtc_l; [apply work_fetch; unfold fetch_acks; cbn [handling m_ack_tasks]; rewrite fetch_spec; reflexivity |].
  etrans; [apply work_handling |]. cbn [handling app set_handling m_stop_thread m_req_tasks thread m_ack_tasks].
  assert (acks ++ t :: a = (acks ++ take 100 (t :: a)) ++ drop 100 (t :: a)) as -> by (by rewrite <- app_assoc, take_drop).
  refine (IH (length (drop 100 (t :: a))) _ (drop 100 (t :: a)) _ eq_refl). rewrite length_drop. cbn. lia.
Qed.

(** A thread that is not at its end, and is not told to stop, works off the
    commands. *)
Lemma work_commands b acks : m_stop_thread b = false -> thread b <> NotStarted -> thread b <> Ended ->
  exists b', rtc work (b, acks) (b', acks) /\ m_req_tasks b' = [] /\ running b' = [].
Proof.
  destruct b as [s q th a h]. cbn. intros -> N1 N2. unfold running. revert th a N1 N2. induction q as [|x q IH]; intros th a N1 N2.
  - destruct th as [| | |t|]; try done; [eexists; split; [apply rtc_refl | done] .. |].
    eexists. split; [eapply rtc_once, (work_ack _ _ result0); reflexivity | done].
  - assert (exists a', rtc work (mk_bio false (x :: q) th a h, acks) (mk_bio false (x :: q) Waiting a' h, acks)) as (a' & St).
    { destruct th as [| | |t|]; try done; [exists a; eapply rtc_once, work_test; reflexivity | exists a; apply rtc_refl |].
      eexists. eapply rtc_l; [eapply (work_ack _ _ result0); reflexivity |]. eapply rtc_once, work_test. reflexivity. }
    destruct (IH (Running x) a') as (b' & St' & ? & ?); [done | done |].
    exists b'. split; [| done]. etrans; [exact St |]. eapply rtc_l; [eapply work_take; reflexivity | exact St'].
Qed.

Lemma work_all b acks : m_stop_thread b = false -> thread b <> NotStarted -> thread b <> Ended ->
  exists b' acks', rtc work (b, acks) (b', acks') /\ pending b' = [].
Proof.
  intros S N1 N2. destruct (work_commands b acks S N1 N2) as (b1 & R1 & Q & Rn).
  exists (set_acks (set_handling b1 []) []), ((acks ++ handling b1) ++ m_ack_tasks (set_handling b1 [])). split.
  - etrans; [exact R1 |]. etrans; [apply work_handling | by apply work_acks].
  - unfold pending, running in *. cbn. by rewrite Rn, Q.
Qed.

Lemma work_order_star p p' : rtc work p p' -> key <$> snd p' ++ pending (fst p') = key <$> snd p ++ pending (fst p).
Proof. induction 1 as [| [b acks] [b1 acks1] p' W _ ->]; [done | by apply work_order]. Qed.

Lemma reach_star subs p p' : rtc work p p' -> reach (fst p) subs (snd p) -> reach (fst p') subs (snd p').
Proof. induction 1 as [| [b acks] [b1 acks1] p' W _ IH]; [done |]. intros R. apply IH. by eapply reach_work. Qed.

Lemma ended_star p p' : rtc work p p' -> thread (fst p) = Ended -> thread (fst p') = Ended /\ m_req_tasks (fst p') = m_req_tasks (fst p).
Proof.
  induction 1 as [| [b acks] [b1 acks1] p' W _ IH]; [done |]. cbn. intros E.
  assert (thread b1 = Ended /\ m_req_tasks b1 = m_req_tasks b) as [E1 <-]; [| by apply IH].
  inversion W as [? ? ? X | ? ? ? X | ? ? r ? X | ? ? ? X | ? ? t ? X]; subst.
  - unfold test_stop in X. by rewrite E in X.
  - unfold take_task in X. by rewrite E in X.
  - unfold add_ack_task in X. by rewrite E in X.
  - unfold fetch_acks in X. destruct (handling b); [| done]. rewrite fetch_spec in X. by injection X as <-.
  - unfold next_ack in X. destruct (handling b); [done |]. by injection X as <- <-.
Qed.

(** ** Property *)

(** Two commands, the first one answered and handled. *)
Definition t1 : zk_task := mk_task "/n/1" "" GET 5 result0.
Definition t2 : zk_task := mk_task "/n/2" "" DELETE 6 result0.
Definition a1 : zk_task := set_res t1 (mk_result 0 "" "{}" []).
Definition two_sent : Bio := mk_bio false [t2] Testing [] [].

Lemma two_sent_reach : reach two_sent [t1; t2] [a1].
Proof.
  apply (reach_work (mk_bio false [t2] Testing [] [a1]) _ []); [| by apply (work_next _ [])].
  apply (reach_work (mk_bio false [t2] Testing [a1] []) _ []); [| by apply work_fetch].
  apply (reach_work (mk_bio false [t2] (Running t1) [] []) _ []); [| by apply (work_ack _ _ (mk_result 0 "" "{}" []))].
  apply (reach_add (mk_bio false [] (Running t1) [] []) [t1] [] "/n/2" DELETE "" 6).
  apply (reach_work (mk_bio false [t1] Waiting [] []) _ []); [| by apply work_take].
  apply (reach_add (mk_bio false [] Waiting [] []) [] [] "/n/1" GET "" 5).
  apply (reach_work (bio_started (bio_create new)) _ []); [| by apply work_test].
  apply reach_started; [apply reach_create; [apply reach_new | done] | done].
Qed.

(** The thread looks at [m_stop_thread] before [bio_init] has cleared it: it has
    ended, and the command that is submitted is never executed. *)
Lemma thread_ended_early : reach (add_cmd_task (bio_started (mk_bio true [] Ended [] [])) "/n/1" GET "" 5) [t1] [].
Proof.
  apply (reach_add _ []), reach_started; [| done]. apply (reach_work (bio_create new) _ []); [| by apply work_test].
  apply reach_create; [apply reach_new | done].
Qed.


End ZkBio.
