(* ===== verification/ZkClient.v ===== *)
(** * ZkClient: the cluster's node table, from zookeeper to the workers

    Model of [zk_client.h] and [zk_client.cpp].  The first part runs in the
    background thread and only talks to zookeeper; its answers are a function
    of the number of calls so far.  The second part runs in the process: it
    changes the manager's node table and forwards every change to the workers
    through [SysCmd].  JSON texts are read and written by a library
    ([CJsonObject], protobuf's [json_util]), so their meaning is a parameter. *)

From S2P Require Import Prelude SocketBuffer Proto CodecProto Connection StdMap Util Nodes Timers WorkerDataMgr Effect Protocol Network SysProto SysCmd ZkBio.
Import SocketBuffer Util Network SysProto.

#[local] Open Scope Z_scope.

Module ZkClient.

Definition z_ok : Z := 0.
Definition z_system_error : Z := -1.
Definition z_no_node : Z := -101.
Definition z_node_exists : Z := -110.

(** ** The background thread *)

Inductive zk_op :=
  | ExistsNode (p : string)
  | CreatePersistent (p : string)
  | CreateSequenceEphemeral (p : string)
  | CreateEphemeral (p : string)
  | SetNode (p v : string)
  | DeleteNode (p : string)
  | WatchData (p : string)
  | WatchChildren (p : string).

(** The return code and what the output argument holds. *)
Record zk_answer := mk_answer { rc : Z; out : string; outs : list string }.

(** The entries of the configuration that registering reads;
    [watch_node_type] is [None] when it is not an array. *)
Record RegConfig := mk_reg {
  root : string;
  watch_node_type : option (list string);
  reg_node_type : string;
  server_name : string;
  reg_node_host : string;
  reg_node_port : string;
  old_path : string;
}.

Class Json := {
  parse_config : string -> option RegConfig;
  node_json : string -> RegConfig -> Z -> string;     (** path, configuration, worker count *)
  is_json : string -> bool;
  register_json : string -> list string -> string;    (** own path, node texts *)
  parse_register : string -> option (string * list string);
  json_to_proto : string -> option Nodes.zk_node;
}.

Class Zookeeper := {
  zk_call : nat -> zk_op -> zk_answer;
  zk_connect : nat -> Z;
  pthread_create : nat -> bool;   (** a thread can be created *)
  error_string : Z -> string;
}.

(** What the thread changes: the calls it made, and [m_payload_node_path]. *)
Record Thread := mk_thread { calls : list zk_op; payload_node_path : string }.

Section thread.
Context `{Json} `{Zookeeper} (worker_cnt : string).

Abbreviation T := (M Thread).

Definition call (o : zk_op) : T zk_answer := fun s =>
  Ret (zk_call (length (calls s)) o) (mk_thread (calls s ++ [o]) (payload_node_path s)).

Fixpoint create_each (path : string) (paths : list string) (ret : Z) : T Z :=
  match paths with
  | [] => mret ret
  | v :: paths =>
      let path := path +:+ "/" +:+ v in
      a ← call (CreatePersistent path);
      if negb (rc a =? z_ok) && negb (rc a =? z_node_exists) then mret (rc a)
      else create_each path paths (rc a)
  end.

Definition bio_create_parent (parent : string) : T Z :=
  a ← call (ExistsNode parent);
  if negb (rc a =? z_ok) && negb (rc a =? z_no_node) then mret (rc a) else
  if rc a =? z_no_node then
    paths ← deref (split_str parent "/" true);
    create_each "" paths (rc a)
  else mret (rc a).

(** [p.substr(p.find_last_of("/") + 1)] *)
Fixpoint after_last (c : ascii) (l res : bytes) : bytes :=
  match l with
  | [] => res
  | x :: l => after_last c l (if bool_decide (x = c) then l else res)
  end.
Definition base_name (p : string) : string := bytes_str (after_last "/"%char (str_bytes p) (str_bytes p)).

(** [format_str("%s/%s", a, b)] and [format_str("%s/nodes/%s", ...)] *)
Definition join (a mid b : string) : string := format_str (c_str a ++ str_bytes mid ++ c_str b).

(** The children of one watched type whose data is JSON. *)
Fixpoint watch_each (parent : string) (children : list string) (nodes : list string) : T (list string) :=
  match children with
  | [] => mret nodes
  | ch :: children =>
      a ← call (WatchData (join parent "/" ch));
      let ok := (rc a =? z_ok) && negb (bool_decide (out a = "")) && is_json (out a) in
      watch_each parent children (if ok then nodes ++ [out a] else nodes)
  end.

(** [inr]: the nodes found; [inl]: the error the function returns. *)
Fixpoint watch_types (root : string) (types : list string) (nodes : list string) : T (Z + list string) :=
  match types with
  | [] => mret (inr nodes)
  | t :: types =>
      let parent := join root "/nodes/" t in
      a ← call (WatchChildren parent);
      if rc a =? z_ok then
        nodes ← watch_each parent (outs a) nodes;
        watch_types root types nodes
      else if rc a =? z_no_node then watch_types root types nodes
      else mret (inl (rc a))
  end.

(** The return code and [task->res.value]. *)
Definition bio_register_node (config : string) : T (Z * string) :=
  match parse_config config with
  | None => mret (z_system_error, "")
  | Some json =>
      if bool_decide (root json = "") then mret (z_system_error, "") else
      match watch_node_type json with
      | None => mret (z_system_error, "")
      | Some watchs =>
          let parent := join (root json) "/nodes/" (reg_node_type json) in
          let node_name := join (server_name json) "-" (reg_node_type json) in
          let node_path := join parent "/" node_name in
          ret ← bio_create_parent parent;
          if negb (ret =? z_ok) then mret (ret, "") else
          let payload_parent := join (root json) "/payload/" (reg_node_type json) in
          ret ← bio_create_parent payload_parent;
          if negb (ret =? z_ok) then mret (ret, "") else
          a ← call (CreateSequenceEphemeral node_path);
          if negb (rc a =? z_ok) then mret (rc a, "") else
          let node_path := out a in
          let path := join payload_parent "/" (bytes_str (c_str (base_name node_path))) in
          a ← call (CreateEphemeral path);
          if negb (rc a =? z_ok) then mret (rc a, "") else
          modify (fun s => mk_thread (calls s) path) ;;
          cnt ← deref (str_to_int worker_cnt);
          a ← call (SetNode node_path (node_json node_path json cnt));
          if negb (rc a =? z_ok) then mret (rc a, "") else
          r ← watch_types (root json) watchs [];
          match r with
          | inl ret => mret (ret, "")
          | inr nodes =>
              (if bool_decide (old_path json = "") then mret tt
               else call (DeleteNode (old_path json)) ;; mret tt) ;;
              mret (z_ok, register_json node_path nodes)
          end
      end
  end.

(** The result [bio_process_cmd] leaves in the task. *)
Definition bio_process_cmd (t : ZkBio.zk_task) : T ZkBio.zk_result :=
  '(ret, value, values) ←
    match ZkBio.cmd t with
    | ZkBio.REGISTER => '(ret, v) ← bio_register_node (ZkBio.task_value t); mret (ret, v, [])
    | ZkBio.DELETE => a ← call (DeleteNode (ZkBio.path t)); mret (rc a, "", [])
    | ZkBio.NOTIFY_SESSION_CONNECTD | ZkBio.NOTIFY_SESSION_CONNECTING | ZkBio.NOTIFY_SESSION_EXPIRED
    | ZkBio.NOTIFY_NODE_CREATED | ZkBio.NOTIFY_NODE_DELETED => mret (z_ok, "", [])
    | ZkBio.GET | ZkBio.NOTIFY_NODE_DATA_CAHNGED =>
        a ← call (WatchData (ZkBio.path t)); mret (rc a, out a, [])
    | ZkBio.SET_DATA => a ← call (SetNode (ZkBio.path t) (ZkBio.task_value t)); mret (rc a, "", [])
    | ZkBio.NOTIFY_NODE_CHILD_CAHNGED => a ← call (WatchChildren (ZkBio.path t)); mret (rc a, "", outs a)
    | ZkBio.UNKNOWN_CMD | ZkBio.END => mret (z_system_error, "", [])
    end;
  mret (ZkBio.mk_result ret (error_string ret) value values).

End thread.

(** ** The process *)

(** The entries of the configuration read here; [zk_text] is
    [m_config.ToString()]. *)
Record ZkConfig := mk_zkconfig {
  zk_empty : bool;
  zk_servers : string;
  zk_log_path : string;
  zk_log_level : string;
  zk_text : string;
}.

Record ZkClient := mk_client {
  bio : ZkBio.Bio;
  zk_config : ZkConfig;
  m_zk : bool;   (** not null *)
  m_is_connected : bool;
  m_is_registered : bool;
  m_is_expired : bool;
  m_payload_node_path : string;
  m_cronloops : Z;
}.

(** The client and the process it belongs to. *)
Record Proc := mk_proc { client : ZkClient; net : Network }.

Definition set_bio (c : ZkClient) (b : ZkBio.Bio) : ZkClient :=
  mk_client b (zk_config c) (m_zk c) (m_is_connected c) (m_is_registered c) (m_is_expired c)
            (m_payload_node_path c) (m_cronloops c).
Definition set_flags (c : ZkClient) (connected registered expired : bool) : ZkClient :=
  mk_client (bio c) (zk_config c) (m_zk c) connected registered expired (m_payload_node_path c) (m_cronloops c).
Definition set_zk (c : ZkClient) (config : ZkConfig) (z : bool) : ZkClient :=
  mk_client (bio c) config z (m_is_connected c) (m_is_registered c) (m_is_expired c)
            (m_payload_node_path c) (m_cronloops c).

Section process.
Context `{Malloc} `{Pb.Protobuf} `{Kernel} `{Digest} `{Messages} `{Json} `{Zookeeper} (fuel : nat).

Abbreviation P := (M Proc).

(** A method of the network. *)
Definition on_net {A} (m : M Network A) : P A := fun s =>
  match m (net s) with
  | Ret a n => Ret a (mk_proc (client s) n)
  | Block n => Block (mk_proc (client s) n)
  | Undef => Undef
  end.

Definition with_client (f : ZkClient -> ZkClient) : P unit := modify (fun s => mk_proc (f (client s)) (net s)).

Definition set_table_nodes (x : Nodes.Nodes) : P unit := on_net (modify (fun n => set_nodes n x)).

Definition add_cmd_task (p : string) (c : ZkBio.CMD) (v : string) : P bool :=
  t ← on_net (ask now_value);
  with_client (fun z => set_bio z (ZkBio.add_cmd_task (bio z) p c v t)) ;;
  mret true.

(** [config["old_path"]] is set in a copy; the task gets [m_config]. *)
Definition node_register : P bool :=
  s ← get;
  if zk_empty (zk_config (client s)) then mret false
  else add_cmd_task "" ZkBio.REGISTER (zk_text (zk_config (client s))).

Definition connect (servers : string) : P bool :=
  if bool_decide (servers = "") then mret false else
  ret ← on_net (ask zk_connect);
  if negb (ret =? z_ok) then mret false else
  created ← on_net (ask pthread_create);
  s ← get;
  let '(ok, b) := ZkBio.bio_init created (bio (client s)) in
  with_client (fun z => set_bio z b) ;;
  mret ok.

Definition reconnect : P bool :=
  ret ← on_net (ask zk_connect);
  if negb (ret =? z_ok) then mret false else node_register.

Definition set_zk_log (path level : string) : P bool :=
  s ← get;
  if bool_decide (level = "") || negb (m_zk (client s)) then mret false
  else mret (Codec.strcaseeq level "debug" || Codec.strcaseeq level "warn" ||
             Codec.strcaseeq level "info" || Codec.strcaseeq level "error").

(** [goto error] frees the handle. *)
Definition init (config : ZkConfig) : P bool :=
  with_client (fun z => set_zk z config (m_zk z)) ;;
  if zk_empty config then mret false else
  if bool_decide (zk_servers config = "") || bool_decide (zk_log_path config = "") ||
     bool_decide (zk_log_level config = "") then mret false else
  with_client (fun z => set_zk z config true) ;;
  ok ← set_zk_log (zk_log_path config) (zk_log_level config);
  ok ← (if ok : bool then connect (zk_servers config) else mret false);
  ok ← (if ok : bool then node_register else mret false);
  (if ok : bool then mret tt else with_client (fun z => set_zk z config false)) ;;
  mret ok.

(** ** Answers *)

(** The loop of [on_zk_register]: the new table and [rn.nodes()]. *)
Fixpoint register_loop (s : Nodes.Nodes) (acc : list Nodes.zk_node) (l : list string)
  : Nodes.Nodes * list Nodes.zk_node :=
  match l with
  | [] => (s, acc)
  | text :: l =>
      match json_to_proto text with
      | None => register_loop s acc l
      | Some zn =>
          let '(ok, s) := Nodes.add_zk_node s zn in
          register_loop s (if ok : bool then acc ++ [zn] else acc) l
      end
  end.

Definition register_table (s : Nodes.Nodes) (my_path : string) (l : list string) : Nodes.Nodes * register_node :=
  let '(s, zns) := register_loop (Nodes.set_my_zk_node_path (Nodes.clear s) my_path) [] l in
  (s, mk_register 0 my_path zns).

Definition on_zk_register (t : ZkBio.zk_task) : P unit :=
  if negb (ZkBio.error (ZkBio.res t) =? z_ok) then mret tt else
  match parse_register (ZkBio.value (ZkBio.res t)) with
  | None => mret tt
  | Some (my_path, texts) =>
      with_client (fun z => set_flags z (m_is_connected z) true (m_is_expired z)) ;;
      s ← get;
      let '(nodes, rn) := register_table (m_nodes (net s)) my_path texts in
      set_table_nodes nodes ;;
      on_net (SysCmd.send_reg_zk_node_to_worker fuel rn) ;;
      mret tt
  end.

(** [if (nodes()->del_zk_node(path)) send_del_zk_node_to_worker(path)] *)
Definition delete_one (p : string) : P unit :=
  s ← get;
  let '(ok, nodes) := Nodes.del_zk_node (m_nodes (net s)) p in
  set_table_nodes nodes ;;
  if ok : bool then on_net (SysCmd.send_del_zk_node_to_worker fuel p) ;; mret tt else mret tt.

Definition on_zk_node_deleted (t : ZkBio.zk_task) : P unit := delete_one (ZkBio.path t).

(** [on_zk_get_data] and [on_zk_data_change] *)
Definition on_zk_get_data (t : ZkBio.zk_task) : P unit :=
  if negb (ZkBio.error (ZkBio.res t) =? z_ok) then mret tt else
  match json_to_proto (ZkBio.value (ZkBio.res t)) with
  | None => mret tt
  | Some node =>
      s ← get;
      let '(ok, nodes) := Nodes.add_zk_node (m_nodes (net s)) node in
      set_table_nodes nodes ;;
      if ok : bool then on_net (SysCmd.send_add_zk_node_to_worker fuel node) ;; mret tt else mret tt
  end.

Definition on_zk_data_change (t : ZkBio.zk_task) : P unit := on_zk_get_data t.

Fixpoint get_each (paths : list string) : P unit :=
  match paths with
  | [] => mret tt
  | p :: paths => add_cmd_task p ZkBio.GET "" ;; get_each paths
  end.

Fixpoint delete_each (paths : list string) : P unit :=
  match paths with
  | [] => mret tt
  | p :: paths => delete_one p ;; delete_each paths
  end.

Definition on_zk_child_change (t : ZkBio.zk_task) : P unit :=
  if negb (ZkBio.error (ZkBio.res t) =? z_ok) then mret tt else
  let children := (fun ch => join (ZkBio.path t) "/" ch) <$> ZkBio.values (ZkBio.res t) in
  s ← get;
  let '(new_paths, del_paths, _) := Nodes.get_zk_diff_nodes (m_nodes (net s)) (base_name (ZkBio.path t)) children in
  get_each new_paths ;;
  delete_each del_paths.

Definition on_zk_session_connected : P unit := with_client (fun z => set_flags z true (m_is_registered z) false).
Definition on_zk_session_connecting : P unit :=
  with_client (fun z => set_flags z false (m_is_registered z) (m_is_expired z)).
Definition on_zk_session_expired : P unit :=
  with_client (fun z => set_flags z false false true) ;;
  reconnect ;;
  mret tt.

Definition timer_process_ack (t : ZkBio.zk_task) : P unit :=
  match ZkBio.cmd t with
  | ZkBio.REGISTER => on_zk_register t
  | ZkBio.GET => on_zk_get_data t
  | ZkBio.NOTIFY_SESSION_CONNECTING => on_zk_session_connecting
  | ZkBio.NOTIFY_SESSION_CONNECTD => on_zk_session_connected
  | ZkBio.NOTIFY_SESSION_EXPIRED => on_zk_session_expired
  | ZkBio.NOTIFY_NODE_DELETED => on_zk_node_deleted t
  | ZkBio.NOTIFY_NODE_DATA_CAHNGED => on_zk_data_change t
  | ZkBio.NOTIFY_NODE_CHILD_CAHNGED => on_zk_child_change t
  | ZkBio.SET_DATA | ZkBio.NOTIFY_NODE_CREATED => mret tt   (** only logged *)
  | ZkBio.UNKNOWN_CMD | ZkBio.DELETE | ZkBio.END => mret tt
  end.

(** [handle_acks]: the fetched answers, one after the other. *)
Fixpoint handle_each (k : nat) : P unit :=
  match k with
  | O => mret tt
  | S k =>
      s ← get;
      match ZkBio.next_ack (bio (client s)) with
      | None => mret tt
      | Some (t, b) =>
          with_client (fun z => set_bio z b) ;;
          timer_process_ack t ;;
          handle_each k
      end
  end.

Definition handle_acks : P unit :=
  s ← get;
  b ← deref (ZkBio.fetch_acks (bio (client s)));
  with_client (fun z => set_bio z b) ;;
  handle_each (length (ZkBio.handling b)).

Definition on_repeat_timer : P unit :=
  s ← get;
  let c := client s in
  (if (m_is_connected c || m_is_expired c) && negb (m_is_registered c) then
     hit ← deref (Timers.run_with_period Timers.DEFAULT_TIMER_RATE (m_cronloops c) 1000);
     if hit : bool then reconnect ;; mret tt else mret tt
   else mret tt) ;;
  handle_acks.

(** ** Events of zookeeper *)

Inductive zoo_event :=
  | SessionConnecting | SessionConnected | SessionExpired | SessionOther
  | Created | Deleted | Changed | Child | OtherEvent.

Definition on_zk_watch_events (e : zoo_event) (path : string) : P unit :=
  let add c := add_cmd_task path c "" ;; mret tt in
  match e with
  | SessionConnecting => add ZkBio.NOTIFY_SESSION_CONNECTING
  | SessionConnected => add ZkBio.NOTIFY_SESSION_CONNECTD
  | SessionExpired => add ZkBio.NOTIFY_SESSION_EXPIRED
  | Created => add ZkBio.NOTIFY_NODE_CREATED
  | Deleted => add ZkBio.NOTIFY_NODE_DELETED
  | Changed => add ZkBio.NOTIFY_NODE_DATA_CAHNGED
  | Child => add ZkBio.NOTIFY_NODE_CHILD_CAHNGED
  | SessionOther | OtherEvent => mret tt
  end.

Definition set_payload_data (data : string) : P bool :=
  s ← get;
  let c := client s in
  if negb (m_zk c) || negb (m_is_connected c) || bool_decide (m_payload_node_path c = "") then mret false
  else add_cmd_task (m_payload_node_path c) ZkBio.SET_DATA data.

Definition close_my_node : P unit :=
  s ← get;
  if m_zk (client s) then
    let node := Nodes.get_my_zk_node_path (m_nodes (net s)) in
    if bool_decide (node = "") then mret tt else add_cmd_task node ZkBio.DELETE "" ;; mret tt
  else mret tt.

(** ** Replication

    The manager's table, the table of one worker, and the messages on the way
    to it.  The manager's steps are the changes its handlers make
    ([answers_are_changes]); [send_to_workers] skips a worker whose connection
    is invalid and goes on when a send fails, so any message may not reach this
    worker.  The worker's step is what its handler does with a message
    ([SysCmd.handle_worker_table]); a worker that is restarted begins with an
    empty table and an empty channel.  Nothing waits between a change of the
    manager's table and its broadcast. *)

(** A change of the manager's table and the message it sends, if any. *)
Inductive change (m : Nodes.Nodes) : Nodes.Nodes -> option (Z * bytes) -> Prop :=
| ch_register my_path texts m' rn :
    register_table m my_path texts = (m', rn) -> register_ok rn ->
    change m m' (Some (CMD_REQ_REGISTER_NODE, register_serialize rn))
| ch_add z ok m' :
    zk_node_ok z -> Nodes.add_zk_node m z = (ok, m') ->
    change m m' (if ok : bool then Some (CMD_REQ_ADD_ZK_NODE, zk_node_serialize z) else None)
| ch_del p ok m' :
    Nodes.del_zk_node m p = (ok, m') ->
    change m m' (if ok : bool then Some (CMD_REQ_DEL_ZK_NODE, str_bytes p) else None).

(** [replicas cnt ha m w q s]: [s] says that the worker has been sent every
    change since it was sent a registration or since both began. *)
Inductive replicas (cnt : Z) (ha : Nodes.HASH_ALGORITHM) : Nodes.Nodes -> Nodes.Nodes -> list (Z * bytes) -> bool -> Prop :=
| rep_start : replicas cnt ha (Nodes.new cnt ha) (Nodes.new cnt ha) [] true
| rep_quiet m w q s m' : replicas cnt ha m w q s -> change m m' None -> replicas cnt ha m' w q s
| rep_sent m w q s m' c d : replicas cnt ha m w q s -> change m m' (Some (c, d)) ->
    replicas cnt ha m' w (q ++ [(c, d)]) (s || (c =? CMD_REQ_REGISTER_NODE))
| rep_lost m w q s m' msg : replicas cnt ha m w q s -> change m m' (Some msg) -> replicas cnt ha m' w q false
| rep_deliver m w c d q s : replicas cnt ha m w ((c, d) :: q) s -> replicas cnt ha m (SysCmd.apply_req w c d) q s
| rep_restart m w q s : replicas cnt ha m w q s -> replicas cnt ha m (Nodes.new cnt ha) [] false.

(** The table once the messages on the way have arrived. *)
Definition arrive (w : Nodes.Nodes) (q : list (Z * bytes)) : Nodes.Nodes :=
  foldl (fun t '(c, d) => SysCmd.apply_req t c d) w q.

(** The nodes the manager refused are not sent, and refusing changes nothing. *)
Lemma register_loop_spec s acc l s' zns :
  register_loop s acc l = (s', zns) ->
  exists l', zns = acc ++ l' /\ s' = foldl (fun s z => snd (Nodes.add_zk_node s z)) s l'.
Proof.
  revert s acc. induction l as [|text l IH]; intros s acc; cbn [register_loop].
  { intros [= <- <-]. exists []. by rewrite app_nil_r. }
  destruct (json_to_proto text) as [z|]; [| apply IH].
  destruct (Nodes.add_zk_node s z) as [ok s1] eqn:A. intros (l' & -> & ->)%IH. destruct ok.
  - exists (z :: l'). rewrite <- app_assoc. cbn. by rewrite A.
  - exists l'. split; [done |]. pose proof (Nodes.add_zk_node_refused s z) as R. rewrite A in R. cbn in R. by rewrite R.
Qed.

Lemma register_table_load m my_path texts m' rn :
  register_table m my_path texts = (m', rn) -> m' = SysCmd.load_nodes m rn.
Proof.
  unfold register_table, SysCmd.load_nodes. destruct (register_loop _ _ _) as [s zns] eqn:L.
  intros [= <- <-]. by apply register_loop_spec in L as (l' & -> & ->).
Qed.

#[local] Instance load_nodes_proper rn :
  Proper (Nodes.same_table ==> Nodes.same_table) (fun s => SysCmd.load_nodes s rn).
Proof.
  intros s s' []. unfold SysCmd.load_nodes. apply (Nodes.foldl_proper (fun z s => Nodes.add_zk_node s z)); [apply Nodes.add_zk_node_proper |].
  by split.
Qed.

Lemma load_nodes_reachable s rn : Nodes.reachable s -> Nodes.reachable (SysCmd.load_nodes s rn).
Proof.
  intros R. unfold SysCmd.load_nodes. generalize (nodes rn). intros l.
  assert (R' : Nodes.reachable (Nodes.set_my_zk_node_path (Nodes.clear s) (my_zk_path rn))).
  { apply (Nodes.reach_op _ (Nodes.SetMyPath _)), (Nodes.reach_op _ Nodes.Clear), R. }
  revert R'. generalize (Nodes.set_my_zk_node_path (Nodes.clear s) (my_zk_path rn)).
  induction l as [|z l IH]; intros s' R'; cbn; [done |]. apply IH, (Nodes.reach_op _ (Nodes.AddZk z)), R'.
Qed.

Lemma apply_register w rn : register_ok rn -> forall `{!MessagesSpec},
  SysCmd.apply_req w CMD_REQ_REGISTER_NODE (register_serialize rn) = SysCmd.load_nodes w rn.
Proof. intros O ?. unfold SysCmd.apply_req. cbn. by rewrite register_roundtrip. Qed.

Lemma change_reachable m m' msg : Nodes.reachable m -> change m m' msg -> Nodes.reachable m'.
Proof.
  intros R [my_path texts m1 rn E O | z ok m1 O E | p ok m1 E].
  - apply register_table_load in E as ->. by apply load_nodes_reachable.
  - pose proof (Nodes.reach_op _ (Nodes.AddZk z) R) as R'. cbn in R'. by rewrite E in R'.
  - pose proof (Nodes.reach_op _ (Nodes.DelZk p) R) as R'. cbn in R'. by rewrite E in R'.
Qed.

(** A replica that gets the message follows the change. *)
Lemma change_follows `{!MessagesSpec} m w m' msg :
  Nodes.reachable m -> Nodes.same_table m w -> change m m' msg -> Nodes.same_table m' (arrive w (option_list msg)).
Proof.
  intros R S [my_path texts m1 rn E O | z ok m1 O E | p ok m1 E].
  - apply register_table_load in E as ->. cbn. rewrite apply_register by done. by apply load_nodes_proper.
  - destruct (Nodes.add_zk_node_proper z m w S) as [B T]. cbv beta in B, T. rewrite E in B, T. cbn in B, T.
    destruct ok; cbn.
    + unfold SysCmd.apply_req. cbn. by rewrite zk_node_roundtrip.
    + by rewrite (Nodes.add_zk_node_refused w z (eq_sym B)) in T.
  - destruct (Nodes.del_zk_node_proper p m w S) as [B T]. cbv beta in B, T. rewrite E in B, T. cbn in B, T.
    unfold Nodes.del_zk_node in E. destruct (Nodes.m_zk_nodes m !! p) as [z|] eqn:L; injection E as <- <-; [| exact S].
    cbn. unfold SysCmd.apply_req. cbn. rewrite String.string_of_list_ascii_of_string.
    rewrite bool_decide_false; [done |]. intros ->. apply Nodes.nodes_inv in R.
    destruct (Nodes.inv_zk _ R _ _ L) as [Ep V]. unfold Nodes.is_valid_zk_node in V. by rewrite Ep in V.
Qed.

(** Both tables keep the settings they began with. *)
Definition settings (cnt : Z) (ha : Nodes.HASH_ALGORITHM) (s : Nodes.Nodes) : Prop := Nodes.m_vnode_cnt s = cnt /\ Nodes.m_ha s = ha.

Lemma same_settings cnt ha s s' : Nodes.same_settings s s' -> settings cnt ha s -> settings cnt ha s'.
Proof. intros [E1 E2] [<- <-]. by split. Qed.

Lemma load_settings cnt ha s rn : settings cnt ha s -> settings cnt ha (SysCmd.load_nodes s rn).
Proof.
  intros S. unfold SysCmd.load_nodes.
  assert (S' : settings cnt ha (Nodes.set_my_zk_node_path (Nodes.clear s) (my_zk_path rn))) by exact S. revert S'.
  generalize (Nodes.set_my_zk_node_path (Nodes.clear s) (my_zk_path rn)). induction (nodes rn) as [|z l IH]; intros s' S'; cbn; [done |].
  apply IH. eapply same_settings, S'. apply Nodes.add_zk_node_settings.
Qed.

Lemma arrive_settings cnt ha q w : settings cnt ha w -> settings cnt ha (arrive w q).
Proof.
  revert w. induction q as [|[c d] q IH]; intros w S; cbn; [done |]. apply IH. unfold SysCmd.apply_req.
  repeat match goal with |- settings _ _ (if ?b then _ else _) => destruct b end; try done.
  - destruct (zk_node_parse d); [| done]. eapply same_settings, S. apply Nodes.add_zk_node_settings.
  - eapply same_settings, S. apply Nodes.del_zk_node_settings.
  - destruct (register_parse d); [by apply load_settings | done].
Qed.

Lemma change_settings cnt ha m m' msg : change m m' msg -> settings cnt ha m -> settings cnt ha m'.
Proof.
  intros [my_path texts m1 rn E O | z ok m1 O E | p ok m1 E] S.
  - apply register_table_load in E as ->. by apply load_settings.
  - pose proof (Nodes.add_zk_node_settings m z) as A. rewrite E in A. by eapply same_settings.
  - pose proof (Nodes.del_zk_node_settings m p) as A. rewrite E in A. by eapply same_settings.
Qed.

(** Two tables that load the same registration are the same, whatever they
    held. *)
Lemma load_nodes_same cnt ha s s' rn : settings cnt ha s -> settings cnt ha s' -> Nodes.same_table (SysCmd.load_nodes s rn) (SysCmd.load_nodes s' rn).
Proof.
  intros [<- <-] [E1 E2]. unfold SysCmd.load_nodes.
  apply (Nodes.foldl_proper (fun z s => Nodes.add_zk_node s z)); [apply Nodes.add_zk_node_proper |]. by split.
Qed.

Lemma register_resets `{!MessagesSpec} cnt ha m w m' d : settings cnt ha m -> settings cnt ha w ->
  change m m' (Some (CMD_REQ_REGISTER_NODE, d)) -> Nodes.same_table m' (arrive w [(CMD_REQ_REGISTER_NODE, d)]).
Proof.
  intros Sm Sw C. inversion C as [my_path texts m1 rn E O | z ok m1 O E X | p ok m1 E X]; subst.
  - cbn. rewrite apply_register by done. apply register_table_load in E as ->. by eapply load_nodes_same.
  - by destruct ok.
  - by destruct ok.
Qed.

Lemma replicas_inv `{!MessagesSpec} cnt ha m w q s :
  replicas cnt ha m w q s -> Nodes.reachable m /\ settings cnt ha m /\ settings cnt ha (arrive w q) /\ (s = true -> Nodes.same_table m (arrive w q)).
Proof.
  induction 1 as [| m w q s m' _ (R & S & Sw & T) C | m w q s m' c d _ (R & S & Sw & T) C | m w q s m' msg _ (R & S & Sw & T) C
                 | m w c d q s _ IH | m w q s _ (R & S & _ & _)].
  - split_and!; [apply Nodes.reach_new | done | done | done].
  - split_and!; [by eapply change_reachable | by eapply change_settings | done |]. intros E. by apply (change_follows _ _ _ _ R (T E) C).
  - split_and!; [by eapply change_reachable | by eapply change_settings | |].
    + unfold arrive. rewrite foldl_app. by apply (arrive_settings cnt ha [(c, d)]).
    + intros E. unfold arrive. rewrite foldl_app. fold (arrive w q). fold (arrive (arrive w q) [(c, d)]).
      destruct s; [by apply (change_follows _ _ _ _ R (T eq_refl) C) |].
      apply Z.eqb_eq in E as ->. exact (register_resets cnt ha m (arrive w q) m' d S Sw C).
  - split_and!; [by eapply change_reachable | by eapply change_settings | done | done].
  - done.
  - split_and!; done.
Qed.

(** Everything [json_util] accepts is a message. *)
Class JsonSpec : Prop := {
  json_node_ok text z : json_to_proto text = Some z -> zk_node_ok z;
  json_path_ok text p l : parse_register text = Some (p, l) -> text_ok p;
}.

Lemma register_loop_ok `{!JsonSpec} s acc l :
  Forall zk_node_ok acc -> Forall zk_node_ok (snd (register_loop s acc l)).
Proof.
  revert s acc. induction l as [|text l IH]; intros s acc A; cbn [register_loop]; [done |].
  destruct (json_to_proto text) as [z|] eqn:J; [| by apply IH]. destruct (Nodes.add_zk_node s z) as [[] s1]; apply IH.
  - apply Forall_app. split; [done |]. apply Forall_singleton. by eapply json_node_ok.
  - done.
Qed.

(** The broadcast of a change. *)
Definition broadcast (msg : option (Z * bytes)) : P unit :=
  match msg with
  | Some (c, d) => on_net (seq ← new_seq; send_to_workers fuel c seq d) ;; mret tt
  | None => mret tt
  end.

(** The answers that concern nodes do nothing, or make one change of the
    table and broadcast it. *)
Lemma answers_are_changes `{!JsonSpec} t s :
  ZkBio.cmd t ∈ [ZkBio.REGISTER; ZkBio.GET; ZkBio.NOTIFY_NODE_DATA_CAHNGED; ZkBio.NOTIFY_NODE_DELETED] ->
  timer_process_ack t s = Ret tt s \/
  exists z m' msg, change (m_nodes (net s)) m' msg /\
    timer_process_ack t s = broadcast msg (mk_proc z (set_nodes (net s) m')).
Proof.
  intros C. assert (G : forall t, on_zk_get_data t s = Ret tt s \/
    exists z m' msg, change (m_nodes (net s)) m' msg /\ on_zk_get_data t s = broadcast msg (mk_proc z (set_nodes (net s) m'))).
  { clear t C. intros t. unfold on_zk_get_data. destruct (negb _); [by left |].
    destruct (json_to_proto _) as [z|] eqn:J; [| by left]. right.
    rewrite (bind_ret _ _ _ get _ s s s) by done. destruct (Nodes.add_zk_node (m_nodes (net s)) z) as [ok m'] eqn:A.
    exists (client s), m', (if ok : bool then Some (CMD_REQ_ADD_ZK_NODE, zk_node_serialize z) else None).
    split; [apply (ch_add _ z ok m'); [by eapply json_node_ok | done] | by destruct ok]. }
  rewrite !elem_of_cons in C. destruct C as [C|[C|[C|[C|[]%not_elem_of_nil]]]]; unfold timer_process_ack; rewrite C; [| apply G..|].
  - unfold on_zk_register. destruct (negb _); [by left |]. destruct (parse_register _) as [[p l]|] eqn:J; [| by left]. right.
    unfold register_table. rewrite (bind_ret _ _ _ _ _ s tt (mk_proc (set_flags (client s) (m_is_connected (client s)) true
      (m_is_expired (client s))) (net s))) by done.
    rewrite (bind_ret _ _ _ get _ _ _ _ eq_refl). cbn [net].
    pose proof (register_loop_ok (Nodes.set_my_zk_node_path (Nodes.clear (m_nodes (net s))) p) [] l ltac:(by constructor)) as F.
    destruct (register_loop _ [] l) as [m' zns] eqn:L. cbn in F.
    eexists _, m', (Some (CMD_REQ_REGISTER_NODE, register_serialize (mk_register 0 p zns))). split; [| done].
    apply (ch_register _ p l); [unfold register_table; by rewrite L |].
    split_and!; [done | by eapply json_path_ok | done].
  - right. unfold on_zk_node_deleted, delete_one. rewrite (bind_ret _ _ _ get _ s s s) by done.
    destruct (Nodes.del_zk_node (m_nodes (net s)) (ZkBio.path t)) as [ok m'] eqn:D.
    exists (client s), m', (if ok : bool then Some (CMD_REQ_DEL_ZK_NODE, str_bytes (ZkBio.path t)) else None).
    split; [by apply ch_del | by destruct ok].
Qed.

(** ** Property *)


End process.

(** ** Witness: a gate appears and disappears. *)

#[local] Existing Instances Nodes.toy_digest numbered.

(** No text is JSON. *)
Definition no_json : Json := {|
  parse_config _ := None;
  node_json _ _ _ := "";
  is_json _ := false;
  register_json _ _ := "";
  parse_register _ := None;
  json_to_proto _ := None;
|}.
#[local] Existing Instance no_json.

Definition gate1 : Nodes.zk_node := Nodes.gate "/n/1" "10.0.0.1" 2 100.
Definition gone : Nodes.Nodes := snd (Nodes.del_zk_node Nodes.one_gate "/n/1").

(** The message about the gate is lost; the worker is sent a registration
    without nodes after the gate has gone. *)
Definition empty_reg : register_node := mk_register 0 "/me" [].
Definition registered : Nodes.Nodes := fst (register_table gone "/me" []).

Lemma gate1_replicas : replicas 8 Nodes.FNV1A_64 registered (Nodes.new 8 Nodes.FNV1A_64) [(CMD_REQ_REGISTER_NODE, register_serialize empty_reg)] true.
Proof.
  apply (rep_sent 8 _ gone _ [] false registered CMD_REQ_REGISTER_NODE (register_serialize empty_reg)).
  - apply (rep_lost 8 _ Nodes.one_gate _ [] false gone (CMD_REQ_DEL_ZK_NODE, str_bytes "/n/1")).
    + apply (rep_lost 8 _ (Nodes.new 8 Nodes.FNV1A_64) _ [] true Nodes.one_gate (CMD_REQ_ADD_ZK_NODE, zk_node_serialize gate1)); [apply rep_start |].
      apply (ch_add _ gate1 true Nodes.one_gate); [apply (bool_decide_unpack _); vm_compute; exact I | vm_compute; reflexivity].
    + apply (ch_del _ "/n/1" true gone). vm_compute. reflexivity.
  - apply (ch_register _ "/me" [] registered empty_reg); [reflexivity | apply (bool_decide_unpack _); vm_compute; exact I].
Qed.


End ZkClient.
