(* ===== verification/Server.v ===== *)
(** * Server: accepting connections and handling requests

    Model of the coroutines of [network.cpp]: the two accept loops, the loop
    that receives descriptors from the manager, and the loop that reads the
    messages of one connection and hands them to [SysCmd] and to the modules.
    The loops run until the fuel is used up; the fuel of [msg_loop] only has to
    exceed the number of messages in the buffer.  The modules are plugins, so
    their [handle_request] is a parameter. *)

From S2P Require Import Prelude SocketBuffer Proto CodecProto Connection Util Nodes WorkerDataMgr Effect Protocol Network SysProto SysCmd.
Import SocketBuffer Codec Network.

#[local] Open Scope Z_scope.

Module Server.

Definition MAX_ACCEPTS_PER_CALL : nat := 1000.
Definition CONFIG_MIN_RESERVED_FDS : Z := 128.
Definition EXIT_FD_TRANSFER : Z := -4.
Definition sizeof_channel : Z := 16.

(** What [recvmsg] leaves in its arguments. *)
Record received := mk_received {
  rm_n : Z;             (** the bytes read, or -1 *)
  rm_errno : Z;
  rm_ch : channel_t;    (** the data *)
  rm_cmsg_ok : bool;    (** the ancillary data is large enough *)
  rm_rights : bool;     (** it is [SOL_SOCKET], [SCM_RIGHTS] *)
  rm_fd : Z;            (** the descriptor in it *)
  rm_trunc : bool;      (** [MSG_TRUNC] or [MSG_CTRUNC] *)
}.

Class Sockets := {
  accept : nat -> Z -> option (Z * Z);   (** a new descriptor and its family *)
  recvmsg : nat -> Z -> received;
}.

Class Modules := handle_request : Pb.Msg -> M Network Z.

Section server.
Context `{Malloc} `{Pb.Protobuf} `{Kernel} `{Digest} `{SysProto.Messages} `{Sockets} `{Modules} (fuel : nat).

Abbreviation N := (M Network).

(** [read_channel]: 0 and the channel message, or [EAGAIN], or -1. *)
Definition read_channel (fd : Z) : N (Z * channel_t) :=
  r ← ask (fun k => recvmsg k fd);
  let ch := rm_ch r in
  if rm_n r =? -1 then mret (if rm_errno r =? Connection.EAGAIN then rm_errno r else -1, ch)
  else if rm_n r =? 0 then mret (-1, ch)
  else if rm_n r <? sizeof_channel then mret (-1, ch)
  else if negb (rm_cmsg_ok r) then mret (-1, ch)
  else if negb (rm_rights r) then mret (-1, ch)
  else
    let ch := mk_channel (rm_fd r) (ch_family ch) (ch_codec ch) (ch_is_system ch) in
    mret (if rm_trunc r then -1 else 0, ch).

(** [static_cast<Codec::TYPE>(i)] *)
Definition codec_of_int (i : Z) : TYPE :=
  if i =? 1 then PROTOBUF else if i =? 2 then HTTP else if i =? 3 then PRIVATE else Codec.UNKNOWN.

(** ** The messages of a connection *)

(** What [readv] can take: the free part of the buffer and the extra block. *)
Definition recv_room (c : Conn) : Z :=
  let w := writeable_len (default empty (Connection.m_recv_buf c)) in
  if EXTRABUF_SIZE <? w then w else w + EXTRABUF_SIZE.

(** The loop of [process_tcp_msg]: the status and the code it ends with. *)
Fixpoint msg_loop (k : nat) (id : Z) (msg : Pb.Msg) : N (STATUS * Z) :=
  match k with
  | O => block
  | S k =>
      modify (fun n => log n (EvHandle msg)) ;;
      c ← obj id;
      ret ← (if Connection.m_is_system c then SysCmd.handle_msg fuel msg else mret ERR_UNKOWN_CMD);
      if negb (ret =? ERR_OK) && negb (ret =? ERR_UNKOWN_CMD) then mret (OK, ret) else
      n ← get;
      ret ← (if ret =? ERR_UNKOWN_CMD then
               if is_worker n then
                 ret ← handle_request msg;
                 (if ret =? ERR_UNKOWN_CMD then send_ack fuel msg ERR_UNKOWN_CMD "invalid cmd!" [] ;; mret tt
                  else mret tt) ;;
                 mret ret
               else
                 send_ack fuel msg ERR_UNKOWN_CMD "invalid cmd!" [] ;;
                 mret ERR_UNKOWN_CMD
             else mret ret);
      if negb (ret =? ERR_OK) then mret (OK, ret) else
      c ← obj id;
      '(status, msg, c) ← deref (Connection.fetch_data c (Pb.msg_clear msg));
      modify (fun n => put_conn n id c) ;;
      if bool_decide (status = OK) then msg_loop k id msg else mret (status, ret)
  end.

Definition process_tcp_msg (id : Z) : N Z :=
  c ← obj id;
  io ← ask (fun k => readv k (Connection.fd c) (recv_room c));
  t ← ask now_value;
  '(status, msg, c', _) ← deref (Connection.conn_read c (Pb.new_msg (Connection.m_ft c)) t [io]);
  modify (fun n => put_conn n id c') ;;
  (if bool_decide (status = ERR) then mret tt
   else modify (fun n => Network.count_read n (Connection.m_read_cnt c' - Connection.m_read_cnt c)
                                              (Connection.m_read_bytes c' - Connection.m_read_bytes c))) ;;
  '(status, ret) ← (if bool_decide (status = OK) then msg_loop fuel id msg else mret (status, ERR_OK));
  mret (if bool_decide (status = ERR) || bool_decide (status = CLOSED) then ERR_PACKET_DECODE_FAILED else ret).

Definition process_http_msg (id : Z) : N Z := mret ERR_OK.

Definition process_msg (id : Z) : N Z :=
  c ← obj id;
  if Connection.is_http c then process_http_msg id else process_tcp_msg id.

(** [now() - c->active_time() > m_keep_alive] on unsigned words. *)
Definition is_timeout (now active keep_alive : Z) : bool := keep_alive <? u64 (now - active).

Fixpoint requests_loop (k : nat) (id : Z) : N unit :=
  match k with
  | O => block
  | S k =>
      t ← gets table;
      if negb (is_valid_conn t id) then mret tt else
      c ← obj id;
      late ← (if Connection.m_is_system c then mret false
              else
                now ← ask now_value;
                n ← get;
                mret (is_timeout now (Connection.m_active_time c) (m_keep_alive (setup n))));
      if late : bool then mret tt else
      ret ← process_msg id;
      if negb (ret =? ERR_OK) then mret tt else
      co_sleep ;;
      requests_loop k id
  end.

Definition on_handle_requests (id : Z) : N unit :=
  requests_loop fuel id ;;
  close_conn id ;;
  mret tt.

(** [start_co]: the new coroutine runs until it waits for the first time. *)
Definition start_requests (id : Z) : N bool :=
  ok ← ask co_start;
  if ok : bool then modify (fun n => log n (EvSpawn id)) ;; co_sleep ;; mret true
  else close_conn id ;; mret false.

Definition set_system_conn (id : Z) : N unit :=
  c ← obj id;
  modify (fun n => put_conn n id (Connection.set_system c true)).

(** ** The connections of other nodes *)

Fixpoint accept_nodes_loop (max : nat) : N unit :=
  match max with
  | O => mret tt
  | S max =>
      n ← get;
      a ← ask (fun k => accept k (m_node_fd (setup n)));
      match a with
      | None => co_sleep
      | Some (fd, _) =>
          modify (fun n => log n (EvAccept fd)) ;;
          c ← create_conn fd PROTOBUF false;
          match c with
          | None => close_fd fd
          | Some id => set_system_conn id ;; start_requests id ;; mret tt
          end
      end ;;
      accept_nodes_loop max
  end.

Definition on_handle_accept_nodes_conn : N unit := accept_nodes_loop MAX_ACCEPTS_PER_CALL.

(** ** The connections of clients *)

(** The loop that hands a descriptor to a worker. *)
Fixpoint hand_over (k : nat) (channel : Z) (ch : channel_t) : N unit :=
  match k with
  | O => block
  | S k =>
      err ← write_channel channel ch;
      if err =? ERR_OK then mret tt
      else if err =? Connection.EAGAIN then co_sleep ;; hand_over k channel ch
      else mret tt
  end.

(** One client; [true] is the [break] out of the accept loop. *)
Definition serve_client (fd family : Z) : N bool :=
  n ← get;
  if negb (is_reuseport (m_config (setup n))) then
    '(channel_fd, workers) ← deref (WorkerDataMgr.get_next_worker_data_fd (m_worker_data_mgr n));
    modify (fun n => set_workers n workers) ;;
    if channel_fd <=? 0 then mret true else
    hand_over fuel channel_fd (mk_channel fd family (codec_int (m_gate_codec (setup n))) 0) ;;
    close_fd fd ;;
    mret false
  else if m_max_clients (setup n) <? i32 (Z.of_nat (size (m_conns (table n)))) then
    close_fd fd ;;
    co_sleep ;;
    mret false
  else
    c ← create_conn fd (m_gate_codec (setup n)) false;
    match c with
    | None => close_fd fd
    | Some id => start_requests id ;; mret tt
    end ;;
    mret false.

Fixpoint accept_gate_loop (k : nat) : N unit :=
  match k with
  | O => block
  | S k =>
      n ← get;
      a ← ask (fun k => accept k (m_gate_fd (setup n)));
      stop ← (match a with
              | None => co_sleep ;; mret false
              | Some (fd, family) =>
                  modify (fun n => log n (EvAccept fd)) ;;
                  serve_client fd family
              end);
      if stop : bool then mret tt else accept_gate_loop k
  end.

Definition on_handle_accept_gate_conn : N unit := accept_gate_loop fuel.

(** ** The descriptors a worker receives *)

(** One descriptor; [_exit] ends the process. *)
Definition take_fd (ch : channel_t) : N unit :=
  n ← get;
  if m_max_clients (setup n) <? i32 (Z.of_nat (size (m_conns (table n)))) then
    close_fd (ch_fd ch) ;;
    co_sleep
  else
    c ← create_conn (ch_fd ch) (codec_of_int (ch_codec ch)) false;
    match c with
    | None => close_fd (ch_fd ch)
    | Some id =>
        (if ch_is_system ch =? 0 then mret tt else set_system_conn id) ;;
        start_requests id ;;
        mret tt
    end.

Fixpoint transfer_fd_loop (k : nat) (fd : Z) : N unit :=
  match k with
  | O => block
  | S k =>
      '(err, ch) ← read_channel fd;
      if err =? 0 then
        modify (fun n => log n (EvAccept (ch_fd ch))) ;;
        take_fd ch ;;
        transfer_fd_loop k fd
      else if err =? Connection.EAGAIN then co_sleep ;; transfer_fd_loop k fd
      else modify (fun n => log n (EvExit EXIT_FD_TRANSFER))
  end.

Definition on_handle_read_transfer_fd (fd : Z) : N unit := transfer_fd_loop fuel fd.

(** ** Starting *)

(** The answer and the two [fd_t] arguments. *)
Definition init_manager_channel (fctrl fdata : Pb.fd_t) : N (bool * Pb.fd_t * Pb.fd_t) :=
  n ← get;
  if negb (is_manager n) then mret (false, fctrl, fdata) else
  ctrl ← create_conn (Pb.fd fctrl) PROTOBUF true;
  match ctrl with
  | None => close_fd (Pb.fd fctrl) ;; mret (false, fctrl, fdata)
  | Some ctrl =>
      dat ← create_conn (Pb.fd fdata) PROTOBUF true;
      match dat with
      | None => close_fd (Pb.fd fdata) ;; close_conn ctrl ;; mret (false, fctrl, fdata)
      | Some dat =>
          c1 ← obj ctrl;
          c2 ← obj dat;
          let fctrl := Connection.m_ft c1 in
          let fdata := Connection.m_ft c2 in
          modify (fun n =>
            let s := setup n in
            set_setup n (mk_setup (m_type s) (m_config s) (m_worker_index s) fctrl fdata (m_node_fd s)
                                  (m_gate_fd s) (m_gate_codec s) (m_keep_alive s) (m_max_clients s))) ;;
          ok ← start_requests ctrl;
          if ok : bool then mret (true, fctrl, fdata)
          else close_conn dat ;; mret (false, fctrl, fdata)
      end
  end.

(** The limits are what [getrlimit] and [setrlimit] answer. *)
Definition ensure_files_limit (getrlimit : Z + Z) (setrlimit : Z -> option Z) : N bool :=
  n ← get;
  let s := setup n in
  let max_clients := max_clients (m_config s) in
  if max_clients =? 0 then mret false else
  '(file_limit, _) ← deref (Util.adjust_files_limit fuel getrlimit setrlimit
                                                    (i32 (max_clients + CONFIG_MIN_RESERVED_FDS)) 0);
  let file_limit := i32 (file_limit - CONFIG_MIN_RESERVED_FDS) in
  if file_limit <? 0 then mret false else
  modify (fun n => set_setup n (mk_setup (m_type s) (m_config s) (m_worker_index s) (m_manager_fctrl s)
    (m_manager_fdata s) (m_node_fd s) (m_gate_fd s) (m_gate_codec s) (m_keep_alive s) file_limit)) ;;
  mret true.

(** ** Statistics *)

(** [!send_payload_to_manager(...)] is true when the code is [ERR_OK]. *)
Definition report_payload_to_manager : N bool :=
  n ← get;
  if negb (is_worker n) then mret false else
  t ← ask now_value;
  modify (fun n =>
    let p := m_payload n in
    set_payload n (WorkerDataMgr.mk_payload (u32 (m_worker_index (setup n)))
      (u32 (Z.of_nat (size (m_conns (table n)) + size (m_node_conns (table n))))) 0
      (WorkerDataMgr.read_cnt p) (WorkerDataMgr.read_bytes p) (WorkerDataMgr.write_cnt p)
      (WorkerDataMgr.write_bytes p) t)) ;;
  n ← get;
  ret ← SysCmd.send_payload_to_manager fuel (m_payload n);
  modify (fun n => set_payload n WorkerDataMgr.payload_default) ;;
  mret (negb (ret =? ERR_OK)).

(** ** The listeners *)

Section listeners.

(** Every connection of the table has its object. *)
Definition owned (n : Network) : Prop := forall id, id ∈ m_conns (table n) -> is_Some (objs (table n) !! id).

(** The other coroutines keep it so. *)
Class OwnedScheduler : Prop := sleep_owned n : owned n -> owned (sleep n).

(** A method that returns, in a state in which all connections have objects. *)
Definition returns {A} (m : N A) : Prop := forall n, owned n -> exists a n', m n = Ret a n' /\ owned n'.

Lemma returns_bind {A B} (m : N A) (f : A -> N B) : returns m -> (forall a, returns (f a)) -> returns (m ≫= f).
Proof.
  intros Hm Hf n O. destruct (Hm n O) as (a & n1 & E & O1). destruct (Hf a n1 O1) as (b & n2 & E2 & O2).
  exists b, n2. by rewrite (bind_ret _ _ _ _ _ _ _ _ E).
Qed.

Lemma returns_ret {A} (a : A) : returns (mret a).
Proof. intros n O. by eexists _, _. Qed.

Lemma returns_table {A} (m : N A) :
  (forall n, exists a n', m n = Ret a n' /\ table n' = table n) -> returns m.
Proof. intros E n O. destruct (E n) as (a & n' & -> & T). exists a, n'. split; [done |]. unfold owned. by rewrite T. Qed.

Lemma returns_ask {A} (f : nat -> A) : returns (ask f).
Proof. apply returns_table. intros n. by eexists _, _. Qed.

Lemma returns_get : returns get.
Proof. apply returns_table. intros n. by eexists _, _. Qed.

Lemma returns_log e : returns (modify (fun n => log n e)).
Proof. apply returns_table. intros n. by eexists _, _. Qed.

Lemma returns_close_conn id : returns (close_conn id).
Proof.
  intros n O. unfold close_conn, obj, close_fd, modify, gets, mret, M_ret, mbind, M_bind. cbn.
  case_bool_decide as I; [| by eexists _, _]. destruct (O id I) as [c ->].
  destruct (bool_decide (Connection.m_node_id _ = "")); cbn; case_bool_decide; cbn; (eexists _, _; split; [done |]);
    intros j; cbn; (destruct (decide (id = j)) as [<-|Nj]; [rewrite lookup_insert_eq; eauto |]);
    rewrite lookup_insert_ne by done; intros Hj; apply O; set_solver.
Qed.

Lemma returns_create_conn fd codec chan : returns (create_conn fd codec chan).
Proof.
  intros n O. destruct (create_conn_spec fd codec chan n) as (r & n' & E & _ & D). exists r, n'. split; [done |].
  destruct D as [(_ & T & _) | (c & _ & _ & T & _)]; unfold owned; rewrite T; [done |]. cbn.
  intros j Hj. destruct (decide (u64 (m_seq n + 1) = j)) as [->|Nj]; [rewrite lookup_insert_eq; eauto |].
  rewrite lookup_insert_ne by done. apply O. set_solver.
Qed.

Context `{!OwnedScheduler}.

Lemma returns_sleep : returns co_sleep.
Proof. intros n O. eexists _, _. split; [done |]. exact (sleep_owned n O). Qed.

Lemma returns_start id : returns (start_requests id).
Proof.
  apply returns_bind; [apply returns_ask |]. intros [].
  - apply returns_bind; [apply returns_log |]. intros []. apply returns_bind; [apply returns_sleep |]. intros [].
    apply returns_ret.
  - apply returns_bind; [apply returns_close_conn |]. intros ?. apply returns_ret.
Qed.

(** A new connection gets the mark of a system connection. *)
Lemma returns_system fd : returns (c ← create_conn fd PROTOBUF false;
  match c with None => close_fd fd | Some id => set_system_conn id ;; start_requests id ;; mret tt end).
Proof.
  intros n O. destruct (create_conn_spec fd PROTOBUF false n) as (r & n' & E & _ & D).
  destruct (returns_create_conn fd PROTOBUF false n O) as (r2 & n2 & E2 & O2). rewrite E in E2. injection E2 as <- <-.
  rewrite (bind_ret _ _ _ _ _ _ _ _ E). destruct D as [(-> & _) | (c & -> & _ & T & _)]; [by apply returns_log |].
  set (id := u64 _) in *. rewrite (bind_ret _ _ _ _ _ n' tt (put_conn n' id (Connection.set_system c true))).
  - apply returns_bind; [apply returns_start | intros ?; apply returns_ret |].
    intros j Hj. cbn. destruct (decide (id = j)) as [<-|Nj]; [rewrite lookup_insert_eq; eauto |].
    rewrite lookup_insert_ne by done. by apply O2.
  - unfold set_system_conn, obj, mbind, M_bind. rewrite T. cbn. by rewrite lookup_insert_eq.
Qed.

Lemma returns_accept k : returns (accept_nodes_loop k).
Proof.
  induction k as [|k IH]; cbn [accept_nodes_loop]; [apply returns_ret |].
  apply returns_bind; [apply returns_get |]. intros n. apply returns_bind; [apply returns_ask |]. intros a.
  apply returns_bind; [| intros []; exact IH].
  destruct a as [[fd fam]|]; [| apply returns_sleep].
  apply returns_bind; [apply returns_log |]. intros []. apply returns_system.
Qed.

(** The listener for other nodes gives up: whatever arrives, the accept
    loop returns after its 1000 rounds (an idle wait counts as a round), and
    the process accepts no further node. *)
Theorem server_node_listener_stops n : owned n -> exists n', on_handle_accept_nodes_conn n = Ret tt n'.
Proof. intros O. destruct (returns_accept MAX_ACCEPTS_PER_CALL n O) as ([] & n' & E & _). by exists n'. Qed.

End listeners.

(** ** The stream of requests *)

(** The messages of connection [id] that were handed to a handler. *)
Definition handled (id : Z) (tr : list event) : list Pb.Msg :=
  omap (fun e => match e with EvHandle m => if Pb.id (Pb.ft m) =? id then Some m else None | _ => None end) tr.

Lemma handled_app id tr tr' : handled id (tr ++ tr') = handled id tr ++ handled id tr'.
Proof. apply omap_app. Qed.

Lemma handled_own m id tr : Pb.id (Pb.ft m) = id -> handled id (tr ++ [EvHandle m]) = handled id tr ++ [m].
Proof. intros <-. rewrite handled_app. unfold handled. cbn. by rewrite Z.eqb_refl. Qed.

(** A worker with a client's connection. *)
Record listening (id : Z) (n : Network) (c : Conn) : Prop := mk_listening {
  l_obj : objs (table n) !! id = Some c;
  l_conn : Connection.proto_conn c;
  l_id : Connection.id c = id;
  l_system : Connection.m_is_system c = false;
  l_worker : is_worker n = true;
}.

(** What the rest of the process may do: it does not read from the connection
    and does not close it. *)
Definition kept (id : Z) (n n' : Network) : Prop :=
  handled id (trace n') = handled id (trace n) /\
  forall c, listening id n c -> exists c', listening id n' c' /\
    Connection.m_ft c' = Connection.m_ft c /\ Connection.m_recv_buf c' = Connection.m_recv_buf c.

(** The modules handle every message of the connection. *)
Definition modules_ok (id : Z) : Prop :=
  forall m n c, listening id n c -> Pb.id (Pb.ft m) = id ->
    exists n', handle_request m n = Ret ERR_OK n' /\ kept id n n'.

Context `{!MallocSpec} `{!Pb.ProtobufSpec}.

(** Any prefix of a stream of frames is some whole frames and a partial one. *)
Lemma cut_frames ms l tail :
  Forall CodecProto.msg_ok ms -> l ++ tail = Connection.stream ms ->
  exists ms1 ms2 p, ms = ms1 ++ ms2 /\ l = Connection.stream ms1 ++ p /\ Connection.partial p /\
    p ++ tail = Connection.stream ms2.
Proof.
  revert l. induction ms as [|m ms IH]; intros l F E.
  - apply app_eq_nil in E as [-> ->]. exists [], [], []. split_and!; [done | done | by left | done].
  - apply Forall_cons in F as [M F]. change (m :: ms) with ([m] ++ ms) in E.
    rewrite Connection.stream_app, Connection.stream_one in E.
    apply app_eq_inv in E as [(k & -> & E) | (k & E & Et)].
    + destruct (IH k F) as (ms1 & ms2 & p & -> & -> & P & T); [done |].
      exists (m :: ms1), ms2, p. change (m :: ms1) with ([m] ++ ms1).
      rewrite Connection.stream_app, Connection.stream_one, <- !app_assoc. done.
    + destruct k as [|x k].
      * exists [m], ms, []. rewrite Connection.stream_one. rewrite app_nil_r in E |- *.
        split_and!; [done | done | by left | done].
      * exists [], (m :: ms), l. split_and!; [done | done | right; by exists m, (x :: k) |].
        change (m :: ms) with ([m] ++ ms). rewrite Connection.stream_app, Connection.stream_one, E, Et.
        by rewrite <- app_assoc.
Qed.

Definition deliveries (c : Conn) (ms : list Pb.Msg) : list Pb.Msg :=
  Connection.deliver (Pb.new_msg (Connection.m_ft c)) <$> ms.

Lemma listening_put id n n' c c' :
  listening id n c -> Connection.proto_conn c' -> Connection.same_conn c c' ->
  objs (table n') = <[id:=c']> (objs (table n)) -> setup n' = setup n -> listening id n' c'.
Proof.
  intros [O P I S W] P' Sc Eo Es. destruct Sc as (Ef & _ & Esy & _). split.
  - by rewrite Eo, lookup_insert_eq.
  - done.
  - unfold Connection.id. by rewrite Ef.
  - by rewrite Esy.
  - unfold is_worker. by rewrite Es.
Qed.

(** One turn of the loop: the message is handled, then the next one is
    decoded. *)
Lemma msg_step k id n c m :
  listening id n c -> modules_ok id -> Pb.ft m = Connection.m_ft c ->
  exists n1 c1, listening id n1 c1 /\ Connection.m_ft c1 = Connection.m_ft c /\
    Connection.m_recv_buf c1 = Connection.m_recv_buf c /\ handled id (trace n1) = handled id (trace n) ++ [m] /\
    msg_loop (S k) id m n =
      ('(status, msg, c2) ← deref (Connection.decode_proto c1 (Pb.msg_clear m));
       modify (fun n => put_conn n id c2) ;;
       if bool_decide (status = OK) then msg_loop k id msg else mret (status, ERR_OK)) n1.
Proof.
  intros L MO F. set (n0 := log n (EvHandle m)).
  assert (L0 : listening id n0 c) by (by destruct L).
  assert (I : Pb.id (Pb.ft m) = id) by (rewrite F; apply L).
  destruct (MO m n0 c L0 I) as (n1 & E & Hh & K). destruct (K c L0) as (c1 & L1 & F1 & B1).
  exists n1, c1. split_and!; [done.. | by rewrite Hh; apply handled_own |].
  cbn [msg_loop]. rewrite (bind_ret _ _ _ _ _ n tt n0) by done.
  rewrite (bind_ret _ _ _ (obj id) _ n0 c n0) by (unfold obj; by rewrite (l_obj _ _ _ L0)).
  rewrite (l_system _ _ _ L0). rewrite (bind_ret _ _ _ _ _ n0 ERR_UNKOWN_CMD n0) by done.
  change (negb (ERR_UNKOWN_CMD =? ERR_OK) && negb (ERR_UNKOWN_CMD =? ERR_UNKOWN_CMD)) with false. cbv iota.
  rewrite (bind_ret _ _ _ get _ n0 n0 n0) by done. rewrite (l_worker _ _ _ L0), Z.eqb_refl.
  rewrite (bind_ret _ _ _ _ _ n0 ERR_OK n1).
  2:{ by rewrite (bind_ret _ _ _ _ _ n0 ERR_OK n1 E). }
  change (negb (ERR_OK =? ERR_OK)) with false. cbv iota.
  rewrite (bind_ret _ _ _ (obj id) _ n1 c1 n1) by (unfold obj; by rewrite (l_obj _ _ _ L1)).
  by rewrite Connection.fetch_data_valid by apply (Connection.pc_valid _ (l_conn _ _ _ L1)).
Qed.

Lemma msg_loop_spec id : modules_ok id -> forall ms k n c m p,
  listening id n c -> Pb.ft m = Connection.m_ft c -> Forall CodecProto.msg_ok ms ->
  Connection.rx c = Connection.stream ms ++ p -> Connection.partial p -> zlen (Connection.rx c) <= INT_MAX ->
  is_Some (Connection.m_recv_buf c) -> (length ms < k)%nat ->
  exists n' c', msg_loop k id m n = Ret (PAUSE, ERR_OK) n' /\ listening id n' c' /\
    Connection.m_ft c' = Connection.m_ft c /\ Connection.rx c' = p /\
    handled id (trace n') = handled id (trace n) ++ m :: deliveries c ms.
Proof.
  intros MO. induction ms as [|m' ms IH]; intros [|k] n c m p L F Ok R P Z B K; [cbn in K; lia | | cbn in K; lia |].
  all: destruct (msg_step k id n c m L MO F) as (n1 & c1 & L1 & F1 & B1 & G1 & ->).
  all: assert (R1 : Connection.rx c1 = Connection.rx c) by (unfold Connection.rx; by rewrite B1).
  - destruct (Connection.decode_proto_partial c1 (Pb.msg_clear m) (l_conn _ _ _ L1)) as (m1 & -> & _);
      [by rewrite B1 | by rewrite R1, R |].
    eexists _, c1. split; [done |]. split_and!; [| done | by rewrite R1, R | done].
    eapply listening_put; [exact L1 | apply L1 | done | done | done].
  - apply Forall_cons in Ok as [M Ok]. change (m' :: ms) with ([m'] ++ ms) in R.
    rewrite Connection.stream_app, Connection.stream_one, <- app_assoc in R.
    destruct (Connection.decode_proto_frame c1 (Pb.msg_clear m) m' (Connection.stream ms ++ p) (l_conn _ _ _ L1) M)
      as (c2 & -> & P2 & S2 & R2 & _ & B2); [by rewrite R1 | by rewrite R1 |].
    set (n2 := put_conn n1 id c2).
    assert (L2 : listening id n2 c2) by (eapply listening_put; [exact L1 | done..]).
    assert (F2 : Connection.m_ft c2 = Connection.m_ft c) by (destruct S2 as [-> _]; done).
    destruct (IH k n2 c2 (Connection.deliver (Pb.msg_clear m) m') p) as (n' & c' & E & L' & F' & R' & G'); try done.
    + by rewrite F2.
    + rewrite R2. rewrite R in Z. rewrite zlen_app in Z. pose proof (zlen_nonneg (CodecProto.frame m')). lia.
    + cbn in K. lia.
    + exists n', c'. split; [exact E |]. split_and!; [done | by rewrite F' | done |].
      rewrite G'. change (trace n2) with (trace n1). rewrite G1, <- app_assoc. unfold deliveries. rewrite F2. cbn.
      by rewrite <- F.
Qed.

Lemma process_read id n c d st msg c' :
  listening id n c -> readv (ticks n) (Connection.fd c) (recv_room c) = d ->
  Connection.conn_read c (Pb.new_msg (Connection.m_ft c)) (now_value (S (ticks n))) [d] = Some (st, msg, c', []) ->
  Connection.proto_conn c' -> Connection.same_conn c c' -> st <> ERR ->
  exists n1, listening id n1 c' /\ trace n1 = trace n /\
    process_tcp_msg id n =
      ('(status, ret) ← (if bool_decide (st = OK) then msg_loop fuel id msg else mret (st, ERR_OK));
       mret (if bool_decide (status = ERR) || bool_decide (status = CLOSED) then ERR_PACKET_DECODE_FAILED
             else ret)) n1.
Proof.
  intros L <- E P S Ne. unfold process_tcp_msg.
  rewrite (bind_ret _ _ _ (obj id) _ n c n) by (unfold obj; by rewrite (l_obj _ _ _ L)).
  rewrite (bind_ret _ _ _ _ _ n _ (tick n) eq_refl). rewrite (bind_ret _ _ _ _ _ (tick n) _ (tick (tick n)) eq_refl).
  cbn [ticks tick]. rewrite E. rewrite (bind_ret _ _ _ _ _ (tick (tick n)) (st, msg, c', []) (tick (tick n))) by done.
  cbv beta iota. rewrite (bind_ret _ _ _ _ _ _ tt (put_conn (tick (tick n)) id c')) by done.
  rewrite (bool_decide_false (st = ERR)) by done. set (n1 := put_conn _ _ _).
  exists (Network.count_read n1 (Connection.m_read_cnt c' - Connection.m_read_cnt c)
                                (Connection.m_read_bytes c' - Connection.m_read_bytes c)).
  split_and!; [| done | reflexivity].
  eapply listening_put; [exact L | done..].
Qed.

Context `{!KernelSpec}.

(** One call of [process_tcp_msg] with new bytes: the messages they complete
    are handled, the rest waits for the next call. *)
Lemma process_data id n c d tail ms :
  modules_ok id -> listening id n c -> Connection.partial (Connection.rx c) ->
  readv (ticks n) (Connection.fd c) (recv_room c) = RecvData d -> 0 < zlen d ->
  alloc_ok (grow_bound (default empty (Connection.m_recv_buf c)) (zlen d)) ->
  zlen (Connection.rx c ++ d) <= INT_MAX ->
  (Connection.rx c ++ d) ++ tail = Connection.stream ms -> Forall CodecProto.msg_ok ms -> (length ms <= fuel)%nat ->
  exists ms1 ms2 n' c', ms = ms1 ++ ms2 /\ process_tcp_msg id n = Ret ERR_OK n' /\ listening id n' c' /\
    Connection.m_ft c' = Connection.m_ft c /\ Connection.partial (Connection.rx c') /\
    Connection.rx c' ++ tail = Connection.stream ms2 /\
    handled id (trace n') = handled id (trace n) ++ deliveries c ms1.
Proof.
  intros MO L P E D A Z T F Fu.
  assert (RO : recv_ok (default empty (Connection.m_recv_buf c)) d).
  { apply readv_room in E as [E ?]. by split. }
  destruct (cut_frames ms _ tail F T) as (ms1 & ms2 & p & -> & C & Pp & T2).
  destruct (Connection.conn_read_next c (Pb.new_msg (Connection.m_ft c)) (now_value (S (ticks n))) d []
              (l_conn _ _ _ L) P D RO A Z) as [Fr Pa].
  apply Forall_app in F as [F1 F2]. destruct ms1 as [|m ms1].
  - cbn in C. rewrite <- C in Pp. destruct (Pa Pp) as (m1 & c' & Er & P' & S' & R').
    destruct (process_read id n c (RecvData d) PAUSE m1 c' L E Er P' S') as (n1 & L1 & Tr & ->); [done |].
    exists [], ms2, n1, c'. split_and!; [done | done | done | apply S' | by rewrite R' | by rewrite R', C |].
    by rewrite Tr, app_nil_r.
  - apply Forall_cons in F1 as [M F1]. change (m :: ms1) with ([m] ++ ms1) in C.
    rewrite Connection.stream_app, Connection.stream_one, <- app_assoc in C.
    destruct (Fr m _ M C) as (c' & Er & P' & S' & R' & B').
    destruct (process_read id n c (RecvData d) OK _ c' L E Er P' S') as (n1 & L1 & Tr & ->); [done |].
    rewrite bool_decide_true by done. destruct S' as [Sf _].
    destruct (msg_loop_spec id MO ms1 fuel n1 c' (Connection.deliver (Pb.new_msg (Connection.m_ft c)) m) p)
      as (n' & c2 & El & L2 & F2' & R2 & G2); try done.
    + rewrite C in Z. rewrite zlen_app in Z. rewrite R'. pose proof (zlen_nonneg (CodecProto.frame m)). lia.
    + cbn in Fu. rewrite length_app in Fu. lia.
    + exists (m :: ms1), ms2, n', c2. split; [done |]. split; [by rewrite (bind_ret _ _ _ _ _ n1 _ n' El) |].
      split_and!; [done | by rewrite F2' | by rewrite R2 | by rewrite R2 |].
      rewrite G2, Tr. unfold deliveries. by rewrite Sf.
Qed.

(** A call that finds no new bytes changes nothing. *)
Lemma process_wait id n c :
  listening id n c -> Connection.partial (Connection.rx c) ->
  readv (ticks n) (Connection.fd c) (recv_room c) = RecvErr Connection.EAGAIN ->
  exists n' c', process_tcp_msg id n = Ret ERR_OK n' /\ listening id n' c' /\
    Connection.m_ft c' = Connection.m_ft c /\ Connection.rx c' = Connection.rx c /\ trace n' = trace n.
Proof.
  intros L P E.
  destruct (Connection.conn_read_asks c (Pb.new_msg (Connection.m_ft c)) (now_value (S (ticks n)))
              [RecvErr Connection.EAGAIN] (l_conn _ _ _ L) P) as (m1 & _ & Er).
  destruct (Connection.conn_read_sock_other c (now_value (S (ticks n))) (RecvErr Connection.EAGAIN) [] (l_conn _ _ _ L))
    as (st & c' & Es & _ & W & P' & S' & R' & _); [right; by eexists |].
  assert (st = PAUSE) as -> by (by apply W). rewrite Es in Er. cbn in Er.
  destruct (process_read id n c _ PAUSE m1 c' L E Er P' S') as (n1 & L1 & T1 & ->); [done |].
  exists n1, c'. split_and!; [done | done | apply S' | done | done].
Qed.

(** The life of a client's connection: the rest of the process runs, and the
    connection's coroutine is woken, with the bytes the kernel has or without. *)
Inductive receives (id : Z) : Network -> list bytes -> Network -> Prop :=
| rec_end n n' : kept id n n' -> receives id n [] n'
| rec_wait n n1 c r n2 ds n3 :
    kept id n n1 -> listening id n1 c ->
    readv (ticks n1) (Connection.fd c) (recv_room c) = RecvErr Connection.EAGAIN ->
    process_tcp_msg id n1 = Ret r n2 -> receives id n2 ds n3 -> receives id n ds n3
| rec_data n n1 c d r n2 ds n3 :
    kept id n n1 -> listening id n1 c ->
    readv (ticks n1) (Connection.fd c) (recv_room c) = RecvData d -> 0 < zlen d ->
    alloc_ok (grow_bound (default empty (Connection.m_recv_buf c)) (zlen d)) ->
    zlen (Connection.rx c ++ d) <= INT_MAX ->
    process_tcp_msg id n1 = Ret r n2 -> receives id n2 ds n3 -> receives id n (d :: ds) n3.

Lemma kept_listening id n n' c c1 :
  kept id n n' -> listening id n c -> listening id n' c1 ->
  Connection.m_ft c1 = Connection.m_ft c /\ Connection.rx c1 = Connection.rx c.
Proof.
  intros [_ K] L L1. destruct (K c L) as (c2 & L2 & F & B).
  assert (c2 = c1) as -> by (destruct L1 as [O1 _ _ _ _], L2 as [O2 _ _ _ _]; congruence).
  split; [done |]. unfold Connection.rx. by rewrite B.
Qed.

Lemma receives_stream id : modules_ok id -> forall n ds n', receives id n ds n' ->
  forall c ms tail,
  listening id n c -> Connection.partial (Connection.rx c) ->
  Connection.rx c ++ concat ds ++ tail = Connection.stream ms -> Forall CodecProto.msg_ok ms -> (length ms <= fuel)%nat ->
  exists ms1 ms2 c', ms = ms1 ++ ms2 /\ listening id n' c' /\ Connection.partial (Connection.rx c') /\
    Connection.rx c' ++ tail = Connection.stream ms2 /\
    handled id (trace n') = handled id (trace n) ++ deliveries c ms1.
Proof.
  intros MO n ds n' R. induction R as [n n' K | n n1 c1 r n2 ds n3 K L1 E Pr _ IH
      | n n1 c1 d r n2 ds n3 K L1 E D A Z Pr _ IH]; intros c ms tail L P T F Fu.
  - pose proof K as [Hh Kc]. destruct (Kc c L) as (c' & L' & Ef & B).
    destruct (kept_listening _ _ _ _ _ K L L') as [_ Er]. exists [], ms, c'. cbn in T.
    split_and!; [done | done | by rewrite Er | by rewrite Er |]. by rewrite Hh, app_nil_r.
  - destruct (kept_listening _ _ _ _ _ K L L1) as [Ef Er]. rewrite <- Er in P, T.
    destruct (process_wait id n1 c1 L1 P E) as (n' & c' & Pr' & L' & Ef' & Er' & Tr). rewrite Pr in Pr'. simplify_eq.
    rewrite <- Er' in P, T. destruct (IH c' ms tail L' P T F Fu) as (ms1 & ms2 & c2 & ? & ? & ? & ? & G).
    exists ms1, ms2, c2. split_and!; [done..|]. rewrite G, Tr. destruct K as [-> _]. unfold deliveries.
    by rewrite Ef', Ef.
  - destruct (kept_listening _ _ _ _ _ K L L1) as [Ef Er]. rewrite <- Er in P, T. cbn in T. rewrite <- app_assoc in T.
    rewrite (app_assoc (Connection.rx c1)) in T.
    destruct (process_data id n1 c1 d _ ms MO L1 P E D A Z T F Fu) as (ms1 & ms2 & n' & c' & -> & Pr' & L' & Ef' & P' & T' & G').
    rewrite Pr in Pr'. simplify_eq. apply Forall_app in F as [F1 F2].
    destruct (IH c' ms2 tail L' P' T' F2) as (ms3 & ms4 & c2 & -> & ? & ? & ? & G); [rewrite length_app in Fu; lia |].
    exists (ms1 ++ ms3), ms4, c2. split_and!; [by rewrite app_assoc | done..|].
    rewrite G, G'. destruct K as [-> _]. unfold deliveries. by rewrite fmap_app, Ef', Ef, app_assoc.
Qed.

(** ** Properties *)

(** C1: a worker handles the requests of a client exactly once and in order,
    however the network cuts their bytes: after any sequence of reads the
    messages handed to the modules are the first ones of the stream, those
    whose bytes have all arrived, and the next read returns without error.

    What is assumed: the connection is open, talks protobuf, is not a system
    connection, and belongs to a worker ([listening]); the buffer begins with at
    most a part of a frame; every message has a non-zero command and sequence
    number and a body that is not empty ([msg_ok]); the modules answer every
    message with [ERR_OK], and neither they nor the rest of the process read
    from the connection or close it ([modules_ok], [kept]); each read gets
    between one byte and the room of the buffer ([KernelSpec]), there is memory
    for it, and at most [INT_MAX] bytes are buffered; [fuel], the rounds of the
    loop over the messages of one read, is at least their number.  Reads that
    find nothing ([EAGAIN]) may come at any time. *)
Theorem server_handles_stream id n ds n' c ms tail :
  modules_ok id -> receives id n ds n' -> listening id n c -> Connection.partial (Connection.rx c) ->
  Connection.rx c ++ concat ds ++ tail = Connection.stream ms -> Forall CodecProto.msg_ok ms ->
  (length ms <= fuel)%nat ->
  exists ms1 ms2 c', ms = ms1 ++ ms2 /\ listening id n' c' /\
    handled id (trace n') = handled id (trace n) ++ deliveries c ms1 /\
    Connection.rx c' ++ tail = Connection.stream ms2 /\ Connection.partial (Connection.rx c') /\
    (tail = [] -> ms2 = []) /\
    (forall d rest, tail = d ++ rest -> readv (ticks n') (Connection.fd c') (recv_room c') = RecvData d ->
       0 < zlen d -> alloc_ok (grow_bound (default empty (Connection.m_recv_buf c')) (zlen d)) ->
       zlen (Connection.rx c' ++ d) <= INT_MAX -> exists n2, process_tcp_msg id n' = Ret ERR_OK n2).
Proof.
  intros MO R L P T F Fu.
  destruct (receives_stream id MO n ds n' R c ms tail L P T F Fu) as (ms1 & ms2 & c' & -> & L' & P' & T' & G).
  exists ms1, ms2, c'. split_and!; [done..| |].
  - intros ->. rewrite app_nil_r in T'. destruct ms2 as [|m ms2]; [done |]. exfalso.
    apply Forall_app in F as [_ [M _]%Forall_cons]. rewrite T' in P'. change (m :: ms2) with ([m] ++ ms2) in P'.
    rewrite Connection.stream_app, Connection.stream_one in P'. by apply (Connection.partial_not_frame m _ M) in P'.
  - intros d rest -> E D A Z. rewrite app_assoc in T'. apply Forall_app in F as [_ F2].
    destruct (process_data id n' c' d rest ms2 MO L' P' E D A Z T' F2) as (_ & _ & n2 & _ & _ & Pr & _);
      [rewrite length_app in Fu; lia | by exists n2].
Qed.

(** A manager whose workers are all gone stops serving at the next
    client: the accept loop ends, and the client's descriptor is neither
    closed nor kept in the table. *)
Theorem server_gate_stops_without_worker n fd fam k :
  fuel = S k -> is_reuseport (m_config (setup n)) = false ->
  WorkerDataMgr.m_workers (m_worker_data_mgr n) = [] -> accept (ticks n) (m_gate_fd (setup n)) = Some (fd, fam) ->
  exists n', on_handle_accept_gate_conn n = Ret tt n' /\ trace n' = trace n ++ [EvAccept fd] /\ table n' = table n.
Proof.
  intros Fu Re W A. unfold on_handle_accept_gate_conn. rewrite Fu. cbn [accept_gate_loop].
  rewrite (bind_ret _ _ _ get _ n n n) by done. rewrite (bind_ret _ _ _ _ _ n (Some (fd, fam)) (tick n)).
  2:{ unfold ask. by rewrite A. }
  set (n1 := set_workers (log (tick n) (EvAccept fd)) (m_worker_data_mgr n)).
  rewrite (bind_ret _ _ _ _ _ (tick n) true n1).
  - exists n1. by split_and!.
  - rewrite (bind_ret _ _ _ _ _ (tick n) tt (log (tick n) (EvAccept fd))) by done.
    unfold serve_client. rewrite (bind_ret _ _ _ get _ _ _ _ eq_refl). cbn. rewrite Re. cbn.
    unfold WorkerDataMgr.get_next_worker_data_fd. by rewrite W.
Qed.

End server.

(** ** Witnesses *)

#[local] Existing Instances zero_malloc WireFormat.wire Nodes.toy_digest SysProto.numbered.

(** A kernel that delivers the frame of [CodecProto.ping] in two parts. *)
Definition part (k : nat) : bytes :=
  let f := CodecProto.frame CodecProto.ping in
  match k with 0%nat => take 20 f | 2%nat => drop 20 f | _ => [] end.

Definition two_parts : Kernel := {|
  readv k _ room := if (zlen (part k) =? 0) || (room <? zlen (part k)) then RecvErr Connection.EAGAIN
                    else RecvData (part k);
  sendv _ _ d := SentBytes (zlen d);
  sockopt _ _ := true;
  sendmsg _ _ := 0;
  now_value _ := 1000;
  co_start _ := true;
  sleep n := n;
|}.

Lemma two_parts_spec : @KernelSpec two_parts.
Proof.
  split; cbn.
  - intros ??? n [= <-]. split; [apply zlen_nonneg | lia].
  - intros k fd room d. destruct (_ =? 0); cbn; [done |]. destruct (Z.ltb_spec room (zlen (part k))); [done |].
    intros [= <-]. split; [done |]. unfold part, MAX_RW_COUNT. do 3 (destruct k as [|k]; [vm_compute; discriminate |]).
    vm_compute. discriminate.
Qed.

Lemma two_parts_owned : @OwnedScheduler two_parts.
Proof. by intros n. Qed.

#[local] Existing Instance two_parts.

(** Modules that accept everything, and one node that connects. *)
Definition yes : Modules := fun _ => mret ERR_OK.
Definition one_client : Sockets :=
  {| accept k _ := if Nat.eqb k 0 then Some (21, 2) else None;
     recvmsg _ _ := mk_received (-1) Connection.EAGAIN (mk_channel (-1) 0 0 0) false false (-1) false |}.
#[local] Existing Instances yes one_client.

Definition worker_conn : Conn :=
  Connection.set_state (snd (Connection.init (Connection.new 9 1 1000) PROTOBUF 1000)) Connection.CONNECTED.

Definition worker1 : Network := set_table (net0 WORKER) (mk_table {[1 := worker_conn]} {[1]} {[9 := 1]} ∅).
Definition worker2 : Network := after (process_tcp_msg 9 1 worker1).
Definition worker3 : Network := after (process_tcp_msg 9 1 worker2).

Lemma kept_refl id n : kept id n n.
Proof. split; [done |]. intros c L. by exists c. Qed.

Lemma yes_ok id : @modules_ok yes id.
Proof. intros m n c _ _. exists n. split; [done | apply kept_refl]. Qed.

Lemma worker1_listening : listening 1 worker1 worker_conn.
Proof.
  split; [done | | done | done | done]. split; [by eexists | done | apply wf_empty | apply wf_empty].
Qed.

(** The connection after the first part. *)
Definition worker_conn2 : Conn := default worker_conn (objs (table worker2) !! 1).

Lemma worker12 : process_tcp_msg 9 1 worker1 = Ret ERR_OK worker2.
Proof. vm_compute. reflexivity. Qed.

Lemma worker23 : process_tcp_msg 9 1 worker2 = Ret ERR_OK worker3.
Proof. vm_compute. reflexivity. Qed.

Lemma worker_split : Connection.rx worker_conn ++ concat [take 20 (CodecProto.frame CodecProto.ping)] ++
  drop 20 (CodecProto.frame CodecProto.ping) = Connection.stream [CodecProto.ping].
Proof. vm_compute. reflexivity. Qed.

Lemma worker2_listening : listening 1 worker2 worker_conn2.
Proof.
  pose proof (@process_data zero_malloc WireFormat.wire two_parts Nodes.toy_digest SysProto.numbered yes 9
    zero_malloc_spec WireFormat.wire_spec two_parts_spec 1 worker1 worker_conn (take 20 (CodecProto.frame CodecProto.ping))
    (drop 20 (CodecProto.frame CodecProto.ping)) [CodecProto.ping] (yes_ok 1) worker1_listening) as D.
  destruct D as (ms1 & ms2 & n' & c' & _ & E & L & _).
  - by left.
  - vm_compute. reflexivity.
  - reflexivity.
  - apply zero_malloc_ok. vm_compute. discriminate.
  - vm_compute. discriminate.
  - vm_compute. reflexivity.
  - apply Forall_singleton, CodecProto.ping_ok.
  - cbn. lia.
  - rewrite worker12 in E. injection E as <-. unfold worker_conn2. by rewrite (l_obj _ _ _ L).
Qed.

Lemma worker_receives :
  receives 9 1 worker1 [take 20 (CodecProto.frame CodecProto.ping); drop 20 (CodecProto.frame CodecProto.ping)] worker3.
Proof.
  apply (rec_data 9 1 worker1 worker1 worker_conn _ ERR_OK worker2);
    [apply kept_refl | apply worker1_listening | vm_compute; reflexivity | reflexivity
    | apply zero_malloc_ok; vm_compute; discriminate | vm_compute; discriminate | exact worker12 |].
  apply (rec_data 9 1 worker2 worker2 worker_conn2 _ ERR_OK worker3);
    [apply kept_refl | apply worker2_listening | vm_compute; reflexivity | reflexivity
    | apply zero_malloc_ok; vm_compute; discriminate | vm_compute; discriminate | exact worker23 |].
  apply rec_end, kept_refl.
Qed.

Lemma server_handles_stream_witness :
  handled 1 (trace worker1) = [] /\
  exists ms1 ms2, [CodecProto.ping] = ms1 ++ ms2 /\ ms2 = [] /\
    handled 1 (trace worker3) = handled 1 (trace worker1) ++ deliveries worker_conn ms1.
Proof.
  split; [reflexivity |].
  destruct (@server_handles_stream zero_malloc WireFormat.wire two_parts Nodes.toy_digest SysProto.numbered yes 9
    zero_malloc_spec WireFormat.wire_spec two_parts_spec 1 worker1 _ worker3 worker_conn [CodecProto.ping] []
    (yes_ok 1) worker_receives worker1_listening) as (ms1 & ms2 & c' & E & _ & G & _ & _ & D & _).
  - by left.
  - vm_compute. reflexivity.
  - apply Forall_singleton, CodecProto.ping_ok.
  - cbn. lia.
  - exists ms1, ms2. split; [exact E | split; [by apply D | exact G]].
Defined.

Lemma server_node_listener_stops_witness :
  exists n', on_handle_accept_nodes_conn (net0 MANAGER) = Ret tt n'.
Proof.
  refine (@server_node_listener_stops two_parts one_client two_parts_owned (net0 MANAGER) _).
  intros id I. by apply not_elem_of_empty in I.
Defined.

Lemma server_gate_stops_without_worker_witness :
  exists n', on_handle_accept_gate_conn 9 (net0 MANAGER) = Ret tt n' /\
    trace n' = trace (net0 MANAGER) ++ [EvAccept 21] /\ table n' = table (net0 MANAGER).
Proof. apply (server_gate_stops_without_worker 9 (net0 MANAGER) 21 2 8); reflexivity. Defined.

End Server.
