(* ===== verification/CoList.v ===== *)
(** * CoList: the intrusive lists of libco

    Model of the list templates of [libco/co_routine.cpp] ([RemoveFromLink],
    [AddTail], [PopHead], [Join]) on a heap of nodes and list heads.  A node
    knows its list through [pLink].  Following a null or freed pointer, and a
    failing [assert], is the value [None].  [rep] relates a heap to the lists
    of nodes it stands for; the lemmas show that the templates never fail on
    such a heap and do to it what they should do to the lists. *)

From S2P Require Import Prelude.

#[local] Open Scope Z_scope.

Module CoList.

Record node := mk_node { pPrev : option Z; pNext : option Z; pLink : option Z }.
Record link := mk_link { l_head : option Z; l_tail : option Z }.
Record heap := mk_heap { nodes : gmap Z node; links : gmap Z link }.

(** A node after [memset] or [calloc]. *)
Definition node0 : node := mk_node None None None.
Definition link0 : link := mk_link None None.

Definition set_prev (p : Z) (v : option Z) (s : heap) : option heap :=
  n ← nodes s !! p; Some (mk_heap (<[p := mk_node v (pNext n) (pLink n)]> (nodes s)) (links s)).
Definition set_next (p : Z) (v : option Z) (s : heap) : option heap :=
  n ← nodes s !! p; Some (mk_heap (<[p := mk_node (pPrev n) v (pLink n)]> (nodes s)) (links s)).
Definition set_link (p : Z) (v : option Z) (s : heap) : option heap :=
  n ← nodes s !! p; Some (mk_heap (<[p := mk_node (pPrev n) (pNext n) v]> (nodes s)) (links s)).
Definition set_head (l : Z) (v : option Z) (s : heap) : option heap :=
  k ← links s !! l; Some (mk_heap (nodes s) (<[l := mk_link v (l_tail k)]> (links s))).
Definition set_tail (l : Z) (v : option Z) (s : heap) : option heap :=
  k ← links s !! l; Some (mk_heap (nodes s) (<[l := mk_link (l_head k) v]> (links s))).

(** Does something to the node a pointer points to, if there is one. *)
Definition if_some (p : option Z) (f : Z -> heap -> option heap) (s : heap) : option heap :=
  match p with Some x => f x s | None => Some s end.

Definition RemoveFromLink (ap : Z) (s : heap) : option heap :=
  n ← nodes s !! ap;
  match pLink n with
  | None => Some s
  | Some lst =>
      k ← links s !! lst;
      if bool_decide (l_head k = None) || bool_decide (l_tail k = None) then None else
      s ← (if bool_decide (l_head k = Some ap) then
             s ← set_head lst (pNext n) s;
             if_some (pNext n) (fun h => set_prev h None) s
           else if_some (pPrev n) (fun p => set_next p (pNext n)) s);
      k ← links s !! lst;
      n ← nodes s !! ap;
      s ← (if bool_decide (l_tail k = Some ap) then
             s ← set_tail lst (pPrev n) s;
             if_some (pPrev n) (fun t => set_next t None) s
           else
             nx ← pNext n;
             set_prev nx (pPrev n) s);
      Some (mk_heap (<[ap := node0]> (nodes s)) (links s))
  end.

Definition AddTail (apLink ap : Z) (s : heap) : option heap :=
  n ← nodes s !! ap;
  match pLink n with
  | Some _ => Some s
  | None =>
      k ← links s !! apLink;
      s ← (match l_tail k with
           | Some t =>
               s ← set_next t (Some ap) s;
               s ← set_next ap None s;
               s ← set_prev ap (Some t) s;
               set_tail apLink (Some ap) s
           | None =>
               s ← set_head apLink (Some ap) s;
               s ← set_tail apLink (Some ap) s;
               s ← set_next ap None s;
               set_prev ap None s
           end);
      set_link ap (Some apLink) s
  end.

Definition PopHead (apLink : Z) (s : heap) : option heap :=
  k ← links s !! apLink;
  match l_head k with
  | None => Some s
  | Some lp =>
      n ← nodes s !! lp;
      let s := if bool_decide (l_head k = l_tail k)
               then mk_heap (nodes s) (<[apLink := link0]> (links s))
               else mk_heap (nodes s) (<[apLink := mk_link (pNext n) (l_tail k)]> (links s)) in
      let s := mk_heap (<[lp := node0]> (nodes s)) (links s) in
      k ← links s !! apLink;
      if_some (l_head k) (fun h => set_prev h None) s
  end.

(** [while (lp) { lp->pLink = apLink; lp = lp->pNext; }] *)
Fixpoint relink (fuel : nat) (lp : option Z) (apLink : Z) (s : heap) : option heap :=
  match lp with
  | None => Some s
  | Some p =>
      match fuel with
      | O => None
      | S fuel =>
          s ← set_link p (Some apLink) s;
          n ← nodes s !! p;
          relink fuel (pNext n) apLink s
      end
  end.

Definition Join (apLink apOther : Z) (s : heap) : option heap :=
  ko ← links s !! apOther;
  match l_head ko with
  | None => Some s
  | Some lp =>
      s ← relink (S (size (nodes s))) (Some lp) apLink s;
      k ← links s !! apLink;
      s ← (match l_tail k with
           | Some t =>
               s ← set_next t (Some lp) s;
               s ← set_prev lp (Some t) s;
               set_tail apLink (l_tail ko) s
           | None =>
               s ← set_head apLink (Some lp) s;
               set_tail apLink (l_tail ko) s
           end);
      s ← set_head apOther None s;
      set_tail apOther None s
  end.

(** ** Segments *)

Definition or (a b : option Z) : option Z := match a with Some _ => a | None => b end.

(** The nodes [xs] of list [l], linked in this order, between the neighbours
    [p] and [q]. *)
Fixpoint seg (m : gmap Z node) (l : Z) (p : option Z) (xs : list Z) (q : option Z) : Prop :=
  match xs with
  | [] => True
  | x :: xs => m !! x = Some (mk_node p (or (head xs) q) (Some l)) /\ seg m l (Some x) xs q
  end.

Lemma head_app (xs ys : list Z) : head (xs ++ ys) = or (head xs) (head ys).
Proof. by destruct xs. Qed.

Lemma last_app' (xs ys : list Z) : last (xs ++ ys) = or (last ys) (last xs).
Proof. destruct ys as [|y ys]; [by rewrite app_nil_r |]. rewrite last_app. by destruct (last (y :: ys)) eqn:E; [| apply last_None in E]. Qed.

Lemma or_assoc a b c : or a (or b c) = or (or a b) c.
Proof. by destruct a. Qed.

Lemma seg_app m l p xs ys q : seg m l p (xs ++ ys) q <-> seg m l p xs (or (head ys) q) /\ seg m l (or (last xs) p) ys q.
Proof.
  revert p. induction xs as [|x xs IH]; intros p; [cbn; tauto |]. cbn [seg app].
  rewrite IH, head_app, or_assoc. assert (or (last (x :: xs)) p = or (last xs) (Some x)) as ->.
  { destruct xs as [|y xs]; [done |]. change (last (x :: y :: xs)) with (last (y :: xs)).
    destruct (last (y :: xs)) eqn:E; [done | by apply last_None in E]. }
  tauto.
Qed.

Lemma seg_frame m m' l p xs q : (forall x, x ∈ xs -> m' !! x = m !! x) -> seg m l p xs q -> seg m' l p xs q.
Proof.
  revert p. induction xs as [|x xs IH]; intros p F; [done |]. intros [E S]. split.
  - rewrite F by by left. done.
  - apply IH; [| done]. intros y Y. apply F. by right.
Qed.

Lemma seg_elem m l p xs q x : seg m l p xs q -> x ∈ xs -> exists n, m !! x = Some n /\ pLink n = Some l.
Proof.
  revert p. induction xs as [|y xs IH]; intros p; [intros _ []%not_elem_of_nil |]. intros [E S] [->|X]%elem_of_cons; eauto.
Qed.

(** Only the neighbours at the two ends change. *)
Lemma seg_insert m l p xs q x n : (x ∉ xs) -> seg m l p xs q -> seg (<[x:=n]> m) l p xs q.
Proof. intros N. apply seg_frame. intros y Y. apply lookup_insert_ne. by intros ->. Qed.

(** The last node of a segment gets a new right neighbour. *)
Lemma seg_set_next m l p xs x q q' : seg m l p (xs ++ [x]) q -> NoDup (xs ++ [x]) ->
  seg (<[x := mk_node (or (last xs) p) q' (Some l)]> m) l p (xs ++ [x]) q'.
Proof.
  intros S ND. apply NoDup_app in ND as (_ & N & _). rewrite seg_app in *. cbn in *. destruct S as [S _].
  assert (x ∉ xs) as X by (intros H; apply (N x H); by left).
  split; [by apply seg_insert | split; [apply lookup_insert_eq | done]].
Qed.

(** The first node of a segment gets a new left neighbour. *)
Lemma seg_set_prev m l p p' x xs q : seg m l p (x :: xs) q -> NoDup (x :: xs) ->
  seg (<[x := mk_node p' (or (head xs) q) (Some l)]> m) l p' (x :: xs) q.
Proof.
  intros [_ S] [N _]%NoDup_cons. split; [apply lookup_insert_eq | by apply seg_insert].
Qed.

(** ** The lists a heap stands for *)

Abbreviation lists := (gmap Z (list Z)).

(** Node [x] is in one of the lists. *)
Definition linked (x : Z) (a : lists) : Prop := exists l xs, a !! l = Some xs /\ x ∈ xs.

Record rep (s : heap) (a : lists) : Prop := {
  rep_links : forall l, links s !! l = (fun xs => mk_link (head xs) (last xs)) <$> a !! l;
  rep_nodup : forall l xs, a !! l = Some xs -> NoDup xs;
  rep_seg : forall l xs, a !! l = Some xs -> seg (nodes s) l None xs None;
  rep_in : forall x n l, nodes s !! x = Some n -> pLink n = Some l -> exists xs, a !! l = Some xs /\ x ∈ xs }.

Lemma rep_elem s a l xs x : rep s a -> a !! l = Some xs -> x ∈ xs -> exists n, nodes s !! x = Some n /\ pLink n = Some l.
Proof. intros R L X. exact (seg_elem _ _ _ _ _ _ (rep_seg _ _ R _ _ L) X). Qed.

(** A node is in one list at most. *)
Lemma rep_unique s a l l' xs ys x : rep s a -> a !! l = Some xs -> a !! l' = Some ys -> x ∈ xs -> x ∈ ys -> l = l'.
Proof.
  intros R L L' X Y. destruct (rep_elem _ _ _ _ _ R L X) as (n & N & P), (rep_elem _ _ _ _ _ R L' Y) as (n' & N' & P').
  congruence.
Qed.

Lemma rep_unlinked s a x n : rep s a -> nodes s !! x = Some n -> pLink n = None <-> ~ linked x a.
Proof.
  intros R N. split.
  - intros P (l & xs & L & X). destruct (rep_elem _ _ _ _ _ R L X) as (n' & N' & P'). congruence.
  - intros U. destruct (pLink n) as [l|] eqn:P; [| done]. destruct U. destruct (rep_in _ _ R _ _ _ N P) as (xs & L & X). by exists l, xs.
Qed.

(** Changing list [l] only: enough to look at [l] and at the nodes whose list changed. *)
Lemma rep_update s a m l k xs xs' :
  rep s a -> a !! l = Some xs -> NoDup xs' -> k = mk_link (head xs') (last xs') ->
  seg m l None xs' None ->
  (forall x, x ∉ xs -> x ∉ xs' -> m !! x = nodes s !! x) ->
  (forall x, x ∈ xs' -> x ∉ xs -> ~ linked x a) ->
  (forall x, x ∈ xs -> x ∉ xs' -> m !! x = Some node0 \/ m !! x = None) ->
  rep (mk_heap m (<[l := k]> (links s))) (<[l := xs']> a).
Proof.
  intros R L ND -> S Out New Old. split; cbn [nodes links].
  - intros l'. destruct (decide (l = l')) as [<-|N]; [by rewrite !lookup_insert_eq |].
    rewrite !lookup_insert_ne by done. apply R.
  - intros l' ys. destruct (decide (l = l')) as [<-|N]; [rewrite lookup_insert_eq; by intros [= <-] |].
    rewrite lookup_insert_ne by done. apply R.
  - intros l' ys. destruct (decide (l = l')) as [<-|N]; [rewrite lookup_insert_eq; by intros [= <-] |].
    rewrite lookup_insert_ne by done. intros Y. apply (seg_frame (nodes s)); [| by apply R].
    intros x X. assert (x ∉ xs) as Nx by (intros X'; apply N, (rep_unique s a _ _ _ _ x R L Y X' X)).
    apply Out; [done |]. intros X'. apply (New x X' Nx). by exists l', ys.
  - intros x n l' E P. destruct (decide (x ∈ xs')) as [X|X].
    { destruct (seg_elem _ _ _ _ _ _ S X) as (n' & E' & P'). exists xs'. assert (l' = l) as -> by congruence. by rewrite lookup_insert_eq. }
    destruct (decide (x ∈ xs)) as [X'|X'].
    { destruct (Old x X' X) as [H|H]; rewrite H in E; [by injection E as <- | done]. }
    rewrite Out in E by done. destruct (rep_in _ _ R _ _ _ E P) as (ys & Y & Z').
    assert (l' <> l) as N by (intros ->; congruence). exists ys. by rewrite lookup_insert_ne.
Qed.

(** ** What the templates do to the lists *)

Definition remove (x : Z) (a : lists) : lists := filter (fun y => y <> x) <$> a.
Definition add_tail (l x : Z) (a : lists) : lists := alter (fun xs => xs ++ [x]) l a.
Definition pop_head (l : Z) (a : lists) : lists := alter tail l a.
Definition join (l o : Z) (a : lists) : lists := <[o := []]> (<[l := default [] (a !! l) ++ default [] (a !! o)]> a).

Lemma nodup_snoc (xs : list Z) x : NoDup xs -> x ∉ xs -> NoDup (xs ++ [x]).
Proof. intros ND X. apply NoDup_app. split; [done |]. split; [set_solver | apply NoDup_singleton]. Qed.

Lemma filter_ne_id (x : Z) (xs : list Z) : x ∉ xs -> filter (fun y => y <> x) xs = xs.
Proof.
  induction xs as [|y xs IH]; [done |]. intros [N M]%not_elem_of_cons. rewrite filter_cons_True by congruence. by rewrite IH.
Qed.

Lemma filter_ne_split (x : Z) (us vs : list Z) : NoDup (us ++ x :: vs) -> filter (fun y => y <> x) (us ++ x :: vs) = us ++ vs.
Proof.
  intros (ND & N & [X _]%NoDup_cons)%NoDup_app. rewrite filter_app, filter_cons_False by (intros H; by apply H).
  rewrite !filter_ne_id; [done | done |]. intros H. apply (N x H). by left.
Qed.

Lemma remove_unlinked x a : ~ linked x a -> remove x a = a.
Proof.
  intros U. apply map_eq. intros l. unfold remove. rewrite lookup_fmap. destruct (a !! l) as [xs|] eqn:L; [| done]. cbn. f_equal.
  apply filter_ne_id. intros X. apply U. by exists l, xs.
Qed.

Lemma remove_linked s a x l us vs : rep s a -> a !! l = Some (us ++ x :: vs) -> remove x a = <[l := us ++ vs]> a.
Proof.
  intros R L. apply map_eq. intros l'. unfold remove. rewrite lookup_fmap. destruct (decide (l = l')) as [<-|N].
  - rewrite L, lookup_insert_eq. cbn. f_equal. apply filter_ne_split, (rep_nodup _ _ R _ _ L).
  - rewrite lookup_insert_ne by done. destruct (a !! l') as [ys|] eqn:L'; [| done]. cbn. f_equal.
    apply filter_ne_id. intros Y. apply N, (rep_unique _ _ _ _ _ _ x R L L'); set_solver.
Qed.

(** [AddTail] appends a node that is in no list. *)
Lemma AddTail_spec s a l x : rep s a -> is_Some (a !! l) -> is_Some (nodes s !! x) -> ~ linked x a ->
  exists s', AddTail l x s = Some s' /\ rep s' (add_tail l x a) /\ dom (nodes s') = dom (nodes s).
Proof.
  intros R [xs L] [n N] U. unfold AddTail. rewrite N. cbn. rewrite (proj2 (rep_unlinked _ _ _ _ R N) U).
  assert (x ∉ xs) as X by (intros X; apply U; by exists l, xs).
  assert (add_tail l x a = <[l := xs ++ [x]]> a) as ->.
  { apply map_eq. intros l'. unfold add_tail. destruct (decide (l = l')) as [<-|Nl].
    - by rewrite lookup_alter_eq, L, lookup_insert_eq.
    - by rewrite lookup_alter_ne, lookup_insert_ne. }
  pose proof (rep_links _ _ R l) as K. rewrite L in K. cbn in K. rewrite K. cbn.
  pose proof (rep_seg _ _ R _ _ L) as S. pose proof (rep_nodup _ _ R _ _ L) as ND.
  destruct xs as [|t us _] using rev_ind.
  - unfold set_head, set_tail, set_next, set_prev, set_link. cbn. repeat (rewrite ?lookup_insert_eq, ?insert_insert_eq, ?K, ?N; cbn).
    eexists. split; [done |]. split; [| cbn; by rewrite dom_insert_lookup_L].
    apply (rep_update s a _ l _ [] [x]); try done.
    + apply NoDup_singleton.
    + cbn. by rewrite lookup_insert_eq.
    + intros y _ Y. cbn. rewrite lookup_insert_ne; [done | set_solver].
    + intros y Y%list_elem_of_singleton _. by subst.
    + set_solver.
  - rewrite last_snoc. assert (t <> x) as Ntx by set_solver. apply seg_app in S as S'. cbn in S'. destruct S' as (S1 & T & _).
    unfold set_head, set_tail, set_next, set_prev, set_link. cbn. rewrite T. cbn.
    rewrite lookup_insert_ne by done. rewrite N. cbn. repeat (rewrite ?lookup_insert_eq, ?insert_insert_eq, ?K; cbn).
    eexists. split; [done |]. split.
    2: { cbn. rewrite !dom_insert_lookup_L; [done | by rewrite T | rewrite lookup_insert_ne by done; by rewrite N]. }
    apply (rep_update s a _ l _ (us ++ [t]) ((us ++ [t]) ++ [x])); try done.
    + by apply nodup_snoc.
    + rewrite last_snoc, !head_app. by destruct us.
    + cbn. apply seg_app. split.
      * apply seg_insert; [done |]. cbn. pose proof (seg_set_next _ _ _ _ _ _ (Some x) S ND) as S'. done.
      * cbn. rewrite last_snoc, lookup_insert_eq. done.
    + intros y Y1 Y2. cbn. rewrite !lookup_insert_ne; [done | set_solver | set_solver].
    + intros y Y1 Y2. assert (y = x) as -> by set_solver. done.
    + intros y Y1 Y2. set_solver.
Qed.

(** The node after which, and before which, [x] stands get linked. *)
Definition unlink_prev (us vs : list Z) (m : gmap Z node) : gmap Z node :=
  match last us with Some u => alter (fun n => mk_node (pPrev n) (head vs) (pLink n)) u m | None => m end.
Definition unlink_next (us vs : list Z) (m : gmap Z node) : gmap Z node :=
  match head vs with Some v => alter (fun n => mk_node (last us) (pNext n) (pLink n)) v m | None => m end.

Lemma seg_remove m l x us vs : NoDup (us ++ x :: vs) -> seg m l None (us ++ x :: vs) None ->
  seg (<[x := node0]> (unlink_next us vs (unlink_prev us vs m))) l None (us ++ vs) None.
Proof.
  intros ND S. apply seg_app in S as [S1 [_ S2]]. apply NoDup_app in ND as (ND1 & NI & [NX ND2]%NoDup_cons).
  assert (x ∉ us) as NU by (intros H; apply (NI x H); by left).
  assert (forall y, y ∈ us -> y ∉ vs) as NV by (intros y Y Y'; apply (NI y Y); by right).
  apply seg_app. split.
  - apply seg_insert; [done |]. apply (seg_frame (unlink_prev us vs m)).
    { intros y Y. unfold unlink_next. destruct (head vs) as [v|] eqn:V; [| done]. apply lookup_alter_ne. intros <-.
      apply (NV v Y). by apply head_Some_elem_of. }
    unfold unlink_prev. destruct us as [|u us _] using rev_ind; [done |]. rewrite last_snoc.
    apply seg_app in S1 as S3. destruct S3 as [_ [U _]]. cbn in U.
    pose proof (seg_set_next _ _ _ _ _ _ (or (head vs) None) S1 ND1) as S3.
    revert S3. apply seg_frame. intros y _. destruct (decide (u = y)) as [<-|Ny].
    + rewrite lookup_alter_eq, U, lookup_insert_eq. cbn. by destruct vs.
    + by rewrite lookup_alter_ne, lookup_insert_ne.
  - apply seg_insert; [done |]. apply (seg_frame (unlink_next us vs m)).
    { intros y Y. unfold unlink_next, unlink_prev. destruct (last us) as [u|] eqn:U; [| done].
      assert (u <> y) as N by (intros ->; apply (NV y); [by apply last_Some_elem_of | done]).
      destruct (head vs) as [v|]; [| by rewrite lookup_alter_ne]. destruct (decide (v = y)) as [<-|N'].
      - by rewrite !lookup_alter_eq, lookup_alter_ne.
      - by rewrite !lookup_alter_ne. }
    unfold unlink_next. destruct vs as [|v vs]; [done |]. cbn [head].
    pose proof (seg_set_prev _ _ _ (or (last us) None) _ _ _ S2 ND2) as S3. revert S3. apply seg_frame. intros y _. destruct S2 as [V _].
    destruct (decide (v = y)) as [<-|Ny].
    + rewrite lookup_alter_eq, V, lookup_insert_eq. cbn. by destruct (last us).
    + by rewrite lookup_alter_ne, lookup_insert_ne.
Qed.

Lemma alter_as_insert (f : node -> node) (k : Z) (m : gmap Z node) n : m !! k = Some n -> alter f k m = <[k := f n]> m.
Proof.
  intros E. apply map_eq. intros y. destruct (decide (k = y)) as [<-|N].
  - by rewrite lookup_alter_eq, E, lookup_insert_eq.
  - by rewrite lookup_alter_ne, lookup_insert_ne.
Qed.

(** The heap with [x] taken out of its list. *)
Definition unlinked_heap (s : heap) (l x : Z) (us vs : list Z) : heap :=
  mk_heap (<[x := node0]> (unlink_next us vs (unlink_prev us vs (nodes s))))
          (<[l := mk_link (head (us ++ vs)) (last (us ++ vs))]> (links s)).

Lemma unlinked_rep s a l x us vs : rep s a -> a !! l = Some (us ++ x :: vs) ->
  rep (unlinked_heap s l x us vs) (<[l := us ++ vs]> a).
Proof.
  intros R L. pose proof (rep_seg _ _ R _ _ L) as S. pose proof (rep_nodup _ _ R _ _ L) as ND.
  apply (rep_update s a _ l _ (us ++ x :: vs)); try done.
  - apply NoDup_app in ND as (? & N & [? ?]%NoDup_cons). apply NoDup_app. split; [done |]. split; [| done]. intros y Y Y'. apply (N y Y). by right.
  - by apply seg_remove.
  - intros y Y1 Y2. rewrite lookup_insert_ne by set_solver. unfold unlink_next, unlink_prev.
    assert (forall v, head vs = Some v -> v <> y) as V by (intros v V ->; apply Y2, elem_of_app; right; by apply head_Some_elem_of).
    assert (forall u, last us = Some u -> u <> y) as U by (intros u U ->; apply Y2, elem_of_app; left; by apply last_Some_elem_of).
    destruct (head vs) as [v|], (last us) as [u|]; rewrite ?lookup_alter_ne by eauto; done.
  - set_solver.
  - intros y Y1 Y2. assert (y = x) as -> by set_solver. left. apply lookup_insert_eq.
Qed.

Lemma unlinked_dom s a l x us vs : rep s a -> a !! l = Some (us ++ x :: vs) -> dom (nodes (unlinked_heap s l x us vs)) = dom (nodes s).
Proof.
  intros R L. destruct (rep_elem s a l _ x R L) as (n & N & _); [set_solver |].
  assert (forall f k (m : gmap Z node), dom (alter f k m) = dom m) as D by (intros; apply dom_alter_L).
  cbn. rewrite dom_insert_lookup_L; unfold unlink_next, unlink_prev; destruct (head vs), (last us); rewrite ?D; try done.
  all: apply elem_of_dom; rewrite ?D; apply elem_of_dom; by rewrite N.
Qed.

(** Where [x] stands decides the two tests of [RemoveFromLink]. *)
Lemma head_is_x (x : Z) us vs : NoDup (us ++ x :: vs) -> head (us ++ x :: vs) = Some x <-> us = [].
Proof.
  intros (_ & N & _)%NoDup_app. destruct us as [|u us]; [done |]. split; [| done]. intros [= ->]. destruct (N x); by left.
Qed.

Lemma last_is_x (x : Z) us vs : NoDup (us ++ x :: vs) -> last (us ++ x :: vs) = Some x <-> vs = [].
Proof.
  intros (_ & _ & [N _]%NoDup_cons)%NoDup_app. rewrite last_app. destruct vs as [|v vs]; [done |]. split; [| done].
  change (last (x :: v :: vs)) with (last (v :: vs)). destruct (last (v :: vs)) as [y|] eqn:E; [| by apply last_None in E].
  intros [= ->]. destruct N. by apply last_Some_elem_of.
Qed.

Ltac heap_ops := unfold set_head, set_tail, set_next, set_prev, set_link, if_some.
Ltac heap_eval := repeat (cbn; rewrite ?lookup_insert_eq, ?insert_insert_eq).

Lemma RemoveFromLink_eq s a l x us vs : rep s a -> a !! l = Some (us ++ x :: vs) ->
  RemoveFromLink x s = Some (unlinked_heap s l x us vs).
Proof.
  intros R L. pose proof (rep_seg _ _ R _ _ L) as S. pose proof (rep_nodup _ _ R _ _ L) as ND.
  pose proof (rep_links _ _ R l) as K. rewrite L in K. cbn in K.
  unfold RemoveFromLink. pose proof S as S0. apply seg_app in S as [S1 [X S2]]. rewrite X. cbn. rewrite K. cbn.
  pose proof (head_is_x x us vs ND) as Hd. pose proof (last_is_x x us vs ND) as Tl.
  rewrite (bool_decide_false (head (us ++ x :: vs) = None)) by by destruct us.
  rewrite (bool_decide_false (last (us ++ x :: vs) = None)) by (rewrite last_None; by destruct us).
  cbn [orb]. destruct us as [|u us _] using rev_ind; destruct vs as [|v vs].
  - cbn. rewrite bool_decide_true by done. heap_ops. rewrite K. heap_eval. rewrite X. heap_eval.
    rewrite bool_decide_true by done. heap_eval. done.
  - rewrite bool_decide_true by by apply Hd. destruct S2 as [V S2]. assert (v <> x) as Nv by (intros ->; set_solver).
    heap_ops. rewrite K. heap_eval. rewrite V. heap_eval. rewrite lookup_insert_ne, X by done. heap_eval.
    rewrite bool_decide_false by (intros H; by apply Tl in H). heap_eval.
    unfold unlinked_heap, unlink_next, unlink_prev. cbn. by rewrite (alter_as_insert _ _ _ _ V).
  - rewrite bool_decide_false by (intros H; apply Hd in H; by destruct us).
    apply seg_app in S1 as S3. destruct S3 as [_ [U _]]. cbn in U. assert (u <> x) as Nu by (intros ->; set_solver).
    heap_ops. rewrite last_snoc. cbn. rewrite U. heap_eval. rewrite K. heap_eval. rewrite lookup_insert_ne, X by done. heap_eval.
    rewrite bool_decide_true by by apply Tl. rewrite !last_snoc. heap_eval.
    unfold unlinked_heap, unlink_next, unlink_prev. rewrite last_snoc. cbn. rewrite (alter_as_insert _ _ _ _ U), app_nil_r, last_snoc.
    rewrite <- app_assoc, !head_app. by destruct us.
  - rewrite bool_decide_false by (intros H; apply Hd in H; by destruct us).
    apply seg_app in S1 as S3. destruct S3 as [_ [U _]]. cbn in U. destruct S2 as [V S2].
    apply NoDup_app in ND as (_ & N1 & [N2 _]%NoDup_cons).
    assert (u <> x) as Nu by (intros ->; apply (N1 x); set_solver). assert (v <> x) as Nv by (intros ->; set_solver).
    assert (u <> v) as Nuv by (intros ->; apply (N1 v); set_solver).
    heap_ops. rewrite last_snoc. cbn. rewrite U. heap_eval. rewrite K. heap_eval. rewrite lookup_insert_ne, X by done. heap_eval.
    rewrite bool_decide_false by (intros H; by apply Tl in H). rewrite last_snoc. heap_eval. rewrite lookup_insert_ne, V by done. cbn.
    unfold unlinked_heap, unlink_next, unlink_prev. rewrite last_snoc. cbn. rewrite (alter_as_insert _ _ _ _ U).
    erewrite alter_as_insert by (rewrite lookup_insert_ne by done; exact V). f_equal. f_equal. symmetry. apply insert_id. rewrite K.
    f_equal. f_equal; [by rewrite !head_app; destruct us | by rewrite !last_app].
Qed.

(** [RemoveFromLink] takes a node out of whatever list it is in. *)
Lemma RemoveFromLink_spec s a x : rep s a -> is_Some (nodes s !! x) ->
  exists s', RemoveFromLink x s = Some s' /\ rep s' (remove x a) /\ dom (nodes s') = dom (nodes s).
Proof.
  intros R [n N]. destruct (pLink n) as [l|] eqn:P.
  - destruct (rep_in _ _ R _ _ _ N P) as (xs & L & (us & vs & ->)%list_elem_of_split).
    exists (unlinked_heap s l x us vs). split; [by eapply RemoveFromLink_eq |]. rewrite (remove_linked s a x l us vs R L).
    split; [by apply unlinked_rep | by eapply unlinked_dom].
  - exists s. unfold RemoveFromLink. rewrite N. cbn. rewrite P. split; [done |].
    rewrite remove_unlinked; [done |]. by eapply rep_unlinked.
Qed.

(** [AddTail] leaves a node that is in a list where it is. *)
Lemma AddTail_linked s a l x : rep s a -> linked x a -> AddTail l x s = Some s.
Proof.
  intros R (l' & xs & L & X). destruct (rep_elem _ _ _ _ _ R L X) as (n & N & P). unfold AddTail. rewrite N. cbn. by rewrite P.
Qed.

(** [PopHead] takes the first node off. *)
Lemma PopHead_spec s a l x xs : rep s a -> a !! l = Some (x :: xs) ->
  exists s', PopHead l s = Some s' /\ rep s' (<[l := xs]> a) /\ dom (nodes s') = dom (nodes s).
Proof.
  intros R L. exists (unlinked_heap s l x [] xs). split; [| split; [by apply unlinked_rep | by eapply unlinked_dom]].
  pose proof (rep_seg _ _ R _ _ L) as [X S]. pose proof (rep_nodup _ _ R _ _ L) as [N ND]%NoDup_cons.
  pose proof (rep_links _ _ R l) as K. rewrite L in K. cbn in K. pose proof (last_is_x x [] xs) as Tl.
  unfold PopHead. rewrite K. cbn. rewrite X. cbn. destruct xs as [|v vs].
  - rewrite bool_decide_true by done. heap_eval. done.
  - rewrite bool_decide_false.
    2: { intros H. symmetry in H. apply Tl in H; [done |]. by apply NoDup_cons. }
    destruct S as [V S]. assert (v <> x) as Nv by (intros ->; set_solver).
    heap_ops. heap_eval. rewrite lookup_insert_ne, V by done. cbn. f_equal.
    unfold unlinked_heap, unlink_next, unlink_prev. cbn. rewrite (alter_as_insert _ _ _ _ V). f_equal. by apply insert_insert_ne.
Qed.

Lemma PopHead_nil s a l : rep s a -> a !! l = Some [] -> PopHead l s = Some s.
Proof. intros R L. unfold PopHead. pose proof (rep_links _ _ R l) as K. rewrite L in K. cbn in K. by rewrite K. Qed.

Lemma relink_spec l o k ys : forall fuel m p, seg m o p ys None -> NoDup ys -> (length ys <= fuel)%nat ->
  exists m', relink fuel (head ys) l (mk_heap m k) = Some (mk_heap m' k) /\ seg m' l p ys None /\
    (forall x, x ∉ ys -> m' !! x = m !! x) /\ dom m' = dom m.
Proof.
  induction ys as [|y ys IH]; intros fuel m p.
  - intros _ _ _. exists m. by destruct fuel.
  - intros [Y S] [N ND]%NoDup_cons Len. destruct fuel as [|fuel]; [cbn in Len; lia |]. cbn in Len. cbn. heap_ops. cbn. rewrite Y. heap_eval.
    set (m1 := <[y := _]> m). destruct (IH fuel m1 (Some y)) as (m' & E & S' & F & D); [by apply seg_insert | done | lia |].
    exists m'. replace (or (head ys) None) with (head ys) by by destruct (head ys). split; [done |]. split; [| split].
    + split; [| done]. rewrite F by done. unfold m1. rewrite lookup_insert_eq. by destruct (head ys).
    + intros x [X1 X2]%not_elem_of_cons. rewrite F by done. by apply lookup_insert_ne.
    + rewrite D. unfold m1. apply dom_insert_lookup_L. by rewrite Y.
Qed.

Lemma rep_length s a l xs : rep s a -> a !! l = Some xs -> (length xs <= size (nodes s))%nat.
Proof.
  intros R L. rewrite <- size_dom, <- (size_list_to_set (C := gset Z)) by apply (rep_nodup _ _ R _ _ L).
  apply subseteq_size. intros x X%elem_of_list_to_set. apply elem_of_dom. destruct (rep_elem _ _ _ _ _ R L X) as (n & N & _). by rewrite N.
Qed.

(** The heap after the nodes [ys] of list [o] moved behind those of list [l]. *)
Lemma rep_join s a l o xs ys m : rep s a -> l <> o -> a !! l = Some xs -> a !! o = Some ys ->
  seg m l None (xs ++ ys) None -> (forall x, x ∉ xs -> x ∉ ys -> m !! x = nodes s !! x) ->
  rep (mk_heap m (<[o := link0]> (<[l := mk_link (head (xs ++ ys)) (last (xs ++ ys))]> (links s)))) (<[o := []]> (<[l := xs ++ ys]> a)).
Proof.
  intros R N L O S F. split; cbn [nodes links].
  - intros l'. rewrite !lookup_insert. repeat case_decide; try done. apply R.
  - intros l' zs. rewrite !lookup_insert. repeat case_decide; [intros [= <-]; constructor | intros [= <-] | apply R].
    apply NoDup_app. split; [by apply (rep_nodup _ _ R l) |]. split; [| by apply (rep_nodup _ _ R o)].
    intros x X Y. apply N, (rep_unique _ _ _ _ _ _ x R L O X Y).
  - intros l' zs. rewrite !lookup_insert. repeat case_decide; [by intros [= <-] | intros [= <-]; by subst |].
    intros Z. apply (seg_frame (nodes s)); [| by apply R]. intros x X. apply F.
    + intros X'. by assert (l = l') by apply (rep_unique _ _ _ _ _ _ x R L Z X' X).
    + intros X'. by assert (o = l') by apply (rep_unique _ _ _ _ _ _ x R O Z X' X).
  - intros x n l' E P. destruct (decide (x ∈ xs ++ ys)) as [X|X].
    + destruct (seg_elem _ _ _ _ _ _ S X) as (n' & E' & P'). assert (l' = l) as -> by congruence.
      exists (xs ++ ys). by rewrite lookup_insert_ne, lookup_insert_eq.
    + apply not_elem_of_app in X as [X1 X2]. rewrite F in E by done. destruct (rep_in _ _ R _ _ _ E P) as (zs & Z & X).
      exists zs. rewrite !lookup_insert_ne; [done | intros ->; congruence | intros ->; congruence].
Qed.

Lemma Join_spec s a l o xs ys : rep s a -> l <> o -> a !! l = Some xs -> a !! o = Some ys ->
  exists s', Join l o s = Some s' /\ rep s' (<[o := []]> (<[l := xs ++ ys]> a)) /\ dom (nodes s') = dom (nodes s).
Proof.
  intros R N L O. unfold Join. pose proof (rep_links _ _ R l) as Kl. pose proof (rep_links _ _ R o) as Ko. rewrite L in Kl. rewrite O in Ko.
  cbn in Kl, Ko. rewrite Ko. cbn [mbind option_bind l_head l_tail]. destruct ys as [|y ys].
  { exists s. split; [done |]. rewrite app_nil_r, !insert_id; [done | done | by rewrite insert_id]. }
  cbn [head]. destruct (relink_spec l o (links s) (y :: ys) (S (size (nodes s))) (nodes s) None) as (m & E & S & F & D).
  { by apply R. } { by apply (rep_nodup _ _ R o). } { pose proof (rep_length _ _ _ _ R O). lia. }
  cbn [head] in E. replace (mk_heap (nodes s) (links s)) with s in E by by destruct s. rewrite E. cbn [mbind option_bind].
  pose proof (rep_seg _ _ R _ _ L) as SL. apply (seg_frame _ m) in SL.
  2: { intros x X. apply F. intros X'. apply N, (rep_unique _ _ _ _ _ _ x R L O X X'). }
  cbn [links]. rewrite Kl. cbn [mbind option_bind]. destruct xs as [|t us _] using rev_ind.
  - heap_ops. cbn. rewrite Kl. heap_eval. rewrite lookup_insert_ne, Ko by done. heap_eval. eexists. split; [done |]. split; [| done].
    apply (rep_join s a l o [] (y :: ys)); auto.
  - rewrite last_snoc. heap_ops. cbn. destruct S as [Y S]. apply seg_app in SL as S3. destruct S3 as [_ [T _]]. cbn in T.
    assert (t <> y) as Nt by (intros ->; apply N, (rep_unique _ _ _ _ _ _ y R L O); set_solver).
    rewrite T. heap_eval. rewrite lookup_insert_ne, Y by done. heap_eval. rewrite Kl. heap_eval.
    rewrite lookup_insert_ne, Ko by done. heap_eval. eexists. split; [done |]. split.
    + assert (NoDup (us ++ [t])) as ND1 by by apply (rep_nodup _ _ R l).
      assert (NoDup (y :: ys)) as ND2 by by apply (rep_nodup _ _ R o).
      assert (forall x, x ∈ us ++ [t] -> x ∉ y :: ys) as Dj by (intros x X X'; by apply N, (rep_unique _ _ _ _ _ _ x R L O)).
      match goal with |- rep (mk_heap ?m' _) _ => set (m2 := m') end.
      replace (head (us ++ [t])) with (head ((us ++ [t]) ++ y :: ys)) by (rewrite !head_app; by destruct us).
      replace (last (y :: ys)) with (last ((us ++ [t]) ++ y :: ys)).
      2: { rewrite last_app. destruct (last (y :: ys)) eqn:E'; [done | by apply last_None in E']. }
      apply (rep_join s a l o (us ++ [t]) (y :: ys)); auto.
      * apply seg_app. split.
        -- apply seg_insert; [by intros X; apply (Dj y X); left |]. by apply (seg_set_next _ _ _ _ _ None).
        -- rewrite last_snoc. split; [apply lookup_insert_eq |]. apply seg_insert; [by apply NoDup_cons in ND2 as [? _] |].
           apply seg_insert; [| done]. intros X. apply (Dj t); [| by right]. apply elem_of_app. right. by left.
      * intros x X1 X2. unfold m2. rewrite !lookup_insert_ne by set_solver. by apply F.
    + cbn. rewrite !dom_insert_lookup_L; [done | by rewrite T | rewrite lookup_insert_ne by done; by rewrite Y].
Qed.


(** ** New and freed nodes *)

Definition new_node (x : Z) (s : heap) : heap := mk_heap (<[x := node0]> (nodes s)) (links s).
Definition free_node (x : Z) (s : heap) : heap := mk_heap (delete x (nodes s)) (links s).

Lemma new_node_spec s a x : rep s a -> nodes s !! x = None -> rep (new_node x s) a /\ ~ linked x a.
Proof.
  intros R N. assert (~ linked x a) as U.
  { intros (l & xs & L & X). destruct (rep_elem _ _ _ _ _ R L X) as (n & E & _). congruence. }
  split; [| done]. split; cbn; [apply R | apply R | |].
  - intros l xs L. apply seg_insert; [| by apply R]. intros X. apply U. by exists l, xs.
  - intros y n l. rewrite lookup_insert. case_decide; [by intros [= <-] | apply R].
Qed.

Lemma free_node_spec s a x : rep s a -> ~ linked x a -> rep (free_node x s) a.
Proof.
  intros R U. split; cbn; [apply R | apply R | |].
  - intros l xs L. apply (seg_frame (nodes s)); [| by apply R]. intros y Y. apply lookup_delete_ne. intros ->. apply U. by exists l, xs.
  - intros y n l. rewrite lookup_delete. case_decide; [done | apply R].
Qed.

Lemma linked_remove x y a : linked y (remove x a) <-> linked y a /\ y <> x.
Proof.
  unfold linked, remove. setoid_rewrite lookup_fmap. split.
  - intros (l & xs & L & Y). destruct (a !! l) as [zs|] eqn:Z; [| done]. cbn in L. injection L as <-.
    apply list_elem_of_filter in Y as [? ?]. split; [| done]. by exists l, zs.
  - intros [(l & xs & L & Y) N]. exists l, (filter (fun z => z <> x) xs). rewrite L. split; [done |]. by apply list_elem_of_filter.
Qed.

(** ** The list of a node *)

Definition link_of (s : heap) (x : Z) : option Z := n ← nodes s !! x; pLink n.

Lemma link_of_rep s a x l : rep s a -> link_of s x = Some l <-> exists xs, a !! l = Some xs /\ x ∈ xs.
Proof.
  intros R. unfold link_of. split.
  - destruct (nodes s !! x) as [n|] eqn:N; [| done]. cbn. apply (rep_in _ _ R _ _ _ N).
  - intros (xs & L & X). destruct (rep_elem _ _ _ _ _ R L X) as (n & -> & P). done.
Qed.

(** Two heaps put node [y] in the same list if their lists agree on it. *)
Lemma link_of_agree s a s' a' y : rep s a -> rep s' a' ->
  (forall l, (exists xs, a !! l = Some xs /\ y ∈ xs) <-> (exists xs, a' !! l = Some xs /\ y ∈ xs)) ->
  link_of s' y = link_of s y.
Proof.
  intros R R' E. destruct (link_of s y) as [l|] eqn:L.
  - apply (link_of_rep s' a' y l R'), E. by apply (link_of_rep s a y l R).
  - destruct (link_of s' y) as [l|] eqn:L'; [| done]. apply (link_of_rep s' a' y l R'), E, (link_of_rep s a y l R) in L'. congruence.
Qed.

Lemma link_of_linked s a x : rep s a -> is_Some (link_of s x) <-> linked x a.
Proof.
  intros R. unfold linked, is_Some. split; intros [l L]; exists l; by apply (link_of_rep s a x l R).
Qed.

Lemma link_of_remove s a s' x y : rep s a -> rep s' (remove x a) -> link_of s' y = if decide (y = x) then None else link_of s y.
Proof.
  intros R R'. case_decide as E.
  - subst. apply eq_None_not_Some. rewrite (link_of_linked _ _ _ R'), linked_remove. tauto.
  - apply (link_of_agree s a s' _ y R R'). intros l. unfold remove. rewrite lookup_fmap. split.
    + intros (xs & -> & X). cbn. eexists. split; [done |]. by apply list_elem_of_filter.
    + intros (xs & Y & X). destruct (a !! l) as [zs|]; [| done]. cbn in Y. injection Y as <-.
      apply list_elem_of_filter in X as [_ X]. by exists zs.
Qed.

Lemma link_of_add_tail s a s' l x y : rep s a -> rep s' (add_tail l x a) -> is_Some (a !! l) ->
  link_of s' y = if decide (y = x) then Some l else link_of s y.
Proof.
  intros R R' [zs Z]. case_decide as E.
  - subst. apply (link_of_rep _ _ _ _ R'). exists (zs ++ [x]). unfold add_tail. rewrite lookup_alter_eq, Z. split; [done | set_solver].
  - apply (link_of_agree s a s' _ y R R'). intros l'. unfold add_tail. destruct (decide (l = l')) as [<-|N].
    + rewrite lookup_alter_eq, Z. cbn. split; intros (xs & [= <-] & X); eexists; (split; [done | set_solver]).
    + by rewrite lookup_alter_ne.
Qed.

Lemma link_of_pop s a s' l x xs y : rep s a -> a !! l = Some (x :: xs) -> rep s' (<[l := xs]> a) ->
  link_of s' y = if decide (y = x) then None else link_of s y.
Proof. intros R L R'. apply (link_of_remove s a); [done |]. by rewrite (remove_linked s a x l [] xs). Qed.

Lemma link_of_join s a s' l o xs ys y : rep s a -> a !! l = Some xs -> a !! o = Some ys -> l <> o ->
  rep s' (<[o := []]> (<[l := xs ++ ys]> a)) ->
  link_of s' y = if decide (link_of s y = Some o) then Some l else link_of s y.
Proof.
  intros R L O N R'. case_decide as E.
  - apply (link_of_rep _ _ _ _ R) in E as (zs & Z & Y). rewrite O in Z. injection Z as <-.
    apply (link_of_rep _ _ _ _ R'). exists (xs ++ ys). rewrite lookup_insert_ne, lookup_insert_eq by done. split; [done | set_solver].
  - apply (link_of_agree s a s' _ y R R'). intros l'. rewrite !lookup_insert. rewrite (link_of_rep _ _ _ _ R) in E.
    repeat case_decide; subst; try done.
    + split; [intros H; by destruct E | intros (zs & [= <-] & []%not_elem_of_nil)].
    + split.
      * intros (zs & Z & Y). exists (xs ++ ys). split; [done |]. assert (zs = xs) as -> by congruence. set_solver.
      * intros (zs & [= <-] & [Y|Y]%elem_of_app); [by exists xs |]. destruct E. by exists ys.
Qed.

Lemma linked_insert x l xs ys a : a !! l = Some xs -> ys ⊆ xs -> linked x (<[l := ys]> a) -> linked x a.
Proof.
  intros L I (l' & zs & Z & X). rewrite lookup_insert in Z. case_decide.
  - injection Z as <-. subst. exists l', xs. auto.
  - by exists l', zs.
Qed.

End CoList.
