(* ===== verification/CoTimeout.v ===== *)
(** * CoTimeout: the timing wheel of libco

    Model of [AllocTimeout], [AddTimeout] and [TakeAllTimeout] of
    [libco/co_routine.cpp].  The wheel is an array of list heads, one for
    every millisecond of the next [iItemSize] ones; the heads and the nodes
    are those of the heap of [CoList].  Head number [i] of the wheel has the
    address [i]. *)

From S2P Require Import Prelude CoList.
Import CoList.

#[local] Open Scope Z_scope.

Module CoTimeout.

Record stTimeout_t := mk_timeout {
  iItemSize : Z;         (* int *)
  ullStart : Z;          (* unsigned long long *)
  llStartIdx : Z         (* long long *)
}.

(** [calloc]: all heads, from 0 on, are empty. *)
Definition next_head (p : Z * gmap Z link) : Z * gmap Z link := (fst p + 1, <[fst p := link0]> (snd p)).
Definition heads (n : nat) : Z * gmap Z link := Nat.iter n next_head (0, ∅).

Definition AllocTimeout (iSize now : Z) : stTimeout_t * heap :=
  (mk_timeout iSize now 0, mk_heap ∅ (snd (heads (Z.to_nat iSize)))).

Lemma heads_spec n : fst (heads n) = Z.of_nat n /\
  forall i, snd (heads n) !! i = if decide (0 <= i < Z.of_nat n) then Some link0 else None.
Proof.
  unfold heads. induction n as [|n [E L]]; cbn [Nat.iter nat_rect].
  - split; [done |]. intros i. rewrite decide_False by lia. done.
  - fold (Nat.iter n next_head (0, ∅)). unfold next_head at 1 3. cbn [fst snd]. rewrite E. split; [lia |].
    intros i. rewrite lookup_insert, L. repeat case_decide; try done; lia.
Qed.

(** The first lines of [AddTimeout] and [TakeAllTimeout]. *)
Definition start_at (w : stTimeout_t) (allNow : Z) : stTimeout_t :=
  if ullStart w =? 0 then mk_timeout (iItemSize w) allNow 0 else w.

(** [apItem] expires at [ullExpireTime]; the result is the line of the error,
    0 on success. *)
Definition AddTimeout (w : stTimeout_t) (apItem ullExpireTime allNow : Z) (s : heap) : option (Z * stTimeout_t * heap) :=
  let w := start_at w allNow in
  if allNow <? ullStart w then Some (350, w, s)
  else if ullExpireTime <? allNow then Some (356, w, s)
  else
    let diff := u64 (ullExpireTime - ullStart w) in
    let diff := if iItemSize w <=? diff then iItemSize w - 1 else diff in
    s ← AddTail (u64 (llStartIdx w + diff) mod iItemSize w) apItem s;
    Some (0, w, s).

(** [for (int i = 0; i < cnt; i++)]: the rounds from [i] on. *)
Fixpoint join_slots (w : stTimeout_t) (apResult : Z) (n : nat) (i : Z) (s : heap) : option heap :=
  match n with
  | O => Some s
  | S n =>
      s ← Join apResult (Z.rem (llStartIdx w + i) (iItemSize w)) s;
      join_slots w apResult n (i + 1) s
  end.

Definition TakeAllTimeout (w : stTimeout_t) (allNow apResult : Z) (s : heap) : option (stTimeout_t * heap) :=
  let w := start_at w allNow in
  if allNow <? ullStart w then Some (w, s) else
  let cnt := i32 (u64 (allNow - ullStart w + 1)) in
  let cnt := if iItemSize w <? cnt then iItemSize w else cnt in
  if cnt <? 0 then Some (w, s) else
  s ← join_slots w apResult (Z.to_nat cnt) 0 s;
  Some (mk_timeout (iItemSize w) allNow (llStartIdx w + cnt - 1), s).

(** ** Invariant *)

(** The millisecond at which slot [i] is emptied. *)
Definition slot_time (w : stTimeout_t) (i : Z) : Z := ullStart w + (i - llStartIdx w) mod iItemSize w.
Definition is_slot (w : stTimeout_t) (i : Z) : Prop := 0 <= i < iItemSize w.

(** Times that the arithmetic of the wheel does not wrap around on. *)
Definition time_ok (t : Z) : Prop := 0 < t < 2 ^ 62.

(** No node waits in a slot that is emptied after the node expires. *)
Record wheel_ok (w : stTimeout_t) (a : lists) (expire : Z -> option Z) : Prop := {
  ok_size : 0 < iItemSize w < 2 ^ 31;
  ok_start : time_ok (ullStart w);
  ok_idx : 0 <= llStartIdx w <= ullStart w;
  ok_slots : forall i, is_slot w i -> is_Some (a !! i);
  ok_due : forall i xs x, is_slot w i -> a !! i = Some xs -> x ∈ xs -> exists e, expire x = Some e /\ slot_time w i <= e }.

Lemma slot_range w z : 0 < iItemSize w -> is_slot w (z mod iItemSize w).
Proof. intros. apply Z.mod_pos_bound. lia. Qed.

Lemma slot_time_of w d : 0 < iItemSize w -> 0 <= d < iItemSize w -> slot_time w ((llStartIdx w + d) mod iItemSize w) = ullStart w + d.
Proof.
  intros P D. unfold slot_time. f_equal. rewrite Zminus_mod_idemp_l.
  replace (llStartIdx w + d - llStartIdx w) with d by lia. by apply Z.mod_small.
Qed.

Lemma slot_of_time w i : 0 < iItemSize w -> is_slot w i ->
  i = (llStartIdx w + (slot_time w i - ullStart w)) mod iItemSize w.
Proof.
  intros P [I1 I2]. unfold slot_time.
  replace (ullStart w + (i - llStartIdx w) mod iItemSize w - ullStart w) with ((i - llStartIdx w) mod iItemSize w) by lia.
  rewrite Zplus_mod_idemp_r. replace (llStartIdx w + (i - llStartIdx w)) with i by lia. symmetry. by apply Z.mod_small.
Qed.

(** The invariant says nothing about nodes that are in no slot. *)
Lemma wheel_ok_mono w a a' ex ex' : wheel_ok w a ex ->
  (forall i, is_slot w i -> is_Some (a' !! i)) ->
  (forall i xs x, is_slot w i -> a' !! i = Some xs -> x ∈ xs -> ex' x = ex x /\ exists ys, a !! i = Some ys /\ x ∈ ys) ->
  wheel_ok w a' ex'.
Proof.
  intros [Sz St Ix Sl Du] S' I. split; try done. intros i xs x Hi L X. destruct (I i xs x Hi L X) as (-> & ys & Y & X'). eauto.
Qed.

(** ** AddTimeout *)

(** A node that is in no list, and that expires later than now, waits in a
    slot that is emptied when it expires, or earlier if that is too far
    away. *)
Lemma AddTimeout_spec w s a expire x e now :
  rep s a -> wheel_ok w a expire -> is_Some (nodes s !! x) -> ~ linked x a -> expire x = Some e ->
  ullStart w <= now -> now <= e -> time_ok e ->
  exists s' i, AddTimeout w x e now s = Some (0, w, s') /\ is_slot w i /\
    rep s' (add_tail i x a) /\ dom (nodes s') = dom (nodes s) /\ wheel_ok w (add_tail i x a) expire /\
    slot_time w i = Z.min e (ullStart w + iItemSize w - 1).
Proof.
  intros R OK N U E Le Le' Ok. destruct OK as [Sz St Ix Sl Du]. unfold time_ok in *.
  unfold AddTimeout, start_at. destruct (Z.eqb_spec (ullStart w) 0); [lia |]. cbv zeta.
  destruct (Z.ltb_spec now (ullStart w)); [lia |]. destruct (Z.ltb_spec e now); [lia |].
  rewrite (u64_small (e - _)) by lia. set (d := if _ : bool then _ else _).
  assert (0 <= d < iItemSize w /\ d = Z.min (e - ullStart w) (iItemSize w - 1)) as [D Dm].
  { unfold d. destruct (Z.leb_spec (iItemSize w) (e - ullStart w)); lia. }
  rewrite u64_small by lia. set (i := (_ + d) mod _). assert (is_slot w i) as I by (apply slot_range; lia).
  destruct (AddTail_spec s a i x R (Sl i I) N U) as (s' & A & R' & Dm'). rewrite A. cbn.
  exists s', i. split; [done |]. do 3 (split; [done |]). pose proof (slot_time_of w d ltac:(lia) D) as T. fold i in T.
  split; [| lia]. split; try done.
  - intros j J. unfold add_tail. destruct (Sl j J) as [ys Y]. destruct (decide (i = j)) as [<-|Nj].
    + by rewrite lookup_alter_eq, Y.
    + by rewrite lookup_alter_ne, Y.
  - intros j ys y J. unfold add_tail. destruct (decide (i = j)) as [<-|Nj].
    + rewrite lookup_alter_eq. destruct (a !! i) as [zs|] eqn:Z; [| done]. cbn. intros [= <-] [Y|Y]%elem_of_app; [eauto |].
      apply list_elem_of_singleton in Y as ->. exists e. split; [done | lia].
    + rewrite lookup_alter_ne by done. apply Du. done.
Qed.

(** ** TakeAllTimeout *)

(** The slots whose distance from the start is in [lo, hi). *)
Definition slot_between (w : stTimeout_t) (lo hi j : Z) : Prop :=
  is_slot w j /\ ullStart w + lo <= slot_time w j < ullStart w + hi.

#[export] Instance slot_between_dec w lo hi j : Decision (slot_between w lo hi j).
Proof. unfold slot_between, is_slot. apply _. Defined.

(** [a'] is [a] with the nodes of these slots, [taken], moved to [r]. *)
Record moved (w : stTimeout_t) (lo hi r : Z) (a a' : lists) (rs taken : list Z) : Prop := {
  mv_res : a' !! r = Some (rs ++ taken);
  mv_slot : forall j, j <> r -> a' !! j = if decide (slot_between w lo hi j) then Some [] else a !! j;
  mv_taken : forall x, x ∈ taken <-> exists j ys, slot_between w lo hi j /\ a !! j = Some ys /\ x ∈ ys }.

Lemma slot_between_one w i j : 0 < iItemSize w -> 0 <= i < iItemSize w ->
  slot_between w i (i + 1) j <-> j = (llStartIdx w + i) mod iItemSize w.
Proof.
  intros P I. split.
  - intros [J T]. rewrite (slot_of_time w j P J). f_equal. lia.
  - intros ->. split; [by apply slot_range |]. rewrite slot_time_of; lia.
Qed.

Lemma slot_between_split w i m hi j : i <= m <= hi -> slot_between w i hi j <-> slot_between w i m j \/ slot_between w m hi j.
Proof.
  intros. unfold slot_between. split; [| intros [[??]|[??]]; (split; [done | lia])].
  intros [J T]. destruct (decide (slot_time w j < ullStart w + m)); [left | right]; (split; [done | lia]).
Qed.

Lemma join_slots_spec w r n : 0 < iItemSize w -> 0 <= llStartIdx w -> ~ is_slot w r ->
  forall i s a rs, rep s a -> a !! r = Some rs -> (forall j, is_slot w j -> is_Some (a !! j)) ->
  0 <= i -> i + Z.of_nat n <= iItemSize w ->
  exists s' a' taken, join_slots w r n i s = Some s' /\ rep s' a' /\ dom (nodes s') = dom (nodes s) /\
    moved w i (i + Z.of_nat n) r a a' rs taken.
Proof.
  intros P I0 NR. induction n as [|n IH]; intros i s a rs R Rr Sl I In.
  { exists s, a, []. split; [done |]. split; [done |]. split; [done |].
    assert (forall j, ~ slot_between w i (i + Z.of_nat 0) j) as No by (unfold slot_between; lia).
    split; [by rewrite app_nil_r | | ].
    - intros j _. by destruct (decide (slot_between w i (i + Z.of_nat 0) j)) as [H|_]; [destruct (No j) |].
    - intros x. split; [intros []%not_elem_of_nil |]. intros (j & ys & H & _). by destruct (No j). }
  cbn [join_slots]. rewrite Z.rem_mod_nonneg by lia. set (k := (llStartIdx w + i) mod iItemSize w).
  assert (is_slot w k) as K by by apply slot_range. assert (r <> k) as Nk by by intros ->.
  destruct (Sl k K) as [ys Y]. destruct (Join_spec s a r k rs ys R Nk Rr Y) as (s1 & J & R1 & D1). rewrite J. cbn.
  destruct (IH (i + 1) s1 _ (rs ++ ys) R1) as (s' & a' & taken & E & R' & D & Mv); [| | lia | lia |].
  { by rewrite lookup_insert_ne, lookup_insert_eq. }
  { intros j Hj. rewrite !lookup_insert. repeat case_decide; eauto. }
  exists s', a', (ys ++ taken). split; [done |]. split; [done |]. split; [congruence |].
  replace (i + Z.of_nat (S n)) with (i + 1 + Z.of_nat n) by lia. destruct Mv as [M1 M2 M3].
  assert (forall j, slot_between w i (i + 1) j <-> j = k) as One by (intros; apply slot_between_one; lia).
  assert (forall j, slot_between w i (i + 1 + Z.of_nat n) j <-> j = k \/ slot_between w (i + 1) (i + 1 + Z.of_nat n) j) as Spl.
  { intros j. rewrite <- One. apply slot_between_split. lia. }
  split.
  - by rewrite M1, app_assoc.
  - intros j Nj. rewrite M2, !lookup_insert by done. specialize (Spl j). repeat case_decide; subst; intuition congruence.
  - intros x. rewrite elem_of_app, M3. split.
    + intros [X|(j & zs & B & Z & X)].
      * exists k, ys. rewrite Spl. auto.
      * exists j, zs. rewrite Spl. split; [by right |]. split; [| done]. rewrite !lookup_insert in Z. repeat case_decide; subst; try done.
        -- injection Z as <-. by apply not_elem_of_nil in X.
        -- by destruct B.
    + intros (j & zs & [->|B]%Spl & Z & X); [left; congruence |]. right. exists j, zs. split; [done |]. split; [| done].
      rewrite !lookup_insert_ne; [done | by intros <-; destruct B |].
      intros <-. assert (slot_between w i (i + 1) k) as B' by by apply One. unfold slot_between in B, B'. lia.
Qed.

Lemma slot_time_bound w i : 0 < iItemSize w -> ullStart w <= slot_time w i < ullStart w + iItemSize w.
Proof. intros P. unfold slot_time. pose proof (Z.mod_pos_bound (i - llStartIdx w) (iItemSize w) P). lia. Qed.

(** Slots that are not due keep their time when the wheel turns. *)
Lemma slot_time_turn w i d : 0 < iItemSize w -> ullStart w + d < slot_time w i -> 0 <= d ->
  slot_time (mk_timeout (iItemSize w) (ullStart w + d) (llStartIdx w + d)) i = slot_time w i.
Proof.
  unfold slot_time. cbn. intros P L D. set (o := (i - llStartIdx w) mod iItemSize w) in *.
  replace (i - (llStartIdx w + d)) with (i - llStartIdx w - d) by lia. rewrite <- Zminus_mod_idemp_l. fold o.
  pose proof (Z.mod_pos_bound (i - llStartIdx w) (iItemSize w) P). fold o in H. rewrite Z.mod_small by lia. lia.
Qed.

Lemma TakeAllTimeout_spec w s a expire r rs now :
  rep s a -> wheel_ok w a expire -> ~ is_slot w r -> a !! r = Some rs ->
  ullStart w <= now -> now - ullStart w + 1 < 2 ^ 31 -> time_ok now ->
  exists w' s' a' taken, TakeAllTimeout w now r s = Some (w', s') /\ rep s' a' /\ dom (nodes s') = dom (nodes s) /\
    wheel_ok w' a' expire /\ ullStart w' = now /\ iItemSize w' = iItemSize w /\
    moved w 0 (now - ullStart w + 1) r a a' rs taken.
Proof.
  intros R OK NR Rr Le Gap T. pose proof OK as [Sz St Ix Sl Du]. unfold time_ok in *.
  unfold TakeAllTimeout, start_at. destruct (Z.eqb_spec (ullStart w) 0); [lia |]. cbv zeta.
  destruct (Z.ltb_spec now (ullStart w)); [lia |]. rewrite u64_small, i32_small by lia.
  set (cnt := if iItemSize w <? _ then _ else _). assert (cnt = Z.min (now - ullStart w + 1) (iItemSize w)) as C.
  { unfold cnt. destruct (Z.ltb_spec (iItemSize w) (now - ullStart w + 1)); lia. }
  destruct (Z.ltb_spec cnt 0); [lia |].
  destruct (join_slots_spec w r (Z.to_nat cnt) ltac:(lia) ltac:(lia) NR 0 s a rs R Rr Sl) as (s' & a' & taken & E & R' & D & M); [lia | lia |].
  rewrite E. cbn. eexists _, s', a', taken. split; [done |]. do 2 (split; [done |]).
  assert (forall j, slot_between w 0 (0 + Z.of_nat (Z.to_nat cnt)) j <-> slot_between w 0 (now - ullStart w + 1) j) as B.
  { intros j. pose proof (slot_time_bound w j ltac:(lia)). unfold slot_between. intuition lia. }
  assert (moved w 0 (now - ullStart w + 1) r a a' rs taken) as M'.
  { destruct M as [M1 M2 M3]. split; [done | |].
    - intros j Nj. rewrite M2 by done. specialize (B j). repeat case_decide; tauto.
    - intros x. rewrite M3. by setoid_rewrite B. }
  split; [| done]. split; cbn; [lia | unfold time_ok; lia | lia | |].
  - intros j J. rewrite (mv_slot _ _ _ _ _ _ _ _ M') by (intros ->; done). case_decide; eauto.
  - intros j ys y J. rewrite (mv_slot _ _ _ _ _ _ _ _ M') by (intros ->; done). case_decide as Nb.
    { intros [= <-] []%not_elem_of_nil. }
    intros Y Hy. destruct (Du j ys y J Y Hy) as (e & E' & Le'). exists e. split; [done |].
    pose proof (slot_time_bound w j ltac:(lia)). assert (now < slot_time w j) as Later.
    { destruct (decide (now < slot_time w j)); [done |]. destruct Nb. split; [done | lia]. }
    pose proof (slot_time_turn w j (now - ullStart w) ltac:(lia) ltac:(lia) ltac:(lia)) as Tn.
    replace (ullStart w + (now - ullStart w)) with now in Tn by lia.
    replace (llStartIdx w + cnt - 1) with (llStartIdx w + (now - ullStart w)) by lia. lia.
Qed.

Lemma link_of_moved w lo hi r s a s' a' rs taken y :
  rep s a -> rep s' a' -> ~ is_slot w r -> a !! r = Some rs -> moved w lo hi r a a' rs taken ->
  link_of s' y = match link_of s y with Some j => if decide (slot_between w lo hi j) then Some r else Some j | None => None end.
Proof.
  intros R R' NR Rr [M1 M2 M3].
  assert (slot_between w lo hi r -> False) as NB by by intros [? _].
  destruct (link_of s y) as [j|] eqn:Ly.
  - pose proof Ly as Ly'. apply (link_of_rep _ _ _ _ R) in Ly' as (ys & J & Y). case_decide as B.
    + apply (link_of_rep _ _ _ _ R'). exists (rs ++ taken). split; [done |]. apply elem_of_app. right. apply M3. by exists j, ys.
    + apply (link_of_rep _ _ _ _ R'). destruct (decide (j = r)) as [->|N].
      * exists (rs ++ taken). split; [done |]. apply elem_of_app. left. congruence.
      * exists ys. rewrite M2, decide_False by done. done.
  - destruct (link_of s' y) as [j|] eqn:Ly'; [| done]. apply (link_of_rep _ _ _ _ R') in Ly' as (ys & J & Y).
    assert (~ linked y a) as U by (rewrite <- (link_of_linked _ _ _ R), Ly; by intros []). exfalso. apply U.
    destruct (decide (j = r)) as [->|N].
    + rewrite M1 in J. injection J as <-. apply elem_of_app in Y as [Y|Y]; [by exists r, rs |].
      apply M3 in Y as (j & zs & _ & Z & Y). by exists j, zs.
    + rewrite M2 in J by done. case_decide; [injection J as <-; by apply not_elem_of_nil in Y |]. by exists j, ys.
Qed.

End CoTimeout.
