(* ===== verification/CoLoop.v ===== *)
(** * CoLoop: waiting and waking in libco

    Model of the event loop of [libco/co_routine.cpp]: [co_poll_inner],
    [co_sleep], the condition variables [co_cond_*] and [co_eventloop].  A
    coroutine that waits owns a timeout item: a node in a slot of the timing
    wheel, in the list of active items, or in no list of the wheel; a
    coroutine that waits for a condition also owns a node in the list of the
    condition.  Items are numbered by [next]; an access to a number that is
    not alive is an access to freed memory.

    The interest list of [epoll] is a parameter.  What a coroutine does
    between two waits is a parameter too: the list of calls it makes into
    this part of libco. *)

From S2P Require Import Prelude CoList CoTimeout Effect.
Import CoList CoTimeout.

#[local] Open Scope Z_scope.

Module CoLoop.

(** ** Events *)

Definition POLLIN : Z := 1.
Definition POLLOUT : Z := 4.
Definition POLLERR : Z := 8.
Definition POLLHUP : Z := 16.
Definition POLLRDNORM : Z := 64.
Definition POLLWRNORM : Z := 256.
(** The numbers of Linux. *)
Definition EPOLLIN : Z := 1.
Definition EPOLLOUT : Z := 4.
Definition EPOLLERR : Z := 8.
Definition EPOLLHUP : Z := 16.
Definition EPOLLRDNORM : Z := 64.
Definition EPOLLWRNORM : Z := 256.

Definition or_if (events mask bit e : Z) : Z := if Z.land events mask =? 0 then e else Z.lor e bit.

Definition PollEvent2Epoll (events : Z) : Z :=
  let e := 0 in
  let e := or_if events POLLIN EPOLLIN e in
  let e := or_if events POLLOUT EPOLLOUT e in
  let e := or_if events POLLHUP EPOLLHUP e in
  let e := or_if events POLLERR EPOLLERR e in
  let e := or_if events POLLRDNORM EPOLLRDNORM e in
  or_if events POLLWRNORM EPOLLWRNORM e.

Definition EpollEvent2Poll (events : Z) : Z :=
  let e := 0 in
  let e := or_if events EPOLLIN POLLIN e in
  let e := or_if events EPOLLOUT POLLOUT e in
  let e := or_if events EPOLLHUP POLLHUP e in
  let e := or_if events EPOLLERR POLLERR e in
  let e := or_if events EPOLLRDNORM POLLRDNORM e in
  or_if events EPOLLWRNORM POLLWRNORM e.

(** ** State *)

Record pollfd := mk_pollfd { fd : Z; events : Z }.

(** [stPoll_t], and the timeout item of [stCoCondItem_t] with no descriptors. *)
Record item := mk_item {
  ullExpireTime : Z;
  bTimeout : bool;
  pArg : Z;                (* the coroutine *)
  is_cond : bool;
  fds : list pollfd;       (* the array of the caller *)
  revents : list Z;        (* arg.fds[i].revents *)
  iAllEventDetach : bool;
  iRaiseCnt : Z
}.

Definition set_bTimeout (b : bool) (i : item) : item :=
  mk_item (ullExpireTime i) b (pArg i) (is_cond i) (fds i) (revents i) (iAllEventDetach i) (iRaiseCnt i).
Definition raise_event (k : nat) (ev : Z) (i : item) : item :=
  mk_item (ullExpireTime i) (bTimeout i) (pArg i) (is_cond i) (fds i) (<[k := ev]> (revents i)) true (i32 (iRaiseCnt i + 1)).

(** [pTimeout->pItems + i] has the address [i]. *)
Definition pstTimeoutList : Z := -1.
Definition pstActiveList : Z := -2.

(** The interest list: what [EPOLL_CTL_ADD] answers (0 or the [errno]), and
    the pointer registered for a descriptor, here the item and the index of
    its [stPollItem_t]. *)
Class Epoll := {
  Ep : Type;
  ctl_add : Z -> Z * nat -> Z -> Ep -> Z * Ep;
  ctl_del : Z -> Ep -> Ep;
  interest : Ep -> Z -> option (Z * nat) }.

(** What is documented: a successful [ADD] registers the descriptor with the
    pointer, a failing one changes nothing, [DEL] removes the descriptor. *)
Class EpollSpec `{Epoll} := {
  add_ok : forall f d ev e, fst (ctl_add f d ev e) = 0 ->
    forall g, interest (snd (ctl_add f d ev e)) g = if decide (g = f) then Some d else interest e g;
  add_fails : forall f d ev e, fst (ctl_add f d ev e) <> 0 -> forall g, interest (snd (ctl_add f d ev e)) g = interest e g;
  del_ok : forall f e g, interest (ctl_del f e) g = if decide (g = f) then None else interest e g }.

Definition EPERM : Z := 1.

Section loop.
Context `{Epoll}.

Record Loop := mk {
  pTimeout : stTimeout_t;
  tl : heap;             (* items in the wheel, the timeout and the active list *)
  cl : heap;             (* items in the lists of the conditions *)
  items : gmap Z item;
  epfd : Ep;
  next : Z
}.

Definition set_wheel (s : Loop) w h : Loop := mk w h (cl s) (items s) (epfd s) (next s).
Definition set_tl (s : Loop) h : Loop := mk (pTimeout s) h (cl s) (items s) (epfd s) (next s).
Definition set_cl (s : Loop) h : Loop := mk (pTimeout s) (tl s) h (items s) (epfd s) (next s).
Definition set_items (s : Loop) x : Loop := mk (pTimeout s) (tl s) (cl s) x (epfd s) (next s).
Definition set_ep (s : Loop) e : Loop := mk (pTimeout s) (tl s) (cl s) (items s) e (next s).

Abbreviation L := (M Loop).

Definition tl_op (f : heap -> option heap) : L unit := fun s =>
  match f (tl s) with Some h => Ret tt (set_tl s h) | None => Undef end.
Definition cl_op (f : heap -> option heap) : L unit := fun s =>
  match f (cl s) with Some h => Ret tt (set_cl s h) | None => Undef end.
Definition item_at (x : Z) : L item := fun s =>
  match items s !! x with Some i => Ret i s | None => Undef end.
Definition upd_item (x : Z) (f : item -> item) : L unit :=
  i ← item_at x;
  modify (fun s => set_items s (<[x := f i]> (items s))).

(** [malloc] and [memset], [calloc]; [free]. *)
Definition new_item (i : item) : L Z := fun s =>
  Ret (next s) (mk (pTimeout s) (new_node (next s) (tl s)) (if is_cond i then new_node (next s) (cl s) else cl s)
                   (<[next s := i]> (items s)) (epfd s) (next s + 1)).
Definition free_item (x : Z) : L unit := fun s =>
  Ret tt (mk (pTimeout s) (free_node x (tl s)) (free_node x (cl s)) (delete x (items s)) (epfd s) (next s)).

Definition add_timeout (x now : Z) : L Z :=
  i ← item_at x;
  ((fun s => match AddTimeout (pTimeout s) x (ullExpireTime i) now (tl s) with
             | Some (ret, w, h) => Ret ret (set_wheel s w h)
             | None => Undef
             end) : L Z).

(** ** [co_poll_inner] *)

(** Step 2.  [true]: the call is handed on to the system's [poll]. *)
Fixpoint register_fds (x : Z) (nfds : nat) (pollfunc : bool) (i : nat) (l : list pollfd) : L bool :=
  match l with
  | [] => mret false
  | f :: l =>
      if -1 <? fd f then
        s ← get;
        let (err, e) := ctl_add (fd f) (x, i) (PollEvent2Epoll (events f)) (epfd s) in
        modify (fun s => set_ep s e) ;;
        if (err =? EPERM) && bool_decide (nfds = 1%nat) && pollfunc then mret true
        else register_fds x nfds pollfunc (S i) l
      else register_fds x nfds pollfunc (S i) l
  end.

(** The block that clears up. *)
Definition del_fds (l : list pollfd) (e : Ep) : Ep := foldl (fun e f => if -1 <? fd f then ctl_del (fd f) e else e) e l.
Definition poll_end (x : Z) : L (list Z) :=
  tl_op (RemoveFromLink x) ;;
  i ← item_at x;
  modify (fun s => set_ep s (del_fds (fds i) (epfd s))) ;;
  free_item x ;;
  mret (revents i).

(** Up to the point where the coroutine yields.  The caller gets an answer at
    once when the call is handed on to [poll] or no timeout can be set. *)
Inductive poll_status := Direct (timeout : Z) | Failed | Waits (x : Z).

Definition poll_begin (self : Z) (l : list pollfd) (timeout now : Z) (pollfunc : bool) : L poll_status :=
  if timeout =? 0 then (if pollfunc then mret (Direct timeout) else fun _ => Undef) else
  let timeout := if timeout <? 0 then INT_MAX else timeout in
  x ← new_item (mk_item 0 false self false l (replicate (length l) 0) false 0);
  direct ← register_fds x (length l) pollfunc 0 l;
  if direct : bool then free_item x ;; mret (Direct timeout) else
  upd_item x (fun i => mk_item (u64 (now + timeout)) (bTimeout i) (pArg i) (is_cond i) (fds i) (revents i) (iAllEventDetach i) (iRaiseCnt i)) ;;
  ret ← add_timeout x now;
  if negb (ret =? 0) then poll_end x ;; mret Failed else mret (Waits x).

(** [co_sleep(ms, fd, events)] of a coroutine whose system calls are hooked
    waits for one descriptor, and for its errors. *)
Definition co_sleep (self ms f ev now : Z) : L poll_status :=
  poll_begin self [mk_pollfd f (Z.lor (Z.lor ev POLLERR) POLLHUP)] ms now true.

(** ** Condition variables *)

Definition co_cond_pop (c : Z) : L (option Z) :=
  s ← get;
  k ← deref (links (cl s) !! c);
  match l_head k with
  | Some p => cl_op (PopHead c) ;; mret (Some p)
  | None => mret None
  end.

(** The two lines that wake the owner of an item. *)
Definition wake (p : Z) : L unit := tl_op (RemoveFromLink p) ;; tl_op (AddTail pstActiveList p).

Definition co_cond_signal (c : Z) : L unit :=
  sp ← co_cond_pop c;
  match sp with
  | None => mret tt
  | Some p => wake p
  end.

(** [for (;;)]: every round takes an item off the condition. *)
Fixpoint co_cond_broadcast (fuel : nat) (c : Z) : L unit :=
  sp ← co_cond_pop c;
  match sp with
  | None => mret tt
  | Some p =>
      wake p ;;
      match fuel with O => block | S fuel => co_cond_broadcast fuel c end
  end.

(** Up to the point where the coroutine yields; [None] when it does not. *)
Definition wait_begin (self c ms now : Z) : L (option Z) :=
  x ← new_item (mk_item 0 false self true [] [] false 0);
  ret ← (if 0 <? ms then
           upd_item x (fun i => mk_item (u64 (now + ms)) (bTimeout i) (pArg i) (is_cond i) (fds i) (revents i) (iAllEventDetach i) (iRaiseCnt i)) ;;
           add_timeout x now
         else mret 0);
  if negb (ret =? 0) then free_item x ;; mret None else
  cl_op (AddTail c x) ;; mret (Some x).

Definition wait_end (x : Z) : L unit :=
  cl_op (RemoveFromLink x) ;; free_item x.

(** ** What coroutines do *)

Inductive call :=
  | CPoll (l : list pollfd) (timeout now : Z) (pollfunc : bool)
  | CWait (c ms now : Z)
  | CSignal (c : Z)
  | CBroadcast (c : Z).

(** The calls a coroutine makes when it is resumed. *)
Class Program := calls : Z -> Loop -> list call.

(** [true]: the coroutine has yielded. *)
Definition exec (self : Z) (c : call) : L bool :=
  match c with
  | CPoll l timeout now pollfunc =>
      st ← poll_begin self l timeout now pollfunc;
      mret (match st with Waits _ => true | _ => false end)
  | CWait c ms now => x ← wait_begin self c ms now; mret (bool_decide (is_Some x))
  | CSignal c => co_cond_signal c ;; mret false
  | CBroadcast c => (s ← get; co_cond_broadcast (S (size (nodes (cl s)))) c) ;; mret false
  end.

Fixpoint run_calls (self : Z) (l : list call) : L unit :=
  match l with
  | [] => mret tt
  | c :: l => yielded ← exec self c; if yielded : bool then mret tt else run_calls self l
  end.

(** The rest of the call in which the owner of item [x] yielded. *)
Definition finish (x : Z) : L unit :=
  i ← item_at x;
  if is_cond i then wait_end x else poll_end x ;; mret tt.

(** ** [co_eventloop] *)

Section eventloop.
Context `{Program}.

(** [pfnProcess]: the coroutine of the item is resumed and runs until it
    yields. *)
Definition process (x : Z) : L unit :=
  i ← item_at x;
  finish x ;;
  s ← get;
  run_calls (pArg i) (calls (pArg i) s).

(** [OnPollPreparePfn] *)
Definition prepare (e : Z * nat * Z) : L unit :=
  let '(x, k, ev) := e in
  i ← item_at x;
  upd_item x (raise_event k (EpollEvent2Poll ev)) ;;
  if negb (iAllEventDetach i) then wake x else mret tt.

Fixpoint prepare_all (l : list (Z * nat * Z)) : L unit :=
  match l with [] => mret tt | e :: l => prepare e ;; prepare_all l end.

Definition take_timeouts (now : Z) : L unit := fun s =>
  match TakeAllTimeout (pTimeout s) now pstTimeoutList (tl s) with
  | Some (w, h) => Ret tt (set_wheel s w h)
  | None => Undef
  end.

(** [while (lp) { lp->bTimeout = true; lp = lp->pNext; }] *)
Fixpoint mark (fuel : nat) (lp : option Z) : L unit :=
  match lp with
  | None => mret tt
  | Some x =>
      match fuel with
      | O => block
      | S fuel =>
          upd_item x (set_bTimeout true) ;;
          s ← get;
          n ← deref (nodes (tl s) !! x);
          mark fuel (pNext n)
      end
  end.

(** An item that was taken off the wheel before its time goes back. *)
Definition put_back (x now : Z) : L bool :=
  ret ← add_timeout x now;
  if ret =? 0 then upd_item x (set_bTimeout false) ;; mret true else mret false.

(** A coroutine that was resumed: its item as it was then, and whether the
    item was a waiter that had been taken off its condition. *)
Record woken := mk_woken { w_item : Z; w_was : item; w_signalled : bool }.

Definition woken_as (x : Z) (i : item) (s : Loop) : woken :=
  mk_woken x i (is_cond i && bool_decide (link_of (cl s) x = None)).

(** [lp = active->head; while (lp) ...], with the coroutines it resumes. *)
Fixpoint drain (fuel : nat) (now : Z) : L (list woken) :=
  s ← get;
  k ← deref (links (tl s) !! pstActiveList);
  match l_head k with
  | None => mret []
  | Some lp =>
      match fuel with
      | O => block
      | S fuel =>
          tl_op (PopHead pstActiveList) ;;
          i ← item_at lp;
          again ← (if bTimeout i && (now <? ullExpireTime i) then put_back lp now else mret false);
          if again : bool then drain fuel now
          else process lp ;; r ← drain fuel now; mret (woken_as lp i s :: r)
      end
  end.

(** The part of the round between the events and the active items. *)
Definition expire_items (now : Z) : L unit :=
  take_timeouts now ;;
  s ← get;
  k ← deref (links (tl s) !! pstTimeoutList);
  mark (S (size (nodes (tl s)))) (l_head k) ;;
  tl_op (Join pstActiveList pstTimeoutList).

(** One round: [l] is what [co_epoll_wait] answered, [now] the time after
    it. *)
Definition round (fuel : nat) (l : list (Z * nat * Z)) (now : Z) : L (list woken) :=
  modify (fun s => set_tl s (mk_heap (nodes (tl s)) (<[pstTimeoutList := link0]> (links (tl s))))) ;;
  prepare_all l ;;
  expire_items now ;;
  drain fuel now.

End eventloop.

(** [AllocEpoll]: a wheel of 60 seconds and two empty lists. *)
Definition AllocEpoll (e : Ep) (conds : gset Z) (now : Z) : Loop :=
  let (w, h) := AllocTimeout (60 * 1000) now in
  mk w (mk_heap (nodes h) (<[pstTimeoutList := link0]> (<[pstActiveList := link0]> (links h))))
     (mk_heap ∅ (gset_to_gmap link0 conds)) ∅ e 0.

(** ** Invariant

    [a] and [c] are the lists of items of the wheel and of the conditions;
    [p] is the item that is just being set up or has just been taken out of
    the active list, if there is one. *)

Context (conds : gset Z).

Definition expire_of (s : Loop) (x : Z) : option Z := ullExpireTime <$> items s !! x.

Record ok (s : Loop) (a c : lists) (p : option Z) : Prop := {
  ok_tl : rep (tl s) a;
  ok_cl : rep (cl s) c;
  ok_wheel : wheel_ok (pTimeout s) a (expire_of s);
  ok_sz : iItemSize (pTimeout s) = 60000;
  ok_active : is_Some (a !! pstActiveList);
  ok_tlist : a !! pstTimeoutList = Some [];
  ok_dom : dom (nodes (tl s)) = dom (items s);
  ok_cdom : forall x, is_Some (nodes (cl s) !! x) <-> exists i, items s !! x = Some i /\ is_cond i = true;
  ok_conds : forall x, x ∈ conds -> is_Some (c !! x);
  ok_next : forall x, is_Some (items s !! x) -> x < next s;
  (* an item in the wheel waits: nothing has happened to it *)
  ok_slot : forall x l i, link_of (tl s) x = Some l -> is_slot (pTimeout s) l -> items s !! x = Some i ->
    bTimeout i = false /\ iAllEventDetach i = false;
  (* an item that is active has timed out, or had an event, or was signalled *)
  ok_why : forall x i, link_of (tl s) x = Some pstActiveList -> items s !! x = Some i ->
    bTimeout i = true \/ iAllEventDetach i = true \/ (is_cond i = true /\ link_of (cl s) x = None);
  (* the owner of an item can be woken *)
  ok_waits : forall x, is_Some (items s !! x) -> p <> Some x -> is_Some (link_of (tl s) x) \/ is_Some (link_of (cl s) x);
  (* the pointers that epoll holds are those of descriptors of items that wait *)
  ok_interest : forall f x k, interest (epfd s) f = Some (x, k) ->
    exists i q, items s !! x = Some i /\ is_cond i = false /\ fds i !! k = Some q /\ fd q = f /\ -1 < f;
  ok_exp : forall x i, items s !! x = Some i -> 0 <= ullExpireTime i < 2 ^ 62;
  ok_lists : forall x l, link_of (tl s) x = Some l -> is_slot (pTimeout s) l \/ l = pstActiveList }.

Lemma active_no_slot w : ~ is_slot w pstActiveList.
Proof. unfold is_slot, pstActiveList. lia. Qed.

Lemma tlist_no_slot w : ~ is_slot w pstTimeoutList.
Proof. unfold is_slot, pstTimeoutList. lia. Qed.

Lemma ok_node s a c p x : ok s a c p -> is_Some (items s !! x) -> is_Some (nodes (tl s) !! x).
Proof. intros K X. apply elem_of_dom. rewrite (ok_dom _ _ _ _ K). by apply elem_of_dom. Qed.

(** The item [x] is the one that [p] allows to be nowhere. *)
Definition only (p : option Z) (x : Z) : Prop := p = None \/ p = Some x.

Lemma ok_remove s a c p x : ok s a c p -> is_Some (items s !! x) -> only p x ->
  exists h, RemoveFromLink x (tl s) = Some h /\ ok (set_tl s h) (remove x a) c (Some x) /\
    forall y, link_of h y = if decide (y = x) then None else link_of (tl s) y.
Proof.
  intros K X P. destruct (RemoveFromLink_spec _ _ x (ok_tl _ _ _ _ K) (ok_node _ _ _ _ _ K X)) as (h & E & R & D).
  exists h. split; [done |]. pose proof (fun y => link_of_remove _ _ _ x y (ok_tl _ _ _ _ K) R) as Lk. split; [| done].
  destruct K as [? ? W ? [xs A] T ? ? ? ? Sl Wy Wt ? ? Ls]. unfold remove in *. split; cbn; try done.
  - apply (wheel_ok_mono _ a _ (expire_of s)); [done | |].
    + intros i I. rewrite lookup_fmap. destruct (ok_slots _ _ _ W i I) as [zs ->]. done.
    + intros i zs y _ L Y. split; [done |]. rewrite lookup_fmap in L. destruct (a !! i) as [us|]; [| done]. injection L as <-.
      apply list_elem_of_filter in Y as [_ Y]. by exists us.
  - by rewrite lookup_fmap, A.
  - by rewrite lookup_fmap, T.
  - congruence.
  - intros y l i. rewrite Lk. case_decide; [done | apply Sl].
  - intros y i. rewrite Lk. case_decide; [done | apply Wy].
  - intros y Y N. rewrite Lk, decide_False by congruence. apply Wt; [done |]. destruct P; congruence.
  - intros y l. rewrite Lk. case_decide; [done | apply Ls].
Qed.

(** Appending to a list keeps the lists that are there. *)
Lemma add_tail_some l x (a : lists) l' : is_Some (a !! l') -> is_Some (add_tail l x a !! l').
Proof.
  intros [xs E]. unfold add_tail. destruct (decide (l = l')) as [<-|N]; [by rewrite lookup_alter_eq, E | by rewrite lookup_alter_ne, E].
Qed.

Lemma ok_activate s a c p x i : ok s a c p -> items s !! x = Some i -> only p x -> link_of (tl s) x = None ->
  bTimeout i = true \/ iAllEventDetach i = true \/ (is_cond i = true /\ link_of (cl s) x = None) ->
  exists h, AddTail pstActiveList x (tl s) = Some h /\ ok (set_tl s h) (add_tail pstActiveList x a) c None /\
    forall y, link_of h y = if decide (y = x) then Some pstActiveList else link_of (tl s) y.
Proof.
  intros K X P U Why. assert (~ linked x a) as U' by (rewrite <- (link_of_linked _ _ _ (ok_tl _ _ _ _ K)), U; by intros []).
  destruct (AddTail_spec _ _ pstActiveList x (ok_tl _ _ _ _ K) (ok_active _ _ _ _ K)) as (h & E & R & D); [| done |].
  { eapply ok_node; [done | by rewrite X]. }
  exists h. split; [done |]. pose proof (fun y => link_of_add_tail _ _ _ _ x y (ok_tl _ _ _ _ K) R (ok_active _ _ _ _ K)) as Lk. split; [| done].
  destruct K as [? ? W ? A T ? ? ? ? Sl Wy Wt ? ? Ls]. split; cbn; try done.
  - apply (wheel_ok_mono _ a _ (expire_of s)); [done | |].
    + intros j J. apply add_tail_some, W, J.
    + intros j zs y J L Y. split; [done |]. exists zs. split; [| done]. unfold add_tail in L.
      rewrite lookup_alter_ne in L; [done |]. intros <-. by apply active_no_slot in J.
  - by apply add_tail_some.
  - unfold add_tail. by rewrite lookup_alter_ne.
  - congruence.
  - intros y l j. rewrite Lk. case_decide; [| apply Sl]. intros [= <-] J. by apply active_no_slot in J.
  - intros y j. rewrite Lk. case_decide; [| apply Wy]. subst. intros _. by rewrite X; intros [= <-].
  - intros y Y _. rewrite Lk. case_decide; [by left |]. apply Wt; [done |]. destruct P; congruence.
  - intros y l. rewrite Lk. case_decide; [intros [= <-]; by right | apply Ls].
Qed.

Lemma ok_pop s a c x xs : ok s a c None -> a !! pstActiveList = Some (x :: xs) ->
  exists h i, PopHead pstActiveList (tl s) = Some h /\ items s !! x = Some i /\
    ok (set_tl s h) (<[pstActiveList := xs]> a) c (Some x) /\
    forall y, link_of h y = if decide (y = x) then None else link_of (tl s) y.
Proof.
  intros K A. pose proof (ok_tl _ _ _ _ K) as R0. destruct (PopHead_spec _ _ _ _ _ R0 A) as (h & E & R & D).
  assert (exists i, items s !! x = Some i) as [i I].
  { destruct (rep_elem _ _ _ _ x R0 A) as (n & N & _); [by left |]. apply elem_of_dom. rewrite <- (ok_dom _ _ _ _ K). apply elem_of_dom. by rewrite N. }
  exists h, i. do 2 (split; [done |]). pose proof (fun y => link_of_pop _ _ _ _ _ _ y R0 A R) as Lk. split; [| done].
  destruct K as [? ? W ? ? T ? ? ? ? Sl Wy Wt ? ? Ls]. split; cbn; try done.
  - apply (wheel_ok_mono _ a _ (expire_of s)); [done | |].
    + intros j J. rewrite lookup_insert. case_decide; [done | by apply W].
    + intros j zs y J L Y. split; [done |]. exists zs. split; [| done].
      rewrite lookup_insert_ne in L; [done |]. intros <-. by apply active_no_slot in J.
  - by rewrite lookup_insert_eq.
  - by rewrite lookup_insert_ne.
  - congruence.
  - intros y l j. rewrite Lk. case_decide; [done | apply Sl].
  - intros y j. rewrite Lk. case_decide; [done | apply Wy].
  - intros y Y N. rewrite Lk, decide_False by congruence. by apply Wt.
  - intros y l. rewrite Lk. case_decide; [done | apply Ls].
Qed.

(** Setting an item that is in no slot of the wheel. *)
Lemma ok_upd s a c p x i i' : ok s a c p -> items s !! x = Some i ->
  (forall l, link_of (tl s) x = Some l -> ~ is_slot (pTimeout s) l) ->
  is_cond i' = is_cond i -> fds i' = fds i ->
  (link_of (tl s) x = Some pstActiveList -> bTimeout i' = true \/ iAllEventDetach i' = true \/ bTimeout i' = bTimeout i) ->
  (iAllEventDetach i = true -> iAllEventDetach i' = true) -> 0 <= ullExpireTime i' < 2 ^ 62 ->
  ok (set_items s (<[x := i']> (items s))) a c p.
Proof.
  intros K X NS Cn Fd Ac De Ex'. destruct K as [R ? W ? ? ? D Cd ? Nx Sl Wy Wt It Ex Ls]. split; cbn; try done.
  - apply (wheel_ok_mono _ a _ (expire_of s)); [done | apply W |]. intros j zs y J L Y. split; [| by exists zs].
    unfold expire_of. cbn. rewrite lookup_insert_ne; [done |]. intros <-. apply (NS j); [| done]. apply (link_of_rep _ _ _ _ R). by exists zs.
  - rewrite D. symmetry. apply dom_insert_lookup_L. by rewrite X.
  - intros y. rewrite Cd. rewrite lookup_insert. case_decide; [subst |done]. rewrite X. split; intros (j & [= <-] & ?); eexists; (split; [done | congruence]).
  - intros y Y. apply Nx. rewrite lookup_insert in Y. case_decide; [subst; by rewrite X | done].
  - intros y l j Ly J. rewrite lookup_insert. case_decide; [subst; by destruct (NS l Ly) | by apply (Sl y l)].
  - intros y j Ly. rewrite lookup_insert. case_decide; [subst | by apply Wy]. intros [= <-]. destruct (Ac Ly) as [?|[?|E]]; [by left | by right; left |].
    rewrite E, Cn. destruct (Wy y i Ly X) as [?|[?|?]]; [by left | right; left; by apply De | by right; right].
  - intros y Y. apply Wt. rewrite lookup_insert in Y. case_decide; [subst; by rewrite X | done].
  - intros f y k Hf. destruct (It f y k Hf) as (j & q & J & ? & ? & ?). rewrite lookup_insert. case_decide.
    + subst. exists i', q. rewrite X in J. injection J as <-. split; [done |]. rewrite Cn, Fd. done.
    + by exists j, q.
  - intros y j. rewrite lookup_insert. case_decide; [by intros [= <-] | apply Ex].
Qed.

Lemma ok_add_timeout s a c p x i now : ok s a c p -> items s !! x = Some i -> only p x -> link_of (tl s) x = None ->
  bTimeout i = false -> iAllEventDetach i = false ->
  ullStart (pTimeout s) <= now -> now <= ullExpireTime i -> time_ok (ullExpireTime i) ->
  exists h a' l, AddTimeout (pTimeout s) x (ullExpireTime i) now (tl s) = Some (0, pTimeout s, h) /\
    ok (set_wheel s (pTimeout s) h) a' c None /\ is_slot (pTimeout s) l /\
    forall y, link_of h y = if decide (y = x) then Some l else link_of (tl s) y.
Proof.
  intros K X P U B De Le Le' T. assert (~ linked x a) as U' by (rewrite <- (link_of_linked _ _ _ (ok_tl _ _ _ _ K)), U; by intros []).
  destruct (AddTimeout_spec (pTimeout s) (tl s) a (expire_of s) x (ullExpireTime i) now) as (h & l & E & Hl & R & D & W' & _); try done.
  { apply K. } { apply K. } { eapply ok_node; [done | by rewrite X]. } { unfold expire_of. by rewrite X. }
  exists h, (add_tail l x a), l. split; [done |].
  pose proof (fun y => link_of_add_tail _ _ _ _ x y (ok_tl _ _ _ _ K) R (ok_slots _ _ _ (ok_wheel _ _ _ _ K) l Hl)) as Lk. split; [| done].
  destruct K as [? ? W ? A Tl ? ? ? ? Sl Wy Wt ? ? Ls]. split; cbn; try done.
  - by apply add_tail_some.
  - unfold add_tail. rewrite lookup_alter_ne; [done |]. intros ->. by apply tlist_no_slot in Hl.
  - congruence.
  - intros y m j. rewrite Lk. case_decide; [| apply Sl]. subst. rewrite X. by intros _ _ [= <-].
  - intros y j. rewrite Lk. case_decide; [| apply Wy]. intros [= ->]. by apply active_no_slot in Hl.
  - intros y Y _. rewrite Lk. case_decide; [by left |]. apply Wt; [done |]. destruct P; congruence.
  - intros y m. rewrite Lk. case_decide; [intros [= <-]; by left | apply Ls].
Qed.

Lemma ok_new s a c i s' x : ok s a c None -> ullExpireTime i = 0 -> new_item i s = Ret x s' ->
  ok s' a c (Some x) /\ x = next s /\ items s' = <[x := i]> (items s) /\ items s !! x = None /\
  pTimeout s' = pTimeout s /\ link_of (tl s') x = None /\ link_of (cl s') x = None /\
  (forall y, y <> x -> link_of (tl s') y = link_of (tl s) y) /\ (forall y, y <> x -> link_of (cl s') y = link_of (cl s) y).
Proof.
  intros K E0 [= <- <-]. destruct K as [R Rc W ? A Tl D Cd ? Nx Sl Wy Wt It Ex Ls].
  assert (items s !! next s = None) as F by (apply eq_None_not_Some; intros Y%Nx; lia).
  assert (nodes (tl s) !! next s = None) as N1 by (apply not_elem_of_dom; rewrite D; by apply not_elem_of_dom).
  assert (nodes (cl s) !! next s = None) as N2 by (apply eq_None_not_Some; rewrite Cd; intros (j & ? & _); congruence).
  destruct (new_node_spec _ _ _ R N1) as [R' _]. destruct (new_node_spec _ _ _ Rc N2) as [Rc' _].
  assert (forall h y, link_of (new_node (next s) h) y = if decide (y = next s) then None else link_of h y) as Lk.
  { intros h y. unfold link_of, new_node. cbn. rewrite lookup_insert. repeat case_decide; subst; done. }
  assert (link_of (tl s) (next s) = None) as L1 by (unfold link_of; by rewrite N1).
  assert (link_of (cl s) (next s) = None) as L2 by (unfold link_of; by rewrite N2).
  assert (forall y, link_of (tl s) y = link_of (new_node (next s) (tl s)) y) as E1 by (intros y; rewrite Lk; case_decide; congruence).
  assert (forall y, link_of (cl s) y = link_of (if is_cond i then new_node (next s) (cl s) else cl s) y) as E2.
  { intros y. destruct (is_cond i); [| done]. rewrite Lk; case_decide; congruence. }
  split; [| cbn; rewrite <- !E1, <- !E2; eauto 10]. split; cbn; try done.
  - by destruct (is_cond i).
  - apply (wheel_ok_mono _ a _ (expire_of s)); [done | apply W |]. intros j zs y J L Y. split; [| by exists zs].
    unfold expire_of. cbn. rewrite lookup_insert_ne; [done |]. intros <-.
    assert (link_of (tl s) (next s) = Some j) by (apply (link_of_rep _ _ _ _ R); by exists zs). congruence.
  - rewrite !dom_insert_L. congruence.
  - intros y. rewrite lookup_insert. destruct (is_cond i) eqn:Ci; cbn; rewrite ?lookup_insert; case_decide; subst.
    + split; [intros _; by exists i | by intros _]. 
    + apply Cd.
    + rewrite N2. split; [by intros [] | intros (j & [= <-] & ?); congruence].
    + apply Cd.
  - intros y. rewrite lookup_insert. case_decide; [intros; lia |]. intros Y%Nx. lia.
  - intros y l j. rewrite <- E1, lookup_insert. case_decide; [subst; congruence | apply Sl].
  - intros y j. rewrite <- E1, <- E2, lookup_insert. case_decide; [subst; congruence | apply Wy].
  - intros y. rewrite <- E1, <- E2, lookup_insert. case_decide; [subst; congruence |]. intros Y _. by apply Wt.
  - intros f y k Hf. destruct (It f y k Hf) as (j & q & J & ?). rewrite lookup_insert_ne by congruence. by exists j, q.
  - intros y j. rewrite lookup_insert. case_decide; [intros [= <-]; lia | apply Ex].
  - intros y l. rewrite <- E1. apply Ls.
Qed.

Lemma ok_free s a c p x : ok s a c p -> only p x -> link_of (tl s) x = None -> link_of (cl s) x = None ->
  (forall f k, interest (epfd s) f <> Some (x, k)) ->
  exists s', free_item x s = Ret tt s' /\ ok s' a c None /\ items s' = delete x (items s) /\ pTimeout s' = pTimeout s /\
    epfd s' = epfd s /\ next s' = next s /\ (forall y, link_of (tl s') y = link_of (tl s) y) /\ (forall y, link_of (cl s') y = link_of (cl s) y).
Proof.
  intros K P U1 U2 NI. eexists. split; [done |]. cbn. destruct K as [R Rc W ? A Tl D Cd ? Nx Sl Wy Wt It Ex Ls].
  assert (~ linked x a) as UL1 by (rewrite <- (link_of_linked _ _ _ R), U1; by intros []).
  assert (~ linked x c) as UL2 by (rewrite <- (link_of_linked _ _ _ Rc), U2; by intros []).
  assert (forall h, link_of h x = None -> forall y, link_of (free_node x h) y = link_of h y) as Lk.
  { intros h Hx y. unfold link_of, free_node in *. cbn. rewrite lookup_delete. case_decide; [by subst | done]. }
  pose proof (Lk _ U1) as E1. pose proof (Lk _ U2) as E2. split; [| done]. split; cbn; try done.
  - by apply free_node_spec.
  - by apply free_node_spec.
  - apply (wheel_ok_mono _ a _ (expire_of s)); [done | apply W |]. intros j zs y J L Y. split; [| by exists zs].
    unfold expire_of. cbn. rewrite lookup_delete_ne; [done |]. intros <-. apply UL1. by exists j, zs.
  - rewrite !dom_delete_L. congruence.
  - intros y. rewrite !lookup_delete. case_decide; [| apply Cd]. split; [by intros [] | by intros (? & ? & _)].
  - intros y. rewrite lookup_delete. case_decide; [by intros [] | apply Nx].
  - intros y l j. rewrite E1, lookup_delete. case_decide; [done | apply Sl].
  - intros y j. rewrite E1, E2, lookup_delete. case_decide; [done | apply Wy].
  - intros y. rewrite E1, E2, lookup_delete. case_decide; [by intros [] |]. intros Y _. apply Wt; [done |]. destruct P; congruence.
  - intros f y k Hf. destruct (It f y k Hf) as (j & q & J & ?). exists j, q. rewrite lookup_delete_ne; [done |]. intros <-. by apply (NI f k).
  - intros y j. rewrite lookup_delete. case_decide; [done | apply Ex].
  - intros y l. rewrite E1. apply Ls.
Qed.

Lemma ok_cond_pop s a c cd x xs : ok s a c None -> c !! cd = Some (x :: xs) ->
  exists h i, PopHead cd (cl s) = Some h /\ items s !! x = Some i /\ is_cond i = true /\
    ok (set_cl s h) a (<[cd := xs]> c) (Some x) /\ link_of h x = None /\ dom (nodes h) = dom (nodes (cl s)).
Proof.
  intros K A. pose proof (ok_cl _ _ _ _ K) as R0. destruct (PopHead_spec _ _ _ _ _ R0 A) as (h & E & R & D).
  destruct (rep_elem _ _ _ _ x R0 A) as (n & N & _); [by left |].
  destruct (proj1 (ok_cdom _ _ _ _ K x)) as (i & I & Ci); [by rewrite N |].
  exists h, i. do 3 (split; [done |]). pose proof (fun y => link_of_pop _ _ _ _ _ _ y R0 A R) as Lk.
  split; [| split; [by rewrite Lk, decide_True | done]].
  destruct K as [? ? W ? ? T ? Cd Cs ? Sl Wy Wt ? ? Ls]. split; cbn; try done.
  - intros y. rewrite <- Cd, <- !elem_of_dom, D. done.
  - intros y Y. rewrite lookup_insert. case_decide; [done | by apply Cs].
  - intros y j Ly J. rewrite Lk. destruct (Wy y j Ly J) as [?|[?|[? ?]]]; auto. right; right. case_decide; auto.
  - intros y Y Ny. rewrite Lk, decide_False by congruence. by apply Wt.
Qed.

Lemma ok_cond_add s a c p cd x i : ok s a c p -> cd ∈ conds -> items s !! x = Some i -> is_cond i = true -> only p x ->
  link_of (cl s) x = None -> link_of (tl s) x <> Some pstActiveList ->
  exists h, AddTail cd x (cl s) = Some h /\ ok (set_cl s h) a (add_tail cd x c) None.
Proof.
  intros K Cd X Ci P U NA. pose proof (ok_cl _ _ _ _ K) as R0. pose proof (ok_conds _ _ _ _ K _ Cd) as S0.
  assert (~ linked x c) as U' by (rewrite <- (link_of_linked _ _ _ R0), U; by intros []).
  destruct (AddTail_spec _ _ cd x R0 S0) as (h & E & R & D); [| done |].
  { apply (ok_cdom _ _ _ _ K). by exists i. }
  exists h. split; [done |]. pose proof (fun y => link_of_add_tail _ _ _ _ x y R0 R S0) as Lk.
  destruct K as [? ? W ? ? T ? Cdm Cs ? Sl Wy Wt ? ? Ls]. split; cbn; try done.
  - intros y. rewrite <- Cdm, <- !elem_of_dom, D. done.
  - intros y Y. by apply add_tail_some, Cs.
  - intros y j Ly J. rewrite Lk. destruct (Wy y j Ly J) as [?|[?|[? ?]]]; auto. right; right. case_decide; [congruence | auto].
  - intros y Y _. rewrite Lk. case_decide; [by right |]. apply Wt; [done |]. destruct P; congruence.
Qed.

Lemma ok_cond_remove s a c p x i : ok s a c p -> items s !! x = Some i -> is_cond i = true -> only p x ->
  exists h, RemoveFromLink x (cl s) = Some h /\ ok (set_cl s h) a (remove x c) (Some x) /\
    forall y, link_of h y = if decide (y = x) then None else link_of (cl s) y.
Proof.
  intros K X Ci P. pose proof (ok_cl _ _ _ _ K) as R0.
  destruct (RemoveFromLink_spec _ _ x R0) as (h & E & R & D); [apply (ok_cdom _ _ _ _ K); by exists i |].
  exists h. split; [done |]. pose proof (fun y => link_of_remove _ _ _ x y R0 R) as Lk. split; [| done].
  destruct K as [? ? W ? ? T ? Cdm Cs ? Sl Wy Wt ? ? Ls]. unfold remove in *. split; cbn; try done.
  - intros y. rewrite <- Cdm, <- !elem_of_dom, D. done.
  - intros y Y. rewrite lookup_fmap. destruct (Cs y Y) as [zs ->]. done.
  - intros y j Ly J. rewrite Lk. destruct (Wy y j Ly J) as [?|[?|[? ?]]]; auto. right; right. case_decide; auto.
  - intros y Y Ny. rewrite Lk, decide_False by congruence. apply Wt; [done |]. destruct P; congruence.
Qed.

(** Fewer descriptors in the interest list. *)
Lemma ok_ep s a c p e : ok s a c p ->
  (forall f x k, interest e f = Some (x, k) ->
     exists i q, items s !! x = Some i /\ is_cond i = false /\ fds i !! k = Some q /\ fd q = f /\ -1 < f) ->
  ok (set_ep s e) a c p.
Proof. intros K I. destruct K. by split. Qed.

(** ** Calls

    What a call of a coroutine leaves as it is: the items of the others, and
    that they are active. *)

Record keeps (s s' : Loop) (gone : option Z) : Prop := {
  kp_items : forall x i, gone <> Some x -> items s !! x = Some i -> items s' !! x = Some i;
  kp_active : forall x, gone <> Some x -> link_of (tl s) x = Some pstActiveList -> link_of (tl s') x = Some pstActiveList;
  kp_new : forall x i, items s' !! x = Some i ->
    (gone <> Some x /\ items s !! x = Some i) \/ (next s <= x /\ bTimeout i = false /\ iAllEventDetach i = false);
  kp_wheel : pTimeout s' = pTimeout s;
  kp_next : next s <= next s' }.

Lemma keeps_refl s : keeps s s None.
Proof. split; try done. intros x i X. by left. Qed.

Lemma keeps_trans s1 s2 s3 g : keeps s1 s2 g -> keeps s2 s3 None -> keeps s1 s3 g.
Proof.
  intros [A1 A2 A3 A4 A5] [B1 B2 B3 B4 B5]. split; [eauto | eauto | | congruence | lia].
  intros x i X. destruct (B3 x i X) as [[_ X']|(? & ? & ?)]; [by apply A3 | right]. split; [lia | done].
Qed.

(** What holds of the state between two calls. *)
Definition good (s : Loop) : Prop := exists a c, ok s a c None.

Lemma twp_tl_op f s h (Q : unit -> Loop -> Prop) : f (tl s) = Some h -> Q tt (set_tl s h) -> twp (tl_op f) Q s.
Proof. intros E HQ. unfold twp, tl_op. by rewrite E. Qed.

Lemma twp_cl_op f s h (Q : unit -> Loop -> Prop) : f (cl s) = Some h -> Q tt (set_cl s h) -> twp (cl_op f) Q s.
Proof. intros E HQ. unfold twp, cl_op. by rewrite E. Qed.

Lemma twp_item_at x i s (Q : item -> Loop -> Prop) : items s !! x = Some i -> Q i s -> twp (item_at x) Q s.
Proof. intros E HQ. unfold twp, item_at. by rewrite E. Qed.

Lemma twp_upd_item x f i s (Q : unit -> Loop -> Prop) :
  items s !! x = Some i -> Q tt (set_items s (<[x := f i]> (items s))) -> twp (upd_item x f) Q s.
Proof. intros E HQ. apply twp_bind, (twp_item_at _ i); done. Qed.

(** A signalled waiter becomes active. *)
Lemma wake_ok s a c x i :
  ok s a c (Some x) -> items s !! x = Some i -> is_cond i = true -> link_of (cl s) x = None ->
  twp (wake x) (fun _ s' => exists a', ok s' a' c None /\ keeps s s' None /\ cl s' = cl s) s.
Proof.
  intros K X Ci U. destruct (ok_remove s a c _ x K) as (h & E & K1 & L1); [by rewrite X | by right |].
  apply twp_bind, (twp_tl_op _ _ h); [done |].
  destruct (ok_activate _ _ _ _ x i K1) as (h' & E' & K2 & L2); [done | by right | cbn; by rewrite L1, decide_True | by right; right |].
  apply (twp_tl_op _ _ h'); [done |]. eexists. split; [exact K2 |]. split; [| done]. split; [done | | by left | done | done].
  intros y _ Y. cbn. rewrite L2. case_decide; [done |]. cbn. by rewrite L1, decide_False.
Qed.

Lemma keeps_set_cl s h s' g : keeps (set_cl s h) s' g -> keeps s s' g.
Proof. intros [A1 A2 A3 A4 A5]. by split. Qed.

Lemma cond_pop_ok s a c cd : ok s a c None -> cd ∈ conds ->
  twp (co_cond_pop cd) (fun r s' =>
    match r with
    | None => s' = s /\ c !! cd = Some []
    | Some x => exists xs h i, c !! cd = Some (x :: xs) /\ s' = set_cl s h /\ items s !! x = Some i /\ is_cond i = true /\
        ok s' a (<[cd := xs]> c) (Some x) /\ link_of h x = None /\ dom (nodes h) = dom (nodes (cl s))
    end) s.
Proof.
  intros K Cd. destruct (ok_conds _ _ _ _ K cd Cd) as [xs C]. pose proof (rep_links _ _ (ok_cl _ _ _ _ K) cd) as Lk. rewrite C in Lk. cbn in Lk.
  apply twp_bind. cbn. apply twp_bind, (twp_deref _ _ _ _ Lk). cbn. destruct xs as [|x xs]; cbn; [done |].
  destruct (ok_cond_pop s a c cd x xs K C) as (h & i & E & I & Ci & K' & U & D).
  apply twp_bind, (twp_cl_op _ _ h); [done |]. by exists xs, h, i.
Qed.

Lemma signal_ok s cd : good s -> cd ∈ conds -> twp (co_cond_signal cd) (fun _ s' => good s' /\ keeps s s' None) s.
Proof.
  intros (a & c & K) Cd. apply twp_bind. eapply twp_mono; [by apply (cond_pop_ok s a c) |]. intros [x|] s'.
  - intros (xs & h & i & C & -> & I & Ci & K' & U & _). eapply twp_mono; [by eapply wake_ok |]. cbn.
    intros _ s2 (a' & K2 & Kp & _). split; [by eexists _, _ | by eapply keeps_set_cl].
  - intros [-> _]. split; [by exists a, c | apply keeps_refl].
Qed.

(** The loop of the broadcast ends: every round takes an item off. *)
Lemma broadcast_ok cd fuel : cd ∈ conds -> forall s a c xs, ok s a c None -> c !! cd = Some xs -> (length xs <= fuel)%nat ->
  twp (co_cond_broadcast fuel cd) (fun _ s' => good s' /\ keeps s s' None) s.
Proof.
  intros Cd. induction fuel as [|fuel IH]; intros s a c xs K C Len; cbn; apply twp_bind;
    (eapply twp_mono; [by apply (cond_pop_ok s a c) |]); intros [x|] s'.
  1: intros (ys & _ & _ & C' & _); rewrite C in C'; injection C' as ->; cbn in Len; lia.
  1, 3: intros [-> _]; split; [by exists a, c | apply keeps_refl].
  intros (ys & h & i & C' & -> & I & Ci & K' & U & _). rewrite C in C'. injection C' as ->. cbn in Len.
  apply twp_bind. eapply twp_mono; [by eapply wake_ok |]. cbn. intros _ s2 (a' & K2 & Kp & _).
  eapply twp_mono; [apply (IH s2 a' _ ys K2); [apply lookup_insert_eq | lia] |]. cbn. intros _ s3 [G Kp3].
  split; [done |]. eapply keeps_set_cl, keeps_trans; done.
Qed.

Context `{!EpollSpec}.

(** Registering descriptors of item [x], which is being set up. *)
Lemma register_ok x i pf a c : is_cond i = false ->
  forall l k s, ok s a c (Some x) -> items s !! x = Some i -> drop k (fds i) = l ->
  (length (fds i) = 1%nat -> l <> [] -> forall f k', interest (epfd s) f <> Some (x, k')) ->
  twp (register_fds x (length (fds i)) pf k l)
      (fun direct s' => exists e, s' = set_ep s e /\ ok s' a c (Some x) /\
         (direct = true -> forall f k', interest e f <> Some (x, k'))) s.
Proof.
  intros Ci. induction l as [|f l IH]; intros k s K X D NI; cbn.
  { exists (epfd s). split; [by destruct s | done]. }
  assert (drop (S k) (fds i) = l) as D'. { rewrite <- (skipn_skipn 1). by rewrite D. }
  assert (fds i !! k = Some f) as F by (rewrite <- (Nat.add_0_r k), <- lookup_drop, D; done).
  assert (length (fds i) = 1%nat -> l = []) as L1.
  { intros E. apply length_zero_iff_nil. assert (length (drop k (fds i)) = length (f :: l)) as E' by by rewrite D.
    rewrite length_drop in E'. cbn in E'. lia. }
  destruct (Z.ltb_spec (-1) (fd f)) as [Hf|Hf]; [| apply (IH (S k) s); try done; intros E; by rewrite (L1 E)].
  apply twp_bind. cbn. destruct (ctl_add (fd f) (x, k) (PollEvent2Epoll (events f)) (epfd s)) as [err e] eqn:A.
  pose proof (add_ok (fd f) (x, k) (PollEvent2Epoll (events f)) (epfd s)) as A1. pose proof (add_fails (fd f) (x, k) (PollEvent2Epoll (events f)) (epfd s)) as A2.
  rewrite A in A1, A2. cbn in A1, A2. apply twp_bind. cbn.
  assert (ok (set_ep s e) a c (Some x)) as K'.
  { apply ok_ep; [done |]. intros g y k' Hg. destruct (decide (err = 0)) as [E|E].
    - rewrite (A1 E) in Hg. case_decide; [| by apply (ok_interest _ _ _ _ K)]. injection Hg as <- <-. subst. by exists i, f.
    - rewrite (A2 E) in Hg. by apply (ok_interest _ _ _ _ K). }
  destruct ((err =? EPERM) && bool_decide (length (fds i) = 1%nat) && pf) eqn:B.
  - apply andb_true_iff in B as [[E%Z.eqb_eq N%bool_decide_eq_true]%andb_true_iff _]. exists e. split; [done |]. split; [done |].
    intros _ g k'. rewrite A2 by (rewrite E; done). by apply NI.
  - eapply twp_mono; [apply (IH (S k) (set_ep s e)); try done; intros E; by rewrite (L1 E) |]. cbn.
    intros d s' (e' & -> & K2 & N2). by exists e'.
Qed.

Lemma del_fds_spec l e g d : interest (del_fds l e) g = Some d <->
  interest e g = Some d /\ forall f, f ∈ l -> -1 < fd f -> fd f <> g.
Proof.
  revert e. induction l as [|f l IH]; intros e; [cbn; set_solver |].
  change (del_fds (f :: l) e) with (del_fds l (if -1 <? fd f then ctl_del (fd f) e else e)). rewrite IH.
  destruct (Z.ltb_spec (-1) (fd f)) as [Hf|Hf].
  - rewrite del_ok. case_decide as E.
    + split; [by intros [? _] |]. intros [_ N]. destruct (N f); [by left | done | done].
    + split; intros [I N]; (split; [done |]); [| set_solver]. intros f' [->|F']%elem_of_cons; [congruence | by apply N].
  - split; intros [I N]; (split; [done |]); [| set_solver]. intros f' [->|F']%elem_of_cons; [lia | by apply N].
Qed.

Lemma no_cond_link s a c p x i : ok s a c p -> items s !! x = Some i -> is_cond i = false -> link_of (cl s) x = None.
Proof.
  intros K X Ci. unfold link_of. destruct (nodes (cl s) !! x) eqn:N; [| done].
  destruct (proj1 (ok_cdom _ _ _ _ K x)) as (j & J & Cj); [by rewrite N | congruence].
Qed.

(** The item [x] is gone and nothing else has changed for the others. *)
Definition freed (x : Z) (s s' : Loop) : Prop :=
  good s' /\ items s' = delete x (items s) /\ pTimeout s' = pTimeout s /\ next s' = next s /\
  forall y, link_of (tl s') y = if decide (y = x) then None else link_of (tl s) y.

Lemma freed_keeps x s s' : freed x s s' -> keeps s s' (Some x).
Proof.
  intros (_ & I & W & Nx & L). split; [| | | done | lia].
  - intros y i N Y. rewrite I, lookup_delete_ne by congruence. done.
  - intros y N Y. rewrite L, decide_False by congruence. done.
  - intros y i. rewrite I, lookup_delete. case_decide; [done |]. left. split; congruence.
Qed.

Lemma poll_end_ok s a c p x i : ok s a c p -> items s !! x = Some i -> is_cond i = false -> only p x ->
  twp (poll_end x) (fun r s' => r = revents i /\ freed x s s') s.
Proof.
  intros K X Ci P. destruct (ok_remove s a c p x K) as (h & E & K1 & L1); [by rewrite X | done |].
  apply twp_bind, (twp_tl_op _ _ h); [done |]. apply twp_bind, (twp_item_at _ i); [done |]. apply twp_bind. cbn.
  set (s2 := set_ep _ _). assert (ok s2 (remove x a) c (Some x)) as K2.
  { apply ok_ep; [done |]. intros f y k [Hf _]%del_fds_spec. by apply (ok_interest _ _ _ _ K1). }
  destruct (ok_free s2 (remove x a) c (Some x) x K2) as (s3 & E3 & K3 & I3 & W3 & _ & N3 & L3 & _).
  - by right.
  - cbn. by rewrite L1, decide_True.
  - by apply (no_cond_link s a c p x i).
  - intros f k [Hf Nf]%del_fds_spec. cbn in Hf. destruct (ok_interest _ _ _ _ K f x k Hf) as (j & q & J & _ & Q & Fq & Gt).
    rewrite X in J. injection J as <-. apply (Nf q); [by eapply list_elem_of_lookup_2 | lia | done].
  - apply twp_bind, (twp_returns _ _ _ _ _ E3). split; [done |]. split; [by eexists _, _ |]. do 3 (split; [done |]).
    intros y. rewrite L3. cbn. apply L1.
Qed.

(** Times of the clock, so that a timeout can be added. *)
Definition clock_ok (now : Z) : Prop := 0 < now < 2 ^ 61.

(** The clock may have been set back: then nothing is added. *)
Lemma AddTimeout_back w x e now h : 0 < ullStart w -> now < ullStart w -> AddTimeout w x e now h = Some (350, w, h).
Proof.
  intros P Lt. unfold AddTimeout, start_at. destruct (Z.eqb_spec (ullStart w) 0); [lia |]. cbv zeta.
  destruct (Z.ltb_spec now (ullStart w)); [done | lia].
Qed.

(** Item [x] waits in the wheel, to be woken at [e]. *)
Definition waits_until (s : Loop) (x self e : Z) (cond : bool) : Prop :=
  exists i l, items s !! x = Some i /\ ullExpireTime i = e /\ pArg i = self /\ is_cond i = cond /\ link_of (tl s) x = Some l /\ is_slot (pTimeout s) l.

Lemma add_timeout_ok s a c x i now : ok s a c (Some x) -> items s !! x = Some i -> link_of (tl s) x = None ->
  bTimeout i = false -> iAllEventDetach i = false -> now <= ullExpireTime i -> time_ok (ullExpireTime i) ->
  twp (add_timeout x now) (fun ret s' =>
    if ret =? 0 then exists h a', s' = set_wheel s (pTimeout s) h /\ ok s' a' c None /\ waits_until s' x (pArg i) (ullExpireTime i) (is_cond i) /\
      forall y, y <> x -> link_of h y = link_of (tl s) y
    else s' = s /\ now < ullStart (pTimeout s)) s.
Proof.
  intros K X U B D Le T. apply twp_bind, (twp_item_at _ i); [done |]. pose proof (ok_start _ _ _ (ok_wheel _ _ _ _ K)) as [St _].
  destruct (decide (now < ullStart (pTimeout s))) as [Lt|Ge].
  - eapply twp_returns; [by rewrite AddTimeout_back by done |]. cbn. split; [by destruct s | done].
  - destruct (ok_add_timeout s a c (Some x) x i now K X) as (h & a' & l & E & K' & Hl & Lk); try done; [by right | lia |].
    eapply twp_returns; [by rewrite E |]. cbn. exists h, a'. split; [done |]. split; [done |]. split.
    + exists i, l. cbn. by rewrite Lk, decide_True.
    + intros y N. by rewrite Lk, decide_False.
Qed.

(** No item becomes active. *)
Definition activates_none (s s' : Loop) : Prop :=
  forall x, link_of (tl s') x = Some pstActiveList -> link_of (tl s) x = Some pstActiveList.

Lemma new_item_ok s a c i : ok s a c None -> ullExpireTime i = 0 -> bTimeout i = false -> iAllEventDetach i = false ->
  twp (new_item i) (fun x s1 => ok s1 a c (Some x) /\ keeps s s1 None /\ items s !! x = None /\ items s1 = <[x := i]> (items s) /\
    link_of (tl s1) x = None /\ link_of (cl s1) x = None /\ (forall f k, interest (epfd s1) f <> Some (x, k)) /\ activates_none s s1 /\ next s <= x) s.
Proof.
  intros K E0 B0 D0. destruct (new_item i s) as [x s1| |] eqn:N; [| done | done]. apply (twp_returns _ _ _ _ _ N).
  destruct (ok_new s a c i s1 x K E0 N) as (K1 & Hx & I1 & Fr & W1 & T1 & C1 & LT1 & LC1). split; [done |]. split; [| repeat split; try done; try lia].
  - split; [| | | done | injection N as _ <-; cbn; lia]; [intros y j _ Y; rewrite I1, lookup_insert_ne; [done |]; congruence | |
      intros y j; rewrite I1, lookup_insert; case_decide; [intros [= <-]; right; split; [lia | done] | by left]].
    intros y _ Y. rewrite LT1; [done |]. intros ->. apply (link_of_rep _ _ _ _ (ok_tl _ _ _ _ K)) in Y as (zs & Z & Y).
    destruct (rep_elem _ _ _ _ x (ok_tl _ _ _ _ K) Z Y) as (n & Nn & _).
    assert (x ∈ dom (items s)) as []%not_elem_of_dom; [rewrite <- (ok_dom _ _ _ _ K); apply elem_of_dom; by rewrite Nn | done].
  - intros f k Hf. injection N as _ <-. cbn in Hf. destruct (ok_interest _ _ _ _ K f x k Hf) as (j & _ & J & _). congruence.
  - intros y. destruct (decide (y = x)) as [->|N']; [congruence | by rewrite LT1].
Qed.

(** The new item leaves the state again. *)
Lemma freed_new x i s s1 s2 s3 : keeps s s1 None -> items s !! x = None -> items s1 = <[x := i]> (items s) ->
  (forall y, y <> x -> items s2 !! y = items s1 !! y) -> tl s2 = tl s1 -> pTimeout s2 = pTimeout s1 -> next s2 = next s1 ->
  freed x s2 s3 -> link_of (tl s1) x = None -> activates_none s s1 ->
  good s3 /\ keeps s s3 None /\ activates_none s s3 /\ items s3 = items s.
Proof.
  intros [A1 A2 _ A3 A5] Fr I1 I2 T2 W2 N2 (G & I3 & W3 & N3 & L3) U An.
  assert (items s3 = items s) as E.
  { apply map_eq. intros y. rewrite I3, lookup_delete. case_decide; [by subst |]. by rewrite I2, I1, lookup_insert_ne. }
  split; [done |]. split; [| split; [| done]].
  - split; [by rewrite E | | rewrite E; by left | congruence | congruence].
    intros y _ Y%A2; [| done]. rewrite L3, T2, decide_False; [done | congruence].
  - intros y. rewrite L3, T2. case_decide; [done | apply An].
Qed.

Lemma waits_activates_none s s1 s2 x self e b : activates_none s s1 -> waits_until s2 x self e b ->
  (forall y, y <> x -> link_of (tl s2) y = link_of (tl s1) y) -> activates_none s s2.
Proof.
  intros An (i & l & _ & _ & _ & _ & Lx & Hl) Lk y Y. destruct (decide (y = x)) as [->|N].
  - rewrite Lx in Y. injection Y as ->. by apply active_no_slot in Hl.
  - apply An. by rewrite <- Lk.
Qed.

Definition poll_time (timeout : Z) : Z := if timeout <? 0 then INT_MAX else timeout.

Lemma poll_begin_ok s self l timeout now pf : good s -> clock_ok now -> timeout < 2 ^ 31 -> (timeout = 0 -> pf = true) ->
  twp (poll_begin self l timeout now pf) (fun r s' => good s' /\ keeps s s' None /\ activates_none s s' /\
    match r with Waits x => waits_until s' x self (now + poll_time timeout) false | _ => items s' = items s end) s.
Proof.
  intros (a & c & K) Ck Tm Pf. unfold poll_begin. destruct (Z.eqb_spec timeout 0) as [->|N0].
  { rewrite Pf by done. cbn. split; [by exists a, c |]. split; [apply keeps_refl |]. split; [by intros y | done]. }
  fold (poll_time timeout). assert (0 < poll_time timeout < 2 ^ 31) as Pt.
  { unfold poll_time, INT_MAX. destruct (Z.ltb_spec timeout 0); lia. }
  set (i0 := mk_item _ _ _ _ _ _ _ _). cbv zeta. apply twp_bind. eapply twp_mono; [by apply (new_item_ok s a c) |].
  cbn beta. intros x s1 (K1 & Kp & Fr & I1 & T1 & C1 & NI & An & Nx). assert (items s1 !! x = Some i0) as X1 by (rewrite I1; apply lookup_insert_eq).
  apply twp_bind. eapply twp_mono; [by apply (register_ok x i0 pf a c); [| exact K1 | | |] |]. cbn beta. intros d s2 (e & -> & K2 & D). destruct d.
  - destruct (ok_free (set_ep s1 e) a c (Some x) x K2) as (s3 & E3 & K3 & I3 & W3 & _ & N3 & L3 & _); try done; [by right | by apply D |].
    apply twp_bind, (twp_returns _ _ _ _ _ E3). cbn. apply (freed_new x i0 s s1 (set_ep s1 e)); try done.
    split; [by exists a, c |]. do 3 (split; [done |]). intros y. rewrite L3. cbn. by case_decide; subst.
  - apply twp_bind, (twp_upd_item _ _ i0); [done |]. rewrite u64_small by (unfold clock_ok in Ck; lia). set (i1 := mk_item _ _ _ _ _ _ _ _).
    set (s2 := set_items _ _). assert (ok s2 a c (Some x)) as K3.
    { apply (ok_upd _ _ _ _ x i0); try done; cbn; rewrite ?T1; try done. unfold clock_ok in Ck. lia. }
    assert (items s2 !! x = Some i1) as X2 by apply lookup_insert_eq.
    apply twp_bind. eapply twp_mono; [apply (add_timeout_ok s2 a c x i1); try done; cbn; unfold time_ok, clock_ok in *; lia |].
    cbn beta. intros ret s3. destruct (ret =? 0); cbn [negb].
    + intros (h & a' & -> & K4 & Wt & Lk). split; [by exists a', c |]. split; [| split; [| exact Wt]]. 2: { by eapply waits_activates_none. } destruct Kp as [A1 A2 A3 A4 A5]. split; [| | | done | done]; cbn.
      * intros y j N Y. rewrite lookup_insert_ne by congruence. by apply A1.
      * intros y N Y%A2; [| done]. rewrite Lk; [done |]. intros ->. congruence.
      * intros y j. rewrite lookup_insert. case_decide; [intros [= <-]; right; split; [congruence | done] | apply A3].
    + intros [-> Lt]. apply twp_bind. eapply twp_mono; [by apply (poll_end_ok s2 a c (Some x) x i1 K3 X2); [| right] |].
      cbn. intros r s4 [_ F]. apply (freed_new x i0 s s1 s2); try done. intros y N. cbn. by rewrite lookup_insert_ne.
Qed.

Lemma wait_begin_ok s self cd ms now : good s -> cd ∈ conds -> clock_ok now -> ms < 2 ^ 31 ->
  twp (wait_begin self cd ms now) (fun r s' => good s' /\ keeps s s' None /\ activates_none s s') s.
Proof.
  intros (a & c & K) Cd Ck Tm. unfold wait_begin. set (i0 := mk_item _ _ _ _ _ _ _ _).
  apply twp_bind. eapply twp_mono; [by apply (new_item_ok s a c) |]. cbn beta. intros x s1 (K1 & Kp & Fr & I1 & T1 & C1 & NI & An & Nx).
  assert (items s1 !! x = Some i0) as X1 by (rewrite I1; apply lookup_insert_eq). apply twp_bind.
  destruct (Z.ltb_spec 0 ms) as [Pos|Neg].
  2: { cbn. destruct (ok_cond_add s1 a c (Some x) cd x i0) as (h & E & K2); try done; [by right | congruence |].
    apply twp_bind, (twp_cl_op _ _ h); [done |]. cbn. split; [by eexists _, _ |]. split; [by destruct Kp | done]. }
  apply twp_bind, (twp_upd_item _ _ i0); [done |]. rewrite u64_small by (unfold clock_ok in Ck; lia). set (i1 := mk_item _ _ _ _ _ _ _ _).
  set (s2 := set_items _ _). assert (ok s2 a c (Some x)) as K3.
  { apply (ok_upd _ _ _ _ x i0); try done; cbn; rewrite ?T1; try done. unfold clock_ok in Ck. lia. }
  assert (items s2 !! x = Some i1) as X2 by apply lookup_insert_eq.
  eapply twp_mono; [apply (add_timeout_ok s2 a c x i1); try done; cbn; unfold time_ok, clock_ok in *; lia |].
  cbn beta. intros ret s3. destruct (ret =? 0); cbn [negb].
  - intros (h & a' & -> & K4 & Wt & Lk). pose proof Wt as (j & l & J & _ & _ & _ & Lj & Hl).
    destruct (ok_cond_add _ a' c None cd x i1 K4 Cd) as (h' & E & K5); [done | done | by left | done | |].
    { rewrite Lj. intros [= ->]. by apply active_no_slot in Hl. }
    apply twp_bind, (twp_cl_op _ _ h'); [done |]. cbn. split; [by eexists _, _ |]. split; [| by eapply waits_activates_none].
    destruct Kp as [A1 A2 A3 A4 A5]. split; [| | | done | done]; cbn.
    + intros y k N Y. rewrite lookup_insert_ne by congruence. by apply A1.
    + intros y N Y%A2; [| done]. rewrite Lk; [done |]. intros ->. congruence.
    + intros y k. rewrite lookup_insert. case_decide; [intros [= <-]; right; split; [congruence | done] | apply A3].
  - intros [-> Lt]. destruct (ok_free s2 a c (Some x) x K3) as (s4 & E4 & K4 & I4 & W4 & _ & N4 & L4 & _); try done; [by right |].
    apply twp_bind, (twp_returns _ _ _ _ _ E4). cbn. destruct (freed_new x i0 s s1 s2 s4) as (G & Kp' & An' & _); try done.
    + intros y N. cbn. by rewrite lookup_insert_ne.
    + split; [by exists a, c |]. do 3 (split; [done |]). intros y. rewrite L4. cbn. by case_decide; subst.
Qed.

(** The owner of item [x], which is in no list of the wheel, goes on. *)
Lemma finish_ok s a c x i : ok s a c (Some x) -> items s !! x = Some i -> link_of (tl s) x = None -> twp (finish x) (fun _ => freed x s) s.
Proof.
  intros K X U. apply twp_bind, (twp_item_at _ i); [done |]. destruct (is_cond i) eqn:Ci.
  - destruct (ok_cond_remove s a c (Some x) x i K X Ci) as (h & E & K1 & L1); [by right |].
    apply twp_bind, (twp_cl_op _ _ h); [done |].
    destruct (ok_free (set_cl s h) a _ (Some x) x K1) as (s2 & E2 & K2 & I2 & W2 & _ & N2 & L2 & _); [by right | done | cbn; by rewrite L1, decide_True | |].
    { intros f k Hf. destruct (ok_interest _ _ _ _ K f x k Hf) as (j & _ & J & Cj & _). congruence. }
    apply (twp_returns _ _ _ _ _ E2). split; [by eexists _, _ |]. do 3 (split; [done |]). intros y. rewrite L2. cbn. by case_decide; subst.
  - apply twp_bind. eapply twp_mono; [by apply (poll_end_ok s a c (Some x) x i K X Ci); right |]. cbn. by intros r s' [_ F].
Qed.

Definition call_ok (k : call) : Prop :=
  match k with
  | CPoll _ timeout now pf => clock_ok now /\ timeout < 2 ^ 31 /\ (timeout = 0 -> pf = true)
  | CWait cd ms now => cd ∈ conds /\ clock_ok now /\ ms < 2 ^ 31
  | CSignal cd | CBroadcast cd => cd ∈ conds
  end.

(** Calls that wake nobody. *)
Definition call_quiet (k : call) : Prop := match k with CSignal _ | CBroadcast _ => False | _ => True end.

Lemma exec_ok s self k : good s -> call_ok k ->
  twp (exec self k) (fun _ s' => good s' /\ keeps s s' None /\ (call_quiet k -> activates_none s s')) s.
Proof.
  intros G C. destruct k as [l timeout now pf|cd ms now|cd|cd]; cbn [call_ok exec] in *.
  - destruct C as (Ck & Tm & Pf). apply twp_bind. eapply twp_mono; [by apply poll_begin_ok |]. cbn. by intros r s' (? & ? & ? & _).
  - destruct C as (Cd & Ck & Tm). apply twp_bind. eapply twp_mono; [by apply wait_begin_ok |]. cbn. by intros r s' (? & ? & ?).
  - apply twp_bind. eapply twp_mono; [by apply signal_ok |]. cbn. by intros _ s' [? ?].
  - apply twp_bind, twp_bind. change (twp get ?Q s) with (Q s s). destruct G as (a & c & K). destruct (ok_conds _ _ _ _ K cd C) as [xs X].
    cbv beta. eapply twp_mono; [apply (broadcast_ok cd (S (size (nodes (cl s)))) C s a c xs K X) |]; [| cbn; by intros _ s' [? ?]].
    pose proof (rep_length _ _ _ _ (ok_cl _ _ _ _ K) X). lia.
Qed.

Lemma run_calls_ok self l : Forall call_ok l -> forall s, good s ->
  twp (run_calls self l) (fun _ s' => good s' /\ keeps s s' None /\ (Forall call_quiet l -> activates_none s s')) s.
Proof.
  induction 1 as [|k l C _ IH]; intros s G; cbn; [split; [done |]; split; [apply keeps_refl | by intros _ y] |].
  apply twp_bind. eapply twp_mono; [by apply exec_ok |]. cbn. intros y s1 (G1 & K1 & Q1).
  assert (Forall call_quiet (k :: l) -> call_quiet k /\ Forall call_quiet l) as Qs by (intros Qs%Forall_cons; done).
  destruct y; [split; [done |]; split; [done | tauto] |].
  eapply twp_mono; [by apply IH |]. cbn. intros _ s2 (G2 & K2 & Q2). split; [done |]. split; [by eapply keeps_trans |].
  intros [Qk Ql]%Qs y Y. apply Q1, Q2; done.
Qed.

(** ** The event loop *)

Context `{!Program} (calls_ok : forall co s, Forall call_ok (calls co s)).

Lemma process_ok s a c x i : ok s a c (Some x) -> items s !! x = Some i -> link_of (tl s) x = None ->
  twp (process x) (fun _ s' => good s' /\ keeps s s' (Some x) /\
    ((forall co s, Forall call_quiet (calls co s)) -> activates_none s s')) s.
Proof.
  intros K X U. apply twp_bind, (twp_item_at _ i); [done |]. apply twp_bind. eapply twp_mono; [by eapply finish_ok |].
  cbn beta. intros _ s1 F. apply twp_bind. cbn. eapply twp_mono; [apply run_calls_ok; [apply calls_ok | apply F] |].
  cbn. intros _ s2 (G & Kp & Q). split; [done |]. split; [eapply keeps_trans; [by apply freed_keeps | done] |].
  intros Qs y Y. apply Q in Y; [| done]. destruct F as (_ & _ & _ & _ & L). rewrite L in Y. by case_decide.
Qed.

(** An item that timed out or had an event is active; it is not both. *)
Definition flagged (i : item) : Prop := bTimeout i = true \/ iAllEventDetach i = true.
Definition timed_but (p : option Z) (s : Loop) : Prop :=
  forall x i, items s !! x = Some i -> flagged i ->
    (p <> Some x -> link_of (tl s) x = Some pstActiveList) /\ (bTimeout i = true -> iAllEventDetach i = false).
Abbreviation timed := (timed_but None).

(** Between two rounds there are none. *)
Definition calm (s : Loop) : Prop := forall x i, items s !! x = Some i -> ~ flagged i.

Lemma keeps_timed s s' g : keeps s s' g -> timed_but g s -> timed s'.
Proof.
  intros [A1 A2 A3 A4 A5] T y i Y B. destruct (A3 y i Y) as [[N Y']|(_ & B1 & B2)]; [| destruct B; congruence].
  destruct (T y i Y' B) as [T1 T2]. split; [| done]. intros _. apply A2; auto.
Qed.

(** No item has timed out. *)
Definition unexpired (s : Loop) : Prop := forall x i, items s !! x = Some i -> bTimeout i = false.

Lemma keeps_unexpired s s' g : keeps s s' g -> unexpired s -> unexpired s'.
Proof. intros [A1 A2 A3 A4 A5] C y i Y. destruct (A3 y i Y) as [[N Y']|(_ & B1 & B2)]; [by apply (C y i) | done]. Qed.

(** Why a coroutine is resumed. *)
Definition reason (now : Z) (w : woken) : Prop :=
  (bTimeout (w_was w) = true /\ ullExpireTime (w_was w) <= now) \/ iAllEventDetach (w_was w) = true \/
  (is_cond (w_was w) = true /\ w_signalled w = true).

(** The item as it is, or after it was put back into the wheel. *)
Definition same_item (i i' : item) : Prop := i' = i \/ i' = set_bTimeout false i.

Lemma same_item_put_back i i' : same_item (set_bTimeout false i) i' -> same_item i i'.
Proof. intros [->| ->]; by right. Qed.

(** What the loop over the active items achieves: it resumes the coroutine of
    every active item, but for those that were taken off the wheel early; it
    resumes no other, and none twice; the items of the others are still
    there. *)
Record drained (now : Z) (s : Loop) (r : list woken) (s' : Loop) : Prop := {
  dr_good : good s';
  dr_calm : calm s';
  dr_reason : Forall (reason now) r;
  dr_once : NoDup (w_item <$> r);
  dr_all : forall x i, items s !! x = Some i -> link_of (tl s) x = Some pstActiveList -> bTimeout i = false \/ ullExpireTime i <= now ->
     exists w, w ∈ r /\ w_item w = x;
  dr_only : forall w, w ∈ r -> (exists i, items s !! w_item w = Some i /\ same_item i (w_was w)) \/ next s <= w_item w;
  dr_rest : forall x i, items s !! x = Some i -> (exists w, w ∈ r /\ w_item w = x) \/ exists i', items s' !! x = Some i' /\ same_item i i';
  dr_wheel : pTimeout s' = pTimeout s }.

Lemma active_nil s a c : ok s a c None -> a !! pstActiveList = Some [] -> forall x, link_of (tl s) x <> Some pstActiveList.
Proof.
  intros K A x Lx. apply (link_of_rep _ _ _ _ (ok_tl _ _ _ _ K)) in Lx as (xs & E & X). rewrite A in E. injection E as <-. by apply not_elem_of_nil in X.
Qed.

Lemma pop_timed s h x : timed s -> (forall y, link_of h y = if decide (y = x) then None else link_of (tl s) y) -> timed_but (Some x) (set_tl s h).
Proof. intros T L y i Y B. cbn in *. destruct (T y i Y B) as [T1 T2]. split; [| done]. intros N. rewrite L, decide_False by congruence. by apply T1. Qed.

Lemma put_back_ok s a c x i now : ok s a c (Some x) -> items s !! x = Some i -> link_of (tl s) x = None -> timed_but (Some x) s ->
  bTimeout i = true -> ullStart (pTimeout s) = now -> now < ullExpireTime i ->
  twp (put_back x now) (fun again s' => again = true /\ good s' /\ timed s' /\ pTimeout s' = pTimeout s /\
    next s' = next s /\ items s' !! x = Some (set_bTimeout false i) /\
    (forall y, y <> x -> items s' !! y = items s !! y) /\ (forall y, y <> x -> link_of (tl s') y = link_of (tl s) y) /\
    activates_none s s') s.
Proof.
  intros K X U T B St Lt. destruct (T x i X (or_introl B)) as [_ D]. specialize (D B). pose proof (ok_exp _ _ _ _ K x i X) as Ex.
  pose proof (ok_start _ _ _ (ok_wheel _ _ _ _ K)) as [Pos _].
  set (i' := set_bTimeout false i). assert (ok (set_items s (<[x := i']> (items s))) a c (Some x)) as K1.
  { apply (ok_upd _ _ _ _ x i); try done; by rewrite U. }
  destruct (ok_add_timeout _ a c (Some x) x i' now K1) as (h & a' & l & E & K2 & Hl & Lk); try done.
  { apply lookup_insert_eq. } { by right. } { cbn. lia. } { cbn. lia. } { cbn. unfold time_ok. lia. }
  cbn in E, Lk. apply twp_bind, twp_bind, (twp_item_at _ i); [done |]. eapply twp_returns; [by rewrite E |]. cbn.
  apply twp_bind, (twp_upd_item _ _ i); [done |]. split; [done |]. split; [by exists a', c |]. split; [| split; [done |]].
  - intros y j. cbn. rewrite lookup_insert. case_decide as N.
    + intros [= <-] [?|?]; cbn in *; congruence.
    + intros Y F. destruct (T y j Y F) as [T1 T2]. split; [| done]. intros _. rewrite Lk, decide_False by congruence. apply T1. congruence.
  - do 2 (split; [try done; apply lookup_insert_eq |]). split; [| split].
    + intros y N. cbn. by rewrite lookup_insert_ne.
    + intros y N. cbn. by rewrite Lk, decide_False.
    + intros y. cbn. rewrite Lk. case_decide; [| done]. intros [= ->]. by apply active_no_slot in Hl.
Qed.

Lemma drained_nil now s a c : ok s a c None -> timed s -> a !! pstActiveList = Some [] -> drained now s [] s.
Proof.
  intros K T A. pose proof (active_nil s a c K A) as Nil. split; try done.
  - by exists a, c.
  - intros y i Y F. destruct (Nil y). by apply (T y i Y F).
  - apply NoDup_nil_2.
  - intros y i Y Ly. by destruct (Nil y).
  - intros w []%not_elem_of_nil.
  - intros y i Y. right. exists i. split; [done | by left].
Qed.

(** What the rest of the loop achieves, is achieved by the loop. *)
Lemma drained_early now s h s2 s3 x i r : items s !! x = Some i -> bTimeout i = true -> now < ullExpireTime i ->
  (forall y, link_of h y = if decide (y = x) then None else link_of (tl s) y) ->
  next s2 = next s -> pTimeout s2 = pTimeout s -> items s2 !! x = Some (set_bTimeout false i) ->
  (forall y, y <> x -> items s2 !! y = items s !! y) -> (forall y, y <> x -> link_of (tl s2) y = link_of h y) ->
  drained now s2 r s3 -> drained now s r s3.
Proof.
  intros X B Lt L1 Nx W2 X2 I2 L2 [G3 C3 R3 O3 A3 F3 K3 W3]. split; try done; [| | | congruence].
  - intros y j Y Ly Due. assert (y <> x) as N by (intros ->; rewrite X in Y; injection Y as <-; destruct Due; [congruence | lia]).
    apply (A3 y j); [by rewrite I2 | rewrite L2 by done; by rewrite L1, decide_False | done].
  - intros w W. destruct (F3 w W) as [(j & J & Sm)|?]; [left | right; congruence]. destruct (decide (w_item w = x)) as [E|N].
    + exists i. rewrite E in *. rewrite X2 in J. injection J as <-. split; [done | by apply same_item_put_back].
    + exists j. by rewrite <- I2.
  - intros y j Y. destruct (decide (y = x)) as [->|N].
    + rewrite X in Y. injection Y as <-. destruct (K3 x _ X2) as [?|(i' & I' & Sm)]; [by left | right]. exists i'. split; [done | by apply same_item_put_back].
    + rewrite <- I2 in Y by done. by apply K3.
Qed.

Lemma drained_fire now s a c h s2 s3 x i r : ok s a c None -> items s !! x = Some i -> link_of (tl s) x = Some pstActiveList ->
  (forall y, link_of h y = if decide (y = x) then None else link_of (tl s) y) -> keeps (set_tl s h) s2 (Some x) ->
  (bTimeout i = true -> ullExpireTime i <= now) -> drained now s2 r s3 -> drained now s (woken_as x i s :: r) s3.
Proof.
  intros K X Ax L1 [P1 P2 P3 P4 P5] Due [G3 C3 R3 O3 A3 F3 K3 W3]. cbn in P1, P3, P4, P5. pose proof (ok_next _ _ _ _ K x ltac:(by rewrite X)) as Nx.
  assert (forall w, w ∈ r -> w_item w <> x) as Nr.
  { intros w W E. destruct (F3 w W) as [(j & J & _)|?]; [| lia]. rewrite E in J. destruct (P3 x j J) as [[? _]|[? _]]; [done | lia]. }
  split; try done; [| | | | | congruence].
  - constructor; [| done]. unfold reason. cbn. destruct (ok_why _ _ _ _ K x i Ax X) as [B|[?|[-> ->]]]; [| by right; left | by right; right].
    left. auto.
  - cbn. apply NoDup_cons. split; [| done]. intros (w & E & W)%list_elem_of_fmap. by apply (Nr w W).
  - intros y j Y Ly Du. destruct (decide (y = x)) as [->|N]; [exists (woken_as x i s); split; [by left | done] |].
    destruct (A3 y j) as (w & W & E1); [apply P1; [congruence | done] | | done | exists w; split; [by right | done]].
    apply P2; [congruence |]. cbn. by rewrite L1, decide_False.
  - intros w [->|W]%elem_of_cons; [left; exists i; split; [done | by left] |]. destruct (F3 w W) as [(j & J & Sm)|?]; [| right; lia].
    destruct (P3 _ _ J) as [[_ J']|[? _]]; [left; by exists j | by right].
  - intros y j Y. destruct (decide (y = x)) as [->|N]; [left; exists (woken_as x i s); split; [by left | done] |].
    destruct (K3 y j) as [(w & W & E)|(j' & J & Sm)]; [apply P1; [congruence | done] | left; exists w; split; [by right | done] | right; by exists j'].
Qed.

(** At most [n] items are active. *)
Definition active_at_most (n : nat) (s : Loop) : Prop :=
  exists X : gset Z, (size X <= n)%nat /\ forall x, link_of (tl s) x = Some pstActiveList -> x ∈ X.

Lemma active_less n s s1 s2 x : active_at_most (S n) s -> link_of (tl s) x = Some pstActiveList ->
  (forall y, link_of (tl s1) y = if decide (y = x) then None else link_of (tl s) y) -> activates_none s1 s2 -> active_at_most n s2.
Proof.
  intros (X & Sz & In) Lx L1 An. exists (X ∖ {[x]}). split.
  - assert (x ∈ X) as Hx by by apply In. rewrite size_difference by set_solver. rewrite size_singleton. lia.
  - intros y Y%An. rewrite L1 in Y. case_decide; [done |]. apply elem_of_difference. split; [by apply In | set_solver].
Qed.

Lemma active_none_nil s : active_at_most 0 s -> forall x, link_of (tl s) x <> Some pstActiveList.
Proof. intros (X & Sz & In) x Lx%In. assert (size X = 0%nat) as E by lia. apply size_empty_inv in E. set_solver. Qed.

(** The loop may go on for ever only if coroutines wake others. *)
Definition drains (P : Prop) (fuel : nat) (s : Loop) : Prop :=
  P \/ ((forall co s, Forall call_quiet (calls co s)) /\ active_at_most fuel s).

Lemma drain_ok P now fuel : clock_ok now -> forall s, good s -> timed s -> ullStart (pTimeout s) = now \/ unexpired s -> drains P fuel s ->
  gwp P (drain fuel now) (drained now s) s.
Proof.
  intros Ck. induction fuel as [|fuel IH]; intros s (a & c & K) T St Dr; cbn [drain].
  all: destruct (ok_active _ _ _ _ K) as [xs A]; pose proof (rep_links _ _ (ok_tl _ _ _ _ K) pstActiveList) as Lk; rewrite A in Lk; cbn in Lk.
  all: apply gwp_bind; cbn; apply gwp_bind, twp_gwp, (twp_deref _ _ _ _ Lk); cbn [l_head]; destruct xs as [|x xs]; cbn [head].
  1, 3: cbn; by apply (drained_nil now s a c).
  all: assert (link_of (tl s) x = Some pstActiveList) as Ax by (apply (link_of_rep _ _ _ _ (ok_tl _ _ _ _ K)); exists (x :: xs); split; [done | by left]).
  1: cbn; destruct Dr as [?|[_ N]]; [done | by destruct (active_none_nil s N x)].
  destruct (ok_pop s a c x xs K A) as (h & i & E & X & K1 & L1). apply gwp_bind, twp_gwp, (twp_tl_op _ _ h); [done |].
  apply gwp_bind, twp_gwp, (twp_item_at _ i); [done |]. pose proof (pop_timed s h x T L1) as T1.
  assert (link_of h x = None) as U by by rewrite L1, decide_True.
  assert (forall s2, ((forall co s, Forall call_quiet (calls co s)) -> activates_none (set_tl s h) s2) -> drains P fuel s2) as Dr2.
  { intros s2 An. destruct Dr as [?|[Q N]]; [by left | right]. split; [done |]. by eapply (active_less fuel s (set_tl s h) s2 x N Ax L1), An. }
  apply gwp_bind. destruct (bTimeout i && (now <? ullExpireTime i)) eqn:B.
  - apply andb_true_iff in B as [B Lt%Z.ltb_lt].
    assert (ullStart (pTimeout s) = now) as St' by (destruct St as [?|C]; [done | by rewrite (C x i X) in B]).
    eapply gwp_mono; [apply twp_gwp, (put_back_ok (set_tl s h) _ c x i now K1 X U T1 B St' Lt) |]. cbn beta.
    intros again s2 (-> & G2 & T2 & W2 & N2 & X2 & I2 & L2 & An). eapply gwp_mono; [apply (IH s2 G2 T2); [left; by rewrite W2 | by apply Dr2] |].
    intros r s3. by apply (drained_early now s h s2 s3 x i r).
  - cbn. apply gwp_bind. eapply gwp_mono; [apply twp_gwp, (process_ok (set_tl s h) _ c x i K1 X U) |]. cbn beta.
    intros _ s2 (G2 & Kp & An). pose proof (keeps_timed _ _ _ Kp T1) as T2. apply gwp_bind.
    eapply gwp_mono; [apply (IH s2 G2 T2); [| by apply Dr2] |].
    { destruct St as [St|C]; [left; rewrite (kp_wheel _ _ _ Kp); done | right; by eapply keeps_unexpired]. }
    intros r s3. apply (drained_fire now s a c h s2 s3 x i r K); try done. intros B'. rewrite B' in B. cbn in B. apply Z.ltb_ge in B. lia.
Qed.

(** ** A round of the loop *)

(** Events are for descriptors in the interest list. *)
Definition event_ok (s : Loop) (e : Z * nat * Z) : Prop := exists f, interest (epfd s) f = Some (fst e).

(** What does not change while a coroutine waits. *)
Definition same_wait (i i' : item) : Prop :=
  ullExpireTime i' = ullExpireTime i /\ pArg i' = pArg i /\ is_cond i' = is_cond i.

#[local] Instance same_wait_preorder : PreOrder same_wait.
Proof. split; [by intros i | intros i j k (? & ? & ?) (? & ? & ?); repeat split; congruence]. Qed.

Lemma same_item_wait i i' : same_item i i' -> same_wait i i'.
Proof. by intros [->| ->]. Qed.

Definition same_waits (s s' : Loop) : Prop := forall x, option_Forall2 same_wait (items s !! x) (items s' !! x).

#[local] Instance same_waits_preorder : PreOrder same_waits.
Proof.
  split.
  - intros s x. destruct (items s !! x); by constructor.
  - intros s1 s2 s3 A B x. specialize (A x). specialize (B x). destruct A as [i j A|]; [| by inversion B]. inversion B. constructor. by etrans.
Qed.

(** Since [s0] some items have had events, which made them active. *)
Record prepared (s0 s : Loop) : Prop := {
  pr_good : good s;
  pr_timed : timed s;
  pr_fresh : unexpired s;
  pr_ep : epfd s = epfd s0;
  pr_wheel : pTimeout s = pTimeout s0;
  pr_next : next s = next s0;
  pr_items : same_waits s0 s;
  pr_link : forall x, link_of (tl s) x = link_of (tl s0) x \/ link_of (tl s) x = Some pstActiveList }.

Lemma prepared_refl s : good s -> calm s -> prepared s s.
Proof.
  intros G C. split; try done.
  - intros x i X F. by destruct (C x i X).
  - intros x i X. destruct (bTimeout i) eqn:B; [| done]. destruct (C x i X). by left.
  - by left.
Qed.

(** Item [x] has had an event and is active in the new state. *)
Lemma prepared_step s0 s x i i' h : prepared s0 s -> items s !! x = Some i -> good (set_tl (set_items s (<[x := i']> (items s))) h) ->
  same_wait i i' -> bTimeout i' = bTimeout i ->
  (forall y, link_of h y = if decide (y = x) then Some pstActiveList else link_of (tl s) y) ->
  prepared s0 (set_tl (set_items s (<[x := i']> (items s))) h).
Proof.
  intros [G T F Ep W Nx It Lk] X G' Ex B L. split; try done; cbn.
  - intros y j. cbn. rewrite L, lookup_insert. case_decide; subst; repeat case_decide; try done.
    + intros [= <-] _. split; [done |]. rewrite B, (F _ i X). done.
    + intros Y Fl. by apply (T y j).
  - intros y j. cbn. rewrite lookup_insert. case_decide; [intros [= <-]; rewrite B; by apply (F x) | apply F].
  - etrans; [exact It |]. intros y. cbn. destruct (decide (x = y)) as [<-|N].
    + rewrite lookup_insert_eq, X. by constructor.
    + rewrite lookup_insert_ne by done. destruct (items s !! y); by constructor.
  - intros y. rewrite L. case_decide; [by right | apply Lk].
Qed.

Lemma prepare_ok s0 s e : prepared s0 s -> event_ok s0 e ->
  twp (prepare e) (fun _ s' => prepared s0 s' /\ link_of (tl s') (fst (fst e)) = Some pstActiveList /\
    (forall y, link_of (tl s) y = Some pstActiveList -> link_of (tl s') y = Some pstActiveList) /\
    forall y, y <> fst (fst e) -> items s' !! y = items s !! y) s.
Proof.
  intros P [f Hf]. destruct e as [[x k] ev]. cbn in Hf. pose proof P as [(a & c & K) T F Ep W Nx It Lk]. rewrite <- Ep in Hf.
  destruct (ok_interest _ _ _ _ K f x k Hf) as (i & q & X & Ci & _). pose proof (ok_exp _ _ _ _ K x i X) as Ex.
  apply twp_bind, (twp_item_at _ i); [done |]. apply twp_bind, (twp_upd_item _ _ i); [done |].
  set (i' := raise_event k _ i). destruct (iAllEventDetach i) eqn:D; cbn [negb].
  - destruct (T x i X (or_intror D)) as [Ax _]. specialize (Ax ltac:(done)). cbn. split; [| do 2 (split; [done |]); intros y N; by rewrite lookup_insert_ne].
    apply (prepared_step s0 s x i i' (tl s)); try done.
    + exists a, c. apply (ok_upd s a c None x i i'); try done. 2: { intros _. by right; left. }
      rewrite Ax. intros l [= <-]. apply active_no_slot.
    + intros y. case_decide; [by subst | done].
  - destruct (ok_remove s a c None x K) as (h & E & K1 & L1); [by rewrite X | by left |].
    assert (ok (set_items (set_tl s h) (<[x := i']> (items s))) (remove x a) c (Some x)) as K2.
    { apply (ok_upd (set_tl s h) _ _ _ x i i'); try done; cbn; by rewrite L1, decide_True. }
    destruct (ok_activate _ _ _ _ x i' K2) as (h' & E' & K3 & L3); [apply lookup_insert_eq | by right | cbn; by rewrite L1, decide_True | by right; left |].
    apply twp_bind, (twp_tl_op _ _ h); [done |]. apply (twp_tl_op _ _ h'); [done |]. cbn in L3.
    assert (forall y, link_of h' y = if decide (y = x) then Some pstActiveList else link_of (tl s) y) as L4.
    { intros y. rewrite L3. case_decide; [done |]. by rewrite L1, decide_False. }
    split; [| split; [cbn; by rewrite L4, decide_True |]; split; [| intros y N; cbn; by rewrite lookup_insert_ne]].
    + apply (prepared_step s0 s x i i' h'); try done. by eexists _, _.
    + intros y Y. cbn. rewrite L4. by case_decide.
Qed.

Lemma prepare_all_ok s0 l : Forall (event_ok s0) l -> forall s, prepared s0 s ->
  twp (prepare_all l) (fun _ s' => prepared s0 s' /\ (forall e, e ∈ l -> link_of (tl s') (fst (fst e)) = Some pstActiveList) /\
    (forall y, link_of (tl s) y = Some pstActiveList -> link_of (tl s') y = Some pstActiveList) /\
    forall y, y ∉ (fst <$> (fst <$> l)) -> items s' !! y = items s !! y) s.
Proof.
  induction 1 as [|e l E _ IH]; intros s P; cbn; [split; [done |]; set_solver |].
  apply twp_bind. eapply twp_mono; [by apply (prepare_ok s0) |]. cbn beta. intros _ s1 (P1 & A1 & K1 & I1).
  eapply twp_mono; [by apply IH |]. cbn beta. intros _ s2 (P2 & A2 & K2 & I2). split; [done |]. split; [| split; [by auto |]].
  - intros e' [->|E']%elem_of_cons; auto.
  - intros y [N1 N2]%not_elem_of_cons. rewrite I2, I1; done.
Qed.

Lemma mark_ok xs : forall fuel s l p, seg (nodes (tl s)) l p xs None -> NoDup xs -> (forall x, x ∈ xs -> is_Some (items s !! x)) ->
  (length xs <= fuel)%nat ->
  twp (mark fuel (head xs)) (fun _ s' => exists m, s' = set_items s m /\
    forall y, m !! y = if decide (y ∈ xs) then set_bTimeout true <$> items s !! y else items s !! y) s.
Proof.
  induction xs as [|x xs IH]; intros fuel s l p Sg ND Al Len.
  { destruct fuel; cbn; (exists (items s); split; [by destruct s | done]). }
  destruct fuel as [|fuel]; cbn in Len; [lia |]. destruct Sg as [N Sg]. apply NoDup_cons in ND as [Nx ND].
  destruct (Al x) as [i X]; [by left |]. cbn. apply twp_bind, (twp_upd_item _ _ i); [done |]. apply twp_bind. cbn.
  apply twp_bind, (twp_deref _ _ _ _ N). cbn [pNext]. replace (CoList.or (head xs) None) with (head xs) by by destruct (head xs).
  set (s1 := set_items _ _). eapply twp_mono; [apply (IH fuel s1 l (Some x)); try done; [| lia] |].
  { intros y Y. cbn. rewrite lookup_insert. case_decide; [done |]. apply Al. by right. }
  cbn beta. intros _ s2 (m & -> & M). exists m. split; [done |]. intros y. rewrite M. cbn. rewrite lookup_insert.
  destruct (decide (y ∈ xs)) as [Y|Y].
  - rewrite (decide_False (P := x = y)) by congruence. by rewrite decide_True by by right.
  - destruct (decide (x = y)) as [<-|N'].
    + rewrite decide_True by by left. by rewrite X.
    + rewrite decide_False; [done |]. intros [?|?]%elem_of_cons; congruence.
Qed.

(** Items whose slot is due are active and have timed out. *)
Definition expired_at (now : Z) (s s' : Loop) : Prop :=
  (forall y, link_of (tl s') y = match link_of (tl s) y with
     | Some j => if decide (slot_between (pTimeout s) 0 (now - ullStart (pTimeout s) + 1) j) then Some pstActiveList else Some j
     | None => None end) /\
  (forall y, items s' !! y = match link_of (tl s) y with
     | Some j => if decide (slot_between (pTimeout s) 0 (now - ullStart (pTimeout s) + 1) j) then set_bTimeout true <$> items s !! y else items s !! y
     | None => items s !! y end).

Lemma expire_items_ok s a c now : ok s a c None -> timed s -> clock_ok now ->
  ullStart (pTimeout s) <= now -> now - ullStart (pTimeout s) + 1 < 2 ^ 31 ->
  twp (expire_items now) (fun _ s' => exists h m w a', s' = mk w h (cl s) m (epfd s) (next s) /\ expired_at now s s' /\
    rep h a' /\ wheel_ok w a' (expire_of s) /\ ullStart w = now /\ iItemSize w = iItemSize (pTimeout s) /\
    is_Some (a' !! pstActiveList) /\ a' !! pstTimeoutList = Some [] /\ dom (nodes h) = dom (nodes (tl s))) s.
Proof.
  intros K T Ck Le Gap. pose proof (ok_tl _ _ _ _ K) as R.
  destruct (TakeAllTimeout_spec (pTimeout s) (tl s) a (expire_of s) pstTimeoutList [] now R (ok_wheel _ _ _ _ K) (tlist_no_slot _) (ok_tlist _ _ _ _ K) Le Gap)
    as (w & h & a1 & taken & E & R1 & D1 & W1 & St & Sz & Mv); [unfold clock_ok, time_ok in *; lia |].
  pose proof (fun y => link_of_moved (pTimeout s) _ _ _ _ _ _ _ _ _ y R R1 (tlist_no_slot _) (ok_tlist _ _ _ _ K) Mv) as L1. destruct Mv as [M1 M2 M3]. cbn in M1.
  apply twp_bind. eapply twp_returns; [unfold take_timeouts; by rewrite E |]. apply twp_bind, twp_get.
  pose proof (rep_links _ _ R1 pstTimeoutList) as Lk. rewrite M1 in Lk. cbn in Lk. apply twp_bind, (twp_deref _ _ _ _ Lk). cbn [l_head].
  assert (forall x, x ∈ taken -> is_Some (items s !! x)) as Al.
  { intros x X. destruct (rep_elem _ _ _ _ _ R1 M1 X) as (n & N & _). apply elem_of_dom. rewrite <- (ok_dom _ _ _ _ K), <- D1. apply elem_of_dom. by rewrite N. }
  apply twp_bind. eapply twp_mono.
  { apply (mark_ok taken _ _ pstTimeoutList None); cbn; [apply R1, M1 | apply (rep_nodup _ _ R1 _ _ M1) | done |]. pose proof (rep_length _ _ _ _ R1 M1). lia. }
  cbn beta. intros _ s2 (m & -> & Hm). cbn in Hm. destruct (ok_active _ _ _ _ K) as [xs A].
  assert (a1 !! pstActiveList = Some xs) as A1 by (rewrite M2 by done; case_decide as B; [by destruct B as [B%active_no_slot _] | done]).
  destruct (Join_spec _ _ pstActiveList pstTimeoutList _ _ R1 ltac:(done) A1 M1) as (h2 & J & R2 & D2).
  pose proof (fun y => link_of_join _ _ _ _ _ _ _ y R1 A1 M1 ltac:(done) R2) as L2.
  apply (twp_tl_op _ _ h2); [done |]. eexists h2, m, w, _. split; [done |]. split; [| split; [exact R2 |]].
  2: { split; [| split; [done |]; split; [done |]; split; [| split; [apply lookup_insert_eq | congruence]]].
       - apply (wheel_ok_mono _ a1 _ (expire_of s)); [done | |].
         + intros i I. rewrite !lookup_insert. repeat case_decide; [done | done | by apply W1].
         + intros i ys y I L Y. split; [done |]. exists ys. rewrite !lookup_insert_ne in L; [done | |]; intros <-; [by apply active_no_slot in I | by apply tlist_no_slot in I].
       - by rewrite lookup_insert_ne, lookup_insert_eq. }
  assert (forall y, link_of (tl s) y <> Some pstTimeoutList) as Nt.
  { intros y (ys & Y & I)%(link_of_rep _ _ _ _ R). rewrite (ok_tlist _ _ _ _ K) in Y. injection Y as <-. by apply not_elem_of_nil in I. }
  split; intros y; cbn.
  - rewrite L2, L1. specialize (Nt y). destruct (link_of (tl s) y) as [j|]; [| done]. repeat case_decide; congruence.
  - rewrite Hm. assert (y ∈ taken <-> exists j, slot_between (pTimeout s) 0 (now - ullStart (pTimeout s) + 1) j /\ link_of (tl s) y = Some j) as Tk.
    { rewrite M3. setoid_rewrite (link_of_rep _ _ _ _ R). naive_solver. }
    destruct (link_of (tl s) y) as [j|].
    + repeat case_decide; try done; exfalso; naive_solver.
    + rewrite decide_False; [done |]. rewrite Tk. naive_solver.
Qed.

(** The items after that. *)
Lemma expired_items now s s' : expired_at now s s' ->
  (forall y i', items s' !! y = Some i' -> exists i, items s !! y = Some i /\ is_cond i' = is_cond i /\ fds i' = fds i /\
    ullExpireTime i' = ullExpireTime i /\ iAllEventDetach i' = iAllEventDetach i /\
    (i' = i \/ (bTimeout i' = true /\ link_of (tl s') y = Some pstActiveList /\ exists j, link_of (tl s) y = Some j /\ is_slot (pTimeout s) j))) /\
  (forall y, is_Some (items s' !! y) <-> is_Some (items s !! y)).
Proof.
  intros [L I]. split; intros y.
  - intros i'. rewrite I, L. destruct (link_of (tl s) y) as [j|]; [| intros Y; exists i'; naive_solver].
    case_decide as B; [| intros Y; exists i'; naive_solver]. destruct (items s !! y) as [i|]; [| done]. intros [= <-]. exists i. do 5 (split; [done |]).
    right. split; [done |]. split; [done |]. exists j. by destruct B.
  - rewrite I. destruct (link_of (tl s) y); [case_decide |]; by destruct (items s !! y).
Qed.

Lemma expired_ok s a c now h m w a' : ok s a c None -> timed s ->
  expired_at now s (mk w h (cl s) m (epfd s) (next s)) -> rep h a' -> wheel_ok w a' (expire_of s) ->
  iItemSize w = iItemSize (pTimeout s) -> is_Some (a' !! pstActiveList) -> a' !! pstTimeoutList = Some [] -> dom (nodes h) = dom (nodes (tl s)) ->
  let s' := mk w h (cl s) m (epfd s) (next s) in ok s' a' c None /\ timed s'.
Proof.
  intros K T [L I] R W Sz A Tl D. cbn in L, I. set (due := slot_between _ _ _) in *.
  pose proof (expired_items now s (mk w h (cl s) m (epfd s) (next s)) (conj L I)) as [Im Dm]. cbn in Im, Dm.
  destruct K as [R0 Rc W0 Sz0 A0 T0 D0 Cd Cs Nx Sl Wy Wt It Ex Ls]. split; [split; cbn; try done |].
  - apply (wheel_ok_mono _ a' _ (expire_of s)); [done | apply W |]. intros j ys y _ Y I'. split; [| by exists ys].
    unfold expire_of. cbn. destruct (m !! y) as [i'|] eqn:M.
    + destruct (Im y i' M) as (i & -> & _ & _ & E & _). cbn. by rewrite E.
    + destruct (items s !! y) eqn:Y'; [| done]. destruct (proj2 (Dm y)) as [? ?]; [by rewrite Y' | congruence].
  - congruence.
  - apply set_eq. intros y. rewrite D, D0, !elem_of_dom. by rewrite Dm.
  - intros y. rewrite Cd. split.
    + intros (i & Y & C). destruct (proj2 (Dm y)) as [i' M]; [by rewrite Y |]. destruct (Im y i' M) as (j & Y' & E & _). exists i'. split; [done |]. congruence.
    + intros (i' & M & C). destruct (Im y i' M) as (j & Y' & E & _). exists j. split; [done |]. congruence.
  - intros y Y%Dm. by apply Nx.
  - intros y l i' Ly Hl M. destruct (Im y i' M) as (i & Y & _ & _ & _ & _ & [->|(_ & La & _)]); [| rewrite Ly in La; injection La as ->; by apply active_no_slot in Hl].
    apply (Sl y l i); [| unfold is_slot in *; by rewrite <- Sz | done]. rewrite L in Ly. destruct (link_of (tl s) y) as [j|]; [| done].
    case_decide; [| done]. injection Ly as <-. by apply active_no_slot in Hl.
  - intros y i' Ly M. destruct (Im y i' M) as (i & Y & _ & _ & _ & _ & [->|(B & _)]); [| by left]. rewrite L in Ly. rewrite I in M.
    destruct (link_of (tl s) y) as [j|] eqn:Lj; [| done]. case_decide.
    + rewrite Y in M. left. by injection M as <-.
    + injection Ly as ->. by apply Wy.
  - intros y Y%Dm _. rewrite L. destruct (Wt y Y) as [[j ->]|?]; [done | left; by case_decide | by right].
  - intros f y k Hf. destruct (It f y k Hf) as (i & q & Y & C & Q & F & Gt). destruct (proj2 (Dm y)) as [i' M]; [by rewrite Y |].
    destruct (Im y i' M) as (j & Y' & Ec & Ef & _). rewrite Y in Y'. injection Y' as <-. exists i', q. rewrite Ec, Ef. done.
  - intros y i' M. destruct (Im y i' M) as (j & Y & _ & _ & E & _). rewrite E. by apply (Ex y).
  - intros y l. rewrite L. destruct (link_of (tl s) y) as [j|] eqn:Lj; [| done]. case_decide; [intros [= <-]; by right |].
    intros [= <-]. destruct (Ls y j Lj) as [?|?]; [left; unfold is_slot in *; by rewrite Sz | by right].
  - intros y i' M F. cbn in M |- *. destruct (Im y i' M) as (i & Y & _ & _ & _ & E & [->|(B & La & j & Lj & Hj)]).
    + destruct (T y i Y F) as [T1 T2]. split; [| done]. intros _. rewrite L, (T1 ltac:(done)). by case_decide.
    + split; [done |]. intros _. rewrite E. by destruct (Sl y j i Lj Hj Y).
Qed.

(** The clock was set back: nothing times out. *)
Lemma expire_items_back s a c now : ok s a c None -> now < ullStart (pTimeout s) -> twp (expire_items now) (fun _ s' => s' = s) s.
Proof.
  intros K Lt. pose proof (ok_start _ _ _ (ok_wheel _ _ _ _ K)) as [Pos _]. pose proof (rep_links _ _ (ok_tl _ _ _ _ K) pstTimeoutList) as Lk.
  rewrite (ok_tlist _ _ _ _ K) in Lk. cbn in Lk. assert (set_wheel s (pTimeout s) (tl s) = s) as Eta by by destruct s.
  apply twp_bind, (twp_returns _ _ _ tt s).
  { unfold take_timeouts, TakeAllTimeout, start_at. destruct (Z.eqb_spec (ullStart (pTimeout s)) 0); [lia |]. cbv zeta.
    destruct (Z.ltb_spec now (ullStart (pTimeout s))); [by rewrite Eta | lia]. }
  apply twp_bind, twp_get, twp_bind, (twp_deref _ _ _ _ Lk), twp_bind. cbn [l_head mark]. change (twp (mret tt) ?Q s) with (Q tt s). cbv beta.
  apply (twp_tl_op _ _ (tl s)); [| by destruct s]. unfold Join. rewrite Lk. done.
Qed.

(** What [expire_items] leaves for the loop over the active items. *)
Definition ready (now : Z) (s s' : Loop) : Prop :=
  good s' /\ timed s' /\ (ullStart (pTimeout s') = now \/ unexpired s') /\ next s' = next s /\ same_waits s s' /\
  (forall x i', items s' !! x = Some i' -> exists i, items s !! x = Some i /\ iAllEventDetach i' = iAllEventDetach i) /\
  (forall x, link_of (tl s) x = Some pstActiveList -> link_of (tl s') x = Some pstActiveList /\ items s' !! x = items s !! x) /\
  (forall x l i, link_of (tl s) x = Some l -> is_slot (pTimeout s) l -> items s !! x = Some i -> ullStart (pTimeout s) <= now ->
     ullExpireTime i <= now -> link_of (tl s') x = Some pstActiveList) /\
  ullStart (pTimeout s') = Z.max now (ullStart (pTimeout s)).

Lemma expire_items_ready s now : good s -> timed s -> unexpired s -> clock_ok now -> now - ullStart (pTimeout s) + 1 < 2 ^ 31 ->
  twp (expire_items now) (fun _ => ready now s) s.
Proof.
  intros (a & c & K) T U Ck Gap. destruct (decide (now < ullStart (pTimeout s))) as [Lt|Ge].
  { eapply twp_mono; [by apply (expire_items_back s a c) |]. cbn. intros _ s' ->. split; [by exists a, c |]. do 2 (split; [auto |]).
    split; [done |]. split; [done |]. split; [eauto |]. split; [done |]. split; [intros; lia | lia]. }
  eapply twp_mono; [apply (expire_items_ok s a c now K T Ck); lia |]. cbn beta.
  intros _ s' (h & m & w & a' & -> & Ex & R & W & St & Sz & A & Tl & D).
  destruct (expired_ok s a c now h m w a' K T Ex R W Sz A Tl D) as [K' T']. pose proof (expired_items _ _ _ Ex) as [Im Dm]. cbn in Im, Dm.
  split; [by exists a', c |]. split; [done |]. split; [by left |]. split; [done |]. destruct Ex as [L I]. cbn in L, I. split; [| split; [| split; [| split]]].
  - intros x. cbn. rewrite I. destruct (link_of (tl s) x); [case_decide |]; destruct (items s !! x); by constructor.
  - intros x i' X. cbn in X. destruct (Im x i' X) as (i & Y & _ & _ & _ & E & _). by exists i.
  - intros x Ax. cbn. rewrite L, I, Ax. case_decide as B; [| done]. by destruct B as [B%active_no_slot _].
  - intros x l i Lx Hl X _ Due. cbn. rewrite L, Lx, decide_True; [done |]. split; [done |].
    apply (link_of_rep _ _ _ _ (ok_tl _ _ _ _ K)) in Lx as (ys & Y & In). destruct (ok_due _ _ _ (ok_wheel _ _ _ _ K) l ys x Hl Y In) as (e & E & Le).
    unfold expire_of in E. rewrite X in E. injection E as <-. pose proof (slot_time_bound (pTimeout s) l). destruct (ok_size _ _ _ (ok_wheel _ _ _ _ K)). lia.
  - cbn. lia.
Qed.

(** The state between two rounds. *)
Definition settled (s : Loop) : Prop := good s /\ calm s.

Definition woken_items (r : list woken) : list Z := w_item <$> r.

(** What a round does. *)
Record woke (l : list (Z * nat * Z)) (now : Z) (s : Loop) (r : list woken) (s' : Loop) : Prop := {
  wk_settled : settled s';
  wk_once : NoDup (woken_items r);
  wk_reason : Forall (reason now) r;
  wk_event : forall e, e ∈ l -> fst (fst e) ∈ woken_items r;
  wk_active : forall x, link_of (tl s) x = Some pstActiveList -> x ∈ woken_items r;
  wk_due : forall x k i, link_of (tl s) x = Some k -> items s !! x = Some i -> ullStart (pTimeout s) <= now ->
    ullExpireTime i <= now -> x ∈ woken_items r;
  wk_only : forall w, w ∈ r -> next s <= w_item w \/
    exists i, items s !! w_item w = Some i /\ same_wait i (w_was w) /\
      (w_item w ∉ (fst <$> (fst <$> l)) -> iAllEventDetach (w_was w) = false);
  wk_rest : forall x i, items s !! x = Some i -> x ∈ woken_items r \/ exists i', items s' !! x = Some i' /\ same_wait i i';
  wk_clock : ullStart (pTimeout s') = Z.max now (ullStart (pTimeout s)) }.

Lemma linked_item s x l : good s -> link_of (tl s) x = Some l -> is_Some (items s !! x).
Proof.
  intros (a & c & K) Lx. apply (link_of_rep _ _ _ _ (ok_tl _ _ _ _ K)) in Lx as (xs & X & In).
  destruct (rep_elem _ _ _ _ x (ok_tl _ _ _ _ K) X In) as (n & Nn & _).
  apply elem_of_dom. rewrite <- (ok_dom _ _ _ _ K). apply elem_of_dom. by rewrite Nn.
Qed.

Lemma same_waits_fwd s s' x i : same_waits s s' -> items s !! x = Some i -> exists i', items s' !! x = Some i' /\ same_wait i i'.
Proof. intros W X. specialize (W x). rewrite X in W. inversion W as [? j E|]; subst. by exists j. Qed.

Lemma same_waits_bwd s s' x i' : same_waits s s' -> items s' !! x = Some i' -> exists i, items s !! x = Some i /\ same_wait i i'.
Proof. intros W X. specialize (W x). rewrite X in W. inversion W as [j ? E|]; subst. by exists j. Qed.

(** The three parts of a round together. *)
Lemma woke_drained s s1 s2 s3 l r now : settled s -> prepared s s1 ->
  (forall e, e ∈ l -> link_of (tl s1) (fst (fst e)) = Some pstActiveList) ->
  (forall y, y ∉ (fst <$> (fst <$> l)) -> items s1 !! y = items s !! y) ->
  ready now s1 s2 -> drained now s2 r s3 -> woke l now s r s3.
Proof.
  intros [G C] [G1 T1 U1 _ W1 N1 It1 L1] A1 I1 (G2 & T2 & St2 & N2 & It2 & D2 & Ac2 & Du2 & Ck2) [G3 C3 R3 O3 A3 F3 K3 W3].
  assert (forall x, link_of (tl s1) x = Some pstActiveList -> x ∈ woken_items r) as Act.
  { intros x Ax. destruct (linked_item s1 x _ G1 Ax) as [i X]. destruct (Ac2 x Ax) as [Ax2 E]. rewrite X in E.
    destruct (A3 x i E Ax2) as (w & W & <-); [left; by apply (U1 x) |]. by apply list_elem_of_fmap_2. }
  split; try done.
  - auto.
  - intros x Ax. apply Act. destruct (L1 x) as [->|?]; done.
  - intros x k i Lx X Le Due. destruct (L1 x) as [E|?]; [| by apply Act]. destruct (same_waits_fwd _ _ x i It1 X) as (i1 & X1 & (E1 & _ & _)).
    destruct G1 as (a1 & c1 & K1). rewrite Lx in E. destruct (ok_lists _ _ _ _ K1 x k E) as [Hk| ->]; [| by apply Act].
    destruct (same_waits_fwd _ _ x i1 It2 X1) as (i2 & X2 & (E2 & _ & _)).
    assert (link_of (tl s2) x = Some pstActiveList) as Ax2 by (apply (Du2 x k i1); [done | done | done | congruence | lia]).
    destruct (A3 x i2 X2 Ax2) as (w & W & <-); [right; lia |]. by apply list_elem_of_fmap_2.
  - intros w W. destruct (F3 w W) as [(i2 & X2 & Sm)|?]; [right | left; lia].
    destruct (same_waits_bwd _ _ _ i2 It2 X2) as (i1 & X1 & S1). destruct (same_waits_bwd _ _ _ i1 It1 X1) as (i & X & S0).
    exists i. split; [done |]. split; [etrans; [exact S0 |]; etrans; [exact S1 |]; by apply same_item_wait |].
    intros Nw. rewrite I1, X in X1 by done. injection X1 as <-. destruct (D2 _ _ X2) as (j & J & De). rewrite I1, X in J by done. injection J as <-.
    assert (iAllEventDetach (w_was w) = iAllEventDetach i2) as -> by by destruct Sm as [->| ->]. rewrite De.
    destruct (iAllEventDetach i) eqn:Di; [| done]. destruct (C _ i X). by right.
  - intros x i X. destruct (same_waits_fwd _ _ x i It1 X) as (i1 & X1 & S1). destruct (same_waits_fwd _ _ x i1 It2 X1) as (i2 & X2 & S2).
    destruct (K3 x i2 X2) as [(w & W & <-)|(i3 & X3 & S3)]; [left; by apply list_elem_of_fmap_2 |]. right. exists i3. split; [done |].
    etrans; [exact S1 |]. etrans; [exact S2 |]. by apply same_item_wait.
  - rewrite W3, Ck2, W1. done.
Qed.

Lemma round_ok P fuel l now s : settled s -> Forall (event_ok s) l -> clock_ok now -> now - ullStart (pTimeout s) + 1 < 2 ^ 31 ->
  P \/ ((forall co s, Forall call_quiet (calls co s)) /\ (size (items s) <= fuel)%nat) ->
  gwp P (round fuel l now) (woke l now s) s.
Proof.
  intros [G C] Ev Ck Gap Dr. apply gwp_bind. pose proof G as (a & c & K).
  assert (set_tl s (mk_heap (nodes (tl s)) (<[pstTimeoutList := link0]> (links (tl s)))) = s) as Eta.
  { rewrite insert_id; [by destruct s as [? []] |]. rewrite (rep_links _ _ (ok_tl _ _ _ _ K)), (ok_tlist _ _ _ _ K). done. }
  change (gwp P (modify ?f) ?Q s) with (Q tt (f s)). cbv beta. rewrite Eta. apply gwp_bind.
  eapply gwp_mono; [apply twp_gwp, (prepare_all_ok s l Ev s), prepared_refl; done |]. cbn beta. intros _ s1 (P1 & A1 & Ac1 & I1).
  pose proof P1 as [G1 T1 U1 _ W1 _ It1 _]. apply gwp_bind.
  eapply gwp_mono; [apply twp_gwp, (expire_items_ready s1 now G1 T1 U1 Ck); by rewrite W1 |]. cbn beta.
  intros _ s2 Rd. pose proof Rd as (G2 & T2 & St2 & _ & It2 & _).
  assert (drains P fuel s2) as Dr2.
  { destruct Dr as [?|[Q Sz]]; [by left | right]. split; [done |]. exists (dom (items s)). split; [by rewrite size_dom |]. intros x Lx.
    destruct (linked_item s2 x _ G2 Lx) as [i2 X2]. destruct (same_waits_bwd _ _ _ i2 It2 X2) as (i1 & X1 & _).
    destruct (same_waits_bwd _ _ _ i1 It1 X1) as (i & X & _). apply elem_of_dom. by rewrite X. }
  eapply gwp_mono; [by apply (drain_ok P now fuel Ck s2 G2 T2 St2 Dr2) |]. intros r s3 D. by apply (woke_drained s s1 s2).
Qed.

(** The item of a coroutine that waits for descriptors or sleeps, until [e]
    at the latest. *)
Record sleeping (s : Loop) (x self e : Z) : Prop := {
  sl_settled : settled s;
  sl_item : exists i, items s !! x = Some i /\ is_cond i = false /\ ullExpireTime i = e /\ pArg i = self;
  sl_clock : ullStart (pTimeout s) <= e }.

Lemma waits_sleeping s x self e : good s -> calm s -> waits_until s x self e false -> sleeping s x self e.
Proof.
  intros G C (i & l & X & E & P & Ci & Lx & Hl). split; [done | by exists i |]. destruct G as (a & c & K).
  apply (link_of_rep _ _ _ _ (ok_tl _ _ _ _ K)) in Lx as (ys & Y & In). destruct (ok_due _ _ _ (ok_wheel _ _ _ _ K) l ys x Hl Y In) as (e' & E' & Le).
  unfold expire_of in E'. rewrite X in E'. injection E' as <-. pose proof (slot_time_bound (pTimeout s) l).
  destruct (ok_size _ _ _ (ok_wheel _ _ _ _ K)). lia.
Qed.

Lemma keeps_calm s s' : keeps s s' None -> calm s -> calm s'.
Proof.
  intros [A1 A2 A3 A4 A5] C y i Y F. destruct (A3 y i Y) as [[_ Y']|(_ & B1 & B2)]; [by apply (C y i) | destruct F; congruence].
Qed.

Lemma sleeping_round s x self e l now r s' : sleeping s x self e -> woke l now s r s' -> x ∉ (fst <$> (fst <$> l)) -> now < e ->
  (x ∉ woken_items r) /\ sleeping s' x self e.
Proof.
  intros [St (i & X & Ci & Ei & Pi) Cl] W Nx Lt. assert (x ∉ woken_items r) as N.
  { intros (w & -> & Hw)%list_elem_of_fmap. pose proof (proj1 (Forall_forall _ _) (wk_reason _ _ _ _ _ W) w Hw) as Re.
    destruct (wk_only _ _ _ _ _ W w Hw) as [Ge|(j & J & (E1 & _ & E2) & De)].
    { destruct St as [(a & c & K) _]. pose proof (ok_next _ _ _ _ K (w_item w) ltac:(by rewrite X)). lia. }
    rewrite X in J. injection J as <-. specialize (De Nx). destruct Re as [[_ Le]|[?|[? _]]]; [lia | congruence | congruence]. }
  split; [done |]. destruct (wk_rest _ _ _ _ _ W x i X) as [?|(i' & X' & E1 & E2 & E3)]; [done |].
  split; [apply W | exists i'; repeat split; congruence |]. rewrite (wk_clock _ _ _ _ _ W). lia.
Qed.

Lemma sleeping_due s x self e l now r s' : sleeping s x self e -> woke l now s r s' -> e <= now -> x ∈ woken_items r.
Proof.
  intros [[(a & c & K) C] (i & X & Ci & Ei & Pi) Cl] W Le. destruct (ok_waits _ _ _ _ K x) as [[k Lx]|[k Lx]]; [by rewrite X | done | |].
  - apply (wk_due _ _ _ _ _ W x k i Lx X); lia.
  - rewrite (no_cond_link s a c None x i K X Ci) in Lx. done.
Qed.

(** Rounds of the loop, each with its events, its time and the coroutines it
    resumed. *)
Inductive rounds : Loop -> list (list (Z * nat * Z) * Z * list woken) -> Loop -> Prop :=
  | rounds_nil s : rounds s [] s
  | rounds_cons fuel s l now r s1 tr s2 :
      Forall (event_ok s) l -> clock_ok now -> now - ullStart (pTimeout s) + 1 < 2 ^ 31 ->
      round fuel l now s = Ret r s1 -> rounds s1 tr s2 -> rounds s ((l, now, r) :: tr) s2.

Lemma round_woke fuel s l now r s' : settled s -> Forall (event_ok s) l -> clock_ok now -> now - ullStart (pTimeout s) + 1 < 2 ^ 31 ->
  round fuel l now s = Ret r s' -> woke l now s r s'.
Proof. intros S Ev Ck Gap E. pose proof (round_ok True fuel l now s S Ev Ck Gap (or_introl Logic.I)) as W. unfold gwp in W. by rewrite E in W. Qed.

(** Before its time, and without an event for it, the coroutine sleeps on. *)
Definition undisturbed (x e : Z) (t : list (Z * nat * Z) * Z * list woken) : Prop :=
  let '(l, now, _) := t in (x ∉ (fst <$> (fst <$> l))) /\ now < e.

Lemma sleeping_rounds s tr s' x self e : rounds s tr s' -> sleeping s x self e -> Forall (undisturbed x e) tr ->
  Forall (fun t => x ∉ woken_items (snd t)) tr /\ sleeping s' x self e.
Proof.
  induction 1 as [s|fuel s l now r s1 tr s2 Ev Ck Gap E _ IH]; intros Sl Un; [done |]. apply Forall_cons in Un as [[Nx Lt] Un].
  pose proof (round_woke fuel s l now r s1 (sl_settled _ _ _ _ Sl) Ev Ck Gap E) as W.
  destruct (sleeping_round s x self e l now r s1 Sl W Nx Lt) as [N Sl1]. destruct (IH Sl1 Un) as [Al Sl2]. split; [| done]. by constructor.
Qed.

(** ** The state after [AllocEpoll] *)

Lemma rep_empty (k : gmap Z link) : map_Forall (fun _ l => l = link0) k -> rep (mk_heap ∅ k) ((fun _ => []) <$> k).
Proof.
  intros A. split; cbn.
  - intros l. rewrite lookup_fmap. destruct (k !! l) as [x|] eqn:E; [| done]. by rewrite (A l x E).
  - intros l xs. rewrite lookup_fmap. destruct (k !! l); [| done]. intros [= <-]. apply NoDup_nil_2.
  - intros l xs. rewrite lookup_fmap. destruct (k !! l); [| done]. by intros [= <-].
  - done.
Qed.

Lemma empty_settled w k kc e : (forall f, interest e f = None) -> time_ok (ullStart w) -> iItemSize w = 60000 -> llStartIdx w = 0 ->
  (forall l, k !! l = if decide (l = pstTimeoutList \/ l = pstActiveList \/ is_slot w l) then Some link0 else None) ->
  (forall l, kc !! l = if decide (l ∈ conds) then Some link0 else None) ->
  settled (mk w (mk_heap ∅ k) (mk_heap ∅ kc) ∅ e 0).
Proof.
  intros Ie T Sz Ix Kl Kc.
  split; [| by intros x i X]. exists ((fun _ => []) <$> k), ((fun _ => []) <$> kc). split; cbn; try done.
  - apply rep_empty. intros l x. rewrite Kl. case_decide; [by intros [= <-] | done].
  - apply rep_empty. intros l x. rewrite Kc. case_decide; [by intros [= <-] | done].
  - split; cbn; [lia | done | unfold time_ok in T; lia | |].
    + intros i I. rewrite lookup_fmap, Kl, decide_True; [done | by right; right].
    + intros i xs x _. rewrite lookup_fmap. destruct (k !! i); [| done]. intros [= <-] []%not_elem_of_nil.
  - rewrite lookup_fmap, Kl, decide_True; [done | by right; left].
  - rewrite lookup_fmap, Kl, decide_True; [done | by left].
  - intros x. rewrite lookup_empty. split; [by intros [] | by intros (? & ? & _)].
  - intros x X. by rewrite lookup_fmap, Kc, decide_True.
  - intros x. rewrite lookup_empty. by intros [].
  - intros x. rewrite lookup_empty. by intros [].
  - intros f x n. by rewrite Ie.
Qed.

Lemma alloc_links n l : 0 <= n ->
  (<[pstTimeoutList := link0]> (<[pstActiveList := link0]> (snd (heads (Z.to_nat n)))) : gmap Z link) !! l =
  if decide (l = pstTimeoutList \/ l = pstActiveList \/ 0 <= l < n) then Some link0 else None.
Proof.
  intros P. destruct (heads_spec (Z.to_nat n)) as [_ L]. rewrite !lookup_insert, L, Z2Nat.id by done.
  unfold pstTimeoutList, pstActiveList. repeat case_decide; try done; lia.
Qed.

Lemma alloc_settled e now : (forall f, interest e f = None) -> clock_ok now -> settled (AllocEpoll e conds now).
Proof.
  intros Ie Ck. apply empty_settled; [done | unfold time_ok, clock_ok in *; cbn [ullStart]; lia | done | done | |].
  - intros l. by apply alloc_links.
  - intros l. case_decide; [by apply lookup_gset_to_gmap_Some | by apply lookup_gset_to_gmap_None].
Qed.

(** C7: a round of [co_eventloop] never touches freed memory, whatever the coroutines it resumes do.  When it comes to
    its end, it has resumed, once each, the coroutines whose items were active, had an event, or expired by now in the
    wheel; every coroutine it resumed had timed out by now, had an event or was signalled; the items of the others are
    as they were.  If the coroutines wake no others, it comes to its end. *)
Theorem eventloop_wakes fuel l now s :
  settled s -> Forall (event_ok s) l -> clock_ok now -> now - ullStart (pTimeout s) + 1 < 2 ^ 31 ->
  wp (round fuel l now) (woke l now s) s /\
  ((forall co s, Forall call_quiet (calls co s)) -> (size (items s) <= fuel)%nat ->
   exists r s', round fuel l now s = Ret r s' /\ woke l now s r s').
Proof.
  intros S Ev Ck Gap. split; [by apply (round_ok True fuel l now s S Ev Ck Gap); left |].
  intros Q Sz. apply twp_Ret. by apply (round_ok False fuel l now s S Ev Ck Gap); right.
Qed.

(** C8: [co_sleep] of a coroutine that has to wait [ms] milliseconds: however many rounds the event loop makes before
    that time, none of them resumes the coroutine unless its descriptor has an event, and the first round at that time
    or later resumes it. *)
Theorem sleep_on_time fuel s self ms f ev t0 x s1 tr s2 l now r s3 :
  settled s -> clock_ok t0 -> 0 < ms < 2 ^ 31 ->
  co_sleep self ms f ev t0 s = Ret (Waits x) s1 ->
  rounds s1 tr s2 -> Forall (undisturbed x (t0 + ms)) tr ->
  Forall (event_ok s2) l -> clock_ok now -> now - ullStart (pTimeout s2) + 1 < 2 ^ 31 -> t0 + ms <= now ->
  round fuel l now s2 = Ret r s3 ->
  Forall (fun t => x ∉ woken_items (snd t)) tr /\ x ∈ woken_items r.
Proof.
  intros [G C] Ck Ms E Rs Un Ev Ck' Gap Le Er. assert (sleeping s1 x self (t0 + ms)) as Sl.
  { pose proof (poll_begin_ok s self [mk_pollfd f (Z.lor (Z.lor ev POLLERR) POLLHUP)] ms t0 true G Ck ltac:(lia) ltac:(done)) as W.
    unfold twp in W. unfold co_sleep in E. rewrite E in W. destruct W as (G1 & Kp & _ & Wt). unfold poll_time in Wt.
    destruct (Z.ltb_spec ms 0); [lia |]. by apply (waits_sleeping s1 x self (t0 + ms) G1); [eapply keeps_calm |]. }
  destruct (sleeping_rounds s1 tr s2 x self (t0 + ms) Rs Sl Un) as [N Sl2]. split; [done |].
  eapply sleeping_due; [exact Sl2 | by apply (round_woke fuel s2 l now r s3); [apply Sl2 | | | |] | done].
Qed.

Lemma sleep_settled s self ms f ev t0 x s1 : settled s -> clock_ok t0 -> 0 < ms < 2 ^ 31 ->
  co_sleep self ms f ev t0 s = Ret (Waits x) s1 -> settled s1.
Proof.
  intros [G C] Ck Ms E.
  pose proof (poll_begin_ok s self [mk_pollfd f (Z.lor (Z.lor ev POLLERR) POLLHUP)] ms t0 true G Ck ltac:(lia) ltac:(done)) as W.
  unfold twp in W. unfold co_sleep in E. rewrite E in W. destruct W as (G1 & Kp & _). split; [done | by eapply keeps_calm].
Qed.

End loop.

(** ** Examples

    An interest list that does what is documented, and coroutines that end
    when they are resumed, but for coroutine 1, which signals condition 9. *)

#[export] Instance epoll_map : Epoll := {|
  Ep := gmap Z (Z * nat);
  ctl_add f d _ e := match e !! f with Some _ => (17, e) | None => (0, <[f := d]> e) end;
  ctl_del f e := delete f e;
  interest e f := e !! f |}.

#[export] Instance epoll_map_spec : EpollSpec.
Proof.
  split; cbn.
  - intros f d ev e. destruct (e !! f); [done |]. intros _ g. cbn. rewrite lookup_insert. repeat case_decide; congruence.
  - intros f d ev e. by destruct (e !! f).
  - intros f e g. rewrite lookup_delete. repeat case_decide; congruence.
Qed.

Definition conds0 : gset Z := {[9]}.
Definition quiet0 : Program := fun _ _ => [].
Definition signals9 : Program := fun co _ => if co =? 1 then [CSignal 9] else [].

Lemma quiet0_ok co s : Forall (call_ok conds0) (calls (Program := quiet0) co s).
Proof. constructor. Qed.

(** Coroutine 7 waits for descriptor 5 to be readable, 100 ms at most. *)
Definition loop0 : Loop := AllocEpoll ∅ conds0 1000.
Definition sleep7 : M Loop poll_status := co_sleep 7 100 5 POLLIN 1000.

Lemma loop0_settled : settled conds0 loop0.
Proof. apply alloc_settled; [done | unfold clock_ok; lia]. Qed.

Lemma sleep7_waits : exists s1, sleep7 loop0 = Ret (Waits 0) s1 /\ interest (epfd s1) 5 = Some (0, 0%nat) /\ size (items s1) = 1%nat /\
  ullStart (pTimeout s1) = 1000.
Proof.
  assert (match sleep7 loop0 with
          | Ret (Waits x) s1 => bool_decide (x = 0 /\ interest (epfd s1) 5 = Some (0, 0%nat) /\ size (items s1) = 1%nat /\ ullStart (pTimeout s1) = 1000)
          | _ => false end = true) as E by (vm_compute; reflexivity).
  destruct (sleep7 loop0) as [[| |x] s1| |]; try done. apply bool_decide_eq_true in E as (-> & ? & ? & ?). by exists s1.
Qed.

Lemma eventloop_wakes_witness : exists s1, sleep7 loop0 = Ret (Waits 0) s1 /\
  exists r s', @round epoll_map quiet0 1 [(0, 0%nat, EPOLLIN)] 1050 s1 = Ret r s' /\ 0 ∈ woken_items r.
Proof.
  destruct sleep7_waits as (s1 & E & I & Sz & St). exists s1. split; [done |].
  destruct (eventloop_wakes conds0 quiet0_ok 1 [(0, 0%nat, EPOLLIN)] 1050 s1) as [_ T].
  - exact (sleep_settled conds0 loop0 7 100 5 POLLIN 1000 0 s1 loop0_settled ltac:(unfold clock_ok; lia) ltac:(lia) E).
  - constructor; [by exists 5 | constructor].
  - unfold clock_ok. lia.
  - rewrite St. lia.
  - destruct T as (r & s' & Er & W); [by constructor | lia |]. exists r, s'. split; [done |].
    apply (wk_event _ _ _ _ _ _ W (0, 0%nat, EPOLLIN)). by left.
Defined.

(** A round without events from a settled state, with coroutines that end. *)
Lemma quiet_round now s : settled conds0 s -> clock_ok now -> now - ullStart (pTimeout s) + 1 < 2 ^ 31 ->
  exists r s', @round epoll_map quiet0 (size (items s)) [] now s = Ret r s' /\ woke conds0 [] now s r s'.
Proof.
  intros S Ck Gap. apply twp_Ret. apply (round_ok conds0 quiet0_ok False _ [] now s S (Forall_nil_2 _) Ck Gap).
  right. split; [by constructor | done].
Qed.

Lemma sleep_on_time_witness : exists s1 r1 s2 r2 s3, sleep7 loop0 = Ret (Waits 0) s1 /\
  @round epoll_map quiet0 (size (items s1)) [] 1050 s1 = Ret r1 s2 /\ @round epoll_map quiet0 (size (items s2)) [] 1100 s2 = Ret r2 s3 /\
  (0 ∉ woken_items r1) /\ 0 ∈ woken_items r2.
Proof.
  destruct sleep7_waits as (s1 & E & _ & _ & St). assert (clock_ok 1000) as C0 by (unfold clock_ok; lia).
  assert (clock_ok 1050) as C1 by (unfold clock_ok; lia). assert (clock_ok 1100) as C2 by (unfold clock_ok; lia).
  pose proof (sleep_settled conds0 loop0 7 100 5 POLLIN 1000 0 s1 loop0_settled C0 ltac:(lia) E) as S1.
  destruct (quiet_round 1050 s1 S1 C1 ltac:(lia)) as (r1 & s2 & E1 & W1).
  pose proof (wk_clock _ _ _ _ _ _ W1) as St2. rewrite St in St2. cbn in St2.
  destruct (quiet_round 1100 s2 (wk_settled _ _ _ _ _ _ W1) C2 ltac:(lia)) as (r2 & s3 & E2 & W2).
  exists s1, r1, s2, r2, s3. do 3 (split; [done |]).
  destruct (sleep_on_time conds0 quiet0_ok (size (items s2)) loop0 7 100 5 POLLIN 1000 0 s1 [([], 1050, r1)] s2 [] 1100 r2 s3) as [N Y];
    [exact loop0_settled | done | lia | done | | | constructor | done | lia | lia | done |].
  - apply (rounds_cons (size (items s1)) s1 [] 1050 r1 s2 [] s2); [constructor | done | lia | done | constructor].
  - constructor; [| constructor]. split; [apply not_elem_of_nil | lia].
  - split; [| done]. by apply Forall_cons in N as [N _].
Defined.

(** An example: a signal can get lost.  Coroutine 2 waits for condition 9 for longer than the wheel is wide; when its item comes
    round it is put back into the wheel because it is early.  If coroutine 1, resumed in the same round, signals the
    condition before that, the item is taken off the condition and put back all the same: coroutine 2 has been signalled,
    is not resumed, and sleeps until its own timeout. *)
Example signal_lost :
  match (co_sleep 1 59999 (-1) 0 1000 ;; wait_begin 2 9 100000 1000 ;; @round epoll_map signals9 10 [] 60999) loop0 with
  | Ret r s => woken_items r = [0] /\ link_of (cl s) 1 = None /\ expire_of s 1 = Some 101000 /\
      link_of (tl s) 1 <> Some pstActiveList
  | _ => False
  end.
Proof. vm_compute. done. Qed.

End CoLoop.
