(* ===== verification/CoStack.v ===== *)
(** * CoStack: coroutines on shared stacks

    Model of the switching of coroutines in [libco/co_routine.cpp]:
    [co_create_env], [co_resume], [co_yield_env], [co_swap],
    [save_stack_buffer], [co_reset], [co_free], with [coctx_make] of
    [libco/coctx.cpp].  Several coroutines can run on the same block of stack
    memory; [co_swap] copies the stack of one out before another uses the
    block and copies it in again when its coroutine goes on.

    Addresses are offsets into the block; the stack of a coroutine is the part
    of its block from [stack_sp] on.  What a running coroutine writes to its
    block is arbitrary.  [None] is undefined behaviour: an index outside the
    call stack, an object that does not exist. *)

From S2P Require Import Prelude.

#[local] Open Scope nat_scope.
#[local] Arguments Nat.ltb : simpl never.
#[local] Arguments Nat.leb : simpl never.

Module CoStack.

(** ** Stack memory *)

Record stStackMem_t := mk_mem {
  occupy_co : option Z;
  stack_size : nat;
  stack_buffer : bytes
}.

Record stCoRoutine_t := mk_co {
  cStart : bool;
  cEnd : bool;
  cIsMain : bool;
  cIsShareStack : bool;
  stack_mem : Z;
  stack_sp : nat;
  save_buffer : option bytes
}.

(** The pointers of the share stack, and how many it has handed out. *)
Record stShareStack_t := mk_share { alloc_idx : Z; ss_size : nat; stack_array : list Z }.

Record stCoRoutineEnv_t := mk_env {
  mems : gmap Z stStackMem_t;
  cos : gmap Z stCoRoutine_t;
  pCallStack : list Z;             (* the first iCallStackSize of 128 *)
  pending_co : option Z;
  env_occupy_co : option Z
}.

Definition set_mems s x := mk_env x (cos s) (pCallStack s) (pending_co s) (env_occupy_co s).
Definition set_cos s x := mk_env (mems s) x (pCallStack s) (pending_co s) (env_occupy_co s).
Definition set_stack s x := mk_env (mems s) (cos s) x (pending_co s) (env_occupy_co s).
Definition set_swap s p o := mk_env (mems s) (cos s) (pCallStack s) p o.

Definition set_occupy (m : stStackMem_t) x := mk_mem x (stack_size m) (stack_buffer m).
Definition set_buffer (m : stStackMem_t) b := mk_mem (occupy_co m) (stack_size m) b.

Definition set_sp (r : stCoRoutine_t) x := mk_co (cStart r) (cEnd r) (cIsMain r) (cIsShareStack r) (stack_mem r) x (save_buffer r).
Definition set_save (r : stCoRoutine_t) x := mk_co (cStart r) (cEnd r) (cIsMain r) (cIsShareStack r) (stack_mem r) (stack_sp r) x.
Definition set_started (r : stCoRoutine_t) x := mk_co x (cEnd r) (cIsMain r) (cIsShareStack r) (stack_mem r) (stack_sp r) (save_buffer r).
Definition set_ended (r : stCoRoutine_t) x := mk_co (cStart r) x (cIsMain r) (cIsShareStack r) (stack_mem r) (stack_sp r) (save_buffer r).

Definition upd_mem (p : Z) (f : stStackMem_t -> stStackMem_t) s : option stCoRoutineEnv_t :=
  m ← mems s !! p; Some (set_mems s (<[p := f m]> (mems s))).
Definition upd_co (p : Z) (f : stCoRoutine_t -> stCoRoutine_t) s : option stCoRoutineEnv_t :=
  r ← cos s !! p; Some (set_cos s (<[p := f r]> (cos s))).

(** ** Creation *)

Definition co_stack_size (attr : Z) : Z :=
  let n := if (attr <=? 0)%Z then (128 * 1024)%Z else if (1024 * 1024 * 8 <? attr)%Z then (1024 * 1024 * 8)%Z else attr in
  if (Z.land n 0xFFF =? 0)%Z then n else (Z.land n (Z.lnot 0xFFF) + 0x1000)%Z.

(** [stack_array[alloc_idx % count]]; [alloc_idx] is an [unsigned int]. *)
Definition co_get_stackmem (ss : stShareStack_t) : option (Z * stShareStack_t) :=
  if bool_decide (stack_array ss = []) then None else
  p ← stack_array ss !! Z.to_nat (alloc_idx ss mod zlen (stack_array ss));
  Some (p, mk_share (u32 (alloc_idx ss + 1)) (ss_size ss) (stack_array ss)).

(** The coroutine [co] on the block [p]: a new one, or one of a share stack. *)
Definition co_create_env (co p : Z) (share : bool) (s : stCoRoutineEnv_t) : option stCoRoutineEnv_t :=
  Some (set_cos s (<[co := mk_co false false false share p 0 None]> (cos s))).

Definition co_alloc_stackmem (p : Z) (b : bytes) (s : stCoRoutineEnv_t) : stCoRoutineEnv_t :=
  set_mems s (<[p := mk_mem None (length b) b]> (mems s)).

(** The part of [co_free] and [co_reset] about the block. *)
Definition release_block (co : Z) (r : stCoRoutine_t) (s : stCoRoutineEnv_t) : option stCoRoutineEnv_t :=
  let s := if bool_decide (env_occupy_co s = Some co) then set_swap s (pending_co s) None else s in
  m ← mems s !! stack_mem r;
  if bool_decide (occupy_co m = Some co) then upd_mem (stack_mem r) (fun m => set_occupy m None) s else Some s.

Definition co_free (co : Z) (s : stCoRoutineEnv_t) : option stCoRoutineEnv_t :=
  r ← cos s !! co;
  s ← (if cIsShareStack r then release_block co r s
       else Some (set_mems s (delete (stack_mem r) (mems s))));
  Some (set_cos s (delete co (cos s))).

Definition co_reset (co : Z) (s : stCoRoutineEnv_t) : option stCoRoutineEnv_t :=
  r ← cos s !! co;
  if negb (cStart r) || cIsMain r then Some s else
  s ← upd_co co (fun r => set_save (set_ended (set_started r false) false) None) s;
  release_block co r s.

(** ** Switching *)

(** [coctx_make] writes the address of [CoRoutineFunc] to the highest aligned
    word of the block, for a block whose bounds are multiples of 16. *)
Definition entry (sz : nat) : nat := sz - 16.

Section stack.
(** The address of [CoRoutineFunc]. *)
Context (func_addr : bytes) (addr_len : length func_addr = 8).

Definition coctx_make (r : stCoRoutine_t) (s : stCoRoutineEnv_t) : option stCoRoutineEnv_t :=
  upd_mem (stack_mem r) (fun m => set_buffer m (list_inserts (entry (stack_size m)) func_addr (stack_buffer m))) s.

Definition save_stack_buffer (co : Z) (s : stCoRoutineEnv_t) : option stCoRoutineEnv_t :=
  r ← cos s !! co;
  m ← mems s !! stack_mem r;
  if stack_size m <? stack_sp r then None else
  upd_co co (fun r => set_save r (Some (drop (stack_sp r) (stack_buffer m)))) s.

(** The block of [co_swap] that gives the stack memory to [pending]. *)
Definition take_over (pending : Z) (s : stCoRoutineEnv_t) : option stCoRoutineEnv_t :=
  r ← cos s !! pending;
  if negb (cIsShareStack r) then Some (set_swap s None None)
  else
    m ← mems s !! stack_mem r;
    let occupy := occupy_co m in
    s ← upd_mem (stack_mem r) (fun m => set_occupy m (Some pending)) s;
    let s := set_swap s (Some pending) occupy in
    match occupy with
    | Some o => if bool_decide (o = pending) then Some s else save_stack_buffer o s
    | None => Some s
    end.

(** [co_swap], up to [coctx_swap]; [sp] is the address of [c]. *)
Definition swap_out (curr pending : Z) (sp : nat) (s : stCoRoutineEnv_t) : option stCoRoutineEnv_t :=
  s ← upd_co curr (fun r => set_sp r sp) s;
  take_over pending s.

(** [co_swap], after [coctx_swap] has come back. *)
Definition swap_in (s : stCoRoutineEnv_t) : option stCoRoutineEnv_t :=
  match pending_co s with
  | None => Some s
  | Some p =>
      if bool_decide (env_occupy_co s = Some p) then Some s else
      r ← cos s !! p;
      match save_buffer r with
      | None => Some s
      | Some b =>
          m ← mems s !! stack_mem r;
          if stack_size m <? stack_sp r + length b then None else
          upd_mem (stack_mem r) (fun m => set_buffer m (list_inserts (stack_sp r) b (stack_buffer m))) s
      end
  end.

Definition iMaxCallStack : nat := 128.

(** The coroutine that called, [lpCurrRoutine], is left at [sp].  A coroutine
    that has run before goes on behind its [coctx_swap]; a new one starts.
    Going on with one that has ended returns from [CoRoutineFunc] to
    nowhere. *)
Definition co_resume (co : Z) (sp : nat) (s : stCoRoutineEnv_t) : option stCoRoutineEnv_t :=
  curr ← last (pCallStack s);
  r ← cos s !! co;
  s ← (if cStart r then Some s else s ← coctx_make r s; upd_co co (fun r => set_started r true) s);
  if iMaxCallStack <=? length (pCallStack s) then None else
  s ← swap_out curr co sp (set_stack s (pCallStack s ++ [co]));
  if cEnd r then None else if cStart r then swap_in s else Some s.

Definition co_yield_env (sp : nat) (s : stCoRoutineEnv_t) : option stCoRoutineEnv_t :=
  let n := length (pCallStack s) in
  if n <? 2 then None else
  back ← pCallStack s !! (n - 2);
  curr ← pCallStack s !! (n - 1);
  s ← swap_out curr back sp (set_stack s (take (n - 1) (pCallStack s)));
  swap_in s.

(** The end of [CoRoutineFunc]. *)
Definition co_end (sp : nat) (s : stCoRoutineEnv_t) : option stCoRoutineEnv_t :=
  curr ← last (pCallStack s);
  s ← upd_co curr (fun r => set_ended r true) s;
  co_yield_env sp s.

(** ** Steps

    [frames] remembers the stacks of the coroutines that have given up
    control, as they left them. *)

Abbreviation frames := (gmap Z bytes).

(** The stack of coroutine [co] from [sp] on. *)
Definition stack_from (s : stCoRoutineEnv_t) (co : Z) (sp : nat) : option bytes :=
  r ← cos s !! co; m ← mems s !! stack_mem r; if sp <=? stack_size m then Some (drop sp (stack_buffer m)) else None.

(** The main coroutine runs on the stack of the thread. *)
Definition remember (co : Z) (sp : nat) (s : stCoRoutineEnv_t) (F : frames) : option frames :=
  r ← cos s !! co; if cIsMain r then Some F else f ← stack_from s co sp; Some (<[co := f]> F).

Inductive step : stCoRoutineEnv_t * frames -> stCoRoutineEnv_t * frames -> Prop :=
  (* the running coroutine writes to its stack *)
  | st_write s F co r m b : last (pCallStack s) = Some co -> cos s !! co = Some r -> mems s !! stack_mem r = Some m ->
      length b = stack_size m -> step (s, F) (set_mems s (<[stack_mem r := set_buffer m b]> (mems s)), F)
  | st_alloc s F p b : mems s !! p = None -> step (s, F) (co_alloc_stackmem p b s, F)
  | st_create s F co p share s' : cos s !! co = None -> is_Some (mems s !! p) ->
      (forall co' r', cos s !! co' = Some r' -> stack_mem r' = p -> share = true /\ cIsShareStack r' = true) ->
      co_create_env co p share s = Some s' -> step (s, F) (s', F)
  | st_resume s F F' curr co sp s' : last (pCallStack s) = Some curr -> co ∉ pCallStack s -> remember curr sp s F = Some F' ->
      co_resume co sp s = Some s' -> step (s, F) (s', delete co F')
  | st_yield s F F' curr sp s' co : last (pCallStack s) = Some curr -> remember curr sp s F = Some F' ->
      co_yield_env sp s = Some s' -> last (pCallStack s') = Some co -> step (s, F) (s', delete co F')
  | st_end s F curr sp s' co : last (pCallStack s) = Some curr -> is_Some (stack_from s curr sp) ->
      co_end sp s = Some s' -> last (pCallStack s') = Some co -> step (s, F) (s', delete co F)
  | st_free s F co s' : co ∉ pCallStack s -> co_free co s = Some s' -> step (s, F) (s', delete co F)
  | st_reset s F co s' : co ∉ pCallStack s -> co_reset co s = Some s' -> step (s, F) (s', delete co F).

(** The environment of a thread: its main coroutine, on a block of its own. *)
Definition env0 (main p : Z) (b : bytes) : stCoRoutineEnv_t :=
  mk_env {[p := mk_mem None (length b) b]} {[main := mk_co false false true false p 0 None]} [main] None None.

Inductive reachable (main p : Z) (b : bytes) : stCoRoutineEnv_t * frames -> Prop :=
  | reach_start : reachable main p b (env0 main p b, ∅)
  | reach_step x y : reachable main p b x -> step x y -> reachable main p b y.

(** ** Stacks that are the same

    But for the word that [coctx_make] writes: it belongs to the frame of
    [CoRoutineFunc], which does not return. *)

Definition in_entry (sz i : nat) : Prop := entry sz <= i < entry sz + 8.

Record agree (sz sp : nat) (b f : bytes) : Prop := {
  ag_len : length b = length f;
  ag_at : forall j, ~ in_entry sz (sp + j) -> b !! j = f !! j }.

#[local] Instance agree_equiv sz sp : Equivalence (agree sz sp).
Proof.
  split.
  - intros b. by split.
  - intros b f [L A]. split; [done |]. intros j N. symmetry. by apply A.
  - intros b f g [L A] [L' A']. split; [congruence |]. intros j N. rewrite A, A'; done.
Qed.

Lemma agree_make sz sp b : agree sz sp (drop sp (list_inserts (entry sz) func_addr b)) (drop sp b).
Proof.
  split; [by rewrite !length_drop, length_inserts |]. intros j N. rewrite !lookup_drop. unfold in_entry in N.
  destruct (decide (sp + j < entry sz)); [by rewrite list_lookup_inserts_lt | by rewrite list_lookup_inserts_ge by lia].
Qed.

(** ** Invariant: the memory *)

(** The stack of [co], which [f] remembers, is in its block or in its buffer. *)
Definition kept (s : stCoRoutineEnv_t) (co : Z) (f : bytes) : Prop :=
  exists r m, cos s !! co = Some r /\ mems s !! stack_mem r = Some m /\ cStart r = true /\ stack_sp r <= stack_size m /\
    length f = stack_size m - stack_sp r /\
    if cIsShareStack r && negb (bool_decide (occupy_co m = Some co))
    then exists b, save_buffer r = Some b /\ agree (stack_size m) (stack_sp r) b f
    else agree (stack_size m) (stack_sp r) (drop (stack_sp r) (stack_buffer m)) f.

Record blocks_ok (s : stCoRoutineEnv_t) (F : frames) : Prop := {
  bl_mem : forall co r, cos s !! co = Some r -> is_Some (mems s !! stack_mem r);
  bl_len : forall p m, mems s !! p = Some m -> length (stack_buffer m) = stack_size m;
  bl_priv : forall co co' r r', cos s !! co = Some r -> cos s !! co' = Some r' -> co <> co' -> stack_mem r = stack_mem r' ->
    cIsShareStack r = true /\ cIsShareStack r' = true;
  bl_occ : forall p m o, mems s !! p = Some m -> occupy_co m = Some o ->
    exists r, cos s !! o = Some r /\ stack_mem r = p /\ cIsShareStack r = true /\ stack_sp r <= stack_size m;
  bl_kept : forall co f, F !! co = Some f -> kept s co f;
  bl_sp : forall co r m, cos s !! co = Some r -> mems s !! stack_mem r = Some m -> cIsShareStack r = true -> stack_sp r <= stack_size m }.

(** Coroutine [run] is running: its stack is in its block. *)
Definition running (s : stCoRoutineEnv_t) (F : frames) (run : Z) : Prop :=
  F !! run = None /\ exists r m, cos s !! run = Some r /\ mems s !! stack_mem r = Some m /\ (cIsShareStack r = true -> occupy_co m = Some run).

(** Coroutines are the same but for their buffers. *)
Definition same_co (r r' : stCoRoutine_t) : Prop := exists b, r' = set_save r b.
Definition same_cos (s s' : stCoRoutineEnv_t) : Prop := forall x, option_Forall2 same_co (cos s !! x) (cos s' !! x).

Lemma same_cos_refl s s' : cos s' = cos s -> same_cos s s'.
Proof. intros E x. rewrite E. destruct (cos s !! x) as [r|]; constructor. exists (save_buffer r). by destruct r. Qed.

Lemma same_cos_save s s' o r b : cos s !! o = Some r -> cos s' = <[o := set_save r b]> (cos s) -> same_cos s s'.
Proof.
  intros O E x. rewrite E. destruct (decide (o = x)) as [<-|N].
  - rewrite O, lookup_insert_eq. constructor. by exists b.
  - rewrite lookup_insert_ne by done. destruct (cos s !! x) as [r'|]; constructor. exists (save_buffer r'). by destruct r'.
Qed.

Lemma blocks_delete s F co : blocks_ok s F -> blocks_ok s (delete co F).
Proof. intros [A B C D E G]. split; try done. intros x f. rewrite lookup_delete. case_decide; [done | apply E]. Qed.

(** What becomes of coroutine [x] when [p] takes over block [m]. *)
Definition evicted (p : Z) (m : stStackMem_t) (x : Z) (r : stCoRoutine_t) : stCoRoutine_t :=
  if decide (occupy_co m = Some x /\ x <> p) then set_save r (Some (drop (stack_sp r) (stack_buffer m))) else r.

Lemma take_over_eq s F p r m : blocks_ok s F -> cos s !! p = Some r -> mems s !! stack_mem r = Some m -> cIsShareStack r = true ->
  exists s1, take_over p s = Some s1 /\ mems s1 = <[stack_mem r := set_occupy m (Some p)]> (mems s) /\
    (forall x, cos s1 !! x = evicted p m x <$> cos s !! x) /\ pCallStack s1 = pCallStack s /\ pending_co s1 = Some p /\
    env_occupy_co s1 = occupy_co m.
Proof.
  intros [Bm Bl Bp Bo Bk Bs] P M Sh. unfold take_over. rewrite P. cbn [mbind option_bind]. rewrite Sh. cbn [negb]. rewrite M. cbn [mbind option_bind].
  unfold upd_mem. rewrite M. cbn [mbind option_bind].
  assert (forall x, (forall o, occupy_co m = Some o -> o = p) -> evicted p m x <$> cos s !! x = cos s !! x) as Id.
  { intros x Ho. destruct (cos s !! x) as [rx|]; [| done]. cbn. unfold evicted. rewrite decide_False; [done |]. intros [E N]. by apply N, Ho. }
  destruct (occupy_co m) as [o|] eqn:Oc.
  2: { eexists. split; [done |]. cbn. repeat split; try done. intros x. rewrite Id; [done | congruence]. }
  destruct (decide (o = p)) as [->|N].
  { rewrite bool_decide_true by done. eexists. split; [done |]. cbn. repeat split; try done. intros x. rewrite Id; [done | congruence]. }
  rewrite bool_decide_false by done. destruct (Bo _ _ _ M Oc) as (ro & O & Mo & So & Le). unfold save_stack_buffer. cbn. rewrite O. cbn.
  rewrite Mo, lookup_insert_eq. cbn. destruct (Nat.ltb_spec (stack_size m) (stack_sp ro)); [lia |]. unfold upd_co. cbn. rewrite O. cbn.
  eexists. split; [done |]. cbn. repeat split; try done. intros x. rewrite lookup_insert. unfold evicted. case_decide as E.
  - subst. rewrite O. cbn. rewrite decide_True; [done | by split].
  - destruct (cos s !! x); [| done]. cbn. rewrite decide_False; [done |]. intros [E' _]. congruence.
Qed.

Lemma evicted_same p m x r : same_co r (evicted p m x r).
Proof. unfold evicted. case_decide; [by eexists |]. exists (save_buffer r). by destruct r. Qed.

Lemma evicted_fields p m x r : stack_mem (evicted p m x r) = stack_mem r /\ cStart (evicted p m x r) = cStart r /\
  stack_sp (evicted p m x r) = stack_sp r /\ cIsShareStack (evicted p m x r) = cIsShareStack r.
Proof. destruct (evicted_same p m x r) as [b ->]. done. Qed.

(** What the others have kept, they have kept when [p] has taken over. *)
Lemma kept_evicted s s1 F p r m co f : blocks_ok s F -> cos s !! p = Some r -> mems s !! stack_mem r = Some m -> cIsShareStack r = true ->
  mems s1 = <[stack_mem r := set_occupy m (Some p)]> (mems s) -> (forall x, cos s1 !! x = evicted p m x <$> cos s !! x) ->
  F !! co = Some f -> co <> p -> kept s1 co f.
Proof.
  intros B P M Sh Ms Cs HF N. destruct (bl_kept _ _ B co f HF) as (rc & mc & C & Mc & St & Le & Len & K).
  destruct (decide (stack_mem rc = stack_mem r)) as [E|E].
  - rewrite E, M in Mc. injection Mc as <-. destruct (bl_priv _ _ B co p rc r C P N E) as [Sc _]. rewrite Sc in K. cbn in K.
    exists (evicted p m co rc), (set_occupy m (Some p)). rewrite Cs, Ms, C. split; [done |].
    destruct (evicted_fields p m co rc) as (-> & -> & -> & ->). rewrite Sc.
    rewrite E, lookup_insert_eq. cbn. do 4 (split; [done |]). rewrite bool_decide_false by congruence. cbn. unfold evicted.
    destruct (decide (occupy_co m = Some co)) as [Oc|Oc].
    + rewrite decide_True by done. rewrite bool_decide_true in K by done. cbn in K. by eexists.
    + rewrite decide_False by tauto. rewrite bool_decide_false in K by done. done.
  - assert (evicted p m co rc = rc) as Ev.
    { unfold evicted. rewrite decide_False; [done |]. intros [Oc _]. destruct (bl_occ _ _ B _ _ _ M Oc) as (rc' & C' & E' & _). congruence. }
    exists rc, mc. rewrite Cs, Ms, C. cbn. rewrite Ev, lookup_insert_ne by congruence. done.
Qed.

Lemma blocks_evicted s s1 F p r m : blocks_ok s F -> cos s !! p = Some r -> mems s !! stack_mem r = Some m -> cIsShareStack r = true ->
  mems s1 = <[stack_mem r := set_occupy m (Some p)]> (mems s) -> (forall x, cos s1 !! x = evicted p m x <$> cos s !! x) ->
  blocks_ok s1 (delete p F).
Proof.
  intros B P M Sh Ms Cs. pose proof (bl_sp _ _ B p r m P M Sh) as Sp.
  assert (forall x r1, cos s1 !! x = Some r1 -> exists r0, cos s !! x = Some r0 /\ stack_mem r1 = stack_mem r0 /\ cIsShareStack r1 = cIsShareStack r0 /\ stack_sp r1 = stack_sp r0) as Cb.
  { intros x r1. rewrite Cs. destruct (cos s !! x) as [r0|]; [| done]. intros [= <-]. exists r0. unfold evicted. by case_decide. }
  assert (forall x r0, cos s !! x = Some r0 -> exists r1, cos s1 !! x = Some r1 /\ stack_mem r1 = stack_mem r0 /\ cIsShareStack r1 = cIsShareStack r0 /\ stack_sp r1 = stack_sp r0) as Cf.
  { intros x r0 X. rewrite Cs, X. eexists. split; [done |]. unfold evicted. by case_decide. }
  split.
  - intros co r1 C. destruct (Cb _ _ C) as (r0 & C0 & -> & _). rewrite Ms, lookup_insert. case_decide; [done | by apply (bl_mem _ _ B co)].
  - intros q mq. rewrite Ms, lookup_insert. case_decide; [intros [= <-]; by apply (bl_len _ _ B _ _ M) | apply B].
  - intros co co' r1 r1' C C' N E. destruct (Cb _ _ C) as (r0 & C0 & E0 & -> & _), (Cb _ _ C') as (r0' & C0' & E0' & -> & _).
    apply (bl_priv _ _ B co co'); try done. congruence.
  - intros q mq o. rewrite Ms, lookup_insert. case_decide as E.
    + intros [= <-] [= <-]. subst. destruct (Cf p r P) as (r1 & C1 & E1 & E2 & E3). exists r1. cbn. rewrite E1, E2, E3. done.
    + intros Q Oc. destruct (bl_occ _ _ B _ _ _ Q Oc) as (r0 & C0 & E1 & E2 & E3). destruct (Cf o r0 C0) as (r1 & C1 & G1 & G2 & G3). exists r1. rewrite G1, G2, G3. done.
  - intros co f. rewrite lookup_delete. case_decide; [done |]. intros HF. by eapply (kept_evicted s s1 F p r m).
  - intros co r1 m1 C1. destruct (Cb _ _ C1) as (r0 & C0 & E1 & E2 & E3). rewrite E1, E2, E3, Ms, lookup_insert. case_decide as E; [| by apply (bl_sp _ _ B co)].
    intros [= <-] Sc. cbn. apply (bl_sp _ _ B co); [done | by rewrite <- E | done].
Qed.

Lemma drop_inserts (sp : nat) (b buf : bytes) : sp + length b = length buf -> drop sp (list_inserts sp b buf) = b.
Proof.
  intros L. apply list_eq_same_length with (n := length b); [done | by rewrite length_drop, length_inserts; lia |].
  intros j x y J. rewrite lookup_drop, list_lookup_inserts by lia. replace (sp + j - sp) with j by lia. congruence.
Qed.

(** A running coroutine may write what it likes to its block. *)
Lemma write_ok s F run r m b : blocks_ok s F -> running s F run -> cos s !! run = Some r -> mems s !! stack_mem r = Some m ->
  length b = stack_size m ->
  let s' := set_mems s (<[stack_mem r := set_buffer m b]> (mems s)) in blocks_ok s' F /\ running s' F run.
Proof.
  intros [Bm Bl Bp Bo Bk Bs] [N (r' & m' & C & M & Oc)] C' M' Len. rewrite C' in C. injection C as <-. rewrite M' in M. injection M as <-. split.
  - split; cbn; try done.
    + intros co rc X. rewrite lookup_insert. case_decide; [done | by apply (Bm co)].
    + intros q mq. rewrite lookup_insert. case_decide; [by intros [= <-] | apply Bl].
    + intros q mq o. rewrite lookup_insert. case_decide; [| apply Bo]. subst. intros [= <-] Ho. by apply (Bo _ m o M').
    + intros co f HF. destruct (Bk co f HF) as (rc & mc & X & Mc & St & Le & Lf & K). exists rc. cbn.
      destruct (decide (stack_mem r = stack_mem rc)) as [E|E]; [| exists mc; rewrite lookup_insert_ne; done].
      rewrite <- E, M' in Mc. injection Mc as <-. assert (co <> run) as Nr by congruence. destruct (Bp co run rc r X C' Nr (eq_sym E)) as [Sc Sr].
      exists (set_buffer m b). rewrite <- E, lookup_insert_eq. do 5 (split; [done |]). cbn. rewrite Sc, bool_decide_false in *; [done | | ]; rewrite Oc; congruence.
    + intros co rc mc X. rewrite lookup_insert. case_decide as E; [| by apply (Bs co)]. intros [= <-]. cbn. apply (Bs co); [done | by rewrite <- E].
  - split; [done |]. exists r, (set_buffer m b). cbn. by rewrite lookup_insert_eq.
Qed.

(** [p] has taken over: its stack is in its block when it goes on. *)
Lemma take_over_spec s F p r m : blocks_ok s F -> cos s !! p = Some r -> mems s !! stack_mem r = Some m ->
  exists s1, take_over p s = Some s1 /\ blocks_ok s1 (delete p F) /\ running s1 (delete p F) p /\ same_cos s s1 /\ pCallStack s1 = pCallStack s /\
    (cIsShareStack r = false -> swap_in s1 = Some s1) /\
    forall f, F !! p = Some f -> exists s2 b, swap_in s1 = Some s2 /\ blocks_ok s2 (delete p F) /\ running s2 (delete p F) p /\ same_cos s s2 /\
      pCallStack s2 = pCallStack s /\ stack_from s2 p (stack_sp r) = Some b /\ agree (stack_size m) (stack_sp r) b f.
Proof.
  intros B P M. destruct (cIsShareStack r) eqn:Sh.
  - destruct (take_over_eq s F p r m B P M Sh) as (s1 & E & Ms & Cs & Pc & Pe & Oc).
    pose proof (blocks_evicted s s1 F p r m B P M Sh Ms Cs) as B1. exists s1. split; [done |]. split; [done |].
    assert (cos s1 !! p = Some r) as P1. { rewrite Cs, P. cbn. unfold evicted. rewrite decide_False; [done |]. tauto. }
    assert (mems s1 !! stack_mem r = Some (set_occupy m (Some p))) as M1 by (rewrite Ms; apply lookup_insert_eq).
    assert (running s1 (delete p F) p) as R1 by (split; [apply lookup_delete_eq | by eexists _, _]).
    assert (same_cos s s1) as S1. { intros x. rewrite Cs. destruct (cos s !! x); constructor. apply evicted_same. }
    do 4 (split; [try done; congruence |]). intros f HF. destruct (bl_kept _ _ B p f HF) as (r' & m' & P' & M' & _ & Le & Len & K).
    rewrite P in P'. injection P' as <-. rewrite M in M'. injection M' as <-. rewrite Sh in K. cbn in K. unfold swap_in. rewrite Pe, Oc.
    destruct (decide (occupy_co m = Some p)) as [O|O].
    + rewrite bool_decide_true by done. rewrite bool_decide_true in K by done. cbn in K. exists s1, (drop (stack_sp r) (stack_buffer m)).
      do 5 (split; [done |]). split; [| done]. unfold stack_from. rewrite P1. cbn. rewrite M1. cbn. destruct (Nat.leb_spec (stack_sp r) (stack_size m)); [done | lia].
    + rewrite bool_decide_false by done. rewrite bool_decide_false in K by done. cbn in K. destruct K as (b & Sb & Ag).
      rewrite P1. cbn. rewrite Sb, M1. cbn. pose proof (ag_len _ _ _ _ Ag) as Lb. destruct (Nat.ltb_spec (stack_size m) (stack_sp r + length b)); [lia |].
      unfold upd_mem. rewrite M1. cbn. eexists _, b. split; [done |].
      destruct (write_ok s1 (delete p F) p r (set_occupy m (Some p)) (list_inserts (stack_sp r) b (stack_buffer m)) B1 R1 P1 M1) as [B2 R2].
      { rewrite length_inserts. by apply (bl_len _ _ B _ _ M). }
      do 4 (split; [done |]). split; [| done]. unfold stack_from. cbn. rewrite P1. cbn. rewrite lookup_insert_eq. cbn.
      destruct (Nat.leb_spec (stack_sp r) (stack_size m)); [| lia]. f_equal. apply drop_inserts. pose proof (bl_len _ _ B _ _ M). lia.
  - assert (take_over p s = Some (set_swap s None None)) as E by (unfold take_over; rewrite P; cbn; by rewrite Sh).
    exists (set_swap s None None). split; [done |]. pose proof (blocks_delete s F p B) as B1.
    assert (blocks_ok (set_swap s None None) (delete p F)) as B2 by by destruct B1.
    assert (running (set_swap s None None) (delete p F) p) as R2 by (split; [apply lookup_delete_eq | exists r, m; by rewrite Sh]).
    do 2 (split; [done |]). assert (same_cos s (set_swap s None None)) as S2 by by apply same_cos_refl. do 3 (split; [done |]).
    intros f HF. destruct (bl_kept _ _ B p f HF) as (r' & m' & P' & M' & _ & Le & Len & K). rewrite P in P'. injection P' as <-. rewrite M in M'. injection M' as <-.
    rewrite Sh in K. cbn in K. exists (set_swap s None None), (drop (stack_sp r) (stack_buffer m)). do 5 (split; [done |]). split; [| done].
    unfold stack_from. cbn. rewrite P. cbn. rewrite M. cbn. destruct (Nat.leb_spec (stack_sp r) (stack_size m)); [done | lia].
Qed.

(** ** Giving up control *)

(** [curr] is left at [sp]: its stack is remembered, unless it is the main
    coroutine or has ended. *)
Lemma leave_ok s F curr sp F' r : blocks_ok s F -> running s F curr -> cos s !! curr = Some r -> (cIsMain r = true -> cIsShareStack r = false) ->
  (cIsMain r = false -> is_Some (stack_from s curr sp)) ->
  F' = F \/ (cIsMain r = false /\ cStart r = true /\ exists f f0 m, mems s !! stack_mem r = Some m /\ stack_from s curr sp = Some f0 /\
    agree (stack_size m) sp f0 f /\ F' = <[curr := f]> F) ->
  upd_co curr (fun r => set_sp r sp) s = Some (set_cos s (<[curr := set_sp r sp]> (cos s))) /\
  blocks_ok (set_cos s (<[curr := set_sp r sp]> (cos s))) F'.
Proof.
  intros B [N (r' & m & C & M & Oc)] C' Ms Sf HF. rewrite C' in C. injection C as <-. split; [unfold upd_co; by rewrite C' |].
  assert (cIsShareStack r = true -> sp <= stack_size m) as Le.
  { intros Sh. destruct (cIsMain r) eqn:Mn; [by rewrite (Ms eq_refl) in Sh |]. destruct (Sf eq_refl) as [f E]. unfold stack_from in E. rewrite C' in E. cbn in E.
    rewrite M in E. cbn in E. by destruct (Nat.leb_spec sp (stack_size m)). }
  assert (forall x rx, <[curr := set_sp r sp]> (cos s) !! x = Some rx -> exists r0, cos s !! x = Some r0 /\ stack_mem rx = stack_mem r0 /\
    cIsShareStack rx = cIsShareStack r0) as Cb.
  { intros x rx. rewrite lookup_insert. case_decide; [intros [= <-]; subst; by exists r | intros X; by exists rx]. }
  split; cbn.
  - intros x rx X. destruct (Cb x rx X) as (r0 & X0 & -> & _). by apply (bl_mem _ _ B x).
  - apply B.
  - intros x y rx ry X Y Nxy E. destruct (Cb x rx X) as (r0 & X0 & E0 & ->), (Cb y ry Y) as (r1 & Y0 & E1 & ->). apply (bl_priv _ _ B x y); try done. congruence.
  - intros q mq o Q Ho. destruct (bl_occ _ _ B q mq o Q Ho) as (ro & O & E1 & E2 & E3). rewrite lookup_insert. case_decide as Eo.
    + subst o. rewrite C' in O. injection O as <-. exists (set_sp r sp). do 3 (split; [done |]). cbn. rewrite <- E1, M in Q. injection Q as <-. by apply Le.
    + by exists ro.
  - assert (forall co f, co <> curr -> kept s co f -> kept (set_cos s (<[curr := set_sp r sp]> (cos s))) co f) as Ko.
    { intros co f Nc (rc & mc & X & K). exists rc, mc. cbn. by rewrite lookup_insert_ne. }
    intros co f. destruct HF as [->|(Mn & St & f1 & f0 & m1 & M1 & Ef & Ag & ->)].
    + intros HF. apply Ko; [congruence | by apply (bl_kept _ _ B)].
    + rewrite lookup_insert. case_decide as Eo; [| intros HF; apply Ko; [done | by apply (bl_kept _ _ B)]].
      subst co. intros [= <-]. exists (set_sp r sp), m. cbn. rewrite lookup_insert_eq. do 3 (split; [done |]).
      unfold stack_from in Ef. rewrite C' in Ef. cbn in Ef. rewrite M in Ef. cbn in Ef. destruct (Nat.leb_spec sp (stack_size m)); [| done]. injection Ef as <-.
      rewrite M in M1. injection M1 as <-. split; [done |]. split; [by rewrite <- (ag_len _ _ _ _ Ag), length_drop, (bl_len _ _ B _ _ M) |].
      destruct (cIsShareStack r); [rewrite bool_decide_true by by apply Oc |]; done.
  - intros co rc mc. rewrite lookup_insert. case_decide; [| apply (bl_sp _ _ B co)]. intros [= <-]. cbn. rewrite M. intros [= <-]. done.
Qed.

(** A new coroutine gets its entry word; the others keep their stacks. *)
Lemma make_ok s F r m run : blocks_ok s F -> running s F run -> mems s !! stack_mem r = Some m ->
  exists s', coctx_make r s = Some s' /\ blocks_ok s' F /\ running s' F run /\ cos s' = cos s /\ pCallStack s' = pCallStack s.
Proof.
  intros [Bm Bl Bp Bo Bk Bs] [N (rr & mr & C & M' & Oc)] M. unfold coctx_make, upd_mem. rewrite M. cbn. eexists. split; [done |].
  set (m' := set_buffer m _). split; [| split; [| done]].
  - split; cbn; try done.
    + intros co rc X. rewrite lookup_insert. case_decide; [done | by apply (Bm co)].
    + intros q mq. rewrite lookup_insert. case_decide; [| apply Bl]. intros [= <-]. cbn. rewrite length_inserts. by apply (Bl _ _ M).
    + intros q mq o. rewrite lookup_insert. case_decide; [| apply Bo]. subst. intros [= <-] Ho. by apply (Bo _ m o M).
    + intros co f HF. destruct (Bk co f HF) as (rc & mc & X & Mc & St & Le & Lf & K). exists rc. cbn.
      destruct (decide (stack_mem r = stack_mem rc)) as [E|E]; [| exists mc; rewrite lookup_insert_ne; done].
      rewrite <- E, M in Mc. injection Mc as <-. exists m'. rewrite <- E, lookup_insert_eq. do 5 (split; [done |]). cbn.
      destruct (_ && _); [done |]. etrans; [apply agree_make | done].
    + intros co rc mc X. rewrite lookup_insert. case_decide as E; [| by apply (Bs co)]. intros [= <-]. cbn. apply (Bs co); [done | by rewrite <- E].
  - split; [done |]. destruct (decide (stack_mem r = stack_mem rr)) as [E|E].
    + exists rr, m'. cbn. rewrite <- E, lookup_insert_eq. rewrite <- E, M in M'. injection M' as <-. done.
    + exists rr, mr. cbn. by rewrite lookup_insert_ne.
Qed.

Lemma make_stack_from s s' r co sp f : coctx_make r s = Some s' -> stack_from s co sp = Some f ->
  exists rc m m0 f0, cos s !! co = Some rc /\ mems s' !! stack_mem rc = Some m /\ mems s !! stack_mem rc = Some m0 /\ stack_size m0 = stack_size m /\
    stack_from s' co sp = Some f0 /\ agree (stack_size m) sp f0 f.
Proof.
  unfold coctx_make, upd_mem, stack_from. destruct (mems s !! stack_mem r) as [m|] eqn:M; [| done]. cbn. intros [= <-].
  destruct (cos s !! co) as [rc|] eqn:C; [| done]. cbn. destruct (decide (stack_mem r = stack_mem rc)) as [E|E].
  - rewrite <- E, M. cbn. destruct (sp <=? stack_size m) eqn:Le; [| done]. intros [= <-].
    exists rc, (set_buffer m (list_inserts (entry (stack_size m)) func_addr (stack_buffer m))), m. eexists. cbn. rewrite <- E, lookup_insert_eq. cbn.
    do 4 (split; [done |]). rewrite C. cbn. rewrite <- E, lookup_insert_eq. cbn. rewrite Le. split; [done |]. apply agree_make.
  - destruct (mems s !! stack_mem rc) as [mc|] eqn:Mc; [| done]. cbn. destruct (sp <=? stack_size mc) eqn:Le; [| done]. intros [= <-].
    exists rc, mc, mc. eexists. cbn. rewrite lookup_insert_ne, Mc by done. do 4 (split; [done |]).
    rewrite C. cbn. rewrite lookup_insert_ne, Mc by done. cbn. rewrite Le. split; [done |]. reflexivity.
Qed.

(** Flags of a coroutine are set. *)
Lemma flags_ok s F co r r' run : blocks_ok s F -> running s F run -> cos s !! co = Some r -> stack_mem r' = stack_mem r ->
  cIsShareStack r' = cIsShareStack r -> stack_sp r' = stack_sp r -> save_buffer r' = save_buffer r -> (cStart r = true -> cStart r' = true) ->
  blocks_ok (set_cos s (<[co := r']> (cos s))) F /\ running (set_cos s (<[co := r']> (cos s))) F run.
Proof.
  intros B [N (rr & mr & C & M & Oc)] X E1 E2 E3 E4 E5.
  assert (forall x rx, <[co := r']> (cos s) !! x = Some rx -> exists r0, cos s !! x = Some r0 /\ stack_mem rx = stack_mem r0 /\ cIsShareStack rx = cIsShareStack r0) as Cb.
  { intros x rx. rewrite lookup_insert. case_decide; [intros [= <-]; subst; by exists r | intros Y; by exists rx]. }
  split; [split; cbn | split; [done |]].
  - intros x rx Y. destruct (Cb x rx Y) as (r0 & X0 & -> & _). by apply (bl_mem _ _ B x).
  - apply B.
  - intros x y rx ry Y Y' Nxy E. destruct (Cb x rx Y) as (r0 & X0 & D0 & ->), (Cb y ry Y') as (r1 & Y0 & D1 & ->). apply (bl_priv _ _ B x y); try done. congruence.
  - intros q mq o Q Ho. destruct (bl_occ _ _ B q mq o Q Ho) as (ro & O & D1 & D2 & D3). rewrite lookup_insert. case_decide; [subst | by exists ro].
    rewrite X in O. injection O as <-. exists r'. rewrite E1, E2, E3. done.
  - intros x f HF. destruct (bl_kept _ _ B x f HF) as (rx & mx & Y & Mx & St & K). destruct (decide (co = x)) as [<-|Nx].
    + rewrite X in Y. injection Y as <-. exists r', mx. cbn. rewrite lookup_insert_eq, E1, E2, E3, E4. split; [done |]. split; [done |]. split; [by apply E5 | done].
    + exists rx, mx. cbn. by rewrite lookup_insert_ne.
  - intros x rx mx. rewrite lookup_insert. case_decide; [| apply (bl_sp _ _ B x)]. subst. intros [= <-]. rewrite E1, E2, E3. by apply (bl_sp _ _ B x).
  - destruct (decide (co = run)) as [<-|Nx].
    + rewrite X in C. injection C as <-. exists r', mr. cbn. rewrite lookup_insert_eq, E1, E2. done.
    + exists rr, mr. cbn. by rewrite lookup_insert_ne.
Qed.

(** ** Invariant *)

Record inv (main : Z) (s : stCoRoutineEnv_t) (F : frames) : Prop := {
  iv_blocks : blocks_ok s F;
  iv_run : exists run, last (pCallStack s) = Some run /\ running s F run;
  iv_nodup : NoDup (pCallStack s);
  iv_head : head (pCallStack s) = Some main;
  iv_main : forall co r, cos s !! co = Some r -> cIsMain r = true <-> co = main;
  iv_mainpriv : forall r, cos s !! main = Some r -> cIsShareStack r = false;
  iv_cos : forall co, co ∈ pCallStack s -> exists r, cos s !! co = Some r /\ (co <> main -> cStart r = true /\ cEnd r = false);
  iv_susp : forall co r, cos s !! co = Some r -> co <> main -> cStart r = true -> cEnd r = false -> last (pCallStack s) <> Some co -> is_Some (F !! co) }.

(** Coroutines have the same flags and blocks. *)
Definition same_flag (r r' : stCoRoutine_t) : Prop :=
  cStart r' = cStart r /\ cEnd r' = cEnd r /\ cIsMain r' = cIsMain r /\ cIsShareStack r' = cIsShareStack r /\ stack_mem r' = stack_mem r.
Definition same_flags (s s' : stCoRoutineEnv_t) : Prop := forall x, option_Forall2 same_flag (cos s !! x) (cos s' !! x).

Lemma same_flags_fwd s s' x r : same_flags s s' -> cos s !! x = Some r -> exists r', cos s' !! x = Some r' /\ same_flag r r'.
Proof. intros W X. specialize (W x). rewrite X in W. inversion W as [? j E|]; subst. by exists j. Qed.

Lemma same_flags_bwd s s' x r' : same_flags s s' -> cos s' !! x = Some r' -> exists r, cos s !! x = Some r /\ same_flag r r'.
Proof. intros W X. specialize (W x). rewrite X in W. inversion W as [j ? E|]; subst. by exists j. Qed.

Lemma swap_flags s s0 s1 curr r sp : cos s !! curr = Some r -> cos s0 = <[curr := set_sp r sp]> (cos s) -> same_cos s0 s1 -> same_flags s s1.
Proof.
  intros C E Sm x. specialize (Sm x). rewrite E in Sm. destruct (decide (curr = x)) as [<-|N].
  - rewrite lookup_insert_eq in Sm. rewrite C. inversion Sm as [? ? [b ->]|]; subst. by constructor.
  - rewrite lookup_insert_ne in Sm by done. inversion Sm as [? ? [b ->]|]; subst; by constructor.
Qed.

(** Control goes from [curr] to [p]. *)
Record switched (s : stCoRoutineEnv_t) (F' : frames) (p : Z) (s' : stCoRoutineEnv_t) : Prop := {
  sw_blocks : blocks_ok s' (delete p F');
  sw_run : running s' (delete p F') p;
  sw_flags : same_flags s s';
  sw_stack : pCallStack s' = pCallStack s }.

(** The stack of [p] in [s'] is the one that was remembered. *)
Definition restored (s s' : stCoRoutineEnv_t) (p : Z) (f : bytes) : Prop :=
  exists r m b, cos s !! p = Some r /\ mems s !! stack_mem r = Some m /\ stack_from s' p (stack_sp r) = Some b /\ agree (stack_size m) (stack_sp r) b f.

Definition can_leave (s : stCoRoutineEnv_t) (F : frames) (curr : Z) (sp : nat) (F' : frames) (r : stCoRoutine_t) : Prop :=
  cos s !! curr = Some r /\ (cIsMain r = true -> cIsShareStack r = false) /\ (cIsMain r = false -> is_Some (stack_from s curr sp)) /\
  (F' = F \/ (cIsMain r = false /\ cStart r = true /\ exists f f0 m, mems s !! stack_mem r = Some m /\ stack_from s curr sp = Some f0 /\
    agree (stack_size m) sp f0 f /\ F' = <[curr := f]> F)).

Lemma swap_ok s F curr p sp F' rc rp : blocks_ok s F -> running s F curr -> curr <> p -> can_leave s F curr sp F' rc -> cos s !! p = Some rp ->
  exists s1, swap_out curr p sp s = Some s1 /\ switched s F' p s1 /\ (cIsShareStack rp = false -> swap_in s1 = Some s1) /\
    forall f, F' !! p = Some f -> exists s2, swap_in s1 = Some s2 /\ switched s F' p s2 /\ restored s s2 p f.
Proof.
  intros B Rn N (C & Mp & Sf & HF) P. destruct (leave_ok s F curr sp F' rc B Rn C Mp Sf HF) as [E0 B0]. set (s0 := set_cos s _) in *.
  assert (cos s0 !! p = Some rp) as P0 by (cbn; by rewrite lookup_insert_ne). destruct (bl_mem _ _ B p rp P) as [mp M].
  destruct (take_over_spec s0 F' p rp mp B0 P0 M) as (s1 & E1 & B1 & R1 & S1 & Pc1 & Np & K). exists s1. unfold swap_out. rewrite E0. cbn. split; [done |].
  split; [split; [done | done | exact (swap_flags s s0 s1 curr rc sp C eq_refl S1) | done] |]. split; [done |].
  intros f Hf. destruct (K f Hf) as (s2 & b & E2 & B2 & R2 & S2 & Pc2 & Sf2 & Ag). exists s2. split; [done |].
  split; [split; [done | done | exact (swap_flags s s0 s2 curr rc sp C eq_refl S2) | done] |]. by exists rp, mp, b.
Qed.

(** The invariant holds when control has passed to [p]. *)
Lemma inv_switched main s F' p s' : switched s F' p s' -> NoDup (pCallStack s) -> head (pCallStack s) = Some main -> last (pCallStack s) = Some p ->
  (forall co r, cos s !! co = Some r -> cIsMain r = true <-> co = main) -> (forall r, cos s !! main = Some r -> cIsShareStack r = false) ->
  (forall co, co ∈ pCallStack s -> exists r, cos s !! co = Some r /\ (co <> main -> cStart r = true /\ cEnd r = false)) ->
  (forall co r, cos s !! co = Some r -> co <> main -> cStart r = true -> cEnd r = false -> co <> p -> is_Some (F' !! co)) ->
  inv main s' (delete p F').
Proof.
  intros [B R Fl Pc] ND Hd Ls Mn Mp Cs Su. split; try done; rewrite ?Pc; try done.
  - by exists p.
  - intros co r' C. destruct (same_flags_bwd _ _ co r' Fl C) as (r & C0 & _ & _ & -> & _). by apply (Mn co).
  - intros r' C. destruct (same_flags_bwd _ _ main r' Fl C) as (r & C0 & _ & _ & _ & -> & _). by apply Mp.
  - intros co In. destruct (Cs co In) as (r & C & St). destruct (same_flags_fwd _ _ co r Fl C) as (r' & C' & E1 & E2 & _). exists r'. split; [done |]. by rewrite E1, E2.
  - intros co r' C Nm St En Nl. destruct (same_flags_bwd _ _ co r' Fl C) as (r & C0 & E1 & E2 & _). rewrite lookup_delete_ne by congruence.
    apply (Su co r); congruence.
Qed.

Lemma remember_leave main s F curr sp F' : inv main s F -> last (pCallStack s) = Some curr -> remember curr sp s F = Some F' ->
  exists r, can_leave s F curr sp F' r /\ running s F curr.
Proof.
  intros I Ls Re. destruct (iv_run _ _ _ I) as (run & Ls' & Rn). rewrite Ls in Ls'. injection Ls' as <-.
  destruct (iv_cos _ _ _ I curr) as (r & C & St); [by apply last_Some_elem_of |]. exists r. split; [| done]. split; [done |].
  unfold remember in Re. rewrite C in Re. cbn in Re. pose proof (iv_main _ _ _ I curr r C) as Mn. split; [| split].
  - intros M%Mn. subst. by apply (iv_mainpriv _ _ _ I).
  - intros M. rewrite M in Re. destruct (stack_from s curr sp); done.
  - destruct (cIsMain r) eqn:M; [left; congruence | right]. split; [done |]. destruct (stack_from s curr sp) as [f|] eqn:Sf; [| done]. cbn in Re. injection Re as <-.
    split; [apply St; intros E; apply Mn in E; congruence |]. destruct Rn as [_ (r' & m & C' & M' & _)]. rewrite C in C'. injection C' as <-.
    exists f, f, m. repeat split; done.
Qed.

(** Before the switch to a coroutine that has not run, its entry is made; the
    coroutine that calls can be left as before. *)
Lemma start_ok main s F curr sp F' rc co r : inv main s F -> last (pCallStack s) = Some curr -> running s F curr -> can_leave s F curr sp F' rc ->
  cos s !! co = Some r -> curr <> co ->
  exists s1, (if cStart r then Some s else s ← coctx_make r s; upd_co co (fun r => set_started r true) s) = Some s1 /\
    blocks_ok s1 F /\ running s1 F curr /\ can_leave s1 F curr sp F' rc /\ cos s1 = <[co := set_started r true]> (cos s) /\ pCallStack s1 = pCallStack s /\
    (cStart r = true -> s1 = s).
Proof.
  intros I Ls Rn Cl C N. destruct (cStart r) eqn:St.
  - exists s. split; [done |]. do 3 (split; [by try apply I |]). split; [| done]. symmetry. apply insert_id. rewrite C. f_equal. by destruct r; cbn in St; subst.
  - destruct (bl_mem _ _ (iv_blocks _ _ _ I) co r C) as [m M]. destruct (make_ok s F r m curr (iv_blocks _ _ _ I) Rn M) as (s1 & E1 & B1 & R1 & Cs1 & Pc1).
    rewrite E1. cbn. unfold upd_co. rewrite Cs1, C. cbn. eexists. split; [done |].
    destruct (flags_ok s1 F co r (set_started r true) curr B1 R1) as [B2 R2]; try done; [by rewrite Cs1 |].
    rewrite Cs1 in B2, R2. split; [done |]. split; [done |]. split; [| repeat split; done].
    destruct Cl as (Cc & Mp & Sf & HF). 
    assert (forall f, stack_from s curr sp = Some f -> exists m m0 f0, mems s1 !! stack_mem rc = Some m /\ mems s !! stack_mem rc = Some m0 /\ stack_size m0 = stack_size m /\
      stack_from (set_cos s1 (<[co := set_started r true]> (cos s))) curr sp = Some f0 /\ agree (stack_size m) sp f0 f) as Tr.
    { intros f E. destruct (make_stack_from s s1 r curr sp f E1 E) as (rc' & m' & m0 & f0 & C' & M' & M0 & Sz & Sf0 & Ag). rewrite Cc in C'. injection C' as <-.
      exists m', m0, f0. do 3 (split; [done |]). split; [| done]. unfold stack_from in *. cbn. rewrite lookup_insert_ne, Cc by done. by rewrite Cs1, Cc in Sf0. }
    split; [cbn; by rewrite lookup_insert_ne |]. split; [done |]. split.
    + intros Mn. destruct (Sf Mn) as [f E]. destruct (Tr f E) as (m' & m0 & f0 & _ & _ & _ & -> & _). done.
    + destruct HF as [->|(Mn & Stc & f & f0 & m' & M' & Sf0 & Ag & ->)]; [by left | right]. split; [done |]. split; [done |].
      destruct (Tr f0 Sf0) as (m2 & m0 & f2 & M2 & M0 & Sz & Sf2 & Ag2). exists f, f2, m2. split; [done |]. split; [done |]. split; [| done].
      rewrite M0 in M'. injection M' as <-. etrans; [exact Ag2 |]. by rewrite <- Sz.
Qed.

Lemma remember_other curr sp s F F' co : remember curr sp s F = Some F' -> co <> curr -> F' !! co = F !! co.
Proof.
  unfold remember. destruct (cos s !! curr) as [r|]; [| done]. cbn. destruct (cIsMain r); [congruence |].
  destruct (stack_from s curr sp) as [f|]; [| done]. cbn. intros [= <-] N. by apply lookup_insert_ne.
Qed.

Lemma remember_self main s F F' curr sp : inv main s F -> remember curr sp s F = Some F' -> curr <> main -> is_Some (F' !! curr).
Proof.
  unfold remember. intros I. destruct (cos s !! curr) as [r|] eqn:C; [| done]. cbn. destruct (cIsMain r) eqn:M.
  - intros _ N. by apply (iv_main _ _ _ I curr r C) in M.
  - destruct (stack_from s curr sp) as [f|]; [| done]. cbn. intros [= <-] _. by rewrite lookup_insert_eq.
Qed.

Lemma resume_inv main s F curr co sp F' r s2 s' : inv main s F -> last (pCallStack s) = Some curr -> co ∉ pCallStack s ->
  remember curr sp s F = Some F' -> cos s !! co = Some r -> cEnd r = false ->
  cos s2 = <[co := set_started r true]> (cos s) -> pCallStack s2 = pCallStack s ++ [co] -> switched s2 F' co s' -> inv main s' (delete co F').
Proof.
  intros I Ls Nin Re C En Cs Pc Sw. pose proof (iv_head _ _ _ I) as Hd. apply (inv_switched main s2 F' co s' Sw); rewrite ?Cs, ?Pc.
  - apply NoDup_app. split; [apply I |]. split; [set_solver | apply NoDup_singleton].
  - destruct (pCallStack s); done.
  - apply last_snoc.
  - intros x rx. rewrite lookup_insert. case_decide; [| apply (iv_main _ _ _ I x)]. subst. intros [= <-]. exact (iv_main _ _ _ I x r C).
  - intros rx. rewrite lookup_insert. case_decide; [| apply (iv_mainpriv _ _ _ I)]. subst. intros [= <-]. exact (iv_mainpriv _ _ _ I r C).
  - intros x [X|X]%elem_of_app.
    + destruct (iv_cos _ _ _ I x X) as (rx & Cx & St). exists rx. rewrite lookup_insert_ne; [done | congruence].
    + apply list_elem_of_singleton in X as ->. exists (set_started r true). by rewrite lookup_insert_eq.
  - intros x rx. rewrite lookup_insert. case_decide; [congruence |]. intros X Nm St Ex _. destruct (decide (x = curr)) as [->|Nc]; [by eapply remember_self |].
    rewrite (remember_other curr sp s F F' x Re Nc). apply (iv_susp _ _ _ I x rx); congruence.
Qed.

Lemma resume_ok main s F curr co sp F' r : inv main s F -> last (pCallStack s) = Some curr -> co ∉ pCallStack s -> remember curr sp s F = Some F' ->
  cos s !! co = Some r -> cEnd r = false -> length (pCallStack s) < iMaxCallStack ->
  exists s', co_resume co sp s = Some s' /\ inv main s' (delete co F') /\ pCallStack s' = pCallStack s ++ [co] /\
    forall f, F !! co = Some f -> restored s s' co f.
Proof.
  intros I Ls Nin Re C En Len. destruct (remember_leave main s F curr sp F' I Ls Re) as (rc & Cl & Rn).
  assert (curr <> co) as N by (intros ->; by apply last_Some_elem_of in Ls).
  destruct (start_ok main s F curr sp F' rc co r I Ls Rn Cl C N) as (s1 & E1 & B1 & R1 & Cl1 & Cs1 & Pc1 & Id).
  unfold co_resume. rewrite Ls. cbn. rewrite C. cbn. rewrite E1. cbn. rewrite Pc1. destruct (Nat.leb_spec iMaxCallStack (length (pCallStack s))); [lia |].
  set (s2 := set_stack s1 _). assert (blocks_ok s2 F) as B2 by by destruct B1. assert (running s2 F curr) as R2 by done. assert (can_leave s2 F curr sp F' rc) as Cl2 by done.
  destruct (swap_ok s2 F curr co sp F' rc (set_started r true) B2 R2 N Cl2) as (s3 & E3 & Sw & _ & K); [cbn; rewrite Cs1; apply lookup_insert_eq |].
  rewrite E3. cbn. rewrite En.
  assert (forall s', switched s2 F' co s' -> inv main s' (delete co F')) as Inv.
  { intros s' Sw'. by apply (resume_inv main s F curr co sp F' r s2). }
  destruct (cStart r) eqn:St.
  - specialize (Id eq_refl). subst s1. destruct (iv_susp _ _ _ I co r C) as [f Hf]; try done.
    { intros ->. apply Nin. pose proof (iv_head _ _ _ I) as Hd. destruct (pCallStack s); [done |]. injection Hd as ->. by left. }
    { congruence. }
    destruct (K f) as (s4 & E4 & Sw4 & Rs); [by rewrite (remember_other curr sp s F F' co Re) |]. exists s4. split; [done |]. split; [by apply Inv |].
    split; [by rewrite (sw_stack _ _ _ _ Sw4) |]. intros f' Hf'. by rewrite Hf in Hf'; injection Hf' as <-.
  - exists s3. split; [done |]. split; [by apply Inv |]. split; [by rewrite (sw_stack _ _ _ _ Sw) |].
    intros f Hf. destruct (bl_kept _ _ (iv_blocks _ _ _ I) co f Hf) as (r' & _ & C' & _ & St' & _). congruence.
Qed.

(** Control goes back to the coroutine that resumed the running one. *)
Lemma back_inv main s F F' curr back pre s0 s' : inv main s F -> pCallStack s = pre ++ [back; curr] ->
  cos s0 = cos s \/ (exists r, cos s !! curr = Some r /\ cos s0 = <[curr := set_ended r true]> (cos s)) -> pCallStack s0 = pre ++ [back] ->
  (forall co, co <> curr -> F' !! co = F !! co) -> (cos s0 = cos s -> curr <> main -> is_Some (F' !! curr)) ->
  switched s0 F' back s' -> inv main s' (delete back F').
Proof.
  intros I Pc Cs Pc0 Fo Fc Sw. pose proof (iv_head _ _ _ I) as Hd. pose proof (iv_nodup _ _ _ I) as ND. rewrite Pc in Hd, ND.
  assert (pre ++ [back; curr] = (pre ++ [back]) ++ [curr]) as Ea by by rewrite <- app_assoc. rewrite Ea in ND. apply NoDup_app in ND as (ND & Nin & _).
  assert (forall x r0, cos s0 !! x = Some r0 -> exists r, cos s !! x = Some r /\ cIsMain r0 = cIsMain r /\ cIsShareStack r0 = cIsShareStack r /\ cStart r0 = cStart r /\
    (cEnd r0 = false -> cEnd r = false /\ (x = curr -> cos s0 = cos s))) as Cb.
  { intros x r0. destruct Cs as [->|(rc & C & ->)]; [intros X; exists r0; naive_solver |]. rewrite lookup_insert. case_decide; [| intros X; exists r0; naive_solver].
    intros [= <-]. subst. exists rc. split; [done |]. do 3 (split; [done |]). done. }
  apply (inv_switched main s0 F' back s' Sw); rewrite ?Pc0.
  - done.
  - by destruct pre.
  - apply last_snoc.
  - intros x r0 X. destruct (Cb x r0 X) as (r & X0 & -> & _). by apply (iv_main _ _ _ I x).
  - intros r0 X. destruct (Cb main r0 X) as (r & X0 & _ & -> & _). by apply (iv_mainpriv _ _ _ I).
  - intros x X. destruct (iv_cos _ _ _ I x) as (r & C & St); [rewrite Pc, Ea; set_solver |]. assert (x <> curr) as Nx by (intros ->; by apply (Nin curr X), list_elem_of_singleton).
    exists r. split; [| done]. destruct Cs as [->|(rc & _ & ->)]; [done | by rewrite lookup_insert_ne].
  - intros x r0 X Nm St En Nb. destruct (Cb x r0 X) as (r & X0 & _ & _ & St' & En'). destruct (En' En) as [En0 Ec]. destruct (decide (x = curr)) as [->|Nc]; [auto |].
    rewrite Fo by done. apply (iv_susp _ _ _ I x r); try done; [congruence |]. rewrite Pc, Ea, last_snoc. congruence.
Qed.

(** What [co_yield_env] does from a state [s0] in which [curr] can be left. *)
Lemma yield_swap main s F s0 F' curr back pre sp rc : inv main s F -> pCallStack s = pre ++ [back; curr] -> pCallStack s0 = pCallStack s ->
  (forall x, x <> curr -> cos s0 !! x = cos s !! x) -> mems s0 = mems s -> (forall co, co <> curr -> F' !! co = F !! co) ->
  blocks_ok s0 F -> running s0 F curr -> can_leave s0 F curr sp F' rc ->
  exists s', co_yield_env sp s0 = Some s' /\ switched (set_stack s0 (pre ++ [back])) F' back s' /\ forall f, F !! back = Some f -> restored s s' back f.
Proof.
  intros I Pc Pc0 Cs Ms Fo B Rn Cl. pose proof (iv_nodup _ _ _ I) as ND. rewrite Pc in ND.
  assert (curr <> back) as N. { intros ->. apply NoDup_app in ND as (_ & _ & [X _]%NoDup_cons). set_solver. }
  assert (length (pCallStack s0) = length pre + 2) as Ln by (rewrite Pc0, Pc, length_app; done).
  unfold co_yield_env. rewrite Ln. destruct (Nat.ltb_spec (length pre + 2) 2); [lia |].
  replace (length pre + 2 - 2) with (length pre + 0) by lia. replace (length pre + 2 - 1) with (length pre + 1) by lia.
  rewrite Pc0, Pc, !lookup_app_r by lia. replace (length pre + 0 - length pre) with 0 by lia. replace (length pre + 1 - length pre) with 1 by lia. cbn.
  rewrite take_app_add. cbn. set (s1 := set_stack s0 _).
  destruct (iv_cos _ _ _ I back) as (rb & Cb & Sb); [rewrite Pc; set_solver |]. rewrite <- Cs in Cb by congruence.
  assert (blocks_ok s1 F) as B1 by by destruct B.
  destruct (swap_ok s1 F curr back sp F' rc rb B1 Rn N Cl Cb) as (s2 & E2 & Sw & Np & K). rewrite E2. cbn.
  destruct (decide (back = main)) as [->|Nm].
  - exists s2. rewrite Cs in Cb by congruence. split; [apply Np, (iv_mainpriv _ _ _ I rb Cb) |]. split; [done |]. intros f Hf.
    destruct (K f) as (s3 & E3 & _ & Rs); [by rewrite Fo by congruence |]. rewrite (Np (iv_mainpriv _ _ _ I rb Cb)) in E3. injection E3 as <-.
    destruct Rs as (r & m & b & X & Y & Z). exists r, m, b. rewrite <- Cs, <- Ms by congruence. done.
  - destruct (Sb Nm) as [St En]. rewrite Cs in Cb by congruence. destruct (iv_susp _ _ _ I back rb Cb Nm St En) as [f Hf].
    { rewrite Pc. change [back; curr] with ([back] ++ [curr]). rewrite app_assoc, last_snoc. congruence. }
    destruct (K f) as (s3 & E3 & Sw3 & Rs); [by rewrite Fo by congruence |]. exists s3. split; [done |]. split; [done |]. intros f' Hf'. rewrite Hf in Hf'. injection Hf' as <-.
    destruct Rs as (r & m & b & X & Y & Z). exists r, m, b. rewrite <- Cs, <- Ms by congruence. done.
Qed.

Lemma yield_ok main s F F' curr back pre sp : inv main s F -> pCallStack s = pre ++ [back; curr] -> remember curr sp s F = Some F' ->
  exists s', co_yield_env sp s = Some s' /\ inv main s' (delete back F') /\ pCallStack s' = pre ++ [back] /\
    forall f, F !! back = Some f -> restored s s' back f.
Proof.
  intros I Pc Re. assert (last (pCallStack s) = Some curr) as Ls by (rewrite Pc; change [back; curr] with ([back] ++ [curr]); by rewrite app_assoc, last_snoc).
  destruct (remember_leave main s F curr sp F' I Ls Re) as (rc & Cl & Rn).
  assert (forall co, co <> curr -> F' !! co = F !! co) as Fo by (intros; by eapply remember_other).
  destruct (yield_swap main s F s F' curr back pre sp rc I Pc eq_refl (fun _ _ => eq_refl) eq_refl Fo (iv_blocks _ _ _ I) Rn Cl) as (s' & E & Sw & Rs).
  exists s'. split; [done |]. split; [| split; [apply (sw_stack _ _ _ _ Sw) | done]].
  apply (back_inv main s F F' curr back pre (set_stack s (pre ++ [back])) s' I Pc); try done; [by left |]. intros _ Nm. by eapply remember_self.
Qed.

Lemma end_ok main s F curr back pre sp : inv main s F -> pCallStack s = pre ++ [back; curr] -> is_Some (stack_from s curr sp) ->
  exists s', co_end sp s = Some s' /\ inv main s' (delete back F) /\ pCallStack s' = pre ++ [back] /\
    forall f, F !! back = Some f -> restored s s' back f.
Proof.
  intros I Pc Sf. assert (last (pCallStack s) = Some curr) as Ls by (rewrite Pc; change [back; curr] with ([back] ++ [curr]); by rewrite app_assoc, last_snoc).
  destruct (iv_run _ _ _ I) as (run & Ls' & Rn). rewrite Ls in Ls'. injection Ls' as <-.
  destruct (iv_cos _ _ _ I curr) as (r & C & St); [by apply last_Some_elem_of |].
  destruct (flags_ok s F curr r (set_ended r true) curr (iv_blocks _ _ _ I) Rn C) as [B0 R0]; try done. set (s0 := set_cos s _) in *.
  assert (can_leave s0 F curr sp F (set_ended r true)) as Cl.
  { split; [apply lookup_insert_eq |]. split; [| split; [| by left]]; cbn.
    - intros M%(iv_main _ _ _ I curr r C). subst. by apply (iv_mainpriv _ _ _ I).
    - intros _. unfold stack_from in *. cbn. rewrite lookup_insert_eq. rewrite C in Sf. done. }
  destruct (yield_swap main s F s0 F curr back pre sp (set_ended r true) I Pc eq_refl) as (s' & E & Sw & Rs); try done.
  { intros x N. cbn. by rewrite lookup_insert_ne. }
  exists s'. unfold co_end. rewrite Ls. cbn. unfold upd_co. rewrite C. cbn. split; [done |]. split; [| split; [apply (sw_stack _ _ _ _ Sw) | done]].
  apply (back_inv main s F F curr back pre (set_stack s0 (pre ++ [back])) s' I Pc); try done; [right; by exists r |].
  cbn. intros Ec Nm. destruct (St Nm) as [_ En]. assert (cos s !! curr = Some (set_ended r true)) as C' by (rewrite <- Ec; apply lookup_insert_eq).
  rewrite C in C'. injection C' as C'. rewrite C' in En. done.
Qed.

(** ** Other steps *)

Lemma inv_env main s F s' : inv main s F -> blocks_ok s' F -> (forall run, running s F run -> running s' F run) -> cos s' = cos s -> pCallStack s' = pCallStack s -> inv main s' F.
Proof.
  intros [B (run & Ls & Rn) ND Hd Mn Mp Cs Su] B' R' Ec Ep. split; rewrite ?Ec, ?Ep; try done. exists run. auto.
Qed.

Lemma alloc_ok main s F p b : inv main s F -> mems s !! p = None -> inv main (co_alloc_stackmem p b s) F.
Proof.
  intros I Np. pose proof (iv_blocks _ _ _ I) as [Bm Bl Bp Bo Bk Bs].
  assert (forall x r, cos s !! x = Some r -> stack_mem r <> p) as Ne. { intros x r X E. destruct (Bm x r X) as [m M]. congruence. }
  apply (inv_env main s F); try done.
  - split; cbn; try done.
    + intros x r X. rewrite lookup_insert. case_decide; [done | by apply (Bm x)].
    + intros q m. rewrite lookup_insert. case_decide; [by intros [= <-] | apply Bl].
    + intros q m o. rewrite lookup_insert. case_decide; [by intros [= <-] | apply Bo].
    + intros x f HF. destruct (Bk x f HF) as (r & m & X & M & K). exists r, m. cbn. rewrite lookup_insert_ne by (intros ->; by apply (Ne x r X)). done.
    + intros x r m X. rewrite lookup_insert. case_decide; [by destruct (Ne x r X) | by apply (Bs x)].
  - intros run [N (r & m & X & M & K)]. split; [done |]. exists r, m. cbn. rewrite lookup_insert_ne by (intros ->; by apply (Ne run r X)). done.
Qed.

Lemma create_ok main s F co p share s' : inv main s F -> cos s !! co = None -> is_Some (mems s !! p) ->
  (forall co' r', cos s !! co' = Some r' -> stack_mem r' = p -> share = true /\ cIsShareStack r' = true) ->
  co_create_env co p share s = Some s' -> inv main s' F.
Proof.
  intros [[Bm Bl Bp Bo Bk Bs] (run & Ls & [Nr (rr & mr & Cr & Mr & Or)]) ND Hd Mn Mp Cs Su] N Mp' Sh [= <-].
  assert (forall x r, cos s !! x = Some r -> x <> co) as Ne by congruence.
  assert (co <> main) as Nm. { intros ->. destruct (Cs main) as (r & C & _); [destruct (pCallStack s); [done |]; injection Hd as ->; by left | congruence]. }
  split; cbn; try done.
  - split; cbn; try done.
    + intros x r. rewrite lookup_insert. case_decide; [by intros [= <-] | apply Bm].
    + intros x y r r'. rewrite !lookup_insert. repeat case_decide; subst; [congruence | | | by apply Bp].
      * intros [= <-] Y _ E. cbn in *. destruct (Sh y r' Y (eq_sym E)) as [-> ->]. done.
      * intros X [= <-] _ E. cbn in *. destruct (Sh x r X E) as [-> ->]. done.
    + intros q m o Q Ho. destruct (Bo q m o Q Ho) as (r & O & K). exists r. rewrite lookup_insert_ne; [done | congruence].
    + intros x f HF. destruct (Bk x f HF) as (r & m & X & K). exists r, m. cbn. rewrite lookup_insert_ne; [done | congruence].
    + intros x r m. rewrite lookup_insert. case_decide; [intros [= <-]; cbn; lia | apply Bs].
  - exists run. split; [done |]. split; [done |]. exists rr, mr. cbn. rewrite lookup_insert_ne; [done | congruence].
  - intros x r. rewrite lookup_insert. case_decide; [intros [= <-]; subst; by split | apply Mn].
  - intros r. rewrite lookup_insert_ne by done. apply Mp.
  - intros x X. destruct (Cs x X) as (r & C & K). exists r. rewrite lookup_insert_ne; [done | congruence].
  - intros x r. rewrite lookup_insert. case_decide; [by intros [= <-] | apply Su].
Qed.

(** Coroutine [co] gives up its block and is forgotten. *)
Lemma unoccupy_ok s F co q m : blocks_ok s F -> F !! co = None -> mems s !! q = Some m -> occupy_co m = Some co ->
  let s' := set_mems s (<[q := set_occupy m None]> (mems s)) in
  blocks_ok s' F /\ (forall run, run <> co -> running s F run -> running s' F run).
Proof.
  intros [Bm Bl Bp Bo Bk Bs] Nc Q Oc. destruct (Bo q m co Q Oc) as (rc & Cc & Qc & _). split; [split; cbn; try done |].
  - intros x r X. rewrite lookup_insert. case_decide; [done | by apply (Bm x)].
  - intros p mp. rewrite lookup_insert. case_decide; [intros [= <-]; exact (Bl q m Q) | apply Bl].
  - intros p mp o. rewrite lookup_insert. case_decide; [by intros [= <-] | apply Bo].
  - intros x f HF. destruct (Bk x f HF) as (r & mx & X & M & St & Le & Len & K). exists r. cbn.
    destruct (decide (q = stack_mem r)) as [E|E]; [| exists mx; by rewrite lookup_insert_ne].
    rewrite <- E, Q in M. injection M as <-. exists (set_occupy m None). rewrite <- E, lookup_insert_eq. do 5 (split; [done |]). cbn.
    destruct (Bp x co r rc X Cc) as [Sx _]; [congruence | congruence |]. rewrite Sx in *. rewrite bool_decide_false in * by congruence. done.
  - intros x r mx X. rewrite lookup_insert. case_decide as E; [| by apply (Bs x)]. intros [= <-]. cbn. apply (Bs x); [done | by rewrite <- E].
  - intros run N [Nr (r & mr & X & M & K)]. split; [done |]. destruct (decide (q = stack_mem r)) as [E|E].
    + exists r, (set_occupy m None). cbn. rewrite <- E, lookup_insert_eq. rewrite <- E, Q in M. injection M as <-. split; [done |]. split; [done |]. intros Sh. specialize (K Sh). congruence.
    + exists r, mr. cbn. by rewrite lookup_insert_ne.
Qed.

Lemma release_ok s F co r s' : blocks_ok s F -> F !! co = None -> cos s !! co = Some r -> release_block co r s = Some s' ->
  blocks_ok s' F /\ (forall run, run <> co -> running s F run -> running s' F run) /\ cos s' = cos s /\ pCallStack s' = pCallStack s /\
  (forall q m, mems s' !! q = Some m -> occupy_co m <> Some co).
Proof.
  unfold release_block. intros B Nc C. set (s1 := if bool_decide _ then _ else _).
  assert (mems s1 = mems s /\ cos s1 = cos s /\ pCallStack s1 = pCallStack s) as (E1 & E2 & E3) by (unfold s1; by case_bool_decide).
  assert (blocks_ok s1 F) as B1. { destruct B. split; unfold kept in *; by rewrite ?E1, ?E2. }
  assert (forall run, running s F run -> running s1 F run) as R1. { intros run. unfold running. by rewrite E1, E2. }
  destruct (mems s1 !! stack_mem r) as [m|] eqn:M; [| done]. cbn. case_bool_decide as Oc.
  - unfold upd_mem. rewrite M. cbn. intros [= <-]. destruct (unoccupy_ok s1 F co _ m B1 Nc M Oc) as [B2 R2]. split; [done |]. split; [eauto |]. do 2 (split; [done |]).
    intros q mq. cbn. rewrite lookup_insert. case_decide as E; [by intros [= <-] |]. intros Q O. destruct (bl_occ _ _ B1 q mq co Q O) as (r' & C' & E' & _). congruence.
  - intros [= <-]. split; [done |]. split; [auto |]. do 2 (split; [done |]). intros q mq Q O. destruct (bl_occ _ _ B1 q mq co Q O) as (r' & C' & E' & _). congruence.
Qed.

Lemma gone_ok main s F co s' : inv main s F -> co ∉ pCallStack s -> blocks_ok s' (delete co F) ->
  (forall run, run <> co -> running s (delete co F) run -> running s' (delete co F) run) -> pCallStack s' = pCallStack s ->
  (forall x, x <> co -> cos s' !! x = cos s !! x) -> (forall r, cos s' !! co = Some r -> cStart r = false /\ cIsMain r = false) -> inv main s' (delete co F).
Proof.
  intros [B (run & Ls & Rn) ND Hd Mn Mp Cs Su] Nin B' R' Pc Cx Co. assert (co <> main) as Nm by (intros ->; destruct (pCallStack s); [done |]; injection Hd as ->; set_solver).
  assert (run <> co) as Nr by (intros ->; by apply last_Some_elem_of in Ls).
  split; rewrite ?Pc; try done.
  - exists run. split; [done |]. apply R'; [done |]. destruct Rn as [N K]. split; [by rewrite lookup_delete_ne | done].
  - intros x r X. destruct (decide (x = co)) as [->|N]; [destruct (Co r X); split; congruence | rewrite Cx in X by done; by apply (Mn x)].
  - intros r. rewrite Cx by done. apply Mp.
  - intros x X. destruct (Cs x X) as (r & C & K). exists r. rewrite Cx; [done | congruence].
  - intros x r X N St En Nl. destruct (decide (x = co)) as [->|N']; [destruct (Co r X); congruence |]. rewrite lookup_delete_ne by congruence. rewrite Cx in X by done. by apply (Su x r).
Qed.

Lemma reset_ok main s F co s' : inv main s F -> co ∉ pCallStack s -> co_reset co s = Some s' -> inv main s' (delete co F).
Proof.
  unfold co_reset. intros I Nin. destruct (cos s !! co) as [r|] eqn:C; [| done]. cbn. destruct (negb (cStart r) || cIsMain r) eqn:G.
  { intros [= <-]. assert (F !! co = None) as N; [| rewrite delete_id; done]. destruct (F !! co) as [f|] eqn:HF; [| done].
    destruct (bl_kept _ _ (iv_blocks _ _ _ I) co f HF) as (r' & _ & C' & _ & St & _). rewrite C in C'. injection C' as <-. rewrite St in G. cbn in G.
    apply (iv_main _ _ _ I co r C) in G. subst. destruct Nin. pose proof (iv_head _ _ _ I) as Hd. destruct (pCallStack s); [done |]. injection Hd as ->. by left. }
  apply orb_false_iff in G as [_ Mn]. unfold upd_co. rewrite C. cbn. set (r' := set_save _ _). set (s1 := set_cos s _). intros Rl.
  pose proof (blocks_delete s F co (iv_blocks _ _ _ I)) as [Bm Bl Bp Bo Bk Bs].
  assert (forall x rx, cos s1 !! x = Some rx -> exists r0, cos s !! x = Some r0 /\ stack_mem rx = stack_mem r0 /\ cIsShareStack rx = cIsShareStack r0 /\ stack_sp rx = stack_sp r0) as Cb.
  { intros x rx. cbn. rewrite lookup_insert. case_decide; [intros [= <-]; subst; by exists r | intros X; by exists rx]. }
  assert (blocks_ok s1 (delete co F)) as B1.
  { split; try done.
    - intros x rx X. destruct (Cb x rx X) as (r0 & X0 & -> & _). by apply (Bm x).
    - intros x y rx ry X Y N E. destruct (Cb x rx X) as (r0 & X0 & D0 & -> & _), (Cb y ry Y) as (r1 & Y0 & D1 & -> & _). apply (Bp x y); try done. congruence.
    - intros q mq o Q Ho. destruct (Bo q mq o Q Ho) as (ro & O & D). cbn. rewrite lookup_insert. case_decide; [subst | by exists ro]. rewrite C in O. injection O as <-. by exists r'.
    - intros x f HF. destruct (Bk x f HF) as (rx & mx & X & K). exists rx, mx. cbn. rewrite lookup_insert_ne; [done |]. intros <-. by rewrite lookup_delete_eq in HF.
    - intros x rx mx X. destruct (Cb x rx X) as (r0 & X0 & -> & -> & ->). by apply (Bs x). }
  destruct (release_ok s1 (delete co F) co r' s' B1 (lookup_delete_eq _ _)) as (B2 & R2 & Ec & Ep & _); [apply lookup_insert_eq | done |].
  apply (gone_ok main s F co s' I Nin B2); rewrite ?Ec, ?Ep; try done.
  - intros run N [Nr (rr & mr & X & K)]. apply R2; [done |]. split; [done |]. exists rr, mr. cbn. by rewrite lookup_insert_ne.
  - intros x N. cbn. by rewrite lookup_insert_ne.
  - intros rx. cbn. rewrite lookup_insert_eq. by intros [= <-].
Qed.

Lemma free_ok main s F co s' : inv main s F -> co ∉ pCallStack s -> co_free co s = Some s' -> inv main s' (delete co F).
Proof.
  unfold co_free. intros I Nin. destruct (cos s !! co) as [r|] eqn:C; [| done]. cbn. pose proof (blocks_delete s F co (iv_blocks _ _ _ I)) as B0.
  destruct (cIsShareStack r) eqn:Sh.
  - destruct (release_block co r s) as [s1|] eqn:Rl; [| done]. cbn. intros [= <-].
    destruct (release_ok s (delete co F) co r s1 B0 (lookup_delete_eq _ _) C Rl) as ([Bm Bl Bp Bo Bk Bs] & R1 & Ec & Ep & No).
    apply (gone_ok main s F co _ I Nin); cbn; rewrite ?Ec, ?Ep; try done.
    + split; cbn; rewrite ?Ec in *; try done.
      * intros x rx. rewrite lookup_delete. case_decide; [done | apply Bm].
      * intros x y rx ry. rewrite !lookup_delete. repeat case_decide; try done. apply Bp.
      * intros q mq o Q Ho. destruct (Bo q mq o Q Ho) as (ro & O & D). exists ro. rewrite lookup_delete_ne; [done |]. intros <-. by apply (No q mq Q).
      * intros x f HF. destruct (Bk x f HF) as (rx & mx & X & K). exists rx, mx. cbn. rewrite Ec in *. rewrite lookup_delete_ne; [done |]. intros <-. by rewrite lookup_delete_eq in HF.
      * intros x rx mx. rewrite lookup_delete. case_decide; [done | apply Bs].
    + intros run N Rn. destruct (R1 run N Rn) as [Nr (rr & mr & X & K)]. split; [done |]. exists rr, mr. cbn. rewrite Ec in *. by rewrite lookup_delete_ne.
    + intros x N. by rewrite lookup_delete_ne.
    + intros rx. by rewrite lookup_delete_eq.
  - intros [= <-]. destruct B0 as [Bm Bl Bp Bo Bk Bs].
    assert (forall x rx, x <> co -> cos s !! x = Some rx -> stack_mem r <> stack_mem rx) as Ne. { intros x rx N X E. destruct (Bp x co rx r X C N (eq_sym E)). congruence. }
    apply (gone_ok main s F co _ I Nin); cbn; try done.
    + split; cbn; try done.
      * intros x rx. rewrite !lookup_delete. repeat case_decide; try done; [| apply Bm]. intros X. by destruct (Ne x rx).
      * intros q mq. rewrite lookup_delete. case_decide; [done | apply Bl].
      * intros x y rx ry. rewrite !lookup_delete. repeat case_decide; try done. apply Bp.
      * intros q mq o. rewrite lookup_delete. case_decide; [done |]. intros Q Ho. destruct (Bo q mq o Q Ho) as (ro & O & D & Sd & _). exists ro. rewrite lookup_delete_ne; [by destruct (Bo q mq o Q Ho) as (ro' & O' & ?); simplify_eq | congruence].
      * intros x f HF. destruct (Bk x f HF) as (rx & mx & X & M & K). assert (x <> co) as N by (intros ->; by rewrite lookup_delete_eq in HF).
        exists rx, mx. cbn. rewrite !lookup_delete_ne; [done | by apply (Ne x) | congruence].
      * intros x rx mx. rewrite !lookup_delete. repeat case_decide; try done. apply Bs.
    + intros run N [Nr (rr & mr & X & M & K)]. split; [done |]. exists rr, mr. cbn. rewrite !lookup_delete_ne; [done | by apply (Ne run) | congruence].
    + intros x N. by rewrite lookup_delete_ne.
    + intros rx. by rewrite lookup_delete_eq.
Qed.

Lemma env0_inv main p b : inv main (env0 main p b) ∅.
Proof.
  split; cbn; try done.
  - split; cbn; try done.
    + intros co r. rewrite lookup_singleton. case_decide; [| done]. intros [= <-]. by rewrite lookup_singleton_eq.
    + intros q m. rewrite lookup_singleton. case_decide; [by intros [= <-] | done].
    + intros x y r r'. rewrite !lookup_singleton. repeat case_decide; congruence.
    + intros q m o. rewrite lookup_singleton. case_decide; [by intros [= <-] | done].
    + intros co r m. rewrite lookup_singleton. case_decide; [by intros [= <-] | done].
  - exists main. split; [done |]. split; [done |]. eexists _, _. cbn. rewrite lookup_singleton_eq. split; [done |]. cbn. rewrite lookup_singleton_eq. done.
  - apply NoDup_singleton.
  - intros co r. rewrite lookup_singleton. case_decide; [intros [= <-]; by subst | done].
  - intros r. rewrite lookup_singleton_eq. by intros [= <-].
  - intros co ->%list_elem_of_singleton. eexists. rewrite lookup_singleton_eq. done.
  - intros co r. rewrite lookup_singleton. case_decide; [intros [= <-]; by subst | done].
Qed.

Lemma stack_two (l : list Z) : 2 <= length l -> exists pre back curr, l = pre ++ [back; curr].
Proof.
  destruct l as [|x l _] using rev_ind; cbn; [lia |]. destruct l as [|y l _] using rev_ind; cbn; [lia |]. intros _.
  exists l, y, x. by rewrite <- app_assoc.
Qed.

Lemma yield_length sp s s' : co_yield_env sp s = Some s' -> 2 <= length (pCallStack s).
Proof. unfold co_yield_env. destruct (Nat.ltb_spec (length (pCallStack s)) 2); [done | lia]. Qed.

Lemma last_two (pre : list Z) back curr : last (pre ++ [back; curr]) = Some curr.
Proof. change [back; curr] with ([back] ++ [curr]). by rewrite app_assoc, last_snoc. Qed.

Lemma resume_some co sp s s' : co_resume co sp s = Some s' -> exists r, cos s !! co = Some r /\ cEnd r = false /\ length (pCallStack s) < iMaxCallStack.
Proof.
  unfold co_resume. destruct (last (pCallStack s)); [| done]. cbn. destruct (cos s !! co) as [r|]; [| done]. cbn. intros E. exists r. split; [done |].
  destruct (if cStart r then _ else _) as [s1|] eqn:E1; [| done]. cbn in E. assert (pCallStack s1 = pCallStack s) as Pc.
  { destruct (cStart r); [congruence |]. unfold coctx_make, upd_mem, upd_co in E1. destruct (mems s !! stack_mem r); [| done]. cbn in E1. destruct (cos s !! co); [| done]. cbn in E1. by injection E1 as <-. }
  rewrite Pc in E. destruct (Nat.leb_spec iMaxCallStack (length (pCallStack s))); [done |]. split; [| lia]. destruct (swap_out _ _ _ _); [| done]. cbn in E. by destruct (cEnd r).
Qed.

Lemma reachable_inv main p b x : reachable main p b x -> inv main (fst x) (snd x).
Proof.
  induction 1 as [|x y _ I St]; [apply env0_inv |]. destruct St; cbn in *.
  - destruct (iv_run _ _ _ I) as (run & Ls & Rn). assert (run = co) as -> by congruence.
    destruct (write_ok s F co r m b0 (iv_blocks _ _ _ I) Rn) as [B R]; try done. destruct I. split; try done. by exists co.
  - by apply alloc_ok.
  - by eapply create_ok.
  - destruct (resume_some _ _ _ _ H2) as (r & C & En & Len). destruct (resume_ok main s F curr co sp F' r I) as (s2 & E & I2 & _); try done. congruence.
  - destruct (stack_two _ (yield_length _ _ _ H1)) as (pre & back & cu & Pc). assert (cu = curr) as -> by (rewrite Pc, last_two in H; congruence).
    destruct (yield_ok main s F F' curr back pre sp I Pc H0) as (s2 & E & I2 & Pc2 & _). assert (s2 = s') as -> by congruence.
    rewrite Pc2, last_snoc in H2. by injection H2 as <-.
  - assert (2 <= length (pCallStack s)) as Ln.
    { unfold co_end in H1. rewrite H in H1. cbn in H1. unfold upd_co in H1. destruct (cos s !! curr); [| done]. cbn in H1. by apply yield_length in H1. }
    destruct (stack_two _ Ln) as (pre & back & cu & Pc). assert (cu = curr) as -> by (rewrite Pc, last_two in H; congruence).
    destruct (end_ok main s F curr back pre sp I Pc H0) as (s2 & E & I2 & Pc2 & _). assert (s2 = s') as -> by congruence.
    rewrite Pc2, last_snoc in H2. by injection H2 as <-.
  - by eapply free_ok.
  - by eapply reset_ok.
Qed.

(** C6: coroutines keep their stacks.  However coroutines are created, resumed, ended, reset and freed, share blocks of
    stack memory and write to their stacks: when a coroutine that has given up control is resumed, or the one it resumed
    yields back to it, [co_swap] finds its way, and the stack of the coroutine is what it was when it gave up control,
    but for the word at its top that [coctx_make] writes for a coroutine that starts on the same block. *)
Theorem stacks_restored main p b s F curr sp F' :
  reachable main p b (s, F) -> last (pCallStack s) = Some curr -> remember curr sp s F = Some F' ->
  (forall co r, co ∉ pCallStack s -> cos s !! co = Some r -> cEnd r = false -> length (pCallStack s) < iMaxCallStack ->
     exists s', co_resume co sp s = Some s' /\ last (pCallStack s') = Some co /\ forall f, F !! co = Some f -> restored s s' co f) /\
  (2 <= length (pCallStack s) ->
     exists s' co, co_yield_env sp s = Some s' /\ last (pCallStack s') = Some co /\ forall f, F !! co = Some f -> restored s s' co f).
Proof.
  intros Re Ls Rm. pose proof (reachable_inv main p b _ Re) as I. cbn in I. split.
  - intros co r Nin C En Len. destruct (resume_ok main s F curr co sp F' r I Ls Nin Rm C En Len) as (s' & E & _ & Pc & Rs). exists s'. rewrite Pc, last_snoc. done.
  - intros Ln. destruct (stack_two _ Ln) as (pre & back & cu & Pc). assert (cu = curr) as -> by (rewrite Pc, last_two in Ls; congruence).
    destruct (yield_ok main s F F' curr back pre sp I Pc Rm) as (s' & E & _ & Pc' & Rs). exists s', back. rewrite Pc', last_snoc. done.
Qed.

End stack.

(** ** Example: coroutines 1 and 2 on one block of 32 bytes *)

Definition addr0 : bytes := replicate 8 "f"%char.
Definition fill (c : ascii) : bytes := replicate 32 c.

Definition write_block (b : bytes) (s : stCoRoutineEnv_t) : stCoRoutineEnv_t :=
  match mems s !! 7%Z with Some m => set_mems s (<[7%Z := set_buffer m b]> (mems s)) | None => s end.
Definition get_env (o : option stCoRoutineEnv_t) : stCoRoutineEnv_t := default (env0 0 100 []) o.

Definition e0 := env0 0 100 (replicate 16 NUL).
Definition e1 := co_alloc_stackmem 7 (fill "."%char) e0.
Definition e2 := get_env (co_create_env 1 7 true e1).
Definition e3 := get_env (co_create_env 2 7 true e2).
Definition e4 := get_env (co_resume addr0 1 0 e3).
Definition e5 := write_block (fill "A"%char) e4.
Definition e6 := get_env (co_yield_env 4 e5).
Definition e7 := get_env (co_resume addr0 2 0 e6).
Definition e8 := write_block (fill "B"%char) e7.
Definition e9 := get_env (co_yield_env 2 e8).
Definition f6 : gmap Z bytes := delete 0%Z (<[1%Z := drop 4 (fill "A"%char)]> (delete 1%Z ∅)).
Definition f9 : gmap Z bytes := delete 0%Z (<[2%Z := drop 2 (fill "B"%char)]> (delete 2%Z f6)).

Lemma two_share co' r' : cos e2 !! co' = Some r' -> stack_mem r' = 7%Z -> true = true /\ cIsShareStack r' = true.
Proof.
  change (cos e2) with (<[1%Z := mk_co false false false true 7 0 None]> (cos e0)). rewrite lookup_insert. case_decide; [by intros [= <-] |].
  cbn. rewrite lookup_singleton. case_decide; [| done]. by intros [= <-].
Qed.

Lemma write_block_step s F co b : last (pCallStack s) = Some co ->
  match cos s !! co, mems s !! 7%Z with Some r, Some m => stack_mem r = 7%Z /\ length b = stack_size m | _, _ => False end ->
  step addr0 (s, F) (write_block b s, F).
Proof.
  intros Ls. destruct (cos s !! co) as [r|] eqn:C; [| done]. unfold write_block. destruct (mems s !! 7%Z) as [m|] eqn:M; [| done].
  intros [E L]. rewrite <- E in M |- *. by eapply st_write.
Qed.

Lemma e9_reachable : reachable addr0 0 100 (replicate 16 NUL) (e9, f9).
Proof.
  apply (reach_step _ _ _ _ (e8, delete 2%Z f6)).
  2: { apply (st_yield _ _ _ _ 2%Z 2); vm_compute; reflexivity. }
  apply (reach_step _ _ _ _ (e7, delete 2%Z f6)).
  2: { apply (write_block_step _ _ 2%Z); by vm_compute. }
  apply (reach_step _ _ _ _ (e6, f6)).
  2: { apply (st_resume _ _ _ _ 0%Z 2%Z 0); [by vm_compute | | by vm_compute | by vm_compute]. by apply (bool_decide_unpack (2%Z ∉ pCallStack e6)); vm_compute. }
  apply (reach_step _ _ _ _ (e5, delete 1%Z ∅)).
  2: { apply (st_yield _ _ _ _ 1%Z 4); vm_compute; reflexivity. }
  apply (reach_step _ _ _ _ (e4, delete 1%Z ∅)).
  2: { apply (write_block_step _ _ 1%Z); by vm_compute. }
  apply (reach_step _ _ _ _ (e3, ∅)).
  2: { apply (st_resume _ _ _ _ 0%Z 1%Z 0); [by vm_compute | | by vm_compute | by vm_compute]. by apply (bool_decide_unpack (1%Z ∉ pCallStack e3)); vm_compute. }
  apply (reach_step _ _ _ _ (e2, ∅)).
  2: { apply (st_create _ _ _ 2%Z 7%Z true); [by vm_compute | by vm_compute; eexists | apply two_share | by vm_compute]. }
  apply (reach_step _ _ _ _ (e1, ∅)).
  2: { apply (st_create _ _ _ 1%Z 7%Z true); [by vm_compute | by vm_compute; eexists | | by vm_compute].
       intros co' r'. cbn. rewrite lookup_singleton. case_decide; [| done]. by intros [= <-]. }
  apply (reach_step _ _ _ _ (e0, ∅)); [apply reach_start |]. apply st_alloc. by vm_compute.
Qed.

Lemma stacks_restored_witness : exists s', co_resume addr0 1 0 e9 = Some s' /\ restored e9 s' 1 (drop 4 (fill "A"%char)).
Proof.
  destruct (stacks_restored addr0 eq_refl 0 100 (replicate 16 NUL) e9 f9 0 0 f9 e9_reachable) as [R _]; [by vm_compute | by vm_compute |].
  destruct (R 1%Z (mk_co true false false true 7 4 (save_buffer (default (mk_co false false false false 0 0 None) (cos e9 !! 1%Z))))) as (s' & E & _ & Rs).
  - by apply (bool_decide_unpack (1%Z ∉ pCallStack e9)); vm_compute.
  - by vm_compute.
  - done.
  - vm_compute. lia.
  - exists s'. split; [done |]. apply Rs. by vm_compute.
Defined.

End CoStack.
