(* ===== verification/CoHook.v ===== *)
(** * CoHook: the system calls that libco replaces

    Model of [libco/co_hook_sys_call.cpp]: the table of hooked descriptors,
    and the calls [socket], [co_accept], [connect], [close], [read], [write],
    [sendto], [recvfrom], [send], [recv], [poll], [setsockopt] and [fcntl],
    which a coroutine makes as if they blocked.  A wait is [co_poll_inner] of
    [CoLoop]: up to the yield, then whatever the other coroutines do
    ([others]), then the block that clears up.  The calls of the system are
    parameters.  The lookups of the system's functions with [dlsym] and the
    log lines are left out, and so are the environment variables of a
    coroutine and [gethostbyname]. *)

From S2P Require Import Prelude Effect CoList CoTimeout CoLoop.
Import CoList CoLoop.

#[local] Open Scope Z_scope.

Module CoHook.

Record timeval := mk_timeval { tv_sec : Z; tv_usec : Z }.

Record rpchook_t := mk_hook {
  user_flag : Z;
  dest : bytes;            (* the 16 bytes of a sockaddr_in *)
  domain : Z;
  read_timeout : timeval;
  write_timeout : timeval
}.

Definition set_flag x (h : rpchook_t) := mk_hook x (dest h) (domain h) (read_timeout h) (write_timeout h).
Definition set_dest x (h : rpchook_t) := mk_hook (user_flag h) x (domain h) (read_timeout h) (write_timeout h).
Definition set_domain x (h : rpchook_t) := mk_hook (user_flag h) (dest h) x (read_timeout h) (write_timeout h).
Definition set_read x (h : rpchook_t) := mk_hook (user_flag h) (dest h) (domain h) x (write_timeout h).
Definition set_write x (h : rpchook_t) := mk_hook (user_flag h) (dest h) (domain h) (read_timeout h) x.

Definition sockaddr_in_size : nat := 16.

(** What [calloc] and [alloc_by_fd] leave. *)
Definition hook0 : rpchook_t :=
  mk_hook 0 (replicate sockaddr_in_size (char_of 0)) 0 (mk_timeval 1 0) (mk_timeval 1 0).

(** The constants of Linux. *)
Definition O_NONBLOCK : Z := 2048.
Definition EAGAIN : Z := 11.
Definition EINVAL : Z := 22.
Definition ETIMEDOUT : Z := 110.
Definition EINPROGRESS : Z := 115.
Definition F_DUPFD : Z := 0.
Definition F_GETFD : Z := 1.
Definition F_SETFD : Z := 2.
Definition F_GETFL : Z := 3.
Definition F_SETFL : Z := 4.
Definition F_GETLK : Z := 5.
Definition F_SETLK : Z := 6.
Definition F_SETLKW : Z := 7.
Definition F_SETOWN : Z := 8.
Definition F_GETOWN : Z := 9.
Definition SOL_SOCKET : Z := 1.
Definition SO_RCVTIMEO : Z := 20.
Definition SO_SNDTIMEO : Z := 21.

(** What [option_value] points to. *)
Inductive optval := OptTimeval (t : timeval) | OptBytes (b : bytes).

(** The calls of the system.  The first number is the result, the second the
    [errno] of a call that fails. *)
Class Sys := {
  K : Type;
  GetTickMS : K -> Z;
  sys_socket : Z -> Z -> Z -> K -> (Z * Z) * K;
  sys_accept : Z -> K -> (Z * Z) * K;
  sys_connect : Z -> bytes -> K -> (Z * Z) * K;
  sys_so_error : Z -> K -> (Z * Z) * Z * K;
  sys_close : Z -> K -> (Z * Z) * K;
  sys_read : Z -> Z -> K -> (Z * Z) * bytes * K;
  sys_recv : Z -> Z -> Z -> K -> (Z * Z) * bytes * K;
  sys_recvfrom : Z -> Z -> Z -> K -> (Z * Z) * bytes * K;
  sys_write : Z -> bytes -> K -> (Z * Z) * K;
  sys_send : Z -> Z -> bytes -> K -> (Z * Z) * K;
  sys_sendto : Z -> Z -> bytes -> bytes -> K -> (Z * Z) * K;
  sys_poll : list pollfd -> Z -> K -> (Z * Z) * list Z * K;
  sys_setsockopt : Z -> Z -> Z -> optval -> K -> (Z * Z) * K;
  sys_fcntl : Z -> Z -> Z -> K -> (Z * Z) * K }.

(** The process as a coroutine finds it when it runs. *)
Record World `{Epoll, Sys} := mk {
  g_rpchook_socket_fd : gmap Z rpchook_t;
  loop : Loop;
  kernel : K;
  errno : Z
}.

(** What the rest of the process does from the yield of the owner of an item
    to its resumption. *)
Class Others `{Epoll, Sys} := others : Z -> World -> World.

Section hook.
Context `{Epoll, Sys, !Others}.
(** The running coroutine, and [co_is_enable_sys_hook()]. *)
Context (self : Z) (hooked : bool).

Abbreviation W := (M World).

Definition set_table t (s : World) := mk _ _ t (loop s) (kernel s) (errno s).
Definition set_loop l (s : World) := mk _ _ (g_rpchook_socket_fd s) l (kernel s) (errno s).
Definition set_kernel k (s : World) := mk _ _ (g_rpchook_socket_fd s) (loop s) k (errno s).
Definition set_errno e (s : World) := mk _ _ (g_rpchook_socket_fd s) (loop s) (kernel s) e.

(** A call of the system: [errno] changes when it fails. *)
Definition sys2 {A} (f : K -> (Z * Z) * A * K) : W (Z * A) := fun s =>
  let '(r, e, a, k) := f (kernel s) in
  Ret (r, a) (let s := set_kernel k s in if r <? 0 then set_errno e s else s).
Definition sys (f : K -> (Z * Z) * K) : W Z := fun s =>
  let '(r, e, k) := f (kernel s) in
  Ret r (let s := set_kernel k s in if r <? 0 then set_errno e s else s).

Definition undef {A} : W A := fun _ => Undef.

Definition on_loop {A} (m : M Loop A) : W A := fun s =>
  match m (loop s) with
  | Ret a l => Ret a (set_loop l s)
  | Block l => Block (set_loop l s)
  | Undef => Undef
  end.

(** ** The table *)

Definition in_table (fd : Z) : bool := (-1 <? fd) && (fd <? 102400).

Definition get_by_fd (fd : Z) : W (option rpchook_t) := gets (fun s =>
  if in_table fd then g_rpchook_socket_fd s !! fd else None).

(** [false]: the null pointer. *)
Definition alloc_by_fd (fd : Z) : W bool :=
  if in_table fd then modify (fun s => set_table (<[fd := hook0]> (g_rpchook_socket_fd s)) s) ;; mret true
  else mret false.

Definition free_by_fd (fd : Z) : W unit :=
  if in_table fd then modify (fun s => set_table (delete fd (g_rpchook_socket_fd s)) s) else mret tt.

Definition upd_hook (fd : Z) (f : rpchook_t -> rpchook_t) : W unit :=
  modify (fun s => set_table (alter f fd (g_rpchook_socket_fd s)) s).

(** [param] is the third argument, for the commands that have one. *)
Definition fcntl (fildes cmd param : Z) : W Z :=
  if fildes <? 0 then mret 581 else
  lp ← get_by_fd fildes;
  if cmd =? F_GETFL then
    ret ← sys (sys_fcntl fildes cmd 0);
    mret (match lp with
          | Some h => if Z.land (user_flag h) O_NONBLOCK =? 0 then Z.land ret (Z.lnot O_NONBLOCK) else ret
          | None => ret
          end)
  else if cmd =? F_SETFL then
    let flag := if hooked && bool_decide (is_Some lp) then Z.lor param O_NONBLOCK else param in
    ret ← sys (sys_fcntl fildes cmd flag);
    (if (0 =? ret) && bool_decide (is_Some lp) then upd_hook fildes (set_flag param) else mret tt) ;;
    mret ret
  else if bool_decide (cmd ∈ [F_DUPFD; F_SETFD; F_SETOWN; F_GETLK; F_SETLK; F_SETLKW])
  then sys (sys_fcntl fildes cmd param)
  else if bool_decide (cmd ∈ [F_GETFD; F_GETOWN]) then sys (sys_fcntl fildes cmd 0)
  else mret (-1).

Definition socket (dom type protocol : Z) : W Z :=
  fd ← sys (sys_socket dom type protocol);
  if negb hooked then mret fd else
  if fd <? 0 then mret fd else
  ok ← alloc_by_fd fd;
  if negb ok then undef else
  upd_hook fd (set_domain dom) ;;
  fl ← sys (sys_fcntl fd F_GETFL 0);
  fcntl fd F_SETFL fl ;;
  mret fd.

Definition co_accept (fd : Z) : W Z :=
  cli ← sys (sys_accept fd);
  if cli <? 0 then mret cli else alloc_by_fd cli ;; mret cli.

Definition close (fd : Z) : W Z :=
  (if hooked then free_by_fd fd else mret tt) ;; sys (sys_close fd).

Definition setsockopt (fd level option_name : Z) (option_value : optval) : W Z :=
  (if hooked then
     lp ← get_by_fd fd;
     if bool_decide (is_Some lp) && (SOL_SOCKET =? level) then
       if SO_RCVTIMEO =? option_name then
         match option_value with OptTimeval t => upd_hook fd (set_read t) | OptBytes _ => undef end
       else if SO_SNDTIMEO =? option_name then
         match option_value with OptTimeval t => upd_hook fd (set_write t) | OptBytes _ => undef end
       else mret tt
     else mret tt
   else mret tt) ;;
  sys (sys_setsockopt fd level option_name option_value).

(** ** Waiting *)

(** The result and the [revents] of the array. *)
Definition co_poll_inner (l : list pollfd) (timeout : Z) : W (Z * list Z) :=
  s ← get;
  st ← on_loop (poll_begin self l timeout (GetTickMS (kernel s)) true);
  match st with
  | Direct timeout => sys2 (sys_poll l timeout)
  | Failed => modify (set_errno EINVAL) ;; mret (-1, replicate (length l) 0)
  | Waits x =>
      modify (others x) ;;
      i ← on_loop (item_at x);
      r ← on_loop (poll_end x);
      mret (iRaiseCnt i, r)
  end.

(** The loop that merges: the descriptors so far, and [m]. *)
Definition merge_one (acc : list pollfd * gmap Z nat) (p : pollfd) : list pollfd * gmap Z nat :=
  let (l, m) := acc in
  match m !! fd p with
  | None => (l ++ [p], <[fd p := length l]> m)
  | Some j => (alter (fun q => mk_pollfd (fd q) (Z.lor (events q) (events p))) j l, m)
  end.
Definition merge (fds : list pollfd) : list pollfd * gmap Z nat := foldl merge_one ([], ∅) fds.

(** [revents] is what the array of the caller holds before the call. *)
Definition poll (fds : list pollfd) (revents : list Z) (timeout : Z) : W (Z * list Z) :=
  if negb hooked || (timeout =? 0) then sys2 (sys_poll fds timeout) else
  let '(fds_merge, m) := if bool_decide (1 < length fds)%nat then merge fds else ([], ∅) in
  if bool_decide (length fds_merge = length fds) || bool_decide (length fds = 1%nat) then co_poll_inner fds timeout else
  x ← co_poll_inner fds_merge timeout;
  mret (fst x,
        if 0 <? fst x then
          zip_with (fun p old => match m !! fd p with
                                 | Some j => Z.land (nth j (snd x) 0) (events p)
                                 | None => old
                                 end) fds revents
        else revents).

(** One descriptor, [revents] cleared. *)
Definition poll1 (f ev timeout : Z) : W (Z * list Z) :=
  poll [mk_pollfd f (Z.lor (Z.lor ev POLLERR) POLLHUP)] [0] timeout.

(** ** Reading and writing *)

Definition ms (t : timeval) : Z := i32 (tv_sec t * 1000 + Z.quot (tv_usec t) 1000).

(** The record of a descriptor on which the call waits. *)
Definition blocking (f : Z) : W (option rpchook_t) :=
  lp ← get_by_fd f;
  mret (h ← lp; if hooked && (Z.land O_NONBLOCK (user_flag h) =? 0) then Some h else None).

Definition read_with (call : K -> (Z * Z) * bytes * K) (f : Z) : W (Z * bytes) :=
  lp ← blocking f;
  match lp with
  | Some h => poll1 f POLLIN (ms (read_timeout h)) ;; sys2 call
  | None => sys2 call
  end.
Definition read (f nbyte : Z) : W (Z * bytes) := read_with (sys_read f nbyte) f.
Definition recv (f length flags : Z) : W (Z * bytes) := read_with (sys_recv f length flags) f.
Definition recvfrom (f length flags : Z) : W (Z * bytes) := read_with (sys_recvfrom f length flags) f.

(** [while (wrotelen < nbyte)]: every round but the last writes a byte. *)
Fixpoint write_loop (fuel : nat) (call : bytes -> K -> (Z * Z) * K) (f timeout : Z) (buf : bytes)
    (wrotelen writeret : Z) : W (Z * Z) :=
  if wrotelen <? zlen buf then
    match fuel with
    | O => block
    | S fuel =>
        poll1 f POLLOUT timeout ;;
        writeret ← sys (call (drop (Z.to_nat wrotelen) buf));
        if writeret <=? 0 then mret (wrotelen, writeret)
        else write_loop fuel call f timeout buf (wrotelen + writeret) writeret
    end
  else mret (wrotelen, writeret).

Definition write_with (call : bytes -> K -> (Z * Z) * K) (f : Z) (buf : bytes) : W Z :=
  lp ← blocking f;
  match lp with
  | None => sys (call buf)
  | Some h =>
      writeret ← sys (call buf);
      if writeret =? 0 then mret writeret else
      let wrotelen := if 0 <? writeret then writeret else 0 in
      x ← write_loop (length buf) call f (ms (write_timeout h)) buf wrotelen writeret;
      mret (if (snd x <=? 0) && (fst x =? 0) then snd x else fst x)
  end.
Definition write (f : Z) (buf : bytes) : W Z := write_with (sys_write f) f buf.
Definition send (f : Z) (buf : bytes) (flags : Z) : W Z := write_with (sys_send f flags) f buf.

Definition sendto (f : Z) (message : bytes) (flags : Z) (dest_addr : bytes) : W Z :=
  lp ← blocking f;
  ret ← sys (sys_sendto f flags dest_addr message);
  match lp with
  | None => mret ret
  | Some h =>
      e ← gets errno;
      if (ret <? 0) && (EAGAIN =? e) then
        poll1 f POLLOUT (ms (write_timeout h)) ;; sys (sys_sendto f flags dest_addr message)
      else mret ret
  end.

(** ** [connect] *)

(** The loop, three times 25 seconds, answers the last [pf.revents]. *)
Fixpoint connect_wait (n : nat) (f rev : Z) : W Z :=
  match n with
  | O => mret rev
  | S n =>
      x ← poll1 f POLLOUT 25000;
      let rev := nth 0 (snd x) 0 in
      if 1 =? fst x then mret rev else connect_wait n f rev
  end.

Definition connect (f : Z) (address : bytes) : W Z :=
  ret ← sys (sys_connect f address);
  if negb hooked then mret ret else
  lp ← get_by_fd f;
  match lp with
  | None => mret ret
  | Some h =>
      (if bool_decide (length address <= sockaddr_in_size)%nat
       then upd_hook f (fun h => set_dest (address ++ drop (length address) (dest h)) h) else mret tt) ;;
      e ← gets errno;
      if negb (Z.land O_NONBLOCK (user_flag h) =? 0) then mret ret else
      if negb ((ret <? 0) && (e =? EINPROGRESS)) then mret ret else
      rev ← connect_wait 3 f 0;
      if negb (Z.land rev POLLOUT =? 0) then
        x ← sys2 (sys_so_error f);
        if fst x <? 0 then mret (fst x)
        else if negb (snd x =? 0) then modify (set_errno (snd x)) ;; mret (-1)
        else modify (set_errno 0) ;; mret 0
      else modify (set_errno ETIMEDOUT) ;; mret ret
  end.

End hook.

(** ** Merging *)

(** All events that are asked for a descriptor. *)
Fixpoint asked (f : Z) (fds : list pollfd) : Z :=
  match fds with
  | [] => 0
  | p :: fds => if decide (fd p = f) then Z.lor (events p) (asked f fds) else asked f fds
  end.

Lemma asked_app f l p : asked f (l ++ [p]) = if decide (fd p = f) then Z.lor (asked f l) (events p) else asked f l.
Proof.
  induction l as [|q l IH]; cbn; [by case_decide; rewrite ?Z.lor_0_r |].
  rewrite IH. repeat case_decide; by rewrite ?Z.lor_assoc.
Qed.

Lemma asked_none f l : f ∉ (fd <$> l) -> asked f l = 0.
Proof. induction l as [|q l IH]; cbn; [done |]. intros [N N']%not_elem_of_cons. rewrite decide_False by done. by apply IH. Qed.

Record merged (fds l : list pollfd) (m : gmap Z nat) : Prop := {
  mg_index : forall f j, m !! f = Some j <-> exists q, l !! j = Some q /\ fd q = f;
  mg_events : forall q, q ∈ l -> events q = asked (fd q) fds;
  mg_fds : forall f, f ∈ (fd <$> l) <-> f ∈ (fd <$> fds) }.

Lemma merged_elem fds l m f : merged fds l m -> is_Some (m !! f) <-> f ∈ (fd <$> fds).
Proof.
  intros G. rewrite <- (mg_fds _ _ _ G), list_elem_of_fmap. split.
  - intros [j (q & Q & E)%(mg_index _ _ _ G)]. exists q. split; [done |]. by eapply list_elem_of_lookup_2.
  - intros (q & -> & [j Q]%list_elem_of_lookup_1). exists j. apply (mg_index _ _ _ G). by exists q.
Qed.

Lemma merge_one_ok fds l m p : merged fds l m -> merged (fds ++ [p]) (fst (merge_one (l, m) p)) (snd (merge_one (l, m) p)).
Proof.
  intros G. cbn. destruct (m !! fd p) as [j|] eqn:E; cbn.
  - pose proof E as (q & Q & Fq)%(mg_index _ _ _ G). set (g := fun q => _).
    assert (fd <$> alter g j l = fd <$> l) as Fl.
    { apply list_eq. intros n. rewrite !list_lookup_fmap. destruct (decide (n = j)) as [->|].
      - by rewrite list_lookup_alter_eq, Q.
      - by rewrite list_lookup_alter_ne. }
    split.
    + intros f n. rewrite (mg_index _ _ _ G). destruct (decide (n = j)) as [->|].
      * rewrite list_lookup_alter_eq, Q. cbn. split; intros (q' & [= <-] & <-); eauto.
      * by rewrite list_lookup_alter_ne.
    + intros q' [n N]%list_elem_of_lookup_1. rewrite asked_app. destruct (decide (n = j)) as [->|Nj].
      * rewrite list_lookup_alter_eq, Q in N. injection N as <-. cbn. rewrite decide_True by done.
        by rewrite (mg_events _ _ _ G q) by (by eapply list_elem_of_lookup_2).
      * rewrite list_lookup_alter_ne in N by done. rewrite decide_False; [apply (mg_events _ _ _ G); by eapply list_elem_of_lookup_2 |].
        intros Ef. apply Nj. assert (m !! fd p = Some n) as E' by (apply (mg_index _ _ _ G); eauto). congruence.
    + intros f. rewrite Fl, (mg_fds _ _ _ G), fmap_app, elem_of_app. cbn. rewrite list_elem_of_singleton. split; [by left |].
      intros [In | ->]; [done |]. apply (merged_elem _ _ _ _ G). by rewrite E.
  - assert (fd p ∉ (fd <$> fds)) as Np by (rewrite <- (merged_elem _ _ _ _ G), E; by intros []). split.
    + intros f n. destruct (decide (f = fd p)) as [->|Nf].
      * rewrite lookup_insert_eq. split; [intros [= <-]; exists p; by rewrite list_lookup_middle |].
        intros (q & [Q|[Ge Q]]%lookup_app_Some & Eq).
        { exfalso. assert (m !! fd p = Some n) by (apply (mg_index _ _ _ G); eauto). congruence. }
        apply list_lookup_singleton_Some in Q as [Q _]. f_equal. lia.
      * rewrite lookup_insert_ne, (mg_index _ _ _ G) by done. split; intros (q & Q & Eq); exists q; (split; [| done]).
        { by apply lookup_app_l_Some. }
        apply lookup_app_Some in Q as [Q|[_ [_ <-]%list_lookup_singleton_Some]]; [done | by subst].
    + intros q. rewrite elem_of_app, list_elem_of_singleton, asked_app. intros [In | ->].
      * rewrite decide_False; [by apply (mg_events _ _ _ G) |]. intros Eq. apply Np. rewrite Eq, <- (mg_fds _ _ _ G).
        by apply list_elem_of_fmap_2.
      * by rewrite decide_True, asked_none.
    + intros f. by rewrite !fmap_app, !elem_of_app, (mg_fds _ _ _ G).
Qed.

Lemma merge_ok fds : merged fds (fst (merge fds)) (snd (merge fds)).
Proof.
  induction fds as [|p fds IH] using rev_ind.
  - split; [| by intros q ?%elem_of_nil | done]. intros f j. change (snd (merge [])) with (∅ : gmap Z nat). rewrite lookup_empty. split; [done | by intros (? & ? & _)].
  - unfold merge. rewrite foldl_app. cbn [foldl]. fold (merge fds). destruct (merge fds) as [l m]. by apply merge_one_ok.
Qed.

Lemma merged_nodup fds l m : merged fds l m -> NoDup (fd <$> l).
Proof.
  intros G. apply NoDup_alt. intros i j f. rewrite !list_lookup_fmap, !fmap_Some. intros (q & Q & ->) (q' & Q' & E).
  assert (m !! fd q = Some i /\ m !! fd q = Some j) as [Ei Ej] by (split; apply (mg_index _ _ _ G); eauto). congruence.
Qed.

(** ** What the calls rely on *)

(** The bytes that the system has taken for a descriptor: a write takes a
    prefix of what it is given, none when it fails, and polling takes none.
    The clock is not out of range. *)
Class SysSpec `{Sys} := {
  out : Z -> K -> bytes;
  clock_fine : forall k, clock_ok (GetTickMS k);
  write_takes : forall f b k, let '(r, _, k') := sys_write f b k in
    r <= zlen b /\ out f k' = out f k ++ take (Z.to_nat r) b;
  send_takes : forall f flags b k, let '(r, _, k') := sys_send f flags b k in
    r <= zlen b /\ out f k' = out f k ++ take (Z.to_nat r) b;
  poll_takes_none : forall f l t k, out f (snd (sys_poll l t k)) = out f k }.

(** The owner of an item is resumed with its item still there, off the lists
    of the loop, and the others write nothing to the descriptor [f]. *)
Class OthersSpec `{Epoll, Sys, !SysSpec, !Others} (conds : gset Z) (f : Z) := {
  resumed : forall x s i, good conds (loop s) -> items (loop s) !! x = Some i -> is_cond i = false ->
    exists a c j, ok conds (loop (others x s)) a c (Some x) /\ items (loop (others x s)) !! x = Some j /\ is_cond j = false;
  others_silent : forall x s, out f (kernel (others x s)) = out f (kernel s) }.

Section spec.
Context `{Epoll, !EpollSpec, Sys, !SysSpec, !Others} (conds : gset Z) (f : Z) `{!OthersSpec conds f}.
Context (self : Z) (hooked : bool).

Definition took (s : World) : bytes := out f (kernel s).
(** The loop is fine and nothing was written. *)
Definition idle (s s' : World) : Prop := good conds (loop s') /\ took s' = took s.

Lemma twp_on_loop {A} (m : M Loop A) (Q : A -> World -> Prop) s :
  twp m (fun a l => Q a (set_loop l s)) (loop s) -> twp (on_loop m) Q s.
Proof. unfold twp, on_loop. by destruct (m (loop s)). Qed.

Lemma sys2_poll_ok l t s : good conds (loop s) -> twp (sys2 (sys_poll l t)) (fun _ => idle s) s.
Proof.
  intros G. unfold twp, sys2. pose proof (poll_takes_none f l t (kernel s)) as P.
  destruct (sys_poll l t (kernel s)) as [[[r e] v] k]. cbn in P. by destruct (r <? 0).
Qed.

Lemma co_poll_inner_ok l t s : good conds (loop s) -> t < 2 ^ 31 -> twp (co_poll_inner self l t) (fun _ => idle s) s.
Proof.
  intros G T. apply twp_bind, twp_get, twp_bind, twp_on_loop.
  eapply twp_mono; [by apply (poll_begin_ok conds); [| apply clock_fine | |] |].
  cbn beta. intros st l1 (G1 & _ & _ & C). destruct st as [t'| |x].
  - eapply twp_mono; [by apply sys2_poll_ok |]. done.
  - done.
  - destruct C as (i & k & X & _ & _ & Ci & _). apply twp_bind. cbn. set (s1 := set_loop l1 s).
    destruct (resumed x s1 i G1 X Ci) as (a & c & j & K1 & J & Cj).
    apply twp_bind, twp_on_loop, (twp_item_at _ j); [done |]. apply twp_bind, twp_on_loop.
    eapply twp_mono; [by apply (poll_end_ok conds _ a c (Some x) x j K1 J Cj); right |].
    cbn beta. intros r l2 (_ & Fr & _). split; [done | apply (others_silent x s1)].
Qed.

Lemma poll1_ok g ev t s : good conds (loop s) -> t < 2 ^ 31 -> twp (poll1 self hooked g ev t) (fun _ => idle s) s.
Proof.
  intros G T. unfold poll1, poll. destruct (negb hooked || (t =? 0)); [by apply sys2_poll_ok |].
  by apply co_poll_inner_ok.
Qed.

(** A call that writes. *)
Definition takes (call : bytes -> K -> (Z * Z) * K) : Prop := forall b k, let '(r, _, k') := call b k in
  r <= zlen b /\ out f k' = out f k ++ take (Z.to_nat r) b.
(** The tries of a write of [buf] that starts in [s]: in the state given [n]
    bytes of it are written, by a first try and then by tries that each follow
    a wait of at most [t] milliseconds for the descriptor to take more. *)
Inductive attempts (call : bytes -> K -> (Z * Z) * K) (t : Z) (buf : bytes) (s : World) : Z -> World -> Prop :=
  | at_first w s1 : sys (call buf) s = Ret w s1 -> w <> 0 -> attempts call t buf s (Z.max 0 w) s1
  | at_more n s1 p s2 w s3 : attempts call t buf s n s1 -> n < zlen buf -> poll1 self hooked f POLLOUT t s1 = Ret p s2 ->
      sys (call (drop (Z.to_nat n) buf)) s2 = Ret w s3 -> 0 < w -> attempts call t buf s (n + w) s3.

(** The write ends in [s'] with [n] before the whole buffer is written: the
    first try answers 0, or the buffer is empty and [n] is the answer of the
    first try, or the last thing done is a wait and then a try of the rest that
    the system refuses (its answer [w] is 0 or -1, and is the result when
    nothing was written before). *)
Definition gave_up call (t : Z) (buf : bytes) (n : Z) (s s' : World) : Prop :=
  (sys (call buf) s = Ret n s' /\ (n = 0 \/ buf = [])) \/
  exists s1 p s2 w, attempts call t buf s (Z.max 0 n) s1 /\ Z.max 0 n < zlen buf /\ poll1 self hooked f POLLOUT t s1 = Ret p s2 /\
    sys (call (drop (Z.to_nat n) buf)) s2 = Ret w s' /\ w <= 0 /\ (0 < n \/ n = w).

(** [n] bytes of [buf] are written, and all of them unless the write gave up. *)
Definition wrote call (buf : bytes) (n : Z) (s s' : World) : Prop :=
  n <= zlen buf /\ good conds (loop s') /\ took s' = took s ++ take (Z.to_nat n) buf /\
  exists h, g_rpchook_socket_fd s !! f = Some h /\ (n = zlen buf \/ gave_up call (ms (write_timeout h)) buf n s s').

Lemma sys_takes call b s : takes call -> good conds (loop s) -> exists r s', sys (call b) s = Ret r s' /\
  r <= zlen b /\ good conds (loop s') /\ took s' = took s ++ take (Z.to_nat r) b.
Proof.
  intros T G. unfold sys. pose proof (T b (kernel s)) as P. destruct (call b (kernel s)) as [[r e] k] eqn:E. destruct P as [L O].
  eexists _, _. split; [done |]. by destruct (r <? 0).
Qed.

(** The loop ends with [x]: everything written, or a wait and a refused try. *)
Definition loop_end call t buf (x : Z * Z) (s s' : World) : Prop :=
  (fst x = zlen buf \/ fst x < zlen buf /\ snd x <= 0 /\ exists s1 p s2, attempts call t buf s (fst x) s1 /\
    poll1 self hooked f POLLOUT t s1 = Ret p s2 /\ sys (call (drop (Z.to_nat (fst x)) buf)) s2 = Ret (snd x) s').

Lemma write_loop_ok call t buf : takes call -> t < 2 ^ 31 -> forall fuel n r s0 s,
  0 <= n <= zlen buf -> zlen buf - n <= Z.of_nat fuel -> good conds (loop s) -> took s = took s0 ++ take (Z.to_nat n) buf ->
  attempts call t buf s0 n s ->
  twp (write_loop self hooked fuel call f t buf n r)
    (fun x s' => n <= fst x <= zlen buf /\ good conds (loop s') /\ took s' = took s0 ++ take (Z.to_nat (fst x)) buf /\
      loop_end call t buf x s0 s' /\ (n = zlen buf -> x = (n, r) /\ s' = s)) s.
Proof.
  intros T Ts fuel. induction fuel as [|fuel IH]; intros n r s0 s N Fu G O A; cbn [write_loop]; destruct (Z.ltb_spec n (zlen buf)); try lia.
  1,3: split; [cbn; lia |]; do 2 (split; [done |]); split; [left; cbn; lia | done].
  destruct (twp_Ret _ _ _ (poll1_ok f POLLOUT t s G Ts)) as (p & s1 & Ep & G1 & O1).
  apply twp_bind, (twp_returns _ _ _ _ _ Ep).
  destruct (sys_takes call (drop (Z.to_nat n) buf) s1 T G1) as (w & s2 & Ew & Lw & G2 & O2).
  apply twp_bind, (twp_returns _ _ _ _ _ Ew).
  assert (zlen (drop (Z.to_nat n) buf) = zlen buf - n) as Ln by (unfold zlen in *; rewrite length_drop; lia).
  destruct (Z.leb_spec w 0) as [W0|W0].
  - split; [cbn; lia |]. split; [done |]. split; [cbn; rewrite O2, O1, O, (Z2Nat.nonpos w) by done; by rewrite take_0, app_nil_r |].
    split; [| lia]. right. cbn. split; [lia |]. split; [done |]. by exists s, p, s1.
  - eapply twp_mono; [apply (IH (n + w) w s0 s2); [lia | lia | done | | by eapply at_more] |].
    + rewrite O2, O1, O, <- app_assoc. f_equal. by rewrite take_take_drop, Z2Nat.inj_add by lia.
    + cbn beta. intros x s3 (B & G3 & O3 & En & _). split; [lia |]. do 3 (split; [done |]). lia.
Qed.

(** The descriptor has a record and its user wants it to block. *)
Definition blocks (s : World) : Prop := hooked = true /\ in_table f = true /\
  exists h, g_rpchook_socket_fd s !! f = Some h /\ Z.land O_NONBLOCK (user_flag h) = 0.

Lemma blocking_ok s : blocks s -> exists h, g_rpchook_socket_fd s !! f = Some h /\ blocking hooked f s = Ret (Some h) s.
Proof.
  intros (Hk & Tb & h & Hh & Hf). exists h. split; [done |].
  unfold blocking, get_by_fd, gets, mbind, M_bind. by rewrite Tb, Hh, Hk; cbn; rewrite Hf.
Qed.

Lemma write_with_ok call buf s : takes call -> good conds (loop s) -> blocks s ->
  twp (write_with self hooked call f buf) (fun n => wrote call buf n s) s.
Proof.
  intros T G (h & Hh & Hb)%blocking_ok. apply twp_bind, (twp_returns _ _ _ _ _ Hb).
  destruct (sys_takes call buf s T G) as (w & s1 & Ew & Lw & G1 & O1). apply twp_bind, (twp_returns _ _ _ _ _ Ew).
  destruct (Z.eqb_spec w 0) as [->|Nw].
  { split; [done |]. do 2 (split; [done |]). exists h. split; [done |]. right. left. auto. }
  cbv zeta. replace (if 0 <? w then w else 0) with (Z.max 0 w) by (destruct (Z.ltb_spec 0 w); lia).
  apply twp_bind. eapply twp_mono.
  { apply (write_loop_ok call _ buf T (proj2 (i32_range _)) (length buf) (Z.max 0 w) w s s1); [unfold zlen in *; lia | unfold zlen in *; lia | done | | by apply at_first].
    rewrite O1. f_equal. f_equal. lia. }
  cbn beta. intros [n r] s2 (B & G2 & O2 & En & Full). cbn [fst snd] in *. fold (ms (write_timeout h)) in *.
  destruct (Z.leb_spec r 0) as [R0|R0], (Z.eqb_spec n 0) as [->|N0]; cbn [andb].
  - split; [lia |]. split; [done |]. split; [by rewrite O2, (Z2Nat.nonpos r) |]. exists h. split; [done |]. right.
    destruct En as [E|(L & _ & s3 & p & s4 & A & Ep & Er)]; cbn [fst snd] in *.
    + destruct (Full ltac:(lia)) as [[= E1 ->] ->]. left. split; [done |]. right. by destruct buf.
    + right. exists s3, p, s4, r. rewrite (Z.max_l 0 r), (Z2Nat.nonpos r) by done. auto 10.
  - split; [lia |]. do 2 (split; [done |]). exists h. split; [done |].
    destruct En as [E|(L & _ & s3 & p & s4 & A & Ep & Er)]; [by left |]; cbn [fst snd] in *.
    right. right. exists s3, p, s4, r. rewrite Z.max_r by lia. split; [done |]. do 4 (split; [done |]). lia.
  - split; [lia |]. do 2 (split; [done |]). exists h. split; [done |].
    destruct En as [E|(L & R & _)]; [by left | cbn in R; lia].
  - split; [lia |]. do 2 (split; [done |]). exists h. split; [done |].
    destruct En as [E|(L & R & _)]; [by left | cbn in R; lia].
Qed.

(** C26: [write] and [send] of a coroutine on a descriptor it takes for a
    blocking one (hooks enabled, a record in the table, not O_NONBLOCK) always
    return, whatever part the system takes at each try and although it may
    refuse the first: the bytes that reach the system are the first [n] of the
    buffer, in order and once, where [n] is the count returned (none for -1).
    [n] is the whole buffer unless the first try answered 0, or the buffer is
    empty and the first try failed, or the last thing the call did was to wait
    in [poll] for the descriptor and to try the rest again, which the system
    refused; every try but the first follows such a wait, and a refusal of the
    first try alone never ends the call.  The event loop is left in order.
    Assumed: the loop is in order at the start, the other coroutines leave the
    item of this one alone and write nothing to the descriptor, the system
    takes a prefix of what it is given, and the clock is in range. *)
Theorem hook_write_all buf flags s : good conds (loop s) -> blocks s ->
  (exists n s', write self hooked f buf s = Ret n s' /\ wrote (sys_write f) buf n s s') /\
  (exists n s', send self hooked f buf flags s = Ret n s' /\ wrote (sys_send f flags) buf n s s').
Proof.
  intros G B. split; apply twp_Ret, write_with_ok; try done; intros b k; [apply write_takes | apply send_takes].
Qed.
End spec.

Lemma merged_length fds l m : merged fds l m -> length l = length fds -> NoDup (fd <$> fds).
Proof.
  intros G L. assert ((fd <$> l) ≡ₚ (fd <$> fds)) as P.
  { apply submseteq_length_Permutation; [| by rewrite !length_fmap, L].
    apply NoDup_submseteq; [by eapply merged_nodup |]. intros f. apply (mg_fds _ _ _ G). }
  rewrite <- P. by eapply merged_nodup.
Qed.

Section poll.
Context `{Epoll, Sys, !Others} (self : Z).

(** C27: [poll] on an array that names a descriptor more than once waits on
    every descriptor once, for all the events asked for it, and then reports
    to each entry what was reported for its descriptor, cut down to the
    events of the entry; when nothing was reported the array is unchanged.
    The count returned is that of the merged array. *)
Theorem hook_poll_merges fds old timeout s r rev s' : ~ NoDup (fd <$> fds) -> timeout <> 0 -> length old = length fds ->
  poll self true fds old timeout s = Ret (r, rev) s' ->
  exists l rl, co_poll_inner self l timeout s = Ret (r, rl) s' /\
    NoDup (fd <$> l) /\ (forall f, f ∈ (fd <$> l) <-> f ∈ (fd <$> fds)) /\
    (forall q, q ∈ l -> events q = asked (fd q) fds) /\
    (r <= 0 -> rev = old) /\
    (0 < r -> forall i p, fds !! i = Some p -> exists j q, l !! j = Some q /\ fd q = fd p /\ rev !! i = Some (Z.land (nth j rl 0) (events p))).
Proof.
  intros D T Lo. pose proof (merge_ok fds) as G. unfold poll. rewrite (proj2 (Z.eqb_neq _ _) T). cbn [negb orb].
  assert (1 < length fds)%nat as Ln.
  { destruct fds as [|p0 [|p1 fds]]; [by destruct D; apply NoDup_nil_2 | by destruct D; apply NoDup_singleton | cbn; lia]. }
  rewrite bool_decide_true by done. destruct (merge fds) as [l m]. cbn [fst snd] in G.
  rewrite (bool_decide_false (length l = length fds)) by (intros E; by apply D, (merged_length fds l m)).
  rewrite (bool_decide_false (length fds = 1%nat)) by lia. cbn [orb]. unfold mbind at 1, M_bind at 1.
  destruct (co_poll_inner self l timeout s) as [[r' rl] s1| |] eqn:E; try done. cbn [fst snd]. intros [= <- <- <-].
  exists l, rl. split; [done |]. split; [by eapply merged_nodup |]. split; [apply (mg_fds _ _ _ G) |]. split; [apply (mg_events _ _ _ G) |].
  split; [by destruct (Z.ltb_spec 0 r'); [lia |] |]. intros R. rewrite (proj2 (Z.ltb_lt _ _) R). intros i p P.
  destruct (proj2 (merged_elem _ _ _ (fd p) G)) as [j J]; [by apply list_elem_of_fmap_2; eapply list_elem_of_lookup_2 |].
  destruct (lookup_lt_is_Some_2 old i) as [o O]; [rewrite Lo; by eapply lookup_lt_Some |].
  pose proof J as (q & Q & Fq)%(mg_index _ _ _ G). exists j, q. split; [done |]. split; [done |].
  rewrite lookup_zip_with, P, O. cbn. by rewrite J.
Qed.
End poll.

(** ** The flags *)

(** The status flags of a descriptor: [F_GETFL] answers them, a successful
    [F_SETFL] sets [O_NONBLOCK] (bit 11) as asked. *)
Class FlagsSpec `{Sys} := {
  flags_of : Z -> K -> Z;
  getfl : forall f k, exists e, sys_fcntl f F_GETFL 0 k = (flags_of f k, e, k) ;
  setfl : forall f fl k, fst (fst (sys_fcntl f F_SETFL fl k)) = 0 ->
    Z.testbit (flags_of f (snd (sys_fcntl f F_SETFL fl k))) 11 = Z.testbit fl 11 }.

Lemma nonblock_bit a i : 0 <= i -> Z.testbit (Z.land a (Z.lnot O_NONBLOCK)) i = Z.testbit a i && negb (i =? 11).
Proof.
  intros I. rewrite Z.land_spec, Z.lnot_spec by done. change O_NONBLOCK with (2 ^ 11). by rewrite Z.pow2_bits_eqb, Z.eqb_sym by lia.
Qed.

Lemma nonblock_zero a : (Z.land a O_NONBLOCK =? 0) = negb (Z.testbit a 11).
Proof.
  change O_NONBLOCK with (2 ^ 11). destruct (Z.testbit a 11) eqn:E; cbn.
  - apply Z.eqb_neq. intros Z0. apply (f_equal (fun z => Z.testbit z 11)) in Z0. by rewrite Z.land_spec, E in Z0.
  - apply Z.eqb_eq, Z.bits_inj'. intros i I. rewrite Z.land_spec, Z.pow2_bits_eqb, Z.bits_0 by lia.
    destruct (Z.eqb_spec 11 i) as [<-|]; by rewrite ?E, ?andb_false_r.
Qed.

#[local] Arguments Z.testbit : simpl never.

Section flags.
Context `{Epoll, Sys, !FlagsSpec}.

(** A coroutine that sets the flags of a hooked descriptor reads back its
    own choice of [O_NONBLOCK] and otherwise the flags of the system, while
    the descriptor itself never blocks. *)
Theorem hook_flags_roundtrip f p s s1 : 0 <= f < 102400 -> is_Some (g_rpchook_socket_fd s !! f) ->
  fcntl true f F_SETFL p s = Ret 0 s1 ->
  Z.testbit (flags_of f (kernel s1)) 11 = true /\
  exists fl s2, fcntl true f F_GETFL 0 s1 = Ret fl s2 /\
    forall i, 0 <= i -> Z.testbit fl i = if i =? 11 then Z.testbit p 11 else Z.testbit (flags_of f (kernel s1)) i.
Proof.
  intros F [h Hh]. assert (in_table f = true) as Tb by (unfold in_table; lia).
  assert ((f <? 0) = false) as Nf by lia. pose proof (setfl f (Z.lor p O_NONBLOCK) (kernel s)) as Sf.
  unfold fcntl, get_by_fd, gets, mbind, M_bind, sys. rewrite Nf, Tb, Hh.
  change (F_SETFL =? F_GETFL) with false. change (F_SETFL =? F_SETFL) with true. change (F_GETFL =? F_GETFL) with true.
  rewrite bool_decide_true by done. cbn.
  destruct (sys_fcntl f F_SETFL (Z.lor p O_NONBLOCK) (kernel s)) as [[r e] k] eqn:E. cbn in Sf.
  destruct (Z.eqb_spec 0 r) as [<-|n]; cbn; [| intros Er; injection Er as Er _; by destruct n]. intros Er. injection Er as <-. cbn.
  rewrite lookup_alter_eq, Hh. cbn. destruct (getfl f k) as [e' Eg]. rewrite Eg.
  assert (Z.testbit (flags_of f k) 11 = true) as Nb by (rewrite Sf, Z.lor_spec by done; apply orb_true_r).
  split; [done |]. eexists _, _. split; [done |]. intros i I. rewrite nonblock_zero.
  destruct (Z.testbit p 11); cbn; [| rewrite nonblock_bit by done]; destruct (Z.eqb_spec i 11) as [->|]; cbn; rewrite ?Nb, ?andb_true_r; done.
Qed.
End flags.

(** ** A system *)

(** It refuses the first write and then takes two bytes at a time. *)
Record kern := mk_kern { k_out : gmap Z bytes; k_flags : gmap Z Z; k_ready : bool }.

Definition kern_write (f : Z) (b : bytes) (k : kern) : (Z * Z) * kern :=
  if k_ready k then
    (Z.of_nat (length (take 2 b)), 0, mk_kern (<[f := default [] (k_out k !! f) ++ take 2 b]> (k_out k)) (k_flags k) true)
  else (-1, EAGAIN, mk_kern (k_out k) (k_flags k) true).

Definition kern_fcntl (f cmd p : Z) (k : kern) : (Z * Z) * kern :=
  if cmd =? F_GETFL then (default 0 (k_flags k !! f), 0, k)
  else if cmd =? F_SETFL then (0, 0, mk_kern (k_out k) (<[f := p]> (k_flags k)) (k_ready k))
  else (-1, EINVAL, k).

#[local] Instance kern_sys : Sys := {|
  K := kern;
  GetTickMS _ := 1000;
  sys_socket _ _ _ k := (-1, EINVAL, k);
  sys_accept _ k := (-1, EINVAL, k);
  sys_connect _ _ k := (-1, EINVAL, k);
  sys_so_error _ k := (0, 0, 0, k);
  sys_close _ k := (0, 0, k);
  sys_read _ _ k := (-1, EAGAIN, [], k);
  sys_recv _ _ _ k := (-1, EAGAIN, [], k);
  sys_recvfrom _ _ _ k := (-1, EAGAIN, [], k);
  sys_write := kern_write;
  sys_send f _ := kern_write f;
  sys_sendto f _ _ := kern_write f;
  sys_poll l _ k := (0, 0, replicate (length l) 0, k);
  sys_setsockopt _ _ _ _ k := (0, 0, k);
  sys_fcntl := kern_fcntl |}.

Lemma kern_takes f b k : let '(r, _, k') := kern_write f b k in
  r <= zlen b /\ default [] (k_out k' !! f) = default [] (k_out k !! f) ++ take (Z.to_nat r) b.
Proof.
  unfold kern_write. destruct (k_ready k); cbn [k_out].
  - rewrite lookup_insert_eq, Nat2Z.id, length_take. cbn [default from_option id]. split; [unfold zlen; lia |]. f_equal.
    destruct (decide (2 <= length b)%nat); [by rewrite Nat.min_l | rewrite Nat.min_r by lia; by rewrite !take_ge by lia].
  - cbn. rewrite app_nil_r. split; [unfold zlen; lia | done].
Qed.

#[local] Instance kern_spec : @SysSpec kern_sys.
Proof.
  refine (@Build_SysSpec kern_sys (fun f (k : kern) => default [] (k_out k !! f)) _ _ _ _).
  - intros k. unfold clock_ok. cbn. lia.
  - apply kern_takes.
  - intros f flags. apply kern_takes.
  - done.
Defined.

#[local] Instance kern_flags : @FlagsSpec kern_sys.
Proof.
  refine (@Build_FlagsSpec kern_sys (fun f (k : kern) => default 0 (k_flags k !! f)) _ _).
  - intros f k. by exists 0.
  - intros f fl k _. change (Z.testbit (default 0 (<[f := fl]> (k_flags k) !! f)) 11 = Z.testbit fl 11). by rewrite lookup_insert_eq.
Defined.

(** The others do nothing: the loop takes the item off its lists. *)
#[local] Instance nobody : @Others epoll_map kern_sys := fun x s =>
  match RemoveFromLink x (tl (loop s)) with Some h => set_loop (set_tl (loop s) h) s | None => s end.

#[local] Instance nobody_spec f : @OthersSpec epoll_map kern_sys kern_spec nobody conds0 f.
Proof.
  split.
  - intros x s i (a & c & K0) X Ci. destruct (ok_remove conds0 (loop s) a c None x K0) as (h & E & K1 & _); [by rewrite X | by left |].
    exists (remove x a), c, i. unfold others, nobody. by rewrite E.
  - intros x s. unfold others, nobody. by destruct (RemoveFromLink x (tl (loop s))).
Defined.

(** Descriptor 5 is hooked, and the loop is new. *)
Definition world0 : World := mk _ _ {[5 := hook0]} loop0 (mk_kern ∅ ∅ false) 0.

Definition answers {S A} `{EqDecision A} (o : outcome S A) (a : A) : bool :=
  match o with Ret b _ => bool_decide (b = a) | _ => false end.
Lemma answers_ret {S A} `{EqDecision A} (o : outcome S A) (a : A) : answers o a = true -> exists s, o = Ret a s.
Proof. destruct o as [b s| |]; try done. intros ->%bool_decide_eq_true. by exists s. Qed.

Lemma world0_good : good conds0 (loop world0).
Proof. exact (proj1 loop0_settled). Qed.

Lemma hook_write_all_witness : blocks 5 true world0 /\
  exists n s', write 7 true 5 (str_bytes "hello") world0 = Ret n s' /\ wrote conds0 5 7 true (sys_write 5) (str_bytes "hello") n world0 s'.
Proof.
  assert (blocks 5 true world0) as B by (split; [done |]; split; [done |]; exists hook0; done).
  split; [done |]. exact (proj1 (hook_write_all conds0 5 7 true (str_bytes "hello") 0 world0 world0_good B)).
Defined.

Lemma set_flags0 : exists s1, fcntl true 5 F_SETFL 2 world0 = Ret 0 s1.
Proof. apply answers_ret. vm_compute. reflexivity. Qed.

Lemma hook_flags_roundtrip_witness : exists s1, fcntl true 5 F_SETFL 2 world0 = Ret 0 s1 /\
  Z.testbit (flags_of 5 (kernel s1)) 11 = true /\
  exists fl s2, fcntl true 5 F_GETFL 0 s1 = Ret fl s2 /\
    forall i, 0 <= i -> Z.testbit fl i = if i =? 11 then Z.testbit 2 11 else Z.testbit (flags_of 5 (kernel s1)) i.
Proof.
  destruct set_flags0 as [s1 E]. exists s1. split; [done |]. apply (hook_flags_roundtrip 5 2 world0); [lia | by exists hook0 | done].
Defined.

(** Descriptor 5 becomes readable while the others run. *)
#[local] Instance readable : @Others epoll_map kern_sys := fun x s =>
  match upd_item x (raise_event 0 POLLIN) (loop s) with Ret _ l => nobody x (set_loop l s) | _ => s end.

Definition twice : list pollfd := [mk_pollfd 5 POLLIN; mk_pollfd 5 POLLOUT].

Lemma poll_twice : exists s', @poll epoll_map kern_sys readable 7 true twice [0; 0] 100 world0 = Ret (1, [POLLIN; 0]) s'.
Proof. apply answers_ret. vm_compute. reflexivity. Qed.

Lemma hook_poll_merges_witness : exists s' l rl, @co_poll_inner epoll_map kern_sys readable 7 l 100 world0 = Ret (1, rl) s' /\
  NoDup (fd <$> l) /\ forall q, q ∈ l -> events q = asked (fd q) twice.
Proof.
  destruct poll_twice as [s' E]. exists s'.
  assert (~ NoDup (fd <$> twice)) as D by (intros [N _]%NoDup_cons; apply N; by left).
  destruct (@hook_poll_merges epoll_map kern_sys readable 7 twice [0; 0] 100 world0 1 [POLLIN; 0] s' D ltac:(lia) eq_refl E)
    as (l & rl & P & N & _ & Ev & _).
  exists l, rl. exact (conj P (conj N Ev)).
Defined.
End CoHook.
