(* ===== verification/CFloat.v ===== *)
(** * CFloat: the floating-point numbers of C

    [double] and [long double] (the 80-bit format of x86) as values of the
    Standard Library's [spec_float], with the conversions and the [printf]
    formats that the JSON code uses. *)

From S2P Require Import Prelude.
From Stdlib Require Import SpecFloat.

#[local] Open Scope Z_scope.

Module CFloat.

Abbreviation double := spec_float.

#[global] Instance spec_float_eq_dec : EqDecision spec_float.
Proof. solve_decision. Defined.

(** Rounds [m * 2 ^ e] to a [double], to a [long double]. *)
Definition to_double (m e : Z) : double := binary_normalize 53 1024 m e false.
Definition to_long_double (m e : Z) : spec_float := binary_normalize 64 16384 m e false.

(** The value [m * 2 ^ e] of a finite number. *)
Definition value (f : spec_float) : option (Z * Z) :=
  match f with
  | S754_zero _ => Some (0, 0)
  | S754_finite s m e => Some ((if s then Z.neg m else Z.pos m), e)
  | _ => None
  end.

Definition sign_bit (f : spec_float) : bool :=
  match f with S754_zero s | S754_infinity s | S754_finite s _ _ => s | S754_nan => false end.

(** Conversion between the formats. *)
Definition convert (to : Z -> Z -> spec_float) (f : spec_float) : spec_float :=
  match value f with Some (0, _) | None => f | Some (m, e) => to m e end.

(** Truncation towards zero; [None] for infinities and NaN. *)
Definition trunc (f : spec_float) : option Z :=
  '(m, e) ← value f; Some (if 0 <=? e then m * 2 ^ e else Z.quot m (2 ^ (- e))).

(** [floor], exact in the format. *)
Definition floor (f : double) : double :=
  match value f with
  | Some (m, e) => if 0 <=? e then f else to_double (m / 2 ^ (- e)) 0
  | None => f
  end.

Definition long_mul (x y : spec_float) : spec_float := SFmul 64 16384 x y.
Definition sub (x y : double) : double := SFsub 53 1024 x y.

(** Rounds [n / d] to an integer, ties to even. *)
Definition div_even (n d : Z) : Z :=
  let q := n / d in
  let r := n mod d in
  if (2 * r <? d) || ((2 * r =? d) && Z.even q) then q else q + 1.

(** Pads with zeroes on the left to [k] digits. *)
Definition pad0 (k : nat) (l : bytes) : bytes := replicate (k - length l) "0"%char ++ l.

Definition digits_of (n : Z) : bytes := str_bytes (pretty n).

(** [sprintf] with the format [%.kf]: the decimal with [k] digits behind the
    point that is nearest to the exact value. *)
Definition print_f (k : nat) (f : double) : bytes :=
  (if sign_bit f then ["-"%char] else []) ++
  match f with
  | S754_nan => str_bytes "nan"
  | S754_infinity _ => str_bytes "inf"
  | _ =>
      let '(m, e) := default (0, 0) (value f) in
      let n := Z.abs m * 10 ^ Z.of_nat k in
      let q := if 0 <=? e then n * 2 ^ e else div_even n (2 ^ (- e)) in
      let p := 10 ^ Z.of_nat k in
      digits_of (q / p) ++ (if bool_decide (k = 0%nat) then [] else "."%char :: pad0 k (digits_of (q mod p)))
  end.

(** [sprintf] with the format [%e]: one digit in front of the point, six behind
    it.  The decimal exponent is found from the number of digits of the value
    times [10 ^ 400]; every positive double is above [10 ^ -400]. *)
Definition print_e (f : double) : bytes :=
  (if sign_bit f then ["-"%char] else []) ++
  match f with
  | S754_nan => str_bytes "nan"
  | S754_infinity _ => str_bytes "inf"
  | S754_zero _ => str_bytes "0.000000e+00"
  | S754_finite _ m e =>
      let n := if 0 <=? e then Z.pos m * 2 ^ e else Z.pos m in
      let d := if 0 <=? e then 1 else 2 ^ (- e) in
      let x := Z.of_nat (length (digits_of (n * 10 ^ 400 / d))) - 401 in
      let q := if x <=? 6 then div_even (n * 10 ^ (6 - x)) d else div_even n (d * 10 ^ (x - 6)) in
      let '(q, x) := if q =? 10 ^ 7 then (10 ^ 6, x + 1) else (q, x) in
      digits_of (q / 10 ^ 6) ++ "."%char :: pad0 6 (digits_of (q mod 10 ^ 6)) ++
      "e"%char :: (if x <? 0 then "-"%char else "+"%char) :: pad0 2 (digits_of (Z.abs x))
  end.

(** [(float)d] *)
Definition to_float (d : double) : spec_float := convert (fun m e => binary_normalize 24 128 m e false) d.

End CFloat.
