(* ===== verification/CJson.v ===== *)
(** * CJson: reading and writing JSON text

    Model of the parser and the printer of [util/json/cJSON.c].  A pointer
    into the text is the rest of its block, from the pointer to the
    terminating zero; a read behind the zero, a write behind the end of an
    allocated buffer and an overflow of a signed number are the value [None].
    An item owns the list of its children; [next] and [prev] are the positions
    in that list.  Allocations succeed. *)

From S2P Require Import Prelude Util CFloat.
From Stdlib Require Import SpecFloat.
Import Util CFloat.

#[local] Open Scope Z_scope.

Module CJson.

(** ** Items *)

Definition cJSON_False : Z := 0.
Definition cJSON_True : Z := 1.
Definition cJSON_NULL : Z := 2.
Definition cJSON_Int : Z := 3.
Definition cJSON_Double : Z := 4.
Definition cJSON_String : Z := 5.
Definition cJSON_Array : Z := 6.
Definition cJSON_Object : Z := 7.

Unset Elimination Schemes.
Inductive cJSON := mk_item
  (type_ : Z) (valuestring_ : option bytes) (valueint_ : Z) (valuedouble_ : double) (sign_ : Z)
  (string_ : option bytes) (child_ : list cJSON).
Set Elimination Schemes.

Definition type (i : cJSON) := let '(mk_item x _ _ _ _ _ _) := i in x.
Definition valuestring (i : cJSON) := let '(mk_item _ x _ _ _ _ _) := i in x.
Definition valueint (i : cJSON) := let '(mk_item _ _ x _ _ _ _) := i in x.
Definition valuedouble (i : cJSON) := let '(mk_item _ _ _ x _ _ _) := i in x.
Definition sign (i : cJSON) := let '(mk_item _ _ _ _ x _ _) := i in x.
Definition string (i : cJSON) := let '(mk_item _ _ _ _ _ x _) := i in x.
Definition child (i : cJSON) := let '(mk_item _ _ _ _ _ _ x) := i in x.

(** [cJSON_New_Item] *)
Definition cJSON_New_Item : cJSON := mk_item 0 None 0 (S754_zero false) 0 None [].

Definition set_type x (i : cJSON) := let '(mk_item _ s n d g k c) := i in mk_item x s n d g k c.
Definition set_int x (i : cJSON) := let '(mk_item t s _ d g k c) := i in mk_item t s x d g k c.
Definition set_text x (i : cJSON) := let '(mk_item _ _ n d g k c) := i in mk_item cJSON_String (Some x) n d g k c.
Definition set_number t n d g (i : cJSON) := let '(mk_item _ s _ _ _ k c) := i in mk_item t s n d g k c.
Definition set_child x (i : cJSON) := let '(mk_item t s n d g k _) := i in mk_item t s n d g k x.
Definition set_string x (i : cJSON) := let '(mk_item t s n d g _ c) := i in mk_item t s n d g x c.
(** [child->string = child->valuestring; child->valuestring = 0;] *)
Definition take_name (i : cJSON) := let '(mk_item t s n d g _ c) := i in mk_item t None n d g s c.

(** ** Text *)

Abbreviation ptr := bytes.

Definition dq : ascii := "034"%char.
Definition bs : ascii := "\"%char.
Definition NUL : ascii := "000"%char.

Definition is_09 (c : ascii) : bool := (48 <=? uchar c) && (uchar c <=? 57).
Definition digit_value (c : ascii) : Z := uchar c - 48.
Definition eqc (a b : ascii) : bool := bool_decide (a = b).

(** [strncmp(p, w, strlen(w)) == 0] *)
Fixpoint starts (w p : bytes) : option bool :=
  match w, p with
  | [], _ => Some true
  | _, [] => None
  | a :: w, c :: p => if eqc a c then starts w p else Some false
  end.

(** What the parser makes of a text: an item and the rest, the place of the
    error ([ep]), or nothing because the fuel is used up. *)
Inductive result := Good (i : cJSON) (p : ptr) | Bad (ep : ptr) | Unfinished.

(** ** Numbers *)

(** Integers in a [long double]: 64 significant bits, [None] is infinity. *)
Definition long_round (z : Z) : option Z :=
  let k := Z.log2 z - 63 in
  let r := if k <=? 0 then z else div_even z (2 ^ k) * 2 ^ k in
  if r <? 2 ^ 16384 then Some r else None.
Definition long_digit (n : option Z) (c : ascii) : option Z :=
  n ← n; n ← long_round (n * 10); long_round (n + digit_value c).

(** [do n = n * 10.0 + ...; while (digit)]: [n], the number of digits, the
    rest. *)
Fixpoint read_digits (n : option Z) (k : Z) (p : ptr) : option (option Z * Z * ptr) :=
  match p with
  | [] => None
  | c :: q => if is_09 c then read_digits (long_digit n c) (k + 1) q else Some (n, k, p)
  end.

(** [while (digit) subscale = subscale * 10 + ...], an [int]. *)
Fixpoint read_exp (subscale : Z) (p : ptr) : option (Z * ptr) :=
  match p with
  | [] => None
  | c :: q =>
      if is_09 c then
        if INT_MAX <? subscale * 10 + digit_value c then None else read_exp (subscale * 10 + digit_value c) q
      else Some (subscale, p)
  end.

(** The library's [pow(10.0, x)], and the conversion to [uint64] of a number
    that has no value there, which C leaves undefined and the machine does
    not. *)
Class Libm := { pow10 : Z -> double; cast_out : option spec_float -> Z }.

Section parse.
Context `{Libm}.

Definition cast_u64 (n : option Z) : Z :=
  match n with
  | Some z => if (0 <=? z) && (z <? 2 ^ 64) then z else cast_out (Some (to_long_double z 0))
  | None => cast_out None
  end.

(** [(uint64)n] of a floating-point number. *)
Definition cast_float (n : spec_float) : Z :=
  match trunc n with
  | Some z => if (0 <=? z) && (z <? 2 ^ 64) then z else cast_out (Some n)
  | None => cast_out (Some n)
  end.

(** The digits in front of the point, and those behind it, as one number; the
    scale is that of the digits behind the point. *)
Definition int_part (num : ptr) : option (option Z * ptr) :=
  c ← head num;
  let num := if eqc c "0" then tail num else num in
  c ← head num;
  if is_09 c && negb (eqc c "0") then '(n, _, num) ← read_digits (Some 0) 0 num; Some (n, num) else Some (Some 0, num).

Definition frac_part (n : option Z) (num : ptr) : option (option Z * Z * ptr) :=
  c ← head num;
  if eqc c "." then
    d ← head (tail num);
    if is_09 d then '(n, k, num) ← read_digits n 0 (tail num); Some (n, - k, num) else Some (n, 0, num)
  else Some (n, 0, num).

(** The exponent, with its sign. *)
Definition number_exp (num : ptr) : option (Z * ptr) :=
  c ← head num;
  if eqc c "e" || eqc c "E" then
    let num := tail num in
    c ← head num;
    let signsubscale := if eqc c "-" then -1 else 1 in
    let num := if eqc c "+" || eqc c "-" then tail num else num in
    '(subscale, num) ← read_exp 0 num;
    Some (subscale * signsubscale, num)
  else Some (0, num).

Definition parse_number (item : cJSON) (num : ptr) : option result :=
  c ← head num;
  let sign := if eqc c "-" then -1 else 1 in
  let num := if eqc c "-" then tail num else num in
  '(n, num) ← int_part num;
  '(n, scale, num) ← frac_part n num;
  '(subscale, num) ← number_exp num;
  if (scale =? 0) && (subscale =? 0) then
    let v := u64 (sign * cast_u64 n) in
    Some (Good (set_number cJSON_Int v (to_double v 0) sign item) num)
  else
    let n := match n with
             | Some 0 => S754_zero (sign <? 0)
             | Some z => to_long_double (sign * z) 0
             | None => S754_infinity (sign <? 0)
             end in
    let n := long_mul n (convert to_long_double (pow10 (scale + subscale))) in
    Some (Good (set_number cJSON_Double (cast_float n) (convert to_double n) sign item) num).

(** ** Strings *)

(** The loop that measures the string. *)
Fixpoint scan_string (len : Z) (p : ptr) : option Z :=
  match p with
  | [] => None
  | c :: q =>
      if eqc c dq || eqc c NUL then Some len
      else if eqc c bs then match q with [] => None | _ :: q => scan_string (len + 1) q end
      else scan_string (len + 1) q
  end.

(** [sscanf(p, "%4x", &uc)]: blanks, a sign, [0x], digits; [Some None] if
    nothing matches. *)
Definition hex_value (c : ascii) : option Z :=
  let v := uchar c in
  if (48 <=? v) && (v <=? 57) then Some (v - 48)
  else if (65 <=? v) && (v <=? 70) then Some (v - 55)
  else if (97 <=? v) && (v <=? 102) then Some (v - 87) else None.

Fixpoint hex_digits (w : nat) (acc : option Z) (p : ptr) : option (option Z) :=
  match w with
  | O => Some acc
  | S w =>
      match p with
      | [] => None
      | c :: p => match hex_value c with Some v => hex_digits w (Some (default 0 acc * 16 + v)) p | None => Some acc end
      end
  end.

Fixpoint skip_blanks (p : ptr) : option ptr :=
  match p with [] => None | c :: q => if is_space c then skip_blanks q else Some p end.

Definition sscanf_4x (p : ptr) : option (option Z) :=
  p ← skip_blanks p;
  c ← head p;
  let neg := eqc c "-" in
  let signed := neg || eqc c "+" in
  let p := if signed then tail p else p in
  let w := if signed then 3%nat else 4%nat in
  c ← head p;
  r ← (if eqc c "0" then
         d ← head (tail p);
         if eqc d "x" || eqc d "X" then hex_digits (w - 2) None (tail (tail p)) else hex_digits w None p
       else hex_digits w None p);
  Some (v ← r; Some (u32 (if neg then - v else v))).

(** [firstByteMark], and the bytes of a code point. *)
Definition firstByteMark (len : nat) : Z := nth len [0x00; 0x00; 0xC0; 0xE0; 0xF0; 0xF8; 0xFC] 0.
Definition utf8_len (uc : Z) : nat :=
  if uc <? 0x80 then 1%nat else if uc <? 0x800 then 2%nat else if uc <? 0x10000 then 3%nat else 4%nat.
Fixpoint utf8_back (k len : nat) (uc : Z) : bytes :=
  match k with
  | O | 1%nat => [char_of (Z.lor uc (firstByteMark len))]
  | S k => utf8_back k len (Z.shiftr uc 6) ++ [char_of (Z.land (Z.lor uc 0x80) 0xBF)]
  end.
Definition utf8 (uc : Z) : bytes := utf8_back (utf8_len uc) (utf8_len uc) uc.

(** Writes to the buffer of [cap] bytes behind [out]. *)
Definition emit (cap : Z) (out l : bytes) : option bytes :=
  if zlen out + zlen l <=? cap then Some (out ++ l) else None.

(** The variables [uc] and [uc2]; [None] while they are not initialised. *)
Abbreviation regs := (option Z * option Z)%type.

(** [uc] after the bytes of a code point have been written. *)
Definition used (uc : Z) : Z := Z.shiftr uc (6 * (Z.of_nat (utf8_len uc) - 1)).

(** [case 'u'], from the letter on: the code point if there is one to write,
    the variables and the pointer to the last character. *)
Definition read_u (v : regs) (p : ptr) : option (option Z * regs * ptr) :=
  r ← sscanf_4x (tail p);
  uc ← (match r with Some x => Some x | None => fst v end);
  let p := drop 4 p in
  if ((0xDC00 <=? uc) && (uc <=? 0xDFFF)) || (uc =? 0) then Some (None, (Some uc, snd v), p) else
  if (0xD800 <=? uc) && (uc <=? 0xDBFF) then
    c1 ← head (tail p);
    if negb (eqc c1 bs) then Some (None, (Some uc, snd v), p) else
    c2 ← head (tail (tail p));
    if negb (eqc c2 "u") then Some (None, (Some uc, snd v), p) else
    r ← sscanf_4x (drop 3 p);
    uc2 ← (match r with Some x => Some x | None => snd v end);
    let p := drop 6 p in
    if (uc2 <? 0xDC00) || (0xDFFF <? uc2) then Some (None, (Some uc, Some uc2), p) else
    let uc := Z.lor (Z.lor 0x10000 (Z.shiftl (Z.land uc 0x3FF) 10)) (Z.land uc2 0x3FF) in
    Some (Some uc, (Some (used uc), Some uc2), p)
  else Some (Some uc, (Some (used uc), snd v), p).

(** The letters that stand for a control character. *)
Definition escape (c : ascii) : option ascii :=
  if eqc c "b" then Some "008"%char else if eqc c "f" then Some "012"%char
  else if eqc c "n" then Some "010"%char else if eqc c "r" then Some "013"%char
  else if eqc c "t" then Some "009"%char else None.

(** The loop that copies: what is written, and the pointer behind it. *)
Fixpoint copy_string (fuel : nat) (cap : Z) (v : regs) (out : bytes) (p : ptr) : option (option (bytes * ptr)) :=
  match fuel with
  | O => Some None
  | S fuel =>
      c ← head p;
      if eqc c dq || eqc c NUL then Some (Some (out, p))
      else if negb (eqc c bs) then
        out ← emit cap out [c];
        copy_string fuel cap v out (tail p)
      else
        let p := tail p in
        c ← head p;
        if eqc c "u" then
          '(w, v, p) ← read_u v p;
          out ← (match w with Some x => emit cap out (utf8 x) | None => Some out end);
          copy_string fuel cap v out (tail p)
        else
          out ← emit cap out [default c (escape c)];
          copy_string fuel cap v out (tail p)
  end.

Definition parse_string (item : cJSON) (str : ptr) : option result :=
  c ← head str;
  if negb (eqc c dq) then Some (Bad str) else
  len ← scan_string 0 (tail str);
  if INT_MAX <? len then None else
  r ← copy_string (length str) (len + 1) (None, None) [] (tail str);
  match r with
  | None => Some Unfinished
  | Some (out, p) =>
      out' ← emit (len + 1) out [NUL];
      c ← head p;
      Some (Good (set_text out item) (if eqc c dq then tail p else p))
  end.

(** ** Values *)

Fixpoint skip (p : ptr) : option ptr :=
  match p with
  | [] => None
  | c :: q => if negb (eqc c NUL) && (uchar c <=? 32) then skip q else Some p
  end.

(** [value = skip(...); if (!value) return 0;] *)
Definition then_skip (r : option result) (k : cJSON -> ptr -> option result) : option result :=
  r ← r;
  match r with
  | Good i p => p ← skip p; k i p
  | _ => Some r
  end.

(** [*value != ':'] and the value of a member. *)
Definition parse_member (parse : cJSON -> ptr -> option result) (p : ptr) (k : cJSON -> ptr -> option result) : option result :=
  p ← skip p;
  then_skip (parse_string cJSON_New_Item p) (fun i p =>
    c ← head p;
    if negb (eqc c ":") then Some (Bad p) else
    p ← skip (tail p);
    then_skip (parse (take_name i) p) k).

(** [while ( *value == ',' )], then the closing bracket. *)
Fixpoint parse_value (fuel : nat) (item : cJSON) (value : ptr) : option result :=
  match fuel with
  | O => Some Unfinished
  | S fuel =>
      is_null ← starts (str_bytes "null") value;
      if is_null : bool then Some (Good (set_type cJSON_NULL item) (drop 4 value)) else
      is_false ← starts (str_bytes "false") value;
      if is_false : bool then Some (Good (set_type cJSON_False item) (drop 5 value)) else
      is_true ← starts (str_bytes "true") value;
      if is_true : bool then Some (Good (set_int 1 (set_type cJSON_True item)) (drop 4 value)) else
      c ← head value;
      if eqc c dq then parse_string item value else
      if eqc c "-" || is_09 c then parse_number item value else
      if eqc c "[" then
        p ← skip (tail value);
        c ← head p;
        if eqc c "]" then Some (Good (set_type cJSON_Array item) (tail p)) else
        p ← skip p;
        then_skip (parse_value fuel cJSON_New_Item p) (fun i p =>
          parse_array_rest fuel (set_type cJSON_Array item) [i] p)
      else if eqc c "{" then
        p ← skip (tail value);
        c ← head p;
        if eqc c "}" then Some (Good (set_type cJSON_Object item) (tail p)) else
        parse_member (parse_value fuel) p (fun i p =>
          parse_object_rest fuel (set_type cJSON_Object item) [i] p)
      else Some (Bad value)
  end
with parse_array_rest (fuel : nat) (item : cJSON) (cs : list cJSON) (value : ptr) : option result :=
  match fuel with
  | O => Some Unfinished
  | S fuel =>
      c ← head value;
      if eqc c "," then
        p ← skip (tail value);
        then_skip (parse_value fuel cJSON_New_Item p) (fun i p => parse_array_rest fuel item (cs ++ [i]) p)
      else if eqc c "]" then Some (Good (set_child cs item) (tail value))
      else Some (Bad value)
  end
with parse_object_rest (fuel : nat) (item : cJSON) (cs : list cJSON) (value : ptr) : option result :=
  match fuel with
  | O => Some Unfinished
  | S fuel =>
      c ← head value;
      if eqc c "," then
        parse_member (parse_value fuel) (tail value) (fun i p => parse_object_rest fuel item (cs ++ [i]) p)
      else if eqc c "}" then Some (Good (set_child cs item) (tail value))
      else Some (Bad value)
  end.

(** The text is that of a [std::string], up to its first zero.  The result is
    the item, or the rest of the text from the error on. *)
Definition cJSON_Parse (text : bytes) : option (option (cJSON + ptr)) :=
  p ← skip (c_cut text ++ [NUL]);
  r ← parse_value (S (length p)) cJSON_New_Item p;
  Some (match r with Good i _ => Some (inl i) | Bad ep => Some (inr ep) | Unfinished => None end).

End parse.


(** ** Printing *)

(** [sprintf(str, ...)] into a buffer of [cap] bytes. *)
Definition sprintf (cap : Z) (text : bytes) : option bytes := emit cap [] (text ++ [NUL]) ;; Some text.

Definition i64 (z : Z) : Z := if z <? 2 ^ 63 then z else z - 2 ^ 64.

(** [INT_MIN] and [INT_MAX] are converted to [uint64] in the comparisons. *)
Definition print_int (i : cJSON) : option bytes :=
  if sign i =? -1 then
    if (valueint i <=? INT_MAX) && (u64 (- 2 ^ 31) <=? valueint i) then sprintf 22 (dec (valueint i))
    else sprintf 22 (dec (i64 (valueint i)))
  else sprintf 22 (dec (valueint i)).

Definition DBL_EPSILON : double := to_double 1 (-52).

Definition print_double (i : cJSON) : option bytes :=
  let d := valuedouble i in
  if SFleb (SFabs (sub (floor d) d)) DBL_EPSILON then sprintf 64 (print_f 0 d) else sprintf 64 (print_f 6 d).

(** The characters that have an escape of one letter. *)
Definition short_escape (c : ascii) : option ascii :=
  if eqc c bs then Some bs else if eqc c dq then Some dq
  else if eqc c "008" then Some "b"%char else if eqc c "012" then Some "f"%char
  else if eqc c "010" then Some "n"%char else if eqc c "013" then Some "r"%char
  else if eqc c "009" then Some "t"%char else None.

(** The loop that measures. *)
Definition escaped_len (c : ascii) : Z :=
  match short_escape c with Some _ => 2 | None => if uchar c <? 32 then 6 else 1 end.
Definition string_len (s : bytes) : Z := foldr (fun c n => escaped_len c + n) 0 s.

(** [sprintf(ptr2, "u%04x", token)] *)
Definition hex_char (n : Z) : ascii := char_of (if n <? 10 then 48 + n else 87 + n).
Definition hex4 (n : Z) : bytes :=
  [hex_char (n / 4096 mod 16); hex_char (n / 256 mod 16); hex_char (n / 16 mod 16); hex_char (n mod 16)].

(** The loop that writes; the format writes a terminating zero behind its
    text, which is overwritten by what follows. *)
Fixpoint escape_string (cap : Z) (out s : bytes) : option bytes :=
  match s with
  | [] => Some out
  | c :: s =>
      out ← (if (31 <? uchar c) && negb (eqc c dq) && negb (eqc c bs) then emit cap out [c]
             else match short_escape c with
                  | Some e => emit cap out [bs; e]
                  | None => emit cap out (bs :: "u"%char :: hex4 (uchar c) ++ [NUL]) ;;
                            emit cap out (bs :: "u"%char :: hex4 (uchar c))
                  end);
      escape_string cap out s
  end.

Definition print_string_ptr (s : option bytes) : option bytes :=
  match s with
  | None => Some []
  | Some s =>
      let len := string_len s in
      if INT_MAX <? len + 3 then None else
      out ← emit (len + 3) [] [dq];
      out ← escape_string (len + 3) out s;
      out ← emit (len + 3) out [dq];
      emit (len + 3) out [NUL] ;;
      Some out
  end.

Definition tabs (n : Z) : bytes := replicate (Z.to_nat n) "009"%char.

(** The entries of an array, each but the last with its comma. *)
Fixpoint compose_array (cap : Z) (fmt : bool) (out : bytes) (entries : list bytes) : option bytes :=
  match entries with
  | [] => Some out
  | e :: entries =>
      emit cap out (e ++ [NUL]) ;;
      out ← emit cap out e;
      out ← (if bool_decide (entries = []) then Some out
             else let sep := if fmt then [","; " "]%char else [","]%char in
                  emit cap out (sep ++ [NUL]) ;; emit cap out sep);
      compose_array cap fmt out entries
  end.

(** [len], an [int]: the sum of what every entry needs. *)
Definition array_len (fmt : bool) (entries : list bytes) : Z :=
  foldr (fun e n => zlen e + 2 + (if fmt then 1 else 0) + n) 5 entries.

Definition join_array (fmt : bool) (entries : list bytes) : option bytes :=
  let len := array_len fmt entries in
  if INT_MAX <? len then None else
  out ← emit len [] ["["%char];
  emit len out [NUL] ;;
  out ← compose_array len fmt out entries;
  out ← emit len out ["]"%char];
  emit len out [NUL] ;;
  Some out.

Fixpoint compose_object (cap depth : Z) (fmt : bool) (out : bytes) (entries : list (bytes * bytes)) : option bytes :=
  match entries with
  | [] => Some out
  | (n, e) :: entries =>
      out ← emit cap out (if fmt then tabs depth else []);
      emit cap out (n ++ [NUL]) ;;
      out ← emit cap out (n ++ [":"%char] ++ if fmt then ["009"%char] else []);
      emit cap out (e ++ [NUL]) ;;
      out ← emit cap out (e ++ (if bool_decide (entries = []) then [] else [","%char]) ++ if fmt then ["010"%char] else []);
      emit cap out [NUL] ;;
      compose_object cap depth fmt out entries
  end.

Definition object_len (fmt : bool) (depth : Z) (entries : list (bytes * bytes)) : Z :=
  foldr (fun '(n, e) x => zlen e + zlen n + 2 + (if fmt then 2 + depth else 0) + x) (7 + if fmt then depth else 0) entries.

(** [depth] is that of the members. *)
Definition join_object (fmt : bool) (depth : Z) (entries : list (bytes * bytes)) : option bytes :=
  let len := object_len fmt depth entries in
  if INT_MAX <? len then None else
  out ← emit len [] ("{"%char :: if fmt then ["010"%char] else []);
  emit len out [NUL] ;;
  out ← compose_object len depth fmt out entries;
  out ← emit len out ((if fmt then tabs (depth - 1) else []) ++ ["}"%char]);
  emit len out [NUL] ;;
  Some out.

(** The texts of the entries, of the names and the members; [Some None] if one
    of them is a null pointer. *)
Definition array_entries (print : cJSON -> option (option bytes)) : list cJSON -> option (option (list bytes)) :=
  fix entries l :=
    match l with
    | [] => Some (Some [])
    | c :: l =>
        r ← print c;
        match r with
        | None => Some None
        | Some e => rest ← entries l; Some (option_map (cons e) rest)
        end
    end.

Definition object_entries (print : cJSON -> option (option bytes)) : list cJSON -> option (option (list (bytes * bytes))) :=
  fix entries l :=
    match l with
    | [] => Some (Some [])
    | c :: l =>
        name ← print_string_ptr (string c);
        r ← print c;
        rest ← entries l;
        Some (match r, rest with Some e, Some rest => Some ((name, e) :: rest) | _, _ => None end)
    end.

(** [print_value], with [print_array] and [print_object].  [Some None] is a
    null pointer, the answer for an item of no known type. *)
Fixpoint print_value (depth : Z) (fmt : bool) (i : cJSON) {struct i} : option (option bytes) :=
  let '(mk_item t s n d g k cs) := i in
  let ty := Z.land t 255 in
  if ty =? cJSON_NULL then Some (Some (str_bytes "null")) else
  if ty =? cJSON_False then Some (Some (str_bytes "false")) else
  if ty =? cJSON_True then Some (Some (str_bytes "true")) else
  if ty =? cJSON_Int then Some <$> print_int i else
  if ty =? cJSON_Double then Some <$> print_double i else
  if ty =? cJSON_String then Some <$> print_string_ptr s else
  if ty =? cJSON_Array then
    entries ← array_entries (print_value (depth + 1) fmt) cs;
    match entries with Some l => Some <$> join_array fmt l | None => Some None end
  else if ty =? cJSON_Object then
    entries ← object_entries (print_value (depth + 1) fmt) cs;
    match entries with Some l => Some <$> join_object fmt (depth + 1) l | None => Some None end
  else Some None.

Definition cJSON_Print (i : cJSON) : option (option bytes) := print_value 0 true i.
Definition cJSON_PrintUnformatted (i : cJSON) : option (option bytes) := print_value 0 false i.


(** ** The parser ends *)

Lemma head_length {A} (l : list A) c : head l = Some c -> (length l = S (length (tail l)))%nat.
Proof. by destruct l. Qed.

Lemma length_tail_le {A} (l : list A) : (length (tail l) <= length l)%nat.
Proof. destruct l; cbn; lia. Qed.

Lemma skip_length p q : skip p = Some q -> (length q <= length p)%nat.
Proof.
  induction p as [|c p IH]; cbn; [done |]. destruct (_ && _).
  - intros E. apply IH in E. lia.
  - by intros [= <-].
Qed.

Lemma read_digits_length n k p n' k' q : read_digits n k p = Some (n', k', q) -> (length q <= length p)%nat.
Proof.
  revert n k. induction p as [|c p IH]; intros n k; cbn; [done |]. destruct (is_09 c).
  - intros E. apply IH in E. lia.
  - by intros [= _ _ <-].
Qed.

Lemma read_exp_length n p n' q : read_exp n p = Some (n', q) -> (length q <= length p)%nat.
Proof.
  revert n. induction p as [|c p IH]; intros n; cbn; [done |]. destruct (is_09 c).
  - destruct (_ <? _); [done |]. intros E. apply IH in E. lia.
  - by intros [= _ <-].
Qed.

Section ends.
Context `{Libm}.

Lemma int_part_length p n q : int_part p = Some (n, q) ->
  (length q <= length p)%nat /\ (forall c, head p = Some c -> is_09 c = true -> length q < length p)%nat.
Proof.
  unfold int_part. destruct p as [|c p]; [done |]. cbn [head mbind option_bind tail]. destruct (eqc c "0") eqn:Z0.
  - destruct (head p) as [d|]; [| done]. cbn [mbind option_bind]. intros E. assert (length q <= length p)%nat; [| split; [cbn; lia | intros; cbn; lia]].
    destruct (_ && _); [| by injection E as _ <-].
    destruct (read_digits _ _ p) as [[[n1 k1] p2]|] eqn:E1; [| done]. injection E as _ <-. by apply read_digits_length in E1.
  - cbn [head mbind option_bind]. rewrite Z0. destruct (is_09 c) eqn:D; cbn [andb negb read_digits].
    + rewrite D. destruct (read_digits _ _ p) as [[[n1 k1] p2]|] eqn:E1; [| done]. intros [= _ <-].
      apply read_digits_length in E1. split; [cbn; lia | intros; cbn; lia].
    + intros [= _ <-]. split; [done |]. intros d [= <-]. by rewrite D.
Qed.

Lemma frac_part_length n p n' k q : frac_part n p = Some (n', k, q) -> (length q <= length p)%nat.
Proof.
  unfold frac_part. destruct p as [|c p]; [done |]. cbn [head mbind option_bind tail]. destruct (eqc c "."); [| by intros [= _ _ <-]].
  destruct (head p) as [d|]; [| done]. cbn [mbind option_bind]. destruct (is_09 d); [| by intros [= _ _ <-]].
  destruct (read_digits n 0 p) as [[[n1 k1] p2]|] eqn:E1; [| done]. intros [= _ _ <-]. apply read_digits_length in E1. cbn. lia.
Qed.

Lemma number_exp_length p n q : number_exp p = Some (n, q) -> (length q <= length p)%nat.
Proof.
  unfold number_exp. destruct (head p) as [c|]; [| done]. cbn [mbind option_bind].
  destruct (_ || _); [| by intros [= _ <-]].
  destruct (head (tail p)) as [d|]; [| done]. cbn [mbind option_bind].
  destruct (read_exp 0 _) as [[n1 p1]|] eqn:E; [| done]. intros [= _ <-]. apply read_exp_length in E.
  pose proof (length_tail_le p). pose proof (length_tail_le (tail p)). destruct (_ || _); lia.
Qed.

Definition shorter (p : ptr) (r : result) : Prop :=
  match r with Good _ q => (length q < length p)%nat | Bad _ => True | Unfinished => False end.

Lemma parse_number_ends i p r c : parse_number i p = Some r -> head p = Some c -> eqc c "-" || is_09 c = true -> shorter p r.
Proof.
  unfold parse_number. destruct p as [|c' p]; [done |]. cbn [head mbind option_bind tail]. intros E [= ->] D.
  set (p1 := if eqc c "-" then p else c :: p) in E.
  destruct (int_part p1) as [[n p2]|] eqn:E1; [| done]. cbn [mbind option_bind] in E.
  destruct (frac_part n p2) as [[[n2 k] p3]|] eqn:E2; [| done]. cbn [mbind option_bind] in E.
  destruct (number_exp p3) as [[x p4]|] eqn:E3; [| done]. cbn [mbind option_bind] in E.
  apply number_exp_length in E3. apply frac_part_length in E2. apply int_part_length in E1 as [L1 S1].
  assert (length p2 < length (c :: p))%nat.
  { subst p1. destruct (eqc c "-"); [cbn; lia | by apply (S1 c)]. }
  destruct (_ && _); injection E as <-; cbn; cbn in *; lia.
Qed.

Lemma read_u_length v p w v' q : read_u v p = Some (w, v', q) -> (length q <= length p)%nat.
Proof.
  unfold read_u. intros E. repeat (simplify_option_eq || case_match); rewrite ?drop_drop, ?length_drop; lia.
Qed.

Lemma copy_string_ends fuel cap v out p r : copy_string fuel cap v out p = Some r -> (length p < fuel)%nat ->
  exists o q, r = Some (o, q) /\ (length q <= length p)%nat.
Proof.
  revert v out p. induction fuel as [|fuel IH]; intros v out p; [lia |]. cbn [copy_string]. destruct p as [|c p]; [done |].
  cbn [head mbind option_bind tail length]. destruct (_ || _); [intros [= <-]; eauto |]. destruct (negb _).
  - destruct (emit _ _ _) as [o|]; [| done]. cbn [mbind option_bind]. intros E L. apply IH in E as (o' & q & -> & L'); [| lia]. eauto with lia.
  - destruct p as [|d p]; [done |]. cbn [head mbind option_bind tail]. destruct (eqc d "u").
    + destruct (read_u v (d :: p)) as [[[w v'] q]|] eqn:R; [| done]. cbn [mbind option_bind]. apply read_u_length in R.
      destruct (match w with Some _ => _ | None => _ end) as [o|]; [| done]. cbn [mbind option_bind]. pose proof (length_tail_le q).
      intros E L. apply IH in E as (o' & q' & -> & L'); [| cbn in *; lia]. eexists _, _. split; [done | cbn in *; lia].
    + destruct (emit _ _ _) as [o|]; [| done]. cbn [mbind option_bind]. intros E L. cbn in L. apply IH in E as (o' & q & -> & L'); [| lia].
      eexists _, _. split; [done | cbn; lia].
Qed.

Lemma parse_string_ends i p r : parse_string i p = Some r -> shorter p r.
Proof.
  unfold parse_string. destruct p as [|c p]; [done |]. cbn [head mbind option_bind tail]. destruct (negb _); [by intros [= <-] |].
  destruct (scan_string 0 p) as [len|]; [| done]. cbn [mbind option_bind]. destruct (_ <? _); [done |].
  destruct (copy_string _ _ _ _ p) as [x|] eqn:E; [| done]. cbn [mbind option_bind].
  apply copy_string_ends in E as (o & q & -> & L); [| cbn; lia].
  destruct (emit _ _ _); [| done]. cbn [mbind option_bind]. destruct (head q) as [d|]; [| done]. cbn [mbind option_bind]. intros [= <-].
  pose proof (length_tail_le q). cbn. destruct (eqc d dq); lia.
Qed.

Lemma then_skip_ends m n (r : option result) k x : then_skip r k = Some x -> (forall y, r = Some y -> shorter m y) ->
  (forall i q, (length q < length m)%nat -> k i q = Some x -> shorter n x) -> shorter n x.
Proof.
  unfold then_skip. destruct r as [y|]; [| done]. cbn [mbind option_bind]. intros E Y Kk. specialize (Y y eq_refl). destruct y as [i q| |].
  - destruct (skip q) as [q'|] eqn:S; [| done]. cbn [mbind option_bind] in E. apply skip_length in S. cbn in Y. eapply Kk; [| done]. lia.
  - by injection E as <-.
  - done.
Qed.

Lemma parse_member_ends n parse p k x : parse_member parse p k = Some x ->
  (forall i q y, (length q < length p)%nat -> parse i q = Some y -> shorter q y) ->
  (forall i q, (length q < length p)%nat -> k i q = Some x -> shorter n x) -> shorter n x.
Proof.
  unfold parse_member. destruct (skip p) as [q|] eqn:S; [| done]. cbn [mbind option_bind]. apply skip_length in S. intros E Y Kk.
  eapply (then_skip_ends q); [exact E | apply parse_string_ends |]. intros i q1 L1. destruct q1 as [|c q1]; [done |]. cbn [head mbind option_bind tail].
  destruct (negb _); [by intros [= <-] |]. destruct (skip q1) as [q2|] eqn:S2; [| done]. cbn [mbind option_bind]. apply skip_length in S2. cbn in L1.
  intros E2. eapply (then_skip_ends q2); [exact E2 | intros y; apply Y; lia |]. intros j q3 L3. apply Kk. lia.
Qed.

(** The fuel is enough: each call gets one unit for every character left. *)
Lemma parse_ends fuel :
  (forall i p r, (length p < fuel)%nat -> parse_value fuel i p = Some r -> shorter p r) /\
  (forall i cs p r, (length p < fuel)%nat -> parse_array_rest fuel i cs p = Some r -> shorter p r) /\
  (forall i cs p r, (length p < fuel)%nat -> parse_object_rest fuel i cs p = Some r -> shorter p r).
Proof.
  induction fuel as [|fuel (IV & IA & IO)]; [split_and!; intros; lia |]. split_and!.
  - intros i p r L. cbn [parse_value]. destruct p as [|c p]; [done |]. cbn [length] in L.
    destruct (starts (str_bytes "null") _) as [[]|]; [| | done]; cbn [mbind option_bind]; [intros [= <-]; cbn [shorter]; rewrite length_drop; cbn; lia |].
    destruct (starts (str_bytes "false") _) as [[]|]; [| | done]; cbn [mbind option_bind]; [intros [= <-]; cbn [shorter]; rewrite length_drop; cbn; lia |].
    destruct (starts (str_bytes "true") _) as [[]|]; [| | done]; cbn [mbind option_bind]; [intros [= <-]; cbn [shorter]; rewrite length_drop; cbn; lia |].
    cbn [head mbind option_bind tail]. destruct (eqc c dq); [apply parse_string_ends |].
    destruct (_ || _) eqn:D; [intros E; by eapply parse_number_ends |]. destruct (eqc c "[").
    + destruct (skip p) as [q|] eqn:S; [| done]. apply skip_length in S. cbn [mbind option_bind]. destruct q as [|d q]; [done |].
      cbn [head mbind option_bind tail]. destruct (eqc d "]"); [intros [= <-]; cbn in *; lia |].
      destruct (skip (d :: q)) as [q'|] eqn:S'; [| done]. apply skip_length in S'. cbn [mbind option_bind]. intros E.
      eapply (then_skip_ends q'); [exact E | intros y; apply IV; lia |]. intros j q1 L1 E1. apply IA in E1; [| lia].
      destruct r; cbn in *; try done; lia.
    + destruct (eqc c "{"); [| by intros [= <-]]. destruct (skip p) as [q|] eqn:S; [| done]. apply skip_length in S. cbn [mbind option_bind].
      destruct q as [|d q]; [done |]. cbn [head mbind option_bind tail]. destruct (eqc d "}"); [intros [= <-]; cbn in *; lia |]. intros E.
      eapply (parse_member_ends (c :: p)); [exact E | intros j q1 y L1; apply IV; lia |]. intros j q1 L1 E1. apply IO in E1; [| lia].
      destruct r; cbn in *; try done; lia.
  - intros i cs p r L. cbn [parse_array_rest]. destruct p as [|c p]; [done |]. cbn [head mbind option_bind tail length] in *.
    destruct (eqc c ","); [| destruct (eqc c "]"); intros [= <-]; cbn; [lia | done]]. destruct (skip p) as [q|] eqn:S; [| done].
    apply skip_length in S. cbn [mbind option_bind]. intros E. eapply (then_skip_ends q); [exact E | intros y; apply IV; lia |].
    intros j q1 L1 E1. apply IA in E1; [| lia]. destruct r; cbn in *; try done; lia.
  - intros i cs p r L. cbn [parse_object_rest]. destruct p as [|c p]; [done |]. cbn [head mbind option_bind tail length] in *.
    destruct (eqc c ","); [| destruct (eqc c "}"); intros [= <-]; cbn; [lia | done]]. intros E.
    eapply (parse_member_ends (c :: p)); [exact E | intros j q1 y L1; apply IV; lia |]. intros j q1 L1 E1. apply IO in E1; [| lia].
    destruct r; cbn in *; try done; lia.
Qed.
End ends.

(** ** The parser stays in the text *)

Definition is_hex (c : ascii) : Prop := is_Some (hex_value c).
(** Four hexadecimal digits. *)
Definition four_hex (p : ptr) : Prop :=
  exists a b c d q, p = a :: b :: c :: d :: q /\ Forall is_hex [a; b; c; d].

(** A text that ends with its zero, in which every backslash is followed by a
    character, [u] by four digits, and no exponent is too large. *)
Record fine `{Libm} (p : ptr) : Prop := {
  fine_nul : last p = Some NUL;
  fine_bs : forall l q, p = l ++ bs :: q -> exists c q', q = c :: q' /\ c <> NUL /\ (c = "u"%char -> four_hex q');
  fine_exp : forall l c q, p = l ++ c :: q -> eqc c "e" || eqc c "E" = true -> number_exp (c :: q) <> None;
  fine_size : zlen p <= INT_MAX }.

Section safe.
Context `{Libm}.

Lemma fine_app w q : fine (w ++ q) -> (NUL ∉ w) -> fine q.
Proof.
  intros F N. split.
  - pose proof (fine_nul _ F) as L. rewrite last_app in L. destruct (last q); [done |]. exfalso. by apply N, last_Some_elem_of.
  - intros l r ->. rewrite app_assoc in F. by apply (fine_bs _ F (w ++ l)).
  - intros l c r -> . rewrite app_assoc in F. by apply (fine_exp _ F (w ++ l)).
  - pose proof (fine_size _ F) as S. unfold zlen in *. rewrite length_app in S. lia.
Qed.

Lemma fine_cons c q : fine (c :: q) -> c <> NUL -> fine q.
Proof. intros F N. apply (fine_app [c]); [done |]. by intros ?%list_elem_of_singleton. Qed.

Lemma fine_head p : fine p -> exists c q, p = c :: q.
Proof. intros F. pose proof (fine_nul _ F). destruct p as [|c q]; [done | eauto]. Qed.

Lemma fine_tail p c : fine p -> head p = Some c -> c <> NUL -> fine (tail p).
Proof. destruct p as [|d p]; [done |]. intros F [= ->] N. by eapply fine_cons. Qed.

Lemma eqc_true a b : eqc a b = true -> a = b.
Proof. apply bool_decide_eq_true. Qed.
Lemma eqc_false a b : eqc a b = false -> a <> b.
Proof. apply bool_decide_eq_false. Qed.
Lemma eqc_refl a : eqc a a = true.
Proof. by apply bool_decide_eq_true. Qed.

Lemma skip_fine p : fine p -> exists q, skip p = Some q /\ fine q.
Proof.
  induction p as [|c p IH]; [by intros (? & ? & ?)%fine_head |]. intros F. cbn. destruct (negb _ && _) eqn:E; [| by eexists].
  apply andb_true_iff in E as [E _]. apply negb_true_iff, eqc_false in E. apply IH. by eapply fine_cons.
Qed.

Lemma digit_not_nul c : is_09 c = true -> c <> NUL.
Proof. by intros E ->. Qed.

Lemma read_digits_fine n k p : fine p -> exists n' k' q, read_digits n k p = Some (n', k', q) /\ fine q.
Proof.
  revert n k. induction p as [|c p IH]; intros n k F; [by apply fine_head in F as (? & ? & ?) |]. cbn. destruct (is_09 c) eqn:D; [| by eauto 10].
  apply IH. eapply fine_cons; [done |]. by apply digit_not_nul.
Qed.

Lemma int_part_fine p : fine p -> exists n q, int_part p = Some (n, q) /\ fine q.
Proof.
  intros F. unfold int_part. destruct (fine_head p F) as (c & q & ->). cbn [head mbind option_bind tail].
  assert (fine (if eqc c "0" then q else c :: q)) as F1.
  { destruct (eqc c "0") eqn:E; [| done]. apply eqc_true in E. subst. by eapply fine_cons. }
  destruct (fine_head _ F1) as (d & r & E). rewrite E in *. cbn [head mbind option_bind].
  destruct (_ && _); [| by eauto]. destruct (read_digits_fine (Some 0) 0 _ F1) as (n & k & q' & -> & F'). cbn. eauto.
Qed.

Lemma frac_part_fine n p : fine p -> exists n' k q, frac_part n p = Some (n', k, q) /\ fine q.
Proof.
  intros F. unfold frac_part. destruct (fine_head p F) as (c & q & ->). cbn [head mbind option_bind tail].
  destruct (eqc c ".") eqn:E; [| by eauto 10]. apply eqc_true in E. subst. assert (fine q) as F1 by (by eapply fine_cons).
  destruct (fine_head _ F1) as (d & r & ->). cbn [head mbind option_bind]. destruct (is_09 d); [| by eauto 10].
  destruct (read_digits_fine n 0 _ F1) as (n' & k & q' & -> & F'). cbn. eauto 10.
Qed.

Lemma read_exp_fine n p n' q : fine p -> read_exp n p = Some (n', q) -> fine q.
Proof.
  revert n. induction p as [|c p IH]; intros n F; [done |]. cbn. destruct (is_09 c) eqn:D; [| by intros [= _ <-]].
  destruct (_ <? _); [done |]. apply IH. eapply fine_cons; [done |]. by apply digit_not_nul.
Qed.

Lemma number_exp_fine p : fine p -> exists n q, number_exp p = Some (n, q) /\ fine q.
Proof.
  intros F. destruct (fine_head p F) as (c & q & ->). destruct (eqc c "e" || eqc c "E") eqn:E.
  2:{ unfold number_exp. cbn [head mbind option_bind]. rewrite E. eauto. }
  pose proof (fine_exp _ F [] c q eq_refl E) as T. destruct (number_exp (c :: q)) as [[n r]|] eqn:N; [| done]. eexists _, _. split; [done |].
  unfold number_exp in N. cbn [head mbind option_bind tail] in N. rewrite E in N.
  assert (fine q) as F1 by (eapply fine_cons; [done |]; by intros ->). destruct (fine_head _ F1) as (d & q' & ->).
  cbn [head mbind option_bind tail] in N. destruct (read_exp 0 _) as [[n1 q1]|] eqn:R; [| done]. injection N as _ <-.
  eapply read_exp_fine; [| done]. destruct (eqc d "+" || eqc d "-") eqn:S; [| done]. eapply fine_cons; [done |]. by intros ->.
Qed.

Lemma parse_number_fine i p c : fine p -> head p = Some c -> exists j q, parse_number i p = Some (Good j q) /\ fine q.
Proof.
  intros F Hc. destruct p as [|c' p]; [done |]. injection Hc as ->. unfold parse_number. cbn [head mbind option_bind tail].
  assert (fine (if eqc c "-" then p else c :: p)) as F1.
  { destruct (eqc c "-") eqn:E; [| done]. apply eqc_true in E. subst. by eapply fine_cons. }
  destruct (int_part_fine _ F1) as (n & q & -> & F2). cbn [mbind option_bind].
  destruct (frac_part_fine n _ F2) as (n2 & k & q2 & -> & F3). cbn [mbind option_bind].
  destruct (number_exp_fine _ F3) as (x & q3 & -> & F4). cbn [mbind option_bind]. destruct (_ && _); eauto.
Qed.

Lemma hex_char_facts c : match hex_value c with
  | Some v => (0 <=? v) && (v <? 16) && negb (eqc c dq) && negb (eqc c NUL) && negb (eqc c bs) && negb (is_space c)
              && negb (eqc c "-") && negb (eqc c "+") && negb (eqc c "x") && negb (eqc c "X") = true
  | None => True
  end.
Proof. destruct c as [[] [] [] [] [] [] [] []]; vm_compute; exact I || reflexivity. Qed.

Lemma hex_facts c : is_hex c -> exists v, hex_value c = Some v /\ 0 <= v < 16 /\ eqc c dq = false /\ eqc c NUL = false /\ eqc c bs = false /\
  is_space c = false /\ eqc c "-" = false /\ eqc c "+" = false /\ eqc c "x" = false /\ eqc c "X" = false.
Proof.
  intros [v E]. pose proof (hex_char_facts c) as F. rewrite E in F. rewrite !andb_true_iff, !negb_true_iff in F.
  exists v. split; [done |]. split; [lia |]. tauto.
Qed.

Lemma sscanf_four p : four_hex p -> exists v, sscanf_4x p = Some (Some v) /\ 0 <= v < 65536.
Proof.
  intros (a & b & c & d & q & -> & F). rewrite !Forall_cons in F. destruct F as (Fa & Fb & Fc & Fd & _).
  destruct (hex_facts a Fa) as (x & Xa & Ra & _ & _ & _ & Sa & Ma & Pa & _).
  destruct (hex_facts b Fb) as (y & Xb & Rb & _ & _ & _ & _ & _ & _ & Lb & Ub).
  destruct (hex_facts c Fc) as (z & Xc & Rc & _). destruct (hex_facts d Fd) as (w & Xd & Rd & _).
  assert (hex_digits 4 None (a :: b :: c :: d :: q) = Some (Some (((x * 16 + y) * 16 + z) * 16 + w))) as E.
  { cbn [hex_digits]. by rewrite Xa, Xb, Xc, Xd. }
  exists (((x * 16 + y) * 16 + z) * 16 + w). split; [| lia]. unfold sscanf_4x. cbn [skip_blanks]. rewrite Sa. cbn [mbind option_bind head].
  rewrite Ma, Pa. cbn [orb head mbind option_bind tail]. rewrite Lb, Ub. cbn [orb].
  destruct (eqc a "0"); rewrite E; cbn; rewrite u32_small by lia; done.
Qed.

Lemma scan_hex k a q : is_hex a -> scan_string k (a :: q) = scan_string (k + 1) q.
Proof. intros (v & _ & _ & E1 & E2 & E3 & _)%hex_facts. cbn [scan_string]. by rewrite E1, E2, E3. Qed.

Lemma scan_four k p : four_hex p -> scan_string k p = scan_string (k + 4) (drop 4 p).
Proof.
  intros (a & b & c & d & q & -> & F). rewrite !Forall_cons in F. destruct F as (Fa & Fb & Fc & Fd & _).
  rewrite !scan_hex by done. cbn [drop]. f_equal. lia.
Qed.

Lemma scan_mono n k p : scan_string k p = Some n -> k <= n.
Proof.
  revert k. induction p as [p IH] using (induction_ltof1 _ (@length ascii)); intros k. destruct p as [|c p]; [done |]. cbn [scan_string].
  destruct (_ || _); [by intros [= ->] |]. destruct (eqc c bs).
  - destruct p as [|d p]; [done |]. intros E. apply IH in E; [lia | unfold ltof; cbn; lia].
  - intros E. apply IH in E; [lia | unfold ltof; cbn; lia].
Qed.

Lemma utf8_back_length k n uc : length (utf8_back k n uc) = Nat.max 1 k.
Proof.
  revert uc. induction k as [|k IH]; intros uc; [done |]. destruct k as [|k]; [done |].
  change (utf8_back (S (S k)) n uc) with (utf8_back (S k) n (Z.shiftr uc 6) ++ [char_of (Z.land (Z.lor uc 0x80) 0xBF)]).
  rewrite length_app, IH. cbn. lia.
Qed.

Lemma utf8_length uc : zlen (utf8 uc) = Z.of_nat (utf8_len uc) /\ (1 <= utf8_len uc <= 4)%nat /\ (uc < 65536 -> (utf8_len uc <= 3)%nat).
Proof. unfold zlen, utf8. rewrite utf8_back_length. unfold utf8_len. repeat kcase; lia. Qed.

Lemma four_fine p : four_hex p -> fine p -> fine (drop 3 p) /\ fine (drop 4 p) /\ tail (drop 3 p) = drop 4 p.
Proof.
  intros (a & b & c & d & q & -> & F) Fi. rewrite !Forall_cons in F. destruct F as (Fa & Fb & Fc & Fd & _).
  assert (forall x, is_hex x -> x <> NUL) as NN by (intros x (v & _ & _ & _ & E & _)%hex_facts; by apply eqc_false).
  apply NN in Fa, Fb, Fc, Fd. cbn [drop tail]. split_and!; [| | done].
  - apply (fine_app [a; b; c]); [done |]. set_solver.
  - apply (fine_app [a; b; c; d]); [done |]. set_solver.
Qed.

Definition room (w : option Z) : Z := match w with Some x => zlen (utf8 x) | None => 0 end.

(** An escape writes no more than the measuring loop has counted for it. *)
Lemma read_u_fine v q k n : four_hex q -> fine q -> scan_string k q = Some n ->
  exists w v' r k', read_u v ("u"%char :: q) = Some (w, v', r) /\ fine (tail r) /\ (length (tail r) <= length q)%nat /\
    scan_string k' (tail r) = Some n /\ k + room w <= k'.
Proof.
  intros Hq Fq Sc. destruct (sscanf_four q Hq) as (uc & U & R). rewrite scan_four in Sc by done.
  destruct (four_fine q Hq Fq) as (F3 & F4 & T). unfold read_u. cbn [tail drop]. rewrite U. cbn [mbind option_bind].
  assert (length (drop 4 q) <= length q)%nat as L4 by (rewrite length_drop; lia).
  destruct (_ || _); [eexists None, _, _, _; split_and!; [done | by rewrite T | by rewrite T | by rewrite T | cbn; lia] |].
  destruct (utf8_length uc) as (Lu & Lr & L3).
  destruct (_ && _) eqn:Sur.
  2:{ eexists (Some uc), _, _, _. split_and!; [done | by rewrite T | by rewrite T | by rewrite T | cbn; lia]. }
  rewrite T. destruct (fine_head _ F4) as (c1 & q1 & E1). rewrite E1 in *. cbn [head mbind option_bind tail].
  destruct (eqc c1 bs) eqn:Eb; cbn [negb]; [| eexists None, _, _, _; split_and!; [done | by rewrite T | by rewrite T | by rewrite T | cbn; lia]].
  apply eqc_true in Eb. subst c1. destruct (fine_bs _ F4 [] q1 eq_refl) as (c2 & q2 & -> & N2 & H2). cbn [head mbind option_bind].
  destruct (eqc c2 "u") eqn:Eu; cbn [negb]; [| eexists None, _, _, _; split_and!; [done | by rewrite T | by rewrite T | by rewrite T | cbn; lia]].
  apply eqc_true in Eu. subst c2. specialize (H2 eq_refl). destruct (sscanf_four q2 H2) as (uc2 & U2 & R2).
  assert (drop 3 (drop 3 q) = q2) as D3.
  { rewrite drop_drop. change (3 + 3)%nat with (4 + 2)%nat. by rewrite <- drop_drop, E1. }
  rewrite D3, U2. cbn [mbind option_bind]. assert (drop 6 (drop 3 q) = drop 3 q2) as D6 by (by rewrite <- D3, !drop_drop). rewrite D6.
  assert (fine q2) as Fq2 by (exact (fine_cons _ _ (fine_cons _ _ F4 ltac:(done)) N2)).
  destruct (four_fine q2 H2 Fq2) as (_ & F6 & T6). assert (length (drop 4 q2) <= length q)%nat as L6.
  { rewrite length_drop. cbn in L4. lia. }
  cbn [scan_string] in Sc. change (eqc bs dq || eqc bs NUL) with false in Sc. rewrite eqc_refl in Sc. rewrite scan_four in Sc by done.
  destruct (_ || _); [eexists None, _, _, _; rewrite T6; split_and!; [done | done | done | done | cbn; lia] |].
  set (u := Z.lor _ _). destruct (utf8_length u) as (Lu' & Lr' & _).
  eexists (Some u), _, _, _. rewrite T6. split_and!; [done | done | done | done | cbn [room]; lia].
Qed.

Lemma emit_fits cap out l : zlen out + zlen l <= cap -> emit cap out l = Some (out ++ l).
Proof. intros L. unfold emit. destruct (Z.leb_spec (zlen out + zlen l) cap); [done | lia]. Qed.

Lemma copy_string_fits n fuel v out p k : (length p < fuel)%nat -> fine p -> scan_string k p = Some n -> zlen out <= k ->
  exists o q, copy_string fuel (n + 1) v out p = Some (Some (o, q)) /\ fine q /\ zlen o <= n.
Proof.
  revert v out p k. induction fuel as [|fuel IH]; intros v out p k L F Sc O; [lia |]. cbn [copy_string].
  destruct (fine_head p F) as (c & q & ->). cbn [head mbind option_bind tail]. pose proof (scan_mono _ _ _ Sc) as M. cbn [scan_string] in Sc.
  destruct (eqc c dq || eqc c NUL) eqn:E; [eexists _, _; split_and!; [done | done | lia] |].
  apply orb_false_iff in E as [_ EN]. apply eqc_false in EN. assert (fine q) as Fq by (by eapply fine_cons). cbn in L.
  destruct (eqc c bs) eqn:Eb; cbn [negb].
  - apply eqc_true in Eb. subst c. destruct (fine_bs _ F [] q eq_refl) as (d & q' & -> & Nd & Hu). cbn [head mbind option_bind tail].
    pose proof (scan_mono _ _ _ Sc) as M'. assert (fine q') as Fq' by (by eapply fine_cons). cbn in L. destruct (eqc d "u") eqn:Eu.
    + apply eqc_true in Eu. subst d. destruct (read_u_fine v q' _ _ (Hu eq_refl) Fq' Sc) as (w & v' & r & k' & -> & Fr & Lr & Sr & Kr).
      cbn [mbind option_bind]. pose proof (scan_mono _ _ _ Sr).
      destruct w as [x|]; cbn [room] in Kr; cbn [mbind option_bind]; [rewrite emit_fits by lia; cbn [mbind option_bind] |]; apply (IH _ _ _ k'); try done; try lia.
      rewrite zlen_app. lia.
    + rewrite emit_fits by (change (zlen [default d (escape d)]) with 1; lia). cbn [mbind option_bind].
      apply (IH _ _ _ (k + 1)); try done; [lia |]. rewrite zlen_app. change (zlen [default d (escape d)]) with 1. lia.
  - rewrite emit_fits by (change (zlen [c]) with 1; lia). cbn [mbind option_bind].
    apply (IH _ _ _ (k + 1)); try done; [lia |]. rewrite zlen_app. change (zlen [c]) with 1. lia.
Qed.

Lemma scan_fine k p : fine p -> exists n, scan_string k p = Some n /\ n <= k + zlen p.
Proof.
  revert k. induction p as [p IH] using (induction_ltof1 _ (@length ascii)); intros k F. destruct (fine_head p F) as (c & q & ->). cbn [scan_string].
  assert (zlen (c :: q) = 1 + zlen q) as Lc by (unfold zlen; cbn; lia). pose proof (zlen_nonneg q).
  destruct (eqc c dq || eqc c NUL) eqn:E; [eexists; split; [done | lia] |]. apply orb_false_iff in E as [_ EN]. apply eqc_false in EN.
  assert (fine q) as Fq by (by eapply fine_cons). destruct (eqc c bs) eqn:Eb.
  - apply eqc_true in Eb. subst c. destruct (fine_bs _ F [] q eq_refl) as (d & q' & -> & Nd & _).
    assert (zlen (d :: q') = 1 + zlen q') by (unfold zlen; cbn; lia).
    destruct (IH q') with (k := k + 1) as (n & -> & Ln); [unfold ltof; cbn; lia | by eapply fine_cons | eexists; split; [done | lia]].
  - destruct (IH q) with (k := k + 1) as (n & -> & Ln); [unfold ltof; cbn; lia | done | eexists; split; [done | lia]].
Qed.

Lemma parse_string_fine i p : fine p -> (exists j q, parse_string i p = Some (Good j q) /\ fine q) \/ exists ep, parse_string i p = Some (Bad ep).
Proof.
  intros F. destruct (fine_head p F) as (c & q & ->). unfold parse_string. cbn [head mbind option_bind tail].
  destruct (eqc c dq) eqn:E; cbn [negb]; [left | right; eauto]. apply eqc_true in E. subst. assert (fine q) as Fq by (by eapply fine_cons).
  destruct (scan_fine 0 q Fq) as (n & Sc & Ln). rewrite Sc. cbn [mbind option_bind]. pose proof (fine_size _ Fq).
  destruct (Z.ltb_spec INT_MAX n); [lia |]. pose proof (scan_mono _ _ _ Sc).
  destruct (copy_string_fits n (length (dq :: q)) (None, None) [] q 0) as (o & r & -> & Fr & Lo); [cbn; lia | done | done | done |].
  cbn [mbind option_bind]. rewrite emit_fits by (change (zlen [NUL]) with 1; lia). cbn [mbind option_bind].
  destruct (fine_head r Fr) as (d & r' & ->). cbn [head mbind option_bind tail]. eexists _, _. split; [done |].
  destruct (eqc d dq) eqn:Ed; [| done]. apply eqc_true in Ed. subst. by eapply fine_cons.
Qed.

Definition in_text (r : option result) : Prop :=
  match r with Some (Good _ q) => fine q | Some _ => True | None => False end.

Lemma starts_fine w p : fine p -> (NUL ∉ w) -> exists b, starts w p = Some b /\ (b = true -> fine (drop (length w) p)).
Proof.
  revert p. induction w as [|a w IH]; intros p F N; [exists true; by destruct p |]. destruct (fine_head p F) as (c & q & ->). cbn [starts].
  apply not_elem_of_cons in N as [Na N]. destruct (eqc a c) eqn:E; [| by exists false]. apply eqc_true in E. subst c.
  apply IH; [| done]. by eapply fine_cons.
Qed.

Lemma parse_number_in_text i p c : fine p -> head p = Some c -> in_text (parse_number i p).
Proof. intros F Hc. by destruct (parse_number_fine i p c F Hc) as (j & q & -> & Fq). Qed.

Lemma parse_string_in_text i p : fine p -> in_text (parse_string i p).
Proof. intros F. by destruct (parse_string_fine i p F) as [(j & q & -> & Fq) | (ep & ->)]. Qed.

Lemma then_skip_in_text r k : in_text r -> (forall i q, fine q -> in_text (k i q)) -> in_text (then_skip r k).
Proof.
  intros R Kk. unfold then_skip. destruct r as [[i q| |]|]; try done. cbn in R |- *. destruct (skip_fine q R) as (q' & -> & F). by apply Kk.
Qed.

Lemma parse_member_in_text parse p k : fine p -> (forall i q, fine q -> in_text (parse i q)) -> (forall i q, fine q -> in_text (k i q)) ->
  in_text (parse_member parse p k).
Proof.
  intros F P Kk. unfold parse_member. destruct (skip_fine p F) as (q & -> & Fq). cbn [mbind option_bind].
  apply then_skip_in_text; [by apply parse_string_in_text |]. intros i r Fr. destruct (fine_head r Fr) as (c & r' & ->). cbn [head mbind option_bind tail].
  destruct (eqc c ":") eqn:E; [| done]. apply eqc_true in E. subst. cbn [negb].
  destruct (skip_fine r') as (r2 & -> & F2); [by eapply fine_cons |]. cbn [mbind option_bind]. apply then_skip_in_text; [by apply P | done].
Qed.

Lemma parse_in_text fuel :
  (forall i p, fine p -> in_text (parse_value fuel i p)) /\
  (forall i cs p, fine p -> in_text (parse_array_rest fuel i cs p)) /\
  (forall i cs p, fine p -> in_text (parse_object_rest fuel i cs p)).
Proof.
  induction fuel as [|fuel (IV & IA & IO)]; [done |]. split_and!.
  - intros i p F. cbn [parse_value].
    destruct (starts_fine (str_bytes "null") p F ltac:(set_solver)) as ([] & -> & D1); cbn [mbind option_bind]; [by apply D1 |].
    destruct (starts_fine (str_bytes "false") p F ltac:(set_solver)) as ([] & -> & D2); cbn [mbind option_bind]; [by apply D2 |].
    destruct (starts_fine (str_bytes "true") p F ltac:(set_solver)) as ([] & -> & D3); cbn [mbind option_bind]; [by apply D3 |].
    destruct (fine_head p F) as (c & q & ->). cbn [head mbind option_bind tail].
    destruct (eqc c dq); [by apply parse_string_in_text |]. destruct (_ || _); [by eapply parse_number_in_text |].
    destruct (eqc c "[") eqn:Ea; [| destruct (eqc c "{") eqn:Eo; [| done]]; apply eqc_true in Ea || apply eqc_true in Eo; subst c;
      (assert (fine q) as Fq by (by eapply fine_cons)); destruct (skip_fine q Fq) as (r & -> & Fr); cbn [mbind option_bind];
      destruct (fine_head r Fr) as (d & r' & ->); cbn [head mbind option_bind tail].
    + destruct (eqc d "]") eqn:E; [apply eqc_true in E; subst; by eapply fine_cons |].
      destruct (skip_fine _ Fr) as (r2 & -> & F2). cbn [mbind option_bind]. apply then_skip_in_text; auto.
    + destruct (eqc d "}") eqn:E; [apply eqc_true in E; subst; by eapply fine_cons |]. apply parse_member_in_text; auto.
  - intros i cs p F. cbn [parse_array_rest]. destruct (fine_head p F) as (c & q & ->). cbn [head mbind option_bind tail].
    destruct (eqc c ",") eqn:E; [| destruct (eqc c "]") eqn:E'; [| done]]; apply eqc_true in E || apply eqc_true in E'; subst;
      (assert (fine q) as Fq by (by eapply fine_cons)); [| done].
    destruct (skip_fine _ Fq) as (r2 & -> & F2). cbn [mbind option_bind]. apply then_skip_in_text; auto.
  - intros i cs p F. cbn [parse_object_rest]. destruct (fine_head p F) as (c & q & ->). cbn [head mbind option_bind tail].
    destruct (eqc c ",") eqn:E; [| destruct (eqc c "}") eqn:E'; [| done]]; apply eqc_true in E || apply eqc_true in E'; subst;
      (assert (fine q) as Fq by (by eapply fine_cons)); [| done]. apply parse_member_in_text; auto.
Qed.

(** C21: [cJSON_Parse] ends on every text.  It never reads behind the text or
    writes behind a buffer it has allocated, and answers with an item or the
    place of an error, if every backslash of the text is followed by a
    character, every [\u] by four hexadecimal digits, and no exponent
    overflows an [int]. *)
Theorem cjson_parse_safe text :
  cJSON_Parse text <> Some None /\ (fine (c_cut text ++ [NUL]) -> exists r, cJSON_Parse text = Some (Some r)).
Proof.
  unfold cJSON_Parse. split.
  - destruct (skip _) as [p|]; [| done]. cbn [mbind option_bind]. destruct (parse_value _ _ p) as [r|] eqn:E; [| done].
    cbn [mbind option_bind]. apply parse_ends in E; [| lia]. by destruct r.
  - intros F. destruct (skip_fine _ F) as (p & -> & Fp). cbn [mbind option_bind].
    pose proof (proj1 (parse_in_text (S (length p))) cJSON_New_Item p Fp) as T.
    destruct (parse_value _ _ p) as [r|] eqn:E; [| done]. cbn [mbind option_bind]. apply parse_ends in E; [| lia]. destruct r; [eauto | eauto | done].
Qed.
End safe.

(** A text with escapes and an exponent that is [fine]. *)
Fixpoint all_rests (f : bytes -> bool) (p : bytes) : bool :=
  match p with [] => true | _ :: q => f p && all_rests f q end.

Lemma all_rests_app f l q c : all_rests f (l ++ c :: q) = true -> f (c :: q) = true.
Proof. induction l as [|a l IH]; cbn [app all_rests]; intros E; apply andb_true_iff in E as [E1 E2]; auto. Qed.

Definition sample_text : bytes := str_bytes "[-15e2, {}, " ++ dq :: bs :: "u"%char :: str_bytes "0041" ++ [dq; "]"%char].
#[local] Instance zero_libm : Libm := { pow10 _ := S754_zero false; cast_out _ := 0 }.

Lemma sample_fine : fine (c_cut sample_text ++ [NUL]).
Proof.
  split; [done | | | by vm_compute].
  - intros l q E. assert (all_rests (fun p => match p with
      | c :: p => if eqc c bs then match p with c :: p => negb (eqc c NUL) && (negb (eqc c "u") || forallb (fun h => bool_decide (is_Some (hex_value h))) (take 4 p) && (length (take 4 p) =? 4)%nat) | [] => false end else true
      | [] => true end) (c_cut sample_text ++ [NUL]) = true) as A by (by vm_compute).
    rewrite E in A. apply all_rests_app in A. rewrite eqc_refl in A. destruct q as [|c q]; [done |]. apply andb_true_iff in A as [A1 A2]. exists c, q.
    split_and!; [done | by intros -> |]. intros ->. change (negb (eqc "u" "u")) with false in A2. cbn [orb] in A2. apply andb_true_iff in A2 as [A2 A3].
    destruct q as [|x1 [|x2 [|x3 [|x4 q]]]]; try done. cbn [take forallb] in A2.
    repeat match goal with H : _ && _ = true |- _ => apply andb_true_iff in H as [?%bool_decide_eq_true H] end.
    exists x1, x2, x3, x4, q. by repeat constructor.
  - intros l c q E Ex. assert (all_rests (fun p => match p with
      | c :: _ => if eqc c "e" || eqc c "E" then bool_decide (is_Some (number_exp p)) else true
      | [] => true end) (c_cut sample_text ++ [NUL]) = true) as A by (by vm_compute).
    rewrite E in A. apply all_rests_app in A. rewrite Ex in A. apply bool_decide_eq_true in A as [x ->]. done.
Qed.

Lemma cjson_parse_safe_witness : fine (c_cut sample_text ++ [NUL]) /\ exists r, cJSON_Parse sample_text = Some (Some r).
Proof. split; [exact sample_fine |]. apply (cjson_parse_safe sample_text). exact sample_fine. Defined.
End CJson.
