(* ===== verification/CJsonText.v ===== *)
(** * CJsonText: what the printer writes, the parser reads

    The texts of [print_value] in [util/json/cJSON.c], given by a definition
    without buffers ([render]): the printer writes this text and stays within
    its buffers, and the parser reads the tree back from it.  What the parser
    makes of any text is such a tree, when it has no floating point numbers. *)

From S2P Require Import Prelude Util CFloat CJson.
From Stdlib Require Import SpecFloat.
Import Util CFloat CJson.

#[local] Open Scope Z_scope.

Module CJsonText.

(** ** Trees and their texts *)

Lemma item_ind (P : cJSON -> Prop) :
  (forall t s n d g k cs, Forall P cs -> P (mk_item t s n d g k cs)) -> forall i, P i.
Proof.
  intros Step. refine (fix F i := _). destruct i as [t s n d g k cs]. apply Step.
  induction cs as [|c cs IH]; constructor; [apply F | exact IH].
Qed.

(** The text of a character inside a string. *)
Definition plain (c : ascii) : bool := (31 <? uchar c) && negb (eqc c dq) && negb (eqc c bs).
Definition esc (c : ascii) : bytes :=
  if plain c then [c]
  else match short_escape c with Some e => [bs; e] | None => bs :: "u"%char :: hex4 (uchar c) end.
Definition escs (s : bytes) : bytes := flat_map esc s.
Definition quote (s : bytes) : bytes := dq :: escs s ++ [dq].

Fixpoint array_text (fmt : bool) (l : list bytes) : bytes :=
  match l with
  | [] => []
  | e :: l => e ++ (if bool_decide (l = []) then [] else if fmt then [","; " "]%char else [","]%char) ++ array_text fmt l
  end.

Definition when (fmt : bool) (l : bytes) : bytes := if fmt then l else [].

Fixpoint object_text (fmt : bool) (depth : Z) (l : list (bytes * bytes)) : bytes :=
  match l with
  | [] => []
  | (n, e) :: l =>
      when fmt (tabs depth) ++ n ++ ":"%char :: when fmt ["009"%char] ++ e ++
      when (negb (bool_decide (l = []))) [","%char] ++ when fmt ["010"%char] ++ object_text fmt depth l
  end.

(** The text of a tree without floating-point numbers. *)
Fixpoint render (depth : Z) (fmt : bool) (i : cJSON) : bytes :=
  let '(mk_item t s n _ g _ cs) := i in
  if t =? cJSON_NULL then str_bytes "null" else
  if t =? cJSON_False then str_bytes "false" else
  if t =? cJSON_True then str_bytes "true" else
  if t =? cJSON_Int then dec (if g =? -1 then i64 n else n) else
  if t =? cJSON_String then quote (default [] s) else
  if t =? cJSON_Array then "["%char :: array_text fmt (List.map (render (depth + 1) fmt) cs) ++ ["]"%char]
  else
    "{"%char :: when fmt ["010"%char] ++
      object_text fmt (depth + 1) (List.map (fun c => (quote (default [] (string c)), render (depth + 1) fmt c)) cs) ++
    when fmt (tabs depth) ++ ["}"%char].

(** The trees that survive printing and parsing.  No floating-point numbers; the
    fields of every item as the parser sets them; a number has the sign 1, or
    the sign -1 and a value from [- 2 ^ 63] to -1.  The parser makes other trees
    of [-0] and of numbers below [- 2 ^ 63]: they get the sign -1 and a value
    below [2 ^ 63], and are printed without the minus. *)
Definition text_ok (s : bytes) : bool := bool_decide (NUL ∉ s).
Definition no_zero : double := S754_zero false.

Fixpoint canonical (i : cJSON) : bool :=
  let '(mk_item t s n d g k cs) := i in
  if (t =? cJSON_NULL) || (t =? cJSON_False) then
    bool_decide (s = None) && (n =? 0) && bool_decide (d = no_zero) && (g =? 0) && bool_decide (length cs = 0%nat)
  else if t =? cJSON_True then
    bool_decide (s = None) && (n =? 1) && bool_decide (d = no_zero) && (g =? 0) && bool_decide (length cs = 0%nat)
  else if t =? cJSON_Int then
    bool_decide (s = None) && bool_decide (d = to_double n 0) && (n <? 2 ^ 64) &&
    (((g =? 1) && (0 <=? n)) || ((g =? -1) && (2 ^ 63 <=? n))) && bool_decide (length cs = 0%nat)
  else if t =? cJSON_String then
    match s with Some s => text_ok s | None => false end &&
    (n =? 0) && bool_decide (d = no_zero) && (g =? 0) && bool_decide (length cs = 0%nat)
  else if t =? cJSON_Array then
    bool_decide (s = None) && (n =? 0) && bool_decide (d = no_zero) && (g =? 0) &&
    forallb (fun c => bool_decide (string c = None) && canonical c) cs
  else if t =? cJSON_Object then
    bool_decide (s = None) && (n =? 0) && bool_decide (d = no_zero) && (g =? 0) &&
    forallb (fun c => match string c with Some k => text_ok k | None => false end && canonical c) cs
  else false.

(** ** Strings *)

Lemma zlen_cons {A} (a : A) r : zlen (a :: r) = 1 + zlen r.
Proof. unfold zlen. cbn. lia. Qed.
Lemma zlen_nil {A} : zlen (@nil A) = 0. Proof. done. Qed.

Lemma esc_length c : zlen (esc c) = escaped_len c.
Proof. destruct c as [[] [] [] [] [] [] [] []]; reflexivity. Qed.

Lemma escs_length s : zlen (escs s) = string_len s.
Proof. induction s as [|c s IH]; [done |]. change (zlen (esc c ++ escs s) = escaped_len c + string_len s). rewrite zlen_app, esc_length, IH. done. Qed.

Ltac zlens :=
  repeat match goal with
  | _ : context [zlen ?l] |- _ => lazymatch goal with _ : 0 <= zlen l |- _ => fail | _ => pose proof (zlen_nonneg l) end
  | |- context [zlen ?l] => lazymatch goal with _ : 0 <= zlen l |- _ => fail | _ => pose proof (zlen_nonneg l) end
  end; lia.

Ltac split_canonical :=
  repeat match goal with
  | H : _ && _ = true |- _ => apply andb_true_iff in H as [? ?]
  | H : bool_decide _ = true |- _ => apply bool_decide_eq_true in H
  | H : (_ =? _) = true |- _ => apply Z.eqb_eq in H
  | H : (_ <? _) = true |- _ => apply Z.ltb_lt in H
  | H : (_ <=? _) = true |- _ => apply Z.leb_le in H
  | H : length ?l = 0%nat |- _ => apply nil_length_inv in H
  end; subst.

Lemma emit_ok cap out l : zlen out + zlen l <= cap -> emit cap out l = Some (out ++ l).
Proof. intros L. unfold emit. by destruct (Z.leb_spec (zlen out + zlen l) cap); [| lia]. Qed.

Lemma escape_string_ok cap s out : zlen out + string_len s + 1 <= cap -> escape_string cap out s = Some (out ++ escs s).
Proof.
  revert out. induction s as [|c s IH]; intros out L; cbn [escape_string]; [by rewrite app_nil_r |].
  cbn [string_len foldr] in L. fold (string_len s) in L. rewrite <- esc_length in L.
  pose proof (zlen_nonneg (escs s)) as G. rewrite escs_length in G.
  assert (escape_string cap (out ++ esc c) s = Some (out ++ escs (c :: s))) as E.
  { rewrite IH by (rewrite zlen_app; lia). f_equal. by rewrite <- app_assoc. }
  unfold esc in L, E. fold (plain c). destruct (plain c); [by rewrite emit_ok by lia |].
  destruct (short_escape c); [by rewrite emit_ok by lia |].
  change (bs :: ?a :: ?l ++ [NUL]) with ((bs :: a :: l) ++ [NUL]). rewrite (emit_ok _ _ (_ ++ _)) by (rewrite zlen_app; change (zlen [NUL]) with 1; lia).
  cbn [mbind option_bind]. by rewrite emit_ok by lia.
Qed.

Lemma print_string_ok s : string_len s + 3 <= INT_MAX -> print_string_ptr (Some s) = Some (quote s).
Proof.
  intros L. unfold print_string_ptr. pose proof (zlen_nonneg (escs s)) as G. rewrite escs_length in G.
  destruct (Z.ltb_spec INT_MAX (string_len s + 3)); [lia |].
  rewrite emit_ok by (rewrite zlen_cons, !zlen_nil; lia). cbn [mbind option_bind].
  rewrite escape_string_ok by (rewrite zlen_app, zlen_cons, !zlen_nil; lia). cbn [mbind option_bind].
  rewrite emit_ok by (rewrite !zlen_app, escs_length, !zlen_cons, !zlen_nil; lia). cbn [mbind option_bind].
  rewrite emit_ok by (rewrite !zlen_app, escs_length, !zlen_cons, !zlen_nil; lia). cbn [mbind option_bind].
  done.
Qed.

(** What the parser meets in the text of a character. *)
Inductive esc_view (c : ascii) : bytes -> Prop :=
  | view_plain : eqc c dq || eqc c NUL = false -> eqc c bs = false -> esc_view c [c]
  | view_short e : eqc e "u" = false -> default e (escape e) = c -> esc_view c [bs; e]
  | view_hex : (forall p, sscanf_4x (hex4 (uchar c) ++ p) = Some (Some (uchar c))) -> utf8 (uchar c) = [c] -> 0 < uchar c < 32 ->
      Forall (fun h => eqc h dq || eqc h NUL = false /\ eqc h bs = false) (hex4 (uchar c)) ->
      esc_view c (bs :: "u"%char :: hex4 (uchar c)).

Lemma esc_viewed c : c <> NUL -> esc_view c (esc c).
Proof.
  intros N. destruct c as [[] [] [] [] [] [] [] []]; try done;
    try (apply view_plain; reflexivity); try (by eapply view_short; reflexivity);
    (apply view_hex; [reflexivity | reflexivity | done | repeat constructor]).
Qed.

Lemma scan_string_ok s n rest : NUL ∉ s ->
  exists k, scan_string n (escs s ++ dq :: rest) = Some k /\ n + zlen s <= k <= n + string_len s.
Proof.
  revert n. induction s as [|c s IH]; intros n N.
  { exists n. split; [done |]. rewrite zlen_nil. change (string_len []) with 0. lia. }
  apply not_elem_of_cons in N as [Nc N]. change (escs (c :: s)) with (esc c ++ escs s).
  change (string_len (c :: s)) with (escaped_len c + string_len s). rewrite zlen_cons, <- esc_length, <- app_assoc.
  destruct (esc_viewed c ltac:(congruence)) as [E1 E2 | e _ _ | _ _ _ Hx].
  - cbn [app scan_string]. rewrite E1, E2. destruct (IH (n + 1) N) as (k & -> & L). exists k. split; [done |]. rewrite zlen_cons, zlen_nil. lia.
  - cbn [app scan_string]. destruct (IH (n + 1) N) as (k & E & L). exists k. split; [exact E |]. rewrite !zlen_cons, zlen_nil. lia.
  - unfold hex4 in *. repeat (apply Forall_cons in Hx as [(?E1 & ?E2) Hx]). cbn [app scan_string].
    change (eqc bs dq || eqc bs NUL) with false. change (eqc bs bs) with true. cbn beta iota. rewrite E1, E2, E0, E3, E4, E5, E6, E7.
    destruct (IH (n + 1 + 1 + 1 + 1 + 1) N) as (k & -> & L). exists k. split; [done |]. rewrite !zlen_cons, zlen_nil. lia.
Qed.

Lemma copy_step fuel cap v out c p : c <> NUL -> zlen out + 1 <= cap ->
  exists v', copy_string (S fuel) cap v out (esc c ++ p) = copy_string fuel cap v' (out ++ [c]) p.
Proof.
  intros N L. assert (emit cap out [c] = Some (out ++ [c])) as Em by (apply emit_ok; by rewrite zlen_cons, zlen_nil, Z.add_0_r).
  destruct (esc_viewed c N) as [E1 E2 | e E1 E2 | E1 E2 R _]; cbn [app copy_string head mbind option_bind tail].
  - rewrite E1, E2. cbn [negb]. rewrite Em. by exists v.
  - change (eqc bs dq || eqc bs NUL) with false. change (negb (eqc bs bs)) with false. cbn beta iota. rewrite E1, E2, Em. by exists v.
  - change (eqc bs dq || eqc bs NUL) with false. change (negb (eqc bs bs)) with false. cbn beta iota. change (eqc "u" "u") with true. cbn beta iota.
    unfold read_u. cbn [tail]. rewrite E1. cbn [mbind option_bind].
    destruct (Z.leb_spec 0xDC00 (uchar c)), (Z.eqb_spec (uchar c) 0), (Z.leb_spec 0xD800 (uchar c)); try lia.
    cbn [andb orb mbind option_bind]. rewrite E2, Em.
    cbn [mbind option_bind]. by eexists.
Qed.

Lemma copy_string_ok s fuel cap v out rest : NUL ∉ s -> zlen out + zlen s <= cap -> (length s < fuel)%nat ->
  copy_string fuel cap v out (escs s ++ dq :: rest) = Some (Some (out ++ s, dq :: rest)).
Proof.
  revert fuel v out. induction s as [|c s IH]; intros fuel v out N L F; (destruct fuel as [|fuel]; [cbn in F; lia |]).
  { cbn. by rewrite app_nil_r. }
  apply not_elem_of_cons in N as [Nc N]. rewrite zlen_cons in L. pose proof (zlen_nonneg s). cbn [length] in F.
  change (escs (c :: s)) with (esc c ++ escs s). rewrite <- app_assoc.
  destruct (copy_step fuel cap v out c (escs s ++ dq :: rest) ltac:(congruence) ltac:(lia)) as (v' & ->).
  rewrite IH; [by rewrite <- app_assoc | done | rewrite zlen_app, zlen_cons, zlen_nil; lia | lia].
Qed.

Lemma escs_longer s : zlen s <= zlen (escs s).
Proof.
  induction s as [|c s IH]; [done |]. change (escs (c :: s)) with (esc c ++ escs s). rewrite zlen_app, zlen_cons.
  assert (1 <= zlen (esc c)); [| lia]. rewrite esc_length. destruct c as [[] [] [] [] [] [] [] []]; by vm_compute.
Qed.

Lemma parse_string_ok item s rest : NUL ∉ s -> string_len s <= INT_MAX -> parse_string item (quote s ++ rest) = Some (Good (set_text s item) rest).
Proof.
  intros N L. unfold quote. cbn [app]. rewrite <- app_assoc. unfold parse_string. cbn [head mbind option_bind tail].
  change (negb (eqc dq dq)) with false. cbn beta iota. cbn [app]. destruct (scan_string_ok s 0 rest N) as (k & -> & Lk). cbn [mbind option_bind].
  destruct (Z.ltb_spec INT_MAX k); [lia |]. pose proof (escs_longer s) as Le. unfold zlen in Le.
  rewrite copy_string_ok; [| done | rewrite zlen_nil; lia | cbn [length]; rewrite length_app; lia]. cbn [mbind option_bind app].
  rewrite emit_ok by (rewrite zlen_cons, zlen_nil; lia). done.
Qed.

(** ** Numbers *)

(** A number in the text ends here. *)
Definition stop (rest : bytes) : Prop :=
  exists c q, rest = c :: q /\ is_09 c = false /\ eqc c "." = false /\ eqc c "e" || eqc c "E" = false.

Lemma is_digit_09 c : is_digit c -> is_09 c = true /\ digit c = Some (digit_value c) /\ 0 <= digit_value c.
Proof.
  intros (n & L & ->). pose proof (digit_char n L) as D. unfold digit, is_09, digit_value in *. destruct (_ && _) eqn:E; [| done].
  split_and!; [done.. |]. apply andb_true_iff in E as [E _]. apply Z.leb_le in E. lia.
Qed.

Lemma digits_mono ds a v : Forall is_digit ds -> 0 <= a -> digits ds (Some a) = Some v -> a <= v.
Proof.
  revert a. induction ds as [|c ds IH]; intros a F A E; [cbn in E; simplify_eq; lia |].
  apply Forall_cons in F as [Fc F]. destruct (is_digit_09 c Fc) as (_ & D & P). cbn [digits] in E. rewrite D in E. apply IH in E; [| done |]; cbn in *; lia.
Qed.

Lemma long_round_exact z : 0 <= z < 2 ^ 64 -> long_round z = Some z.
Proof.
  intros Rz. unfold long_round. assert (Z.log2 z < 64) as L.
  { destruct (Z.eq_dec z 0) as [->|]; [done |]. apply Z.log2_lt_pow2; lia. }
  destruct (Z.leb_spec (Z.log2 z - 63) 0); [| lia].
  assert (z < 2 ^ 16384) as ?%Z.ltb_lt by (eapply Z.lt_trans; [apply Rz | by apply Z.pow_lt_mono_r]).
  by case_match.
Qed.

Lemma read_digits_ok ds a v k rest : Forall is_digit ds -> 0 <= a -> digits ds (Some a) = Some v -> v < 2 ^ 64 -> stop rest ->
  read_digits (Some a) k (ds ++ rest) = Some (Some v, k + zlen ds, rest).
Proof.
  revert a k. induction ds as [|c ds IH]; intros a k F A E V S.
  { cbn in E. simplify_eq. destruct S as (d & q & -> & N & _). cbn [app read_digits]. rewrite N, zlen_nil. do 3 f_equal. lia. }
  apply Forall_cons in F as [Fc F]. destruct (is_digit_09 c Fc) as (T & D & P). cbn [digits] in E. rewrite D in E. cbn [default] in E.
  change (digits ds (Some (a * 10 + digit_value c)) = Some v) in E. pose proof (digits_mono ds (a * 10 + digit_value c) v F ltac:(lia) E) as M. cbn [app read_digits]. rewrite T. unfold long_digit. cbn [mbind option_bind].
  rewrite (long_round_exact (a * 10)) by lia. cbn [mbind option_bind]. rewrite long_round_exact by lia.
  rewrite (IH _ _ F) by (done || lia). rewrite zlen_cons. do 3 f_equal. lia.
Qed.

Lemma pretty_N_go_first x s : (0 < x)%N -> exists d ds, str_bytes (pretty_N_go x s) = d :: ds /\ d <> "0"%char.
Proof.
  revert s. induction (N.lt_wf_0 x) as [x _ IH]; intros s P. rewrite pretty_N_go_step by lia. destruct (decide (x < 10)%N) as [L|L].
  - rewrite N.div_small, N.mod_small, pretty_N_go_0 by lia. exists (pretty_N_char x), (str_bytes s). split; [done |]. intros E.
    pose proof (digit_char x L) as D. rewrite E in D. change (Some 0 = Some (Z.of_N x)) in D. injection D as D. lia.
  - apply IH; [apply N.div_lt; lia |]. apply N.div_str_pos. lia.
Qed.

Section parse.
Context `{Libm}.

Lemma int_part_ok n rest : 0 <= n < 2 ^ 64 -> stop rest -> int_part (dec n ++ rest) = Some (Some n, rest).
Proof.
  intros R S. destruct n as [|p|p]; [| | lia].
  - destruct S as (c & q & -> & N & _). unfold int_part. change (dec 0) with ["0"%char]. cbn [app head mbind option_bind tail].
    change (eqc "0" "0") with true. cbn [head mbind option_bind]. by rewrite N.
  - destruct (pretty_pos_digits p) as (ds & E & F & _ & D). rewrite E.
    destruct (pretty_N_go_first (Npos p) "" ltac:(lia)) as (d & ds' & E' & N). change (str_bytes _) with (dec (Zpos p)) in E'.
    rewrite E' in E. subst ds. unfold int_part. cbn [app head mbind option_bind]. assert (eqc d "0" = false) as -> by (by apply bool_decide_eq_false).
    cbn [head mbind option_bind]. pose proof F as [Fd _]%Forall_cons. destruct (is_digit_09 d Fd) as (T & _). rewrite T. unfold eqc. rewrite bool_decide_false by done. cbn [negb andb].
    change (d :: ds' ++ rest) with ((d :: ds') ++ rest). rewrite (read_digits_ok _ _ (Z.pos p)); [done | done | done | | lia | done].
    rewrite <- D. cbn [digits]. destruct (is_digit_09 d Fd) as (_ & -> & _). done.
Qed.

Lemma parse_number_ok item g n rest : (g = 1 /\ 0 <= n < 2 ^ 64 \/ g = -1 /\ 2 ^ 63 <= n < 2 ^ 64) -> stop rest ->
  parse_number item (dec (if g =? -1 then i64 n else n) ++ rest) = Some (Good (set_number cJSON_Int n (to_double n 0) g item) rest).
Proof.
  intros R S. set (m := if g =? -1 then 2 ^ 64 - n else n).
  assert (0 <= m < 2 ^ 64) as M by (subst m; destruct R as [[-> R]|[-> R]]; [change (1 =? -1) with false | change (-1 =? -1) with true]; lia).
  assert (dec (if g =? -1 then i64 n else n) = (if g =? -1 then ["-"%char] else []) ++ dec m) as ->.
  { subst m. destruct R as [[-> R]|[-> R]]; [done |]. change (-1 =? -1) with true. cbn iota. unfold i64. destruct (Z.ltb_spec n (2 ^ 63)); [lia |].
    destruct (2 ^ 64 - n) as [|p|p] eqn:P; [lia | | lia]. replace (n - 2 ^ 64) with (Z.neg p) by lia.
    change (dec (Zneg p)) with (str_bytes ("-" +:+ pretty (Zpos p))). by rewrite str_bytes_app. }
  assert (forall q, int_part (dec m ++ rest) = q -> q = Some (Some m, rest)) as IP by (intros q <-; by apply int_part_ok).
  unfold parse_number. rewrite <- app_assoc.
  assert (exists c q, dec m ++ rest = c :: q /\ eqc c "-" = false) as (c & q & Eq & Nc).
  { destruct (dec_shape m) as (ds & F & Ne & _ & E). rewrite E. destruct (Z.ltb_spec m 0); [lia |]. destruct ds as [|d ds]; [done |].
    cbn. exists d, (ds ++ rest). split; [done |]. apply Forall_cons in F as [F _]. apply bool_decide_eq_false. by apply digit_not_space in F as (_ & ? & _). }
  destruct S as (d & r & -> & _ & S2 & S3).
  assert (forall s, u64 (s * cast_u64 (Some m)) = u64 (s * m)) as C.
  { intros s. unfold cast_u64. destruct (Z.leb_spec 0 m), (Z.ltb_spec m (2 ^ 64)); try lia. done. }
  destruct R as [[-> R]|[-> R]]; [change (1 =? -1) with false | change (-1 =? -1) with true]; cbn [app]; rewrite ?Eq; cbn [head mbind option_bind tail].
  - rewrite Nc, <- Eq, (IP _ eq_refl). cbn [mbind option_bind]. unfold frac_part, number_exp. cbn [head mbind option_bind]. rewrite S2. cbn [head mbind option_bind]. rewrite S3. cbn [mbind option_bind andb Z.eqb].
    rewrite C. unfold u64. rewrite Z.mul_1_l, Z.mod_small by (change (1 =? -1) with false in *; lia). done.
  - change (eqc "-" "-") with true. cbn iota. rewrite <- Eq, (IP _ eq_refl). cbn [mbind option_bind]. unfold frac_part, number_exp. cbn [head mbind option_bind]. rewrite S2. cbn [head mbind option_bind]. rewrite S3. cbn [mbind option_bind andb Z.eqb].
    rewrite C. replace (u64 (-1 * m)) with n; [done |]. unfold u64. subst m. change (-1 =? -1) with true in *. cbn iota in *.
    apply (Z.mod_unique_pos _ _ (-1)); lia.
Qed.

(** ** Blanks *)

Definition blanks (w : bytes) : Prop := Forall (fun c => eqc c NUL = false /\ uchar c <= 32) w.

Lemma skip_blank w p : blanks w -> skip (w ++ p) = skip p.
Proof.
  induction w as [|c w IH]; intros B; [done |]. apply Forall_cons in B as [[N L] B]. cbn [app skip]. rewrite N.
  destruct (Z.leb_spec (uchar c) 32); [| lia]. by apply IH.
Qed.

Lemma skip_ink c p : 32 < uchar c -> skip (c :: p) = Some (c :: p).
Proof. intros L. cbn [skip]. destruct (Z.leb_spec (uchar c) 32); [lia |]. by rewrite andb_false_r. Qed.

Lemma blanks_tabs n : blanks (tabs n).
Proof. apply Forall_replicate. by vm_compute. Qed.

Lemma blanks_when fmt w : blanks w -> blanks (when fmt w).
Proof. destruct fmt; [done | constructor]. Qed.

Lemma blanks_nl : blanks ["010"%char].
Proof. by repeat constructor. Qed.
Lemma blanks_tab : blanks ["009"%char].
Proof. by repeat constructor. Qed.

(** A value starts with a character that is no blank and closes nothing. *)
Lemma number_head n : exists c q, dec n = c :: q /\ (eqc c "-" || is_09 c = true).
Proof.
  destruct (dec_shape n) as (ds & F & N & _ & ->). destruct (n <? 0); [by eexists _, _ |]. destruct ds as [|d ds]; [done |].
  exists d, ds. split; [done |]. apply Forall_cons in F as [F _]. destruct (is_digit_09 d F) as (-> & _). by rewrite orb_true_r.
Qed.

Lemma number_char c : eqc c "-" || is_09 c = true -> 32 < uchar c /\
  eqc "n" c = false /\ eqc "f" c = false /\ eqc "t" c = false /\ eqc c dq = false /\ eqc c "[" = false /\ eqc c "]" = false /\ eqc c "}" = false.
Proof. destruct c as [[] [] [] [] [] [] [] []]; try done. Qed.

Lemma render_head i depth fmt : exists c q, render depth fmt i = c :: q /\ 32 < uchar c /\ eqc c "]" = false /\ eqc c "}" = false.
Proof.
  destruct i as [t s n d g k cs]. cbn [render]. repeat (destruct (_ =? _); [try (by eexists _, _) |]); try (by eexists _, _).
  all: destruct (number_head (i64 n)) as (c & q & -> & C) || destruct (number_head n) as (c & q & -> & C);
    destruct (number_char c C) as (? & _ & _ & _ & _ & _ & ? & ?); by exists c, q.
Qed.

(** ** Values *)

Lemma starts_no a w c q : eqc a c = false -> starts (a :: w) (c :: q) = Some false.
Proof. intros E. cbn. by rewrite E. Qed.

Definition fresh (t : Z) (k : option bytes) : cJSON := mk_item t None 0 no_zero 0 k [].

Definition reads (i : cJSON) : Prop := forall depth fmt fuel t rest, canonical i = true -> stop rest ->
  (length (render depth fmt i ++ rest) < fuel)%nat -> zlen (render depth fmt i ++ rest) <= INT_MAX ->
  parse_value fuel (fresh t (string i)) (render depth fmt i ++ rest) = Some (Good i rest).

(** What follows an entry of an array. *)
Definition after_entry (fmt : bool) (l : list bytes) : bytes :=
  (if bool_decide (l = []) then [] else if fmt then [","; " "]%char else [","]%char) ++ array_text fmt l ++ ["]"%char].

Lemma after_entry_cons fmt e l : after_entry fmt (e :: l) = ","%char :: when fmt [" "%char] ++ e ++ after_entry fmt l.
Proof. unfold after_entry. cbn [array_text]. rewrite bool_decide_false by done. by destruct fmt; cbn [when app]; rewrite <- !app_assoc. Qed.

Lemma array_text_cons fmt e l : array_text fmt (e :: l) ++ ["]"%char] = e ++ after_entry fmt l.
Proof. unfold after_entry. cbn [array_text]. by rewrite <- !app_assoc. Qed.

Lemma after_entry_stop fmt l rest : exists c q, after_entry fmt l ++ rest = c :: q /\ 32 < uchar c /\ stop (after_entry fmt l ++ rest).
Proof. destruct l as [|e l]; [| rewrite after_entry_cons]; eexists _, _; (split_and!; [reflexivity | done | by eexists _, _]). Qed.

Lemma read_array_rest cs : Forall reads cs -> forall depth fmt fuel t k acc rest,
  forallb (fun c => bool_decide (string c = None) && canonical c) cs = true -> stop rest ->
  let text := after_entry fmt (List.map (render depth fmt) cs) ++ rest in
  (length text < fuel)%nat -> zlen text <= INT_MAX ->
  parse_array_rest fuel (fresh t k) acc text = Some (Good (set_child (acc ++ cs) (fresh t k)) rest).
Proof.
  induction cs as [|c cs IH]; intros R depth fmt fuel t k acc rest C St text F L; subst text; (destruct fuel as [|fuel]; [lia |]).
  { cbn. by rewrite app_nil_r. }
  apply Forall_cons in R as [Rc R]. cbn [forallb] in C. apply andb_true_iff in C as [[Cn%bool_decide_eq_true Cc]%andb_true_iff C].
  cbn [List.map] in *. rewrite after_entry_cons in *. cbn [app] in *. rewrite <- !app_assoc in *. cbn [parse_array_rest head mbind option_bind tail].
  change (eqc "," ",") with true. cbn iota. cbn [length] in F. rewrite zlen_cons, zlen_app in L. rewrite length_app in F.
  destruct (render_head c depth fmt) as (d & q & E & Ed & _). rewrite skip_blank by (by destruct fmt; repeat constructor).
  rewrite E. cbn [app]. rewrite skip_ink by done. cbn [mbind option_bind]. rewrite app_comm_cons, <- E.
  set (more := after_entry fmt (List.map (render depth fmt) cs) ++ rest) in *. pose proof (zlen_nonneg (when fmt [" "%char])).
  destruct (after_entry_stop fmt (List.map (render depth fmt) cs) rest) as (e & q' & Em & Ee & Sm). fold more in Em, Sm.
  pose proof (Rc depth fmt fuel 0 more Cc Sm ltac:(lia) ltac:(lia)) as P. rewrite Cn in P. change (fresh 0 None) with cJSON_New_Item in P. rewrite P.
  unfold then_skip. cbn [mbind option_bind]. rewrite Em, skip_ink, <- Em by done. cbn [mbind option_bind]. subst more. rewrite zlen_app, length_app in *.
  rewrite (IH R) by (done || rewrite ?zlen_app, ?length_app in *; pose proof (zlen_nonneg (render depth fmt c)); lia). by rewrite <- app_assoc.
Qed.

(** What follows a member of an object; [depth] is that of the members. *)
Definition after_member (fmt : bool) (depth : Z) (l : list (bytes * bytes)) : bytes :=
  when (negb (bool_decide (l = []))) [","%char] ++ when fmt ["010"%char] ++ object_text fmt depth l ++
  when fmt (tabs (depth - 1)) ++ ["}"%char].

Definition member (depth : Z) (fmt : bool) (c : cJSON) : bytes * bytes := (quote (default [] (string c)), render depth fmt c).

Lemma object_text_cons fmt depth n e l :
  object_text fmt depth ((n, e) :: l) ++ when fmt (tabs (depth - 1)) ++ ["}"%char] =
  when fmt (tabs depth) ++ n ++ [":"%char] ++ when fmt ["009"%char] ++ e ++ after_member fmt depth l.
Proof. unfold after_member. cbn [object_text]. by rewrite <- !app_assoc; cbn [app]; rewrite <- !app_assoc. Qed.

Lemma after_member_stop fmt depth l rest : stop (after_member fmt depth l ++ rest).
Proof. destruct l as [|e l], fmt; by eexists _, _. Qed.

(** The name and the value of a member, in front of [more]. *)
Lemma read_member depth fmt fuel c more k : reads c ->
  match string c with Some n => text_ok n | None => false end && canonical c = true -> stop more ->
  let text := when fmt (tabs depth) ++ quote (default [] (string c)) ++ [":"%char] ++ when fmt ["009"%char] ++ render depth fmt c ++ more in
  (length text <= fuel)%nat -> zlen text <= INT_MAX ->
  parse_member (parse_value fuel) text k = (p ← skip more; k c p).
Proof.
  intros R [Cn Cc]%andb_true_iff St text F L. subst text. destruct (string c) as [n|] eqn:Sc; [| done]. apply bool_decide_eq_true in Cn. cbn [default] in *.
  rewrite !zlen_app in L. rewrite !length_app in F. pose proof (zlen_nonneg (when fmt (tabs depth))). pose proof (zlen_nonneg (when fmt ["009"%char])).
  pose proof (zlen_nonneg more). pose proof (zlen_nonneg (render depth fmt c)). change (zlen [":"%char]) with 1 in L. cbn [length] in F.
  pose proof (zlen_nonneg (escs n)). assert (zlen (quote n) = 2 + string_len n) as Lq.
  { unfold quote. rewrite zlen_cons, zlen_app, escs_length. change (zlen [dq]) with 1. lia. } rewrite <- escs_length in Lq.
  unfold parse_member. unfold id in *. rewrite skip_blank by apply blanks_when, blanks_tabs.
  rewrite (eq_refl : quote n ++ _ = dq :: (escs n ++ [dq]) ++ _), skip_ink by done. cbn [mbind option_bind].
  change (dq :: (escs n ++ [dq]) ++ ?r) with (quote n ++ r). rewrite parse_string_ok by (done || rewrite <- escs_length; lia).
  unfold then_skip. cbn [mbind option_bind app]. rewrite skip_ink by done. cbn [mbind option_bind head tail]. change (negb (eqc ":" ":")) with false. cbn iota.
  rewrite skip_blank by apply blanks_when, blanks_tab. destruct (render_head c depth fmt) as (d & q & E & Ed & _).
  rewrite E. cbn [app]. rewrite skip_ink by done. cbn [mbind option_bind]. rewrite app_comm_cons, <- E.
  change (take_name (set_text n cJSON_New_Item)) with (fresh cJSON_String (Some n)). rewrite <- Sc.
  rewrite R by (done || rewrite ?length_app, ?zlen_app; lia). done.
Qed.

Lemma parse_member_blank parse w p k : blanks w -> parse_member parse (w ++ p) k = parse_member parse p k.
Proof. intros B. unfold parse_member. by rewrite skip_blank. Qed.

Lemma skip_after fmt depth l rest : exists p, skip (after_member fmt depth l ++ rest) = Some p.
Proof.
  destruct l as [|e l]; unfold after_member; [| by eexists]. rewrite bool_decide_true by done. cbn [negb when object_text app].
  rewrite <- !app_assoc, !skip_blank by (apply blanks_when; apply blanks_nl || apply blanks_tabs). by eexists.
Qed.

Lemma read_object_rest cs : Forall reads cs -> forall depth fmt fuel t k acc rest p,
  forallb (fun c => match string c with Some n => text_ok n | None => false end && canonical c) cs = true -> stop rest ->
  let text := after_member fmt depth (List.map (member depth fmt) cs) ++ rest in
  skip text = Some p -> (length text < fuel)%nat -> zlen text <= INT_MAX ->
  parse_object_rest fuel (fresh t k) acc p = Some (Good (set_child (acc ++ cs) (fresh t k)) rest).
Proof.
  induction cs as [|c cs IH]; intros R depth fmt fuel t k acc rest p C St text Sp F L; subst text; (destruct fuel as [|fuel]; [lia |]).
  { unfold after_member in Sp. cbn [List.map object_text] in Sp. rewrite bool_decide_true in Sp by done. cbn [negb when app] in Sp.
    rewrite <- !app_assoc, !skip_blank in Sp by (apply blanks_when; apply blanks_nl || apply blanks_tabs). cbn [app] in Sp. rewrite skip_ink in Sp by done.
    injection Sp as <-. cbn. by rewrite app_nil_r. }
  apply Forall_cons in R as [Rc R]. cbn [forallb] in C. apply andb_true_iff in C as [Cc C].
  cbn [List.map] in Sp, F, L. unfold after_member in Sp, F, L. rewrite bool_decide_false in Sp, F, L by done. cbn [negb when] in Sp, F, L.
  change (member depth fmt c) with (quote (default [] (string c)), render depth fmt c) in *. rewrite object_text_cons in Sp, F, L. rewrite <- !app_assoc in Sp, F, L.
  set (more := after_member fmt depth (List.map (member depth fmt) cs) ++ rest) in *.
  change ([","%char] ++ ?l) with (","%char :: l) in Sp. rewrite skip_ink in Sp by done. apply (inj Some) in Sp as <-. cbn [parse_object_rest head mbind option_bind tail]. change (eqc "," ",") with true. cbn iota.
  pose proof (after_member_stop fmt depth (List.map (member depth fmt) cs) rest) as Sm. fold more in Sm.
  rewrite !length_app in F. rewrite !zlen_app in L. pose proof (zlen_nonneg (when fmt ["010"%char])).
  rewrite parse_member_blank by apply blanks_when, blanks_nl.
  rewrite read_member by (done || rewrite ?length_app, ?zlen_app; cbn [length] in *; change (zlen [","%char]) with 1 in *; lia).
  destruct (skip_after fmt depth (List.map (member depth fmt) cs) rest) as (p & Sp). fold more in Sp. rewrite Sp. cbn [mbind option_bind].
  rewrite (IH R depth fmt fuel t k (acc ++ [c]) rest p); [by rewrite <- app_assoc | done | done | done | |]; fold more.
  - cbn [length] in F. lia.
  - zlens.
Qed.

(** A word, a number, a string. *)
Lemma reads_scalar t s n d g k cs : t < cJSON_Array -> reads (mk_item t s n d g k cs).
Proof.
  intros T depth fmt fuel t0 rest C St F L. destruct fuel as [|fuel]; [lia |]. cbn [render canonical string] in *. unfold fresh.
  destruct (Z.eqb_spec t cJSON_NULL) as [->|]; cbn [orb] in C; [split_canonical; done |].
  destruct (Z.eqb_spec t cJSON_False) as [->|]; cbn [orb] in C; [split_canonical; done |].
  destruct (Z.eqb_spec t cJSON_True) as [->|]; cbn [orb] in C; [split_canonical; done |].
  destruct (Z.eqb_spec t cJSON_Int) as [->|].
  { split_canonical. match goal with H : _ || _ = true |- _ => rename H into Sg end.
    destruct (number_head (if g =? -1 then i64 n else n)) as (c & q & E & Nc). destruct (number_char c Nc) as (_ & E1 & E2 & E3 & E4 & _).
    rewrite E. cbn [app parse_value].
    rewrite (starts_no "n" (str_bytes "ull") c (q ++ rest) E1 : starts (str_bytes "null") _ = _), (starts_no "f" (str_bytes "alse") c (q ++ rest) E2 : starts (str_bytes "false") _ = _),
      (starts_no "t" (str_bytes "rue") c (q ++ rest) E3 : starts (str_bytes "true") _ = _). cbn [head mbind option_bind]. rewrite E4, Nc, app_comm_cons, <- E.
    apply parse_number_ok; [| done]. apply orb_true_iff in Sg as [Sg|Sg]; split_canonical; [left | right]; split; done || lia. }
  destruct (Z.eqb_spec t cJSON_String) as [->|].
  { split_canonical. destruct s as [s|]; [| done]. split_canonical. cbn [default] in *.
    change (parse_value (S fuel) ?i (quote ?s ++ ?r)) with (parse_string i (quote s ++ r)). rewrite parse_string_ok; [done | |].
    - match goal with H : text_ok s = true |- _ => by apply bool_decide_eq_true in H end.
    - unfold quote in L. rewrite zlen_app, zlen_cons, zlen_app, escs_length in L. pose proof (zlen_nonneg rest). pose proof (zlen_nonneg [dq]). lia. }
  destruct (Z.eqb_spec t cJSON_Array), (Z.eqb_spec t cJSON_Object); unfold cJSON_Object, cJSON_Array in *; [lia.. |]. done.
Qed.

Lemma parse_value_array fuel i p : parse_value (S fuel) i ("["%char :: p) =
  (p ← skip p; c ← head p; if eqc c "]" then Some (Good (set_type cJSON_Array i) (tail p)) else
   p ← skip p; then_skip (parse_value fuel cJSON_New_Item p) (fun i' p => parse_array_rest fuel (set_type cJSON_Array i) [i'] p)).
Proof. done. Qed.

Lemma parse_value_object fuel i p : parse_value (S fuel) i ("{"%char :: p) =
  (p ← skip p; c ← head p; if eqc c "}" then Some (Good (set_type cJSON_Object i) (tail p)) else
   parse_member (parse_value fuel) p (fun i' p => parse_object_rest fuel (set_type cJSON_Object i) [i'] p)).
Proof. done. Qed.

Lemma reads_array t s n d g k cs : Forall reads cs -> t = cJSON_Array -> reads (mk_item t s n d g k cs).
Proof.
  intros R -> depth fmt fuel t0 rest C St F L. destruct fuel as [|fuel]; [lia |].
  change (render depth fmt (mk_item cJSON_Array s n d g k cs)) with ("["%char :: array_text fmt (List.map (render (depth + 1) fmt) cs) ++ ["]"%char]) in *.
  cbn [string app] in *. change (canonical ?i) with (bool_decide (s = None) && (n =? 0) && bool_decide (d = no_zero) && (g =? 0) &&
    forallb (fun c => bool_decide (string c = None) && canonical c) cs) in C. split_canonical.
  destruct cs as [|c cs]; [done |]. cbn [List.map] in *. rewrite array_text_cons, <- app_assoc in *.
  destruct (after_entry_stop fmt (List.map (render (depth + 1) fmt) cs) rest) as (e & q' & Em & Ee & Sm).
  set (more := after_entry fmt (List.map (render (depth + 1) fmt) cs) ++ rest) in *.
  destruct (render_head c (depth + 1) fmt) as (a & q & E & Ea & Na & _). rewrite zlen_cons, zlen_app in L. cbn [length] in F. rewrite length_app in F.
  apply Forall_cons in R as [Rc R]. cbn [forallb] in *. split_canonical. pose proof (zlen_nonneg (render (depth + 1) fmt c)).
  pose proof (Rc (depth + 1) fmt fuel 0 more ltac:(done) Sm ltac:(rewrite length_app; lia) ltac:(rewrite zlen_app; lia)) as P.
  rewrite parse_value_array.
  rewrite E at 1. cbn [app]. rewrite skip_ink by done. cbn [mbind option_bind head]. rewrite Na, skip_ink by done. cbn [mbind option_bind].
  rewrite app_comm_cons, <- E. match goal with H : string c = None |- _ => rewrite H in P end. change (fresh 0 None) with cJSON_New_Item in P. rewrite P.
  unfold then_skip. cbn [mbind option_bind]. rewrite Em, skip_ink, <- Em by done. cbn [mbind option_bind].
  change (set_type cJSON_Array (fresh t0 k)) with (fresh cJSON_Array k). unfold more. rewrite (read_array_rest cs R); fold more; done || lia.
Qed.

Lemma reads_object t s n d g k cs : Forall reads cs -> t = cJSON_Object -> reads (mk_item t s n d g k cs).
Proof.
  intros R -> depth fmt fuel t0 rest C St F L. destruct fuel as [|fuel]; [lia |].
  change (render depth fmt (mk_item cJSON_Object s n d g k cs)) with ("{"%char :: when fmt ["010"%char] ++
    object_text fmt (depth + 1) (List.map (member (depth + 1) fmt) cs) ++ when fmt (tabs depth) ++ ["}"%char]) in *.
  replace (tabs depth) with (tabs (depth + 1 - 1)) in * by (f_equal; lia).
  cbn [string app] in *. change (canonical ?i) with (bool_decide (s = None) && (n =? 0) && bool_decide (d = no_zero) && (g =? 0) &&
    forallb (fun c => match string c with Some k => text_ok k | None => false end && canonical c) cs) in C. split_canonical.
  rewrite parse_value_object.
  rewrite <- (app_assoc (when fmt _)), skip_blank by apply blanks_when, blanks_nl. destruct cs as [|c cs].
  { cbn [List.map object_text app]. rewrite <- app_assoc, skip_blank by apply blanks_when, blanks_tabs. done. }
  cbn [List.map] in *. change (member (depth + 1) fmt c) with (quote (default [] (string c)), render (depth + 1) fmt c) in *. rewrite object_text_cons, <- !app_assoc in *.
  set (more := after_member fmt (depth + 1) (List.map (member (depth + 1) fmt) cs) ++ rest) in *.
  rewrite skip_blank by apply blanks_when, blanks_tabs. rewrite (eq_refl : quote _ ++ _ = dq :: (escs _ ++ [dq]) ++ _), skip_ink by done. cbn [mbind option_bind head].
  change (eqc dq "}") with false. cbn iota. change (dq :: (escs ?s ++ [dq]) ++ ?r) with (quote s ++ r).
  rewrite <- (parse_member_blank _ (when fmt (tabs (depth + 1)))) by apply blanks_when, blanks_tabs.
  pose proof (after_member_stop fmt (depth + 1) (List.map (member (depth + 1) fmt) cs) rest) as Sm. fold more in Sm.
  apply Forall_cons in R as [Rc R]. cbn [forallb] in *. match goal with H : _ && _ = true |- _ => apply andb_true_iff in H as [Cc Cs] end.
  cbn [length] in F. rewrite zlen_cons, zlen_app in L. rewrite length_app in F.
  rewrite read_member by (done || zlens). destruct (skip_after fmt (depth + 1) (List.map (member (depth + 1) fmt) cs) rest) as (p & Sp). fold more in Sp. rewrite Sp.
  cbn [mbind option_bind]. change (set_type cJSON_Object (fresh t0 k)) with (fresh cJSON_Object k). rewrite !zlen_app in L. rewrite !length_app in F. cbn [length] in F.
  rewrite (read_object_rest cs R (depth + 1) fmt fuel cJSON_Object k [c] rest p); fold more; done || zlens.
Qed.

Lemma reads_all i : reads i.
Proof.
  induction i as [t s n d g k cs R] using item_ind.
  destruct (decide (t < cJSON_Array)); [by apply reads_scalar |]. destruct (decide (t = cJSON_Array)); [by apply reads_array |].
  destruct (decide (t = cJSON_Object)); [by apply reads_object |]. intros depth fmt fuel t0 rest C. exfalso. unfold cJSON_Array, cJSON_Object in *.
  cbn [canonical] in C. unfold cJSON_NULL, cJSON_False, cJSON_True, cJSON_Int, cJSON_String, cJSON_Array, cJSON_Object in C.
  repeat match type of C with context [t =? ?x] => destruct (Z.eqb_spec t x); [lia |] end. by cbn [orb] in C.
Qed.
End parse.

(** ** The text has no zero *)

Lemma esc_nul c : NUL ∉ esc c.
Proof. apply (bool_decide_eq_true_1 (NUL ∉ esc c)). by destruct c as [[] [] [] [] [] [] [] []]. Qed.

Lemma quote_nul s : NUL ∉ quote s.
Proof.
  unfold quote. rewrite elem_of_cons, elem_of_app, list_elem_of_singleton. intros [E|[E|E]]; [done | | done].
  apply list_elem_of_In, in_flat_map in E as (c & _ & E%list_elem_of_In). by apply esc_nul in E.
Qed.

Lemma tabs_nul n : NUL ∉ tabs n.
Proof. unfold tabs. by intros [E _]%elem_of_replicate. Qed.

Lemma when_nul b w : NUL ∉ w -> NUL ∉ when b w.
Proof. destruct b; [done |]. intros _. apply not_elem_of_nil. Qed.

Lemma array_text_nul fmt l : Forall (fun e => NUL ∉ e) l -> NUL ∉ array_text fmt l.
Proof.
  induction 1 as [|e l E F IH]; [apply not_elem_of_nil |]. cbn [array_text]. rewrite !not_elem_of_app. split_and!; [done | | done].
  destruct (bool_decide _); [apply not_elem_of_nil |]. destruct fmt; by apply (bool_decide_eq_true_1 (NUL ∉ _)).
Qed.

Lemma object_text_nul fmt depth l : Forall (fun m => (NUL ∉ m.1) /\ (NUL ∉ m.2)) l -> NUL ∉ object_text fmt depth l.
Proof.
  induction 1 as [|[n e] l [E1 E2] F IH]; [apply not_elem_of_nil |]. cbn [object_text fst snd] in *.
  rewrite !not_elem_of_app, not_elem_of_cons, !not_elem_of_app.
  split_and!; try done; apply when_nul; try apply tabs_nul; by apply (bool_decide_eq_true_1 (NUL ∉ _)).
Qed.

Lemma render_nul i : forall depth fmt, NUL ∉ render depth fmt i.
Proof.
  induction i as [t s n d g k cs R] using item_ind; intros depth fmt. cbn [render].
  do 3 (destruct (_ =? _); [by apply (bool_decide_eq_true_1 (NUL ∉ _)) |]).
  destruct (_ =? _); [by apply dec_notin |]. destruct (_ =? _); [apply quote_nul |].
  destruct (_ =? _); rewrite not_elem_of_cons, !not_elem_of_app; split_and!;
    try (apply when_nul; try apply tabs_nul); try (by apply (bool_decide_eq_true_1 (NUL ∉ _))); try done.
  - apply array_text_nul. apply Forall_map. apply (Forall_impl _ _ _ R). auto.
  - apply object_text_nul. apply Forall_map. apply (Forall_impl _ _ _ R). intros c Hc. split; [apply quote_nul | apply Hc].
Qed.

(** ** The printer writes the text *)

Lemma array_len_cons fmt e l : array_len fmt (e :: l) = zlen e + 2 + (if fmt then 1 else 0) + array_len fmt l.
Proof. done. Qed.

Lemma array_len_ge fmt l : 5 <= array_len fmt l.
Proof. induction l as [|e l IH]; [done |]. rewrite array_len_cons. destruct fmt; zlens. Qed.

Lemma compose_array_ok cap fmt l out : zlen out + array_len fmt l <= cap + 4 -> compose_array cap fmt out l = Some (out ++ array_text fmt l).
Proof.
  revert out. induction l as [|e l IH]; intros out L; cbn [compose_array array_text]; [by rewrite app_nil_r |].
  rewrite array_len_cons in L. pose proof (zlen_nonneg e).
  pose proof (array_len_ge fmt l) as G.
  rewrite (emit_ok _ _ (e ++ [NUL])) by (rewrite zlen_app; change (zlen [NUL]) with 1; destruct fmt; lia).
  cbn [mbind option_bind]. rewrite emit_ok by (destruct fmt; lia). cbn [mbind option_bind].
  destruct (bool_decide (l = [])) eqn:El.
  - cbn [mbind option_bind app]. rewrite IH; [by rewrite <- app_assoc |]. rewrite zlen_app. destruct fmt; lia.
  - rewrite (emit_ok _ _ (_ ++ [NUL])) by (rewrite !zlen_app; change (zlen [NUL]) with 1; destruct fmt; rewrite ?zlen_cons, ?zlen_nil; lia).
    cbn [mbind option_bind]. rewrite emit_ok by (rewrite !zlen_app; destruct fmt; rewrite ?zlen_cons, ?zlen_nil; lia). cbn [mbind option_bind].
    rewrite IH; [by rewrite <- !app_assoc |]. rewrite !zlen_app. destruct fmt; rewrite ?zlen_cons, ?zlen_nil; lia.
Qed.

Lemma join_array_ok fmt l : array_len fmt l <= INT_MAX -> join_array fmt l = Some ("["%char :: array_text fmt l ++ ["]"%char]).
Proof.
  intros L. unfold join_array. destruct (Z.ltb_spec INT_MAX (array_len fmt l)); [lia |]. pose proof (array_len_ge fmt l).
  rewrite emit_ok by (rewrite zlen_cons, !zlen_nil; lia). cbn [mbind option_bind app].
  rewrite emit_ok by (rewrite !zlen_cons, !zlen_nil; lia). cbn [mbind option_bind].
  rewrite compose_array_ok by (rewrite !zlen_cons, !zlen_nil; lia). cbn [mbind option_bind app].
  assert (zlen (array_text fmt l) + 5 <= array_len fmt l) as A.
  { clear. induction l as [|e l IH]; [done |]. rewrite array_len_cons. cbn [array_text]. rewrite !zlen_app.
    destruct (bool_decide _), fmt; rewrite ?zlen_cons, ?zlen_nil; lia. }
  rewrite emit_ok by (rewrite !zlen_cons, !zlen_nil; lia). cbn [mbind option_bind].
  rewrite emit_ok by (rewrite zlen_app, !zlen_cons, !zlen_nil; lia). done.
Qed.

Definition ifmt (fmt : bool) (n : Z) : Z := if fmt then n else 0.

Lemma zlen_when fmt w : zlen (when fmt w) = ifmt fmt (zlen w).
Proof. by destruct fmt. Qed.
Lemma zlen_tabs n : 0 <= n -> zlen (tabs n) = n.
Proof. intros N. unfold zlen, tabs. rewrite length_replicate. lia. Qed.

Lemma object_len_cons fmt depth n e l :
  object_len fmt depth ((n, e) :: l) = zlen e + zlen n + 2 + ifmt fmt (2 + depth) + object_len fmt depth l.
Proof. by destruct fmt. Qed.
Lemma object_len_nil fmt depth : object_len fmt depth [] = 7 + ifmt fmt depth.
Proof. by destruct fmt. Qed.

Lemma object_len_ge fmt depth l : 0 <= depth -> object_len fmt depth l >= 7 + ifmt fmt depth /\ zlen (object_text fmt depth l) + 7 + ifmt fmt depth <= object_len fmt depth l.
Proof.
  intros D. induction l as [|[n e] l IH].
  - rewrite object_len_nil. cbn [object_text]. rewrite zlen_nil. lia.
  - rewrite object_len_cons. cbn [object_text]. rewrite !zlen_app, zlen_cons, !zlen_app, !zlen_when, zlen_tabs, !zlen_cons, !zlen_nil by lia.
    destruct (negb _), fmt; unfold ifmt in *; zlens.
Qed.

Lemma compose_object_ok cap depth fmt l out : 0 <= depth -> zlen out + object_len fmt depth l <= cap + 6 + ifmt fmt depth ->
  compose_object cap depth fmt out l = Some (out ++ object_text fmt depth l).
Proof.
  intros D. revert out. induction l as [|[n e] l IH]; intros out L; cbn [compose_object object_text]; [by rewrite app_nil_r |].
  rewrite object_len_cons in L. destruct (object_len_ge fmt depth l D) as [G _]. pose proof (zlen_nonneg n). pose proof (zlen_nonneg e). pose proof (zlen_nonneg out).
  change (if fmt then tabs depth else []) with (when fmt (tabs depth)). change (if fmt then ["009"%char] else []) with (when fmt ["009"%char]).
  change (if fmt then ["010"%char] else []) with (when fmt ["010"%char]).
  replace (if bool_decide (l = []) then [] else [","%char]) with (when (negb (bool_decide (l = []))) [","%char]) by (by destruct (bool_decide _)).
  assert (ifmt fmt (2 + depth) = ifmt fmt 1 + ifmt fmt 1 + ifmt fmt depth) as E1 by (unfold ifmt; destruct fmt; lia).
  assert (0 <= ifmt fmt 1 /\ 0 <= ifmt fmt depth) as [I1 I2] by (unfold ifmt; destruct fmt; lia).
  assert (ifmt (negb (bool_decide (l = []))) 1 <= 1) as I3 by (unfold ifmt; destruct (negb _); lia).
  repeat (rewrite emit_ok by (rewrite ?zlen_app, ?zlen_when, ?zlen_tabs, ?zlen_cons, ?zlen_nil, ?Z.add_0_r by lia; lia); cbn [mbind option_bind]).
  rewrite IH; [by rewrite <- !app_assoc; cbn [app]; rewrite <- ?app_assoc |].
  rewrite ?zlen_app, ?zlen_when, ?zlen_tabs, ?zlen_cons, ?zlen_nil, ?Z.add_0_r by lia. lia.
Qed.

Ltac zl := rewrite ?zlen_app; repeat (rewrite zlen_cons || rewrite zlen_when || (progress change (zlen (@nil ascii)) with 0) || rewrite zlen_tabs by lia || rewrite zlen_app); rewrite ?Z.add_0_r; lia.

Lemma join_object_ok fmt depth l : 1 <= depth -> object_len fmt depth l <= INT_MAX ->
  join_object fmt depth l =
    Some ("{"%char :: when fmt ["010"%char] ++ object_text fmt depth l ++ when fmt (tabs (depth - 1)) ++ ["}"%char]).
Proof.
  intros D L. unfold join_object. destruct (Z.ltb_spec INT_MAX (object_len fmt depth l)); [lia |].
  destruct (object_len_ge fmt depth l ltac:(lia)) as [G1 G2]. pose proof (zlen_nonneg (object_text fmt depth l)).
  change (if fmt then ["010"%char] else []) with (when fmt ["010"%char]). change (if fmt then tabs (depth - 1) else []) with (when fmt (tabs (depth - 1))).
  assert (0 <= ifmt fmt 1 <= 1 /\ 0 <= ifmt fmt (depth - 1) <= ifmt fmt depth) as I by (unfold ifmt; destruct fmt; lia).
  rewrite emit_ok by zl. cbn [mbind option_bind app].
  rewrite emit_ok by zl. cbn [mbind option_bind].
  rewrite compose_object_ok by zl. cbn [mbind option_bind].
  rewrite emit_ok by zl. cbn [mbind option_bind].
  rewrite emit_ok by zl. cbn [mbind option_bind].
  by cbn [app]; rewrite <- !app_assoc.
Qed.

(** The lengths of the buffers, in terms of the text. *)
Lemma array_len_text fmt l : Forall (fun e => 1 <= zlen e) l -> array_len fmt l <= 4 * zlen (array_text fmt l) + 5.
Proof.
  induction 1 as [|e l E F IH]; [done |]. rewrite array_len_cons. cbn [array_text]. rewrite !zlen_app.
  destruct (bool_decide _), fmt; zl.
Qed.

Lemma object_len_text fmt depth l : 0 <= depth -> Forall (fun m : bytes * bytes => 1 <= zlen m.1) l ->
  object_len fmt depth l <= 4 * zlen (object_text fmt depth l) + 7 + ifmt fmt depth.
Proof.
  intros D. induction 1 as [|[n e] l E F IH]; [by rewrite object_len_nil |]. rewrite object_len_cons. cbn [object_text fst snd] in *.
  rewrite !zlen_app, zlen_cons, !zlen_app, !zlen_when, zlen_tabs, !zlen_cons, !zlen_nil by lia.
  destruct (negb _), fmt; unfold ifmt in *; zlens.
Qed.

(** The texts of the entries are parts of the text. *)
Lemma array_text_part fmt e l : e ∈ l -> zlen e <= zlen (array_text fmt l).
Proof.
  induction 1 as [e l|e e' l _ IH]; cbn [array_text]; rewrite !zlen_app; zlens.
Qed.

Lemma object_text_part fmt depth m l : m ∈ l -> zlen m.1 + zlen m.2 <= zlen (object_text fmt depth l).
Proof.
  induction 1 as [[n e] l|m [n e] l _ IH]; cbn [object_text fst snd] in *; rewrite !zlen_app, zlen_cons, !zlen_app; zlens.
Qed.

Lemma array_entries_ok {print : cJSON -> option (option bytes)} f cs :
  (forall c, c ∈ cs -> print c = Some (Some (f c))) -> array_entries print cs = Some (Some (List.map f cs)).
Proof.
  induction cs as [|c cs IH]; intros P; [done |]. cbn [array_entries]. rewrite P by left. cbn [mbind option_bind].
  fold (array_entries print). rewrite IH; [done |]. intros c' I. apply P. by right.
Qed.

Lemma object_entries_ok {print : cJSON -> option (option bytes)} g f cs :
  (forall c, c ∈ cs -> print_string_ptr (string c) = Some (g c) /\ print c = Some (Some (f c))) ->
  object_entries print cs = Some (Some (List.map (fun c => (g c, f c)) cs)).
Proof.
  induction cs as [|c cs IH]; intros P; [done |]. cbn [object_entries]. destruct (P c) as [-> ->]; [left |]. cbn [mbind option_bind].
  fold (object_entries print). rewrite IH; [done |]. intros c' I. apply P. by right.
Qed.

Lemma pretty_N_go_length k x s : (x < 10 ^ N.of_nat k)%N -> (length (str_bytes (pretty_N_go x s)) <= k + length (str_bytes s))%nat.
Proof.
  revert x s. induction k as [|k IH]; intros x s L.
  - replace x with 0%N by (cbn in L; lia). rewrite pretty_N_go_0. lia.
  - destruct (decide (x = 0%N)) as [->|]; [rewrite pretty_N_go_0; lia |]. rewrite pretty_N_go_step by lia.
    rewrite Nat2N.inj_succ, N.pow_succ_r in L by lia. etransitivity; [apply IH, N.Div0.div_lt_upper_bound; lia |]. cbn. lia.
Qed.

Lemma dec_pos_length k n : (0 < k)%nat -> 0 <= n < 10 ^ Z.of_nat k -> zlen (dec n) <= Z.of_nat k.
Proof.
  intros K R. destruct n as [|p|p]; [change (zlen (dec 0)) with 1; lia | | lia].
  pose proof (pretty_N_go_length k (Npos p) "") as G. change (str_bytes (pretty_N_go _ _)) with (dec (Z.pos p)) in G.
  change (length (str_bytes "")) with 0%nat in G. unfold zlen. specialize (G ltac:(apply N2Z.inj_lt; rewrite N2Z.inj_pow, nat_N_Z; apply R)). lia.
Qed.

Lemma dec_length n : - 10 ^ 20 < n < 10 ^ 20 -> zlen (dec n) <= 21.
Proof.
  intros R. destruct n as [|p|p]; [done | pose proof (dec_pos_length 20 (Z.pos p)); lia |].
  change (dec (Zneg p)) with (str_bytes ("-" +:+ pretty (Zpos p))). rewrite str_bytes_app, zlen_app. fold (dec (Zpos p)).
  pose proof (dec_pos_length 20 (Z.pos p)). change (zlen (str_bytes "-")) with 1. lia.
Qed.

Lemma sprintf_dec x : - 10 ^ 20 < x < 10 ^ 20 -> sprintf 22 (dec x) = Some (dec x).
Proof.
  intros Rx. unfold sprintf. rewrite emit_ok; [done |]. rewrite zlen_nil, zlen_app. pose proof (dec_length x Rx). change (zlen [NUL]) with 1. lia.
Qed.

Lemma print_int_ok t s n d g k cs : 0 <= n < 2 ^ 64 ->
  print_int (mk_item t s n d g k cs) = Some (dec (if g =? -1 then i64 n else n)).
Proof.
  intros R. unfold print_int. cbn [sign valueint]. destruct (g =? -1); [| apply sprintf_dec; lia].
  destruct (_ && _) eqn:E; [| apply sprintf_dec; unfold i64; destruct (Z.ltb_spec n (2 ^ 63)); lia].
  exfalso. apply andb_true_iff in E as [E1%Z.leb_le E2%Z.leb_le]. change (u64 (- 2 ^ 31)) with (2 ^ 64 - 2 ^ 31) in E2. unfold INT_MAX in E1. lia.
Qed.

Lemma render_nonempty i depth fmt : 1 <= zlen (render depth fmt i).
Proof. destruct (render_head i depth fmt) as (c & q & -> & _). rewrite zlen_cons. zlens. Qed.

Lemma quote_length s : zlen (quote s) = string_len s + 2.
Proof. unfold quote. rewrite zlen_cons, zlen_app, escs_length. change (zlen [dq]) with 1. lia. Qed.

Definition prints (i : cJSON) : Prop := forall depth fmt, canonical i = true -> 0 <= depth -> 4 * zlen (render depth fmt i) + 10 <= INT_MAX ->
  print_value depth fmt i = Some (Some (render depth fmt i)).

Lemma prints_array s n d g k cs : Forall prints cs -> prints (mk_item cJSON_Array s n d g k cs).
Proof.
  intros R depth fmt C D L.
  change (render depth fmt (mk_item cJSON_Array s n d g k cs)) with ("["%char :: array_text fmt (List.map (render (depth + 1) fmt) cs) ++ ["]"%char]) in *.
  change (canonical ?i) with (bool_decide (s = None) && (n =? 0) && bool_decide (d = no_zero) && (g =? 0) &&
    forallb (fun c => bool_decide (string c = None) && canonical c) cs) in C. apply andb_true_iff in C as [_ C]. rewrite forallb_forall in C.
  change (print_value depth fmt (mk_item cJSON_Array s n d g k cs)) with (entries ← array_entries (print_value (depth + 1) fmt) cs;
    match entries with Some l => Some <$> join_array fmt l | None => Some None end).
  rewrite zlen_cons, zlen_app in L. change (zlen ["]"%char]) with 1 in L.
  rewrite (array_entries_ok (render (depth + 1) fmt)).
  - cbn [mbind option_bind]. rewrite join_array_ok; [done |]. etransitivity; [apply array_len_text |]; [| lia].
    apply Forall_map, Forall_true. intros c. apply render_nonempty.
  - intros c I. rewrite Forall_forall in R. specialize (C c ltac:(by apply list_elem_of_In)). apply andb_true_iff in C as [_ C].
    apply R; [done | done | lia |]. pose proof (array_text_part fmt (render (depth + 1) fmt c) (List.map (render (depth + 1) fmt) cs)) as P.
    rewrite list_elem_of_In, in_map_iff in P. specialize (P ltac:(exists c; split; [done | by apply list_elem_of_In])). lia.
Qed.

Lemma prints_object s n d g k cs : Forall prints cs -> prints (mk_item cJSON_Object s n d g k cs).
Proof.
  intros R depth fmt C D L.
  change (render depth fmt (mk_item cJSON_Object s n d g k cs)) with ("{"%char :: when fmt ["010"%char] ++
    object_text fmt (depth + 1) (List.map (member (depth + 1) fmt) cs) ++ when fmt (tabs depth) ++ ["}"%char]) in *.
  change (canonical ?i) with (bool_decide (s = None) && (n =? 0) && bool_decide (d = no_zero) && (g =? 0) &&
    forallb (fun c => match string c with Some k => text_ok k | None => false end && canonical c) cs) in C.
  apply andb_true_iff in C as [_ C]. rewrite forallb_forall in C.
  change (print_value depth fmt (mk_item cJSON_Object s n d g k cs)) with (entries ← object_entries (print_value (depth + 1) fmt) cs;
    match entries with Some l => Some <$> join_object fmt (depth + 1) l | None => Some None end).
  rewrite zlen_cons, !zlen_app, !zlen_when, zlen_tabs in L by lia. change (zlen ["}"%char]) with 1 in L. change (zlen ["010"%char]) with 1 in L.
  assert (ifmt fmt (depth + 1) = ifmt fmt depth + ifmt fmt 1 /\ 0 <= ifmt fmt depth /\ 0 <= ifmt fmt 1) as I by (unfold ifmt; destruct fmt; lia).
  rewrite (object_entries_ok (fun c => quote (default [] (string c))) (render (depth + 1) fmt)).
  - cbn [mbind option_bind]. fold (member (depth + 1) fmt). change (List.map _ cs) with (List.map (member (depth + 1) fmt) cs). rewrite join_object_ok; [| lia |].
    + by replace (depth + 1 - 1) with depth by lia.
    + etransitivity; [apply object_len_text; [lia |] |]; [| lia]. apply Forall_map, Forall_true. intros c. cbn [member fst compose].
      rewrite quote_length, <- escs_length. zlens.
  - intros c Ic. rewrite Forall_forall in R. specialize (C c ltac:(by apply list_elem_of_In)). apply andb_true_iff in C as [Cn C].
    pose proof (object_text_part fmt (depth + 1) (member (depth + 1) fmt c) (List.map (member (depth + 1) fmt) cs)) as P.
    rewrite list_elem_of_In, in_map_iff in P. specialize (P ltac:(exists c; split; [done | by apply list_elem_of_In])). cbn [member fst snd] in P.
    pose proof (zlen_nonneg (quote (default [] (string c)))). pose proof (render_nonempty c (depth + 1) fmt). split.
    + rewrite quote_length in P. destruct (string c) as [m|]; [| done]. change (default [] (Some m)) with m in *. apply print_string_ok. zlens.
    + apply R; [done | done | lia | lia].
Qed.

Lemma prints_all i : prints i.
Proof.
  induction i as [t s n d g k cs R] using item_ind.
  destruct (decide (t = cJSON_Array)) as [->|]; [by apply prints_array |]. destruct (decide (t = cJSON_Object)) as [->|]; [by apply prints_object |].
  intros depth fmt C D L. cbn [canonical] in C. cbn [render] in *.
  destruct (Z.eqb_spec t cJSON_NULL) as [->|]; [done |]. destruct (Z.eqb_spec t cJSON_False) as [->|]; [done |].
  destruct (Z.eqb_spec t cJSON_True) as [->|]; [done |]. destruct (Z.eqb_spec t cJSON_Int) as [->|].
  - change (print_value depth fmt ?i) with (Some <$> print_int i). cbn [orb] in C. split_canonical. rewrite print_int_ok; [done |].
    match goal with H : _ || _ = true |- _ => apply orb_true_iff in H as [H|H] end; split_canonical; lia.
  - destruct (Z.eqb_spec t cJSON_String) as [->|].
    + change (print_value depth fmt ?i) with (Some <$> print_string_ptr s). cbn [orb] in C. destruct s as [s|]; [| by split_canonical]. change (default [] (Some s)) with s in *.
      rewrite quote_length in L. rewrite print_string_ok by (unfold INT_MAX in *; lia). done.
    + exfalso. destruct (Z.eqb_spec t cJSON_Array), (Z.eqb_spec t cJSON_Object); done.
Qed.

(** ** Numbers and their buffers *)

(** The finite numbers below [2 ^ 180] in size. *)
Definition modest (d : double) : Prop := match value d with Some (m, e) => m = 0 \/ Z.log2 (Z.abs m) + e < 180 | None => True end.

Lemma print_f_quotient k m e : 0 <= k -> Z.log2 (Z.abs m) + e < 180 -> m <> 0 ->
  let n := Z.abs m * 10 ^ k in
  let q := if 0 <=? e then n * 2 ^ e else div_even n (2 ^ (- e)) in
  0 <= q / 10 ^ k < 10 ^ 55.
Proof.
  intros K L N n q. assert (0 < 10 ^ k) as P by (apply Z.pow_pos_nonneg; lia).
  assert (0 <= q <= (2 ^ 180 + 1) * 10 ^ k) as [Q0 Q].
  { pose proof (Z.log2_spec (Z.abs m) ltac:(lia)) as [_ Lm]. subst q n. destruct (Z.leb_spec 0 e) as [E|E].
    - assert (Z.abs m * 2 ^ e <= 2 ^ 180); [| nia]. transitivity (2 ^ Z.succ (Z.log2 (Z.abs m)) * 2 ^ e); [apply Z.mul_le_mono_nonneg_r; lia |].
      pose proof (Z.log2_nonneg (Z.abs m)). rewrite <- Z.pow_add_r by lia. apply Z.pow_le_mono_r; lia.
    - assert (0 < 2 ^ (- e)) as De by (apply Z.pow_pos_nonneg; lia).
      assert (Z.abs m <= 2 ^ 180 * 2 ^ (- e)) as B.
      { rewrite <- Z.pow_add_r by lia. transitivity (2 ^ Z.succ (Z.log2 (Z.abs m))); [lia |]. apply Z.pow_le_mono_r; lia. }
      assert (0 <= Z.abs m * 10 ^ k / 2 ^ (- e) <= 2 ^ 180 * 10 ^ k) as D.
      { split; [apply Z.div_pos; lia |]. apply Z.div_le_upper_bound; [done |]. nia. }
      unfold div_even. destruct (_ || _); lia. }
  split; [by apply Z.div_pos |]. apply (Z.le_lt_trans _ (2 ^ 180 + 1)); [| done]. apply Z.div_le_upper_bound; lia.
Qed.

Lemma print_f_length k d : modest d -> zlen (print_f k d) <= 56 + (if bool_decide (k = 0%nat) then 0 else 1 + Z.of_nat k).
Proof.
  intros S. unfold print_f. rewrite zlen_app. assert (zlen (if sign_bit d then ["-"%char] else []) <= 1) as Sg by (by destruct (sign_bit d)).
  assert (0 <= (if bool_decide (k = 0%nat) then 0 else 1 + Z.of_nat k)) as B by (destruct (bool_decide _); lia).
  assert (forall q, 0 <= q / 10 ^ Z.of_nat k < 10 ^ 55 -> zlen (digits_of (q / 10 ^ Z.of_nat k) ++
    (if bool_decide (k = 0%nat) then [] else "."%char :: pad0 k (digits_of (q mod 10 ^ Z.of_nat k)))) <=
    55 + (if bool_decide (k = 0%nat) then 0 else 1 + Z.of_nat k)) as G.
  { intros q R. change digits_of with dec. rewrite zlen_app. pose proof (dec_pos_length 55 _ ltac:(lia) R) as D1. destruct (bool_decide (k = 0%nat)) eqn:E0; [change (zlen (@nil ascii)) with 0; lia |].
    apply bool_decide_eq_false in E0. pose proof (dec_pos_length k (q mod 10 ^ Z.of_nat k) ltac:(lia) ltac:(apply Z.mod_pos_bound, Z.pow_pos_nonneg; lia)) as D2.
    unfold pad0. unfold zlen in *. cbn [length]. rewrite length_app, length_replicate. lia. }
  destruct d as [s|s| |s m e]; try (change (zlen (str_bytes _)) with 3; lia).
  - etransitivity; [apply Z.add_le_mono; [apply Sg | apply G] |]; [| lia]. change (Z.abs 0 * _) with 0. cbn. rewrite Z.div_0_l; [lia |]. apply Z.pow_nonzero; lia.
  - etransitivity; [apply Z.add_le_mono; [apply Sg | apply G] |]; [| lia]. apply print_f_quotient; [lia | | by destruct s].
    unfold modest, value in S. destruct s; cbn in S |- *; lia.
Qed.

Definition double_item (d : double) : cJSON := mk_item cJSON_Double None 0 d 1 None [].

(** The buffers of the number printers.  The 22 bytes of [print_int] hold
    every 64-bit number, of either sign; the 64 bytes of [print_double] hold
    every double below [2 ^ 180], but not [1e100], which the parser accepts. *)
Theorem cjson_number_buffers :
  (forall i, 0 <= valueint i < 2 ^ 64 -> exists t, print_int i = Some t) /\
  (forall i, modest (valuedouble i) -> exists t, print_double i = Some t) /\
  print_value 0 false (double_item (to_double (10 ^ 100) 0)) = None.
Proof.
  split_and!; [| | by vm_compute].
  - intros [t s n d g k cs] R. cbn [valueint] in R. rewrite print_int_ok by done. eauto.
  - intros i S. unfold print_double, sprintf.
    pose proof (print_f_length 0 _ S) as L0. pose proof (print_f_length 6 _ S) as L6. cbn [bool_decide decide] in L0, L6.
    destruct (SFleb _ _); rewrite emit_ok; try (by eexists); rewrite zlen_nil, zlen_app; change (zlen [NUL]) with 1;
      [change (bool_decide (0%nat = 0%nat)) with true in L0 | change (bool_decide (6%nat = 0%nat)) with false in L6]; cbn iota in *; lia.
Qed.

(** A string the parser measures as three characters. *)
Definition short_measure (n : nat) : bytes := str_bytes "\u41" ++ dq :: replicate (S n) "a"%char ++ [dq].

Lemma copy_plain cap n fuel v out : (n < fuel)%nat -> zlen out + Z.of_nat n <= cap ->
  copy_string fuel cap v out (replicate n "a"%char ++ [dq; NUL]) = Some (Some (out ++ replicate n "a"%char, [dq; NUL])).
Proof.
  revert fuel out. induction n as [|n IH]; intros [|fuel] out F L; try lia; [cbn; by rewrite app_nil_r |].
  cbn [replicate app copy_string head mbind option_bind tail]. change (eqc "a" dq || eqc "a" NUL) with false. change (negb (eqc "a" bs)) with true. cbn iota.
  rewrite emit_ok by (rewrite zlen_cons, zlen_nil; lia). cbn [mbind option_bind].
  rewrite IH by (lia || rewrite zlen_app, zlen_cons, zlen_nil; lia). by rewrite <- app_assoc.
Qed.

Lemma copy_plain_full cap n fuel v out : (n < fuel)%nat -> cap < zlen out + Z.of_nat n -> zlen out <= cap ->
  copy_string fuel cap v out (replicate n "a"%char ++ [dq; NUL]) = None.
Proof.
  revert fuel out. induction n as [|n IH]; intros [|fuel] out F L C; try lia.
  cbn [replicate app copy_string head mbind option_bind tail]. change (eqc "a" dq || eqc "a" NUL) with false. change (negb (eqc "a" bs)) with true. cbn iota.
  unfold emit. change (zlen ["a"%char]) with 1. destruct (Z.leb_spec (zlen out + 1) cap); [| done]. cbn [mbind option_bind].
  apply IH; rewrite ?zlen_app; change (zlen ["a"%char]) with 1; lia.
Qed.
(** ** The trees of the parser *)

(** No floating-point number, and every number with a minus sign is below zero
    and not below [- 2 ^ 63]. *)
Fixpoint regular (i : cJSON) : bool :=
  let '(mk_item t _ n _ g _ cs) := i in
  negb (t =? cJSON_Double) && (negb (t =? cJSON_Int) || negb (g =? -1) || (2 ^ 63 <=? n)) && forallb regular cs.

(** Nothing behind a zero. *)
Definition ends (p : ptr) : Prop := forall q r, p = q ++ NUL :: r -> r = [].

Lemma ends_suffix p q : q `suffix_of` p -> ends p -> ends q.
Proof. intros [k ->] E a r ->. apply (E (k ++ a)). by rewrite app_assoc. Qed.

Lemma suffix_tail {A} (p : list A) : tail p `suffix_of` p.
Proof. destruct p; [done |]. by apply suffix_cons_r. Qed.
Lemma suffix_drop {A} n (p : list A) : drop n p `suffix_of` p.
Proof. exists (take n p). by rewrite take_drop. Qed.

Lemma skip_suffix p q : skip p = Some q -> q `suffix_of` p.
Proof. induction p as [|c p IH]; cbn; [done |]. destruct (_ && _); [intros E; apply suffix_cons_r; auto | by intros [= <-]]. Qed.

Lemma read_digits_suffix n k p n' k' q : read_digits n k p = Some (n', k', q) -> q `suffix_of` p.
Proof. revert n k. induction p as [|c p IH]; intros n k; cbn; [done |]. destruct (is_09 c); [intros E; apply suffix_cons_r; eauto | by intros [= _ _ <-]]. Qed.

Lemma read_exp_suffix n p n' q : read_exp n p = Some (n', q) -> q `suffix_of` p.
Proof.
  revert n. induction p as [|c p IH]; intros n; cbn; [done |]. destruct (is_09 c); [| by intros [= _ <-]].
  destruct (_ <? _); [done |]. intros E. apply suffix_cons_r. eauto.
Qed.

Section trees.
Context `{Libm}.

Lemma int_part_suffix p n q : int_part p = Some (n, q) -> q `suffix_of` p.
Proof.
  unfold int_part. destruct (head p) as [c|]; [| done]. cbn [mbind option_bind]. set (p1 := if eqc c "0" then tail p else p).
  assert (p1 `suffix_of` p) as S by (subst p1; destruct (eqc c "0"); [apply suffix_tail | done]). destruct (head p1) as [d|]; [| done]. cbn [mbind option_bind].
  destruct (_ && _); [| by intros [= _ <-]]. destruct (read_digits _ _ p1) as [[[n1 k1] p2]|] eqn:E; [| done]. intros [= _ <-]. apply read_digits_suffix in E. by etrans.
Qed.

Lemma frac_part_suffix n p n' k q : frac_part n p = Some (n', k, q) -> q `suffix_of` p.
Proof.
  unfold frac_part. destruct (head p) as [c|]; [| done]. cbn [mbind option_bind]. destruct (eqc c "."); [| by intros [= _ _ <-]].
  destruct (head (tail p)) as [d|]; [| done]. cbn [mbind option_bind]. destruct (is_09 d); [| by intros [= _ _ <-]].
  destruct (read_digits _ _ _) as [[[n1 k1] p2]|] eqn:E; [| done]. intros [= _ _ <-]. apply read_digits_suffix in E. etrans; [exact E | apply suffix_tail].
Qed.

Lemma number_exp_suffix p e q : number_exp p = Some (e, q) -> q `suffix_of` p.
Proof.
  unfold number_exp. destruct (head p) as [c|]; [| done]. cbn [mbind option_bind]. destruct (_ || _); [| by intros [= _ <-]].
  destruct (head (tail p)) as [d|]; [| done]. cbn [mbind option_bind]. set (p1 := if eqc d "+" || eqc d "-" then tail (tail p) else tail p).
  assert (p1 `suffix_of` p) as S by (subst p1; destruct (_ || _); [etrans; apply suffix_tail | apply suffix_tail]).
  destruct (read_exp 0 p1) as [[x p2]|] eqn:E; [| done]. intros [= _ <-]. apply read_exp_suffix in E. by etrans.
Qed.

(** What a successful result satisfies; the rest is a part of the text. *)
Definition post (p : ptr) (P : cJSON -> Prop) (r : option result) : Prop :=
  match r with Some (Good i q) => q `suffix_of` p /\ P i | _ => True end.

Lemma post_weaken p q P r : q `suffix_of` p -> post q P r -> post p P r.
Proof. intros S. destruct r as [[i r| |]|]; [| done..]. intros [T I]. split; [by etrans | done]. Qed.

Lemma post_then_skip p P Q r k : post p P r -> (forall i q, q `suffix_of` p -> P i -> post p Q (k i q)) -> post p Q (then_skip r k).
Proof.
  intros R K. unfold then_skip. destruct r as [[i q| |]|]; cbn [mbind option_bind]; try done. destruct (skip q) as [q'|] eqn:E; [| done]. cbn [mbind option_bind].
  destruct R as [S I]. apply K; [| done]. apply skip_suffix in E. by etrans.
Qed.

Definition made (k : option bytes) (i : cJSON) : Prop := string i = k /\ (regular i = true -> canonical i = true).

Lemma parse_number_made t k p : post p (made k) (parse_number (fresh t k) p).
Proof.
  unfold parse_number. destruct (head p) as [c|]; [| done]. cbn [mbind option_bind]. set (p1 := if eqc c "-" then tail p else p).
  assert (p1 `suffix_of` p) as S by (subst p1; destruct (eqc c "-"); [apply suffix_tail | done]).
  destruct (int_part p1) as [[n p2]|] eqn:E1; [| done]. cbn [mbind option_bind]. apply int_part_suffix in E1.
  destruct (frac_part n p2) as [[[n' sc] p3]|] eqn:E2; [| done]. cbn [mbind option_bind]. apply frac_part_suffix in E2.
  destruct (number_exp p3) as [[e p4]|] eqn:E3; [| done]. cbn [mbind option_bind]. apply number_exp_suffix in E3.
  assert (p4 `suffix_of` p) as S4 by (repeat (etrans; [eassumption |]); done).
  destruct (_ && _); (split; [done |]); (split; [done |]); cbn [fresh set_number regular]; [| by rewrite ?andb_false_l].
  set (v := u64 _). assert (0 <= v < 2 ^ 64) as V by (apply Z.mod_pos_bound; lia). change (cJSON_Int =? cJSON_Double) with false. rewrite Z.eqb_refl. cbn [negb orb andb forallb].
  intros R. rewrite andb_true_r in R. cbn [canonical]. change ((cJSON_Int =? cJSON_NULL) || (cJSON_Int =? cJSON_False)) with false. change (cJSON_Int =? cJSON_True) with false.
  rewrite Z.eqb_refl. rewrite !bool_decide_true by done. destruct (Z.ltb_spec v (2 ^ 64)); [| lia]. cbn [andb]. rewrite andb_true_r.
  destruct (eqc c "-"); [by change (false || (2 ^ 63 <=? v) = true) in R |]. by destruct (Z.leb_spec 0 v); [| lia].
Qed.

(** *** Strings have no zero *)

Lemma char_bit7 z : Z.testbit z 7 = true -> char_of z <> NUL.
Proof.
  intros T E. assert (u8 z = 0) as U by (rewrite <- uchar_char_of, E; done). assert (Z.testbit (u8 z) 7 = true) as T' by (unfold u8; by rewrite Z.mod_pow2_bits_low by lia).
  by rewrite U in T'.
Qed.

Lemma utf8_back_nul len k uc : (2 <= len <= 4)%nat -> NUL ∉ utf8_back k len uc.
Proof.
  intros L. assert (Z.testbit (firstByteMark len) 7 = true) as M by (destruct len as [|[|[|[|[|]]]]]; [lia.. | done | done | done | lia]).
  assert (forall x, NUL ∉ [char_of (Z.lor x (firstByteMark len))]) as Ld.
  { intros x [=]%list_elem_of_singleton. eapply char_bit7; [| symmetry; eassumption]. by rewrite Z.lor_spec, M, orb_true_r. }
  revert uc. induction k as [|[|k] IH]; intros uc; [apply Ld.. |]. change (utf8_back (S (S k)) len uc) with (utf8_back (S k) len (Z.shiftr uc 6) ++ [char_of (Z.land (Z.lor uc 0x80) 0xBF)]).
  rewrite not_elem_of_app. split; [apply IH |]. intros [=]%list_elem_of_singleton. eapply char_bit7; [| symmetry; eassumption]. by rewrite Z.land_spec, Z.lor_spec, orb_true_r.
Qed.

Lemma utf8_nul uc : 0 < uc -> NUL ∉ utf8 uc.
Proof.
  intros P. unfold utf8, utf8_len. destruct (Z.ltb_spec uc 0x80) as [L|L]; [| repeat destruct (_ <? _); apply utf8_back_nul; lia].
  cbn [utf8_back]. change (firstByteMark 1) with 0. rewrite Z.lor_0_r. intros E%list_elem_of_singleton. assert (u8 uc = 0) as U by (rewrite <- uchar_char_of, <- E; done).
  unfold u8 in U. rewrite Z.mod_small in U; lia.
Qed.

Definition regs_ok (v : option Z * option Z) : Prop := (forall x, fst v = Some x -> 0 <= x) /\ (forall x, snd v = Some x -> 0 <= x).

Lemma sscanf_nonneg p x : sscanf_4x p = Some (Some x) -> 0 <= x.
Proof.
  unfold sscanf_4x. destruct (skip_blanks p) as [q|]; [| done]. cbn [mbind option_bind]. destruct (head q) as [c|]; [| done]. cbn [mbind option_bind].
  set (q1 := if _ || _ then tail q else q). destruct (head q1) as [d|]; [| done]. cbn [mbind option_bind].
  match goal with |- (mbind _ ?m) = _ -> _ => destruct m as [[y|]|] end; cbn [mbind option_bind]; try done. intros [= <-]. apply Z.mod_pos_bound. lia.
Qed.

Lemma used_nonneg x : 0 <= x -> 0 <= used x.
Proof. intros P. unfold used. by apply Z.shiftr_nonneg. Qed.

Lemma read_u_ok v p w v' q : regs_ok v -> read_u v p = Some (w, v', q) -> q `suffix_of` p /\ regs_ok v' /\ forall x, w = Some x -> 0 < x.
Proof.
  intros [V1 V2] E. unfold read_u in E. destruct (sscanf_4x (tail p)) as [r|] eqn:E1; [| done]. cbn [mbind option_bind] in E.
  destruct (match r with Some x => Some x | None => fst v end) as [uc|] eqn:E2; [| done]. cbn [mbind option_bind] in E.
  assert (0 <= uc) as P by (destruct r as [x|]; [injection E2 as <-; by eapply sscanf_nonneg | by apply V1]).
  destruct (((0xDC00 <=? uc) && (uc <=? 0xDFFF)) || (uc =? 0)) eqn:E3.
  { injection E as <- <- <-. split_and!; [apply suffix_drop | by split; [intros x [= <-] |] | done]. }
  apply orb_false_iff in E3 as [_ Nz%Z.eqb_neq]. destruct (_ && _).
  - destruct (head (tail (drop 4 p))) as [c1|]; [| done]. cbn [mbind option_bind] in E. destruct (negb _); [injection E as <- <- <-; split_and!; [apply suffix_drop | by split; [intros x [= <-] |] | done] |].
    destruct (head (tail (tail _))) as [c2|]; [| done]. cbn [mbind option_bind] in E. destruct (negb _); [injection E as <- <- <-; split_and!; [apply suffix_drop | by split; [intros x [= <-] |] | done] |].
    destruct (sscanf_4x (drop 3 _)) as [r2|] eqn:E4; [| done]. cbn [mbind option_bind] in E. destruct (match r2 with Some x => Some x | None => snd v end) as [uc2|] eqn:E5; [| done].
    cbn [mbind option_bind] in E. assert (0 <= uc2) as P2 by (destruct r2 as [x|]; [injection E5 as <-; by eapply sscanf_nonneg | by apply V2]).
    destruct (_ || _); injection E as <- <- <-.
    + split_and!; [rewrite drop_drop; apply suffix_drop | split; by intros x [= <-] | done].
    + set (x := Z.lor _ _). assert (0 < x) as X.
      { assert (Z.testbit x 16 = true) as T by (subst x; by rewrite !Z.lor_spec). assert (0 <= x) by (subst x; rewrite !Z.lor_nonneg, Z.shiftl_nonneg, !Z.land_nonneg; lia).
        destruct (Z.eq_dec x 0) as [->|]; [by rewrite Z.bits_0 in T | lia]. }
      split_and!; [rewrite drop_drop; apply suffix_drop | split; intros y [= <-]; [apply used_nonneg; lia | done] | by intros y [= <-]].
  - injection E as <- <- <-. split_and!; [apply suffix_drop | split; [intros y [= <-]; by apply used_nonneg | done] | intros y [= <-]; lia].
Qed.

Lemma emit_some cap out l out' : emit cap out l = Some out' -> out' = out ++ l.
Proof. unfold emit. destruct (_ <=? _); [by intros [= <-] | done]. Qed.

Lemma copy_string_zero fuel : forall cap v out p out' q, ends p -> regs_ok v -> NUL ∉ out -> copy_string fuel cap v out p = Some (Some (out', q)) -> (NUL ∉ out') /\ q `suffix_of` p.
Proof.
  induction fuel as [|fuel IH]; intros cap v out p out' q En V N E; cbn [copy_string] in E; [done |]. destruct p as [|c p]; [done |]. cbn [head mbind option_bind tail] in E.
  assert (ends p) as Ep by (eapply ends_suffix; [| exact En]; by apply suffix_cons_r).
  destruct (eqc c dq || eqc c NUL) eqn:E0; [by injection E as <- <- |]. apply orb_false_iff in E0 as [_ Nc%bool_decide_eq_false]. destruct (negb (eqc c bs)).
  - destruct (emit cap out [c]) as [o|] eqn:Eo; [| done]. cbn [mbind option_bind] in E. apply emit_some in Eo as ->.
    apply IH in E as [Ns S]; [| done | done | rewrite not_elem_of_app, list_elem_of_singleton; naive_solver]. split; [done | by apply suffix_cons_r].
  - destruct p as [|d p]; [done |]. cbn [head mbind option_bind tail] in E. destruct (eqc d "u").
    + destruct (read_u v (d :: p)) as [[[w v'] p']|] eqn:Eu; [| done]. cbn [mbind option_bind] in E. apply read_u_ok in Eu as (Sp & V' & W); [| done].
      destruct (match w with Some x => emit cap out (utf8 x) | None => Some out end) as [o|] eqn:Eo; [| done]. cbn [mbind option_bind] in E.
      assert (NUL ∉ o) as No by (destruct w as [x|]; [apply emit_some in Eo as ->; rewrite not_elem_of_app; split; [done | by apply utf8_nul, W] | by injection Eo as <-]).
      assert (tail p' `suffix_of` d :: p) as St by (etrans; [apply suffix_tail | done]).
      apply IH in E as [Ns S]; [| by eapply ends_suffix | done | done]. split; [done |]. apply suffix_cons_r. by etrans.
    + destruct (emit cap out _) as [o|] eqn:Eo; [| done]. cbn [mbind option_bind] in E. apply emit_some in Eo as ->. destruct (decide (d = NUL)) as [->|Nd].
      { rewrite (Ep [] p eq_refl) in E. by destruct fuel. }
      assert (NUL <> default d (escape d)) as Ne by (unfold escape; repeat (destruct (eqc d _); [discriminate |]); by apply not_eq_sym).
      apply IH in E as [Ns S]; [| eapply ends_suffix; [| exact Ep]; by apply suffix_cons_r | done | rewrite not_elem_of_app, list_elem_of_singleton; naive_solver].
      split; [done |]. by do 2 apply suffix_cons_r.
Qed.

Lemma parse_string_made t k p : ends p -> post p (fun i => exists s, (NUL ∉ s) /\ i = mk_item cJSON_String (Some s) 0 no_zero 0 k []) (parse_string (fresh t k) p).
Proof.
  intros En. unfold parse_string. destruct p as [|c p]; [done |]. cbn [head mbind option_bind tail]. destruct (negb _); [done |]. destruct (scan_string 0 p) as [len|]; [| done].
  cbn [mbind option_bind]. destruct (_ <? _); [done |]. destruct (copy_string _ _ _ _ p) as [[[out q]|]|] eqn:E; cbn [mbind option_bind]; try done.
  apply copy_string_zero in E as [N S]; [| eapply ends_suffix; [| exact En]; by apply suffix_cons_r | split; done | apply not_elem_of_nil].
  destruct (emit _ _ _) as [o|]; [| done]. cbn [mbind option_bind]. destruct (head q) as [d|]; [| done]. cbn [mbind option_bind]. split; [| by exists out].
  apply suffix_cons_r. destruct (eqc d dq); [etrans; [apply suffix_tail | done] | done].
Qed.

(** *** Values *)

Definition plain_elem (i : cJSON) : Prop := made None i.
Definition named_member (i : cJSON) : Prop := exists n, (NUL ∉ n) /\ made (Some n) i.

Lemma parse_member_made parse p Q k : ends p -> (forall t n q, ends q -> post q (made n) (parse (fresh t n) q)) ->
  (forall i q, q `suffix_of` p -> named_member i -> post p Q (k i q)) -> post p Q (parse_member parse p k).
Proof.
  intros En P K. unfold parse_member. destruct (skip p) as [q|] eqn:E; [| done]. cbn [mbind option_bind]. apply skip_suffix in E.
  eapply post_then_skip; [eapply post_weaken; [exact E |]; apply (parse_string_made 0 None q); by eapply ends_suffix |]. cbn beta. intros i r Sr (s & N & ->).
  destruct (head r) as [c|]; [| done]. cbn [mbind option_bind]. destruct (negb _); [done |]. destruct (skip (tail r)) as [r2|] eqn:E2; [| done]. cbn [mbind option_bind]. apply skip_suffix in E2.
  assert (r2 `suffix_of` p) as S2 by (etrans; [exact E2 |]; etrans; [apply suffix_tail | done]).
  eapply post_then_skip; [eapply post_weaken; [exact S2 |]; apply (P cJSON_String (Some s) r2); by eapply ends_suffix |]. cbn beta. intros i' r3 S3 M. apply K; [done |]. by exists s.
Qed.

Lemma array_made k cs : Forall plain_elem cs -> made k (mk_item cJSON_Array None 0 no_zero 0 k cs).
Proof.
  intros F. split; [done |]. change (regular _) with (forallb regular cs). change (canonical _) with (bool_decide (@None bytes = None) && (0 =? 0) && bool_decide (no_zero = no_zero) && (0 =? 0) &&
    forallb (fun c => bool_decide (string c = None) && canonical c) cs). intros R. rewrite !bool_decide_true by done. change (0 =? 0) with true. cbn [andb]. rewrite forallb_forall in R |- *. intros c I.
  rewrite Forall_forall in F. destruct (F c) as [N C]; [by apply list_elem_of_In |]. rewrite bool_decide_true by done. by apply C, R.
Qed.

Lemma object_made k cs : Forall named_member cs -> made k (mk_item cJSON_Object None 0 no_zero 0 k cs).
Proof.
  intros F. split; [done |]. change (regular _) with (forallb regular cs). change (canonical _) with (bool_decide (@None bytes = None) && (0 =? 0) && bool_decide (no_zero = no_zero) && (0 =? 0) &&
    forallb (fun c => match string c with Some k => text_ok k | None => false end && canonical c) cs). intros R. rewrite !bool_decide_true by done. change (0 =? 0) with true. cbn [andb]. rewrite forallb_forall in R |- *. intros c I.
  rewrite Forall_forall in F. destruct (F c) as (n & N & E & C); [by apply list_elem_of_In |]. rewrite E. unfold text_ok. rewrite bool_decide_true by done. by apply C, R.
Qed.

Lemma parse_made fuel :
  (forall t k p, ends p -> post p (made k) (parse_value fuel (fresh t k) p)) /\
  (forall k cs p, ends p -> Forall plain_elem cs -> post p (made k) (parse_array_rest fuel (fresh cJSON_Array k) cs p)) /\
  (forall k cs p, ends p -> Forall named_member cs -> post p (made k) (parse_object_rest fuel (fresh cJSON_Object k) cs p)).
Proof.
  induction fuel as [|fuel (IV & IA & IO)]; [done |]. split_and!.
  - intros t k p En. cbn [parse_value]. destruct (starts (str_bytes "null") p) as [[]|]; cbn [mbind option_bind]; [split; [apply suffix_drop | done] | | done].
    destruct (starts (str_bytes "false") p) as [[]|]; cbn [mbind option_bind]; [split; [apply suffix_drop | done] | | done].
    destruct (starts (str_bytes "true") p) as [[]|]; cbn [mbind option_bind]; [split; [apply suffix_drop | done] | | done].
    destruct (head p) as [c|]; [| done]. cbn [mbind option_bind]. destruct (eqc c dq).
    { pose proof (parse_string_made t k p En) as P. destruct (parse_string _ p) as [[i q| |]|]; [| done..]. destruct P as [S (s & N & ->)]. split; [done |]. split; [done |].
      change (canonical _) with (text_ok s && true && bool_decide (no_zero = no_zero) && true && bool_decide (length (@nil cJSON) = 0%nat)). intros _. unfold text_ok. by rewrite !bool_decide_true. }
    destruct (_ || _); [apply parse_number_made |].
    destruct (eqc c "["); [| destruct (eqc c "{"); [| done]]; (destruct (skip (tail p)) as [q|] eqn:Eq; [| done]); cbn [mbind option_bind]; apply skip_suffix in Eq;
      (assert (q `suffix_of` p) as Sq by (etrans; [exact Eq | apply suffix_tail])); (destruct (head q) as [c'|]; [| done]); cbn [mbind option_bind];
      (destruct (eqc c' _); [split; [etrans; [apply suffix_tail | done] |]; by (apply (array_made k []) || apply (object_made k [])) |]).
    + destruct (skip q) as [r|] eqn:Er; [| done]. cbn [mbind option_bind]. apply skip_suffix in Er. assert (r `suffix_of` p) as Sr by (by etrans).
      eapply post_then_skip; [eapply post_weaken; [exact Sr |]; apply (IV 0 None r); by eapply ends_suffix |]. cbn beta. intros i r2 S2 M.
      eapply post_weaken; [exact S2 |]. apply IA; [by eapply ends_suffix | by constructor].
    + eapply post_weaken; [exact Sq |]. apply parse_member_made; [by eapply ends_suffix | done |]. intros i r Sr M. eapply post_weaken; [exact Sr |].
      apply IO; [| by constructor]. eapply ends_suffix; [| exact En]. by etrans.
  - intros k cs p En F. cbn [parse_array_rest]. destruct (head p) as [c|]; [| done]. cbn [mbind option_bind]. destruct (eqc c ",").
    + destruct (skip (tail p)) as [q|] eqn:Eq; [| done]. cbn [mbind option_bind]. apply skip_suffix in Eq. assert (q `suffix_of` p) as Sq by (etrans; [exact Eq | apply suffix_tail]).
      eapply post_then_skip; [eapply post_weaken; [exact Sq |]; apply (IV 0 None q); by eapply ends_suffix |]. cbn beta. intros i r Sr M.
      eapply post_weaken; [exact Sr |]. apply IA; [by eapply ends_suffix | apply Forall_app; split; [done | by constructor]].
    + destruct (eqc c "]"); [| done]. split; [apply suffix_tail | by apply array_made].
  - intros k cs p En F. cbn [parse_object_rest]. destruct (head p) as [c|]; [| done]. cbn [mbind option_bind]. destruct (eqc c ",").
    + eapply post_weaken; [apply suffix_tail |]. assert (ends (tail p)) as Et by (eapply ends_suffix; [apply suffix_tail | done]). apply parse_member_made; [done | done |]. intros i r Sr M.
      eapply post_weaken; [exact Sr |]. apply IO; [by eapply ends_suffix | apply Forall_app; split; [done | by constructor]].
    + destruct (eqc c "}"); [| done]. split; [apply suffix_tail | by apply object_made].
Qed.

Lemma c_cut_nul l : NUL ∉ c_cut l.
Proof. induction l as [|c l IH]; cbn [c_cut]; [apply not_elem_of_nil |]. case_bool_decide as E; [apply not_elem_of_nil |]. apply not_elem_of_cons. split; [by apply not_eq_sym | done]. Qed.

(** The tree of every text is canonical when it is regular. *)
Lemma parse_canonical text i : cJSON_Parse text = Some (Some (inl i)) -> regular i = true -> canonical i = true /\ string i = None.
Proof.
  unfold cJSON_Parse. destruct (skip _) as [p|] eqn:E; [| done]. cbn [mbind option_bind]. apply skip_suffix in E.
  assert (ends (c_cut text ++ [NUL])) as En.
  { intros q r Eq. pose proof (c_cut_nul text) as N. destruct r as [|x r] using rev_ind; [done |]. exfalso. rewrite app_comm_cons, app_assoc in Eq. apply app_inj_tail in Eq as [Eq _].
    rewrite Eq in N. apply N. apply elem_of_app. right. left. }
  pose proof (proj1 (parse_made (S (length p))) 0 None p (ends_suffix _ _ E En)) as P. change (fresh 0 None) with cJSON_New_Item in P.
  destruct (parse_value _ _ p) as [[j q| |]|]; cbn [mbind option_bind]; try done. intros [= <-] R. destruct P as (_ & N & C). auto.
Qed.
End trees.

Section claims.
Context `{Libm}.

Lemma parse_render fmt i : canonical i = true -> string i = None -> 4 * zlen (render 0 fmt i) + 10 <= INT_MAX ->
  cJSON_Parse (render 0 fmt i) = Some (Some (inl i)).
Proof.
  intros C N L. unfold cJSON_Parse. rewrite c_cut_id by apply render_nul.
  destruct (render_head i 0 fmt) as (c & q & E & Ec & _). rewrite E. cbn [app]. rewrite skip_ink by done. cbn [mbind option_bind].
  rewrite app_comm_cons, <- E. pose proof (reads_all i 0 fmt) as R. rewrite N in R. unfold fresh in R.
  rewrite (R _ 0 [NUL]); [done | done | by eexists _, _ | lia |]. rewrite zlen_app. change (zlen [NUL]) with 1. zlens.
Qed.

(** C14: the round trip of cJSON.  Take a tree without floating-point numbers
    that is either canonical (a root without a name, and the fields of every
    item as the parser sets them) or the tree the parser has made of any text,
    and in which no number with a minus sign is [-0] or below [- 2 ^ 63].
    Printing it, formatted or not, stays within the allocated buffers and writes
    its JSON text, and parsing that text gives the very tree back, with the same
    types, numbers, strings, names and order.  The size of the text is bounded
    so that the [int] sizes of the printer do not overflow. *)
Theorem cjson_roundtrip fmt i :
  (canonical i = true /\ string i = None) \/ (exists text, cJSON_Parse text = Some (Some (inl i)) /\ regular i = true) ->
  4 * zlen (render 0 fmt i) + 10 <= INT_MAX ->
  print_value 0 fmt i = Some (Some (render 0 fmt i)) /\ cJSON_Parse (render 0 fmt i) = Some (Some (inl i)).
Proof.
  intros C L. assert (canonical i = true /\ string i = None) as [Ci N] by (destruct C as [?|(text & P & R)]; [done | by eapply parse_canonical]).
  split; [by apply prints_all | by apply parse_render].
Qed.

Lemma copy_short_measure cap n v fuel : 1 <= cap ->
  copy_string (S fuel) cap v [] (short_measure n ++ [NUL]) = copy_string fuel cap (Some 0x41, snd v) ["A"%char] (replicate n "a"%char ++ [dq; NUL]).
Proof.
  intros C. unfold short_measure. rewrite <- !app_assoc. cbn [app replicate]. rewrite <- app_assoc.
  change (str_bytes "\u41" ++ ?l) with (bs :: "u"%char :: "4"%char :: "1"%char :: l). cbn [copy_string head mbind option_bind tail].
  change (eqc bs dq || eqc bs NUL) with false. change (negb (eqc bs bs)) with false. cbn iota. change (eqc "u" "u") with true. cbn iota.
  change (read_u v _) with (Some (Some 0x41, (Some 0x41, snd v), "a"%char :: replicate n "a"%char ++ [dq; NUL])). cbn [mbind option_bind].
  change (utf8 0x41) with ["A"%char]. by rewrite emit_ok.
Qed.

(** C36: a [\u] with fewer than four digits takes the copying loop over the
    quote that ended the measuring loop: for every [n] there is a string for
    which four bytes are allocated and [n + 2] bytes are written, so that the
    parser writes behind the allocated block. *)
Theorem cjson_string_overflow n : scan_string 0 (short_measure n ++ [NUL]) = Some 3 /\
  (forall cap, 1 + Z.of_nat n <= cap ->
     copy_string (S (S n)) cap (None, None) [] (short_measure n ++ [NUL]) = Some (Some ("A"%char :: replicate n "a"%char, [dq; NUL]))) /\
  (3 < Z.of_nat n -> cJSON_Parse (dq :: short_measure n) = None).
Proof.
  split_and!.
  - unfold short_measure. rewrite <- !app_assoc. done.
  - intros cap L. rewrite copy_short_measure by lia. rewrite copy_plain; [done | lia | by rewrite zlen_cons, zlen_nil; lia].
  - intros L. assert (NUL ∉ dq :: short_measure n) as N.
    { unfold short_measure. rewrite not_elem_of_cons, not_elem_of_app, not_elem_of_cons, not_elem_of_app. split_and!; try done; try (by apply (bool_decide_eq_true_1 (NUL ∉ _))).
      by intros [E _]%elem_of_replicate. }
    unfold cJSON_Parse. rewrite c_cut_id by done. cbn [app]. rewrite skip_ink by done. cbn [mbind option_bind].
    change (parse_value (S ?f) ?i (dq :: ?p)) with (parse_string i (dq :: p)). unfold parse_string. cbn [head mbind option_bind tail].
    change (negb (eqc dq dq)) with false. cbn iota.
    assert (scan_string 0 (short_measure n ++ [NUL]) = Some 3) as -> by (unfold short_measure; by rewrite <- !app_assoc).
    cbn [mbind option_bind]. change (INT_MAX <? 3) with false. cbn iota.
    assert (exists f, length (dq :: short_measure n ++ [NUL]) = S f /\ (n < f)%nat) as (f & -> & F).
    { exists (length (short_measure n ++ [NUL])). split; [done |]. unfold short_measure. cbn [replicate app].
      rewrite !length_app. cbn [length]. rewrite ?length_app, ?length_replicate. cbn [length]. rewrite ?length_app, ?length_replicate. lia. }
    rewrite copy_short_measure by lia. rewrite copy_plain_full; [done | done | |]; rewrite zlen_cons, zlen_nil; lia.
Qed.
End claims.

(** An object with a number below zero, a nested array and an escaped name. *)
Definition sample_tree : cJSON :=
  mk_item cJSON_Object None 0 no_zero 0 None
    [mk_item cJSON_Int None (2 ^ 64 - 7) (to_double (2 ^ 64 - 7) 0) (-1) (Some (str_bytes "id")) [];
     mk_item cJSON_Array None 0 no_zero 0 (Some ["034"%char; "010"%char; "001"%char])
       [fresh cJSON_NULL None; mk_item cJSON_String (Some (str_bytes "a\b")) 0 no_zero 0 None []]].

#[local] Instance sample_libm : Libm := { pow10 _ := no_zero; cast_out _ := 0 }.

(** The formatted text of [sample_tree]. *)
Definition sample_text : bytes := render 0 true sample_tree.

Lemma cjson_roundtrip_witness :
  print_value 0 false sample_tree = Some (Some (render 0 false sample_tree)) /\ cJSON_Parse (render 0 false sample_tree) = Some (Some (inl sample_tree)).
Proof.
  apply (cjson_roundtrip false sample_tree); [right; exists sample_text; split; vm_compute; reflexivity | vm_compute; discriminate].
Defined.
End CJsonText.
