(* ===== verification/CJsonHeap.v ===== *)
(** * CJsonHeap: the linked items of cJSON

    Model of the part of [util/json/cJSON.c] that works on items in memory:
    the constructors, the lookups, [cJSON_Add...], [cJSON_Detach...],
    [cJSON_Delete...], [cJSON_Replace...], and the merging functions.  An item
    is a node of a heap with its [next], [prev] and [child] pointers; the null
    pointer is 0.  Following a null or freed pointer is undefined behaviour.
    A loop over a chain has as much fuel as the heap has nodes, and one more;
    a chain that is longer runs in a circle, and the loop never ends.
    Allocations succeed. *)

From S2P Require Import Prelude Util Effect CFloat CJson.
From Stdlib Require Import SpecFloat.
Import Util CFloat.

#[local] Open Scope Z_scope.

Module CJsonHeap.

Record node := mk_node {
  next : Z; prev : Z; child : Z;
  type : Z; valuestring : option bytes; valueint : Z; valuedouble : double; sign : Z;
  string : option bytes }.

Record heap := mk_heap { nodes : gmap Z node; brk : Z }.

(** [memset(node, 0, sizeof(cJSON))] *)
Definition node0 : node := mk_node 0 0 0 0 None 0 (S754_zero false) 0 None.

Definition set_next v (n : node) := mk_node v (prev n) (child n) (type n) (valuestring n) (valueint n) (valuedouble n) (sign n) (string n).
Definition set_prev v (n : node) := mk_node (next n) v (child n) (type n) (valuestring n) (valueint n) (valuedouble n) (sign n) (string n).
Definition set_child v (n : node) := mk_node (next n) (prev n) v (type n) (valuestring n) (valueint n) (valuedouble n) (sign n) (string n).
Definition set_type v (n : node) := mk_node (next n) (prev n) (child n) v (valuestring n) (valueint n) (valuedouble n) (sign n) (string n).
Definition set_valuestring v (n : node) := mk_node (next n) (prev n) (child n) (type n) v (valueint n) (valuedouble n) (sign n) (string n).
Definition set_number i d g (n : node) := mk_node (next n) (prev n) (child n) (type n) (valuestring n) i d g (string n).
Definition set_string v (n : node) := mk_node (next n) (prev n) (child n) (type n) (valuestring n) (valueint n) (valuedouble n) (sign n) v.

(** ** Memory *)

Definition load (p : Z) : M heap node := h ← get; deref (nodes h !! p).

(** [p->field = ...] *)
Definition update (p : Z) (f : node -> node) : M heap unit :=
  n ← load p; modify (fun h => mk_heap (<[p := f n]> (nodes h)) (brk h)).

Definition free (p : Z) : M heap unit :=
  _ ← load p; modify (fun h => mk_heap (delete p (nodes h)) (brk h)).

Definition cJSON_New_Item : M heap Z :=
  p ← gets brk; _ ← modify (fun h => mk_heap (<[p := node0]> (nodes h)) (brk h + 1)); mret p.

Definition fuel : M heap nat := gets (fun h => S (size (nodes h))).

Definition cJSON_IsReference : Z := 256.

(** [cJSON_Delete] *)
Fixpoint delete_loop (f : nat) (c : Z) : M heap unit :=
  match f with
  | O => block
  | S f =>
      if c =? 0 then mret tt else
      n ← load c;
      _ ← (if (Z.land (type n) cJSON_IsReference =? 0) && negb (child n =? 0) then delete_loop f (child n) else mret tt);
      _ ← free c;
      delete_loop f (next n)
  end.
Definition cJSON_Delete (c : Z) : M heap unit := f ← fuel; delete_loop f c.

(** ** Comparison of names *)

Definition tolower (c : ascii) : Z := let v := uchar c in if (65 <=? v) && (v <=? 90) then v + 32 else v.

Fixpoint casecmp (s1 s2 : bytes) : Z :=
  match s1, s2 with
  | [], [] => 0
  | a :: s1, b :: s2 => if tolower a =? tolower b then casecmp s1 s2 else tolower a - tolower b
  | [], b :: _ => - tolower b
  | a :: _, [] => tolower a
  end.

Definition cJSON_strcasecmp (s1 s2 : option bytes) : Z :=
  match s1, s2 with
  | None, None => 0
  | None, Some _ => 1
  | Some _, None => 1
  | Some s1, Some s2 => casecmp s1 s2
  end.

(** ** Lookups *)

Fixpoint size_loop (f : nat) (i c : Z) : M heap Z :=
  match f with
  | O => block
  | S f => if c =? 0 then mret i else n ← load c; size_loop f (i + 1) (next n)
  end.
Definition cJSON_GetArraySize (array : Z) : M heap Z :=
  f ← fuel; a ← load array; size_loop f 0 (child a).

(** [while (c && item > 0) item--, c = c->next;] *)
Fixpoint walk (f : nat) (item c : Z) : M heap Z :=
  match f with
  | O => block
  | S f => if (c =? 0) || negb (0 <? item) then mret c else n ← load c; walk f (item - 1) (next n)
  end.
Definition cJSON_GetArrayItem (array item : Z) : M heap Z :=
  f ← fuel; a ← load array; walk f item (child a).

(** [while (c && cJSON_strcasecmp(c->string, string)) i++, c = c->next;] *)
Fixpoint find (f : nat) (key : option bytes) (i c : Z) : M heap (Z * Z) :=
  match f with
  | O => block
  | S f =>
      if c =? 0 then mret (i, c) else
      n ← load c;
      if cJSON_strcasecmp (string n) key =? 0 then mret (i, c) else find f key (i + 1) (next n)
  end.
Definition cJSON_GetObjectItem (object : Z) (key : bytes) : M heap Z :=
  f ← fuel; o ← load object; r ← find f (Some key) 0 (child o); mret (snd r).

(** ** Adding *)

Definition suffix_object (p item : Z) : M heap unit :=
  _ ← update p (set_next item); update item (set_prev p).

(** [while (c && c->next) c = c->next;] *)
Fixpoint last_of (f : nat) (c : Z) : M heap Z :=
  match f with
  | O => block
  | S f => if c =? 0 then mret c else n ← load c; if next n =? 0 then mret c else last_of f (next n)
  end.

Definition cJSON_AddItemToArray (array item : Z) : M heap unit :=
  a ← load array;
  if item =? 0 then mret tt else
  if child a =? 0 then update array (set_child item)
  else f ← fuel; c ← last_of f (child a); suffix_object c item.

Definition cJSON_AddItemToArrayHead (array item : Z) : M heap unit :=
  a ← load array;
  let c := child a in
  if item =? 0 then mret tt else
  if c =? 0 then update array (set_child item)
  else
    n ← load c;
    _ ← update item (set_prev (prev n));
    _ ← update item (set_next c);
    _ ← update c (set_prev item);
    update array (set_child item).

Definition cJSON_AddItemToObject (object : Z) (key : bytes) (item : Z) : M heap unit :=
  if item =? 0 then mret tt else
  _ ← update item (set_string (Some key));
  cJSON_AddItemToArray object item.

(** ** Detaching, deleting, replacing *)

Definition cJSON_DetachItemFromArray (array which : Z) : M heap Z :=
  f ← fuel;
  a ← load array;
  c ← walk f which (child a);
  if c =? 0 then mret 0 else
  n ← load c;
  _ ← (if prev n =? 0 then mret tt else update (prev n) (set_next (next n)));
  n ← load c;
  _ ← (if next n =? 0 then mret tt else update (next n) (set_prev (prev n)));
  a ← load array;
  n ← load c;
  _ ← (if c =? child a then update array (set_child (next n)) else mret tt);
  _ ← update c (set_next 0);
  _ ← update c (set_prev 0);
  mret c.

Definition cJSON_DeleteItemFromArray (array which : Z) : M heap unit :=
  c ← cJSON_DetachItemFromArray array which; cJSON_Delete c.

Definition cJSON_DetachItemFromObject (object : Z) (key : option bytes) : M heap Z :=
  f ← fuel;
  o ← load object;
  r ← find f key 0 (child o);
  let '(i, c) := r in
  if c =? 0 then mret 0 else cJSON_DetachItemFromArray object i.

Definition cJSON_DeleteItemFromObject (object : Z) (key : bytes) : M heap unit :=
  c ← cJSON_DetachItemFromObject object (Some key); cJSON_Delete c.

Definition cJSON_ReplaceItemInArray (array which newitem : Z) : M heap unit :=
  f ← fuel;
  a ← load array;
  c ← walk f which (child a);
  if c =? 0 then mret tt else
  n ← load c;
  _ ← update newitem (set_next (next n));
  _ ← update newitem (set_prev (prev n));
  m ← load newitem;
  _ ← (if next m =? 0 then mret tt else update (next m) (set_prev newitem));
  a ← load array;
  _ ← (if c =? child a then update array (set_child newitem)
       else m ← load newitem; update (prev m) (set_next newitem));
  _ ← update c (set_prev 0);
  _ ← update c (set_next 0);
  cJSON_Delete c.

Definition cJSON_ReplaceItemInObject (object : Z) (key : option bytes) (newitem : Z) : M heap unit :=
  f ← fuel;
  o ← load object;
  r ← find f key 0 (child o);
  let '(i, c) := r in
  if c =? 0 then mret tt else
  k ← deref key;
  _ ← update newitem (set_string (Some k));
  cJSON_ReplaceItemInArray object i newitem.

(** ** Constructors *)

Definition create (f : node -> node) : M heap Z := p ← cJSON_New_Item; _ ← update p f; mret p.

Definition cJSON_CreateNull : M heap Z := create (set_type CJson.cJSON_NULL).
Definition cJSON_CreateTrue : M heap Z := create (set_type CJson.cJSON_True).
Definition cJSON_CreateFalse : M heap Z := create (set_type CJson.cJSON_False).
Definition cJSON_CreateBool (b : bool) : M heap Z := create (set_type (if b then CJson.cJSON_True else CJson.cJSON_False)).
Definition cJSON_CreateInt (num sign : Z) : M heap Z :=
  create (fun n => set_number num (to_double num 0) sign (set_type CJson.cJSON_Int n)).
Definition cJSON_CreateDouble `{CJson.Libm} (num : double) (sign : Z) : M heap Z :=
  create (fun n => set_number (CJson.cast_float num) num sign (set_type CJson.cJSON_Double n)).
Definition cJSON_CreateString (s : bytes) : M heap Z :=
  create (fun n => set_valuestring (Some s) (set_type CJson.cJSON_String n)).
Definition cJSON_CreateArray : M heap Z := create (set_type CJson.cJSON_Array).
Definition cJSON_CreateObject : M heap Z := create (set_type CJson.cJSON_Object).

(** [for (...) { n = ...; if (!i) a->child = n; else suffix_object(p, n); p = n; }] *)
Fixpoint link_items {A} (make : A -> M heap Z) (a p : Z) (l : list A) : M heap unit :=
  match l with
  | [] => mret tt
  | x :: l =>
      n ← make x;
      _ ← (if p =? 0 then update a (set_child n) else suffix_object p n);
      link_items make a n l
  end.

(** [(long double)((unsigned int)numbers[i])] *)
Definition cJSON_CreateIntArray `{CJson.Libm} (numbers : list Z) (sign : Z) : M heap Z :=
  a ← cJSON_CreateArray; _ ← link_items (fun x => cJSON_CreateDouble (to_double (u32 x) 0) sign) a 0 numbers; mret a.
Definition cJSON_CreateFloatArray `{CJson.Libm} (numbers : list double) : M heap Z :=
  a ← cJSON_CreateArray; _ ← link_items (fun x => cJSON_CreateDouble x (-1)) a 0 numbers; mret a.
Definition cJSON_CreateDoubleArray `{CJson.Libm} (numbers : list double) : M heap Z :=
  a ← cJSON_CreateArray; _ ← link_items (fun x => cJSON_CreateDouble x (-1)) a 0 numbers; mret a.
Definition cJSON_CreateStringArray (strings : list bytes) : M heap Z :=
  a ← cJSON_CreateArray; _ ← link_items cJSON_CreateString a 0 strings; mret a.

(** ** Merging *)

(** [snprintf(buf, 256, "%s|%s", prefix, c->string)]; the library writes a
    null pointer as [(null)]. *)
Definition path_key (prefix : bytes) (name : option bytes) : bytes :=
  take 255 (prefix ++ "|"%char :: default (str_bytes "(null)") name).

Fixpoint merge_child_loop (f : nat) (destObject : Z) (destKey : bytes) (childItem : Z) (combinedKey : bytes) (c : Z) : M heap unit :=
  match f with
  | O => block
  | S f =>
      if c =? 0 then mret tt else
      n ← load c;
      let key := path_key destKey (string n) in
      if negb (child n =? 0) then
        _ ← merge_child_loop f c key childItem combinedKey (child n);
        n ← load c;
        merge_child_loop f destObject destKey childItem combinedKey (next n)
      else if cJSON_strcasecmp (Some key) (Some combinedKey) =? 0 then
        m ← load childItem;
        cJSON_ReplaceItemInObject destObject (string m) childItem
      else merge_child_loop f destObject destKey childItem combinedKey (next n)
  end.
Definition MergeCJsonChild (destObject : Z) (destKey : bytes) (childItem : Z) (combinedKey : bytes) : M heap unit :=
  f ← fuel; d ← load destObject; merge_child_loop f destObject destKey childItem combinedKey (child d).

Fixpoint merge_loop (f : nat) (destObject combined : Z) (combinedKey : bytes) (c : Z) : M heap unit :=
  match f with
  | O => block
  | S f =>
      if c =? 0 then mret tt else
      n ← load c;
      let key := path_key combinedKey (string n) in
      _ ← (if negb (child n =? 0) then merge_loop f destObject c key (child n) else mret tt);
      n ← load c;
      combinedC ← cJSON_DetachItemFromObject combined (string n);
      _ ← (if combinedC =? 0 then mret tt else MergeCJsonChild destObject [] combinedC key);
      merge_loop f destObject combined combinedKey (next n)
  end.
Definition MergeCJson (destObject combined : Z) (combinedKey : bytes) : M heap unit :=
  f ← fuel; b ← load combined; merge_loop f destObject combined combinedKey (child b).

(** ** Trees in the heap

    [L a d cs] is an item at the address [a] with the data [d] (its three
    pointers do not count) and the children [cs].  [ok h pv nx t]: the heap
    [h] holds the tree, and its root points to [pv] and [nx]. *)

Unset Elimination Schemes.
Inductive ltree := L (a : Z) (d : node) (cs : list ltree).
Set Elimination Schemes.

Lemma ltree_ind (P : ltree -> Prop) : (forall a d cs, Forall P cs -> P (L a d cs)) -> forall t, P t.
Proof.
  intros Step. refine (fix F t := _). destruct t as [a d cs]. apply Step.
  induction cs as [|c cs IH]; constructor; [apply F | exact IH].
Qed.

Definition addr (t : ltree) : Z := let '(L a _ _) := t in a.
Definition data (t : ltree) : node := let '(L _ d _) := t in d.
Definition kids (t : ltree) : list ltree := let '(L _ _ cs) := t in cs.

Definition link (pv nx ch : Z) (d : node) : node := set_next nx (set_prev pv (set_child ch d)).

(** The first address of a list of items in front of [nx], the last behind
    [pv]. *)
Definition fst_addr (nx : Z) (l : list ltree) : Z := match l with [] => nx | t :: _ => addr t end.
Fixpoint lst_addr (pv : Z) (l : list ltree) : Z := match l with [] => pv | t :: l => lst_addr (addr t) l end.

Fixpoint addrs (t : ltree) : list Z := let '(L a _ cs) := t in a :: concat (List.map addrs cs).
Definition addrss (l : list ltree) : list Z := concat (List.map addrs l).

Fixpoint ok (h : gmap Z node) (pv nx : Z) (t : ltree) : Prop :=
  let '(L a d cs) := t in
  a <> 0 /\ h !! a = Some (link pv nx (fst_addr 0 cs) d) /\
  (fix oks pv l := match l with [] => True | t :: l => ok h pv (fst_addr 0 l) t /\ oks (addr t) l end) 0 cs.

Fixpoint oks (h : gmap Z node) (pv nx : Z) (l : list ltree) : Prop :=
  match l with [] => True | t :: l => ok h pv (fst_addr nx l) t /\ oks h (addr t) nx l end.

Lemma ok_L h pv nx a d cs : ok h pv nx (L a d cs) <-> a <> 0 /\ h !! a = Some (link pv nx (fst_addr 0 cs) d) /\ oks h 0 0 cs.
Proof.
  cbn [ok]. do 2 (apply and_iff_compat_l). generalize 0 at 2 3 as pv'. induction cs as [|t cs IH]; intros pv'; [done |].
  cbn [oks]. apply and_iff_compat_l. apply IH.
Qed.

Lemma ok_addr h pv nx t : ok h pv nx t -> addr t <> 0 /\ h !! addr t = Some (link pv nx (fst_addr 0 (kids t)) (data t)).
Proof. destruct t as [a d cs]. rewrite ok_L. tauto. Qed.

Lemma ok_kids h pv nx t : ok h pv nx t -> oks h 0 0 (kids t).
Proof. destruct t as [a d cs]. rewrite ok_L. tauto. Qed.

Lemma addr_in t : addr t ∈ addrs t.
Proof. destruct t. by left. Qed.

Lemma addrss_cons t l : addrss (t :: l) = addrs t ++ addrss l.
Proof. done. Qed.
Lemma addrss_app l1 l2 : addrss (l1 ++ l2) = addrss l1 ++ addrss l2.
Proof. unfold addrss. by rewrite map_app, concat_app. Qed.
Lemma addrs_L a d cs : addrs (L a d cs) = a :: addrss cs.
Proof. done. Qed.

Lemma oks_app h pv nx l1 l2 : oks h pv nx (l1 ++ l2) <-> oks h pv (fst_addr nx l2) l1 /\ oks h (lst_addr pv l1) nx l2.
Proof.
  revert pv. induction l1 as [|t l1 IH]; intros pv; cbn [app oks lst_addr]; [tauto |]. rewrite IH. destruct l1; cbn [app fst_addr]; tauto.
Qed.

(** Only the addresses of the tree matter. *)
Lemma oks_frame_of h h' l : Forall (fun t => forall pv nx, (forall a, a ∈ addrs t -> h !! a = h' !! a) -> ok h pv nx t -> ok h' pv nx t) l ->
  forall pv nx, (forall a, a ∈ addrss l -> h !! a = h' !! a) -> oks h pv nx l -> oks h' pv nx l.
Proof.
  induction 1 as [|t l Ht _ IH]; intros pv nx E O; [done |]. destruct O as [O1 O2]. rewrite addrss_cons in E.
  split; [apply Ht | apply IH]; try done; intros a I; apply E, elem_of_app; auto.
Qed.

Lemma ok_frame h h' t : forall pv nx, (forall a, a ∈ addrs t -> h !! a = h' !! a) -> ok h pv nx t -> ok h' pv nx t.
Proof.
  induction t as [a d cs IH] using ltree_ind; intros pv nx E. rewrite !ok_L. intros (N & H & O). rewrite addrs_L in E. split_and!; [done | |].
  - rewrite <- E; [done | left].
  - eapply oks_frame_of; [exact IH | | exact O]. intros b I. apply E. by right.
Qed.

Lemma oks_frame h h' l pv nx : (forall a, a ∈ addrss l -> h !! a = h' !! a) -> oks h pv nx l -> oks h' pv nx l.
Proof. apply oks_frame_of. apply Forall_true. intros t. apply ok_frame. Qed.

Lemma oks_alter h f p l pv nx : p ∉ addrss l -> oks h pv nx l -> oks (alter f p h) pv nx l.
Proof. intros N. apply oks_frame. intros a I. rewrite lookup_alter_ne; [done |]. congruence. Qed.

Lemma ok_alter h f p t pv nx : p ∉ addrs t -> ok h pv nx t -> ok (alter f p h) pv nx t.
Proof. intros N. apply ok_frame. intros a I. rewrite lookup_alter_ne; [done |]. congruence. Qed.

Lemma addr_in_ss t l : t ∈ l -> addr t ∈ addrss l.
Proof.
  intros I. unfold addrss. apply list_elem_of_In, in_concat. exists (addrs t). split; [by apply in_map, list_elem_of_In | apply list_elem_of_In, addr_in].
Qed.

(** The pointers of the root change. *)
Lemma ok_relink h h' pv nx pv' nx' t : (forall a, a ∈ addrss (kids t) -> h !! a = h' !! a) -> h' !! addr t = Some (link pv' nx' (fst_addr 0 (kids t)) (data t)) ->
  ok h pv nx t -> ok h' pv' nx' t.
Proof.
  destruct t as [a d cs]. rewrite !ok_L. cbn [addr data kids]. intros E H (N & _ & O). split_and!; [done.. |]. by apply (oks_frame h).
Qed.

Lemma lst_addr_app pv l t : lst_addr pv (l ++ [t]) = addr t.
Proof. revert pv. induction l as [|u l IH]; intros pv; [done |]. apply IH. Qed.

Lemma root_not_in_kids t : NoDup (addrs t) -> addr t ∉ addrss (kids t).
Proof. destruct t as [a d cs]. by intros [? _]%NoDup_cons. Qed.

Lemma oks_set_next h pv nx nx' l t : NoDup (addrss (l ++ [t])) -> oks h pv nx (l ++ [t]) -> oks (alter (set_next nx') (addr t) h) pv nx' (l ++ [t]).
Proof.
  rewrite addrss_app, oks_app, oks_app. cbn [fst_addr]. intros ND [O1 [O2 _]]. apply NoDup_app in ND as (_ & D & N). rewrite addrss_cons in D, N. apply NoDup_app in N as (N & _ & _). split.
  - apply oks_alter; [| done]. intros I. apply (D _ I), elem_of_app. left. apply addr_in.
  - split; [| done]. apply (ok_relink h _ (lst_addr pv l) nx); [| | done].
    + intros a I. rewrite lookup_alter_ne; [done |]. intros <-. by apply root_not_in_kids in N.
    + destruct (ok_addr _ _ _ _ O2) as [_ E]. rewrite lookup_alter_eq, E. done.
Qed.

Lemma oks_set_prev h pv nx pv' l t : NoDup (addrss (t :: l)) -> oks h pv nx (t :: l) -> oks (alter (set_prev pv') (addr t) h) pv' nx (t :: l).
Proof.
  rewrite addrss_cons. intros ND [O1 O2]. apply NoDup_app in ND as (N & D & _). split.
  - apply (ok_relink h _ pv (fst_addr nx l)); [| | done].
    + intros a I. rewrite lookup_alter_ne; [done |]. intros <-. by apply root_not_in_kids in N.
    + destruct (ok_addr _ _ _ _ O1) as [_ E]. rewrite lookup_alter_eq, E. done.
  - apply oks_alter; [| done]. intros I. exact (D _ (addr_in t) I).
Qed.

(** ** Fuel *)

Lemma ok_dom_of h l : Forall (fun t => forall pv nx, ok h pv nx t -> forall a, a ∈ addrs t -> is_Some (h !! a)) l ->
  forall pv nx, oks h pv nx l -> forall a, a ∈ addrss l -> is_Some (h !! a).
Proof.
  induction 1 as [|t l Ht _ IH]; intros pv nx O a I; [by apply elem_of_nil in I |]. destruct O as [O1 O2].
  rewrite addrss_cons in I. apply elem_of_app in I as [I|I]; [by eapply Ht | by eapply IH].
Qed.

Lemma ok_dom h t : forall pv nx, ok h pv nx t -> forall a, a ∈ addrs t -> is_Some (h !! a).
Proof.
  induction t as [a d cs IH] using ltree_ind; intros pv nx O b I. apply ok_L in O as (_ & H & O). rewrite addrs_L in I.
  apply elem_of_cons in I as [->|I]; [by eexists | by eapply ok_dom_of].
Qed.

Lemma oks_dom h pv nx l : oks h pv nx l -> forall a, a ∈ addrss l -> is_Some (h !! a).
Proof. apply ok_dom_of, Forall_true. intros t. apply ok_dom. Qed.

Lemma dom_size (h : gmap Z node) (l : list Z) : NoDup l -> (forall a, a ∈ l -> is_Some (h !! a)) -> (length l <= size h)%nat.
Proof.
  intros N D. rewrite <- size_dom. rewrite <- (size_list_to_set (C := gset Z) l) by done. apply subseteq_size. intros a I.
  apply elem_of_list_to_set in I. by apply elem_of_dom, D.
Qed.

Lemma oks_size h pv nx l : NoDup (addrss l) -> oks h pv nx l -> (length (addrss l) <= size h)%nat.
Proof. intros N O. apply dom_size; [done |]. by eapply oks_dom. Qed.

Lemma addrss_length l : (length l <= length (addrss l))%nat.
Proof. induction l as [|[a d cs] l IH]; [done |]. rewrite addrss_cons, addrs_L, length_app. cbn [length]. lia. Qed.

(** ** Loops *)

Lemma walk_ok H l : forall f pv item, oks (nodes H) pv 0 l -> (length l < f)%nat ->
  walk f item (fst_addr 0 l) H = Ret (fst_addr 0 (drop (Z.to_nat item) l)) H.
Proof.
  induction l as [|t l IH]; intros f pv item O F; (destruct f as [|f]; [cbn in F; lia |]); cbn [walk fst_addr].
  { by rewrite drop_nil. }
  destruct O as [O1 O2]. destruct (ok_addr _ _ _ _ O1) as [N E]. destruct (Z.eqb_spec (addr t) 0); [done |].
  destruct (Z.ltb_spec 0 item); cbn [negb orb].
  - unfold load, mbind, M_bind, get. unfold deref. rewrite E. cbn [next link set_next]. rewrite (IH f (addr t)) by (done || cbn in F; lia).
    by replace (Z.to_nat item) with (S (Z.to_nat (item - 1))) by lia.
  - by replace (Z.to_nat item) with 0%nat by lia.
Qed.

Lemma size_loop_ok H l : forall f pv i, oks (nodes H) pv 0 l -> (length l < f)%nat -> size_loop f i (fst_addr 0 l) H = Ret (i + Z.of_nat (length l)) H.
Proof.
  induction l as [|t l IH]; intros f pv i O F; (destruct f as [|f]; [cbn in F; lia |]); cbn [size_loop fst_addr].
  { cbn [length]. by rewrite Z.add_0_r. }
  destruct O as [O1 O2]. destruct (ok_addr _ _ _ _ O1) as [N E]. destruct (Z.eqb_spec (addr t) 0); [done |].
  unfold load, mbind, M_bind, get. unfold deref. rewrite E. cbn [next link set_next]. rewrite (IH f (addr t)) by (done || cbn in F; lia).
  f_equal. cbn [length]. lia.
Qed.

(** The position of the first item with a name. *)
Definition matches (key : option bytes) (t : ltree) : bool := cJSON_strcasecmp (string (data t)) key =? 0.
Fixpoint position (key : option bytes) (l : list ltree) : nat :=
  match l with [] => O | t :: l => if matches key t then O else S (position key l) end.

Lemma find_ok H key l : forall f pv i, oks (nodes H) pv 0 l -> (length l < f)%nat ->
  find f key i (fst_addr 0 l) H = Ret (i + Z.of_nat (position key l), fst_addr 0 (drop (position key l) l)) H.
Proof.
  induction l as [|t l IH]; intros f pv i O F; (destruct f as [|f]; [cbn in F; lia |]); cbn [find fst_addr position].
  { cbn. by rewrite Z.add_0_r. }
  destruct O as [O1 O2]. destruct (ok_addr _ _ _ _ O1) as [N E]. destruct (Z.eqb_spec (addr t) 0); [done |].
  unfold load, mbind, M_bind, get. unfold deref. rewrite E. change (string (link _ _ _ (data t))) with (string (data t)). fold (matches key t).
  destruct (matches key t); [cbn; by rewrite Z.add_0_r |]. cbn [next link set_next]. rewrite (IH f (addr t)) by (done || cbn in F; lia).
  cbn [drop]. do 2 f_equal. lia.
Qed.

Lemma last_of_ok H l t : forall f pv, oks (nodes H) pv 0 (l ++ [t]) -> (length l < f)%nat -> last_of f (fst_addr 0 (l ++ [t])) H = Ret (addr t) H.
Proof.
  induction l as [|u l IH]; intros f pv O F; (destruct f as [|f]; [cbn in F; lia |]); cbn [last_of fst_addr app];
    destruct O as [O1 O2]; destruct (ok_addr _ _ _ _ O1) as [N E]; (rewrite (proj2 (Z.eqb_neq _ _) N));
    unfold load, mbind, M_bind, get; unfold deref; rewrite E; cbn [next link set_next]; [done |].
  assert (fst_addr 0 (l ++ [t]) <> 0) as N'.
  { destruct l as [|v l]; destruct O2 as [O2 _]; apply ok_addr in O2; tauto. }
  fold (app l [t]). destruct (Z.eqb_spec (fst_addr 0 (l ++ [t])) 0); [done |]. apply (IH f (addr u)); [done | cbn in F; lia].
Qed.

(** ** Operations *)

Definition same (X : list Z) (h h' : gmap Z node) : Prop := forall b, b ∉ X -> h !! b = h' !! b.

Lemma same_alter X h h' f p : p ∈ X -> same X h h' -> same X h (alter f p h').
Proof. intros I S b N. rewrite (S b N), lookup_alter_ne; [done |]. by intros ->. Qed.

Lemma same_refl X h : same X h h.
Proof. by intros b. Qed.

Lemma twp_load p n Q H : nodes H !! p = Some n -> Q n H -> twp (load p) Q H.
Proof. intros E Qn. unfold load, twp, mbind, M_bind, get, deref. by rewrite E. Qed.

Lemma insert_is_alter (h : gmap Z node) p n f : h !! p = Some n -> <[p := f n]> h = alter f p h.
Proof. intros E. apply map_eq. intros b. destruct (decide (b = p)) as [->|]; [by rewrite lookup_insert_eq, lookup_alter_eq, E | by rewrite lookup_insert_ne, lookup_alter_ne]. Qed.

Lemma twp_update p n f (Q : unit -> heap -> Prop) H : nodes H !! p = Some n -> Q tt (mk_heap (alter f p (nodes H)) (brk H)) -> twp (update p f) Q H.
Proof. intros E Qn. unfold update. apply twp_bind. eapply twp_load; [done |]. unfold twp, modify. by rewrite (insert_is_alter _ _ _ _ E). Qed.

Lemma twp_equal {A} (m : M heap A) Q H a H' : m H = Ret a H' -> Q a H' -> twp m Q H.
Proof. apply twp_returns. Qed.

Lemma fuel_ok H : fuel H = Ret (S (size (nodes H))) H.
Proof. done. Qed.

(** The children of an item in the heap fit the fuel. *)
Lemma kids_fuel h pv nx a d cs : NoDup (addrs (L a d cs)) -> ok h pv nx (L a d cs) -> (length cs < S (size h))%nat.
Proof.
  rewrite addrs_L, ok_L. intros [_ N]%NoDup_cons (_ & _ & O). pose proof (oks_size _ _ _ _ N O). pose proof (addrss_length cs). lia.
Qed.

Ltac twps := lazymatch goal with
  | |- twp (_ ≫= _) _ _ => apply twp_bind; twps
  | |- twp (load _) _ _ => eapply twp_load; [try eassumption | cbn beta]
  | |- twp fuel _ _ => eapply twp_equal; [apply fuel_ok | cbn beta; twps]
  | |- twp (update _ _) _ _ => eapply twp_update; [try eassumption | cbn beta]
  | |- twp (mret _) _ _ => cbn beta
  | _ => idtac
  end.

(** The item and its children after an update of the item's [child]. *)
Lemma ok_set_child h pv nx a d cs cs' : NoDup (a :: addrss cs') -> ok h pv nx (L a d cs) -> oks h 0 0 cs' ->
  ok (alter (set_child (fst_addr 0 cs')) a h) pv nx (L a d cs').
Proof.
  intros [N _]%NoDup_cons. rewrite !ok_L. intros (Z & E & _) O. split_and!; [done | by rewrite lookup_alter_eq, E |]. by apply oks_alter.
Qed.

Lemma AddItemToArray_ok H pv nx a d cs u : ok (nodes H) pv nx (L a d cs) -> ok (nodes H) 0 0 u -> NoDup (addrs (L a d (cs ++ [u]))) ->
  twp (cJSON_AddItemToArray a (addr u)) (fun _ H' => ok (nodes H') pv nx (L a d (cs ++ [u])) /\
    same (addrs (L a d (cs ++ [u]))) (nodes H) (nodes H') /\ brk H' = brk H) H.
Proof.
  intros O U ND. rewrite addrs_L in ND. pose proof O as (Za & E & Oc)%ok_L. destruct (ok_addr _ _ _ _ U) as [Zu Eu]. unfold cJSON_AddItemToArray. twps.
  rewrite (proj2 (Z.eqb_neq _ _) Zu). change (child (link _ _ ?c _)) with c.
  assert (a ∈ addrs (L a d (cs ++ [u]))) as Ia by left.
  destruct (decide (cs = [])) as [->|Ne].
  - cbn [fst_addr app]. rewrite Z.eqb_refl. twps. split_and!; [| by apply same_alter, same_refl | done]. cbn [nodes].
    apply (ok_set_child _ pv nx a d [] [u]); [done | done |]. by split.
  - destruct (exists_last Ne) as (l & t & ->). assert (fst_addr 0 (l ++ [t]) <> 0) as Zf.
    { destruct l as [|v l]; destruct Oc as [Oc _]; apply ok_addr in Oc; tauto. }
    rewrite (proj2 (Z.eqb_neq _ _) Zf). apply NoDup_cons in ND as [Na ND]. rewrite addrss_app in ND. apply NoDup_app in ND as (N1 & D & N2).
    rewrite addrss_cons in D, N2. apply NoDup_app in N2 as (N2 & _ & _).
    assert (NoDup (addrs (L a d (l ++ [t])))) as N3.
    { apply NoDup_cons. split; [| done]. intros I. apply Na. rewrite addrss_app. apply elem_of_app. by left. }
    pose proof (kids_fuel _ _ _ _ _ _ N3 O) as F. rewrite length_app in F. cbn in F. twps.
    eapply twp_equal; [apply (last_of_ok H l t _ 0); [done | lia] |]. unfold suffix_object.
    pose proof Oc as Oc'. apply oks_app in Oc' as [_ [Ot _]]. destruct (ok_addr _ _ _ _ Ot) as [_ Et].
    assert (addr u <> addr t) as Nut.
    { intros Eq. apply (D (addr t)); [apply addr_in_ss, elem_of_app; right; left | rewrite <- Eq; apply elem_of_app; left; apply addr_in]. }
    assert (addr t ∈ addrss (l ++ [t])) as It by (apply addr_in_ss, elem_of_app; right; left).
    twps. twps. { cbn [nodes]. rewrite lookup_alter_ne by done. exact Eu. } cbn [nodes brk].
    assert (forall x, x ∈ addrss (l ++ [t]) -> x <> a) as Nxa.
    { intros x Ix ->. apply Na. rewrite addrss_app. apply elem_of_app. by left. }
    assert (addr u <> a) as Nua by (intros <-; apply Na; rewrite addrss_app, addrss_cons; apply elem_of_app; right; apply elem_of_app; left; apply addr_in).
    split_and!; [| | done].
    + apply ok_L. split_and!; [done | |].
      * rewrite !lookup_alter_ne by (done || by apply Nxa). rewrite E. f_equal. destruct l; done.
      * apply oks_app. split.
        -- cbn [fst_addr]. apply oks_alter; [| by apply (oks_set_next _ _ 0)]. intros I. apply (D _ I), elem_of_app. left. apply addr_in.
        -- rewrite lst_addr_app. apply (oks_set_prev _ 0); [by rewrite addrss_cons, app_nil_r |]. split; [| done].
           apply ok_alter; [| done]. intros I. apply (D (addr t) It), elem_of_app. by left.
    + assert (forall x, x ∈ addrss ((l ++ [t]) ++ [u]) -> x ∈ addrs (L a d ((l ++ [t]) ++ [u]))) as Sub by (intros x I; by right).
      apply same_alter; [| apply same_alter; [| apply same_refl]]; apply Sub; rewrite addrss_app; apply elem_of_app; [right | by left].
      rewrite addrss_cons. apply elem_of_app. left. apply addr_in.
Qed.

(** [if (p) p->field = ...] *)
Definition alter_if (f : node -> node) (p : Z) (h : gmap Z node) : gmap Z node := if p =? 0 then h else alter f p h.

Lemma twp_update_if p f (Q : unit -> heap -> Prop) H : (p <> 0 -> is_Some (nodes H !! p)) -> Q tt (mk_heap (alter_if f p (nodes H)) (brk H)) ->
  twp (if p =? 0 then mret tt else update p f) Q H.
Proof.
  intros I Qn. unfold alter_if in Qn. destruct (Z.eqb_spec p 0); [by destruct H |]. destruct I as [m E]; [done |]. by eapply twp_update.
Qed.

Lemma lookup_alter_if_ne f p h b : (p <> 0 -> b <> p) -> alter_if f p h !! b = h !! b.
Proof. intros N. unfold alter_if. destruct (Z.eqb_spec p 0); [done |]. rewrite lookup_alter_ne; [done |]. intros ->. by apply N. Qed.

Lemma oks_alter_if h f p l pv nx : (p <> 0 -> p ∉ addrss l) -> oks h pv nx l -> oks (alter_if f p h) pv nx l.
Proof. unfold alter_if. destruct (Z.eqb_spec p 0); [done |]. intros N. apply oks_alter. auto. Qed.

Lemma ok_alter_if h f p t pv nx : (p <> 0 -> p ∉ addrs t) -> ok h pv nx t -> ok (alter_if f p h) pv nx t.
Proof. unfold alter_if. destruct (Z.eqb_spec p 0); [done |]. intros N. apply ok_alter. auto. Qed.

Lemma same_alter_if X h h' f p : (p <> 0 -> p ∈ X) -> same X h h' -> same X h (alter_if f p h').
Proof. intros I S. unfold alter_if. destruct (Z.eqb_spec p 0); [done |]. apply same_alter; auto. Qed.

(** The ends of a list of items. *)
Lemma lst_addr_in pv l : lst_addr pv l = pv /\ l = [] \/ exists l' t, l = l' ++ [t] /\ lst_addr pv l = addr t.
Proof.
  destruct (decide (l = [])) as [->|N]; [by left | right]. destruct (exists_last N) as (l' & t & ->). exists l', t. by rewrite lst_addr_app.
Qed.

Lemma lst_addr_ss l : lst_addr 0 l <> 0 -> lst_addr 0 l ∈ addrss l.
Proof. intros N. destruct (lst_addr_in 0 l) as [[E _]|(l' & t & -> & ->)]; [done |]. apply addr_in_ss, elem_of_app. right. left. Qed.

Lemma fst_addr_ss l : fst_addr 0 l <> 0 -> fst_addr 0 l ∈ addrss l.
Proof. destruct l as [|t l]; [done |]. intros _. apply addr_in_ss. left. Qed.

Lemma oks_relink_last h nx nx' l : NoDup (addrss l) -> oks h 0 nx l -> oks (alter_if (set_next nx') (lst_addr 0 l) h) 0 nx' l.
Proof.
  intros N O. destruct (lst_addr_in 0 l) as [[-> ->]|(l' & t & -> & ->)]; [done |]. unfold alter_if.
  pose proof O as [_ [Ot _]]%oks_app. apply ok_addr in Ot as [Zt _]. rewrite (proj2 (Z.eqb_neq _ _) Zt). by apply (oks_set_next _ _ nx).
Qed.

Lemma oks_relink_first h pv pv' l : NoDup (addrss l) -> oks h pv 0 l -> oks (alter_if (set_prev pv') (fst_addr 0 l) h) pv' 0 l.
Proof.
  intros N O. destruct l as [|t l]; [done |]. cbn [fst_addr]. unfold alter_if. pose proof O as [Ot _]. apply ok_addr in Ot as [Zt _].
  rewrite (proj2 (Z.eqb_neq _ _) Zt). by apply (oks_set_prev _ pv).
Qed.

Lemma oks_fst_dom h pv nx l : oks h pv nx l -> fst_addr 0 l <> 0 -> is_Some (h !! fst_addr 0 l).
Proof. intros O N. eapply oks_dom; [done | by apply fst_addr_ss]. Qed.

Lemma oks_lst_dom h pv nx l : oks h pv nx l -> lst_addr 0 l <> 0 -> is_Some (h !! lst_addr 0 l).
Proof. intros O N. eapply oks_dom; [done | by apply lst_addr_ss]. Qed.

(** The pieces of an item with a child in the middle. *)
Lemma split_nodup a l1 t l2 : NoDup (a :: addrss (l1 ++ t :: l2)) ->
  NoDup (addrss l1) /\ NoDup (addrs t) /\ NoDup (addrss l2) /\ NoDup (a :: addrss (l1 ++ l2)) /\
  (forall x, x ∈ addrss l1 -> x <> a /\ (x ∉ addrs t) /\ (x ∉ addrss l2)) /\
  (forall x, x ∈ addrs t -> x <> a /\ (x ∉ addrss l1) /\ (x ∉ addrss l2)) /\
  (forall x, x ∈ addrss l2 -> x <> a /\ (x ∉ addrss l1) /\ (x ∉ addrs t)).
Proof.
  rewrite !addrss_app, addrss_cons. intros [Na N]%NoDup_cons. rewrite !elem_of_app in Na. apply NoDup_app in N as (N1 & D1 & N).
  apply NoDup_app in N as (Nt & Dt & N2). setoid_rewrite elem_of_app in D1.
  assert (forall x, x ∈ addrss l1 -> (x ∉ addrs t) /\ (x ∉ addrss l2)) as D1' by (intros x I; specialize (D1 x I); tauto).
  split_and!; try done.
  - apply NoDup_cons. rewrite elem_of_app, NoDup_app. naive_solver.
  - intros x I. split; [| auto]. intros ->. tauto.
  - intros x I. split_and!; [intros ->; tauto | | auto]. intros I'. destruct (D1' x I'); done.
  - intros x I. split_and!; [intros ->; tauto | |]; intros I'; [destruct (D1' x I'); done | by apply Dt in I'].
Qed.

(** ** Deleting *)

(** No item of the tree is a reference. *)
Fixpoint no_ref (t : ltree) : bool :=
  let '(L _ d cs) := t in (Z.land (type d) cJSON_IsReference =? 0) && forallb no_ref cs.

Definition without (X : list Z) (h : gmap Z node) : gmap Z node := filter (fun '(b, _) => b ∉ X) h.

Lemma lookup_without X h b : without X h !! b = if bool_decide (b ∈ X) then None else h !! b.
Proof.
  unfold without. destruct (bool_decide_reflect (b ∈ X)).
  - apply map_lookup_filter_None. right. by intros n _ F.
  - destruct (h !! b) eqn:E; [by apply map_lookup_filter_Some | by apply map_lookup_filter_None; left].
Qed.

Lemma without_app X Y h : without Y (without X h) = without (X ++ Y) h.
Proof. apply map_eq. intros b. rewrite !lookup_without. repeat case_bool_decide; set_solver. Qed.

Lemma delete_loop_ok : forall f l h k pv, oks h pv 0 l -> NoDup (addrss l) -> forallb no_ref l = true -> (length (addrss l) < f)%nat ->
  delete_loop f (fst_addr 0 l) (mk_heap h k) = Ret tt (mk_heap (without (addrss l) h) k).
Proof.
  induction f as [|f IH]; intros l h k pv O N R F; [lia |]. destruct l as [|[a d cs] l]; cbn [delete_loop fst_addr addr].
  { cbn. do 2 f_equal. apply map_eq. intros b. rewrite lookup_without. case_bool_decide; set_solver. }
  destruct O as [(Za & E & Oc)%ok_L Ol]. rewrite addrss_cons, addrs_L, length_app in F. cbn [length] in F.
  cbn [forallb no_ref] in R. apply andb_true_iff in R as [[Rd Rc]%andb_true_iff Rl]. rewrite (proj2 (Z.eqb_neq _ _) Za).
  rewrite addrss_cons, addrs_L in N. apply NoDup_app in N as ([Na Nc]%NoDup_cons & D & Nl).
  unfold load, mbind, M_bind, get, deref. cbn [nodes]. rewrite E. change (type (link _ _ _ d)) with (type d). change (child (link _ _ ?x _)) with x. rewrite Rd. cbn [andb].
  assert ((if negb (fst_addr 0 cs =? 0) then delete_loop f (fst_addr 0 cs) else mret tt) (mk_heap h k) = Ret tt (mk_heap (without (addrss cs) h) k)) as ->.
  { destruct (Z.eqb_spec (fst_addr 0 cs) 0) as [E0|]; cbn [negb]; [| by apply (IH cs h k 0); [..| lia]].
    destruct cs as [|t cs]; [| by destruct Oc as [[? _]%ok_addr _]]. cbn. do 2 f_equal. apply map_eq. intros b. rewrite lookup_without. case_bool_decide; set_solver. }
  unfold free, load, mbind, M_bind, get, deref, modify. cbn [nodes]. rewrite lookup_without, bool_decide_false, E by done. cbn [next link set_next brk].
  replace (delete a (without (addrss cs) h)) with (without (addrs (L a d cs)) h).
  - rewrite (IH l _ k a); [| | done.. | lia].
    + by rewrite without_app.
    + eapply oks_frame; [| exact Ol]. intros b I. rewrite lookup_without, bool_decide_false; [done |]. intros I'. by apply (D b I').
  - apply map_eq. intros b. rewrite lookup_without, addrs_L. destruct (decide (b = a)) as [->|Nb]; [rewrite lookup_delete_eq, bool_decide_true by left; done |].
    rewrite lookup_delete_ne, lookup_without by done. repeat case_bool_decide; set_solver.
Qed.

Lemma delete_ok H t : ok (nodes H) 0 0 t -> NoDup (addrs t) -> no_ref t = true ->
  cJSON_Delete (addr t) H = Ret tt (mk_heap (without (addrs t) (nodes H)) (brk H)).
Proof.
  intros O N R. unfold cJSON_Delete, mbind, M_bind. rewrite fuel_ok. destruct H as [h k]. cbn [nodes brk] in *.
  assert (addrss [t] = addrs t) as E by (rewrite addrss_cons; apply app_nil_r). rewrite <- E in N |- *.
  apply (delete_loop_ok (S (size h)) [t] h k 0); [done | done | cbn; by rewrite R |]. assert (length (addrss [t]) <= size h)%nat; [| lia].
  apply (oks_size h 0 0); done.
Qed.

(** ** Detaching and replacing *)

Lemma fst_addr_app nx l1 l2 : fst_addr nx (l1 ++ l2) = fst_addr (fst_addr nx l2) l1.
Proof. by destruct l1. Qed.

(** The item that [walk] stops at. *)
Lemma walk_kids H pv nx a d cs item : NoDup (addrs (L a d cs)) -> ok (nodes H) pv nx (L a d cs) ->
  walk (S (size (nodes H))) item (fst_addr 0 cs) H = Ret (fst_addr 0 (drop (Z.to_nat item) cs)) H.
Proof. intros N O. eapply walk_ok; [apply ok_L in O as (_ & _ & O); exact O |]. by eapply kids_fuel. Qed.

Lemma lookup_alter2 (h : gmap Z node) p f n : h !! p = Some n -> alter f p h !! p = Some (f n).
Proof. intros E. by rewrite lookup_alter_eq, E. Qed.

Lemma out_of (p b : Z) (X : list Z) : (p <> 0 -> p ∈ X) -> (b ∉ X) -> p <> 0 -> b <> p.
Proof. intros I N Z ->. by apply N, I. Qed.

(** An item [t] in the middle of the children of [a], while its neighbours are
    changed: the children in front of it end with the pointer [x], those behind
    it start with [y]. *)
Section middle.
Context (a : Z) (d : node) (l1 l2 : list ltree) (t : ltree).
Hypothesis (N : NoDup (addrs (L a d (l1 ++ t :: l2)))).

Definition pieces (h : gmap Z node) (x p q y : Z) : Prop := oks h 0 x l1 /\ ok h p q t /\ oks h y 0 l2.

Lemma pieces_of h pv nx : ok h pv nx (L a d (l1 ++ t :: l2)) -> pieces h (addr t) (lst_addr 0 l1) (fst_addr 0 l2) (addr t).
Proof. intros (_ & _ & Oc)%ok_L. by apply oks_app in Oc as [O1 [Ot O2]]. Qed.

Lemma pieces_next h x p q y v : pieces h x p q y -> let h1 := alter_if (set_next v) (lst_addr 0 l1) h in
  h1 !! a = h !! a /\ h1 !! addr t = h !! addr t /\ pieces h1 v p q y.
Proof.
  intros (O1 & Ot & O2) h1. pose proof N as N'. rewrite addrs_L in N'. destruct (split_nodup a l1 t l2 N') as (N1 & _ & _ & _ & D1 & _ & _).
  pose proof (lst_addr_ss l1) as I1. unfold pieces. split_and!.
  - eapply lookup_alter_if_ne, out_of; [done |]. intros I. by destruct (D1 _ I).
  - eapply lookup_alter_if_ne, out_of; [done |]. intros I. destruct (D1 _ I) as (_ & T & _). apply T, addr_in.
  - by apply (oks_relink_last _ x).
  - apply ok_alter_if; [intros Ne; by destruct (D1 _ (I1 Ne)) as (_ & ? & _) | done].
  - apply oks_alter_if; [intros Ne; by destruct (D1 _ (I1 Ne)) as (_ & _ & ?) | done].
Qed.

Lemma pieces_prev h x p q y v : pieces h x p q y -> let h1 := alter_if (set_prev v) (fst_addr 0 l2) h in
  h1 !! a = h !! a /\ h1 !! addr t = h !! addr t /\ pieces h1 x p q v.
Proof.
  intros (O1 & Ot & O2) h1. pose proof N as N'. rewrite addrs_L in N'. destruct (split_nodup a l1 t l2 N') as (_ & _ & N2 & _ & _ & _ & D2).
  pose proof (fst_addr_ss l2) as I2. unfold pieces. split_and!.
  - eapply lookup_alter_if_ne, out_of; [done |]. intros I. by destruct (D2 _ I).
  - eapply lookup_alter_if_ne, out_of; [done |]. intros I. destruct (D2 _ I) as (_ & _ & T). apply T, addr_in.
  - apply oks_alter_if; [intros Ne; by destruct (D2 _ (I2 Ne)) as (_ & ? & _) | done].
  - apply ok_alter_if; [intros Ne; by destruct (D2 _ (I2 Ne)) as (_ & _ & ?) | done].
  - by apply (oks_relink_first _ y).
Qed.

Lemma pieces_child h x p q y v : pieces h x p q y -> pieces (alter (set_child v) a h) x p q y.
Proof.
  intros (O1 & Ot & O2). pose proof N as N'. rewrite addrs_L in N'. destruct (split_nodup a l1 t l2 N') as (_ & _ & _ & _ & D1 & Dt & D2).
  unfold pieces. split_and!; [apply oks_alter | apply ok_alter | apply oks_alter]; try done; intros I; [by destruct (D1 _ I) | by destruct (Dt _ I) | by destruct (D2 _ I)].
Qed.

(** The pointers of [t] itself. *)
Lemma pieces_root h x p q y p' q' : pieces h x p q y -> pieces (alter (set_prev p') (addr t) (alter (set_next q') (addr t) h)) x p' q' y.
Proof.
  intros (O1 & Ot & O2). pose proof N as N'. rewrite addrs_L in N'. destruct (split_nodup a l1 t l2 N') as (_ & Nt & _ & _ & _ & Dt & _).
  destruct (Dt _ (addr_in t)) as (_ & T1 & T2). unfold pieces. split_and!; [by repeat apply oks_alter | | by repeat apply oks_alter].
  destruct (ok_addr _ _ _ _ Ot) as [_ E]. apply (ok_relink h _ p q); [| | done].
  - intros b I. assert (addr t <> b) by (intros <-; by apply root_not_in_kids in Nt). by rewrite !lookup_alter_ne by done.
  - by rewrite (lookup_alter2 _ _ _ _ (lookup_alter2 _ _ _ _ E)).
Qed.

Lemma middle_in : a ∈ addrs (L a d (l1 ++ t :: l2)) /\ addr t ∈ addrs (L a d (l1 ++ t :: l2)) /\
  (lst_addr 0 l1 <> 0 -> lst_addr 0 l1 ∈ addrs (L a d (l1 ++ t :: l2))) /\ (fst_addr 0 l2 <> 0 -> fst_addr 0 l2 ∈ addrs (L a d (l1 ++ t :: l2))).
Proof.
  rewrite addrs_L, addrss_app, addrss_cons. pose proof (lst_addr_ss l1). pose proof (fst_addr_ss l2). pose proof (addr_in t).
  setoid_rewrite elem_of_cons. setoid_rewrite elem_of_app. setoid_rewrite elem_of_app. naive_solver.
Qed.

(** Whether [t] is the first child. *)
Lemma first_or_not : (l1 = [] /\ (addr t =? fst_addr 0 (l1 ++ t :: l2)) = true) \/
  (l1 <> [] /\ (addr t =? fst_addr 0 (l1 ++ t :: l2)) = false /\ forall l, fst_addr 0 (l1 ++ t :: l2) = fst_addr 0 (l1 ++ l)).
Proof.
  destruct l1 as [|t1 l] eqn:E; [left; cbn; by rewrite Z.eqb_refl | right]. split_and!; [done | | done]. cbn [app fst_addr]. apply Z.eqb_neq. intros Eq.
  rewrite addrs_L in N. destruct (split_nodup _ _ _ _ N) as (_ & _ & _ & _ & _ & Dt & _). destruct (Dt _ (addr_in t)) as (_ & T1 & _).
  apply T1. rewrite Eq. apply addr_in_ss. left.
Qed.
End middle.

Lemma Detach_ok H pv nx a d l1 t l2 which : ok (nodes H) pv nx (L a d (l1 ++ t :: l2)) -> NoDup (addrs (L a d (l1 ++ t :: l2))) ->
  Z.to_nat which = length l1 ->
  twp (cJSON_DetachItemFromArray a which) (fun c H' => c = addr t /\ ok (nodes H') pv nx (L a d (l1 ++ l2)) /\ ok (nodes H') 0 0 t /\
    same (addrs (L a d (l1 ++ t :: l2))) (nodes H) (nodes H') /\ brk H' = brk H) H.
Proof.
  intros O N W. pose proof O as (Za & E & _)%ok_L. destruct (middle_in a d l1 l2 t) as (Ia & It & I1 & I2).
  pose proof (pieces_of _ _ _ _ _ _ _ _ O) as P0. destruct P0 as (O1 & Ot & O2) eqn:EP. clear EP. destruct (ok_addr _ _ _ _ Ot) as [Zt Et].
  unfold cJSON_DetachItemFromArray. twps. twps. change (child (link _ _ ?c _)) with c. eapply twp_equal; [by apply (walk_kids H pv nx a d) |].
  rewrite W, drop_app_length. cbn [fst_addr]. rewrite (proj2 (Z.eqb_neq _ _) Zt). twps. twps. change (prev (link ?p _ _ _)) with p. change (next (link _ ?x _ _)) with x.
  apply twp_update_if; [by apply (oks_lst_dom _ _ _ _ O1) |].
  destruct (pieces_next a d l1 l2 t N _ _ _ _ _ (fst_addr 0 l2) (conj O1 (conj Ot O2))) as (Ea1 & Et1 & P1).
  twps; [cbn [nodes]; by rewrite Et1 |]. twps. change (prev (link ?p _ _ _)) with p. change (next (link _ ?x _ _)) with x.
  apply twp_update_if; [cbn [nodes]; destruct P1 as (_ & _ & O2'); by apply (oks_fst_dom _ _ _ _ O2') |]. cbn [nodes brk].
  destruct (pieces_prev a d l1 l2 t N _ _ _ _ _ (lst_addr 0 l1) P1) as (Ea2 & Et2 & P2). rewrite Ea1 in Ea2. rewrite Et1 in Et2.
  assert (same (addrs (L a d (l1 ++ t :: l2))) (nodes H) (alter_if (set_prev (lst_addr 0 l1)) (fst_addr 0 l2) (alter_if (set_next (fst_addr 0 l2)) (lst_addr 0 l1) (nodes H)))) as S2
    by (apply same_alter_if; [done |]; apply same_alter_if; [done | apply same_refl]).
  set (h2 := alter_if _ _ (alter_if _ _ _)) in *. clearbody h2.
  twps; [cbn [nodes]; by rewrite Ea2 |]. twps; [cbn [nodes]; by rewrite Et2 |]. twps. change (child (link _ _ ?c _)) with c. change (next (link _ ?x _ _)) with x.
  assert (exists h3, (forall Q : unit -> heap -> Prop, Q tt (mk_heap h3 (brk H)) ->
      twp (if addr t =? fst_addr 0 (l1 ++ t :: l2) then update a (set_child (fst_addr 0 l2)) else mret tt) Q (mk_heap h2 (brk H))) /\
    h3 !! a = Some (link pv nx (fst_addr 0 (l1 ++ l2)) d) /\ pieces l1 l2 t h3 (fst_addr 0 l2) (lst_addr 0 l1) (fst_addr 0 l2) (lst_addr 0 l1) /\
    same (addrs (L a d (l1 ++ t :: l2))) (nodes H) h3) as (h3 & Tw & Ea3 & P3 & S3).
  { destruct (first_or_not a d l1 l2 t N) as [(-> & ->)|(_ & -> & Ef)].
    - eexists. split_and!; [intros Q HQ; eapply twp_update; [cbn [nodes]; by rewrite Ea2 | exact HQ] | by rewrite (lookup_alter2 _ _ _ _ (eq_trans Ea2 E)) | by apply (pieces_child a d) | by apply same_alter].
    - exists h2. rewrite <- Ef. split_and!; [done | by rewrite Ea2 | done | done]. }
  apply Tw. destruct P3 as (A1 & A2 & A3) eqn:EP. clear EP. destruct (ok_addr _ _ _ _ A2) as [_ E3]. twps. twps; [cbn [nodes]; by apply lookup_alter2 |].
  destruct (pieces_root a d l1 l2 t N _ _ _ _ _ 0 0 (conj A1 (conj A2 A3))) as (B1 & B2 & B3).
  split_and!; [done | | done | by repeat apply same_alter | done]; cbn [nodes].
  apply ok_L. split_and!; [done | | by apply oks_app]. rewrite !lookup_alter_ne; [done | |];
    pose proof N as N'; rewrite addrs_L in N'; destruct (split_nodup a l1 t l2 N') as (_ & _ & _ & _ & _ & Dt & _); by destruct (Dt _ (addr_in t)).
Qed.

Lemma AddItemToArrayHead_ok H pv nx a d cs u : ok (nodes H) pv nx (L a d cs) -> ok (nodes H) 0 0 u -> NoDup (addrs (L a d (u :: cs))) ->
  twp (cJSON_AddItemToArrayHead a (addr u)) (fun _ H' => ok (nodes H') pv nx (L a d (u :: cs)) /\
    same (addrs (L a d (u :: cs))) (nodes H) (nodes H') /\ brk H' = brk H) H.
Proof.
  intros O U ND. pose proof ND as N'. rewrite addrs_L in N'. destruct (split_nodup a [] u cs N') as (_ & Nu & Nc & Nac & _ & Du & Dc).
  pose proof O as (Za & E & Oc)%ok_L. destruct (ok_addr _ _ _ _ U) as [Zu Eu]. destruct (Du _ (addr_in u)) as (Ua & _ & Uc).
  destruct (middle_in a d [] cs u) as (Ia & Iu & _ & _). unfold cJSON_AddItemToArrayHead. twps.
  rewrite (proj2 (Z.eqb_neq _ _) Zu). change (child (link _ _ ?c _)) with c. destruct cs as [|c cs]; cbn [fst_addr].
  - rewrite Z.eqb_refl. twps. split_and!; [| by apply same_alter, same_refl | done]. cbn [nodes]. apply (ok_set_child _ pv nx a d [] [u]); [done | done |]. by split.
  - pose proof Oc as [Oc1 _]. destruct (ok_addr _ _ _ _ Oc1) as [Zc Ec]. rewrite (proj2 (Z.eqb_neq _ _) Zc).
    assert (addr c ∈ addrss (c :: cs)) as Ic by (apply addr_in_ss; left). assert (addr u <> addr c) as Nuc by (intros Eq; apply Uc; by rewrite Eq).
    destruct (Dc _ Ic) as (Nca & _). twps. change (prev (link ?p _ _ _)) with p.
    twps. twps; [cbn [nodes]; by apply lookup_alter2 |]. twps; [cbn [nodes]; by rewrite !lookup_alter_ne |].
    twps; [cbn [nodes]; by rewrite !lookup_alter_ne |]. cbn [nodes brk]. split_and!; [| | done]; cbn [nodes].
    + apply ok_L. split_and!; [done | |].
      * rewrite lookup_alter_eq, !lookup_alter_ne by done. by rewrite E.
      * apply oks_alter; [by apply NoDup_cons in N' as [? _] |]. split; [| apply (oks_set_prev _ 0); [done |]; by repeat apply oks_alter].
        cbn [fst_addr]. apply (ok_relink (nodes H) _ 0 0); [| | done].
        -- intros b I. assert (addr u <> b) by (intros <-; by apply root_not_in_kids in Nu). rewrite !lookup_alter_ne; [done.. |]. intros <-.
           destruct (Dc _ Ic) as (_ & _ & Nx). apply Nx. destruct u as [x y z]. by right.
        -- rewrite lookup_alter_ne by done. by rewrite (lookup_alter2 _ _ _ _ (lookup_alter2 _ _ _ _ Eu)).
    + assert (addr c ∈ addrs (L a d (u :: c :: cs))) as Ic' by (rewrite addrs_L, addrss_cons; right; apply elem_of_app; by right).
      by repeat (apply same_alter; [done |]).
Qed.

Lemma ReplaceItemInArray_ok H pv nx a d l1 t l2 which u : ok (nodes H) pv nx (L a d (l1 ++ t :: l2)) -> NoDup (addrs (L a d (l1 ++ t :: l2))) ->
  Z.to_nat which = length l1 -> no_ref t = true -> ok (nodes H) 0 0 u -> NoDup (addrs (L a d (l1 ++ u :: l2))) -> (forall x, x ∈ addrs t -> x ∉ addrs u) ->
  twp (cJSON_ReplaceItemInArray a which (addr u)) (fun _ H' => ok (nodes H') pv nx (L a d (l1 ++ u :: l2)) /\
    (forall x, x ∈ addrs t -> nodes H' !! x = None) /\ same (addrs t ++ addrs (L a d (l1 ++ u :: l2))) (nodes H) (nodes H') /\ brk H' = brk H) H.
Proof.
  intros O N W R U Nu Du. pose proof O as (Za & E & _)%ok_L. destruct (middle_in a d l1 l2 t) as (Ia & It & I1 & I2).
  pose proof (pieces_of _ _ _ _ _ _ _ _ O) as (O1 & Ot & O2). destruct (ok_addr _ _ _ _ Ot) as [Zt Et]. destruct (ok_addr _ _ _ _ U) as [Zu Eu].
  pose proof Nu as Nu'. rewrite addrs_L in Nu'. destruct (split_nodup a l1 u l2 Nu') as (_ & Ndu & _ & _ & D1u & Duu & D2u). destruct (Duu _ (addr_in u)) as (Ua & U1 & U2).
  unfold cJSON_ReplaceItemInArray. twps. twps. change (child (link _ _ ?c _)) with c. eapply twp_equal; [by apply (walk_kids H pv nx a d) |].
  rewrite W, drop_app_length. cbn [fst_addr]. rewrite (proj2 (Z.eqb_neq _ _) Zt). twps. twps. change (prev (link ?p _ _ _)) with p. change (next (link _ ?x _ _)) with x.
  twps; [cbn [nodes]; by apply lookup_alter2 |]. twps; [cbn [nodes]; by apply lookup_alter2, lookup_alter2 |]. cbn [nodes brk].
  destruct (middle_in a d l1 l2 u) as (Ja & Ju & J1 & J2). set (X := addrs (L a d (l1 ++ u :: l2))) in *.
  pose proof (pieces_root a d l1 l2 u Nu _ _ _ _ _ (lst_addr 0 l1) (fst_addr 0 l2) (conj O1 (conj U O2))) as P1.
  assert (same X (nodes H) (alter (set_prev (lst_addr 0 l1)) (addr u) (alter (set_next (fst_addr 0 l2)) (addr u) (nodes H)))) as S1
    by (apply same_alter; [done |]; by apply same_alter, same_refl).
  assert (alter (set_prev (lst_addr 0 l1)) (addr u) (alter (set_next (fst_addr 0 l2)) (addr u) (nodes H)) !! a = nodes H !! a) as Ea1 by (by rewrite !lookup_alter_ne).
  set (h1 := alter _ _ (alter _ _ _)) in *. clearbody h1. change (next (set_prev _ (set_next ?x _))) with x. destruct P1 as (A1 & A2 & A3).
  twps. apply twp_update_if; [cbn [nodes]; by apply (oks_fst_dom _ _ _ _ A3) |]. cbn [nodes brk].
  destruct (pieces_prev a d l1 l2 u Nu _ _ _ _ _ (addr u) (conj A1 (conj A2 A3))) as (Ea2 & _ & P2). rewrite Ea1 in Ea2.
  assert (same X (nodes H) (alter_if (set_prev (addr u)) (fst_addr 0 l2) h1)) as S2 by (by apply same_alter_if).
  set (h2 := alter_if _ _ h1) in *. clearbody h2. twps; [cbn [nodes]; by rewrite Ea2 |]. change (child (link _ _ ?c _)) with c.
  assert (exists h3, (forall Q : unit -> heap -> Prop, Q tt (mk_heap h3 (brk H)) -> twp (if addr t =? fst_addr 0 (l1 ++ t :: l2) then update a (set_child (addr u))
        else m ← load (addr u); update (prev m) (set_next (addr u))) Q (mk_heap h2 (brk H))) /\
    h3 !! a = Some (link pv nx (fst_addr 0 (l1 ++ u :: l2)) d) /\ pieces l1 l2 u h3 (addr u) (lst_addr 0 l1) (fst_addr 0 l2) (addr u) /\ same X (nodes H) h3)
    as (h3 & Tw & Ea3 & (B1 & B2 & B3) & S3).
  { destruct (first_or_not a d l1 l2 t N) as [(-> & ->)|(Ne & -> & Ef)].
    - exists (alter (set_child (addr u)) a h2). destruct P2 as (_ & B2 & B3). split_and!; [| | | by apply same_alter].
      + intros Q HQ. eapply twp_update; [cbn [nodes]; by rewrite Ea2 | exact HQ].
      + by rewrite (lookup_alter2 _ _ _ _ (eq_trans Ea2 E)).
      + by apply (pieces_child a d).
    - assert (lst_addr 0 l1 <> 0) as Zl.
      { destruct (lst_addr_in 0 l1) as [[_ ?]|(l' & v & -> & ->)]; [done |]. apply oks_app in O1 as [_ [Ov _]]. by apply ok_addr in Ov as [? _]. }
      destruct P2 as (B1 & B2 & B3). destruct (ok_addr _ _ _ _ B2) as [_ Eu2]. destruct (oks_lst_dom _ _ _ _ B1 Zl) as [m Em].
      destruct (pieces_next a d l1 l2 u Nu _ _ _ _ _ (addr u) (conj B1 (conj B2 B3))) as (Ea3 & _ & P3). unfold alter_if in Ea3, P3. rewrite (proj2 (Z.eqb_neq _ _) Zl) in Ea3, P3.
      eexists. split_and!; [| | exact P3 | by apply same_alter; [apply J1 |]].
      + intros Q HQ. twps. eapply (twp_update (lst_addr 0 l1)); [exact Em | exact HQ].
      + rewrite Ea3, Ea2, <- Ef. exact E. }
  twps. apply Tw. assert (forall x, x ∈ addrs t -> x ∉ X) as Tx.
  { intros x Ix. subst X. rewrite addrs_L, addrss_app, addrss_cons, elem_of_cons, !elem_of_app. pose proof N as N'. rewrite addrs_L in N'.
    destruct (split_nodup a l1 t l2 N') as (_ & _ & _ & _ & _ & Dt & _). destruct (Dt _ Ix) as (? & ? & ?). pose proof (Du _ Ix). tauto. }
  assert (ok h3 (lst_addr 0 l1) (fst_addr 0 l2) t) as O3 by (apply (ok_frame (nodes H)); [intros x Ix; by apply S3, Tx | done]).
  destruct (ok_addr _ _ _ _ O3) as [_ E3]. twps. twps; [cbn [nodes]; by apply lookup_alter2 |]. cbn [nodes brk].
  assert (NoDup (addrs t)) as Nt by (pose proof N as N'; rewrite addrs_L in N'; by destruct (split_nodup a l1 t l2 N') as (_ & ? & _)).
  set (h4 := alter (set_next 0) (addr t) (alter (set_prev 0) (addr t) h3)). assert (ok h4 0 0 t) as O4.
  { subst h4. apply (ok_relink h3 _ (lst_addr 0 l1) (fst_addr 0 l2)); [| | done].
    - intros b I. assert (addr t <> b) by (intros <-; by apply root_not_in_kids in Nt). by rewrite !lookup_alter_ne by done.
    - by rewrite (lookup_alter2 _ _ _ _ (lookup_alter2 _ _ _ _ E3)). }
  eapply twp_equal; [by apply (delete_ok (mk_heap h4 (brk H)) t) |]. cbn [nodes brk].
  assert (forall x, x ∉ addrs t -> without (addrs t) h4 !! x = h3 !! x) as Wo.
  { intros x Nx. rewrite lookup_without, bool_decide_false by done. subst h4. rewrite !lookup_alter_ne; [done | |]; intros <-; by apply Nx, addr_in. }
  split_and!; [| | | done].
  - apply (ok_frame h3); [intros x Ix; symmetry; apply Wo; intros It'; by apply (Tx x) |]. apply ok_L. split_and!; [done.. |]. by apply oks_app.
  - intros x Ix. by rewrite lookup_without, bool_decide_true.
  - intros x Nx. apply not_elem_of_app in Nx as [Nx1 Nx2]. cbn [nodes]. rewrite Wo by done. by apply S3.
Qed.

End CJsonHeap.
