(* ===== verification/CJsonObject.v ===== *)
(** * CJsonObject: the C++ wrapper around cJSON

    Model of [util/json/CJsonObject.cpp].  An object owns a tree of items
    ([m_pJsonData]) or points into the tree of another object
    ([m_pExternJsonDataRef]), and keeps the wrappers it has handed out for its
    children in two maps.  Items and wrappers live in the heap; following a
    pointer to one that is gone is undefined behaviour.  A method that fills a
    reference parameter returns the value it sets, [None] for [false]. *)

From S2P Require Import Prelude Util Effect CFloat CJson CJsonHeap.
From Stdlib Require Import SpecFloat.
Import Util CFloat CJsonHeap.

#[local] Open Scope Z_scope.

Module CJsonObject.

Record obj := mk_obj {
  m_pJsonData : Z;
  m_pExternJsonDataRef : Z;
  m_strErrMsg : bytes;
  m_mapJsonArrayRef : gmap Z Z;
  m_mapJsonObjectRef : gmap bytes Z }.

(** The items, the wrappers, the address of the next wrapper. *)
Record state := mk_state { items : heap; objs : gmap Z obj; obrk : Z }.

Definition set_data v (o : obj) := mk_obj v (m_pExternJsonDataRef o) (m_strErrMsg o) (m_mapJsonArrayRef o) (m_mapJsonObjectRef o).
Definition set_extern v (o : obj) := mk_obj (m_pJsonData o) v (m_strErrMsg o) (m_mapJsonArrayRef o) (m_mapJsonObjectRef o).
Definition set_err v (o : obj) := mk_obj (m_pJsonData o) (m_pExternJsonDataRef o) v (m_mapJsonArrayRef o) (m_mapJsonObjectRef o).
Definition set_array_ref v (o : obj) := mk_obj (m_pJsonData o) (m_pExternJsonDataRef o) (m_strErrMsg o) v (m_mapJsonObjectRef o).
Definition set_object_ref v (o : obj) := mk_obj (m_pJsonData o) (m_pExternJsonDataRef o) (m_strErrMsg o) (m_mapJsonArrayRef o) v.

Definition obj_of (this : Z) : M state obj := s ← get; deref (objs s !! this).
Definition update_obj (this : Z) (f : obj -> obj) : M state unit :=
  o ← obj_of this; modify (fun s => mk_state (items s) (<[this := f o]> (objs s)) (obrk s)).

(** Work on the items. *)
Definition on_items {A} (m : M heap A) : M state A := fun s =>
  match m (items s) with
  | Ret a h => Ret a (mk_state h (objs s) (obrk s))
  | Block h => Block (mk_state h (objs s) (obrk s))
  | Undef => Undef
  end.

(** ** Trees in the heap and trees of the parser *)

(** The addresses that the parser's allocations give to a tree. *)
Fixpoint label (n : Z) (t : CJson.cJSON) : ltree * Z :=
  let '(CJson.mk_item ty s i d g k cs) := t in
  let '(l, n') :=
    (fix labels n cs := match cs with
       | [] => ([], n)
       | c :: cs => let '(t, n) := label n c in let '(l, n) := labels n cs in (t :: l, n)
       end) (n + 1) cs in
  (L n (mk_node 0 0 0 ty s i d g k) l, n').

Fixpoint put_tree (pv nx : Z) (t : ltree) (h : gmap Z node) : gmap Z node :=
  let '(L a d cs) := t in
  (fix puts pv cs h := match cs with
     | [] => h
     | c :: cs => puts (addr c) cs (put_tree pv (fst_addr 0 cs) c h)
     end) 0 cs (<[a := link pv nx (fst_addr 0 cs) d]> h).

(** [cJSON_Parse]: the root, or what is left of the text at the error. *)
Definition cJSON_Parse `{CJson.Libm} (text : bytes) : M heap (Z + bytes) := fun h =>
  match CJson.cJSON_Parse text with
  | None => Undef
  | Some None => Block h
  | Some (Some (inr ep)) => Ret (inr (c_cut ep)) h
  | Some (Some (inl t)) => let '(l, n) := label (brk h) t in Ret (inl (addr l)) (mk_heap (put_tree 0 0 l (nodes h)) n)
  end.

(** The tree that the printer walks through. *)
Fixpoint read_tree (f : nat) (p : Z) : M heap (CJson.cJSON) :=
  match f with
  | O => block
  | S f =>
      n ← load p;
      let ty := Z.land (type n) 255 in
      cs ← (if (ty =? CJson.cJSON_Array) || (ty =? CJson.cJSON_Object) then read_chain f (child n) else mret []);
      mret (CJson.mk_item (type n) (valuestring n) (valueint n) (valuedouble n) (sign n) (string n) cs)
  end
with read_chain (f : nat) (c : Z) : M heap (list CJson.cJSON) :=
  match f with
  | O => block
  | S f =>
      if c =? 0 then mret [] else
      n ← load c;
      t ← read_tree f c;
      l ← read_chain f (next n);
      mret (t :: l)
  end.

(** Twice the number of nodes, and two more: [read_tree] and [read_chain] take
    turns. *)
Definition read_fuel : M heap nat := gets (fun h => S (S (size (nodes h) + size (nodes h)))).

(** [cJSON_PrintUnformatted], [cJSON_Print]; [None] is a null pointer. *)
Definition print (fmt : bool) (p : Z) : M heap (option bytes) :=
  f ← read_fuel; t ← read_tree f p; deref (CJson.print_value 0 fmt t).

(** ** Life *)

Definition new_object (data extern : Z) : M state Z :=
  p ← gets obrk;
  _ ← modify (fun s => mk_state (items s) (<[p := mk_obj data extern [] ∅ ∅]> (objs s)) (obrk s + 1));
  mret p.

(** [Clear] and [delete] of a wrapper, which clears it. *)
Fixpoint clear_loop (f : nat) (this : Z) : M state unit :=
  match f with
  | O => block
  | S f =>
      let delete_all := fix delete_all (l : list Z) : M state unit :=
        match l with
        | [] => mret tt
        | p :: l =>
            _ ← clear_loop f p;
            _ ← modify (fun s => mk_state (items s) (delete p (objs s)) (obrk s));
            delete_all l
        end in
      _ ← update_obj this (set_extern 0);
      o ← obj_of this;
      _ ← (if m_pJsonData o =? 0 then mret tt else _ ← on_items (cJSON_Delete (m_pJsonData o)); update_obj this (set_data 0));
      o ← obj_of this;
      _ ← delete_all (snd <$> map_to_list (m_mapJsonArrayRef o));
      _ ← update_obj this (set_array_ref ∅);
      o ← obj_of this;
      _ ← delete_all (snd <$> map_to_list (m_mapJsonObjectRef o));
      update_obj this (set_object_ref ∅)
  end.
Definition Clear (this : Z) : M state unit := s ← get; clear_loop (S (size (objs s))) this.

(** [delete p] *)
Definition delete_object (p : Z) : M state unit :=
  _ ← Clear p; modify (fun s => mk_state (items s) (delete p (objs s)) (obrk s)).

Section libm.
Context `{CJson.Libm}.

Definition parse_error (ep : bytes) : bytes := str_bytes "prase json string error at " ++ ep.

Definition Parse (this : Z) (strJson : bytes) : M state bool :=
  _ ← Clear this;
  r ← on_items (cJSON_Parse strJson);
  match r with
  | inl p => _ ← update_obj this (set_data p); mret true
  | inr ep => _ ← update_obj this (set_data 0); _ ← update_obj this (set_err (parse_error ep)); mret false
  end.

(** [Load]; the argument is what the file holds, if it can be opened. *)
Definition Load (this : Z) (content : option bytes) : M state bool :=
  match content with None => mret false | Some text => Parse this text end.

(** The text of a null pointer is empty. *)
Definition to_text (this : Z) (fmt : bool) : M state bytes :=
  o ← obj_of this;
  r ← (if negb (m_pJsonData o =? 0) then on_items (print fmt (m_pJsonData o))
       else if negb (m_pExternJsonDataRef o =? 0) then on_items (print fmt (m_pExternJsonDataRef o))
       else mret None);
  mret (default [] r).
Definition ToString (this : Z) : M state bytes := to_text this false.
Definition ToFormattedString (this : Z) : M state bytes := to_text this true.

Definition CJsonObject_empty : M state Z := new_object 0 0.
Definition CJsonObject_text (strJson : bytes) : M state Z := p ← new_object 0 0; _ ← Parse p strJson; mret p.
Definition CJsonObject_pointer (other : Z) : M state Z :=
  p ← new_object 0 0;
  _ ← (if other =? 0 then mret tt else t ← ToString other; _ ← Parse p t; mret tt);
  mret p.
Definition CJsonObject_copy (other : Z) : M state Z := p ← new_object 0 0; t ← ToString other; _ ← Parse p t; mret p.
Definition CJsonObject_item (pJsonData : Z) : M state Z := new_object 0 pJsonData.

Definition assign (this other : Z) : M state unit := t ← ToString other; _ ← Parse this t; mret tt.
Definition equals (this other : Z) : M state bool := a ← ToString this; b ← ToString other; mret (bool_decide (a = b)).

Definition GetJsonData (this : Z) : M state Z :=
  o ← obj_of this; mret (if m_pJsonData o =? 0 then m_pExternJsonDataRef o else m_pJsonData o).

Definition IsEmpty (this : Z) : M state bool :=
  o ← obj_of this; mret ((m_pJsonData o =? 0) && (m_pExternJsonDataRef o =? 0)).

Definition IsArray (this : Z) : M state bool :=
  p ← GetJsonData this;
  if p =? 0 then mret false else n ← on_items (load p); mret (type n =? CJson.cJSON_Array).

(** [vecKeys.push_back(c->string)]: a null pointer is undefined behaviour. *)
Fixpoint keys_loop (f : nat) (c : Z) : M heap (list bytes) :=
  match f with
  | O => block
  | S f =>
      if c =? 0 then mret [] else
      n ← load c;
      k ← deref (string n);
      l ← keys_loop f (next n);
      mret (k :: l)
  end.
Definition GetKeys (this : Z) : M state (list bytes) :=
  p ← GetJsonData this;
  if p =? 0 then mret [] else on_items (f ← fuel; n ← load p; keys_loop f (child n)).
(** ** Lookups *)

(** The item a key or an index names, if the object is of the right type. *)
Definition item_of (this : Z) (ty : Z) (look : Z -> M heap Z) : M state Z :=
  o ← obj_of this;
  if negb (m_pJsonData o =? 0) then
    on_items (n ← load (m_pJsonData o); if type n =? ty then look (m_pJsonData o) else mret 0)
  else if negb (m_pExternJsonDataRef o =? 0) then
    on_items (n ← load (m_pExternJsonDataRef o); if type n =? ty then look (m_pExternJsonDataRef o) else mret 0)
  else mret 0.
Definition key_item (this : Z) (strKey : bytes) : M state Z :=
  item_of this CJson.cJSON_Object (fun p => cJSON_GetObjectItem p (c_cut strKey)).
Definition index_item (this : Z) (iWhich : Z) : M state Z :=
  item_of this CJson.cJSON_Array (fun p => cJSON_GetArrayItem p iWhich).

(** A wrapper for the item, or an empty one. *)
Definition wrap (p : Z) : M state Z := if p =? 0 then CJsonObject_empty else CJsonObject_item p.

(** [Get(strKey)], [operator[](strKey)] *)
Definition Get_ref (this : Z) (strKey : bytes) : M state Z :=
  o ← obj_of this;
  match m_mapJsonObjectRef o !! strKey with
  | Some r => mret r
  | None =>
      p ← key_item this strKey;
      r ← wrap p;
      _ ← update_obj this (fun o => set_object_ref (<[strKey := r]> (m_mapJsonObjectRef o)) o);
      mret r
  end.

Definition index_ref (this : Z) (uiWhich : Z) : M state Z :=
  o ← obj_of this;
  match m_mapJsonArrayRef o !! uiWhich with
  | Some r => mret r
  | None =>
      p ← index_item this (i32 uiWhich);
      r ← wrap p;
      _ ← update_obj this (fun o => set_array_ref (<[uiWhich := r]> (m_mapJsonArrayRef o)) o);
      mret r
  end.

Definition SMALL : double := to_double 4722366482869645 (-72).
Definition LARGE : double := to_double (10 ^ 9) 0.

Definition JsonStruct2Str (pJsonStruct : Z) : M heap bytes :=
  if pJsonStruct =? 0 then mret [] else
  n ← load pJsonStruct;
  if type n =? CJson.cJSON_String then deref (valuestring n)
  else if type n =? CJson.cJSON_Int then mret (dec (valueint n))
  else if type n =? CJson.cJSON_Double then
    let d := SFabs (valuedouble n) in
    if SFltb d SMALL || SFltb LARGE d then mret (take 127 (print_e (valuedouble n))) else mret (take 127 (print_f 6 (valuedouble n)))
  else if type n =? CJson.cJSON_False then mret (str_bytes "false")
  else if type n =? CJson.cJSON_True then mret (str_bytes "true")
  else mret [].

(** [operator()]: the item, through the wrapper if there is one. *)
Definition call_key (this : Z) (strKey : bytes) : M state bytes :=
  o ← obj_of this;
  p ← (match m_mapJsonObjectRef o !! strKey with
       | Some r => GetJsonData r
       | None =>
           p ← key_item this strKey;
           _ ← (if p =? 0 then mret tt
                else r ← CJsonObject_item p; update_obj this (fun o => set_object_ref (<[strKey := r]> (m_mapJsonObjectRef o)) o));
           mret p
       end);
  on_items (JsonStruct2Str p).

Definition call_key_const (this : Z) (strKey : bytes) : M state bytes :=
  o ← obj_of this;
  p ← (match m_mapJsonObjectRef o !! strKey with Some r => GetJsonData r | None => key_item this strKey end);
  on_items (JsonStruct2Str p).

Definition call_index (this : Z) (uiWhich : Z) : M state bytes :=
  o ← obj_of this;
  p ← (match m_mapJsonArrayRef o !! uiWhich with
       | Some r => GetJsonData r
       | None =>
           p ← index_item this (i32 uiWhich);
           _ ← (if p =? 0 then mret tt
                else r ← CJsonObject_item p; update_obj this (fun o => set_array_ref (<[uiWhich := r]> (m_mapJsonArrayRef o)) o));
           mret p
       end);
  on_items (JsonStruct2Str p).

Definition call_index_const (this : Z) (uiWhich : Z) : M state bytes :=
  o ← obj_of this;
  p ← (match m_mapJsonArrayRef o !! uiWhich with Some r => GetJsonData r | None => index_item this (i32 uiWhich) end);
  on_items (JsonStruct2Str p).

(** ** [Get] with a reference parameter *)

(** The value of an item that passes the test. *)
Definition value_of {A} (item : M state Z) (test : node -> bool) (value : node -> option A) : M state (option A) :=
  p ← item;
  if p =? 0 then mret None else
  n ← on_items (load p);
  if test n then v ← deref (value n); mret (Some v) else mret None.

Definition is_type (ty : Z) (n : node) : bool := type n =? ty.
Definition get_string item := value_of item (is_type CJson.cJSON_String) valuestring.
Definition get_int (conv : Z -> Z) item := value_of item (is_type CJson.cJSON_Int) (fun n => Some (conv (valueint n))).
Definition get_bool item := value_of item (fun n => type n <=? CJson.cJSON_True) (fun n => Some (negb (type n =? 0))).
Definition get_double (conv : double -> double) item := value_of item (is_type CJson.cJSON_Double) (fun n => Some (conv (valuedouble n))).

(** [Get(..., CJsonObject&)]: the item is printed and parsed again. *)
Definition get_object (item : M state Z) (oJsonObject : Z) : M state bool :=
  p ← item;
  if p =? 0 then mret false else
  r ← on_items (print true p);
  t ← deref r;
  Parse oJsonObject t.

Definition Get_key_object this strKey oJsonObject := get_object (key_item this strKey) oJsonObject.
Definition Get_key_string this strKey := get_string (key_item this strKey).
Definition Get_key_int32 this strKey := get_int i32 (key_item this strKey).
Definition Get_key_uint32 this strKey := get_int u32 (key_item this strKey).
Definition Get_key_int64 this strKey := get_int CJson.i64 (key_item this strKey).
Definition Get_key_uint64 this strKey := get_int (fun v => v) (key_item this strKey).
Definition Get_key_bool this strKey := get_bool (key_item this strKey).
Definition Get_key_float this strKey := get_double to_float (key_item this strKey).
Definition Get_key_double this strKey := get_double (fun v => v) (key_item this strKey).

Definition Get_index_object this iWhich oJsonObject := get_object (index_item this iWhich) oJsonObject.
Definition Get_index_string this iWhich := get_string (index_item this iWhich).
Definition Get_index_int32 this iWhich := get_int i32 (index_item this iWhich).
Definition Get_index_uint32 this iWhich := get_int u32 (index_item this iWhich).
Definition Get_index_int64 this iWhich := get_int CJson.i64 (index_item this iWhich).
Definition Get_index_uint64 this iWhich := get_int (fun v => v) (index_item this iWhich).
Definition Get_index_bool this iWhich := get_bool (index_item this iWhich).
Definition Get_index_float this iWhich := get_double to_float (index_item this iWhich).
Definition Get_index_double this iWhich := get_double (fun v => v) (index_item this iWhich).

Definition GetArraySize (this : Z) : M state Z := item_of this CJson.cJSON_Array cJSON_GetArraySize.
(** ** Changes *)

Definition not_object : bytes := str_bytes "not a json object! json array?".
Definition not_array : bytes := str_bytes "not a json array! json object?".

Definition fail_with (this : Z) (msg : bytes) : M state bool := _ ← update_obj this (set_err msg); mret false.

(** [pFocusData] of [Add]: the tree of the object, or a new one. *)
Definition focus_or_new (this : Z) (create : M heap Z) : M state Z :=
  o ← obj_of this;
  if negb (m_pJsonData o =? 0) then mret (m_pJsonData o)
  else if negb (m_pExternJsonDataRef o =? 0) then mret (m_pExternJsonDataRef o)
  else p ← on_items create; _ ← update_obj this (set_data p); mret p.

(** The checks all changes start with. *)
Definition with_focus (this : Z) (focus : M state Z) (ty : Z) (wrong : bytes) (k : Z -> M state bool) : M state bool :=
  p ← focus;
  if p =? 0 then fail_with this (str_bytes "json data is null!") else
  n ← on_items (load p);
  if negb (type n =? ty) then fail_with this wrong else k p.

Definition in_new_object this (k : Z -> M state bool) := with_focus this (focus_or_new this cJSON_CreateObject) CJson.cJSON_Object not_object k.
Definition in_new_array this (k : Z -> M state bool) := with_focus this (focus_or_new this cJSON_CreateArray) CJson.cJSON_Array not_array k.
Definition in_object this (k : Z -> M state bool) := with_focus this (GetJsonData this) CJson.cJSON_Object not_object k.
Definition in_array this (k : Z -> M state bool) := with_focus this (GetJsonData this) CJson.cJSON_Array not_array k.

(** [cJSON_Parse(oJsonObject.ToString().c_str())] *)
Definition copy_of (this oJsonObject : Z) (k : Z -> M state bool) : M state bool :=
  t ← ToString oJsonObject;
  r ← on_items (cJSON_Parse t);
  match r with inl p => k p | inr ep => fail_with this (parse_error ep) end.

(** [if (pJsonStruct == NULL) return false;] *)
Definition made (create : M heap Z) (k : Z -> M state bool) : M state bool :=
  p ← on_items create; if p =? 0 then mret false else k p.

(** Drops the wrapper of a key, of the indices that [drop] names. *)
Definition forget_key (this : Z) (strKey : bytes) : M state unit :=
  o ← obj_of this;
  match m_mapJsonObjectRef o !! strKey with
  | None => mret tt
  | Some r => _ ← delete_object r; update_obj this (fun o => set_object_ref (delete strKey (m_mapJsonObjectRef o)) o)
  end.

Fixpoint forget_list (this : Z) (l : list (Z * Z)) : M state unit :=
  match l with
  | [] => mret tt
  | (i, r) :: l =>
      _ ← delete_object r;
      _ ← update_obj this (fun o => set_array_ref (delete i (m_mapJsonArrayRef o)) o);
      forget_list this l
  end.
Definition forget_indices (this : Z) (gone : Z -> bool) : M state unit :=
  o ← obj_of this; forget_list this (List.filter (fun '(i, _) => gone i) (map_to_list (m_mapJsonArrayRef o))).

(** Each of them ends with a look at what it has done. *)
Definition add_member (p : Z) (strKey : bytes) (item : Z) : M state bool :=
  on_items (_ ← cJSON_AddItemToObject p (c_cut strKey) item; g ← cJSON_GetObjectItem p (c_cut strKey); mret (negb (g =? 0))).
Definition replace_member (p : Z) (strKey : bytes) (item : Z) : M state bool :=
  on_items (_ ← cJSON_ReplaceItemInObject p (Some (c_cut strKey)) item; g ← cJSON_GetObjectItem p (c_cut strKey); mret (negb (g =? 0))).
Definition replace_index (p : Z) (iWhich item : Z) : M state bool :=
  on_items (_ ← cJSON_ReplaceItemInArray p iWhich item; g ← cJSON_GetArrayItem p iWhich; mret (negb (g =? 0))).
Definition add_to_array (add : Z -> Z -> M heap unit) (p item : Z) : M state bool :=
  on_items (before ← cJSON_GetArraySize p; _ ← add p item; after ← cJSON_GetArraySize p; mret (negb (after =? before))).

Definition AddEmptySubObject (this : Z) (strKey : bytes) : M state bool :=
  in_new_object this (fun p => made cJSON_CreateObject (fun j => _ ← on_items (cJSON_AddItemToObject p (c_cut strKey) j); mret true)).
Definition AddEmptySubArray (this : Z) (strKey : bytes) : M state bool :=
  in_new_object this (fun p => made cJSON_CreateArray (fun j => _ ← on_items (cJSON_AddItemToObject p (c_cut strKey) j); mret true)).

(** [Add(strKey, ...)] *)
Definition Add_key_object (this : Z) (strKey : bytes) (oJsonObject : Z) : M state bool :=
  in_new_object this (fun p => copy_of this oJsonObject (fun j =>
    b ← add_member p strKey j; if b : bool then _ ← forget_key this strKey; mret true else mret false)).
Definition Add_key (this : Z) (strKey : bytes) (create : M heap Z) : M state bool :=
  in_new_object this (fun p => made create (fun j => add_member p strKey j)).
Definition Add_key_string this strKey strValue := Add_key this strKey (cJSON_CreateString (c_cut strValue)).
Definition Add_key_int32 this strKey iValue := Add_key this strKey (cJSON_CreateInt (u64 iValue) (-1)).
Definition Add_key_uint32 this strKey uiValue := Add_key this strKey (cJSON_CreateInt (u64 uiValue) 1).
Definition Add_key_int64 this strKey llValue := Add_key this strKey (cJSON_CreateInt (u64 llValue) (-1)).
Definition Add_key_uint64 this strKey ullValue := Add_key this strKey (cJSON_CreateInt ullValue 1).
Definition Add_key_bool this strKey bValue := Add_key this strKey (cJSON_CreateBool bValue).
Definition Add_key_float this strKey fValue := Add_key this strKey (cJSON_CreateDouble fValue (-1)).
Definition Add_key_double this strKey dValue := Add_key this strKey (cJSON_CreateDouble dValue (-1)).

Definition Delete_key (this : Z) (strKey : bytes) : M state bool :=
  in_object this (fun p => _ ← on_items (cJSON_DeleteItemFromObject p (c_cut strKey)); _ ← forget_key this strKey; mret true).

(** [Replace(strKey, ...)] *)
Definition Replace_key_object (this : Z) (strKey : bytes) (oJsonObject : Z) : M state bool :=
  in_object this (fun p => copy_of this oJsonObject (fun j =>
    b ← replace_member p strKey j; if b : bool then _ ← forget_key this strKey; mret true else mret false)).
Definition Replace_key (this : Z) (strKey : bytes) (create : M heap Z) : M state bool :=
  in_object this (fun p => made create (fun j => replace_member p strKey j)).
Definition Replace_key_string this strKey strValue := Replace_key this strKey (cJSON_CreateString (c_cut strValue)).
Definition Replace_key_int32 this strKey iValue := Replace_key this strKey (cJSON_CreateInt (u64 iValue) (-1)).
Definition Replace_key_uint32 this strKey uiValue := Replace_key this strKey (cJSON_CreateInt (u64 uiValue) 1).
Definition Replace_key_int64 this strKey llValue := Replace_key this strKey (cJSON_CreateInt (u64 llValue) (-1)).
Definition Replace_key_uint64 this strKey ullValue := Replace_key this strKey (cJSON_CreateInt ullValue 1).
Definition Replace_key_bool this strKey bValue := Replace_key this strKey (cJSON_CreateBool bValue).
Definition Replace_key_float this strKey fValue := Replace_key this strKey (cJSON_CreateDouble fValue (-1)).
Definition Replace_key_double this strKey dValue := Replace_key this strKey (cJSON_CreateDouble dValue (-1)).

(** [Add(...)] to an array *)
Definition Add_object (this : Z) (oJsonObject : Z) : M state bool :=
  in_new_array this (fun p => copy_of this oJsonObject (fun j =>
    b ← add_to_array cJSON_AddItemToArray p j;
    if b : bool then
      size ← on_items (cJSON_GetArraySize p);
      _ ← forget_indices this (fun i => u32 (size - 1) <=? i); mret true
    else mret false)).
Definition Add_item (this : Z) (create : M heap Z) : M state bool :=
  in_new_array this (fun p => made create (fun j => add_to_array cJSON_AddItemToArray p j)).
Definition Add_string this strValue := Add_item this (cJSON_CreateString (c_cut strValue)).
Definition Add_int32 this iValue := Add_item this (cJSON_CreateInt (u64 iValue) (-1)).
Definition Add_uint32 this uiValue := Add_item this (cJSON_CreateInt (u64 uiValue) 1).
Definition Add_int64 this llValue := Add_item this (cJSON_CreateInt (u64 llValue) (-1)).
Definition Add_uint64 this ullValue := Add_item this (cJSON_CreateInt ullValue 1).
Definition Add_bool this bValue := Add_item this (cJSON_CreateBool bValue).
Definition Add_float this fValue := Add_item this (cJSON_CreateDouble fValue (-1)).
Definition Add_double this dValue := Add_item this (cJSON_CreateDouble dValue (-1)).

(** [AddAsFirst(...)]; every integer is made with the sign -1. *)
Definition AddAsFirst_object (this : Z) (oJsonObject : Z) : M state bool :=
  in_new_array this (fun p => copy_of this oJsonObject (fun j =>
    b ← add_to_array cJSON_AddItemToArrayHead p j;
    if b : bool then _ ← forget_indices this (fun _ => true); mret true else mret false)).
Definition AddAsFirst_item (this : Z) (create : M heap Z) : M state bool :=
  in_new_array this (fun p => made create (fun j => add_to_array cJSON_AddItemToArrayHead p j)).
Definition AddAsFirst_string this strValue := AddAsFirst_item this (cJSON_CreateString (c_cut strValue)).
Definition AddAsFirst_int32 this iValue := AddAsFirst_item this (cJSON_CreateInt (u64 iValue) (-1)).
Definition AddAsFirst_uint32 this uiValue := AddAsFirst_item this (cJSON_CreateInt (u64 uiValue) (-1)).
Definition AddAsFirst_int64 this llValue := AddAsFirst_item this (cJSON_CreateInt (u64 llValue) (-1)).
Definition AddAsFirst_uint64 this ullValue := AddAsFirst_item this (cJSON_CreateInt ullValue (-1)).
Definition AddAsFirst_bool this bValue := AddAsFirst_item this (cJSON_CreateBool bValue).
Definition AddAsFirst_float this fValue := AddAsFirst_item this (cJSON_CreateDouble fValue (-1)).
Definition AddAsFirst_double this dValue := AddAsFirst_item this (cJSON_CreateDouble dValue (-1)).

Definition Delete_index (this : Z) (iWhich : Z) : M state bool :=
  in_array this (fun p => _ ← on_items (cJSON_DeleteItemFromArray p iWhich); _ ← forget_indices this (fun i => u32 iWhich <=? i); mret true).

(** [Replace(iWhich, ...)] *)
Definition Replace_index_object (this : Z) (iWhich oJsonObject : Z) : M state bool :=
  in_array this (fun p => copy_of this oJsonObject (fun j =>
    b ← replace_index p iWhich j; if b : bool then _ ← forget_indices this (fun i => i =? u32 iWhich); mret true else mret false)).
Definition Replace_index (this : Z) (iWhich : Z) (create : M heap Z) : M state bool :=
  in_array this (fun p => made create (fun j => replace_index p iWhich j)).
Definition Replace_index_string this iWhich strValue := Replace_index this iWhich (cJSON_CreateString (c_cut strValue)).
Definition Replace_index_int32 this iWhich iValue := Replace_index this iWhich (cJSON_CreateInt (u64 iValue) (-1)).
Definition Replace_index_uint32 this iWhich uiValue := Replace_index this iWhich (cJSON_CreateInt (u64 uiValue) 1).
Definition Replace_index_int64 this iWhich llValue := Replace_index this iWhich (cJSON_CreateInt (u64 llValue) (-1)).
Definition Replace_index_uint64 this iWhich ullValue := Replace_index this iWhich (cJSON_CreateInt ullValue 1).
Definition Replace_index_bool this iWhich bValue := Replace_index this iWhich (cJSON_CreateBool bValue).
Definition Replace_index_float this iWhich fValue := Replace_index this iWhich (cJSON_CreateDouble fValue (-1)).
Definition Replace_index_double this iWhich dValue := Replace_index this iWhich (cJSON_CreateDouble dValue (-1)).
End libm.
End CJsonObject.
