(* ===== verification/CJsonTree.v ===== *)
(** * CJsonTree: the items in the heap as trees

    What the functions of [util/json/cJSON.c] that change a tree do to the tree
    that its items form, beside other trees that they leave alone; the types of
    the items of a parsed text; reading a tree back; the tree that the parser
    puts into the heap. *)

From S2P Require Import Prelude Util Effect CFloat CJson CJsonText CJsonHeap CJsonObject.
From Stdlib Require Import SpecFloat.
Import Util CFloat CJsonHeap CJsonObject.

#[local] Open Scope Z_scope.

Module CJsonTree.

Section libm.
Context `{CJson.Libm}.

(** The position of the first member with a name, in any case. *)
Fixpoint index_of (key : bytes) (l : list CJson.cJSON) : nat :=
  match l with
  | [] => O
  | c :: l => if cJSON_strcasecmp (CJson.string c) (Some key) =? 0 then O else S (index_of key l)
  end.

Definition remove_at {A} (i : nat) (l : list A) : list A := take i l ++ drop (S i) l.
Definition replace_at {A} (i : nat) (x : A) (l : list A) : list A := if (i <? length l)%nat then take i l ++ x :: drop (S i) l else l.

(** [item->string = strdup(key)] *)
Definition with_name (key : bytes) (t : CJson.cJSON) : CJson.cJSON :=
  let '(CJson.mk_item ty s i d g _ cs) := t in CJson.mk_item ty s i d g (Some key) cs.

(** ** Trees in the heap *)

Fixpoint erase (t : ltree) : CJson.cJSON :=
  let '(L _ d cs) := t in CJson.mk_item (type d) (valuestring d) (valueint d) (valuedouble d) (sign d) (string d) (List.map erase cs).

Lemma erase_L a d cs : erase (L a d cs) = CJson.mk_item (type d) (valuestring d) (valueint d) (valuedouble d) (sign d) (string d) (List.map erase cs).
Proof. done. Qed.

Lemma erase_type t : CJson.type (erase t) = type (data t).
Proof. by destruct t. Qed.
Lemma erase_child t : CJson.child (erase t) = List.map erase (kids t).
Proof. by destruct t. Qed.

Definition rename (key : bytes) (t : ltree) : ltree := L (addr t) (set_string (Some key) (data t)) (kids t).
Lemma erase_rename key t : erase (rename key t) = with_name key (erase t).
Proof. by destruct t. Qed.

Definition bounded (h : heap) : Prop := 0 < brk h /\ forall a, is_Some (nodes h !! a) -> a < brk h.

(** A node without pointers, and no reference. *)
Definition loose (n : node) : Prop := link 0 0 0 n = n /\ Z.land (type n) cJSON_IsReference = 0.

(** The heap after a change inside [X]. *)
Definition evolves (X : list Z) (h h' : heap) : Prop := same X (nodes h) (nodes h') /\ brk h' = brk h.

Lemma bounded_evolves X h h' : bounded h -> (forall a, a ∈ X -> a < brk h) -> evolves X h h' -> bounded h'.
Proof.
  intros [B0 B] I [S E]. split; [lia |]. intros a [n E']. rewrite E. destruct (decide (a ∈ X)) as [i|N]; [auto |]. apply B. exists n. by rewrite (S _ N).
Qed.

Lemma ok_below h t pv nx : bounded h -> ok (nodes h) pv nx t -> forall a, a ∈ addrs t -> a < brk h.
Proof. intros [_ B] O a I. apply B. by eapply ok_dom. Qed.

Lemma create_item_ok h f : bounded h -> loose (f node0) ->
  twp (create f) (fun p h' => p = brk h /\ ok (nodes h') 0 0 (L p (f node0) []) /\ bounded h' /\ same [p] (nodes h) (nodes h')) h.
Proof.
  intros B [Lo _]. unfold create. apply twp_bind. eapply twp_equal; [done |]. apply twp_bind. eapply twp_update; [apply lookup_insert_eq |].
  unfold mret, M_ret, twp. cbn [nodes brk]. assert (alter f (brk h) (<[brk h:=node0]> (nodes h)) = <[brk h := f node0]> (nodes h)) as -> by apply alter_insert_eq.
  split_and!; [done | | |].
  - apply ok_L. destruct B. split_and!; [lia | rewrite lookup_insert_eq; by rewrite <- Lo | done].
  - destruct B as [B0 B]. split; cbn [brk nodes]; [lia |]. intros a [n E]. destruct (decide (a = brk h)) as [->|N]; [lia |]. rewrite lookup_insert_ne in E by done.
    specialize (B a ltac:(by eexists)). lia.
  - intros a N%not_elem_of_cons. by rewrite lookup_insert_ne by (intros <-; tauto).
Qed.

(** ** Names *)

Lemma casecmp_refl k : casecmp k k = 0.
Proof. induction k as [|c k IH]; [done |]. cbn. by rewrite Z.eqb_refl. Qed.

Lemma position_index key cs : position (Some key) cs = index_of key (List.map erase cs).
Proof.
  induction cs as [|[a d l] cs IH]; [done |]. cbn [position List.map index_of]. rewrite erase_L. unfold matches. cbn [CJson.string data]. by rewrite IH.
Qed.

Lemma position_le key cs : (position key cs <= length cs)%nat.
Proof. induction cs as [|c cs IH]; cbn; [lia |]. destruct (matches key c); lia. Qed.

Lemma GetObjectItem_ok h p d cs pv nx key : NoDup (addrs (L p d cs)) -> ok (nodes h) pv nx (L p d cs) ->
  cJSON_GetObjectItem p key h = Ret (fst_addr 0 (drop (position (Some key) cs) cs)) h.
Proof.
  intros N O. pose proof O as (_ & E & Oc)%ok_L. unfold cJSON_GetObjectItem, mbind, M_bind. rewrite fuel_ok. unfold load, mbind, M_bind, get, deref. rewrite E.
  change (child (link _ _ ?c _)) with c. rewrite (find_ok h (Some key) cs _ 0) by (done || by eapply kids_fuel). done.
Qed.

Lemma GetArrayItem_ok h p d cs pv nx i : NoDup (addrs (L p d cs)) -> ok (nodes h) pv nx (L p d cs) ->
  cJSON_GetArrayItem p i h = Ret (fst_addr 0 (drop (Z.to_nat i) cs)) h.
Proof.
  intros N O. pose proof O as (_ & E & Oc)%ok_L. unfold cJSON_GetArrayItem, mbind, M_bind. rewrite fuel_ok. unfold load, mbind, M_bind, get, deref. rewrite E.
  change (child (link _ _ ?c _)) with c. by apply (walk_kids h pv nx p d).
Qed.

Lemma GetArraySize_ok h p d cs pv nx : NoDup (addrs (L p d cs)) -> ok (nodes h) pv nx (L p d cs) ->
  cJSON_GetArraySize p h = Ret (Z.of_nat (length cs)) h.
Proof.
  intros N O. pose proof O as (_ & E & Oc)%ok_L. unfold cJSON_GetArraySize, mbind, M_bind. rewrite fuel_ok. unfold load, mbind, M_bind, get, deref. rewrite E.
  change (child (link _ _ ?c _)) with c. rewrite (size_loop_ok h cs _ 0) by (done || by eapply kids_fuel). done.
Qed.

Lemma fst_addr_pos h pv cs i : oks h pv 0 cs -> negb (fst_addr 0 (drop i cs) =? 0) = (i <? length cs)%nat.
Proof.
  intros O. destruct (Nat.ltb_spec i (length cs)) as [Lt|Ge].
  - destruct (lookup_lt_is_Some_2 cs i Lt) as [t E]. rewrite (drop_S _ _ _ E). cbn [fst_addr].
    rewrite <- (take_drop_middle _ _ _ E) in O. apply oks_app in O as [_ [Ot _]]. apply ok_addr in Ot as [Zt _]. by rewrite (proj2 (Z.eqb_neq _ _) Zt).
  - by rewrite drop_ge by done.
Qed.

(** ** The changes of the items *)

(** [Fr]: the trees that stay as they are. *)
Section frame.
Context (Fr : ltree -> Prop).

Definition framed (h : heap) (X : list Z) : Prop := forall u, Fr u -> ok (nodes h) 0 0 u /\ forall a, a ∈ addrs u -> a ∉ X.

Lemma framed_app h X Y : framed h X -> framed h Y -> framed h (X ++ Y).
Proof. intros A B u F. destruct (A u F) as [O D], (B u F) as [_ E]. split; [done |]. intros a I. rewrite not_elem_of_app. auto. Qed.

Lemma framed_step h h' X Y W : framed h X -> same Y (nodes h) (nodes h') -> (forall a, a ∈ Y -> a ∈ X) -> (forall a, a ∈ W -> a ∈ X) -> framed h' W.
Proof.
  intros F S Iy Iw u Fu. destruct (F u Fu) as [O D]. split; [| intros a I J; by apply (D a I), Iw].
  eapply ok_frame; [| exact O]. intros a I. apply S. intros J. by apply (D a I), Iy.
Qed.

Record good (h : heap) (t : ltree) : Prop := {
  g_ok : ok (nodes h) 0 0 t;
  g_nodup : NoDup (addrs t);
  g_no_ref : no_ref t = true;
  g_bounded : bounded h;
  g_framed : framed h (addrs t) }.

(** A new tree beside the tree. *)
Record spare (h : heap) (t c : ltree) : Prop := {
  sp_ok : ok (nodes h) 0 0 c;
  sp_nodup : NoDup (addrs c);
  sp_apart : forall a, a ∈ addrs c -> a ∉ addrs t;
  sp_no_ref : no_ref c = true;
  sp_framed : framed h (addrs c) }.

Lemma middle_perm p d l1 c l2 : addrs (L p d (l1 ++ c :: l2)) ≡ₚ addrs (L p d (l1 ++ l2)) ++ addrs c.
Proof. rewrite !addrs_L, !addrss_app, addrss_cons. cbn. rewrite <- app_assoc. do 2 f_equiv. apply Permutation_app_comm. Qed.

Lemma spare_nodup h p d l1 l2 c : good h (L p d (l1 ++ l2)) -> spare h (L p d (l1 ++ l2)) c -> NoDup (addrs (L p d (l1 ++ c :: l2))).
Proof. intros G Sp. rewrite middle_perm. apply NoDup_app. split_and!; [apply G | | apply Sp]. intros x I J. by apply (sp_apart _ _ _ Sp x). Qed.

Lemma no_ref_insert p d l1 c l2 : no_ref (L p d (l1 ++ l2)) = true -> no_ref c = true -> no_ref (L p d (l1 ++ c :: l2)) = true.
Proof. cbn [no_ref]. rewrite !forallb_app. cbn [forallb]. rewrite !andb_true_iff. tauto. Qed.
Lemma no_ref_remove p d l1 c l2 : no_ref (L p d (l1 ++ c :: l2)) = true -> no_ref (L p d (l1 ++ l2)) = true /\ no_ref c = true.
Proof. cbn [no_ref]. rewrite !forallb_app. cbn [forallb]. rewrite !andb_true_iff. tauto. Qed.

Lemma good_insert h p d l1 l2 c h' : good h (L p d (l1 ++ l2)) -> spare h (L p d (l1 ++ l2)) c ->
  ok (nodes h') 0 0 (L p d (l1 ++ c :: l2)) -> evolves (addrs (L p d (l1 ++ c :: l2))) h h' -> good h' (L p d (l1 ++ c :: l2)).
Proof.
  intros G Sp O' E. pose proof (spare_nodup _ _ _ _ _ _ G Sp) as N'. destruct G as [O N R B F], Sp as [Oc Nc Ac Rc Fc]. split; [done | done | by apply no_ref_insert | |].
  - eapply bounded_evolves; [exact B | | exact E]. intros a. rewrite middle_perm, elem_of_app. intros [I|I]; [by eapply (ok_below _ _ _ _ B O) | by eapply (ok_below _ _ _ _ B Oc)].
  - eapply (framed_step h); [by apply (framed_app _ _ _ F Fc) | apply E | |]; intros a; by rewrite middle_perm.
Qed.

(** [item->string = cJSON_strdup(string)] *)
Lemma name_ok h t c key : good h t -> spare h t c ->
  twp (update (addr c) (set_string (Some key))) (fun _ h' => good h' t /\ spare h' t (rename key c)) h.
Proof.
  intros [O N R B F] [Oc Nc A Rc Fc]. destruct c as [j n ks]. cbn [addr rename data kids]. pose proof Oc as (Zj & E & Ok)%ok_L. eapply twp_update; [exact E |].
  assert (same [j] (nodes h) (alter (set_string (Some key)) j (nodes h))) as S by (apply same_alter; [left | apply same_refl]).
  assert (j ∉ addrs t) as Nj by (apply A; left). rewrite addrs_L in *. split; split; cbn [nodes]; try done.
  - by apply ok_alter.
  - eapply (bounded_evolves [j]); [exact B | intros a ->%list_elem_of_singleton; eapply ok_below; [exact B | exact Oc | left] | by split].
  - eapply (framed_step h _ (addrs t ++ j :: addrss ks) [j]); [by apply framed_app | done | |]; intros a I; apply elem_of_app; [| by left].
    apply list_elem_of_singleton in I as ->. right. left.
  - apply ok_L. split_and!; [done | by rewrite (lookup_alter2 _ _ _ _ E) |]. apply oks_alter; [| done]. by apply NoDup_cons in Nc as [? _].
  - eapply (framed_step h _ _ [j]); [exact Fc | done | | done]. intros a ->%list_elem_of_singleton. left.
Qed.

Lemma add_last_ok h p d cs c : good h (L p d cs) -> spare h (L p d cs) c ->
  twp (cJSON_AddItemToArray p (addr c)) (fun _ h' => good h' (L p d (cs ++ [c]))) h.
Proof.
  intros G Sp. rewrite <- (app_nil_r cs) in G, Sp. pose proof (spare_nodup _ _ _ _ _ _ G Sp) as N. pose proof (g_ok _ _ G) as O.
  rewrite app_nil_r in O. eapply twp_mono; [apply (AddItemToArray_ok h 0 0 p d cs c); [done | apply Sp | done] |]. cbn beta. intros _ h' (O' & S & E).
  apply (good_insert h p d cs []); [done | done | done | by split].
Qed.

Lemma add_first_ok h p d cs c : good h (L p d cs) -> spare h (L p d cs) c ->
  twp (cJSON_AddItemToArrayHead p (addr c)) (fun _ h' => good h' (L p d (c :: cs))) h.
Proof.
  intros G Sp. pose proof (spare_nodup h p d [] cs c G Sp) as N. eapply twp_mono; [apply (AddItemToArrayHead_ok h 0 0 p d cs c); [apply G | apply Sp | done] |].
  cbn beta. intros _ h' (O' & S & E). apply (good_insert h p d [] cs); [done | done | done | by split].
Qed.

(** The tree without one of the children. *)
Lemma good_remove h p d l1 t l2 h' X : good h (L p d (l1 ++ t :: l2)) -> ok (nodes h') 0 0 (L p d (l1 ++ l2)) ->
  (forall a, a ∈ X -> a ∈ addrs (L p d (l1 ++ t :: l2))) -> evolves X h h' -> good h' (L p d (l1 ++ l2)).
Proof.
  intros [O N R B F] O' S E. split; [done | | by apply no_ref_remove in R as [? _] | |].
  - rewrite middle_perm in N. by apply NoDup_app in N as [? _].
  - eapply bounded_evolves; [exact B | | exact E]. intros a I. eapply ok_below; [exact B | exact O | by apply S].
  - eapply framed_step; [exact F | apply E | done |]. intros a I. rewrite middle_perm. apply elem_of_app. by left.
Qed.

Lemma detach_none h p d cs i : good h (L p d cs) -> (length cs <= Z.to_nat i)%nat -> cJSON_DetachItemFromArray p i h = Ret 0 h.
Proof.
  intros [O N R B _] Le. pose proof O as (_ & E & _)%ok_L. unfold cJSON_DetachItemFromArray, mbind, M_bind. rewrite fuel_ok. unfold load, mbind, M_bind, get, deref. rewrite E.
  change (child (link _ _ ?c _)) with c. rewrite (walk_kids h 0 0 p d) by done. by rewrite drop_ge.
Qed.

Lemma delete_null h : cJSON_Delete 0 h = Ret tt h.
Proof. done. Qed.

Lemma delete_at_ok h p d cs i : good h (L p d cs) -> twp (cJSON_DeleteItemFromArray p i) (fun _ h' => good h' (L p d (remove_at (Z.to_nat i) cs)) /\
    forall t x, cs !! Z.to_nat i = Some t -> x ∈ addrs t -> nodes h' !! x = None) h.
Proof.
  intros G. unfold cJSON_DeleteItemFromArray. apply twp_bind. destruct (decide (Z.to_nat i < length cs)%nat) as [Lt|Ge].
  - destruct (lookup_lt_is_Some_2 _ _ Lt) as [t E]. rewrite E. pose proof (take_drop_middle _ _ _ E) as M. unfold remove_at. set (l1 := take (Z.to_nat i) cs) in *. set (l2 := drop (S (Z.to_nat i)) cs) in *.
    assert (Z.to_nat i = length l1) as W by (subst l1; rewrite length_take; lia). clearbody l1 l2. subst cs. pose proof G as [O N R B _].
    eapply twp_mono; [by apply (Detach_ok h 0 0 p d l1 t l2) |]. cbn beta. intros c h' (-> & O' & Ot & S & Eb).
    assert (NoDup (addrs t)) as Nt by (rewrite addrs_L in N; by destruct (split_nodup _ _ _ _ N) as (_ & ? & _)).
    eapply twp_equal; [apply delete_ok; [done | done | by eapply no_ref_remove] |].
    split; [| intros u x [= <-] I; cbn [nodes]; by rewrite lookup_without, bool_decide_true]. eapply (good_remove h p d l1 t l2 _ (addrs (L p d (l1 ++ t :: l2)))); [done | | done |].
    + cbn [nodes]. eapply ok_frame; [| exact O']. intros a I. rewrite lookup_without, bool_decide_false; [done |]. intros It. rewrite addrs_L in N, I.
      destruct (split_nodup _ _ _ _ N) as (_ & _ & _ & _ & _ & Dt & _). destruct (Dt _ It) as (? & ? & ?). rewrite addrss_app in I. apply elem_of_cons in I as [I|[I|I]%elem_of_app]; done.
    + split; [| done]. intros b Nb. cbn [nodes]. rewrite lookup_without, bool_decide_false; [by apply S |]. intros I. apply Nb. rewrite addrs_L, addrss_app, addrss_cons. right. apply elem_of_app. right. apply elem_of_app. by left.
  - eapply twp_equal; [apply (detach_none h p d cs); [done | lia] |]. eapply twp_equal; [apply delete_null |]. unfold remove_at. rewrite take_ge, drop_ge, app_nil_r by lia.
    split; [done |]. intros t x E. apply lookup_lt_Some in E. lia.
Qed.

Lemma replace_none h p d cs i j : good h (L p d cs) -> (length cs <= Z.to_nat i)%nat -> cJSON_ReplaceItemInArray p i j h = Ret tt h.
Proof.
  intros [O N R B _] Le. pose proof O as (_ & E & _)%ok_L. unfold cJSON_ReplaceItemInArray, mbind, M_bind. rewrite fuel_ok. unfold load, mbind, M_bind, get, deref. rewrite E.
  change (child (link _ _ ?c _)) with c. rewrite (walk_kids h 0 0 p d) by done. by rewrite drop_ge.
Qed.

Lemma replace_at_ok h p d cs i c : good h (L p d cs) -> spare h (L p d cs) c ->
  twp (cJSON_ReplaceItemInArray p i (addr c)) (fun _ h' => good h' (L p d (replace_at (Z.to_nat i) c cs)) /\
    forall t x, cs !! Z.to_nat i = Some t -> x ∈ addrs t -> nodes h' !! x = None) h.
Proof.
  intros G Sp. unfold replace_at. destruct (Nat.ltb_spec (Z.to_nat i) (length cs)) as [Lt|Ge].
  - destruct (lookup_lt_is_Some_2 _ _ Lt) as [t E]. rewrite E. pose proof (take_drop_middle _ _ _ E) as M. set (l1 := take (Z.to_nat i) cs) in *. set (l2 := drop (S (Z.to_nat i)) cs) in *.
    assert (Z.to_nat i = length l1) as W by (subst l1; rewrite length_take; lia). clearbody l1 l2. subst cs. destruct G as [O N R B F], Sp as [Oc Nc A Rc Fc].
    pose proof (no_ref_remove _ _ _ _ _ R) as [R' Rt]. setoid_rewrite middle_perm in A. setoid_rewrite not_elem_of_app in A.
    assert (NoDup (addrs (L p d (l1 ++ c :: l2)))) as N'.
    { rewrite middle_perm in N |- *. apply NoDup_app in N as (N1 & _ & _). apply NoDup_app. split_and!; [done | | done]. intros x I J. by destruct (A x J). }
    eapply twp_mono; [apply (ReplaceItemInArray_ok h 0 0 p d l1 t l2 i c); try done; intros x I J; by destruct (A x J) |]. cbn beta. intros _ h' (O' & Gone & S & Eb).
    split; [| by intros t' x [= <-]; apply Gone]. split; [done | done | by apply no_ref_insert | |].
    + eapply bounded_evolves; [exact B | | split; [exact S | done]]. pose proof (ok_below _ _ _ _ B O) as Bo. pose proof (ok_below _ _ _ _ B Oc) as Bc.
      intros a. rewrite middle_perm, !elem_of_app. setoid_rewrite middle_perm in Bo. setoid_rewrite elem_of_app in Bo. naive_solver.
    + eapply framed_step; [by apply (framed_app _ _ _ F Fc) | exact S | |]; intros a; rewrite !elem_of_app, !middle_perm, !elem_of_app; tauto.
  - eapply twp_equal; [by eapply replace_none |]. split; [done |]. intros t x E. apply lookup_lt_Some in E. lia.
Qed.

Lemma DeleteItemFromObject_ok h p d cs key : good h (L p d cs) ->
  twp (cJSON_DeleteItemFromObject p key) (fun _ h' => good h' (L p d (remove_at (position (Some key) cs) cs)) /\
    forall t x, cs !! position (Some key) cs = Some t -> x ∈ addrs t -> nodes h' !! x = None) h.
Proof.
  intros G. pose proof G as [O N R B _]. pose proof O as (_ & E & Oc)%ok_L. unfold cJSON_DeleteItemFromObject, cJSON_DetachItemFromObject. apply twp_bind. apply twp_bind.
  eapply twp_equal; [apply fuel_ok |]. apply twp_bind. eapply twp_load; [exact E |]. change (child (link _ _ ?c _)) with c. apply twp_bind.
  eapply twp_equal; [apply (find_ok h (Some key) cs _ 0); [done | by eapply kids_fuel] |]. cbn iota. rewrite Z.add_0_l.
  pose proof (fst_addr_pos _ _ _ (position (Some key) cs) Oc) as Fp. destruct (_ =? 0) eqn:E0; cbn [negb] in Fp.
  - symmetry in Fp. apply Nat.ltb_ge in Fp. eapply twp_equal; [done |]. eapply twp_equal; [apply delete_null |]. unfold remove_at. rewrite take_ge, drop_ge, app_nil_r by lia.
    split; [done |]. intros t x El. apply lookup_lt_Some in El. lia.
  - pose proof (delete_at_ok h p d cs (Z.of_nat (position (Some key) cs)) G) as T. unfold cJSON_DeleteItemFromArray in T. rewrite Nat2Z.id in T.
    unfold twp, mbind, M_bind in T |- *. by destruct (cJSON_DetachItemFromArray _ _ h).
Qed.

Lemma ReplaceItemInObject_ok h p d cs key c : good h (L p d cs) -> spare h (L p d cs) c ->
  twp (cJSON_ReplaceItemInObject p (Some key) (addr c)) (fun _ h' => good h' (L p d (replace_at (position (Some key) cs) (rename key c) cs)) /\
    forall t x, cs !! position (Some key) cs = Some t -> x ∈ addrs t -> nodes h' !! x = None) h.
Proof.
  intros G Sp. pose proof G as [O N R B _]. pose proof O as (_ & E & Oc)%ok_L. unfold cJSON_ReplaceItemInObject. apply twp_bind.
  eapply twp_equal; [apply fuel_ok |]. apply twp_bind. eapply twp_load; [exact E |]. change (child (link _ _ ?c _)) with c. apply twp_bind.
  eapply twp_equal; [apply (find_ok h (Some key) cs _ 0); [done | by eapply kids_fuel] |]. cbn iota. rewrite Z.add_0_l.
  pose proof (fst_addr_pos _ _ _ (position (Some key) cs) Oc) as Fp. destruct (_ =? 0) eqn:E0; cbn [negb] in Fp.
  - unfold replace_at. rewrite <- Fp. split; [done |]. symmetry in Fp. apply Nat.ltb_ge in Fp. intros t x El. apply lookup_lt_Some in El. lia.
  - apply twp_bind. eapply twp_deref; [done |]. apply twp_bind. eapply twp_mono; [by apply name_ok |]. cbn beta. intros _ h' [G' Sp'].
    eapply twp_mono; [by apply (replace_at_ok h' p d cs _ (rename key c)) |]. cbn beta. intros _ h''. by rewrite Nat2Z.id.
Qed.

Lemma AddItemToObject_ok h p d cs key c : good h (L p d cs) -> spare h (L p d cs) c ->
  twp (cJSON_AddItemToObject p key (addr c)) (fun _ h' => good h' (L p d (cs ++ [rename key c]))) h.
Proof.
  intros G Sp. destruct (ok_addr _ _ _ _ (sp_ok _ _ _ Sp)) as [Zj _]. unfold cJSON_AddItemToObject. rewrite (proj2 (Z.eqb_neq _ _) Zj).
  apply twp_bind. eapply twp_mono; [by apply name_ok |]. cbn beta. intros _ h' [G' Sp']. by apply (add_last_ok h' p d cs (rename key c)).
Qed.

(** An item whose name is the key is found. *)
Lemma position_found key l1 t l2 : matches (Some key) t = true -> (position (Some key) (l1 ++ t :: l2) < length (l1 ++ t :: l2))%nat.
Proof.
  intros M. induction l1 as [|u l1 IH]; cbn [app position length]; [rewrite M; lia |]. destruct (matches (Some key) u); lia.
Qed.

Lemma matches_named key c : matches (Some key) (rename key c) = true.
Proof. unfold matches. cbn. by rewrite casecmp_refl. Qed.

(** [return cJSON_GetObjectItem(...) != NULL] *)
Lemma check_key h p d cs key b : good h (L p d cs) -> (position (Some key) cs <? length cs)%nat = b ->
  twp (g ← cJSON_GetObjectItem p key; mret (negb (g =? 0))) (fun r h' => r = b /\ h' = h) h.
Proof.
  intros [O N _ _ _] E. apply twp_bind. eapply twp_equal; [by apply (GetObjectItem_ok h p d cs 0 0) |]. split; [| done]. apply ok_L in O as (_ & _ & O).
  by rewrite (fst_addr_pos _ _ _ _ O).
Qed.

Lemma check_index h p d cs i b : good h (L p d cs) -> (Z.to_nat i <? length cs)%nat = b ->
  twp (g ← cJSON_GetArrayItem p i; mret (negb (g =? 0))) (fun r h' => r = b /\ h' = h) h.
Proof.
  intros [O N _ _ _] E. apply twp_bind. eapply twp_equal; [by apply (GetArrayItem_ok h p d cs 0 0) |]. split; [| done]. apply ok_L in O as (_ & _ & O).
  by rewrite (fst_addr_pos _ _ _ _ O).
Qed.

Lemma map_remove_at {A B} (g : A -> B) i l : List.map g (remove_at i l) = remove_at i (List.map g l).
Proof. unfold remove_at. by rewrite map_app, firstn_map, skipn_map. Qed.
Lemma map_replace_at {A B} (g : A -> B) i x l : List.map g (replace_at i x l) = replace_at i (g x) (List.map g l).
Proof. unfold replace_at. rewrite length_map. destruct (_ <? _)%nat; [| done]. by rewrite map_app, firstn_map; cbn [List.map]; rewrite skipn_map. Qed.

End frame.

(** ** Well-typed trees *)

Definition named (i : CJson.cJSON) : bool := match CJson.string i with Some _ => true | None => false end.

(** Every item has one of the types; a string has its text, only arrays and
    objects have children, and the children of an object have names. *)
Fixpoint typed (i : CJson.cJSON) : bool :=
  let '(CJson.mk_item t s _ _ _ _ cs) := i in
  (0 <=? t) && (t <=? CJson.cJSON_Object) &&
  (negb (t =? CJson.cJSON_String) || match s with Some _ => true | None => false end) &&
  (bool_decide (length cs = 0%nat) || (t =? CJson.cJSON_Array) || (t =? CJson.cJSON_Object)) &&
  (negb (t =? CJson.cJSON_Object) || forallb named cs) && forallb typed cs.

Definition container (t : Z) : bool := (t =? CJson.cJSON_Array) || (t =? CJson.cJSON_Object).

Lemma typed_intro t s n d g k cs : 0 <= t <= CJson.cJSON_Object -> (t = CJson.cJSON_String -> s <> None) -> (container t = false -> cs = []) ->
  (t = CJson.cJSON_Object -> forallb named cs = true) -> forallb typed cs = true -> typed (CJson.mk_item t s n d g k cs) = true.
Proof.
  intros R Ss K Nm T. cbn [typed]. rewrite T. unfold container in K.
  destruct (Z.leb_spec 0 t), (Z.leb_spec t CJson.cJSON_Object); try lia. cbn [andb].
  destruct (Z.eqb_spec t CJson.cJSON_String); cbn [negb orb]; [destruct s; [| by destruct Ss] |];
    destruct (Z.eqb_spec t CJson.cJSON_Array), (Z.eqb_spec t CJson.cJSON_Object); cbn [negb orb]; rewrite ?orb_true_r; try (by rewrite Nm); try done;
    rewrite (K eq_refl); done.
Qed.

Lemma typed_elim t s n d g k cs : typed (CJson.mk_item t s n d g k cs) = true -> 0 <= t <= CJson.cJSON_Object /\ (t = CJson.cJSON_String -> s <> None) /\
  (container t = false -> cs = []) /\ (t = CJson.cJSON_Object -> forallb named cs = true) /\ forallb typed cs = true.
Proof.
  cbn [typed]. unfold container. rewrite !andb_true_iff. intros (((((A & B) & C) & D) & E) & F). apply Z.leb_le in A, B. split_and!; try done.
  - intros ->. by destruct s.
  - rewrite orb_false_iff. intros [E1 E2]. rewrite E1, E2, !orb_false_r in D. apply bool_decide_eq_true in D. by apply nil_length_inv.
  - by intros ->.
Qed.

(** The parser makes well-typed items; a member keeps its name. *)
Definition makes (item : CJson.cJSON) (r : option CJson.result) : Prop :=
  match r with Some (CJson.Good i _) => typed i = true /\ CJson.string i = CJson.string item | _ => True end.

Definition blank (item : CJson.cJSON) : Prop := CJson.child item = [].

Lemma typed_set_type t item : blank item -> 0 <= t <= CJson.cJSON_Object -> t <> CJson.cJSON_String -> typed (CJson.set_type t item) = true.
Proof. destruct item as [t0 s n d g k cs]. unfold blank. cbn [CJson.child CJson.set_type]. intros -> R N. by apply typed_intro. Qed.

Lemma parse_number_makes item p : blank item -> makes item (CJson.parse_number item p).
Proof.
  destruct item as [t s n d g k cs]. unfold blank. cbn [CJson.child]. intros ->. unfold CJson.parse_number.
  destruct (head p) as [c|]; [| done]. cbn [mbind option_bind]. destruct (CJson.int_part _) as [[m q]|]; [| done]. cbn [mbind option_bind].
  destruct (CJson.frac_part _ _) as [[[m' sc] q']|]; [| done]. cbn [mbind option_bind]. destruct (CJson.number_exp _) as [[e q'']|]; [| done]. cbn [mbind option_bind].
  destruct (_ && _); (split; [| done]); by apply typed_intro.
Qed.

Lemma parse_string_makes item p : blank item -> match CJson.parse_string item p with
  | Some (CJson.Good i _) => typed i = true /\ CJson.string i = CJson.string item /\ (exists s, CJson.valuestring i = Some s) /\ blank i | _ => True end.
Proof.
  destruct item as [t s n d g k cs]. unfold blank. cbn [CJson.child]. intros ->. unfold CJson.parse_string.
  destruct (head p) as [c|]; [| done]. cbn [mbind option_bind]. destruct (negb _); [done |]. destruct (CJson.scan_string _ _) as [len|]; [| done]. cbn [mbind option_bind].
  destruct (_ <? _); [done |]. destruct (CJson.copy_string _ _ _ _ _) as [[[out q]|]|]; cbn [mbind option_bind]; try done.
  destruct (CJson.emit _ _ _); [| done]. cbn [mbind option_bind]. destruct (head q); [| done]. cbn. split_and!; [done | done | by eexists | done].
Qed.

Lemma then_skip_makes item r k : (match r with Some (CJson.Good i _) => forall q, makes item (k i q) | _ => True end) -> makes item (CJson.then_skip r k).
Proof. intros K. unfold CJson.then_skip. destruct r as [[i q| |]|]; cbn [mbind option_bind]; try done. destruct (CJson.skip q); [| done]. apply K. Qed.

Lemma member_makes item parse p k : (forall i q, blank i -> makes i (parse i q)) ->
  (forall i q, typed i = true -> named i = true -> makes item (k i q)) -> makes item (CJson.parse_member parse p k).
Proof.
  intros P K. unfold CJson.parse_member. destruct (CJson.skip p) as [q|]; [| done]. cbn [mbind option_bind]. apply then_skip_makes.
  pose proof (parse_string_makes CJson.cJSON_New_Item q eq_refl) as PS. destruct (CJson.parse_string _ q) as [[i r| |]|]; try done. intros r'.
  destruct PS as (T & _ & (s & Es) & B). destruct (head r') as [c|]; [| done]. cbn [mbind option_bind]. destruct (negb _); [done |].
  destruct (CJson.skip (tail r')) as [r2|]; [| done]. cbn [mbind option_bind]. apply then_skip_makes.
  assert (blank (CJson.take_name i) /\ CJson.string (CJson.take_name i) = Some s) as [B' N'] by (destruct i as [t s0 n d g k0 cs]; cbn in *; by subst).
  specialize (P (CJson.take_name i) r2 B'). destruct (parse _ r2) as [[j r3| |]|]; try done. intros r4. destruct P as [T' E']. apply K; [done |].
  unfold named. by rewrite E', N'.
Qed.

Lemma parse_makes fuel :
  (forall item p, blank item -> makes item (CJson.parse_value fuel item p)) /\
  (forall item cs p, CJson.type item = CJson.cJSON_Array -> forallb typed cs = true -> makes item (CJson.parse_array_rest fuel item cs p)) /\
  (forall item cs p, CJson.type item = CJson.cJSON_Object -> forallb typed cs = true -> forallb named cs = true -> makes item (CJson.parse_object_rest fuel item cs p)).
Proof.
  induction fuel as [|fuel (IV & IA & IO)]; [done |]. split_and!.
  - intros item p B. cbn [CJson.parse_value].
    destruct (CJson.starts (str_bytes "null") p) as [[]|]; cbn [mbind option_bind]; try done; [split; [by apply typed_set_type | by destruct item] |].
    destruct (CJson.starts (str_bytes "false") p) as [[]|]; cbn [mbind option_bind]; try done; [split; [by apply typed_set_type | by destruct item] |].
    destruct (CJson.starts (str_bytes "true") p) as [[]|]; cbn [mbind option_bind]; try done.
    { destruct item as [t s n d g k cs]. cbn in *. unfold blank in B. cbn in B. by subst. }
    destruct (head p) as [c|]; [| done]. cbn [mbind option_bind]. destruct (CJson.eqc c CJson.dq).
    { pose proof (parse_string_makes item p B) as P. destruct (CJson.parse_string item p) as [[i q| |]|]; [by destruct P as (? & ? & _) | done..]. }
    destruct (_ || _); [by apply parse_number_makes |].
    assert (forall t, CJson.string (CJson.set_type t item) = CJson.string item /\ CJson.type (CJson.set_type t item) = t) as Et by (by destruct item).
    destruct (CJson.eqc c "["); [| destruct (CJson.eqc c "{"); [| done]]; (destruct (CJson.skip (tail p)) as [q|]; [| done]); cbn [mbind option_bind];
      (destruct (head q) as [c'|]; [| done]); cbn [mbind option_bind]; (destruct (CJson.eqc c' _); [split; [by apply typed_set_type | apply Et] |]).
    + destruct (CJson.skip q) as [r|]; [| done]. cbn [mbind option_bind]. apply then_skip_makes. specialize (IV CJson.cJSON_New_Item r eq_refl).
      destruct (CJson.parse_value _ _ r) as [[i r'| |]|]; try done. intros r2. destruct IV as [T _]. specialize (IA (CJson.set_type CJson.cJSON_Array item) [i] r2 (proj2 (Et _))).
      unfold makes in *. rewrite (proj1 (Et _)) in IA. apply IA. cbn. by rewrite T.
    + apply member_makes; [done |]. intros i r T Nm. specialize (IO (CJson.set_type CJson.cJSON_Object item) [i] r (proj2 (Et _))).
      unfold makes in *. rewrite (proj1 (Et _)) in IO. apply IO; cbn; by rewrite ?T, ?Nm.
  - intros item cs p E T. cbn [CJson.parse_array_rest]. destruct (head p) as [c|]; [| done]. cbn [mbind option_bind]. destruct (CJson.eqc c ",").
    + destruct (CJson.skip (tail p)) as [q|]; [| done]. cbn [mbind option_bind]. apply then_skip_makes. specialize (IV CJson.cJSON_New_Item q eq_refl).
      destruct (CJson.parse_value _ _ q) as [[i r'| |]|]; try done. intros r2. destruct IV as [Ti _]. apply IA; [done |]. rewrite forallb_app, T. cbn. by rewrite Ti.
    + destruct (CJson.eqc c "]"); [| done]. destruct item as [t s n d g k l]. cbn in E. subst t. split; [| done]. by apply typed_intro.
  - intros item cs p E T Nm. cbn [CJson.parse_object_rest]. destruct (head p) as [c|]; [| done]. cbn [mbind option_bind]. destruct (CJson.eqc c ",").
    + apply member_makes; [done |]. intros i r Ti Ni. apply IO; [done | |]; rewrite forallb_app, ?T, ?Nm; cbn; by rewrite ?Ti, ?Ni.
    + destruct (CJson.eqc c "}"); [| done]. destruct item as [t s n d g k l]. cbn in E. subst t. split; [| done]. by apply typed_intro.
Qed.

Lemma parse_typed text t : CJson.cJSON_Parse text = Some (Some (inl t)) -> typed t = true /\ CJson.string t = None.
Proof.
  unfold CJson.cJSON_Parse. destruct (CJson.skip _) as [p|]; [| done]. cbn [mbind option_bind].
  pose proof (proj1 (parse_makes (S (length p))) CJson.cJSON_New_Item p eq_refl) as P. destruct (CJson.parse_value _ _ p) as [[i q| |]|]; cbn [mbind option_bind]; try done.
  intros [= <-]. exact P.
Qed.

(** ** Well-typed trees in the heap *)

Lemma typed_no_ref t : typed (erase t) = true -> no_ref t = true.
Proof.
  induction t as [a d cs IH] using ltree_ind. rewrite erase_L. intros (R & _ & _ & _ & T)%typed_elim. cbn [no_ref].
  assert (Z.land (type d) cJSON_IsReference = 0) as ->.
  { unfold CJson.cJSON_Object in R. assert (type d ∈ [0;1;2;3;4;5;6;7]) as I by (rewrite !elem_of_cons; lia).
    repeat (apply elem_of_cons in I as [->|I]; [done |]). by apply elem_of_nil in I. }
  cbn [Z.eqb andb]. induction IH as [|c cs Hc _ IHl]; [done |]. cbn [List.map forallb] in *. apply andb_true_iff in T as [T1 T2]. rewrite Hc by done. by apply IHl.
Qed.

Lemma read_ok h f :
  (forall t pv nx, ok (nodes h) pv nx t -> typed (erase t) = true -> (2 * length (addrs t) <= f)%nat -> read_tree f (addr t) h = Ret (erase t) h) /\
  (forall l pv, oks (nodes h) pv 0 l -> forallb typed (List.map erase l) = true -> (1 + 2 * length (addrss l) <= f)%nat -> read_chain f (fst_addr 0 l) h = Ret (List.map erase l) h).
Proof.
  induction f as [|f [IT IC]]; split.
  - intros [a d cs] pv nx _ _ F. rewrite addrs_L in F. cbn in F. lia.
  - intros l pv _ _ F. lia.
  - intros [a d cs] pv nx (Za & E & O)%ok_L T F. rewrite erase_L in T |- *. apply typed_elim in T as (R & _ & K & _ & T). rewrite addrs_L in F. cbn [length] in F.
    cbn [read_tree addr]. unfold load, mbind, M_bind, get, deref. rewrite E. change (type (link _ _ _ d)) with (type d). change (child (link _ _ ?c _)) with c.
    assert (Z.land (type d) 255 = type d) as ->.
    { change 255 with (Z.ones 8). rewrite Z.land_ones by lia. apply Z.mod_small. unfold CJson.cJSON_Object in R. lia. }
    fold (container (type d)). destruct (container (type d)); [rewrite (IC cs 0) by (done || lia); done |]. rewrite (K eq_refl). done.
  - intros [|t l] pv O T F; [done |]. destruct O as [Ot Ol]. destruct (ok_addr _ _ _ _ Ot) as [Zt Et]. cbn [List.map forallb] in T. apply andb_true_iff in T as [T1 T2].
    rewrite addrss_cons, length_app in F. assert (1 <= length (addrs t))%nat by (destruct t; rewrite addrs_L; cbn; lia). cbn [read_chain fst_addr]. rewrite (proj2 (Z.eqb_neq _ _) Zt).
    unfold load, mbind, M_bind, get, deref. rewrite Et. rewrite (IT t pv (fst_addr 0 l)) by (done || lia). change (next (link _ ?x _ _)) with x. rewrite (IC l (addr t)) by (done || lia). done.
Qed.

Lemma print_ok h t pv nx fmt : ok (nodes h) pv nx t -> NoDup (addrs t) -> typed (erase t) = true ->
  print fmt (addr t) h = match CJson.print_value 0 fmt (erase t) with Some r => Ret r h | None => Undef end.
Proof.
  intros O N T. unfold print, mbind, M_bind, read_fuel, gets. destruct (read_ok h (S (S (size (nodes h) + size (nodes h))))) as [RT _].
  rewrite (RT t pv nx); [| done | done |]; [unfold deref; by destruct (CJson.print_value 0 fmt (erase t)) |].
  assert (length (addrs t) <= size (nodes h))%nat; [| lia]. apply dom_size; [done |]. by eapply ok_dom.
Qed.

(** The parser's tree in the heap. *)
Fixpoint labels (n : Z) (cs : list CJson.cJSON) : list ltree * Z :=
  match cs with [] => ([], n) | c :: cs => let '(t, n) := label n c in let '(l, n) := labels n cs in (t :: l, n) end.

Lemma label_item n ty s i d g k cs : label n (CJson.mk_item ty s i d g k cs) =
  let '(l, n') := labels (n + 1) cs in (L n (mk_node 0 0 0 ty s i d g k) l, n').
Proof. cbn [label]. f_equal. Qed.

Definition labelled (n : Z) (X : list Z) (n' : Z) : Prop := n <= n' /\ NoDup X /\ forall a, a ∈ X -> n <= a < n'.

Lemma labelled_app n X m Y k : labelled n X m -> labelled m Y k -> labelled n (X ++ Y) k.
Proof.
  intros (A & B & C) (D & E & F). split_and!; [lia | |].
  - apply NoDup_app. split_and!; [done | | done]. intros x I J. apply C in I. apply F in J. lia.
  - intros a [I|I]%elem_of_app; [apply C in I | apply F in I]; lia.
Qed.

Lemma label_ok t : forall n, let '(l, n') := label n t in erase l = t /\ addr l = n /\ labelled n (addrs l) n'.
Proof.
  induction t as [ty s i d g k cs IH] using CJsonText.CJsonText.item_ind. intros n. rewrite label_item.
  assert (forall m, let '(l, m') := labels m cs in List.map erase l = cs /\ labelled m (addrss l) m') as Ls.
  { induction IH as [|c cs Hc _ IHl]; intros m; cbn [labels]; [split; [done |]; split_and!; [lia | constructor | by intros a ?%elem_of_nil] |].
    specialize (Hc m). destruct (label m c) as [t' m1]. specialize (IHl m1). destruct (labels m1 cs) as [l m2]. destruct Hc as (Et & _ & Lt), IHl as (El & Ll).
    cbn [List.map]. rewrite Et, El, addrss_cons. split; [done |]. by eapply labelled_app. }
  specialize (Ls (n + 1)). destruct (labels (n + 1) cs) as [l n']. destruct Ls as [El (A & B & C)]. rewrite erase_L, El. split_and!; [done | done |]. rewrite addrs_L. split_and!; [lia | |].
  - apply NoDup_cons. split; [| done]. intros I. apply C in I. lia.
  - intros a [->|I]%elem_of_cons; [lia |]. apply C in I. lia.
Qed.

Fixpoint puts (pv : Z) (cs : list ltree) (h : gmap Z node) : gmap Z node :=
  match cs with [] => h | c :: cs => puts (addr c) cs (put_tree pv (fst_addr 0 cs) c h) end.

Lemma put_tree_L pv nx a d cs h : put_tree pv nx (L a d cs) h = puts 0 cs (<[a := link pv nx (fst_addr 0 cs) d]> h).
Proof. cbn [put_tree]. generalize 0 at 2 4 as pv'. generalize (<[a:=link pv nx (fst_addr 0 cs) d]> h). induction cs as [|c cs IH]; intros g pv'; [done |]. cbn [puts]. apply IH. Qed.

Lemma put_ok t : forall pv nx h, NoDup (addrs t) -> 0 ∉ addrs t -> ok (put_tree pv nx t h) pv nx t /\ same (addrs t) h (put_tree pv nx t h).
Proof.
  induction t as [a d cs IH] using ltree_ind. intros pv nx h N Z. rewrite put_tree_L. rewrite addrs_L in *. apply NoDup_cons in N as [Na N]. apply not_elem_of_cons in Z as [Za Z].
  assert (forall pv h, oks (puts pv cs h) pv 0 cs /\ same (addrss cs) h (puts pv cs h)) as P.
  { clear Na. induction IH as [|c cs Hc _ IHl]; intros pv' g; [split; [done | apply same_refl] |]. rewrite addrss_cons in *. apply NoDup_app in N as (Nc & D & Nl). apply not_elem_of_app in Z as [Zc Zl].
    cbn [puts]. destruct (Hc pv' (fst_addr 0 cs) g Nc Zc) as [Oc Sc]. destruct (IHl Nl Zl (addr c) (put_tree pv' (fst_addr 0 cs) c g)) as [Ol Sl]. split.
    - split; [| done]. eapply ok_frame; [| exact Oc]. intros b I. apply Sl. by apply D.
    - intros b Nb. apply not_elem_of_app in Nb as [N1 N2]. by rewrite (Sc b N1), (Sl b N2). }
  destruct (P 0 (<[a:=link pv nx (fst_addr 0 cs) d]> h)) as [O S]. split.
  - apply ok_L. split_and!; [done | | done]. rewrite <- (S a) by done. by rewrite lookup_insert_eq.
  - intros b Nb. apply not_elem_of_cons in Nb as [Nba Nb]. rewrite <- (S b) by done. by rewrite lookup_insert_ne by done.
Qed.

(** The tree is new, and the heap is as it was elsewhere. *)
Lemma heap_parse_ok h text t : bounded h -> CJson.cJSON_Parse text = Some (Some (inl t)) ->
  twp (cJSON_Parse text) (fun r h' => exists l, r = inl (addr l) /\ erase l = t /\ ok (nodes h') 0 0 l /\ NoDup (addrs l) /\ no_ref l = true /\ bounded h' /\
    (forall a, a ∈ addrs l -> brk h <= a) /\ same (addrs l) (nodes h) (nodes h')) h.
Proof.
  intros B P. unfold twp, cJSON_Parse. rewrite P. pose proof (label_ok t (brk h)) as Lb. destruct (label (brk h) t) as [l n']. destruct Lb as (El & Ea & (Le & N & R)).
  pose proof B as [B0 Bd]. assert (0 ∉ addrs l) as Z0 by (intros I; apply R in I; lia). destruct (put_ok l 0 0 (nodes h) N Z0) as [O S].
  exists l. split_and!; [done | done | done | done | | | intros a I; apply R in I; lia | done].
  - apply typed_no_ref. rewrite El. by apply parse_typed in P as [? _].
  - split; cbn [brk nodes]; [lia |]. intros a [m E]. destruct (decide (a ∈ addrs l)) as [I|I]; [apply R in I; lia |]. rewrite <- (S a I) in E. specialize (Bd a ltac:(by eexists)). lia.
Qed.

Lemma bounded_without h X : bounded h -> bounded (mk_heap (without X (nodes h)) (brk h)).
Proof. intros [B0 B]. split; [done |]. intros a [n E]. cbn [nodes] in E. rewrite lookup_without in E. case_bool_decide; [done |]. apply B. by exists n. Qed.

Lemma forallb_take {A} (f : A -> bool) n l : forallb f l = true -> forallb f (take n l) = true.
Proof. intros F. rewrite <- (take_drop n l) in F. rewrite forallb_app in F. apply andb_true_iff in F as [F _]; exact F. Qed.
Lemma forallb_drop {A} (f : A -> bool) n l : forallb f l = true -> forallb f (drop n l) = true.
Proof. intros F. rewrite <- (take_drop n l) in F. rewrite forallb_app in F. apply andb_true_iff in F as [_ F]; exact F. Qed.
Lemma forallb_remove {A} (f : A -> bool) n l : forallb f l = true -> forallb f (remove_at n l) = true.
Proof. intros F. unfold remove_at. by rewrite forallb_app, forallb_take, forallb_drop. Qed.
Lemma forallb_replace {A} (f : A -> bool) n x l : f x = true -> forallb f l = true -> forallb f (replace_at n x l) = true.
Proof. intros X F. unfold replace_at. destruct (_ <? _)%nat; [| done]. rewrite forallb_app, forallb_take by done. cbn. by rewrite X, forallb_drop. Qed.

End libm.
End CJsonTree.
