(* ===== verification/CJsonStore.v ===== *)
(** * CJsonStore: the objects of [CJsonObject.cpp] are independent trees

    The methods of [util/json/CJsonObject.cpp] that make, change and destroy
    objects, as operations on a store that maps each object to its tree
    ([apply], [step]), and the proof that they do this to the items and the
    wrappers in memory, as long as no wrapper of a child has been handed out.
    An object that is added to another one is copied through its text. *)

From S2P Require Import Prelude Util Effect CFloat CJson CJsonText CJsonHeap CJsonObject CJsonTree.
From Stdlib Require Import SpecFloat.
Import Util CFloat CJsonHeap CJsonObject CJsonTree.

#[local] Open Scope Z_scope.

Module CJsonStore.

(** ** What the methods do to a store of trees *)

Inductive value :=
  | VString (s : bytes) | VInt32 (z : Z) | VUint32 (z : Z) | VInt64 (z : Z) | VUint64 (z : Z)
  | VBool (b : bool) | VFloat (d : double) | VDouble (d : double) | VObject (oJsonObject : Z).

(** The methods that change an object.  [TakeKey k o] and [TakeAt i o] are
    [o.Get(k, this)] and [o.Get(i, this)]; [LoadFile] has what the file holds,
    if it can be opened. *)
Inductive op :=
  | AddEmptyObject (key : bytes) | AddEmptyArray (key : bytes)
  | AddKey (key : bytes) (v : value) | ReplaceKey (key : bytes) (v : value) | DeleteKey (key : bytes)
  | Append (v : value) | Prepend (v : value) | ReplaceAt (i : Z) (v : value) | DeleteAt (i : Z)
  | ParseText (text : bytes) | LoadFile (content : option bytes) | Assign (other : Z) | Reset
  | TakeKey (key : bytes) (other : Z) | TakeAt (i : Z) (other : Z).

Section libm.
Context `{CJson.Libm}.

Definition run_op (this : Z) (c : op) : M state bool :=
  match c with
  | AddEmptyObject k => AddEmptySubObject this k
  | AddEmptyArray k => AddEmptySubArray this k
  | AddKey k (VString s) => Add_key_string this k s
  | AddKey k (VInt32 z) => Add_key_int32 this k z
  | AddKey k (VUint32 z) => Add_key_uint32 this k z
  | AddKey k (VInt64 z) => Add_key_int64 this k z
  | AddKey k (VUint64 z) => Add_key_uint64 this k z
  | AddKey k (VBool b) => Add_key_bool this k b
  | AddKey k (VFloat d) => Add_key_float this k d
  | AddKey k (VDouble d) => Add_key_double this k d
  | AddKey k (VObject o) => Add_key_object this k o
  | ReplaceKey k (VString s) => Replace_key_string this k s
  | ReplaceKey k (VInt32 z) => Replace_key_int32 this k z
  | ReplaceKey k (VUint32 z) => Replace_key_uint32 this k z
  | ReplaceKey k (VInt64 z) => Replace_key_int64 this k z
  | ReplaceKey k (VUint64 z) => Replace_key_uint64 this k z
  | ReplaceKey k (VBool b) => Replace_key_bool this k b
  | ReplaceKey k (VFloat d) => Replace_key_float this k d
  | ReplaceKey k (VDouble d) => Replace_key_double this k d
  | ReplaceKey k (VObject o) => Replace_key_object this k o
  | DeleteKey k => Delete_key this k
  | Append (VString s) => Add_string this s
  | Append (VInt32 z) => Add_int32 this z
  | Append (VUint32 z) => Add_uint32 this z
  | Append (VInt64 z) => Add_int64 this z
  | Append (VUint64 z) => Add_uint64 this z
  | Append (VBool b) => Add_bool this b
  | Append (VFloat d) => Add_float this d
  | Append (VDouble d) => Add_double this d
  | Append (VObject o) => Add_object this o
  | Prepend (VString s) => AddAsFirst_string this s
  | Prepend (VInt32 z) => AddAsFirst_int32 this z
  | Prepend (VUint32 z) => AddAsFirst_uint32 this z
  | Prepend (VInt64 z) => AddAsFirst_int64 this z
  | Prepend (VUint64 z) => AddAsFirst_uint64 this z
  | Prepend (VBool b) => AddAsFirst_bool this b
  | Prepend (VFloat d) => AddAsFirst_float this d
  | Prepend (VDouble d) => AddAsFirst_double this d
  | Prepend (VObject o) => AddAsFirst_object this o
  | ReplaceAt i (VString s) => Replace_index_string this i s
  | ReplaceAt i (VInt32 z) => Replace_index_int32 this i z
  | ReplaceAt i (VUint32 z) => Replace_index_uint32 this i z
  | ReplaceAt i (VInt64 z) => Replace_index_int64 this i z
  | ReplaceAt i (VUint64 z) => Replace_index_uint64 this i z
  | ReplaceAt i (VBool b) => Replace_index_bool this i b
  | ReplaceAt i (VFloat d) => Replace_index_float this i d
  | ReplaceAt i (VDouble d) => Replace_index_double this i d
  | ReplaceAt i (VObject o) => Replace_index_object this i o
  | DeleteAt i => Delete_index this i
  | ParseText text => Parse this text
  | LoadFile content => Load this content
  | Assign o => _ ← assign this o; mret true
  | Reset => _ ← Clear this; mret true
  | TakeKey k o => Get_key_object o k this
  | TakeAt i o => Get_index_object o i this
  end.

(** Each object has a tree, or is empty. *)
Abbreviation store := (gmap Z (option CJson.cJSON)).

(** The text of an object; undefined when a number does not fit the buffer it
    is printed into. *)
Definition text_of (fmt : bool) (x : option CJson.cJSON) : option bytes :=
  match x with None => Some [] | Some t => r ← CJson.print_value 0 fmt t; Some (default [] r) end.

(** What is parsed from a text, nothing for an error; undefined when the parser
    leaves the text. *)
Definition parsed (text : bytes) : option (option CJson.cJSON) :=
  match CJson.cJSON_Parse text with
  | Some (Some (inl t)) => Some (Some t)
  | Some (Some (inr _)) => Some None
  | _ => None
  end.

Definition copied (x : option CJson.cJSON) : option (option CJson.cJSON) := text ← text_of false x; parsed text.

Definition int_item (n g : Z) : CJson.cJSON := CJson.mk_item CJson.cJSON_Int None n (to_double n 0) g None [].
Definition double_item (d : double) : CJson.cJSON := CJson.mk_item CJson.cJSON_Double None (CJson.cast_float d) d (-1) None [].
Definition plain_item (t : Z) : CJson.cJSON := CJson.mk_item t None 0 (S754_zero false) 0 None [].

(** The item of a value; an unsigned number at the head of an array gets the
    sign of a signed one.  Nothing when the text of an object is no JSON. *)
Definition new_item (σ : store) (head : bool) (v : value) : option (option CJson.cJSON) :=
  match v with
  | VString s => Some (Some (CJson.mk_item CJson.cJSON_String (Some (c_cut s)) 0 (S754_zero false) 0 None []))
  | VInt32 z | VInt64 z => Some (Some (int_item (u64 z) (-1)))
  | VUint32 z => Some (Some (int_item (u64 z) (if head then -1 else 1)))
  | VUint64 z => Some (Some (int_item z (if head then -1 else 1)))
  | VBool b => Some (Some (plain_item (if b then CJson.cJSON_True else CJson.cJSON_False)))
  | VFloat d | VDouble d => Some (Some (double_item d))
  | VObject o => x ← σ !! o; copied x
  end.

(** A change of the children of a tree of the type [ty]. *)
Definition in_tree (ty : Z) (t : CJson.cJSON) (f : list CJson.cJSON -> option (bool * list CJson.cJSON)) : option (bool * option CJson.cJSON) :=
  if CJson.type t =? ty then r ← f (CJson.child t); Some (fst r, Some (CJson.set_child (snd r) t)) else Some (false, Some t).
Definition in_old (ty : Z) (x : option CJson.cJSON) (f : list CJson.cJSON -> option (bool * list CJson.cJSON)) : option (bool * option CJson.cJSON) :=
  match x with None => Some (false, None) | Some t => in_tree ty t f end.

(** A change with a new item, if there is one. *)
Definition with_item (c : option (option CJson.cJSON)) (l : list CJson.cJSON) (f : CJson.cJSON -> list CJson.cJSON -> bool * list CJson.cJSON) :
    option (bool * list CJson.cJSON) :=
  c ← c; Some (match c with Some c => f c l | None => (false, l) end).

Definition add_named (key : bytes) (c : CJson.cJSON) (l : list CJson.cJSON) := (true, l ++ [with_name (c_cut key) c]).
Definition replace_named (key : bytes) (c : CJson.cJSON) (l : list CJson.cJSON) :=
  ((index_of (c_cut key) l <? length l)%nat, replace_at (index_of (c_cut key) l) (with_name (c_cut key) c) l).
Definition add_last (c : CJson.cJSON) (l : list CJson.cJSON) := (true, l ++ [c]).
Definition add_first (c : CJson.cJSON) (l : list CJson.cJSON) := (true, c :: l).
Definition replace_nth (i : Z) (c : CJson.cJSON) (l : list CJson.cJSON) := ((Z.to_nat i <? length l)%nat, replace_at (Z.to_nat i) c l).

Definition isSome {A} (x : option A) : bool := match x with Some _ => true | None => false end.

Definition filled (text : bytes) : option (bool * option CJson.cJSON) := z ← parsed text; Some (isSome z, z).

(** A child that is printed and parsed again. *)
Definition child_of (x : option CJson.cJSON) (ty : Z) (i : list CJson.cJSON -> nat) : option CJson.cJSON :=
  match x with Some t => if CJson.type t =? ty then CJson.child t !! i (CJson.child t) else None | None => None end.
Definition taken (u x : option CJson.cJSON) : option (bool * option CJson.cJSON) :=
  match u with None => Some (false, x) | Some u => r ← CJson.print_value 0 true u; text ← r; filled text end.

(** What the method returns and the tree of [this] behind it; undefined when
    the object or another one that is named does not exist, or a text is. *)
Definition apply (σ : store) (this : Z) (c : op) : option (bool * option CJson.cJSON) :=
  x ← σ !! this;
  let in_new ty f := let t := default (plain_item ty) x in in_tree ty t (f (<[this := Some t]> σ)) in
  match c with
  | AddEmptyObject k => in_new CJson.cJSON_Object (fun _ l => Some (add_named k (plain_item CJson.cJSON_Object) l))
  | AddEmptyArray k => in_new CJson.cJSON_Object (fun _ l => Some (add_named k (plain_item CJson.cJSON_Array) l))
  | AddKey k v => in_new CJson.cJSON_Object (fun σ l => with_item (new_item σ false v) l (add_named k))
  | ReplaceKey k v => in_old CJson.cJSON_Object x (fun l => with_item (new_item σ false v) l (replace_named k))
  | DeleteKey k => in_old CJson.cJSON_Object x (fun l => Some (true, remove_at (index_of (c_cut k) l) l))
  | Append v => in_new CJson.cJSON_Array (fun σ l => with_item (new_item σ false v) l add_last)
  | Prepend v => in_new CJson.cJSON_Array (fun σ l => with_item (new_item σ true v) l add_first)
  | ReplaceAt i v => in_old CJson.cJSON_Array x (fun l => with_item (new_item σ false v) l (replace_nth i))
  | DeleteAt i => in_old CJson.cJSON_Array x (fun l => Some (true, remove_at (Z.to_nat i) l))
  | ParseText text => filled text
  | LoadFile content => match content with None => Some (false, x) | Some text => filled text end
  | Assign o => y ← σ !! o; z ← copied y; Some (true, z)
  | Reset => Some (true, None)
  | TakeKey k o => y ← σ !! o; taken (child_of y CJson.cJSON_Object (index_of (c_cut k))) x
  | TakeAt i o => y ← σ !! o; taken (child_of y CJson.cJSON_Array (fun _ => Z.to_nat i)) x
  end.

(** *** The life of the objects *)

(** The constructors, a change of an object, and the destructor. *)
Inductive call := New | NewText (text : bytes) | NewCopy (other : Z) | NewPointer (other : Z) | On (this : Z) (c : op) | Destroy (this : Z).
Inductive answer := AObject (p : Z) | ABool (b : bool) | ADone.

Definition run_call (c : call) : M state answer :=
  match c with
  | New => p ← CJsonObject_empty; mret (AObject p)
  | NewText text => p ← CJsonObject_text text; mret (AObject p)
  | NewCopy o => p ← CJsonObject_copy o; mret (AObject p)
  | NewPointer o => p ← CJsonObject_pointer o; mret (AObject p)
  | On this c => b ← run_op this c; mret (ABool b)
  | Destroy this => _ ← delete_object this; mret ADone
  end.
Fixpoint run_calls (l : list call) : M state (list answer) :=
  match l with [] => mret [] | c :: l => a ← run_call c; r ← run_calls l; mret (a :: r) end.

(** The trees and the address of the next object. *)
Record world := mk_world { trees : store; next_object : Z }.

Definition made_new (w : world) (x : option (option CJson.cJSON)) : option (answer * world) :=
  x ← x; Some (AObject (next_object w), mk_world (<[next_object w := x]> (trees w)) (next_object w + 1)).

Definition step (w : world) (c : call) : option (answer * world) :=
  match c with
  | New => made_new w (Some None)
  | NewText text => made_new w (parsed text)
  | NewCopy o => x ← trees w !! o; made_new w (copied x)
  | NewPointer o => if o =? 0 then made_new w (Some None) else x ← trees w !! o; made_new w (copied x)
  | On this c => r ← apply (trees w) this c; Some (ABool (fst r), mk_world (<[this := snd r]> (trees w)) (next_object w))
  | Destroy this => _ ← trees w !! this; Some (ADone, mk_world (delete this (trees w)) (next_object w))
  end.
Fixpoint steps (w : world) (l : list call) : option (list answer * world) :=
  match l with [] => Some ([], w) | c :: l => r ← step w c; r' ← steps (snd r) l; Some (fst r :: fst r', snd r') end.

(** ** An object in memory *)

Definition obj_for (x : option ltree) (e : bytes) : obj := mk_obj (match x with Some t => addr t | None => 0 end) 0 e ∅ ∅.

Definition opt_typed (x : option CJson.cJSON) : bool := match x with Some t => typed t | None => true end.

(** [fill]: what the constructors of cJSON do to a new item. *)
Definition fill (head : bool) (v : value) (n : node) : node :=
  match v with
  | VString s => set_valuestring (Some (c_cut s)) (set_type CJson.cJSON_String n)
  | VInt32 z | VInt64 z => set_number (u64 z) (to_double (u64 z) 0) (-1) (set_type CJson.cJSON_Int n)
  | VUint32 z => set_number (u64 z) (to_double (u64 z) 0) (if head then -1 else 1) (set_type CJson.cJSON_Int n)
  | VUint64 z => set_number z (to_double z 0) (if head then -1 else 1) (set_type CJson.cJSON_Int n)
  | VBool b => set_type (if b then CJson.cJSON_True else CJson.cJSON_False) n
  | VFloat d | VDouble d => set_number (CJson.cast_float d) d (-1) (set_type CJson.cJSON_Double n)
  | VObject _ => n
  end.

Lemma fill_loose head v : loose (fill head v node0).
Proof. destruct v as [| | | | |[]| | |], head; done. Qed.

Lemma twp_on_items {A} (m : M heap A) Q s : twp m (fun a h => Q a (mk_state h (objs s) (obrk s))) (items s) -> twp (on_items m) Q s.
Proof. unfold twp, on_items. by destruct (m (items s)). Qed.

Lemma parsed_good text t : parsed text = Some (Some t) -> CJson.cJSON_Parse text = Some (Some (inl t)).
Proof. unfold parsed. destruct (CJson.cJSON_Parse text) as [[[u|e]|]|]; congruence. Qed.

Lemma parsed_bad text h : parsed text = Some None -> exists ep, cJSON_Parse text h = Ret (inr ep) h.
Proof. unfold parsed, cJSON_Parse. destruct (CJson.cJSON_Parse text) as [[[u|e]|]|]; try done. intros _. by eexists. Qed.

(** [this] stands for [x], among the other objects of [σ]; none of them has
    handed out a wrapper. *)
Section object.
Context (σ : gmap Z (option ltree)) (n0 this : Z).
Hypothesis (Hthis : σ !! this = None).
Hypothesis (Hσ : forall q u, σ !! q = Some (Some u) -> NoDup (addrs u) /\ typed (erase u) = true).

Definition Fr (u : ltree) : Prop := exists q, σ !! q = Some (Some u).

Record stands (s : state) (x : option ltree) : Prop := {
  st_obj : exists e, objs s !! this = Some (obj_for x e);
  st_bounded : bounded (items s);
  st_tree : match x with Some t => good Fr (items s) t | None => framed Fr (items s) [] end;
  st_rest : forall q y, σ !! q = Some y -> exists e, objs s !! q = Some (obj_for y e);
  st_next : obrk s = n0 }.

Lemma stands_good s t : stands s (Some t) -> good Fr (items s) t.
Proof. apply st_tree. Qed.

(** The trees when [this] has the tree [x]. *)
Definition view (x : option ltree) : store := <[this := erase <$> x]> (fmap (M:=option) erase <$> σ).

Lemma stands_items s x h' t' : stands s x -> good Fr h' t' -> (match x with Some t => addr t' = addr t | None => False end) -> stands (mk_state h' (objs s) (obrk s)) (Some t').
Proof. intros [[e E] _ _ R N] G Ea. destruct x as [t|]; [| done]. split; cbn [objs items obrk]; [exists e; rewrite E; unfold obj_for; by rewrite Ea | apply G | done | done | done]. Qed.

Lemma twp_obj s x Q : stands s x -> (forall e, Q (obj_for x e) s) -> twp (obj_of this) Q s.
Proof. intros [[e E] _ _ _ _] HQ. unfold obj_of. apply twp_bind. apply twp_get. eapply twp_deref; [exact E | apply HQ]. Qed.

Lemma stands_set s x o : stands s x -> (exists e, o = obj_for x e) -> stands (mk_state (items s) (<[this := o]> (objs s)) (obrk s)) x.
Proof.
  intros [_ B T R N] [e ->]. split; cbn [objs items obrk]; [exists e; by rewrite lookup_insert_eq | done | done | | done].
  intros q y E. rewrite lookup_insert_ne by congruence. auto.
Qed.

Lemma stands_touch s x f : (forall e, exists e', f (obj_for x e) = obj_for x e') -> stands s x -> twp (update_obj this f) (fun _ s' => stands s' x) s.
Proof.
  intros F S. pose proof S as [[e E] _ _ _ _]. unfold update_obj, obj_of. apply twp_bind. apply twp_bind. apply twp_get. eapply twp_deref; [exact E |].
  apply stands_set; [done |]. destruct (F e) as [e' ->]. by exists e'.
Qed.

Lemma fail_ok s x msg : stands s x -> twp (fail_with this msg) (fun b s' => b = false /\ stands s' x) s.
Proof. intros S. unfold fail_with. apply twp_bind. eapply twp_mono; [by apply (stands_touch s x); [by eexists |] |]. done. Qed.

(** *** The text of an object *)

Lemma held s x q t : stands s x -> opt_typed (erase <$> x) = true -> <[this := x]> σ !! q = Some (Some t) ->
  ok (nodes (items s)) 0 0 t /\ NoDup (addrs t) /\ typed (erase t) = true.
Proof.
  intros [_ _ T _ _] Ty [[<- ->]|[N E]]%lookup_insert_Some; [split_and!; [apply T | apply T | done] |]. destruct (Hσ _ _ E) as [Nd Tt]. split_and!; [| done | done].
  destruct x as [u|]; [apply (g_framed _ _ _ T) | apply T]; by exists q.
Qed.

Lemma object_of s x q y : stands s x -> <[this := x]> σ !! q = Some y -> exists e, obj_of q s = Ret (obj_for y e) s.
Proof.
  intros [[e E] _ _ R _] [[<- ->]|[N Eq]]%lookup_insert_Some; [| apply R in Eq as [e' E']]; eexists; unfold obj_of, mbind, M_bind, get, deref; by rewrite ?E, ?E'.
Qed.

Lemma view_lookup x q y : view x !! q = Some y -> exists z, <[this := x]> σ !! q = Some z /\ y = erase <$> z.
Proof.
  unfold view. intros [[<- <-]|[N E]]%lookup_insert_Some; [exists x; by rewrite lookup_insert_eq |]. rewrite lookup_fmap in E. apply fmap_Some in E as (z & Ez & ->).
  exists z. by rewrite lookup_insert_ne.
Qed.

Lemma text_ok s x q y fmt text : stands s x -> opt_typed (erase <$> x) = true -> view x !! q = Some y -> text_of fmt y = Some text -> to_text q fmt s = Ret text s.
Proof.
  intros S Ty (z & Ez & ->)%view_lookup Tx. destruct (object_of _ _ _ _ S Ez) as [e Eo]. unfold to_text, mbind at 1, M_bind. rewrite Eo.
  destruct z as [t|]; cbn [fmap option_fmap option_map text_of] in Tx; [| by injection Tx as <-]. destruct (held _ _ _ _ S Ty Ez) as (O & N & T).
  cbn [obj_for m_pJsonData]. destruct (ok_addr _ _ _ _ O) as [Z _]. rewrite (proj2 (Z.eqb_neq _ _) Z). cbn [negb]. unfold mbind, M_bind, on_items.
  rewrite (print_ok _ t 0 0) by done. destruct (CJson.print_value 0 fmt (erase t)) as [r|]; [| done]. injection Tx as <-. by destruct s.
Qed.

(** *** New items *)

(** [m] gives the item [new] to the rest of a method, or fails. *)
Definition provides (m : (Z -> M state bool) -> M state bool) (new : store -> option (option CJson.cJSON)) : Prop :=
  forall s t c k Q, stands s (Some t) -> typed (erase t) = true -> new (view (Some t)) = Some c ->
    match c with
    | Some c => forall s' l, erase l = c -> stands s' (Some t) -> spare Fr (items s') t l -> twp (k (addr l)) Q s'
    | None => forall s', stands s' (Some t) -> Q false s'
    end -> twp (m k) Q s.

(** A tree at new addresses. *)
Lemma fresh_tree h h' X l : bounded h -> framed Fr h X -> (forall a, a ∈ addrs l -> brk h <= a) -> same (addrs l) (nodes h) (nodes h') ->
  framed Fr h' X /\ framed Fr h' (addrs l).
Proof.
  intros B F R S. split; intros u Fu; destruct (F u Fu) as [O D]; (assert (forall a, a ∈ addrs u -> a ∉ addrs l) as A by
    (intros a I J; apply R in J; pose proof (ok_below _ _ _ _ B O a I); lia)); (split; [eapply ok_frame; [| exact O]; intros a I; by apply S, A | done]).
Qed.

Lemma good_spare h h' t l : good Fr h t -> bounded h' -> ok (nodes h') 0 0 l -> NoDup (addrs l) -> no_ref l = true ->
  (forall a, a ∈ addrs l -> brk h <= a) -> same (addrs l) (nodes h) (nodes h') -> good Fr h' t /\ spare Fr h' t l.
Proof.
  intros [O N R B F] B' Ol Nl Rl Lo S. destruct (fresh_tree h h' _ l B F Lo S) as [F1 F2].
  assert (forall a, a ∈ addrs l -> a ∉ addrs t) as A by (intros a I J; apply Lo in I; pose proof (ok_below _ _ _ _ B O a J); lia).
  split; split; try done. eapply ok_frame; [| exact O]. intros a I. apply S. intros J. by apply (A a).
Qed.

Lemma made_provides g it : loose (g node0) -> (forall p, erase (L p (g node0) []) = it) -> provides (made (create g)) (fun _ => Some (Some it)).
Proof.
  intros Lo It s t c k Q S Ty [= <-] K. unfold made. apply twp_bind. apply twp_on_items. pose proof (stands_good _ _ S) as G.
  pose proof G as [O N R B F]. eapply twp_mono; [by apply create_item_ok |]. cbn beta. intros p h (-> & Op & B' & Sm). destruct (ok_addr _ _ _ _ Op) as [Zp _]. cbn [addr] in Zp.
  rewrite (proj2 (Z.eqb_neq _ _) Zp). destruct (good_spare (items s) h t (L (brk (items s)) (g node0) []) G B' Op) as [G' Sp].
  - repeat constructor. apply not_elem_of_nil.
  - destruct Lo as [_ Lo]. cbn [no_ref]. by rewrite Lo.
  - intros a ->%list_elem_of_singleton. lia.
  - done.
  - apply (K _ (L (brk (items s)) (g node0) [])); [apply It | by eapply stands_items | done].
Qed.

Lemma copy_provides o : provides (copy_of this o) (fun σ => x ← σ !! o; copied x).
Proof.
  intros s t c k Q S Ty E K. destruct (view (Some t) !! o) as [y|] eqn:Ey; [| done]. cbn [mbind option_bind] in E. unfold copied in E.
  destruct (text_of false y) as [text|] eqn:Et; [| done]. cbn [mbind option_bind] in E. unfold copy_of, ToString. apply twp_bind.
  eapply twp_returns; [by apply (text_ok s (Some t) o y) |]. apply twp_bind. apply twp_on_items. destruct c as [c|].
  - apply parsed_good in E. pose proof (stands_good _ _ S) as G. eapply twp_mono; [apply heap_parse_ok; [apply S | exact E] |]. cbn beta.
    intros r h (l & -> & El & Ol & Nl & Rl & Bl & Lo & Sm). destruct (good_spare _ _ _ _ G Bl Ol Nl Rl Lo Sm) as [G' Sp]. apply (K _ l); [done | by eapply stands_items | done].
  - destruct (parsed_bad text (items s) E) as [ep Ep]. eapply twp_equal; [exact Ep |]. replace (mk_state (items s) (objs s) (obrk s)) with s by (by destruct s).
    eapply twp_mono; [by apply fail_ok |]. cbn beta. intros b s' [-> S']. by apply K.
Qed.

Lemma scalar_provides head v : (forall o, v <> VObject o) -> provides (made (create (fill head v))) (fun σ => new_item σ head v).
Proof.
  intros Nv. assert (exists it, (forall p, erase (L p (fill head v node0) []) = it) /\ forall σ, new_item σ head v = Some (Some it)) as (it & It & E).
  { exists (erase (L 0 (fill head v node0) [])). split; [done |]. intros σ'. destruct v as [| | | | | | | |o]; try done. by destruct (Nv o). }
  intros s t c k Q S Ty En. eapply (made_provides _ it); [apply fill_loose | done | done | done |]. by rewrite <- En, E.
Qed.

(** *** Changes of the children *)

(** What a change with a new item does when the type is right. *)
Definition edits (k : Z -> Z -> M state bool) (f : CJson.cJSON -> list CJson.cJSON -> bool * list CJson.cJSON) : Prop :=
  forall s p d cs l, stands s (Some (L p d cs)) -> spare Fr (items s) (L p d cs) l ->
    twp (k p (addr l)) (fun b s' => exists cs', stands s' (Some (L p d cs')) /\ (b, List.map erase cs') = f (erase l) (List.map erase cs)) s.

Definition changes (k : Z -> M state bool) (f : store -> list CJson.cJSON -> option (bool * list CJson.cJSON)) : Prop :=
  forall s p d cs r, stands s (Some (L p d cs)) -> typed (erase (L p d cs)) = true -> f (view (Some (L p d cs))) (List.map erase cs) = Some r ->
    twp (k p) (fun b s' => exists cs', stands s' (Some (L p d cs')) /\ (b, List.map erase cs') = r) s.

Lemma edit_changes m new k f : provides m new -> edits k f -> changes (fun p => m (k p)) (fun σ l => with_item (new σ) l f).
Proof.
  intros P K s p d cs r S Ty E. unfold with_item in E. destruct (new (view _)) as [c|] eqn:En; [| done]. cbn [mbind option_bind] in E. injection E as <-.
  eapply (P s (L p d cs) c); [done | done | done |]. destruct c as [c|].
  - intros s' l <- S' Sp. by apply K.
  - intros s' S'. by exists cs.
Qed.

Lemma forget_key_ok s x key : stands s x -> twp (forget_key this key) (fun _ s' => stands s' x) s.
Proof. intros S. unfold forget_key. apply twp_bind. eapply twp_obj; [exact S |]. intros e. cbn [obj_for m_mapJsonObjectRef]. by rewrite lookup_empty. Qed.

Lemma forget_indices_ok s x gone : stands s x -> twp (forget_indices this gone) (fun _ s' => stands s' x) s.
Proof. intros S. unfold forget_indices. apply twp_bind. eapply twp_obj; [exact S |]. intros e. cbn [obj_for m_mapJsonArrayRef]. by rewrite map_to_list_empty. Qed.

(** A change that goes on with the wrappers. *)
Lemma edits_then k f (fin : Z -> M state unit) : edits k f -> (forall s p d cs, stands s (Some (L p d cs)) -> twp (fin p) (fun _ s' => stands s' (Some (L p d cs))) s) ->
  edits (fun p j => b ← k p j; if b : bool then _ ← fin p; mret true else mret false) f.
Proof.
  intros K F s p d cs l S Sp. apply twp_bind. eapply twp_mono; [by apply K |]. cbn beta. intros b s' (cs' & S' & E). destruct b; [| by exists cs'].
  apply twp_bind. eapply twp_mono; [by apply F |]. cbn beta. intros _ s'' S''. by exists cs'.
Qed.

Lemma add_empty_edits key : edits (fun p j => _ ← on_items (cJSON_AddItemToObject p (c_cut key) j); mret true) (add_named key).
Proof.
  intros s p d cs l S Sp. apply twp_bind. apply twp_on_items. eapply twp_mono; [apply (AddItemToObject_ok Fr); [apply S | done] |].
  cbn beta. intros _ h' G. eexists. split; [by eapply stands_items |]. unfold add_named. rewrite map_app. cbn [List.map]. by rewrite erase_rename.
Qed.

Lemma add_key_edits key : edits (fun p j => add_member p key j) (add_named key).
Proof.
  intros s p d cs l S Sp. apply twp_on_items. apply twp_bind. eapply twp_mono; [apply (AddItemToObject_ok Fr); [apply S | done] |].
  cbn beta. intros _ h' G. eapply twp_mono; [eapply (check_key Fr _ _ _ _ _ true); [exact G |] |].
  - apply Nat.ltb_lt, position_found, matches_named.
  - cbn beta. intros r h'' [-> ->]. eexists. split; [by eapply stands_items |]. unfold add_named. rewrite map_app. cbn [List.map]. by rewrite erase_rename.
Qed.

Lemma replace_key_edits key : edits (fun p j => replace_member p key j) (replace_named key).
Proof.
  intros s p d cs l S Sp. apply twp_on_items. apply twp_bind. eapply twp_mono; [apply (ReplaceItemInObject_ok Fr); [apply S | done] |]. cbn beta. intros _ h' [G _].
  eapply twp_mono; [eapply (check_key Fr); [exact G | reflexivity] |]. cbn beta. intros r h'' [-> ->]. eexists. split; [by eapply stands_items |].
  unfold replace_named. rewrite map_replace_at, erase_rename, <- position_index, length_map. f_equal. unfold replace_at.
  destruct (Nat.ltb_spec (position (Some (c_cut key)) cs) (length cs)) as [Lt|Ge]; [apply Nat.ltb_lt, position_found, matches_named | by apply Nat.ltb_ge].
Qed.

Lemma append_edits : edits (fun p j => add_to_array cJSON_AddItemToArray p j) add_last.
Proof.
  intros s p d cs l S Sp. pose proof (stands_good _ _ S) as G. apply twp_on_items. apply twp_bind. eapply twp_equal; [apply (GetArraySize_ok _ p d cs 0 0); apply G |]. apply twp_bind.
  eapply twp_mono; [by apply (add_last_ok Fr) |]. cbn beta. intros _ h' G'. apply twp_bind.
  eapply twp_equal; [eapply (GetArraySize_ok _ p d _ 0 0); apply G' |]. rewrite length_app, (proj2 (Z.eqb_neq _ _)) by (cbn [length]; lia). eexists. split; [by eapply stands_items |].
  unfold add_last. by rewrite map_app.
Qed.

Lemma prepend_edits : edits (fun p j => add_to_array cJSON_AddItemToArrayHead p j) add_first.
Proof.
  intros s p d cs l S Sp. pose proof (stands_good _ _ S) as G. apply twp_on_items. apply twp_bind. eapply twp_equal; [apply (GetArraySize_ok _ p d cs 0 0); apply G |]. apply twp_bind.
  eapply twp_mono; [by apply (add_first_ok Fr) |]. cbn beta. intros _ h' G'. apply twp_bind.
  eapply twp_equal; [eapply (GetArraySize_ok _ p d _ 0 0); apply G' |]. rewrite (proj2 (Z.eqb_neq _ _)) by (cbn [length]; lia). eexists. split; [by eapply stands_items | done].
Qed.

Lemma replace_at_edits i : edits (fun p j => replace_index p i j) (replace_nth i).
Proof.
  intros s p d cs l S Sp. apply twp_on_items. apply twp_bind. eapply twp_mono; [apply (replace_at_ok Fr); [apply S | done] |]. cbn beta. intros _ h' [G _].
  eapply twp_mono; [eapply (check_index Fr); [exact G | reflexivity] |]. cbn beta. intros r h'' [-> ->]. eexists. split; [by eapply stands_items |].
  unfold replace_nth. rewrite map_replace_at, length_map. f_equal. unfold replace_at. destruct (Nat.ltb_spec (Z.to_nat i) (length cs)) as [Lt|Ge]; [| by apply Nat.ltb_ge].
  apply Nat.ltb_lt. rewrite length_app, length_take. cbn [length]. rewrite length_drop. lia.
Qed.

Lemma delete_key_changes key : changes (fun p => _ ← on_items (cJSON_DeleteItemFromObject p (c_cut key)); _ ← forget_key this key; mret true)
  (fun _ l => Some (true, remove_at (index_of (c_cut key) l) l)).
Proof.
  intros s p d cs r S _ [= <-]. apply twp_bind. apply twp_on_items. eapply twp_mono; [apply (DeleteItemFromObject_ok Fr); apply S |]. cbn beta. intros _ h' [G _].
  apply twp_bind. eapply twp_mono; [eapply forget_key_ok; by eapply stands_items |]. cbn beta. intros _ s' S'. eexists. split; [exact S' |].
  by rewrite map_remove_at, position_index.
Qed.

Lemma delete_at_changes i : changes (fun p => _ ← on_items (cJSON_DeleteItemFromArray p i); _ ← forget_indices this (fun x => u32 i <=? x); mret true)
  (fun _ l => Some (true, remove_at (Z.to_nat i) l)).
Proof.
  intros s p d cs r S _ [= <-]. apply twp_bind. apply twp_on_items. eapply twp_mono; [apply (delete_at_ok Fr); apply S |]. cbn beta. intros _ h' [G _].
  apply twp_bind. eapply twp_mono; [eapply forget_indices_ok; by eapply stands_items |]. cbn beta. intros _ s' S'. eexists. split; [exact S' |]. by rewrite map_remove_at.
Qed.

(** *** The tree that a method works on *)

(** [m] returns and leaves what [r] says. *)
Definition does (m : M state bool) (r : bool * option CJson.cJSON) (s : state) : Prop :=
  twp m (fun b s' => exists x', stands s' x' /\ (b, erase <$> x') = r) s.

Lemma focus_new_ok s x ty : stands s x -> loose (set_type ty node0) ->
  twp (focus_or_new this (create (set_type ty)))
    (fun p s' => exists t, p = addr t /\ stands s' (Some t) /\ erase t = default (plain_item ty) (erase <$> x)) s.
Proof.
  intros S Lo. unfold focus_or_new. apply twp_bind. eapply twp_obj; [exact S |]. intros e. cbn [obj_for m_pJsonData m_pExternJsonDataRef]. destruct x as [t|].
  - destruct (ok_addr _ _ _ _ (g_ok _ _ _ (stands_good _ _ S))) as [Z _]. rewrite (proj2 (Z.eqb_neq _ _) Z). by exists t.
  - cbn [Z.eqb negb]. apply twp_bind. apply twp_on_items. pose proof S as [_ B F R N]. eapply twp_mono; [by apply create_item_ok |]. cbn beta. intros p h (-> & O & B' & Sm).
    destruct (fresh_tree (items s) h [] (L (brk (items s)) (set_type ty node0) []) B F) as [_ Fl]; [intros a ->%list_elem_of_singleton; lia | done |].
    apply twp_bind. set (t := L (brk (items s)) (set_type ty node0) []) in *. pose proof S as [[e' E] _ _ _ _]. unfold update_obj, obj_of. apply twp_bind. apply twp_bind. apply twp_get.
    eapply twp_deref; [exact E |]. exists t. split_and!; [done | | done]. split; cbn [objs items obrk].
    + exists e'. by rewrite lookup_insert_eq.
    + done.
    + split; [done | repeat constructor; apply not_elem_of_nil | | done | done]. destruct Lo as [_ Lo]. subst t. cbn [no_ref]. by rewrite Lo.
    + intros q y Eq. rewrite lookup_insert_ne by congruence. auto.
    + done.
Qed.

Lemma focus_old_ok s t : stands s (Some t) -> twp (GetJsonData this) (fun p s' => p = addr t /\ s' = s) s.
Proof.
  intros S. unfold GetJsonData. apply twp_bind. eapply twp_obj; [exact S |]. intros e. cbn [obj_for m_pJsonData].
  destruct (ok_addr _ _ _ _ (g_ok _ _ _ (stands_good _ _ S))) as [Z _]. by rewrite (proj2 (Z.eqb_neq _ _) Z).
Qed.

Definition view' (tc : CJson.cJSON) : store := <[this := Some tc]> (fmap (M:=option) erase <$> σ).

Lemma with_focus_ok s focus ty wrong k f tc r : twp focus (fun p s' => exists t, p = addr t /\ stands s' (Some t) /\ erase t = tc) s -> typed tc = true -> changes k f ->
  in_tree ty tc (f (view' tc)) = Some r -> does (with_focus this focus ty wrong k) r s.
Proof.
  intros F Ty K E. unfold does, with_focus. apply twp_bind. eapply twp_mono; [exact F |]. cbn beta. intros p s' (t & -> & S & <-).
  destruct (ok_addr _ _ _ _ (g_ok _ _ _ (stands_good _ _ S))) as [Z Ea]. rewrite (proj2 (Z.eqb_neq _ _) Z). apply twp_bind. apply twp_on_items. eapply twp_load; [exact Ea |].
  change (type (link _ _ _ ?d)) with (type d). unfold in_tree in E. rewrite erase_type, erase_child in E. replace (mk_state (items s') (objs s') (obrk s')) with s' by (by destruct s').
  destruct (type (data t) =? ty); cbn [negb].
  - destruct t as [p d cs]. cbn [addr kids] in *. destruct (f (view' _) (List.map erase cs)) as [r'|] eqn:Ef; [| done]. cbn [mbind option_bind] in E. injection E as <-.
    eapply twp_mono; [by eapply (K s' p d cs r') |]. cbn beta. intros b s'' (cs' & S'' & <-). by exists (Some (L p d cs')).
  - injection E as <-. eapply twp_mono; [by apply fail_ok |]. cbn beta. intros b s'' [-> S'']. by exists (Some t).
Qed.

Lemma plain_typed ty : container ty = true -> typed (plain_item ty) = true.
Proof. unfold container. rewrite orb_true_iff, !Z.eqb_eq. by intros [-> | ->]. Qed.

Lemma in_new_ok s x ty wrong k f r : stands s x -> opt_typed (erase <$> x) = true -> loose (set_type ty node0) -> container ty = true -> changes k f ->
  let t := default (plain_item ty) (erase <$> x) in in_tree ty t (f (<[this := Some t]> (view x))) = Some r ->
  does (with_focus this (focus_or_new this (create (set_type ty))) ty wrong k) r s.
Proof.
  intros S Ty Lo C K t E. assert (<[this := Some t]> (view x) = view' t) as Ev by apply insert_insert_eq. rewrite Ev in E. eapply (with_focus_ok s _ ty wrong k f t); [by apply focus_new_ok | | done | done].
  subst t. destruct x; [done | by apply plain_typed].
Qed.

Lemma in_old_ok s x ty wrong k f r : stands s x -> opt_typed (erase <$> x) = true -> changes k f ->
  in_old ty (erase <$> x) (f (view x)) = Some r -> does (with_focus this (GetJsonData this) ty wrong k) r s.
Proof.
  intros S Ty K E. destruct x as [t|]; cbn [fmap option_fmap option_map in_old] in E.
  - eapply (with_focus_ok s _ ty wrong k f (erase t)); [| done | done | done]. eapply twp_mono; [by apply focus_old_ok |]. cbn beta. intros p s' [-> ->]. by exists t.
  - injection E as <-. unfold does, with_focus, GetJsonData. apply twp_bind. apply twp_bind. eapply twp_obj; [exact S |]. intros e. cbn [obj_for m_pJsonData m_pExternJsonDataRef Z.eqb].
    unfold twp at 1, mret, M_ret. cbn [Z.eqb]. eapply twp_mono; [by apply fail_ok |]. cbn beta. intros b s' [-> S']. by exists None.
Qed.

(** *** Emptying and filling an object *)

Lemma clear_data_ok s x : stands s x -> twp (if m_pJsonData (obj_for x []) =? 0 then mret tt
    else _ ← on_items (cJSON_Delete (m_pJsonData (obj_for x []))); update_obj this (set_data 0)) (fun _ s' => stands s' None) s.
Proof.
  intros S. destruct x as [t|]; cbn [obj_for m_pJsonData]; [| done]. pose proof (stands_good _ _ S) as [O N R B F]. destruct (ok_addr _ _ _ _ O) as [Z _]. rewrite (proj2 (Z.eqb_neq _ _) Z).
  apply twp_bind. apply twp_on_items. eapply twp_equal; [by apply delete_ok |]. pose proof S as [[e E] _ _ Rs Nx]. unfold update_obj, obj_of. apply twp_bind. apply twp_bind. apply twp_get.
  eapply twp_deref; [exact E |]. split; cbn [objs items obrk].
  - exists e. by rewrite lookup_insert_eq.
  - by apply bounded_without.
  - eapply (framed_step Fr (items s) _ (addrs t) (addrs t)); [done | | done | by intros a ?%elem_of_nil]. intros a Na. cbn [nodes]. by rewrite lookup_without, bool_decide_false.
  - intros q y Eq. rewrite lookup_insert_ne by congruence. auto.
  - done.
Qed.

Lemma Clear_ok s x : stands s x -> twp (Clear this) (fun _ s' => stands s' None) s.
Proof.
  intros S. unfold Clear. apply twp_bind. apply twp_get. generalize (size (objs s)) as f. intros f. cbn [clear_loop]. apply twp_bind.
  eapply twp_mono; [apply (stands_touch s x); [by eexists | done] |]. cbn beta. intros _ s1 S1.
  apply twp_bind. eapply twp_obj; [exact S1 |]. intros e. apply twp_bind. eapply twp_mono; [by apply (clear_data_ok s1 x) |]. cbn beta. intros _ s2 S2.
  apply twp_bind. eapply twp_obj; [exact S2 |]. intros e2. cbn [obj_for m_mapJsonArrayRef]. rewrite map_to_list_empty. apply twp_bind. cbn [fmap list_fmap]. unfold twp at 1, mret, M_ret.
  apply twp_bind. eapply twp_mono; [apply (stands_touch s2 None); [by eexists | done] |]. cbn beta. intros _ s3 S3.
  apply twp_bind. eapply twp_obj; [exact S3 |]. intros e4. cbn [obj_for m_mapJsonObjectRef]. rewrite map_to_list_empty. apply twp_bind. cbn [fmap list_fmap]. unfold twp at 1, mret, M_ret.
  apply (stands_touch s3 None); [by eexists | done].
Qed.

Lemma Parse_ok s x text r : stands s x -> filled text = Some r -> does (Parse this text) r s.
Proof.
  intros S P. unfold filled in P. destruct (parsed text) as [z|] eqn:E; [| done]. injection P as <-. unfold does, Parse. apply twp_bind.
  eapply twp_mono; [by eapply Clear_ok |]. cbn beta. intros _ s1 S1. apply twp_bind. apply twp_on_items. destruct z as [t|].
  - apply parsed_good in E. pose proof S1 as [[e Eo] B F Rs Nx]. eapply twp_mono; [by apply heap_parse_ok |]. cbn beta. intros r h (l & -> & El & Ol & Nl & Rl & Bl & Lo & Sm).
    destruct (fresh_tree (items s1) h [] l B F Lo Sm) as [_ Fl]. apply twp_bind. unfold update_obj, obj_of. apply twp_bind. apply twp_bind. apply twp_get. eapply twp_deref; [exact Eo |].
    exists (Some l). split; [| cbn; by rewrite El]. split; cbn [objs items obrk]; [exists e; by rewrite lookup_insert_eq | done | done | | done].
    intros q y Eq. rewrite lookup_insert_ne by congruence. auto.
  - destruct (parsed_bad text (items s1) E) as [ep Ep]. eapply twp_equal; [exact Ep |]. replace (mk_state (items s1) (objs s1) (obrk s1)) with s1 by (by destruct s1).
    apply twp_bind. eapply twp_mono; [apply (stands_touch s1 None); [by eexists | done] |]. cbn beta. intros _ s2 S2.
    apply twp_bind. eapply twp_mono; [apply (stands_touch s2 None); [by eexists | done] |]. cbn beta. intros _ s3 S3. by exists None.
Qed.

(** A child of a tree in memory. *)
Lemma child_held h t i u : ok (nodes h) 0 0 t -> NoDup (addrs t) -> typed (erase t) = true -> kids t !! i = Some u ->
  exists pv nx, ok (nodes h) pv nx u /\ NoDup (addrs u) /\ typed (erase u) = true.
Proof.
  destruct t as [p d cs]. cbn [kids]. intros (_ & _ & O)%ok_L N (_ & _ & _ & _ & T)%typed_elim E. rewrite <- (take_drop_middle _ _ _ E) in O, N, T.
  apply oks_app in O as [_ [O _]]. rewrite middle_perm in N. apply NoDup_app in N as (_ & _ & N). rewrite map_app, forallb_app in T. cbn [List.map forallb] in T.
  rewrite !andb_true_iff in T. destruct T as (_ & T & _). eauto.
Qed.

Lemma fst_addr_lookup l i : fst_addr 0 (drop i l) = match l !! i with Some u => addr u | None => 0 end.
Proof. destruct (l !! i) as [u|] eqn:E; [by rewrite (drop_S _ _ _ E) |]. apply lookup_ge_None in E. by rewrite drop_ge. Qed.

Lemma lookup_map {A B} (f : A -> B) l i : List.map f l !! i = f <$> l !! i.
Proof. revert i. induction l as [|a l IH]; intros [|i]; [done.. | apply IH]. Qed.

(** [look] finds the child at the position [i]. *)
Lemma item_of_ok s x o y ty look i : stands s x -> opt_typed (erase <$> x) = true -> <[this := x]> σ !! o = Some y ->
  (forall t, y = Some t -> look (addr t) (items s) = Ret (fst_addr 0 (drop (i (List.map erase (kids t))) (kids t))) (items s)) ->
  exists p, item_of o ty look s = Ret p s /\
    match child_of (erase <$> y) ty i with
    | None => p = 0
    | Some c => p <> 0 /\ exists u pv nx, c = erase u /\ p = addr u /\ ok (nodes (items s)) pv nx u /\ NoDup (addrs u) /\ typed (erase u) = true
    end.
Proof.
  intros S Ty E Lk. destruct (object_of _ _ _ _ S E) as [e Eo]. unfold item_of, mbind at 1, M_bind. rewrite Eo. destruct y as [t|]; [| by exists 0].
  destruct (held _ _ _ _ S Ty E) as (O & N & T). destruct (ok_addr _ _ _ _ O) as [Z Ea]. cbn [obj_for m_pJsonData fmap option_fmap option_map child_of].
  rewrite (proj2 (Z.eqb_neq _ _) Z), erase_type, erase_child. cbn [negb]. unfold on_items, load, mbind, M_bind, get, deref. rewrite Ea. change (type (link _ _ _ ?d)) with (type d).
  assert (mk_state (items s) (objs s) (obrk s) = s) as Es by (by destruct s). destruct (type (data t) =? ty); [| exists 0; split; [by destruct s | done]].
  rewrite (Lk t eq_refl). eexists. rewrite Es. split; [done |]. rewrite fst_addr_lookup, lookup_map.
  destruct (kids t !! i (List.map erase (kids t))) as [u|] eqn:Eu; [| done]. cbn [fmap option_fmap option_map]. destruct (child_held _ _ _ _ O N T Eu) as (pv & nx & Ou & Nu & Tu).
  split; [by apply ok_addr in Ou as [? _] |]. by exists u, pv, nx.
Qed.

Lemma take_ok s x item c r : stands s x -> opt_typed (erase <$> x) = true -> taken c (erase <$> x) = Some r ->
  (exists p, item s = Ret p s /\ match c with
    | None => p = 0
    | Some c => p <> 0 /\ exists u pv nx, c = erase u /\ p = addr u /\ ok (nodes (items s)) pv nx u /\ NoDup (addrs u) /\ typed (erase u) = true
    end) -> does (get_object item this) r s.
Proof.
  intros S Ty E (p & Ep & Hc). unfold does, get_object. apply twp_bind. eapply twp_returns; [exact Ep |]. destruct c as [c|].
  - destruct Hc as (Zp & u & pv & nx & -> & -> & O & N & T). rewrite (proj2 (Z.eqb_neq _ _) Zp). cbn [taken] in E.
    destruct (CJson.print_value 0 true (erase u)) as [[text|]|] eqn:P; try done. apply twp_bind. apply twp_on_items.
    eapply twp_equal; [rewrite (print_ok _ u pv nx) by done; by rewrite P |]. replace (mk_state (items s) (objs s) (obrk s)) with s by (by destruct s).
    apply twp_bind. eapply twp_deref; [done |]. by apply (Parse_ok s x).
  - subst p. injection E as <-. by exists x.
Qed.

(** *** The methods *)

Lemma assign_ok s x o z : stands s x -> opt_typed (erase <$> x) = true -> (y ← view x !! o; copied y) = Some z -> does (_ ← assign this o; mret true) (true, z) s.
Proof.
  intros S Ty E. destruct (view x !! o) as [y|] eqn:Ey; [| done]. cbn [mbind option_bind] in E. unfold copied in E. destruct (text_of false y) as [text|] eqn:Et; [| done].
  cbn [mbind option_bind] in E. unfold does, assign, ToString. apply twp_bind. apply twp_bind. eapply twp_returns; [by apply (text_ok s x o y) |]. apply twp_bind.
  eapply twp_mono; [apply (Parse_ok s x text (isSome z, z)); [done |]; unfold filled; by rewrite E |]. cbn beta. intros b s' (x' & S' & [= _ <-]). by exists x'.
Qed.

(** An item of a value, for [Add] and [Replace]. *)
Lemma value_changes k k' head v f : edits k f -> edits k' f ->
  changes (fun p => match v with VObject o => copy_of this o (k' p) | _ => made (create (fill head v)) (k p) end) (fun σ l => with_item (new_item σ head v) l f).
Proof.
  intros K K'. assert ((exists o, v = VObject o) \/ forall o, v <> VObject o) as [[o ->]|Nv] by (destruct v; [right; done.. | eauto]).
  - exact (edit_changes _ _ _ _ (copy_provides o) K').
  - pose proof (edit_changes _ _ _ _ (scalar_provides head v Nv) K) as E. destruct v as [| | | | | | | |o]; [exact E.. |]. by destruct (Nv o).
Qed.

Lemma forget_key_edits k f key : edits k f -> edits (fun p j => b ← k p j; if b : bool then _ ← forget_key this key; mret true else mret false) f.
Proof. intros K. apply (edits_then _ _ (fun _ => forget_key this key)); [done |]. intros. by apply forget_key_ok. Qed.
Lemma forget_indices_edits k f gone : edits k f -> edits (fun p j => b ← k p j; if b : bool then _ ← forget_indices this gone; mret true else mret false) f.
Proof. intros K. apply (edits_then _ _ (fun _ => forget_indices this gone)); [done |]. intros. by apply forget_indices_ok. Qed.

Lemma append_object_edits : edits (fun p j =>
    b ← add_to_array cJSON_AddItemToArray p j;
    if b : bool then size ← on_items (cJSON_GetArraySize p); _ ← forget_indices this (fun i => u32 (size - 1) <=? i); mret true else mret false) add_last.
Proof.
  intros s p d cs l S Sp. apply twp_bind. eapply twp_mono; [by apply append_edits |]. cbn beta. intros b s' (cs' & S' & E). destruct b; [| by exists cs'].
  apply twp_bind. apply twp_on_items. pose proof (stands_good _ _ S') as G. eapply twp_equal; [apply (GetArraySize_ok _ p d cs' 0 0); apply G |].
  replace (mk_state (items s') (objs s') (obrk s')) with s' by (by destruct s'). apply twp_bind. eapply twp_mono; [by eapply forget_indices_ok |]. cbn beta. intros _ s'' S''. by exists cs'.
Qed.

Lemma run_AddKey k v : run_op this (AddKey k v) = in_new_object this (fun p => match v with
  | VObject o => copy_of this o (fun j => b ← add_member p k j; if b : bool then _ ← forget_key this k; mret true else mret false)
  | _ => made (create (fill false v)) (fun j => add_member p k j) end).
Proof. by destruct v. Qed.
Lemma run_ReplaceKey k v : run_op this (ReplaceKey k v) = in_object this (fun p => match v with
  | VObject o => copy_of this o (fun j => b ← replace_member p k j; if b : bool then _ ← forget_key this k; mret true else mret false)
  | _ => made (create (fill false v)) (fun j => replace_member p k j) end).
Proof. by destruct v. Qed.
Lemma run_Append v : run_op this (Append v) = in_new_array this (fun p => match v with
  | VObject o => copy_of this o (fun j => b ← add_to_array cJSON_AddItemToArray p j;
      if b : bool then size ← on_items (cJSON_GetArraySize p); _ ← forget_indices this (fun i => u32 (size - 1) <=? i); mret true else mret false)
  | _ => made (create (fill false v)) (fun j => add_to_array cJSON_AddItemToArray p j) end).
Proof. by destruct v. Qed.
Lemma run_Prepend v : run_op this (Prepend v) = in_new_array this (fun p => match v with
  | VObject o => copy_of this o (fun j => b ← add_to_array cJSON_AddItemToArrayHead p j; if b : bool then _ ← forget_indices this (fun _ => true); mret true else mret false)
  | _ => made (create (fill true v)) (fun j => add_to_array cJSON_AddItemToArrayHead p j) end).
Proof. by destruct v. Qed.
Lemma run_ReplaceAt i v : run_op this (ReplaceAt i v) = in_array this (fun p => match v with
  | VObject o => copy_of this o (fun j => b ← replace_index p i j; if b : bool then _ ← forget_indices this (fun x => x =? u32 i); mret true else mret false)
  | _ => made (create (fill false v)) (fun j => replace_index p i j) end).
Proof. by destruct v. Qed.

Lemma run_op_ok s x c r : stands s x -> opt_typed (erase <$> x) = true -> apply (view x) this c = Some r -> does (run_op this c) r s.
Proof.
  intros S Ty E. unfold apply in E. assert (view x !! this = Some (erase <$> x)) as Ev by apply lookup_insert_eq. rewrite Ev in E. cbn [mbind option_bind] in E.
  destruct c as [k|k|k v|k v|k|v|v|i v|i|text|[text|]|o| |k o|i o].
  - eapply (in_new_ok _ _ _ _ _ (fun _ l => with_item (Some (Some (plain_item CJson.cJSON_Object))) l (add_named k))); [done.. | | exact E].
    apply (edit_changes _ _ _ _ (made_provides (set_type CJson.cJSON_Object) (plain_item CJson.cJSON_Object) (conj eq_refl eq_refl) (fun _ => eq_refl)) (add_empty_edits k)).
  - eapply (in_new_ok _ _ _ _ _ (fun _ l => with_item (Some (Some (plain_item CJson.cJSON_Array))) l (add_named k))); [done.. | | exact E].
    apply (edit_changes _ _ _ _ (made_provides (set_type CJson.cJSON_Array) (plain_item CJson.cJSON_Array) (conj eq_refl eq_refl) (fun _ => eq_refl)) (add_empty_edits k)).
  - rewrite run_AddKey. eapply (in_new_ok _ _ _ _ _ (fun σ l => with_item (new_item σ false v) l (add_named k))); [done.. | | exact E]. apply value_changes, forget_key_edits; apply add_key_edits.
  - rewrite run_ReplaceKey. eapply (in_old_ok _ _ _ _ _ (fun σ l => with_item (new_item σ false v) l (replace_named k))); [done.. | | exact E]. apply value_changes, forget_key_edits; apply replace_key_edits.
  - eapply (in_old_ok _ _ _ _ _ _ _ S Ty (delete_key_changes k) E).
  - rewrite run_Append. eapply (in_new_ok _ _ _ _ _ (fun σ l => with_item (new_item σ false v) l add_last)); [done.. | | exact E]. apply value_changes; [apply append_edits | apply append_object_edits].
  - rewrite run_Prepend. eapply (in_new_ok _ _ _ _ _ (fun σ l => with_item (new_item σ true v) l add_first)); [done.. | | exact E]. apply value_changes, forget_indices_edits; apply prepend_edits.
  - rewrite run_ReplaceAt. eapply (in_old_ok _ _ _ _ _ (fun σ l => with_item (new_item σ false v) l (replace_nth i))); [done.. | | exact E]. apply value_changes, forget_indices_edits; apply replace_at_edits.
  - eapply (in_old_ok _ _ _ _ _ _ _ S Ty (delete_at_changes i) E).
  - by apply (Parse_ok s x).
  - by apply (Parse_ok s x).
  - injection E as <-. by exists x.
  - destruct (view x !! o) as [y|] eqn:Ey; [| done]. cbn [mbind option_bind] in E. destruct (copied y) as [z|] eqn:Ez; [| done]. injection E as <-. apply (assign_ok s x o z); [done | done |]. by rewrite Ey.
  - injection E as <-. unfold does. cbn [run_op]. apply twp_bind. eapply twp_mono; [by eapply Clear_ok |]. cbn beta. intros _ s' S'. by exists None.
  - destruct (view x !! o) as [y|] eqn:Ey; [| done]. apply view_lookup in Ey as (z & Ez & ->). cbn [mbind option_bind] in E. eapply take_ok; [done | done | exact E |].
    apply (item_of_ok s x o z); [done | done | done |]. intros t ->. destruct (held _ _ _ _ S Ty Ez) as (O & N & _). destruct t as [p d cs]. cbn [addr kids].
    rewrite (GetObjectItem_ok _ p d cs 0 0) by done. by rewrite position_index.
  - destruct (view x !! o) as [y|] eqn:Ey; [| done]. apply view_lookup in Ey as (z & Ez & ->). cbn [mbind option_bind] in E. eapply take_ok; [done | done | exact E |].
    apply (item_of_ok s x o z); [done | done | done |]. intros t ->. destruct (held _ _ _ _ S Ty Ez) as (O & N & _). destruct t as [p d cs]. cbn [addr kids].
    by rewrite (GetArrayItem_ok _ p d cs 0 0) by done.
Qed.
End object.

(** ** Well-typedness is preserved *)

Definition all_typed (σ : store) : Prop := forall o x, σ !! o = Some x -> opt_typed x = true.

Lemma parsed_typed text z : parsed text = Some z -> opt_typed z = true.
Proof. destruct z as [t|]; [| done]. intros E%parsed_good. by apply parse_typed in E as [? _]. Qed.
Lemma copied_typed x z : copied x = Some z -> opt_typed z = true.
Proof. unfold copied. destruct (text_of false x); [| done]. apply parsed_typed. Qed.
Lemma filled_typed text r : filled text = Some r -> opt_typed (snd r) = true.
Proof. unfold filled. destruct (parsed text) as [z|] eqn:E; [| done]. intros [= <-]. by eapply parsed_typed. Qed.

Lemma new_item_typed σ head v c : new_item σ head v = Some (Some c) -> typed c = true.
Proof.
  destruct v as [| | | | |[]| | |o]; cbn [new_item]; try (intros [= <-]; done). destruct (σ !! o) as [x|]; [| done]. intros E%copied_typed. done.
Qed.

Lemma with_name_typed k c : typed c = true -> typed (with_name k c) = true.
Proof. by destruct c. Qed.
Lemma with_name_named k c : named (with_name k c) = true.
Proof. by destruct c. Qed.

(** The children that a change leaves are well-typed, and those of an object
    have names. *)
Definition keeps (ty : Z) (f : list CJson.cJSON -> option (bool * list CJson.cJSON)) : Prop := forall l r, f l = Some r ->
  forallb typed l = true -> forallb typed (snd r) = true /\ (ty = CJson.cJSON_Object -> forallb named l = true -> forallb named (snd r) = true).

Lemma in_tree_typed ty t f r : container ty = true -> typed t = true -> keeps ty f -> in_tree ty t f = Some r -> opt_typed (snd r) = true.
Proof.
  intros C T K. unfold in_tree. destruct t as [t0 s n d g k cs]. cbn [CJson.type CJson.child]. destruct (Z.eqb_spec t0 ty) as [->|]; [| by intros [= <-]].
  destruct (f cs) as [[b l]|] eqn:E; [| done]. intros [= <-]. apply typed_elim in T as (R & Ss & _ & Nm & T). destruct (K _ _ E T) as [T' N']. cbn [snd opt_typed CJson.set_child] in *.
  apply typed_intro; try done; [intros C'; congruence | auto].
Qed.

Lemma with_item_keeps σ ty head v f : (forall c l, typed c = true -> forallb typed l = true -> forallb typed (snd (f c l)) = true /\
    (ty = CJson.cJSON_Object -> forallb named l = true -> forallb named (snd (f c l)) = true)) -> keeps ty (fun l => with_item (new_item σ head v) l f).
Proof.
  intros F l r E T. unfold with_item in E. destruct (new_item σ head v) as [c|] eqn:En; [| done]. injection E as <-. destruct c as [c|]; [| done].
  apply F; [by eapply new_item_typed | done].
Qed.

Lemma add_named_keeps k c l : typed c = true -> forallb typed l = true -> forallb typed (snd (add_named k c l)) = true /\
  (CJson.cJSON_Object = CJson.cJSON_Object -> forallb named l = true -> forallb named (snd (add_named k c l)) = true).
Proof. intros Tc Tl. cbn [add_named snd]. rewrite !forallb_app, Tl. cbn [forallb]. rewrite with_name_typed, with_name_named by done. split; [done |]. by intros _ ->. Qed.

Lemma apply_typed σ this c r : all_typed σ -> apply σ this c = Some r -> opt_typed (snd r) = true.
Proof.
  intros T E. unfold apply in E. destruct (σ !! this) as [x|] eqn:Ex; [| done]. cbn [mbind option_bind] in E. pose proof (T _ _ Ex) as Tx.
  assert (forall ty, container ty = true -> typed (default (plain_item ty) x) = true) as D by (intros ty C; destruct x; [done | by apply plain_typed]).
  assert (forall ty f, in_tree ty (default (plain_item ty) x) f = Some r -> container ty = true -> keeps ty f -> opt_typed (snd r) = true) as New.
  { intros ty f Ef C K. by eapply in_tree_typed, Ef; [| apply D |]. }
  assert (forall ty f, in_old ty x f = Some r -> container ty = true -> keeps ty f -> opt_typed (snd r) = true) as Old.
  { intros ty f Ef C K. destruct x as [t|]; [by eapply in_tree_typed | by injection Ef as <-]. }
  assert (forall c, taken c x = Some r -> opt_typed (snd r) = true) as Tk.
  { intros [u|] Et; [| by injection Et as <-]. cbn [taken] in Et. destruct (CJson.print_value 0 true u) as [[text|]|]; try done. by eapply filled_typed. }
  destruct c as [k|k|k v|k v|k|v|v|i v|i|text|[text|]|o| |k o|i o];
    try (refine (New _ _ E eq_refl _)); try (refine (Old _ _ E eq_refl _)).
  - intros l r' [= <-] Tl. by apply add_named_keeps.
  - intros l r' [= <-] Tl. by apply add_named_keeps.
  - apply with_item_keeps. apply add_named_keeps.
  - apply with_item_keeps. intros c l Tc Tl. split; [| intros _ Nl]; apply forallb_replace; try done; [by apply with_name_typed | apply with_name_named].
  - intros l r' [= <-] Tl. split; [| intros _ Nl]; by apply forallb_remove.
  - apply with_item_keeps. intros c l Tc Tl. split; [| done]. cbn [add_last snd]. rewrite forallb_app, Tl. cbn. by rewrite Tc.
  - apply with_item_keeps. intros c l Tc Tl. split; [| done]. cbn. by rewrite Tc.
  - apply with_item_keeps. intros c l Tc Tl. split; [| done]. by apply forallb_replace.
  - intros l r' [= <-] Tl. split; [| done]. by apply forallb_remove.
  - by eapply filled_typed.
  - by eapply filled_typed.
  - by injection E as <-.
  - destruct (σ !! o) as [y|]; [| done]. cbn [mbind option_bind] in E. destruct (copied y) as [z|] eqn:Ez; [| done]. injection E as <-. by eapply copied_typed.
  - by injection E as <-.
  - destruct (σ !! o) as [y|]; [| done]. by eapply Tk.
  - destruct (σ !! o) as [y|]; [| done]. by eapply Tk.
Qed.

(** ** The objects in memory *)

Record stored (s : state) (σ : gmap Z (option ltree)) : Prop := {
  so_obj : forall o x, σ !! o = Some x -> exists e, objs s !! o = Some (obj_for x e);
  so_tree : forall o t, σ !! o = Some (Some t) -> ok (nodes (items s)) 0 0 t /\ NoDup (addrs t) /\ typed (erase t) = true;
  so_apart : forall o o' t t', o <> o' -> σ !! o = Some (Some t) -> σ !! o' = Some (Some t') -> forall a, a ∈ addrs t -> a ∉ addrs t';
  so_bounded : bounded (items s);
  so_below : forall o, is_Some (σ !! o) -> o < obrk s }.

(** The store of trees and the memory agree. *)
Definition refined (s : state) (w : world) : Prop := exists σ, stored s σ /\ trees w = fmap (M:=option) erase <$> σ /\ next_object w = obrk s.

Lemma stored_framed s σ o : stored s σ -> framed (Fr (delete o σ)) (items s) (match σ !! o with Some (Some t) => addrs t | _ => [] end).
Proof.
  intros S u [q E]. apply lookup_delete_Some in E as [N E]. destruct (so_tree _ _ S _ _ E) as (O & _ & _). split; [done |].
  destruct (σ !! o) as [[t|]|] eqn:Eo; [| by intros ? ? ?%elem_of_nil..]. by eapply (so_apart _ _ S q o).
Qed.

Lemma stored_stands s σ o x : stored s σ -> σ !! o = Some x -> stands (delete o σ) (obrk s) o s x.
Proof.
  intros S E. pose proof (stored_framed s σ o S) as F. rewrite E in F. split; [by apply (so_obj _ _ S) | apply S | | | done].
  - destruct x as [t|]; [| done]. destruct (so_tree _ _ S _ _ E) as (O & N & T). split; [done | done | by apply typed_no_ref | apply S | done].
  - intros q y [_ Eq]%lookup_delete_Some. by apply (so_obj _ _ S).
Qed.

Lemma stored_rest s σ o : stored s σ -> forall q u, delete o σ !! q = Some (Some u) -> NoDup (addrs u) /\ typed (erase u) = true.
Proof. intros S q u [_ E]%lookup_delete_Some. by apply (so_tree _ _ S) in E as (_ & ? & ?). Qed.

(** [o] now stands for [x'], and its address is below the bound. *)
Lemma stands_stored s σ o n s' x' : stored s σ -> o < n -> obrk s <= n -> stands (delete o σ) n o s' x' -> opt_typed (erase <$> x') = true -> stored s' (<[o := x']> σ).
Proof.
  intros S Lo Le [Ob B T R Nx] Ty. assert (forall q u, q <> o -> σ !! q = Some (Some u) -> ok (nodes (items s')) 0 0 u /\ (forall t, x' = Some t -> forall a, a ∈ addrs u -> a ∉ addrs t)) as Rest.
  { intros q u N E. assert (Fr (delete o σ) u) as Fu by (exists q; by rewrite lookup_delete_ne). destruct x' as [t|].
    - destruct (g_framed _ _ _ T u Fu) as [O D]. split; [done |]. by intros t' [= <-].
    - destruct (T u Fu) as [O _]. done. }
  split; [| | | done |].
  - intros q y [[<- <-]|[N E]]%lookup_insert_Some; [done |]. apply R. by rewrite lookup_delete_ne.
  - intros q t [[<- ->]|[N E]]%lookup_insert_Some; [split_and!; [apply T | apply T | done] |]. destruct (so_tree _ _ S _ _ E) as (_ & ? & ?). split_and!; [by eapply Rest | done | done].
  - intros q q' t t' Nq E E' a I I'. apply lookup_insert_Some in E as [[<- Ex]|[N E]]; apply lookup_insert_Some in E' as [[<- E']|[N' E']]; [done | | |].
    + by apply (proj2 (Rest q' t' ltac:(done) E') t Ex a).
    + by apply (proj2 (Rest q t ltac:(done) E) t' E' a).
    + by eapply (so_apart _ _ S q q' t t').
  - intros q [y [[<- _]|[N E]]%lookup_insert_Some]; rewrite Nx; [done |]. pose proof (so_below _ _ S q ltac:(by eexists)). lia.
Qed.

Lemma stored_view s σ o x : stored s σ -> σ !! o = Some x -> view (delete o σ) o x = fmap (M:=option) erase <$> σ.
Proof. intros _ E. unfold view. rewrite fmap_delete, insert_delete_eq. apply insert_id. by rewrite lookup_fmap, E. Qed.

Lemma stored_typed s σ : stored s σ -> all_typed (fmap (M:=option) erase <$> σ).
Proof. intros S o x E. rewrite lookup_fmap in E. apply fmap_Some in E as ([t|] & Et & ->); [| done]. by apply (so_tree _ _ S) in Et as (_ & _ & ?). Qed.

Lemma run_op_refines s w this c r : refined s w -> apply (trees w) this c = Some r ->
  twp (run_op this c) (fun b s' => b = fst r /\ refined s' (mk_world (<[this := snd r]> (trees w)) (next_object w))) s.
Proof.
  intros (σ & S & Et & En) E. rewrite Et in E. assert (exists x, σ !! this = Some x) as [x Ex].
  { unfold apply in E. rewrite lookup_fmap in E. destruct (σ !! this) as [x|]; [by exists x | done]. }
  pose proof (apply_typed _ _ _ _ (stored_typed _ _ S) E) as Tr. rewrite <- (stored_view _ _ _ _ S Ex) in E.
  pose proof (stored_typed _ _ S this (erase <$> x) ltac:(by rewrite lookup_fmap, Ex)) as Tx.
  eapply twp_mono; [by apply (run_op_ok (delete this σ) (obrk s) this (lookup_delete_eq _ _) (stored_rest _ _ _ S) s x c r (stored_stands _ _ _ _ S Ex) Tx) |].
  cbn beta. intros b s' (x' & S' & <-). split; [done |]. exists (<[this := x']> σ). cbn [trees next_object snd] in *. split_and!.
  - apply (stands_stored s σ this (obrk s)); try done. apply (so_below _ _ S). by exists x.
  - by rewrite fmap_insert, Et.
  - by rewrite (st_next _ _ _ _ _ S').
Qed.

(** *** Constructors and the destructor *)

Lemma stored_new s σ : stored s σ -> σ !! obrk s = None.
Proof. intros S. destruct (σ !! obrk s) as [x|] eqn:E; [| done]. pose proof (so_below _ _ S (obrk s) ltac:(by eexists)). lia. Qed.

Lemma new_object_ok s σ : stored s σ -> twp (new_object 0 0) (fun p s' => p = obrk s /\ stands (delete p σ) (obrk s + 1) p s' None) s.
Proof.
  intros S. split; [done |]. split; cbn [objs items obrk]; [exists []; by rewrite lookup_insert_eq | apply S | | | done].
  - pose proof (stored_framed _ _ (obrk s) S) as F. by rewrite (stored_new _ _ S) in F.
  - intros q y [N E]%lookup_delete_Some. rewrite lookup_insert_ne by done. by apply (so_obj _ _ S).
Qed.

Lemma new_refines s σ w x' s' : stored s σ -> trees w = fmap (M:=option) erase <$> σ -> next_object w = obrk s ->
  stands (delete (obrk s) σ) (obrk s + 1) (obrk s) s' x' -> opt_typed (erase <$> x') = true ->
  refined s' (mk_world (<[next_object w := erase <$> x']> (trees w)) (next_object w + 1)).
Proof.
  intros S Et En S' Ty. exists (<[obrk s := x']> σ). cbn [trees next_object]. split_and!.
  - apply (stands_stored s σ (obrk s) (obrk s + 1)); try done; lia.
  - by rewrite En, Et, fmap_insert.
  - rewrite En. by rewrite (st_next _ _ _ _ _ S').
Qed.

(** A new object, filled from a text that may be that of another one. *)
Lemma new_text_refines s w (text : Z -> M state bytes) t z :
  (forall σ s', stored s σ -> trees w = fmap (M:=option) erase <$> σ -> stands (delete (obrk s) σ) (obrk s + 1) (obrk s) s' None -> text (obrk s) s' = Ret t s') ->
  refined s w -> parsed t = Some z ->
  twp (p ← new_object 0 0; t ← text p; _ ← Parse p t; mret (AObject p))
    (fun a s' => made_new w (Some z) = Some (a, mk_world (<[next_object w := z]> (trees w)) (next_object w + 1)) /\
       refined s' (mk_world (<[next_object w := z]> (trees w)) (next_object w + 1))) s.
Proof.
  intros Tx (σ & S & Et & En) E. apply twp_bind. eapply twp_mono; [by apply new_object_ok |]. cbn beta. intros p s1 (-> & S1). apply twp_bind.
  eapply twp_returns; [by apply (Tx σ) |]. apply twp_bind. eapply twp_mono.
  { apply (Parse_ok (delete (obrk s) σ) (obrk s + 1) (obrk s) (lookup_delete_eq _ _) s1 None t (isSome z, z) S1). unfold filled. by rewrite E. }
  cbn beta. intros b s2 (x' & S2 & [= _ <-]). split; [by rewrite <- En |]. apply (new_refines s σ); try done. by eapply parsed_typed.
Qed.

Lemma new_copy_refines s w o x z : refined s w -> trees w !! o = Some x -> copied x = Some z ->
  twp (p ← CJsonObject_copy o; mret (AObject p))
    (fun a s' => made_new w (Some z) = Some (a, mk_world (<[next_object w := z]> (trees w)) (next_object w + 1)) /\
       refined s' (mk_world (<[next_object w := z]> (trees w)) (next_object w + 1))) s.
Proof.
  intros R Eo Ec. unfold copied in Ec. destruct (text_of false x) as [t|] eqn:Et; [| done]. cbn [mbind option_bind] in Ec.
  pose proof (new_text_refines s w (fun _ => ToString o) t z) as T.
  assert ((p ← CJsonObject_copy o; mret (AObject p)) s = (p ← new_object 0 0; t ← ToString o; _ ← Parse p t; mret (AObject p)) s) as Eq.
  { unfold CJsonObject_copy, mbind, M_bind. destruct (new_object 0 0 s) as [p s1| |]; try done. destruct (ToString o s1) as [t' s2| |]; try done. by destruct (Parse p t' s2). }
  unfold twp. rewrite Eq. apply T; [| done | done]. intros σ s' S Ew S'. eapply text_ok; [by apply (stored_rest s) | exact S' | done | | exact Et].
  unfold view. rewrite lookup_insert_ne.
  - rewrite fmap_delete, lookup_delete_ne; [by rewrite <- Ew |]. intros <-. rewrite Ew, lookup_fmap, (stored_new _ _ S) in Eo. done.
  - intros <-. rewrite Ew, lookup_fmap, (stored_new _ _ S) in Eo. done.
Qed.

Lemma destroy_refines s w this x : refined s w -> trees w !! this = Some x ->
  twp (delete_object this) (fun _ s' => refined s' (mk_world (delete this (trees w)) (next_object w))) s.
Proof.
  intros (σ & S & Et & En) E. rewrite Et, lookup_fmap in E. apply fmap_Some in E as (y & Ey & ->). unfold delete_object. apply twp_bind.
  eapply twp_mono; [apply (Clear_ok (delete this σ) (obrk s) this (lookup_delete_eq _ _) s y); by apply stored_stands |]. cbn beta. intros _ s1 S1.
  assert (this < obrk s) as Lt by (apply (so_below _ _ S); by eexists). pose proof (stands_stored s σ this (obrk s) s1 None S Lt ltac:(lia) S1 eq_refl) as [Ob Tr Ap B Be].
  exists (delete this σ). cbn [trees next_object]. split_and!; [| by rewrite fmap_delete, Et | by rewrite (st_next _ _ _ _ _ S1)].
  assert (forall o z, delete this σ !! o = Some z -> <[this := None]> σ !! o = Some z /\ o <> this) as In.
  { intros o z [N Eo]%lookup_delete_Some. by rewrite lookup_insert_ne. }
  split; cbn [objs items obrk].
  - intros o z [Eo N]%In. rewrite lookup_delete_ne by done. by apply Ob.
  - intros o t [Eo _]%In. by eapply Tr.
  - intros o o' t t' N [Eo _]%In [Eo' _]%In. by eapply Ap.
  - done.
  - intros o [z [Eo _]%In]. apply Be. by eexists.
Qed.

Lemma run_call_refines s w c a w' : refined s w -> step w c = Some (a, w') -> twp (run_call c) (fun a' s' => a' = a /\ refined s' w') s.
Proof.
  intros R E. destruct c as [|text|o|o|this c|this]; cbn [step run_call] in *.
  - injection E as <- <-. destruct R as (σ & S & Et & En). unfold CJsonObject_empty. apply twp_bind. eapply twp_mono; [by apply new_object_ok |].
    cbn beta. intros p s1 (-> & S1). split; [by rewrite En |]. by apply (new_refines s σ w None).
  - destruct (parsed text) as [z|] eqn:Ez; [| done]. injection E as <- <-. pose proof (new_text_refines s w (fun _ => mret text) text z ltac:(done) R Ez) as T.
    assert ((p ← CJsonObject_text text; mret (AObject p)) s = (p ← new_object 0 0; t ← mret text; _ ← Parse p t; mret (AObject p)) s) as Eq.
    { unfold CJsonObject_text, mbind, M_bind. destruct (new_object 0 0 s) as [p s1| |]; try done. cbn [mret M_ret]. by destruct (Parse p text s1). }
    unfold twp. rewrite Eq. eapply twp_mono; [exact T |]. cbn beta. intros a s' [[= <-] R']. done.
  - destruct (trees w !! o) as [x|] eqn:Eo; [| done]. cbn [mbind option_bind] in E. destruct (copied x) as [z|] eqn:Ez; [| done]. injection E as <- <-.
    eapply twp_mono; [by apply (new_copy_refines s w o x z) |]. cbn beta. intros a s' [[= <-] R']. done.
  - destruct (Z.eqb_spec o 0) as [->|No].
    + injection E as <- <-. destruct R as (σ & S & Et & En). unfold CJsonObject_pointer. cbn [Z.eqb]. apply twp_bind. apply twp_bind. eapply twp_mono; [by apply new_object_ok |].
      cbn beta. intros p s1 (-> & S1). split; [by rewrite En |]. by apply (new_refines s σ w None).
    + destruct (trees w !! o) as [x|] eqn:Eo; [| done]. cbn [mbind option_bind] in E. destruct (copied x) as [z|] eqn:Ez; [| done]. injection E as <- <-.
      pose proof (new_copy_refines s w o x z R Eo Ez) as T.
      assert ((p ← CJsonObject_pointer o; mret (AObject p)) s = (p ← CJsonObject_copy o; mret (AObject p)) s) as Eq.
      { unfold CJsonObject_pointer, CJsonObject_copy, mbind, M_bind. rewrite (proj2 (Z.eqb_neq _ _) No). destruct (new_object 0 0 s) as [p s1| |]; try done.
        destruct (ToString o s1) as [t' s2| |]; try done. by destruct (Parse p t' s2). }
      unfold twp. rewrite Eq. eapply twp_mono; [exact T |]. cbn beta. intros a s' [[= <-] R']. done.
  - destruct (apply (trees w) this c) as [r|] eqn:Er; [| done]. injection E as <- <-. apply twp_bind. eapply twp_mono; [by apply run_op_refines |].
    cbn beta. intros b s' [-> R']. done.
  - destruct (trees w !! this) as [x|] eqn:Eo; [| done]. injection E as <- <-. apply twp_bind. eapply twp_mono; [by eapply destroy_refines |]. done.
Qed.

Lemma run_calls_refine l : forall s w r w', refined s w -> steps w l = Some (r, w') -> twp (run_calls l) (fun r' s' => r' = r /\ refined s' w') s.
Proof.
  induction l as [|c l IH]; intros s w r w' R E; cbn [steps run_calls] in *; [by injection E as <- <- |]. destruct (step w c) as [[a w1]|] eqn:E1; [| done].
  cbn [mbind option_bind snd] in E. destruct (steps w1 l) as [[r2 w2]|] eqn:E2; [| done]. injection E as <- <-. apply twp_bind.
  eapply twp_mono; [by eapply run_call_refines |]. cbn beta. intros a' s1 [-> R1]. apply twp_bind. eapply twp_mono; [by eapply IH |]. cbn beta. intros r' s2 [-> R2]. done.
Qed.

(** No object yet, whatever is in memory. *)
Lemma refined_empty s : bounded (items s) -> refined s (mk_world ∅ (obrk s)).
Proof.
  intros B. exists ∅. split_and!; [| by rewrite fmap_empty | done]. split; [..| done |]; try (intros o ?; by rewrite lookup_empty).
  intros o [x E]. by rewrite lookup_empty in E.
Qed.

Lemma refined_text s w o x fmt text : refined s w -> trees w !! o = Some x -> text_of fmt x = Some text -> to_text o fmt s = Ret text s.
Proof.
  intros (σ & S & Et & _) E Tx. rewrite Et, lookup_fmap in E. apply fmap_Some in E as (y & Ey & ->).
  eapply (text_ok (delete o σ) (obrk s) o (stored_rest _ _ _ S) s y); [by apply stored_stands | | | exact Tx].
  - apply (stored_typed _ _ S o). by rewrite lookup_fmap, Ey.
  - apply lookup_insert_eq.
Qed.

(** ** Claims *)

(** C13: objects that have handed out no wrapper are independent trees.  From
    a memory without objects, for any sequence of calls of the constructors,
    the destructor and the methods that change an object (every overload of
    [Add], [AddAsFirst] and [Replace], with numbers, strings, booleans and other
    objects, [AddEmptySubObject], [AddEmptySubArray], [Delete], [Parse],
    [Load], [operator=], [Clear], and [Get] into another object): if [steps]
    defines what the calls do to the trees, then each call returns what it
    says, nothing goes wrong with the items in memory, and [ToString] and
    [ToFormattedString] of every object give the text of its tree (where the
    printer has one).  [steps] is undefined only when a call names an object
    that does not exist, when printing an object that is copied through its
    text overruns a buffer (a large floating-point number does) or an [int],
    or when the parser runs out of a text. *)
Theorem jsonobject_refines_tree s calls r w : bounded (items s) -> steps (mk_world ∅ (obrk s)) calls = Some (r, w) ->
  exists s', run_calls calls s = Ret r s' /\
    forall o x fmt text, trees w !! o = Some x -> text_of fmt x = Some text -> to_text o fmt s' = Ret text s'.
Proof.
  intros B E. destruct (twp_Ret _ _ _ (run_calls_refine calls _ _ _ _ (refined_empty s B) E)) as (r' & s' & Er & -> & R). exists s'. split; [done |].
  intros o x fmt text. by apply refined_text.
Qed.

(** C24: whatever sequence of calls for which [steps] is defined has made and
    changed the objects, from a memory without objects (constructors, the
    destructor and the methods that change an object, but for those that hand
    out wrappers), the items that each object holds
    in memory form a well-typed tree: every item has one of the types of cJSON,
    a string item has its text, only arrays and objects have children, and
    every child of an object has a name, so that the pointers that the readers
    follow without a test are not null. *)
Theorem json_trees_typed s calls r w : bounded (items s) -> steps (mk_world ∅ (obrk s)) calls = Some (r, w) ->
  exists s', run_calls calls s = Ret r s' /\ forall o x, trees w !! o = Some x -> exists ob, objs s' !! o = Some ob /\
    match x with
    | None => m_pJsonData ob = 0
    | Some t => exists f, read_tree f (m_pJsonData ob) (items s') = Ret t (items s') /\ typed t = true
    end.
Proof.
  intros B E. destruct (twp_Ret _ _ _ (run_calls_refine calls _ _ _ _ (refined_empty s B) E)) as (r' & s' & Er & -> & σ & S & Et & _). exists s'. split; [done |].
  intros o x Eo. rewrite Et, lookup_fmap in Eo. apply fmap_Some in Eo as (y & Ey & ->). destruct (so_obj _ _ S _ _ Ey) as [e Eo]. eexists. split; [exact Eo |].
  destruct y as [t|]; [| done]. destruct (so_tree _ _ S _ _ Ey) as (O & N & T). exists (2 * length (addrs t))%nat. split; [| done].
  by apply (proj1 (read_ok _ _)) with (pv := 0) (nx := 0).
Qed.

Lemma twp_object (m : M state Z) Q s : twp (p ← m; mret (AObject p)) Q s -> twp m (fun p => Q (AObject p)) s.
Proof. unfold twp, mbind, M_bind. by destruct (m s). Qed.

(** C25: the copy of an object made from a text equals the object, when the
    tree of the text is canonical (no floating-point number, no [-0] and no
    number below [- 2 ^ 63]) and the sizes of its text fit an [int]. *)
Theorem jsonobject_copy_equal s text t : bounded (items s) -> CJson.cJSON_Parse text = Some (Some (inl t)) -> CJsonText.canonical t = true ->
  4 * zlen (CJsonText.render 0 false t) + 10 <= INT_MAX ->
  exists s', (o ← CJsonObject_text text; p ← CJsonObject_copy o; equals p o) s = Ret true s'.
Proof.
  intros B P C L. destruct (parse_typed _ _ P) as [T Nm]. pose proof (CJsonText.prints_all t 0 false C ltac:(lia) L) as Pr. pose proof (CJsonText.parse_render false t C Nm L) as Pa.
  set (text' := CJsonText.render 0 false t) in *. assert (text_of false (Some t) = Some text') as Tx by (unfold text_of; by rewrite Pr).
  set (w1 := mk_world {[obrk s := Some t]} (obrk s + 1)). set (w2 := mk_world (<[obrk s + 1 := Some t]> {[obrk s := Some t]}) (obrk s + 1 + 1)).
  assert (twp (o ← CJsonObject_text text; p ← CJsonObject_copy o; equals p o) (fun b _ => b = true) s) as Tw.
  { apply twp_bind. eapply twp_mono; [apply twp_object, (run_call_refines s _ (NewText text) (AObject (obrk s)) w1 (refined_empty s B)) |].
    { cbn [step]. unfold parsed. by rewrite P. }
    cbn beta. intros o s1 [[= ->] R1]. apply twp_bind. eapply twp_mono; [apply twp_object, (run_call_refines s1 w1 (NewCopy (obrk s)) (AObject (obrk s + 1)) w2 R1) |].
    { cbn [step w1 trees]. rewrite lookup_singleton_eq. cbn [mbind option_bind]. unfold copied. rewrite Tx. cbn [mbind option_bind]. unfold parsed. by rewrite Pa. }
    cbn beta. intros p s2 [[= ->] R2]. unfold equals, ToString. apply twp_bind. eapply twp_returns; [eapply (refined_text s2 w2); [done | apply lookup_insert_eq | exact Tx] |].
    apply twp_bind. eapply twp_returns; [eapply (refined_text s2 w2); [done | | exact Tx] |]; [| by apply bool_decide_eq_true].
    cbn [w2 trees]. rewrite lookup_insert_ne by lia. apply lookup_singleton_eq. }
  apply twp_Ret in Tw as (b & s' & E & ->). by exists s'.
Qed.

(** ** Wrappers that are handed out *)

(** The object [o] owns the tree [t]; it may have handed out wrappers. *)
Definition owns (s : state) (o : Z) (ob : obj) (t : ltree) : Prop :=
  objs s !! o = Some ob /\ m_pJsonData ob = addr t /\ good (Fr ∅) (items s) t /\ type (data t) = CJson.cJSON_Object.

Lemma refined_owns s w o t : refined s w -> trees w !! o = Some (Some t) -> CJson.type t = CJson.cJSON_Object ->
  exists e l, owns s o (obj_for (Some l) e) l /\ erase l = t /\ typed (erase l) = true /\ o < obrk s.
Proof.
  intros (σ & S & Et & _) E Ty. rewrite Et, lookup_fmap in E. apply fmap_Some in E as ([l|] & El & E); [| done]. injection E as ->. rewrite erase_type in Ty.
  destruct (so_obj _ _ S _ _ El) as [e Eo]. destruct (so_tree _ _ S _ _ El) as (O & N & T). exists e, l. split_and!; [| done | done | apply (so_below _ _ S); by eexists]. split_and!; [done | done | | done].
  split; [done | done | by apply typed_no_ref | apply S |]. intros u [q E]. by rewrite lookup_empty in E.
Qed.

(** The data, and an item by its name. *)
Lemma owns_data s o ob t create : owns s o ob t -> GetJsonData o s = Ret (addr t) s /\ focus_or_new o create s = Ret (addr t) s.
Proof.
  intros (Eo & Ed & G & _). destruct (ok_addr _ _ _ _ (g_ok _ _ _ G)) as [Z _]. apply Z.eqb_neq in Z.
  unfold GetJsonData, focus_or_new, obj_of, mbind, M_bind, get, deref. by rewrite Eo, Ed, Z.
Qed.

Lemma owns_item s o ob t key : owns s o ob t -> key_item o key s = Ret (match kids t !! position (Some (c_cut key)) (kids t) with Some u => addr u | None => 0 end) s.
Proof.
  intros (Eo & Ed & G & Ty). destruct (ok_addr _ _ _ _ (g_ok _ _ _ G)) as [Z Ea]. unfold key_item, item_of, obj_of, mbind, M_bind, get, deref. rewrite Eo, Ed, (proj2 (Z.eqb_neq _ _) Z).
  cbn [negb]. unfold on_items, load, mbind, M_bind, get, deref. rewrite Ea. change (type (link _ _ _ ?d)) with (type d). rewrite Ty, Z.eqb_refl. destruct t as [p d cs]. cbn [addr kids].
  rewrite (GetObjectItem_ok _ p d cs 0 0) by apply G. rewrite fst_addr_lookup. by destruct s.
Qed.

Lemma owns_focus s o ob t wrong k : owns s o ob t ->
  with_focus o (GetJsonData o) CJson.cJSON_Object wrong k s = k (addr t) s /\
  forall create, with_focus o (focus_or_new o create) CJson.cJSON_Object wrong k s = k (addr t) s.
Proof.
  intros W. pose proof W as (_ & _ & G & Ty). destruct (ok_addr _ _ _ _ (g_ok _ _ _ G)) as [Z Ea].
  assert (forall m, m s = Ret (addr t) s -> with_focus o m CJson.cJSON_Object wrong k s = k (addr t) s) as F.
  { intros m E. unfold with_focus, mbind, M_bind. rewrite E, (proj2 (Z.eqb_neq _ _) Z). unfold on_items, load, mbind, M_bind, get, deref. rewrite Ea.
    change (type (link _ _ _ ?d)) with (type d). rewrite Ty, Z.eqb_refl. cbn [negb]. by destruct s. }
  split; [| intros create]; apply F; by eapply (owns_data _ _ _ _ cJSON_CreateObject) || by apply (owns_data _ _ _ _ create) in W as [_ ?].
Qed.

(** A new item beside the tree, the wrappers as they are. *)
Lemma owns_made s o ob t g k Q : owns s o ob t -> loose (g node0) ->
  (forall s' l, objs s' = objs s -> obrk s' = obrk s -> owns s' o ob t -> spare (Fr ∅) (items s') t l -> twp (k (addr l)) Q s') -> twp (made (create g) k) Q s.
Proof.
  intros (Eo & Ed & G & Ty) Lo K. unfold made. apply twp_bind. apply twp_on_items. eapply twp_mono; [apply create_item_ok; [apply G | done] |].
  cbn beta. intros p h (-> & Op & B & Sm). destruct (ok_addr _ _ _ _ Op) as [Zp _]. cbn [addr] in Zp. rewrite (proj2 (Z.eqb_neq _ _) Zp).
  destruct (good_spare ∅ (items s) h t (L (brk (items s)) (g node0) []) G B Op) as [G' Sp].
  - repeat constructor. apply not_elem_of_nil.
  - destruct Lo as [_ Lo]. cbn [no_ref]. by rewrite Lo.
  - intros a ->%list_elem_of_singleton. lia.
  - done.
  - by apply (K (mk_state h (objs s) (obrk s)) (L (brk (items s)) (g node0) [])).
Qed.

(** The first look at a member hands out a wrapper that points at it. *)
Lemma call_key_hands_out s o ob t u key : owns s o ob t -> typed (erase t) = true -> m_mapJsonObjectRef ob !! key = None -> kids t !! position (Some (c_cut key)) (kids t) = Some u -> o < obrk s ->
  exists txt s', call_key o key s = Ret txt s' /\ items s' = items s /\ owns s' o (set_object_ref (<[key := obrk s]> (m_mapJsonObjectRef ob)) ob) t /\
    objs s' !! obrk s = Some (mk_obj 0 (addr u) [] ∅ ∅).
Proof.
  intros W T Nk Eu Lt. pose proof (owns_item _ _ _ _ key W) as It. rewrite Eu in It. pose proof W as (Eo & Ed & G & Ty).
  destruct (child_held _ _ _ _ (g_ok _ _ _ G) (g_nodup _ _ _ G) T Eu) as (pv & nx & Ou & _ & Tu). destruct (ok_addr _ _ _ _ Ou) as [Zu Ea].
  assert (exists txt, JsonStruct2Str (addr u) (items s) = Ret txt (items s)) as [txt Ej].
  { unfold JsonStruct2Str. rewrite (proj2 (Z.eqb_neq _ _) Zu). unfold load, mbind, M_bind, get, deref. rewrite Ea.
    change (type (link _ _ _ ?d)) with (type d). change (valuestring (link _ _ _ ?d)) with (valuestring d). destruct u as [pu du cu]. apply typed_elim in Tu as (_ & Vs & _). cbn [data] in *.
    destruct (Z.eqb_spec (type du) CJson.cJSON_String) as [E|]; [destruct (valuestring du) as [v|]; [by eexists | by destruct (Vs E)] |].
    repeat (match goal with |- context [if ?b then _ else _] => destruct b end; try by eexists). }
  exists txt, (mk_state (items s) (<[o := set_object_ref (<[key := obrk s]> (m_mapJsonObjectRef ob)) ob]> (<[obrk s := mk_obj 0 (addr u) [] ∅ ∅]> (objs s))) (obrk s + 1)).
  split_and!; [| done | | cbn [objs]; rewrite lookup_insert_ne by lia; apply lookup_insert_eq].
  - unfold call_key, mbind at 1, M_bind. unfold obj_of at 1, mbind, M_bind, get, deref. rewrite Eo, Nk, It, (proj2 (Z.eqb_neq _ _) Zu).
    unfold CJsonObject_item, new_object, update_obj, obj_of, gets, modify, mbind, M_bind, get, deref, mret, M_ret. cbn [objs items obrk]. rewrite lookup_insert_ne, Eo by lia.
    unfold on_items. cbn [objs items obrk]. by rewrite Ej.
  - split_and!; [apply lookup_insert_eq | done | done | done].
Qed.

(** A look through a wrapper whose item is gone. *)
Lemma call_key_stale s o ob r p key : objs s !! o = Some ob -> m_mapJsonObjectRef ob !! key = Some r -> objs s !! r = Some (mk_obj 0 p [] ∅ ∅) ->
  p <> 0 -> nodes (items s) !! p = None -> call_key o key s = Undef.
Proof.
  intros Eo Er Ew Zp Ep. unfold call_key, GetJsonData, obj_of, mbind, M_bind, get, deref, mret, M_ret. rewrite Eo, Er, Ew. cbn [m_pJsonData m_pExternJsonDataRef]. change (0 =? 0) with true. cbn iota.
  unfold on_items, JsonStruct2Str. rewrite (proj2 (Z.eqb_neq _ _) Zp). unfold load, mbind, M_bind, get, deref. by rewrite Ep.
Qed.

Lemma owns_replace s o ob t u key v : owns s o ob t -> kids t !! position (Some (c_cut key)) (kids t) = Some u -> (forall q, v <> VObject q) ->
  twp (run_op o (ReplaceKey key v)) (fun b s' => b = true /\ objs s' = objs s /\ nodes (items s') !! addr u = None) s.
Proof.
  intros W Eu Nv. assert (run_op o (ReplaceKey key v) = Replace_key o key (create (fill false v))) as -> by (destruct v as [| | | | | | | |q]; [done.. |]; by destruct (Nv q)).
  unfold Replace_key, in_object. unfold twp at 1. rewrite (proj1 (owns_focus s o ob t not_object _ W)). fold (twp (S := state) (A := bool)).
  eapply (owns_made s o ob t _ _ _ W (fill_loose false v)). intros s' l Eo _ (_ & _ & G & _) Sp. apply twp_on_items. destruct t as [p d cs]. cbn [addr kids] in *. apply twp_bind.
  eapply twp_mono; [by apply (ReplaceItemInObject_ok (Fr ∅)) |]. cbn beta. intros _ h' [G' Gone]. eapply twp_mono; [eapply (check_key (Fr ∅) _ _ _ _ _ true); [exact G' |] |].
  - unfold replace_at. apply lookup_lt_Some in Eu as Lt. apply Nat.ltb_lt in Lt. rewrite Lt. apply Nat.ltb_lt, position_found, matches_named.
  - cbn beta. intros b h'' [-> ->]. split_and!; [done | done |]. cbn [items]. apply (Gone u); [done | apply addr_in].
Qed.

Lemma owns_delete s o ob t u key : owns s o ob t -> m_mapJsonObjectRef ob !! key = None -> kids t !! position (Some (c_cut key)) (kids t) = Some u ->
  twp (Delete_key o key) (fun b s' => b = true /\ objs s' = objs s /\ nodes (items s') !! addr u = None) s.
Proof.
  intros W Nk Eu. unfold Delete_key, in_object. unfold twp at 1. rewrite (proj1 (owns_focus s o ob t not_object _ W)). fold (twp (S := state) (A := bool)).
  pose proof W as (Eo & _ & G & _). destruct t as [p d cs]. cbn [addr kids] in *. apply twp_bind. apply twp_on_items.
  eapply twp_mono; [by apply (DeleteItemFromObject_ok (Fr ∅)) |]. cbn beta. intros _ h' [_ Gone]. apply twp_bind. unfold forget_key, obj_of. apply twp_bind. apply twp_bind. apply twp_get.
  eapply twp_deref; [exact Eo |]. rewrite Nk. split_and!; [done | done |]. cbn [items]. apply (Gone u); [done | apply addr_in].
Qed.

Lemma owns_add s o ob t key v : owns s o ob t -> (forall q, v <> VObject q) ->
  twp (run_op o (AddKey key v)) (fun b s' => b = true /\ objs s' = objs s /\ exists p, p <> 0 /\ key_item o key s' = Ret p s') s.
Proof.
  intros W Nv. assert (run_op o (AddKey key v) = Add_key o key (create (fill false v))) as -> by (destruct v as [| | | | | | | |q]; [done.. |]; by destruct (Nv q)).
  unfold Add_key, in_new_object. unfold twp at 1. rewrite (proj2 (owns_focus s o ob t not_object _ W)). fold (twp (S := state) (A := bool)).
  eapply (owns_made s o ob t _ _ _ W (fill_loose false v)). intros s' l Es _ (Eo & Ed & G & Ty) Sp. apply twp_on_items. destruct t as [p d cs]. cbn [addr kids] in *. apply twp_bind.
  eapply twp_mono; [by apply (AddItemToObject_ok (Fr ∅)) |]. cbn beta. intros _ h' G'. pose proof (position_found (c_cut key) cs (rename (c_cut key) l) [] (matches_named _ _)) as Lt.
  eapply twp_mono; [eapply (check_key (Fr ∅) _ _ _ _ _ true); [exact G' |] |]; [by apply Nat.ltb_lt |].
  cbn beta. intros b h'' [-> ->]. split_and!; [done | done |]. eexists. split; [| eapply (owns_item _ o ob (L p d (cs ++ [rename (c_cut key) l])) key); by split_and!].
  cbn [kids]. destruct (lookup_lt_is_Some_2 _ _ Lt) as [u Eu]. rewrite Eu. pose proof (g_ok _ _ _ G') as (_ & _ & O)%ok_L. rewrite <- (take_drop_middle _ _ _ Eu) in O.
  apply oks_app in O as [_ [O _]]. by apply ok_addr in O as [? _].
Qed.

(** A look with [[]] at a member that is not there hands out an empty wrapper. *)
Lemma Get_ref_hands_out s o ob t key : owns s o ob t -> m_mapJsonObjectRef ob !! key = None -> kids t !! position (Some (c_cut key)) (kids t) = None -> o < obrk s ->
  exists s', Get_ref o key s = Ret (obrk s) s' /\ owns s' o (set_object_ref (<[key := obrk s]> (m_mapJsonObjectRef ob)) ob) t /\ objs s' !! obrk s = Some (mk_obj 0 0 [] ∅ ∅).
Proof.
  intros W Nk Eu Lt. pose proof (owns_item _ _ _ _ key W) as It. rewrite Eu in It. pose proof W as (Eo & Ed & G & Ty).
  exists (mk_state (items s) (<[o := set_object_ref (<[key := obrk s]> (m_mapJsonObjectRef ob)) ob]> (<[obrk s := mk_obj 0 0 [] ∅ ∅]> (objs s))) (obrk s + 1)).
  split_and!; [| | cbn [objs]; rewrite lookup_insert_ne by lia; apply lookup_insert_eq].
  - unfold Get_ref, mbind at 1, M_bind. unfold obj_of at 1, mbind, M_bind, get, deref. rewrite Eo, Nk, It.
    unfold wrap, CJsonObject_empty, new_object, update_obj, obj_of, gets, modify, mbind, M_bind, get, deref, mret, M_ret. change (0 =? 0) with true. cbn [objs items obrk]. by rewrite lookup_insert_ne, Eo by lia.
  - split_and!; [apply lookup_insert_eq | done | done | done].
Qed.

Lemma call_key_empty s o ob r key : objs s !! o = Some ob -> m_mapJsonObjectRef ob !! key = Some r -> objs s !! r = Some (mk_obj 0 0 [] ∅ ∅) -> call_key o key s = Ret [] s.
Proof.
  intros Eo Er Ew. unfold call_key, GetJsonData, obj_of, mbind, M_bind, get, deref, mret, M_ret. rewrite Eo, Er, Ew. cbn [m_pJsonData m_pExternJsonDataRef]. change (0 =? 0) with true. cbn iota. by destruct s.
Qed.

(** C37: wrappers go stale.  For every object [o] with a JSON object [t] in a
    memory that holds the trees of [w] (as after all calls for which [steps] is
    defined, so that no wrappers have been handed out before) and every key: (1) when [t] has a member of this name, then after a look at it
    with [operator()], replacing the member by a number, a string or a boolean
    succeeds, and so does deleting it by another spelling of the name in which
    only the case of the letters differs ([key'] names the same member), but
    the next look with the first spelling reads freed memory; (2) when [t] has
    no such member, then after a look at it with [operator[]] a number, a string or a boolean is
    added under the name and is in the tree, but looking at it with
    [operator()] gives the empty text. *)
Theorem jsonobject_stale_wrapper s w o t key : refined s w -> trees w !! o = Some (Some t) -> CJson.type t = CJson.cJSON_Object ->
  let i := index_of (c_cut key) (CJson.child t) in
  ((i < length (CJson.child t))%nat -> exists txt s1, call_key o key s = Ret txt s1 /\
     (forall v, (forall q, v <> VObject q) -> exists s2, run_op o (ReplaceKey key v) s1 = Ret true s2 /\ call_key o key s2 = Undef) /\
     (forall key', key' <> key -> index_of (c_cut key') (CJson.child t) = i -> exists s2, Delete_key o key' s1 = Ret true s2 /\ call_key o key s2 = Undef)) /\
  ((length (CJson.child t) <= i)%nat -> exists r s1, Get_ref o key s = Ret r s1 /\
     forall v, (forall q, v <> VObject q) -> exists s2 p, run_op o (AddKey key v) s1 = Ret true s2 /\ key_item o key s2 = Ret p s2 /\ p <> 0 /\ call_key o key s2 = Ret [] s2).
Proof.
  intros R E Ty. destruct (refined_owns _ _ _ _ R E Ty) as (e & l & W & <- & Tl & Lt). rewrite erase_child. cbv zeta. rewrite <- !position_index, length_map. split.
  - intros Li. destruct (lookup_lt_is_Some_2 _ _ Li) as [u Eu]. assert (addr u <> 0) as Zu.
    { destruct W as (_ & _ & G & _). destruct (child_held _ _ _ _ (g_ok _ _ _ G) (g_nodup _ _ _ G) Tl Eu) as (pv & nx & Ou & _). by apply ok_addr in Ou as [? _]. }
    destruct (call_key_hands_out s o _ l u key W Tl (lookup_empty _) Eu Lt) as (txt & s1 & Ec & Ei & W1 & Er). exists txt, s1. split; [done |].
    assert (forall s2, objs s2 = objs s1 -> nodes (items s2) !! addr u = None -> call_key o key s2 = Undef) as St.
    { intros s2 E2 Gone. eapply (call_key_stale s2 o _ (obrk s) (addr u)); [rewrite E2; apply W1 | apply lookup_insert_eq | by rewrite E2 | done | done]. }
    split.
    + intros v Nv. destruct (twp_Ret _ _ _ (owns_replace _ _ _ _ _ _ v W1 Eu Nv)) as (b & s2 & Eb & -> & E2 & Gone). exists s2. auto.
    + intros key' Nk Ek. rewrite <- position_index in Ek. rewrite <- Ek in Eu. eapply owns_delete in W1; [| cbn [set_object_ref m_mapJsonObjectRef]; by rewrite lookup_insert_ne | exact Eu].
      destruct (twp_Ret _ _ _ W1) as (b & s2 & Eb & -> & E2 & Gone). exists s2. auto.
  - intros Ge. apply lookup_ge_None in Ge. destruct (Get_ref_hands_out s o _ l key W (lookup_empty _) Ge Lt) as (s1 & Eg & W1 & Er). exists (obrk s), s1. split; [done |].
    intros v Nv. destruct (twp_Ret _ _ _ (owns_add _ _ _ _ key v W1 Nv)) as (b & s2 & Eb & -> & E2 & p & Zp & Ek). exists s2, p. split_and!; [done | done | done |].
    eapply (call_key_empty s2 o _ (obrk s)); [rewrite E2; apply W1 | apply lookup_insert_eq | by rewrite E2].
Qed.
End libm.

(** ** Examples *)

#[local] Instance sample_libm : CJson.Libm := { CJson.pow10 _ := S754_zero false; CJson.cast_out _ := 0 }.

Definition start : state := mk_state (mk_heap ∅ 1) ∅ 1.

Lemma start_bounded : bounded (items start).
Proof. split; [done |]. intros a [n E]. cbn in E. by rewrite lookup_empty in E. Qed.

Definition q : ascii := CJson.dq.
Definition sample_text : bytes := "{"%char :: q :: "a"%char :: q :: str_bytes ":[7]}".
Definition sample_tree : CJson.cJSON := CJson.mk_item CJson.cJSON_Object None 0 (S754_zero false) 0 None
  [CJson.mk_item CJson.cJSON_Array None 0 (S754_zero false) 0 (Some (str_bytes "a"))
     [CJson.mk_item CJson.cJSON_Int None 7 (to_double 7 0) 1 None []]].

(** Two objects; the array of the second one is added to the first, which takes
    its member back and is copied. *)
Definition sample_calls : list call :=
  [NewText sample_text; New; On 2 (Append (VInt32 (-5))); On 2 (Prepend (VBool true)); On 1 (AddKey (str_bytes "b") (VObject 2));
   On 1 (ReplaceKey (str_bytes "A") (VBool false)); On 2 (TakeKey (str_bytes "B") 1); On 2 (DeleteAt 0); On 1 (Append (VInt32 1)); NewCopy 1; Destroy 1].
Definition sample_world : world := default (mk_world ∅ 0) (snd <$> steps (mk_world ∅ 1) sample_calls).
Definition sample_answers : list answer :=
  [AObject 1; AObject 2; ABool true; ABool true; ABool true; ABool true; ABool true; ABool true; ABool false; AObject 3; ADone].

Lemma sample_steps : steps (mk_world ∅ (obrk start)) sample_calls = Some (sample_answers, sample_world).
Proof. vm_compute; reflexivity. Qed.

Definition sample_copy : bytes := ["{"; q; "A"; q]%char ++ str_bytes ":false," ++ [q; "b"; q]%char ++ str_bytes ":[true,-5]}".

(** The text of an object of the store. *)
Definition store_text (w : world) (o : Z) : option bytes := x ← trees w !! o; text_of false x.
Lemma store_text_ok w o text : store_text w o = Some text -> exists x, trees w !! o = Some x /\ text_of false x = Some text.
Proof. unfold store_text. destruct (trees w !! o) as [x|]; [by exists x | done]. Qed.

Lemma sample_text2 : store_text sample_world 2 = Some (str_bytes "[-5]").
Proof. vm_compute. reflexivity. Qed.
Lemma sample_text3 : store_text sample_world 3 = Some sample_copy.
Proof. vm_compute. reflexivity. Qed.

Lemma jsonobject_refines_tree_witness : exists s', run_calls sample_calls start = Ret sample_answers s' /\
  to_text 2 false s' = Ret (str_bytes "[-5]") s' /\ to_text 3 false s' = Ret sample_copy s'.
Proof.
  destruct (jsonobject_refines_tree start sample_calls sample_answers sample_world start_bounded sample_steps) as (s' & E & T). exists s'. split; [exact E |].
  destruct (store_text_ok _ _ _ sample_text2) as (x2 & E2 & T2), (store_text_ok _ _ _ sample_text3) as (x3 & E3 & T3).
  split; [exact (T _ _ _ _ E2 T2) | exact (T _ _ _ _ E3 T3)].
Defined.

Lemma json_trees_typed_witness : exists s', run_calls sample_calls start = Ret sample_answers s' /\ exists ob, objs s' !! 2 = Some ob /\
  (m_pJsonData ob = 0 \/ exists t f, read_tree f (m_pJsonData ob) (items s') = Ret t (items s') /\ typed t = true).
Proof.
  destruct (json_trees_typed start sample_calls sample_answers sample_world start_bounded sample_steps) as (s' & E & T). exists s'. split; [exact E |].
  destruct (store_text_ok _ _ _ sample_text2) as (x & Ex & _). destruct (T _ _ Ex) as (ob & Eo & R). exists ob. split; [exact Eo |].
  destruct x as [t|]; [right; destruct R as [f R]; exists t, f; exact R | left; exact R].
Defined.

Lemma jsonobject_copy_equal_witness : exists s', (o ← CJsonObject_text sample_text; p ← CJsonObject_copy o; equals p o) start = Ret true s'.
Proof. apply (jsonobject_copy_equal start sample_text sample_tree); [exact start_bounded | vm_compute; reflexivity | vm_compute; reflexivity | vm_compute; discriminate]. Defined.

(** An object that holds [sample_tree]. *)
Lemma sample_refined : exists s, refined s (mk_world {[1 := Some sample_tree]} 2).
Proof.
  assert (twp (run_call (NewText sample_text)) (fun a s' => a = AObject 1 /\ refined s' (mk_world {[1 := Some sample_tree]} 2)) start) as T.
  { apply (run_call_refines start (mk_world ∅ 1)); [exact (refined_empty start start_bounded) | vm_compute; reflexivity]. }
  apply twp_Ret in T as (a & s & _ & _ & R). by exists s.
Qed.

Lemma jsonobject_stale_wrapper_witness : exists s txt s1 s2 s3, call_key 1 (str_bytes "a") s = Ret txt s1 /\
  Replace_key_int32 1 (str_bytes "a") 5 s1 = Ret true s2 /\ call_key 1 (str_bytes "a") s2 = Undef /\
  Delete_key 1 (str_bytes "A") s1 = Ret true s3 /\ call_key 1 (str_bytes "a") s3 = Undef.
Proof.
  destruct sample_refined as [s R].
  destruct (jsonobject_stale_wrapper s _ 1 sample_tree (str_bytes "a") R (lookup_singleton_eq _ _) eq_refl) as [St _].
  destruct (St ltac:(vm_compute; lia)) as (txt & s1 & E1 & Rep & Del). destruct (Rep (VInt32 5) ltac:(discriminate)) as (s2 & E2 & U2).
  destruct (Del (str_bytes "A") ltac:(discriminate) ltac:(vm_compute; reflexivity)) as (s3 & E3 & U3). exists s, txt, s1, s2, s3.
  split; [exact E1 |]. split; [exact E2 |]. split; [exact U2 |]. split; [exact E3 | exact U3].
Defined.
End CJsonStore.
