(* ===== verification/HttpParser.v ===== *)
(** The HTTP parser ([util/http/http_parser.c], [http_parser.h]).

    [http_parser_execute] is a loop over the bytes of a buffer around a switch
    on the state; each [case] of the switch is a definition [case_*] here.
    The local variables of the function are the record [exec], the labels and
    the exits of the switch are the constructors of [out].  The callbacks are
    the functions of [http_parser_settings]: they see the parser and an object
    of type [U], and may change both.

    A failing [assert], a read outside the buffer and a loop that does not end
    are [Abort]; [HttpParserSafe] shows that none of them happens.  The macros
    are those of the default build, [HTTP_PARSER_STRICT]. *)

From S2P Require Import Prelude.

Module HttpParser.

#[local] Infix "≟" := Ascii.eqb (at level 70).

(** ** Tables and enumerations *)

Inductive http_parser_type := HTTP_REQUEST | HTTP_RESPONSE | HTTP_BOTH.

Inductive http_method :=
  | HTTP_DELETE | HTTP_GET | HTTP_HEAD | HTTP_POST | HTTP_PUT | HTTP_CONNECT | HTTP_OPTIONS | HTTP_TRACE | HTTP_COPY | HTTP_LOCK
  | HTTP_MKCOL | HTTP_MOVE | HTTP_PROPFIND | HTTP_PROPPATCH | HTTP_SEARCH | HTTP_UNLOCK | HTTP_BIND | HTTP_REBIND | HTTP_UNBIND | HTTP_ACL
  | HTTP_REPORT | HTTP_MKACTIVITY | HTTP_CHECKOUT | HTTP_MERGE | HTTP_MSEARCH | HTTP_NOTIFY | HTTP_SUBSCRIBE | HTTP_UNSUBSCRIBE
  | HTTP_PATCH | HTTP_PURGE | HTTP_MKCALENDAR | HTTP_LINK | HTTP_UNLINK | HTTP_SOURCE.

(** The numbers of the methods, and their names as [#string] makes them of
    [HTTP_METHOD_MAP]. *)
Definition method_strings : list (http_method * string) :=
  [(HTTP_DELETE, "DELETE"); (HTTP_GET, "GET"); (HTTP_HEAD, "HEAD"); (HTTP_POST, "POST"); (HTTP_PUT, "PUT"); (HTTP_CONNECT, "CONNECT");
   (HTTP_OPTIONS, "OPTIONS"); (HTTP_TRACE, "TRACE"); (HTTP_COPY, "COPY"); (HTTP_LOCK, "LOCK"); (HTTP_MKCOL, "MKCOL"); (HTTP_MOVE, "MOVE");
   (HTTP_PROPFIND, "PROPFIND"); (HTTP_PROPPATCH, "PROPPATCH"); (HTTP_SEARCH, "SEARCH"); (HTTP_UNLOCK, "UNLOCK"); (HTTP_BIND, "BIND");
   (HTTP_REBIND, "REBIND"); (HTTP_UNBIND, "UNBIND"); (HTTP_ACL, "ACL"); (HTTP_REPORT, "REPORT"); (HTTP_MKACTIVITY, "MKACTIVITY");
   (HTTP_CHECKOUT, "CHECKOUT"); (HTTP_MERGE, "MERGE"); (HTTP_MSEARCH, "M - SEARCH"); (HTTP_NOTIFY, "NOTIFY"); (HTTP_SUBSCRIBE, "SUBSCRIBE");
   (HTTP_UNSUBSCRIBE, "UNSUBSCRIBE"); (HTTP_PATCH, "PATCH"); (HTTP_PURGE, "PURGE"); (HTTP_MKCALENDAR, "MKCALENDAR"); (HTTP_LINK, "LINK");
   (HTTP_UNLINK, "UNLINK"); (HTTP_SOURCE, "SOURCE")]%string.

#[global] Instance http_method_eq : EqDecision http_method.
Proof. solve_decision. Defined.
#[global] Instance http_parser_type_eq : EqDecision http_parser_type.
Proof. solve_decision. Defined.

(** The number of a method, and [method_strings[m]]. *)
Definition method_num (m : http_method) : Z :=
  match m with
  | HTTP_DELETE => 0 | HTTP_GET => 1 | HTTP_HEAD => 2 | HTTP_POST => 3 | HTTP_PUT => 4 | HTTP_CONNECT => 5 | HTTP_OPTIONS => 6 | HTTP_TRACE => 7
  | HTTP_COPY => 8 | HTTP_LOCK => 9 | HTTP_MKCOL => 10 | HTTP_MOVE => 11 | HTTP_PROPFIND => 12 | HTTP_PROPPATCH => 13 | HTTP_SEARCH => 14
  | HTTP_UNLOCK => 15 | HTTP_BIND => 16 | HTTP_REBIND => 17 | HTTP_UNBIND => 18 | HTTP_ACL => 19 | HTTP_REPORT => 20 | HTTP_MKACTIVITY => 21
  | HTTP_CHECKOUT => 22 | HTTP_MERGE => 23 | HTTP_MSEARCH => 24 | HTTP_NOTIFY => 25 | HTTP_SUBSCRIBE => 26 | HTTP_UNSUBSCRIBE => 27
  | HTTP_PATCH => 28 | HTTP_PURGE => 29 | HTTP_MKCALENDAR => 30 | HTTP_LINK => 31 | HTTP_UNLINK => 32 | HTTP_SOURCE => 33
  end.
Definition method_string (m : http_method) : bytes := str_bytes (default ""%string (snd <$> method_strings !! Z.to_nat (method_num m))).

(** [F_*] *)
Definition F_CHUNKED : Z := 1.
Definition F_CONNECTION_KEEP_ALIVE : Z := 2.
Definition F_CONNECTION_CLOSE : Z := 4.
Definition F_CONNECTION_UPGRADE : Z := 8.
Definition F_TRAILING : Z := 16.
Definition F_UPGRADE : Z := 32.
Definition F_SKIPBODY : Z := 64.
Definition F_CONTENTLENGTH : Z := 128.

Definition HTTP_MAX_HEADER_SIZE : Z := 80 * 1024.
Definition ULLONG_MAX : Z := 2 ^ 64 - 1.

Inductive http_errno :=
  | HPE_OK
  | HPE_CB_message_begin | HPE_CB_url | HPE_CB_header_field | HPE_CB_header_value | HPE_CB_headers_complete | HPE_CB_body
  | HPE_CB_message_complete | HPE_CB_status | HPE_CB_chunk_header | HPE_CB_chunk_complete
  | HPE_INVALID_EOF_STATE | HPE_HEADER_OVERFLOW | HPE_CLOSED_CONNECTION | HPE_INVALID_VERSION | HPE_INVALID_STATUS | HPE_INVALID_METHOD
  | HPE_INVALID_URL | HPE_INVALID_HOST | HPE_INVALID_PORT | HPE_INVALID_PATH | HPE_INVALID_QUERY_STRING | HPE_INVALID_FRAGMENT
  | HPE_LF_EXPECTED | HPE_INVALID_HEADER_TOKEN | HPE_INVALID_CONTENT_LENGTH | HPE_UNEXPECTED_CONTENT_LENGTH | HPE_INVALID_CHUNK_SIZE
  | HPE_INVALID_CONSTANT | HPE_INVALID_INTERNAL_STATE | HPE_STRICT | HPE_PAUSED | HPE_UNKNOWN.

#[global] Instance http_errno_eq : EqDecision http_errno.
Proof. solve_decision. Defined.

Inductive state :=
  | s_dead | s_start_req_or_res | s_res_or_resp_H | s_start_res | s_res_H | s_res_HT | s_res_HTT | s_res_HTTP | s_res_http_major
  | s_res_http_dot | s_res_http_minor | s_res_http_end | s_res_first_status_code | s_res_status_code | s_res_status_start | s_res_status
  | s_res_line_almost_done
  | s_start_req | s_req_method | s_req_spaces_before_url | s_req_schema | s_req_schema_slash | s_req_schema_slash_slash
  | s_req_server_start | s_req_server | s_req_server_with_at | s_req_path | s_req_query_string_start | s_req_query_string
  | s_req_fragment_start | s_req_fragment | s_req_http_start | s_req_http_H | s_req_http_HT | s_req_http_HTT | s_req_http_HTTP
  | s_req_http_major | s_req_http_dot | s_req_http_minor | s_req_http_end | s_req_line_almost_done
  | s_header_field_start | s_header_field | s_header_value_discard_ws | s_header_value_discard_ws_almost_done
  | s_header_value_discard_lws | s_header_value_start | s_header_value | s_header_value_lws | s_header_almost_done
  | s_chunk_size_start | s_chunk_size | s_chunk_parameters | s_chunk_size_almost_done | s_headers_almost_done | s_headers_done
  | s_chunk_data | s_chunk_data_almost_done | s_chunk_data_done | s_body_identity | s_body_identity_eof | s_message_done.

#[global] Instance state_eq : EqDecision state.
Proof. solve_decision. Defined.

(** [state <= s_headers_done]: the states behind it in the enumeration. *)
Definition PARSING_HEADER (s : state) : bool :=
  match s with
  | s_chunk_data | s_chunk_data_almost_done | s_chunk_data_done | s_body_identity | s_body_identity_eof | s_message_done => false
  | _ => true
  end.

Inductive header_states :=
  | h_general | h_C | h_CO | h_CON
  | h_matching_connection | h_matching_proxy_connection | h_matching_content_length | h_matching_transfer_encoding | h_matching_upgrade
  | h_connection | h_content_length | h_content_length_num | h_content_length_ws | h_transfer_encoding | h_upgrade
  | h_matching_transfer_encoding_chunked | h_matching_connection_token_start | h_matching_connection_keep_alive
  | h_matching_connection_close | h_matching_connection_upgrade | h_matching_connection_token
  | h_transfer_encoding_chunked | h_connection_keep_alive | h_connection_close | h_connection_upgrade.

#[global] Instance header_states_eq : EqDecision header_states.
Proof. solve_decision. Defined.

(** The tables have 256 and 32 entries; those that the source does not write
    are 0. *)
Definition tokens_table : list Z :=
  [0; 0; 0; 0; 0; 0; 0; 0; 0; 0; 0; 0; 0; 0; 0; 0;
   0; 0; 0; 0; 0; 0; 0; 0; 0; 0; 0; 0; 0; 0; 0; 0;
   32; 33; 0; 35; 36; 37; 38; 39; 0; 0; 42; 43; 0; 45; 46; 0;
   48; 49; 50; 51; 52; 53; 54; 55; 56; 57; 0; 0; 0; 0; 0; 0;
   0; 97; 98; 99; 100; 101; 102; 103; 104; 105; 106; 107; 108; 109; 110; 111;
   112; 113; 114; 115; 116; 117; 118; 119; 120; 121; 122; 0; 0; 0; 94; 95;
   96; 97; 98; 99; 100; 101; 102; 103; 104; 105; 106; 107; 108; 109; 110; 111;
   112; 113; 114; 115; 116; 117; 118; 119; 120; 121; 122; 0; 124; 0; 126; 0].
Definition tokens (c : ascii) : ascii := char_of (default 0 (tokens_table !! Z.to_nat (uchar c))).

Definition unhex_table : list Z :=
  [-1; -1; -1; -1; -1; -1; -1; -1; -1; -1; -1; -1; -1; -1; -1; -1;
   -1; -1; -1; -1; -1; -1; -1; -1; -1; -1; -1; -1; -1; -1; -1; -1;
   -1; -1; -1; -1; -1; -1; -1; -1; -1; -1; -1; -1; -1; -1; -1; -1;
   0; 1; 2; 3; 4; 5; 6; 7; 8; 9; -1; -1; -1; -1; -1; -1;
   -1; 10; 11; 12; 13; 14; 15; -1; -1; -1; -1; -1; -1; -1; -1; -1;
   -1; -1; -1; -1; -1; -1; -1; -1; -1; -1; -1; -1; -1; -1; -1; -1;
   -1; 10; 11; 12; 13; 14; 15; -1; -1; -1; -1; -1; -1; -1; -1; -1;
   -1; -1; -1; -1; -1; -1; -1; -1; -1; -1; -1; -1; -1; -1; -1; -1].
Definition unhex (c : ascii) : Z := default 0 (unhex_table !! Z.to_nat (uchar c)).

Definition normal_url_char : list Z := [0; 0; 0; 0; 246; 255; 255; 127; 255; 255; 255; 255; 255; 255; 255; 127].
Definition BIT_AT (a : list Z) (i : Z) : bool := Z.testbit (default 0 (a !! Z.to_nat (Z.shiftr i 3))) (Z.land i 7).

(** ** Classes of characters *)

Definition CR : ascii := "013"%char.
Definition LF : ascii := "010"%char.
Definition SP : ascii := " "%char.
Definition HT : ascii := "009"%char.
Definition FF : ascii := "012"%char.
Definition LOWER (c : ascii) : ascii := char_of (Z.lor (uchar c) 32).
Definition between (a b c : ascii) : bool := (uchar a <=? uchar c) && (uchar c <=? uchar b).
Definition IS_ALPHA (c : ascii) : bool := between "a" "z" (LOWER c).
Definition IS_NUM (c : ascii) : bool := between "0" "9" c.
Definition IS_ALPHANUM (c : ascii) : bool := IS_ALPHA c || IS_NUM c.
Definition IS_HEX (c : ascii) : bool := IS_NUM c || between "a" "f" (LOWER c).
Definition one_of (s : string) (c : ascii) : bool := existsb (Ascii.eqb c) (str_bytes s).
Definition IS_MARK (c : ascii) : bool := one_of "-_.!~*'()" c.
Definition IS_USERINFO_CHAR (c : ascii) : bool := IS_ALPHANUM c || IS_MARK c || one_of "%;:&=+$," c.
Definition STRICT_TOKEN (c : ascii) : ascii := if c ≟ SP then NUL else tokens c.
Definition TOKEN (c : ascii) : ascii := STRICT_TOKEN c.
Definition IS_URL_CHAR (c : ascii) : bool := BIT_AT normal_url_char (uchar c).
Definition IS_HOST_CHAR (c : ascii) : bool := IS_ALPHANUM c || one_of ".-" c.
Definition IS_HEADER_CHAR (c : ascii) : bool := (c ≟ CR) || (c ≟ LF) || (c ≟ HT) || ((31 <? uchar c) && negb (c ≟ "127"%char)).

(** ** The parser and its callbacks *)

(** [struct http_parser]; [data] is the object that the callbacks get. *)
Record http_parser := mk_parser {
  type : http_parser_type; flags : Z; state_of : state; header_state : header_states; index : Z; lenient_http_headers : bool;
  nread_of : Z; content_length : Z;
  http_major : Z; http_minor : Z; status_code : Z; method : http_method; errno : http_errno; upgrade : bool }.

Definition set_type v p := mk_parser v (flags p) (state_of p) (header_state p) (index p) (lenient_http_headers p) (nread_of p) (content_length p) (http_major p) (http_minor p) (status_code p) (method p) (errno p) (upgrade p).
Definition set_flags v p := mk_parser (type p) v (state_of p) (header_state p) (index p) (lenient_http_headers p) (nread_of p) (content_length p) (http_major p) (http_minor p) (status_code p) (method p) (errno p) (upgrade p).
Definition set_state v p := mk_parser (type p) (flags p) v (header_state p) (index p) (lenient_http_headers p) (nread_of p) (content_length p) (http_major p) (http_minor p) (status_code p) (method p) (errno p) (upgrade p).
Definition set_header_state v p := mk_parser (type p) (flags p) (state_of p) v (index p) (lenient_http_headers p) (nread_of p) (content_length p) (http_major p) (http_minor p) (status_code p) (method p) (errno p) (upgrade p).
Definition set_index v p := mk_parser (type p) (flags p) (state_of p) (header_state p) v (lenient_http_headers p) (nread_of p) (content_length p) (http_major p) (http_minor p) (status_code p) (method p) (errno p) (upgrade p).
Definition set_nread_of v p := mk_parser (type p) (flags p) (state_of p) (header_state p) (index p) (lenient_http_headers p) v (content_length p) (http_major p) (http_minor p) (status_code p) (method p) (errno p) (upgrade p).
Definition set_content_length v p := mk_parser (type p) (flags p) (state_of p) (header_state p) (index p) (lenient_http_headers p) (nread_of p) v (http_major p) (http_minor p) (status_code p) (method p) (errno p) (upgrade p).
Definition set_http_major v p := mk_parser (type p) (flags p) (state_of p) (header_state p) (index p) (lenient_http_headers p) (nread_of p) (content_length p) v (http_minor p) (status_code p) (method p) (errno p) (upgrade p).
Definition set_http_minor v p := mk_parser (type p) (flags p) (state_of p) (header_state p) (index p) (lenient_http_headers p) (nread_of p) (content_length p) (http_major p) v (status_code p) (method p) (errno p) (upgrade p).
Definition set_status_code v p := mk_parser (type p) (flags p) (state_of p) (header_state p) (index p) (lenient_http_headers p) (nread_of p) (content_length p) (http_major p) (http_minor p) v (method p) (errno p) (upgrade p).
Definition set_method v p := mk_parser (type p) (flags p) (state_of p) (header_state p) (index p) (lenient_http_headers p) (nread_of p) (content_length p) (http_major p) (http_minor p) (status_code p) v (errno p) (upgrade p).
Definition set_errno v p := mk_parser (type p) (flags p) (state_of p) (header_state p) (index p) (lenient_http_headers p) (nread_of p) (content_length p) (http_major p) (http_minor p) (status_code p) (method p) v (upgrade p).
Definition set_upgrade v p := mk_parser (type p) (flags p) (state_of p) (header_state p) (index p) (lenient_http_headers p) (nread_of p) (content_length p) (http_major p) (http_minor p) (status_code p) (method p) (errno p) v.

(** [parser->flags & f] and [parser->flags |= f]; [parser->index++] on its 7
    bits. *)
Definition has (f : Z) (p : http_parser) : bool := negb (Z.land (flags p) f =? 0).
Definition add_flag (f : Z) (p : http_parser) : http_parser := set_flags (Z.lor (flags p) f) p.
Definition inc_index (p : http_parser) : http_parser := set_index ((index p + 1) mod 128) p.

Definition http_message_needs_eof (p : http_parser) : bool :=
  if bool_decide (type p = HTTP_REQUEST) then false
  else if (status_code p / 100 =? 1) || (status_code p =? 204) || (status_code p =? 304) || has F_SKIPBODY p then false
  else if has F_CHUNKED p || negb (content_length p =? ULLONG_MAX) then false
  else true.

Definition http_should_keep_alive (p : http_parser) : bool :=
  if (0 <? http_major p) && (0 <? http_minor p) then
    if has F_CONNECTION_CLOSE p then false else negb (http_message_needs_eof p)
  else if negb (has F_CONNECTION_KEEP_ALIVE p) then false
  else negb (http_message_needs_eof p).

Definition start_state (p : http_parser) : state := if bool_decide (type p = HTTP_REQUEST) then s_start_req else s_start_res.
Definition NEW_MESSAGE (p : http_parser) : state := if http_should_keep_alive p then start_state p else s_dead.

(** [memset] leaves every field 0. *)
Definition http_parser_init (t : http_parser_type) : http_parser :=
  mk_parser t 0 (match t with HTTP_REQUEST => s_start_req | HTTP_RESPONSE => s_start_res | HTTP_BOTH => s_start_req_or_res end)
    h_general 0 false 0 0 0 0 0 HTTP_DELETE HPE_OK false.

(** [None] is the failing assertion. *)
Definition http_parser_pause (paused : bool) (p : http_parser) : option http_parser :=
  if bool_decide (errno p = HPE_OK) || bool_decide (errno p = HPE_PAUSED)
  then Some (set_errno (if paused then HPE_PAUSED else HPE_OK) (set_nread_of (nread_of p) p))
  else None.

Definition http_body_is_final (p : http_parser) : bool := bool_decide (state_of p = s_message_done).

Definition http_method_str (m : Z) : bytes :=
  let i := u32 m in if i <? zlen method_strings then str_bytes (default ""%string (snd <$> method_strings !! Z.to_nat i)) else str_bytes "<unknown>".

(** [http_status_str]; the texts are what the preprocessor makes of the names
    in [HTTP_STATUS_MAP]. *)
Definition status_table : list (Z * string) :=
  [(100, "Continue"); (101, "Switching Protocols"); (102, "Processing"); (200, "OK"); (201, "Created"); (202, "Accepted");
   (203, "Non - Authoritative Information"); (204, "No Content"); (205, "Reset Content"); (206, "Partial Content"); (207, "Multi - Status");
   (208, "Already Reported"); (226, "IM Used"); (300, "Multiple Choices"); (301, "Moved Permanently"); (302, "Found"); (303, "See Other");
   (304, "Not Modified"); (305, "Use Proxy"); (307, "Temporary Redirect"); (308, "Permanent Redirect"); (400, "Bad Request"); (401, "Unauthorized");
   (402, "Payment Required"); (403, "Forbidden"); (404, "Not Found"); (405, "Method Not Allowed"); (406, "Not Acceptable");
   (407, "Proxy Authentication Required"); (408, "Request Timeout"); (409, "Conflict"); (410, "Gone"); (411, "Length Required");
   (412, "Precondition Failed"); (413, "Payload Too Large"); (414, "URI Too Long"); (415, "Unsupported Media Type"); (416, "Range Not Satisfiable");
   (417, "Expectation Failed"); (421, "Misdirected Request"); (422, "Unprocessable Entity"); (423, "Locked"); (424, "Failed Dependency");
   (426, "Upgrade Required"); (428, "Precondition Required"); (429, "Too Many Requests"); (431, "Request Header Fields Too Large");
   (451, "Unavailable For Legal Reasons"); (500, "Internal Server Error"); (501, "Not Implemented"); (502, "Bad Gateway");
   (503, "Service Unavailable"); (504, "Gateway Timeout"); (505, "HTTP Version Not Supported"); (506, "Variant Also Negotiates");
   (507, "Insufficient Storage"); (508, "Loop Detected"); (510, "Not Extended"); (511, "Network Authentication Required")]%string.
Definition http_status_str (code : Z) : bytes :=
  match list_find (fun r => fst r = code) status_table with Some (_, r) => str_bytes (snd r) | None => str_bytes "<unknown>" end.

(** [http_strerror_tab]. *)
Definition http_strerror_tab (err : http_errno) : string * string :=
  (match err with
  | HPE_OK => ("HPE_OK", "success")
  | HPE_CB_message_begin => ("HPE_CB_message_begin", "the on_message_begin callback failed")
  | HPE_CB_url => ("HPE_CB_url", "the on_url callback failed")
  | HPE_CB_header_field => ("HPE_CB_header_field", "the on_header_field callback failed")
  | HPE_CB_header_value => ("HPE_CB_header_value", "the on_header_value callback failed")
  | HPE_CB_headers_complete => ("HPE_CB_headers_complete", "the on_headers_complete callback failed")
  | HPE_CB_body => ("HPE_CB_body", "the on_body callback failed")
  | HPE_CB_message_complete => ("HPE_CB_message_complete", "the on_message_complete callback failed")
  | HPE_CB_status => ("HPE_CB_status", "the on_status callback failed")
  | HPE_CB_chunk_header => ("HPE_CB_chunk_header", "the on_chunk_header callback failed")
  | HPE_CB_chunk_complete => ("HPE_CB_chunk_complete", "the on_chunk_complete callback failed")
  | HPE_INVALID_EOF_STATE => ("HPE_INVALID_EOF_STATE", "stream ended at an unexpected time")
  | HPE_HEADER_OVERFLOW => ("HPE_HEADER_OVERFLOW", "too many header bytes seen; overflow detected")
  | HPE_CLOSED_CONNECTION => ("HPE_CLOSED_CONNECTION", "data received after completed connection: close message")
  | HPE_INVALID_VERSION => ("HPE_INVALID_VERSION", "invalid HTTP version")
  | HPE_INVALID_STATUS => ("HPE_INVALID_STATUS", "invalid HTTP status code")
  | HPE_INVALID_METHOD => ("HPE_INVALID_METHOD", "invalid HTTP method")
  | HPE_INVALID_URL => ("HPE_INVALID_URL", "invalid URL")
  | HPE_INVALID_HOST => ("HPE_INVALID_HOST", "invalid host")
  | HPE_INVALID_PORT => ("HPE_INVALID_PORT", "invalid port")
  | HPE_INVALID_PATH => ("HPE_INVALID_PATH", "invalid path")
  | HPE_INVALID_QUERY_STRING => ("HPE_INVALID_QUERY_STRING", "invalid query string")
  | HPE_INVALID_FRAGMENT => ("HPE_INVALID_FRAGMENT", "invalid fragment")
  | HPE_LF_EXPECTED => ("HPE_LF_EXPECTED", "LF character expected")
  | HPE_INVALID_HEADER_TOKEN => ("HPE_INVALID_HEADER_TOKEN", "invalid character in header")
  | HPE_INVALID_CONTENT_LENGTH => ("HPE_INVALID_CONTENT_LENGTH", "invalid character in content-length header")
  | HPE_UNEXPECTED_CONTENT_LENGTH => ("HPE_UNEXPECTED_CONTENT_LENGTH", "unexpected content-length header")
  | HPE_INVALID_CHUNK_SIZE => ("HPE_INVALID_CHUNK_SIZE", "invalid character in chunk size header")
  | HPE_INVALID_CONSTANT => ("HPE_INVALID_CONSTANT", "invalid constant string")
  | HPE_INVALID_INTERNAL_STATE => ("HPE_INVALID_INTERNAL_STATE", "encountered unexpected internal state")
  | HPE_STRICT => ("HPE_STRICT", "strict mode assertion failed")
  | HPE_PAUSED => ("HPE_PAUSED", "parser is paused")
  | HPE_UNKNOWN => ("HPE_UNKNOWN", "an unknown error occurred")
  end)%string.
Definition http_errno_name (err : http_errno) : bytes := str_bytes (fst (http_strerror_tab err)).
Definition http_errno_description (err : http_errno) : bytes := str_bytes (snd (http_strerror_tab err)).

Definition http_parser_version : Z := Z.lor (2 * 0x10000) (Z.lor (8 * 0x100) (1 * 0x1)).

(** ** URLs, character by character *)

Definition parse_url_char (s : state) (ch : ascii) : state :=
  let server :=
    if ch ≟ "/" then s_req_path else if ch ≟ "?" then s_req_query_string_start else if ch ≟ "@" then s_req_server_with_at
    else if IS_USERINFO_CHAR ch || (ch ≟ "[") || (ch ≟ "]") then s_req_server else s_dead in
  if (ch ≟ SP) || (ch ≟ CR) || (ch ≟ LF) then s_dead
  else if (ch ≟ HT) || (ch ≟ FF) then s_dead
  else match s with
  | s_req_spaces_before_url => if (ch ≟ "/") || (ch ≟ "*") then s_req_path else if IS_ALPHA ch then s_req_schema else s_dead
  | s_req_schema => if IS_ALPHA ch then s else if ch ≟ ":" then s_req_schema_slash else s_dead
  | s_req_schema_slash => if ch ≟ "/" then s_req_schema_slash_slash else s_dead
  | s_req_schema_slash_slash => if ch ≟ "/" then s_req_server_start else s_dead
  | s_req_server_with_at => if ch ≟ "@" then s_dead else server
  | s_req_server_start | s_req_server => server
  | s_req_path =>
      if IS_URL_CHAR ch then s else if ch ≟ "?" then s_req_query_string_start else if ch ≟ "#" then s_req_fragment_start else s_dead
  | s_req_query_string_start | s_req_query_string =>
      if IS_URL_CHAR ch then s_req_query_string else if ch ≟ "?" then s_req_query_string else if ch ≟ "#" then s_req_fragment_start else s_dead
  | s_req_fragment_start => if IS_URL_CHAR ch then s_req_fragment else if ch ≟ "?" then s_req_fragment else if ch ≟ "#" then s else s_dead
  | s_req_fragment => if IS_URL_CHAR ch then s else if (ch ≟ "?") || (ch ≟ "#") then s else s_dead
  | _ => s_dead
  end.

(** ** The loop over the buffer *)

Inductive data_kind := header_field | header_value | url | body | status.

#[global] Instance data_kind_eq : EqDecision data_kind.
Proof. solve_decision. Defined.

Section execute.
Context {U : Type}.

(** A callback returns its [int], and the parser and the object as it leaves
    them. *)
Definition http_cb : Type := http_parser -> U -> Z * http_parser * U.
Definition http_data_cb : Type := http_parser -> bytes -> U -> Z * http_parser * U.

(** A missing callback is a null pointer. *)
Record http_parser_settings := mk_settings {
  on_message_begin : option http_cb; on_url : option http_data_cb; on_status : option http_data_cb; on_header_field : option http_data_cb;
  on_header_value : option http_data_cb; on_headers_complete : option http_cb; on_body : option http_data_cb;
  on_message_complete : option http_cb; on_chunk_header : option http_cb; on_chunk_complete : option http_cb }.

Definition http_parser_settings_init : http_parser_settings := mk_settings None None None None None None None None None None.

(** The local variables of [http_parser_execute], and the object.  [p] is an
    index into the buffer. *)
Record exec := mk_exec {
  parser : http_parser; user : U; p_state : state; nread : Z; lenient : bool; p : nat; ch : ascii;
  header_field_mark : option nat; header_value_mark : option nat; url_mark : option nat; body_mark : option nat; status_mark : option nat }.

Definition set_parser v e := mk_exec v (user e) (p_state e) (nread e) (lenient e) (p e) (ch e) (header_field_mark e) (header_value_mark e) (url_mark e) (body_mark e) (status_mark e).
Definition set_user v e := mk_exec (parser e) v (p_state e) (nread e) (lenient e) (p e) (ch e) (header_field_mark e) (header_value_mark e) (url_mark e) (body_mark e) (status_mark e).
Definition UPDATE_STATE v e := mk_exec (parser e) (user e) v (nread e) (lenient e) (p e) (ch e) (header_field_mark e) (header_value_mark e) (url_mark e) (body_mark e) (status_mark e).
Definition set_nread v e := mk_exec (parser e) (user e) (p_state e) v (lenient e) (p e) (ch e) (header_field_mark e) (header_value_mark e) (url_mark e) (body_mark e) (status_mark e).
Definition set_p v e := mk_exec (parser e) (user e) (p_state e) (nread e) (lenient e) v (ch e) (header_field_mark e) (header_value_mark e) (url_mark e) (body_mark e) (status_mark e).
Definition set_ch v e := mk_exec (parser e) (user e) (p_state e) (nread e) (lenient e) (p e) v (header_field_mark e) (header_value_mark e) (url_mark e) (body_mark e) (status_mark e).
Definition mark (k : data_kind) (e : exec) : option nat :=
  match k with header_field => header_field_mark e | header_value => header_value_mark e | url => url_mark e | body => body_mark e | status => status_mark e end.
Definition set_mark (k : data_kind) (v : option nat) (e : exec) : exec :=
  let upd j m := if bool_decide (k = j) then v else m in
  mk_exec (parser e) (user e) (p_state e) (nread e) (lenient e) (p e) (ch e) (upd header_field (header_field_mark e))
    (upd header_value (header_value_mark e)) (upd url (url_mark e)) (upd body (body_mark e)) (upd status (status_mark e)).

(** Where a piece of the switch goes: [break], [goto reexecute], [RETURN(v)],
    the [return] of the callback macros (which saves neither [nread] nor the
    state), [goto error], or a failing assertion. *)
Inductive out := Break (e : exec) | Reexecute (e : exec) | Return (v : nat) (e : exec) | Leave (v : nat) (e : exec) | Error (e : exec) | Abort.

(** The statements behind a callback run when it did not return. *)
Definition andthen (o : out) (k : exec -> out) : out := match o with Break e => k e | _ => o end.
#[local] Notation "'let*' e := o 'in' k" := (andthen o (fun e => k)) (at level 10, e name, k at level 200).

Context (settings : http_parser_settings) (data : bytes).

Definition on_parser (f : http_parser -> http_parser) (e : exec) : exec := set_parser (f (parser e)) e.
Definition SET_ERRNO (er : http_errno) (e : exec) : exec := on_parser (fun q => set_errno er (set_nread_of (nread e) q)) e.
Definition errno_ok (e : exec) : bool := bool_decide (errno (parser e) = HPE_OK).
Definition fail (er : http_errno) (e : exec) : out := Error (SET_ERRNO er e).
Definition go (s : state) (e : exec) : out := Break (UPDATE_STATE s e).
Definition again (s : state) (e : exec) : out := Reexecute (UPDATE_STATE s e).
Definition STRICT_CHECK (cond : bool) (e : exec) : out := if cond then fail HPE_STRICT e else Break e.
Definition assert_ (cond : bool) (e : exec) : out := if cond then Break e else Abort.

(** What a callback that has run leaves behind. *)
Definition after_callback (r : Z * http_parser * U) (cb_err : http_errno) (e : exec) : exec :=
  let e := set_user (snd r) (set_parser (snd (fst r)) e) in
  let e := if fst (fst r) =? 0 then e else SET_ERRNO cb_err e in
  UPDATE_STATE (state_of (parser e)) e.

Definition CALLBACK_NOTIFY_ (cb : option http_cb) (cb_err : http_errno) (er : nat) (e : exec) : out :=
  let* e := assert_ (errno_ok e) e in
  match cb with
  | None => Break e
  | Some f =>
      let e := on_parser (set_state (p_state e)) e in
      let e := after_callback (f (parser e) (user e)) cb_err e in
      if errno_ok e then Break e else Leave er e
  end.
Definition CALLBACK_NOTIFY (cb : option http_cb) (cb_err : http_errno) (e : exec) : out := CALLBACK_NOTIFY_ cb cb_err (p e + 1) e.
Definition CALLBACK_NOTIFY_NOADVANCE (cb : option http_cb) (cb_err : http_errno) (e : exec) : out := CALLBACK_NOTIFY_ cb cb_err (p e) e.

Definition data_cb (k : data_kind) : option http_data_cb :=
  match k with header_field => on_header_field settings | header_value => on_header_value settings | url => on_url settings
  | body => on_body settings | status => on_status settings end.
Definition data_err (k : data_kind) : http_errno :=
  match k with header_field => HPE_CB_header_field | header_value => HPE_CB_header_value | url => HPE_CB_url | body => HPE_CB_body | status => HPE_CB_status end.

(** The callback gets [n] bytes from the mark on, [n] as a function of the
    mark; they have to be bytes of the buffer. *)
Definition CALLBACK_DATA_ (k : data_kind) (n : nat -> nat) (er : nat) (e : exec) : out :=
  let* e := assert_ (errno_ok e) e in
  match mark k e with
  | None => Break e
  | Some m =>
      if negb ((m <=? p e) && (m + n m <=? length data))%nat then Abort else
      let* e := match data_cb k with
                | None => Break e
                | Some f =>
                    let e := on_parser (set_state (p_state e)) e in
                    let e := after_callback (f (parser e) (take (n m) (drop m data)) (user e)) (data_err k) e in
                    if errno_ok e then Break e else Leave er e
                end in
      Break (set_mark k None e)
  end.
Definition CALLBACK_DATA (k : data_kind) (e : exec) : out := CALLBACK_DATA_ k (fun m => p e - m)%nat (p e + 1) e.
Definition CALLBACK_DATA_NOADVANCE (k : data_kind) (e : exec) : out := CALLBACK_DATA_ k (fun m => p e - m)%nat (p e) e.

Definition MARK (k : data_kind) (e : exec) : exec := match mark k e with None => set_mark k (Some (p e)) e | Some _ => e end.

Definition COUNT_HEADER_SIZE (v : nat) (e : exec) : out :=
  let e := set_nread (u32 (nread e + Z.of_nat v)) e in
  if HTTP_MAX_HEADER_SIZE <? nread e then fail HPE_HEADER_OVERFLOW e else Break e.

(** *** Before a message *)

Definition case_dead (e : exec) : out := if (ch e ≟ CR) || (ch e ≟ LF) then Break e else fail HPE_CLOSED_CONNECTION e.

Definition begin_message (e : exec) : exec := on_parser (fun q => set_content_length ULLONG_MAX (set_flags 0 q)) e.

Definition case_start_req_or_res (e : exec) : out :=
  if (ch e ≟ CR) || (ch e ≟ LF) then Break e
  else
    let e := begin_message e in
    if ch e ≟ "H" then CALLBACK_NOTIFY (on_message_begin settings) HPE_CB_message_begin (UPDATE_STATE s_res_or_resp_H e)
    else again s_start_req (on_parser (set_type HTTP_REQUEST) e).

Definition case_res_or_resp_H (e : exec) : out :=
  if ch e ≟ "T" then go s_res_HT (on_parser (set_type HTTP_RESPONSE) e)
  else if negb (ch e ≟ "E") then fail HPE_INVALID_CONSTANT e
  else go s_req_method (on_parser (fun q => set_index 2 (set_method HTTP_HEAD (set_type HTTP_REQUEST q))) e).

(** *** The status line of a response *)

Definition case_start_res (e : exec) : out :=
  let e := begin_message e in
  if ch e ≟ "H" then CALLBACK_NOTIFY (on_message_begin settings) HPE_CB_message_begin (UPDATE_STATE s_res_H e)
  else if (ch e ≟ CR) || (ch e ≟ LF) then CALLBACK_NOTIFY (on_message_begin settings) HPE_CB_message_begin e
  else fail HPE_INVALID_CONSTANT e.

(** [STRICT_CHECK(ch != c); UPDATE_STATE(s)] *)
Definition expect (c : ascii) (s : state) (e : exec) : out := let* e := STRICT_CHECK (negb (ch e ≟ c)) e in go s e.

Definition case_http_major (s : state) (e : exec) : out :=
  if negb (IS_NUM (ch e)) then fail HPE_INVALID_VERSION e else go s (on_parser (set_http_major (uchar (ch e) - 48)) e).
Definition case_http_dot (s : state) (e : exec) : out := if negb (ch e ≟ ".") then fail HPE_INVALID_VERSION e else go s e.
Definition case_http_minor (s : state) (e : exec) : out :=
  if negb (IS_NUM (ch e)) then fail HPE_INVALID_VERSION e else go s (on_parser (set_http_minor (uchar (ch e) - 48)) e).
Definition case_res_http_end (e : exec) : out := if negb (ch e ≟ SP) then fail HPE_INVALID_VERSION e else go s_res_first_status_code e.

Definition case_res_first_status_code (e : exec) : out :=
  if negb (IS_NUM (ch e)) then if ch e ≟ SP then Break e else fail HPE_INVALID_STATUS e
  else go s_res_status_code (on_parser (set_status_code (uchar (ch e) - 48)) e).

Definition case_res_status_code (e : exec) : out :=
  if negb (IS_NUM (ch e)) then
    if ch e ≟ SP then go s_res_status_start e
    else if (ch e ≟ CR) || (ch e ≟ LF) then again s_res_status_start e
    else fail HPE_INVALID_STATUS e
  else
    let e := on_parser (fun q => set_status_code ((status_code q * 10) mod 2 ^ 16) q) e in
    let e := on_parser (fun q => set_status_code ((status_code q + (uchar (ch e) - 48)) mod 2 ^ 16) q) e in
    if 999 <? status_code (parser e) then fail HPE_INVALID_STATUS e else Break e.

Definition case_res_status_start (e : exec) : out :=
  let e := on_parser (set_index 0) (UPDATE_STATE s_res_status (MARK status e)) in
  if (ch e ≟ CR) || (ch e ≟ LF) then Reexecute e else Break e.

Definition case_res_status (e : exec) : out :=
  if ch e ≟ CR then CALLBACK_DATA status (UPDATE_STATE s_res_line_almost_done e)
  else if ch e ≟ LF then CALLBACK_DATA status (UPDATE_STATE s_header_field_start e)
  else Break e.

(** *** The request line *)

(** The method that a first letter stands for until the next letters say
    otherwise. *)
Definition first_method (c : ascii) : option http_method :=
  match c with
  | "A"%char => Some HTTP_ACL | "B"%char => Some HTTP_BIND | "C"%char => Some HTTP_CONNECT | "D"%char => Some HTTP_DELETE
  | "G"%char => Some HTTP_GET | "H"%char => Some HTTP_HEAD | "L"%char => Some HTTP_LOCK | "M"%char => Some HTTP_MKCOL
  | "N"%char => Some HTTP_NOTIFY | "O"%char => Some HTTP_OPTIONS | "P"%char => Some HTTP_POST | "R"%char => Some HTTP_REPORT
  | "S"%char => Some HTTP_SUBSCRIBE | "T"%char => Some HTTP_TRACE | "U"%char => Some HTTP_UNLOCK
  | _ => None
  end.

Definition case_start_req (e : exec) : out :=
  if (ch e ≟ CR) || (ch e ≟ LF) then Break e
  else
    let e := begin_message e in
    if negb (IS_ALPHA (ch e)) then fail HPE_INVALID_METHOD e
    else
      let e := on_parser (fun q => set_index 1 (set_method HTTP_DELETE q)) e in
      match first_method (ch e) with
      | None => fail HPE_INVALID_METHOD e
      | Some m => CALLBACK_NOTIFY (on_message_begin settings) HPE_CB_message_begin (UPDATE_STATE s_req_method (on_parser (set_method m) e))
      end.

(** The switch on method, index and letter: [XX(meth, pos, ch, new_meth)]. *)
Definition XX : list (http_method * Z * ascii * http_method) :=
  [(HTTP_POST, 1, "U"%char, HTTP_PUT); (HTTP_POST, 1, "A"%char, HTTP_PATCH); (HTTP_POST, 1, "R"%char, HTTP_PROPFIND);
   (HTTP_PUT, 2, "R"%char, HTTP_PURGE); (HTTP_CONNECT, 1, "H"%char, HTTP_CHECKOUT); (HTTP_CONNECT, 2, "P"%char, HTTP_COPY);
   (HTTP_MKCOL, 1, "O"%char, HTTP_MOVE); (HTTP_MKCOL, 1, "E"%char, HTTP_MERGE); (HTTP_MKCOL, 1, "-"%char, HTTP_MSEARCH);
   (HTTP_MKCOL, 2, "A"%char, HTTP_MKACTIVITY); (HTTP_MKCOL, 3, "A"%char, HTTP_MKCALENDAR); (HTTP_SUBSCRIBE, 1, "E"%char, HTTP_SEARCH);
   (HTTP_SUBSCRIBE, 1, "O"%char, HTTP_SOURCE); (HTTP_REPORT, 2, "B"%char, HTTP_REBIND); (HTTP_PROPFIND, 4, "P"%char, HTTP_PROPPATCH);
   (HTTP_LOCK, 1, "I"%char, HTTP_LINK); (HTTP_UNLOCK, 2, "S"%char, HTTP_UNSUBSCRIBE); (HTTP_UNLOCK, 2, "B"%char, HTTP_UNBIND);
   (HTTP_UNLOCK, 3, "I"%char, HTTP_UNLINK)].
Definition other_method (m : http_method) (i : Z) (c : ascii) : option http_method :=
  (fun r => snd (snd r)) <$> list_find (fun x => fst x = (m, i, c)) XX.

(** [s[i]] of a C string: its terminator is the last character that may be
    read. *)
Definition c_at (s : bytes) (i : Z) : option ascii := (s ++ [NUL]) !! Z.to_nat i.

Definition case_req_method (e : exec) : out :=
  if ch e ≟ NUL then fail HPE_INVALID_METHOD e
  else match c_at (method_string (method (parser e))) (index (parser e)) with
  | None => Abort
  | Some c =>
      let* e := (if (ch e ≟ SP) && (c ≟ NUL) then go s_req_spaces_before_url e
                 else if ch e ≟ c then Break e
                 else if between "A" "Z" (ch e) || (ch e ≟ "-") then
                   match other_method (method (parser e)) (index (parser e)) (ch e) with
                   | Some m => Break (on_parser (set_method m) e)
                   | None => fail HPE_INVALID_METHOD e
                   end
                 else fail HPE_INVALID_METHOD e) in
      Break (on_parser inc_index e)
  end.

(** [UPDATE_STATE(parse_url_char(...))] and the check that follows it. *)
Definition url_char (e : exec) : out :=
  let e := UPDATE_STATE (parse_url_char (p_state e) (ch e)) e in
  if bool_decide (p_state e = s_dead) then fail HPE_INVALID_URL e else Break e.

Definition case_req_spaces_before_url (e : exec) : out :=
  if ch e ≟ SP then Break e
  else
    let e := MARK url e in
    let e := if bool_decide (method (parser e) = HTTP_CONNECT) then UPDATE_STATE s_req_server_start e else e in
    url_char e.

Definition case_req_schema (e : exec) : out :=
  if (ch e ≟ SP) || (ch e ≟ CR) || (ch e ≟ LF) then fail HPE_INVALID_URL e else url_char e.

Definition case_req_url (e : exec) : out :=
  if ch e ≟ SP then CALLBACK_DATA url (UPDATE_STATE s_req_http_start e)
  else if (ch e ≟ CR) || (ch e ≟ LF) then
    let e := on_parser (fun q => set_http_minor 9 (set_http_major 0 q)) e in
    CALLBACK_DATA url (UPDATE_STATE (if ch e ≟ CR then s_req_line_almost_done else s_header_field_start) e)
  else url_char e.

Definition case_req_http_start (e : exec) : out :=
  if ch e ≟ "H" then go s_req_http_H e else if ch e ≟ SP then Break e else fail HPE_INVALID_CONSTANT e.

Definition case_req_http_end (e : exec) : out :=
  if ch e ≟ CR then go s_req_line_almost_done e else if ch e ≟ LF then go s_header_field_start e else fail HPE_INVALID_VERSION e.

Definition case_req_line_almost_done (e : exec) : out :=
  if negb (ch e ≟ LF) then fail HPE_LF_EXPECTED e else go s_header_field_start e.

(** *** The name of a header *)

Definition case_header_field_start (e : exec) : out :=
  if ch e ≟ CR then go s_headers_almost_done e
  else if ch e ≟ LF then again s_headers_almost_done e
  else
    let c := TOKEN (ch e) in
    if c ≟ NUL then fail HPE_INVALID_HEADER_TOKEN e
    else
      let e := UPDATE_STATE s_header_field (on_parser (set_index 0) (MARK header_field e)) in
      Break (on_parser (set_header_state (match c with
        | "c"%char => h_C | "p"%char => h_matching_proxy_connection | "t"%char => h_matching_transfer_encoding
        | "u"%char => h_matching_upgrade | _ => h_general end)) e).

Definition PROXY_CONNECTION : bytes := str_bytes "proxy-connection".
Definition CONNECTION : bytes := str_bytes "connection".
Definition CONTENT_LENGTH : bytes := str_bytes "content-length".
Definition TRANSFER_ENCODING : bytes := str_bytes "transfer-encoding".
Definition UPGRADE : bytes := str_bytes "upgrade".
Definition CHUNKED : bytes := str_bytes "chunked".
Definition KEEP_ALIVE : bytes := str_bytes "keep-alive".
Definition CLOSE : bytes := str_bytes "close".

(** One letter of a known word: [parser->index++], then the state after it.
    [sizeof] counts the terminator. *)
Definition match_word (word : bytes) (c : ascii) (i : Z) (other matched here : header_states) : header_states :=
  if (zlen word <? i) || negb (bool_decide (c_at word i = Some c)) then other
  else if i =? zlen word - 1 then matched else here.

(** [while (p+1 < data + limit && TOKEN(p[1])) p++], [limit] being counted
    from the start of the buffer. *)
Fixpoint skip_tokens (fuel : nat) (limit : nat) (p : nat) : option nat :=
  match fuel with
  | O => None
  | S fuel =>
      if (p + 1 <? limit)%nat then
        match data !! (p + 1)%nat with
        | None => None
        | Some c => if TOKEN c ≟ NUL then Some p else skip_tokens fuel limit (p + 1)
        end
      else Some p
  end.

(** [MIN(data + len - p, HTTP_MAX_HEADER_SIZE)] *)
Definition limit_of (p : nat) : nat := Z.to_nat (Z.min (zlen data - Z.of_nat p) HTTP_MAX_HEADER_SIZE).

(** The switch on [header_state] for a letter [c] of a name. *)
Definition header_field_char (c : ascii) (e : exec) : out :=
  let word w done :=
    let e := on_parser inc_index e in
    Break (on_parser (fun q => set_header_state (match_word w c (index q) h_general done (header_state q)) q) e) in
  match header_state (parser e) with
  | h_general => match skip_tokens (S (length data)) (limit_of (p e)) (p e) with Some p' => Break (set_p p' e) | None => Abort end
  | h_C => Break (on_parser (fun q => set_header_state (if c ≟ "o" then h_CO else h_general) (inc_index q)) e)
  | h_CO => Break (on_parser (fun q => set_header_state (if c ≟ "n" then h_CON else h_general) (inc_index q)) e)
  | h_CON => Break (on_parser (fun q => set_header_state
               (if c ≟ "n" then h_matching_connection else if c ≟ "t" then h_matching_content_length else h_general) (inc_index q)) e)
  | h_matching_connection => word CONNECTION h_connection
  | h_matching_proxy_connection => word PROXY_CONNECTION h_connection
  | h_matching_content_length => word CONTENT_LENGTH h_content_length
  | h_matching_transfer_encoding => word TRANSFER_ENCODING h_transfer_encoding
  | h_matching_upgrade => word UPGRADE h_upgrade
  | h_connection | h_content_length | h_transfer_encoding | h_upgrade =>
      Break (if negb (ch e ≟ SP) then on_parser (set_header_state h_general) e else e)
  | _ => Abort
  end.

(** [for (; p != data + len; p++)] *)
Fixpoint header_field_loop (fuel : nat) (e : exec) : out :=
  match fuel with
  | O => Abort
  | S fuel =>
      if (p e =? length data)%nat then Break e
      else match data !! p e with
      | None => Abort
      | Some x =>
          let e := set_ch x e in
          let c := TOKEN (ch e) in
          if c ≟ NUL then Break e
          else let* e := header_field_char c e in header_field_loop fuel (set_p (p e + 1) e)
      end
  end.

Definition case_header_field (e : exec) : out :=
  let start := p e in
  let* e := header_field_loop (S (length data)) e in
  if (p e =? length data)%nat then
    let e := set_p (p e - 1) e in COUNT_HEADER_SIZE (p e - start) e
  else
    let* e := COUNT_HEADER_SIZE (p e - start) e in
    if ch e ≟ ":" then CALLBACK_DATA header_field (UPDATE_STATE s_header_value_discard_ws e)
    else fail HPE_INVALID_HEADER_TOKEN e.

(** *** The value of a header *)

Definition case_header_value_start (e : exec) : out :=
  let e := on_parser (set_index 0) (UPDATE_STATE s_header_value (MARK header_value e)) in
  let c := LOWER (ch e) in
  let to h := on_parser (set_header_state h) e in
  match header_state (parser e) with
  | h_upgrade => Break (on_parser (fun q => set_header_state h_general (add_flag F_UPGRADE q)) e)
  | h_transfer_encoding => Break (to (if c ≟ "c" then h_matching_transfer_encoding_chunked else h_general))
  | h_content_length =>
      if negb (IS_NUM (ch e)) then fail HPE_INVALID_CONTENT_LENGTH e
      else if has F_CONTENTLENGTH (parser e) then fail HPE_UNEXPECTED_CONTENT_LENGTH e
      else Break (on_parser (fun q => set_header_state h_content_length_num (set_content_length (uchar (ch e) - 48) (add_flag F_CONTENTLENGTH q))) e)
  | h_connection => Break (to (if c ≟ "k" then h_matching_connection_keep_alive else if c ≟ "c" then h_matching_connection_close
                               else if c ≟ "u" then h_matching_connection_upgrade else h_matching_connection_token))
  | h_matching_connection_token_start => Break e
  | _ => Break (to h_general)
  end.

Definition case_header_value_discard_ws (e : exec) : out :=
  if (ch e ≟ SP) || (ch e ≟ HT) then Break e
  else if ch e ≟ CR then go s_header_value_discard_ws_almost_done e
  else if ch e ≟ LF then go s_header_value_discard_lws e
  else case_header_value_start e.

(** [memchr(p, c, n)], as an index into the buffer. *)
Definition memchr (c : ascii) (p n : nat) : option nat := (fun r => p + fst r)%nat <$> list_find (eq c) (take n (drop p data)).

(** Where a value without a meaning ends: at the next [CR] or [LF]. *)
Definition value_end (p : nat) : nat :=
  let limit := limit_of p in
  match memchr CR p limit, memchr LF p limit with
  | Some cr, Some lf => if (lf <=? cr)%nat then lf else cr
  | Some cr, None => cr
  | None, Some lf => lf
  | None, None => length data
  end.

(** The switch on [h_state] for a character of a value. *)
Definition header_value_char (h : header_states) (e : exec) (k : header_states -> exec -> out) : out :=
  let c := LOWER (ch e) in
  let bad := Error (on_parser (set_header_state h) (SET_ERRNO HPE_INVALID_CONTENT_LENGTH e)) in
  let word w other done := let e := on_parser inc_index e in k (match_word w c (index (parser e)) other done h) e in
  let number :=
    if ch e ≟ SP then k h_content_length_ws e
    else if negb (IS_NUM (ch e)) then Error (on_parser (set_header_state h_content_length_num) (SET_ERRNO HPE_INVALID_CONTENT_LENGTH e))
    else
      let n := content_length (parser e) in
      let t := u64 (u64 (n * 10) + (uchar (ch e) - 48)) in
      if (ULLONG_MAX - 10) / 10 <? n then Error (on_parser (set_header_state h_content_length_num) (SET_ERRNO HPE_INVALID_CONTENT_LENGTH e))
      else k h_content_length_num (on_parser (set_content_length t) e) in
  let comma f :=
    if ch e ≟ "," then k h_matching_connection_token_start (on_parser (fun q => set_index 0 (add_flag f q)) e)
    else if negb (ch e ≟ SP) then k h_matching_connection_token e else k h e in
  match h with
  | h_general => k h (set_p (value_end (p e) - 1) e)
  | h_connection | h_transfer_encoding => Abort
  | h_content_length => if ch e ≟ SP then k h e else number
  | h_content_length_num => number
  | h_content_length_ws => if ch e ≟ SP then k h e else bad
  | h_matching_transfer_encoding_chunked => word CHUNKED h_general h_transfer_encoding_chunked
  | h_matching_connection_token_start =>
      if c ≟ "k" then k h_matching_connection_keep_alive e else if c ≟ "c" then k h_matching_connection_close e
      else if c ≟ "u" then k h_matching_connection_upgrade e else if negb (STRICT_TOKEN c ≟ NUL) then k h_matching_connection_token e
      else if (c ≟ SP) || (c ≟ HT) then k h e else k h_general e
  | h_matching_connection_keep_alive => word KEEP_ALIVE h_matching_connection_token h_connection_keep_alive
  | h_matching_connection_close => word CLOSE h_matching_connection_token h_connection_close
  | h_matching_connection_upgrade => word UPGRADE h_matching_connection_token h_connection_upgrade
  | h_matching_connection_token => if ch e ≟ "," then k h_matching_connection_token_start (on_parser (set_index 0) e) else k h e
  | h_transfer_encoding_chunked => k (if negb (ch e ≟ SP) then h_general else h) e
  | h_connection_keep_alive => comma F_CONNECTION_KEEP_ALIVE
  | h_connection_close => comma F_CONNECTION_CLOSE
  | h_connection_upgrade => comma F_CONNECTION_UPGRADE
  | _ => k h_general (UPDATE_STATE s_header_value e)
  end.

(** Behind the loop. *)
Definition header_value_end (start : nat) (h : header_states) (e : exec) : out :=
  let e := on_parser (set_header_state h) e in
  let e := if (p e =? length data)%nat then set_p (p e - 1) e else e in
  COUNT_HEADER_SIZE (p e - start) e.

Fixpoint header_value_loop (fuel : nat) (start : nat) (h : header_states) (e : exec) : out :=
  match fuel with
  | O => Abort
  | S fuel =>
      if (p e =? length data)%nat then header_value_end start h e
      else match data !! p e with
      | None => Abort
      | Some x =>
          let e := set_ch x e in
          if ch e ≟ CR then
            let e := on_parser (set_header_state h) (UPDATE_STATE s_header_almost_done e) in
            let* e := CALLBACK_DATA header_value e in header_value_end start h e
          else if ch e ≟ LF then
            let e := UPDATE_STATE s_header_almost_done e in
            let* e := COUNT_HEADER_SIZE (p e - start) e in
            let* e := CALLBACK_DATA_NOADVANCE header_value (on_parser (set_header_state h) e) in Reexecute e
          else if negb (lenient e) && negb (IS_HEADER_CHAR (ch e)) then fail HPE_INVALID_HEADER_TOKEN e
          else header_value_char h e (fun h e => header_value_loop fuel start h (set_p (p e + 1) e))
      end
  end.

Definition case_header_value (e : exec) : out := header_value_loop (S (length data)) (p e) (header_state (parser e)) e.

Definition case_header_almost_done (e : exec) : out := if negb (ch e ≟ LF) then fail HPE_LF_EXPECTED e else go s_header_value_lws e.

(** The flag that a finished value sets. *)
Definition value_flag (q : http_parser) : http_parser :=
  match header_state q with
  | h_connection_keep_alive => add_flag F_CONNECTION_KEEP_ALIVE q
  | h_connection_close => add_flag F_CONNECTION_CLOSE q
  | h_transfer_encoding_chunked => add_flag F_CHUNKED q
  | h_connection_upgrade => add_flag F_CONNECTION_UPGRADE q
  | _ => q
  end.

Definition case_header_value_lws (e : exec) : out :=
  if (ch e ≟ SP) || (ch e ≟ HT) then again s_header_value_start e else again s_header_field_start (on_parser value_flag e).

Definition case_header_value_discard_lws (e : exec) : out :=
  if (ch e ≟ SP) || (ch e ≟ HT) then go s_header_value_discard_ws e
  else
    let e := UPDATE_STATE s_header_field_start (MARK header_value (on_parser value_flag e)) in
    let* e := CALLBACK_DATA_NOADVANCE header_value e in Reexecute e.

(** *** The end of the headers *)

Definition case_headers_almost_done (e : exec) : out :=
  let* e := STRICT_CHECK (negb (ch e ≟ LF)) e in
  if has F_TRAILING (parser e) then
    let* e := CALLBACK_NOTIFY_NOADVANCE (on_chunk_complete settings) HPE_CB_chunk_complete (UPDATE_STATE s_message_done e) in Reexecute e
  else if has F_CHUNKED (parser e) && has F_CONTENTLENGTH (parser e) then fail HPE_UNEXPECTED_CONTENT_LENGTH e
  else
    let e := UPDATE_STATE s_headers_done e in
    let e := on_parser (fun q => set_upgrade
               (if has F_UPGRADE q && has F_CONNECTION_UPGRADE q then bool_decide (type q = HTTP_REQUEST) || (status_code q =? 101)
                else bool_decide (method q = HTTP_CONNECT)) q) e in
    let* e := match on_headers_complete settings with
              | None => Break e
              | Some f =>
                  let r := f (parser e) (user e) in
                  let e := set_user (snd r) (set_parser (snd (fst r)) e) in
                  let v := fst (fst r) in
                  if v =? 0 then Break e
                  else if v =? 2 then Break (on_parser (fun q => add_flag F_SKIPBODY (set_upgrade true q)) e)
                  else if v =? 1 then Break (on_parser (add_flag F_SKIPBODY) e)
                  else Return (p e) (SET_ERRNO HPE_CB_headers_complete e)
              end in
    if negb (errno_ok e) then Return (p e) e else Reexecute e.

(** [UPDATE_STATE(NEW_MESSAGE()); CALLBACK_NOTIFY(message_complete)] *)
Definition message_complete (e : exec) : out :=
  CALLBACK_NOTIFY (on_message_complete settings) HPE_CB_message_complete (UPDATE_STATE (NEW_MESSAGE (parser e)) e).

Definition case_headers_done (e : exec) : out :=
  let* e := STRICT_CHECK (negb (ch e ≟ LF)) e in
  let e := set_nread 0 (on_parser (set_nread_of 0) e) in
  let q := parser e in
  let hasBody := has F_CHUNKED q || ((0 <? content_length q) && negb (content_length q =? ULLONG_MAX)) in
  if upgrade q && (bool_decide (method q = HTTP_CONNECT) || has F_SKIPBODY q || negb hasBody) then
    let* e := message_complete e in Return (p e + 1) e
  else if has F_SKIPBODY q then message_complete e
  else if has F_CHUNKED q then go s_chunk_size_start e
  else if content_length q =? 0 then message_complete e
  else if negb (content_length q =? ULLONG_MAX) then go s_body_identity e
  else if negb (http_message_needs_eof q) then message_complete e
  else go s_body_identity_eof e.

(** *** The body *)

(** [MIN(parser->content_length, (data + len) - p)] *)
Definition to_read (e : exec) : Z := Z.min (content_length (parser e)) (zlen data - Z.of_nat (p e)).

(** [parser->content_length -= to_read; p += to_read - 1] *)
Definition take_body (e : exec) : exec :=
  let n := to_read e in
  set_p (Z.to_nat (Z.of_nat (p e) + n - 1)) (on_parser (fun q => set_content_length (u64 (content_length q - n)) q) (MARK body e)).

Definition length_known (e : exec) : bool := negb (content_length (parser e) =? 0) && negb (content_length (parser e) =? ULLONG_MAX).

Definition case_body_identity (e : exec) : out :=
  let* e := assert_ (length_known e) e in
  let e := take_body e in
  if content_length (parser e) =? 0 then
    let e := UPDATE_STATE s_message_done e in
    let* e := CALLBACK_DATA_ body (fun m => p e - m + 1)%nat (p e) e in Reexecute e
  else Break e.

Definition case_body_identity_eof (e : exec) : out := Break (set_p (length data - 1) (MARK body e)).

Definition case_message_done (e : exec) : out :=
  let* e := message_complete e in if upgrade (parser e) then Return (p e + 1) e else Break e.

Definition assert_chunked (e : exec) : out := assert_ (has F_CHUNKED (parser e)) e.

Definition case_chunk_size_start (e : exec) : out :=
  let* e := assert_ (nread e =? 1) e in
  let* e := assert_chunked e in
  let unhex_val := unhex (ch e) in
  if unhex_val =? -1 then fail HPE_INVALID_CHUNK_SIZE e else go s_chunk_size (on_parser (set_content_length (u64 unhex_val)) e).

Definition case_chunk_size (e : exec) : out :=
  let* e := assert_chunked e in
  if ch e ≟ CR then go s_chunk_size_almost_done e
  else
    let unhex_val := unhex (ch e) in
    if unhex_val =? -1 then if (ch e ≟ ";") || (ch e ≟ SP) then go s_chunk_parameters e else fail HPE_INVALID_CHUNK_SIZE e
    else
      let n := content_length (parser e) in
      let t := u64 (u64 (n * 16) + unhex_val) in
      if (ULLONG_MAX - 16) / 16 <? n then fail HPE_INVALID_CONTENT_LENGTH e
      else Break (on_parser (set_content_length t) e).

Definition case_chunk_parameters (e : exec) : out :=
  let* e := assert_chunked e in if ch e ≟ CR then go s_chunk_size_almost_done e else Break e.

Definition case_chunk_size_almost_done (e : exec) : out :=
  let* e := assert_chunked e in
  let* e := STRICT_CHECK (negb (ch e ≟ LF)) e in
  let e := set_nread 0 (on_parser (set_nread_of 0) e) in
  let e := if content_length (parser e) =? 0 then UPDATE_STATE s_header_field_start (on_parser (add_flag F_TRAILING) e)
           else UPDATE_STATE s_chunk_data e in
  CALLBACK_NOTIFY (on_chunk_header settings) HPE_CB_chunk_header e.

Definition case_chunk_data (e : exec) : out :=
  let* e := assert_chunked e in
  let* e := assert_ (length_known e) e in
  let e := take_body e in
  if content_length (parser e) =? 0 then go s_chunk_data_almost_done e else Break e.

Definition case_chunk_data_almost_done (e : exec) : out :=
  let* e := assert_chunked e in
  let* e := assert_ (content_length (parser e) =? 0) e in
  let* e := STRICT_CHECK (negb (ch e ≟ CR)) e in
  CALLBACK_DATA body (UPDATE_STATE s_chunk_data_done e).

Definition case_chunk_data_done (e : exec) : out :=
  let* e := assert_chunked e in
  let* e := STRICT_CHECK (negb (ch e ≟ LF)) e in
  let e := set_nread 0 (on_parser (set_nread_of 0) e) in
  CALLBACK_NOTIFY (on_chunk_complete settings) HPE_CB_chunk_complete (UPDATE_STATE s_chunk_size_start e).

(** *** The function *)

Definition switch (e : exec) : out :=
  match p_state e with
  | s_dead => case_dead e
  | s_start_req_or_res => case_start_req_or_res e
  | s_res_or_resp_H => case_res_or_resp_H e
  | s_start_res => case_start_res e
  | s_res_H => expect "T" s_res_HT e
  | s_res_HT => expect "T" s_res_HTT e
  | s_res_HTT => expect "P" s_res_HTTP e
  | s_res_HTTP => expect "/" s_res_http_major e
  | s_res_http_major => case_http_major s_res_http_dot e
  | s_res_http_dot => case_http_dot s_res_http_minor e
  | s_res_http_minor => case_http_minor s_res_http_end e
  | s_res_http_end => case_res_http_end e
  | s_res_first_status_code => case_res_first_status_code e
  | s_res_status_code => case_res_status_code e
  | s_res_status_start => case_res_status_start e
  | s_res_status => case_res_status e
  | s_res_line_almost_done => expect LF s_header_field_start e
  | s_start_req => case_start_req e
  | s_req_method => case_req_method e
  | s_req_spaces_before_url => case_req_spaces_before_url e
  | s_req_schema | s_req_schema_slash | s_req_schema_slash_slash | s_req_server_start => case_req_schema e
  | s_req_server | s_req_server_with_at | s_req_path | s_req_query_string_start | s_req_query_string
  | s_req_fragment_start | s_req_fragment => case_req_url e
  | s_req_http_start => case_req_http_start e
  | s_req_http_H => expect "T" s_req_http_HT e
  | s_req_http_HT => expect "T" s_req_http_HTT e
  | s_req_http_HTT => expect "P" s_req_http_HTTP e
  | s_req_http_HTTP => expect "/" s_req_http_major e
  | s_req_http_major => case_http_major s_req_http_dot e
  | s_req_http_dot => case_http_dot s_req_http_minor e
  | s_req_http_minor => case_http_minor s_req_http_end e
  | s_req_http_end => case_req_http_end e
  | s_req_line_almost_done => case_req_line_almost_done e
  | s_header_field_start => case_header_field_start e
  | s_header_field => case_header_field e
  | s_header_value_discard_ws => case_header_value_discard_ws e
  | s_header_value_discard_ws_almost_done => expect LF s_header_value_discard_lws e
  | s_header_value_discard_lws => case_header_value_discard_lws e
  | s_header_value_start => case_header_value_start e
  | s_header_value => case_header_value e
  | s_header_value_lws => case_header_value_lws e
  | s_header_almost_done => case_header_almost_done e
  | s_chunk_size_start => case_chunk_size_start e
  | s_chunk_size => case_chunk_size e
  | s_chunk_parameters => case_chunk_parameters e
  | s_chunk_size_almost_done => case_chunk_size_almost_done e
  | s_headers_almost_done => case_headers_almost_done e
  | s_headers_done => case_headers_done e
  | s_chunk_data => case_chunk_data e
  | s_chunk_data_almost_done => case_chunk_data_almost_done e
  | s_chunk_data_done => case_chunk_data_done e
  | s_body_identity => case_body_identity e
  | s_body_identity_eof => case_body_identity_eof e
  | s_message_done => case_message_done e
  end.

(** The label [reexecute]: the switch is run again for the same byte. *)
Fixpoint reexecute (fuel : nat) (e : exec) : out :=
  match fuel with
  | O => Abort
  | S fuel => match switch e with Reexecute e => reexecute fuel e | o => o end
  end.

(** One round of the loop, without [p++].  No byte takes more than four
    rounds of the switch. *)
Definition round (e : exec) : out :=
  match data !! p e with
  | None => Abort
  | Some c =>
      let* e := (if PARSING_HEADER (p_state e) then COUNT_HEADER_SIZE 1 (set_ch c e) else Break (set_ch c e)) in
      reexecute 5 e
  end.

(** [for (p = data; p != data + len; p++)] *)
Fixpoint loop (fuel : nat) (e : exec) : out :=
  match fuel with
  | O => Abort
  | S fuel => if (p e =? length data)%nat then Break e else let* e := round e in loop fuel (set_p (p e + 1) e)
  end.

Definition marks (e : exec) : nat :=
  let n (m : option nat) := if m is Some _ then 1%nat else 0%nat in
  (n (header_field_mark e) + n (header_value_mark e) + n (url_mark e) + n (body_mark e) + n (status_mark e))%nat.

(** The marks that are still set when the bytes run out. *)
Definition leftovers (e : exec) : out :=
  let* e := assert_ (marks e <=? 1)%nat e in
  let* e := CALLBACK_DATA_NOADVANCE header_field e in
  let* e := CALLBACK_DATA_NOADVANCE header_value e in
  let* e := CALLBACK_DATA_NOADVANCE url e in
  let* e := CALLBACK_DATA_NOADVANCE body e in
  let* e := CALLBACK_DATA_NOADVANCE status e in
  Return (length data) e.

(** The exits: what is returned, the parser and the object. *)
Definition finish (o : out) : option (nat * http_parser * U) :=
  let save (v : nat) (e : exec) := Some (v, set_state (p_state e) (set_nread_of (nread e) (parser e)), user e) in
  match o with
  | Return v e => save v e
  | Leave v e => Some (v, parser e, user e)
  | Error e => save (p e) (if errno_ok e then SET_ERRNO HPE_UNKNOWN e else e)
  | _ => None
  end.

(** The marks for a state in the middle of a string. *)
Definition starting_marks (e : exec) : exec :=
  match p_state e with
  | s_header_field => set_mark header_field (Some 0%nat) e
  | s_header_value => set_mark header_value (Some 0%nat) e
  | s_req_path | s_req_schema | s_req_schema_slash | s_req_schema_slash_slash | s_req_server_start | s_req_server | s_req_server_with_at
  | s_req_query_string_start | s_req_query_string | s_req_fragment_start | s_req_fragment => set_mark url (Some 0%nat) e
  | s_res_status => set_mark status (Some 0%nat) e
  | _ => e
  end.

(** [len == 0]: the end of the stream. *)
Definition end_of_stream (e : exec) : out :=
  match p_state e with
  | s_body_identity_eof =>
      let* e := CALLBACK_NOTIFY_NOADVANCE (on_message_complete settings) HPE_CB_message_complete e in Leave 0 e
  | s_dead | s_start_req_or_res | s_start_res | s_start_req => Leave 0 e
  | _ => Leave 1 (SET_ERRNO HPE_INVALID_EOF_STATE e)
  end.

Definition http_parser_execute (q : http_parser) (u : U) : option (nat * http_parser * U) :=
  let e := mk_exec q u (state_of q) (nread_of q) (lenient_http_headers q) 0 NUL None None None None None in
  if negb (errno_ok e) then Some (0%nat, q, u)
  else if (length data =? 0)%nat then finish (end_of_stream e)
  else finish (let* e := loop (S (length data)) (starting_marks e) in leftovers e).

End execute.

#[global] Arguments http_cb : clear implicits.
#[global] Arguments http_data_cb : clear implicits.
#[global] Arguments http_parser_settings : clear implicits.
#[global] Arguments exec : clear implicits.
#[global] Arguments out : clear implicits.

End HttpParser.
