(* ===== verification/HttpParserSafe.v ===== *)
(** Safety of the HTTP parser: whatever bytes it is given, in whatever pieces,
    and whatever the callbacks return, no assertion of [http_parser_execute]
    fails, no byte outside the buffer is read or handed to a callback, and the
    function returns.

    [core] is the invariant of the parser between two bytes, [post] what each
    case of the switch establishes. *)

From S2P Require Import Prelude HttpParser.

Module HttpParserSafe.
Import HttpParser.

(** ** The invariant *)

(** The mark that may be set in a state. *)
Definition allowed (s : state) : option data_kind :=
  match s with
  | s_header_field => Some header_field
  | s_header_value => Some header_value
  | s_req_path | s_req_schema | s_req_schema_slash | s_req_schema_slash_slash | s_req_server_start | s_req_server | s_req_server_with_at
  | s_req_query_string_start | s_req_query_string | s_req_fragment_start | s_req_fragment => Some url
  | s_res_status => Some status
  | s_body_identity | s_body_identity_eof | s_chunk_data | s_chunk_data_almost_done => Some body
  | _ => None
  end.

(** The states in which a name and a value are read. *)
Definition field_state (h : header_states) : bool :=
  match h with
  | h_general | h_C | h_CO | h_CON | h_matching_connection | h_matching_proxy_connection | h_matching_content_length
  | h_matching_transfer_encoding | h_matching_upgrade | h_connection | h_content_length | h_transfer_encoding | h_upgrade => true
  | _ => false
  end.
Definition value_state (h : header_states) : bool := match h with h_connection | h_transfer_encoding => false | _ => true end.

Definition chunked (q : http_parser) : Prop := has F_CHUNKED q = true.

Definition core (s : state) (q : http_parser) : Prop :=
  0 <= content_length q <= ULLONG_MAX /\
  match s with
  | s_req_method => 0 <= index q <= zlen (method_string (method q))
  | s_header_field => field_state (header_state q) = true
  | s_header_value => value_state (header_state q) = true
  | s_chunk_size_start => chunked q
  | s_chunk_size | s_chunk_parameters | s_chunk_size_almost_done => chunked q /\ content_length q < ULLONG_MAX
  | s_chunk_data => chunked q /\ 0 < content_length q < ULLONG_MAX
  | s_chunk_data_almost_done => chunked q /\ content_length q = 0
  | s_chunk_data_done => chunked q
  | s_body_identity => 0 < content_length q < ULLONG_MAX
  | _ => True
  end.

(** A parser that can be given bytes, now or after it has been unpaused. *)
Definition ready (q : http_parser) : Prop :=
  errno q = HPE_OK \/ errno q = HPE_PAUSED -> core (state_of q) q /\ (state_of q = s_chunk_size_start -> nread_of q = 0).

(** The number of times a byte can still be executed again. *)
Definition rank (s : state) : nat :=
  match s with
  | s_header_value_lws | s_header_value_discard_lws => 3
  | s_header_field_start | s_res_status_code => 2
  | s_headers_almost_done | s_res_status_start | s_start_req_or_res | s_header_value | s_body_identity => 1
  | _ => 0
  end.

Section safe.
Context {U : Type} (settings : http_parser_settings U) (data : bytes).
Implicit Types (e : exec U) (q : http_parser).

(** A callback may pause the parser, and does not write to it otherwise. *)
Definition obeys (r : http_parser -> U -> Z * http_parser * U) : Prop :=
  forall q u, let q' := snd (fst (r q u)) in q' = q \/ http_parser_pause true q = Some q'.

Class Obeys : Prop := {
  obeys_message_begin f : on_message_begin settings = Some f -> obeys f;
  obeys_headers_complete f : on_headers_complete settings = Some f -> obeys f;
  obeys_message_complete f : on_message_complete settings = Some f -> obeys f;
  obeys_chunk_header f : on_chunk_header settings = Some f -> obeys f;
  obeys_chunk_complete f : on_chunk_complete settings = Some f -> obeys f;
  obeys_data k f : data_cb settings k = Some f -> forall d, obeys (fun q => f q d) }.

Definition marked e : Prop := forall k m, mark k e = Some m -> allowed (p_state e) = Some k /\ (m <= p e)%nat.

(** Between two bytes, [n] being the count of a new chunk. *)
Record inv (n : Z) e : Prop := {
  inv_core : core (p_state e) (parser e);
  inv_ok : errno (parser e) = HPE_OK;
  inv_nread : p_state e = s_chunk_size_start -> nread e = n;
  inv_marked : marked e }.

Definition post e0 (o : out U) : Prop :=
  match o with
  | Break e => inv 0 e /\ (p e0 <= p e < length data)%nat
  | Reexecute e => inv 1 e /\ (p e0 <= p e < length data)%nat /\ (rank (p_state e) < rank (p_state e0))%nat
  | Return v e => (v <= length data)%nat /\ ready (set_state (p_state e) (set_nread_of (nread e) (parser e))) /\
      ((v < length data)%nat -> errno (parser e) <> HPE_OK \/ upgrade (parser e) = true)
  | Leave v e => (v <= length data)%nat /\ errno (parser e) <> HPE_OK /\ ready (parser e)
  | Error e => (p e <= length data)%nat /\ errno (parser e) <> HPE_OK /\ errno (parser e) <> HPE_PAUSED
  | Abort => False
  end.

(** ** The callbacks *)

(** [e'] is [e] after a callback of which nothing is left but its effect on
    the object; the mark of its kind is cleared. *)
Record ran (k : option data_kind) e e' : Prop := {
  ran_parser : parser e' = parser e \/ parser e' = set_state (p_state e) (parser e);
  ran_state : p_state e' = p_state e;
  ran_nread : nread e' = nread e;
  ran_p : p e' = p e;
  ran_ch : ch e' = ch e;
  ran_lenient : lenient e' = lenient e;
  ran_mark j : mark j e' = if bool_decide (k = Some j) then None else mark j e }.

Lemma pause_elim q q' : http_parser_pause true q = Some q' -> errno q' = HPE_PAUSED /\ q' = set_errno HPE_PAUSED (set_nread_of (nread_of q) q).
Proof. unfold http_parser_pause. destruct (_ || _); [| done]. by intros [= <-]. Qed.

(** The part of a callback macro behind the call. *)
Lemma after_callback_ok (f : http_cb U) err e : obeys f -> err <> HPE_OK -> err <> HPE_PAUSED -> errno (parser e) = HPE_OK ->
  core (p_state e) (parser e) -> (p_state e = s_chunk_size_start -> nread_of (parser e) = 0) ->
  let e1 := on_parser (set_state (p_state e)) e in
  let e2 := after_callback (f (parser e1) (user e1)) err e1 in
  (errno_ok e2 = true /\ ran None e e2) \/ (errno_ok e2 = false /\ errno (parser e2) <> HPE_OK /\ ready (parser e2)).
Proof.
  intros F N1 N2 O C Nr. cbn zeta. unfold after_callback. cbn [parser on_parser set_parser user set_user fst snd].
  set (q := set_state (p_state e) (parser e)). specialize (F q (user e)). destruct (f q (user e)) as [[r q'] u]. cbn [fst snd] in *.
  destruct (r =? 0).
  - unfold errno_ok. cbn. destruct F as [-> | (E & ->)%pause_elim].
    + left. split; [by apply bool_decide_eq_true |]. split; cbn; [by right | done..]. 
    + right. split_and!; [by apply bool_decide_eq_false | done |]. intros _. cbn. split; [exact C | exact Nr].
  - right. unfold errno_ok. cbn. split_and!; [by apply bool_decide_eq_false | done |]. intros [E | E]; cbn in E; congruence.
Qed.

Lemma notify_then e0 cb err er e k : (forall f, cb = Some f -> obeys f) -> err <> HPE_OK -> err <> HPE_PAUSED -> errno (parser e) = HPE_OK ->
  core (p_state e) (parser e) -> (p_state e = s_chunk_size_start -> nread_of (parser e) = 0) -> (er <= length data)%nat ->
  (forall e', ran None e e' -> post e0 (k e')) -> post e0 (andthen (CALLBACK_NOTIFY_ cb err er e) k).
Proof.
  intros F N1 N2 O C Nr L K. unfold CALLBACK_NOTIFY_, assert_, errno_ok at 1. rewrite bool_decide_true by done. cbn [andthen].
  destruct cb as [f|]; [| apply K; split; auto].
  destruct (after_callback_ok f err e (F _ eq_refl) N1 N2 O C Nr) as [[E R] | (E & Ne & R)]; rewrite E; cbn [andthen]; [by apply K | done].
Qed.

Lemma mark_set_mark k j v e : mark j (set_mark k v e) = if bool_decide (k = j) then v else mark j e.
Proof. by destruct k, j. Qed.

Lemma ran_clear k e e' : ran None e e' -> ran (Some k) e (set_mark k None e').
Proof.
  intros [P S N Pp Ch Le Mk]. split; [done..|]. intros j. specialize (Mk j). destruct (bool_decide_reflect (Some k = Some j)) as [[= ->] | Nk].
  - by destruct j.
  - by destruct j, k.
Qed.

Lemma ran_unmarked k e : mark k e = None -> ran (Some k) e e.
Proof. intros E. split; try done; [by left |]. intros j. case_bool_decide as D; [by injection D as <- | done]. Qed.

Context `{Ob : !Obeys}.

Lemma data_then e0 kd n er e k : errno (parser e) = HPE_OK -> core (p_state e) (parser e) ->
  (p_state e = s_chunk_size_start -> nread_of (parser e) = 0) -> (er <= length data)%nat ->
  (forall m, mark kd e = Some m -> (m <= p e /\ m + n m <= length data)%nat) ->
  (forall e', ran (Some kd) e e' -> post e0 (k e')) -> post e0 (andthen (CALLBACK_DATA_ settings data kd n er e) k).
Proof.
  intros O C Nr L Mk K. unfold CALLBACK_DATA_, assert_, errno_ok at 1. rewrite bool_decide_true by done. cbn [andthen].
  destruct (mark kd e) as [m|] eqn:E; [| by apply K, ran_unmarked]. destruct (Mk m eq_refl) as [L1 L2].
  rewrite (proj2 (Nat.leb_le _ _) L1), (proj2 (Nat.leb_le _ _) L2). cbn [negb andb].
  destruct (data_cb settings kd) as [f|] eqn:Ef; [| apply K, ran_clear; split; auto].
  destruct (after_callback_ok (fun q => f q (take (n m) (drop m data))) (data_err kd) e) as [[Eo R] | (Eo & Ne & R)];
    [by eapply obeys_data | by destruct kd | by destruct kd | done | done | done | |]; rewrite Eo; cbn [andthen]; [by apply K, ran_clear | done].
Qed.

Lemma ran_core k e e' s : ran k e e' -> core s (parser e) -> core s (parser e').
Proof. intros [[-> | ->] _ _ _ _ _ _] C; [done | exact C]. Qed.

Lemma ran_errno k e e' : ran k e e' -> errno (parser e) = HPE_OK -> errno (parser e') = HPE_OK.
Proof. by intros [[-> | ->] _ _ _ _ _ _] C. Qed.

(** After a callback everything holds that held before it. *)
Lemma ran_inv n k e e' : ran k e e' -> core (p_state e) (parser e) -> errno (parser e) = HPE_OK ->
  (p_state e = s_chunk_size_start -> nread e = n) ->
  (forall j m, k <> Some j -> mark j e = Some m -> allowed (p_state e) = Some j /\ (m <= p e)%nat) -> inv n e'.
Proof.
  intros R C O Nr M. pose proof (ran_core k e e' (p_state e) R C) as C'. pose proof (ran_errno k e e' R O) as O'. destruct R as [_ S N P _ _ Mk].
  split; [by rewrite S | done | by rewrite S, N |]. intros j m. rewrite Mk, S, P. case_bool_decide; [done | by apply M].
Qed.

(** What the cases start from. *)
Definition entry (s : state) e : Prop := inv 1 e /\ p_state e = s /\ (p e < length data)%nat.

Lemma post_fail e0 er e : (p e <= length data)%nat -> er <> HPE_OK -> er <> HPE_PAUSED -> post e0 (fail er e).
Proof. done. Qed.

Lemma entry_unmarked s e : entry s e -> allowed s = None -> forall k, mark k e = None.
Proof. intros ([_ _ _ M] & <- & _) A k. destruct (mark k e) as [m|] eqn:E; [| done]. destruct (M _ _ E). congruence. Qed.

Lemma andthen_break (o : out U) : andthen o Break = o.
Proof. by destruct o. Qed.

(** Takes a state apart; no mark is set in it. *)
Ltac open_case E :=
  let U := fresh in let I := fresh in
  pose proof (entry_unmarked _ _ E eq_refl) as U; destruct E as (I & ? & ?); destruct I as [C O N _];
  match type of U with forall k, mark k ?e = None =>
    destruct e as [q u s n l i c m1 m2 m3 m4 m5]; pose proof (U header_field); pose proof (U header_value); pose proof (U url); pose proof (U body); pose proof (U status) end;
  clear U; cbn in *; subst.

(** The invariant of the parser in a state that is known. *)
Ltac core_tac :=
  split; cbn; [match goal with H : core _ _ |- _ => exact (proj1 H) | _ => first [done | lia | by vm_compute] end
              | first [exact I | done | split_and?; first [done | lia | by vm_compute]]].

(** Splits the tests of the code, and closes the ends that set no invariant. *)
Ltac split_tests := repeat match goal with |- post _ (if ?b then _ else _) => destruct b eqn:? end.
Ltac leaf := cbn; split_and?; try done; try lia; try (split; cbn; [core_tac | done | done | intros [] ?; done]).
Ltac notified :=
  unfold CALLBACK_NOTIFY; rewrite <- (andthen_break (CALLBACK_NOTIFY_ _ _ _ _)); apply notify_then;
  [first [exact obeys_message_begin | exact obeys_message_complete | exact obeys_chunk_header | exact obeys_chunk_complete] | done | done | done | core_tac | done | cbn; lia |];
  let R := fresh in intros ? R; split; [eapply ran_inv; [exact R | core_tac | done | done | intros [] ? _; done] | rewrite (ran_p _ _ _ R); cbn; lia].

Lemma start_req_or_res_ok e : entry s_start_req_or_res e -> post e (case_start_req_or_res settings e).
Proof. intros E. open_case E. unfold case_start_req_or_res. split_tests; [leaf | | leaf].  notified. Qed.

Lemma dead_ok e : entry s_dead e -> post e (case_dead e).
Proof. intros E. open_case E. unfold case_dead. split_tests; leaf. Qed.

Lemma res_or_resp_H_ok e : entry s_res_or_resp_H e -> post e (case_res_or_resp_H e).
Proof. intros E. open_case E. unfold case_res_or_resp_H. split_tests; leaf. Qed.

Lemma start_res_ok e : entry s_start_res e -> post e (case_start_res settings e).
Proof. intros E. open_case E. unfold case_start_res. split_tests; [notified | notified | leaf]. Qed.

Definition plain (s : state) : bool := match s with s_req_method | s_header_field | s_header_value | s_chunk_size_start | s_chunk_size
  | s_chunk_parameters | s_chunk_size_almost_done | s_chunk_data | s_chunk_data_almost_done | s_chunk_data_done | s_body_identity => false | _ => true end.

Lemma plain_core s s' q : plain s = true -> core s' q -> core s q.
Proof. intros P [C _]. split; [done | by destruct s]. Qed.

(** A change to a plain state without a mark. *)
Lemma go_ok s s' e (f : http_parser -> http_parser) : entry s e -> allowed s = None -> plain s' = true ->
  (forall q, 0 <= content_length q <= ULLONG_MAX -> 0 <= content_length (f q) <= ULLONG_MAX) -> (forall q, errno (f q) = errno q) ->
  post e (go s' (on_parser f e)).
Proof.
  intros E A P F Fe. pose proof (entry_unmarked _ _ E A) as Un. destruct E as ([C O N _] & S & L). split; [| cbn; lia].
  split; cbn [p_state parser UPDATE_STATE on_parser set_parser].
  - split; [apply F, C | by destruct s'].
  - by rewrite Fe.
  - intros ->. done.
  - intros k m Ek. replace (mark k _) with (mark k e) in Ek by by destruct k. by rewrite Un in Ek.
Qed.

Lemma expect_ok s s' c e : entry s e -> allowed s = None -> plain s' = true -> post e (expect c s' e).
Proof.
  intros E A P. unfold expect, STRICT_CHECK. destruct (negb _); cbn [andthen]; [apply post_fail; [apply Nat.lt_le_incl, E | done..] |].
  replace e with (on_parser id e) at 2 by by destruct e. by eapply go_ok.
Qed.

Lemma http_major_ok s s' e : entry s e -> allowed s = None -> plain s' = true -> post e (case_http_major s' e).
Proof. intros E A P. unfold case_http_major. split_tests; [apply post_fail; [apply Nat.lt_le_incl, E | done..] | by eapply go_ok]. Qed.

Lemma http_minor_ok s s' e : entry s e -> allowed s = None -> plain s' = true -> post e (case_http_minor s' e).
Proof. intros E A P. unfold case_http_minor. split_tests; [apply post_fail; [apply Nat.lt_le_incl, E | done..] | by eapply go_ok]. Qed.

Lemma http_dot_ok s s' e : entry s e -> allowed s = None -> plain s' = true -> post e (case_http_dot s' e).
Proof.
  intros E A P. unfold case_http_dot. split_tests; [apply post_fail; [apply Nat.lt_le_incl, E | done..] |].
  replace e with (on_parser id e) at 2 by by destruct e. by eapply go_ok.
Qed.

Lemma res_http_end_ok e : entry s_res_http_end e -> post e (case_res_http_end e).
Proof. intros E. open_case E. unfold case_res_http_end. split_tests; leaf. Qed.

Lemma res_first_status_code_ok e : entry s_res_first_status_code e -> post e (case_res_first_status_code e).
Proof. intros E. open_case E. unfold case_res_first_status_code. split_tests; leaf. Qed.

Lemma res_status_code_ok e : entry s_res_status_code e -> post e (case_res_status_code e).
Proof. intros E. open_case E. unfold case_res_status_code. split_tests; leaf. Qed.

Lemma req_http_start_ok e : entry s_req_http_start e -> post e (case_req_http_start e).
Proof. intros E. open_case E. unfold case_req_http_start. split_tests; leaf. Qed.

Lemma req_http_end_ok e : entry s_req_http_end e -> post e (case_req_http_end e).
Proof. intros E. open_case E. unfold case_req_http_end. split_tests; leaf. Qed.

Lemma req_line_almost_done_ok e : entry s_req_line_almost_done e -> post e (case_req_line_almost_done e).
Proof. intros E. open_case E. unfold case_req_line_almost_done. split_tests; leaf. Qed.

Lemma header_almost_done_ok e : entry s_header_almost_done e -> post e (case_header_almost_done e).
Proof. intros E. open_case E. unfold case_header_almost_done. split_tests; leaf. Qed.

Lemma res_status_start_ok e : entry s_res_status_start e -> post e (case_res_status_start e).
Proof.
  intros E. open_case E. unfold case_res_status_start. cbn. destruct (_ || _); cbn; split_and?; try lia; (split; cbn; [core_tac | done | done |]);
    intros [] ?; cbn; try done; intros [= <-]; auto.
Qed.

Lemma first_method_index m c : first_method c = Some m -> 1 <= zlen (method_string m).
Proof. destruct c as [[] [] [] [] [] [] [] []]; cbn; intros [=]; subst; by vm_compute. Qed.

Lemma start_req_ok e : entry s_start_req e -> post e (case_start_req settings e).
Proof.
  intros E. open_case E. unfold case_start_req. split_tests; [leaf | leaf |]. cbn [ch on_parser begin_message set_parser].
  destruct (first_method c) as [m|] eqn:F; [| leaf]. apply first_method_index in F. notified.
Qed.

Lemma other_method_index m i c m' : other_method m i c = Some m' -> i < zlen (method_string m').
Proof.
  unfold other_method. destruct (list_find _ XX) as [[n [[[m0 i0] c0] m1]]|] eqn:E; [| done]. intros [= <-].
  apply list_find_Some in E as (E & [= -> -> ->] & _). apply list_elem_of_lookup_2 in E.
  assert (Forall (fun x => snd (fst (fst x)) < zlen (method_string (snd x))) XX) as F by (repeat (constructor; [by vm_compute |]); constructor).
  by apply (proj1 (Forall_forall _ _) F) in E.
Qed.

Lemma method_string_short m : zlen (method_string m) <= 11.
Proof. by destruct m; vm_compute. Qed.

Lemma c_at_ok s i : 0 <= i <= zlen s -> exists c, c_at s i = Some c /\ (c <> NUL -> i < zlen s).
Proof.
  unfold c_at, zlen. intros L. destruct (decide (i = Z.of_nat (length s))) as [-> | N].
  - exists NUL. rewrite Nat2Z.id, list_lookup_middle; done.
  - destruct (lookup_lt_is_Some_2 (s ++ [NUL]) (Z.to_nat i)) as [c E]; [rewrite length_app; cbn; lia |]. exists c. split; [done | lia].
Qed.

Lemma inc_index_ok q : 0 <= index q < 127 -> index (inc_index q) = index q + 1.
Proof. intros L. cbn. apply Z.mod_small. lia. Qed.

Lemma req_method_ok e : entry s_req_method e -> post e (case_req_method e).
Proof.
  intros E. open_case E. destruct C as [Cl I]. pose proof (method_string_short (method q)). unfold case_req_method. cbn [ch parser].
  split_tests; [leaf |]. destruct (c_at_ok _ _ I) as (x & -> & Lx). apply Ascii.eqb_neq in Heqb.
  destruct ((c =? SP)%char && (x =? NUL)%char); [leaf |].
  destruct (Ascii.eqb_spec c x) as [<- | Nx].
  { specialize (Lx Heqb). cbn [andthen]. split; [| cbn; lia]. split; [| done | done | intros [] ?; done]. split; [done |]. cbn -[Z.modulo]. rewrite Z.mod_small; lia. }
  destruct (_ || _); [| leaf]. destruct (other_method _ _ _) as [m|] eqn:M; [| leaf]. apply other_method_index in M. pose proof (method_string_short m).
  cbn [andthen]. split; [| cbn; lia]. split; [| done | done | intros [] ?; done]. split; [done |]. cbn -[Z.modulo]. rewrite Z.mod_small; lia.
Qed.

(** ** Strings in the request and status lines *)

Definition in_url (s : state) : bool := bool_decide (allowed s = Some url).

Lemma parse_url_char_states s c : let s' := parse_url_char s c in s' = s_dead \/ in_url s' = true.
Proof. cbn zeta. unfold parse_url_char. destruct (_ || _ || _); [by left |]. destruct (_ || _); [by left |]. destruct s; repeat case_match; auto. Qed.

(** The state inside a URL. *)
Lemma url_char_ok e0 e : core (p_state e) (parser e) -> errno (parser e) = HPE_OK -> (p e0 <= p e < length data)%nat ->
  (forall k m, mark k e = Some m -> k = url /\ (m <= p e)%nat) -> post e0 (url_char e).
Proof.
  intros C O L M. unfold url_char. cbn [p_state UPDATE_STATE]. case_bool_decide as D; [apply post_fail; [cbn; lia | done..] |].
  destruct (parse_url_char_states (p_state e) (ch e)) as [E | A%bool_decide_eq_true]; [done |]. split; [| done].
  split; cbn [p_state UPDATE_STATE parser]; [| done | intros Ec; by rewrite Ec in A |].
  - destruct C as [C _]. split; [done |]. by destruct (parse_url_char _ _).
  - intros k m Ek. destruct (M k m) as [-> Lm]; [by destruct k |]. cbn. auto.
Qed.

Lemma entry_marked s e : entry s e -> forall k m, mark k e = Some m -> allowed s = Some k /\ (m <= p e)%nat.
Proof. intros ([_ _ _ M] & <- & _). exact M. Qed.

Lemma req_spaces_before_url_ok e : entry s_req_spaces_before_url e -> post e (case_req_spaces_before_url e).
Proof.
  intros E. open_case E. unfold case_req_spaces_before_url. split_tests; [leaf |]. cbn. rewrite ?bool_decide_true, ?bool_decide_false by done.
  destruct (bool_decide _); apply url_char_ok; cbn; try lia; try done; intros [] ? [=]; subst; auto.
Qed.

Lemma req_schema_ok s e : entry s e -> allowed s = Some url -> post e (case_req_schema e).
Proof.
  intros E A. unfold case_req_schema. split_tests; [apply post_fail; [apply Nat.lt_le_incl, E | done..] |].
  pose proof (entry_marked _ _ E) as M. destruct E as ([C O _ _] & S & L). apply url_char_ok; [done | done | lia |]. intros k m Ek. apply M in Ek. rewrite A in Ek; destruct Ek as [[=] ?]; auto.
Qed.

(** The end of a string: the callback gets it, and its mark is cleared. *)
Lemma data_end_ok e0 kd e : errno (parser e) = HPE_OK -> core (p_state e) (parser e) -> p_state e <> s_chunk_size_start ->
  (p e0 <= p e < length data)%nat -> (forall k m, mark k e = Some m -> k = kd /\ (m <= p e)%nat) -> post e0 (CALLBACK_DATA settings data kd e).
Proof.
  intros O C N L M. unfold CALLBACK_DATA. rewrite <- (andthen_break (CALLBACK_DATA_ _ _ _ _ _ _)). apply data_then; [done | done | by intros | lia | |].
  - intros m Em. destruct (M _ _ Em). lia.
  - intros e' R. split; [| rewrite (ran_p _ _ _ R); lia]. eapply ran_inv; [exact R | done | done | by intros |].
    intros j m Nj Ej. destruct (M _ _ Ej). congruence.
Qed.

Lemma res_status_ok e : entry s_res_status e -> post e (case_res_status settings data e).
Proof.
  intros E. pose proof (entry_marked _ _ E) as M. destruct E as ([C O N Mk] & S & L). unfold case_res_status. rewrite S in C. split_tests; [| |].
  1,2: apply data_end_ok; [done | done | done | cbn; lia |]; intros k m Ek; destruct (M k m) as [[=] ?]; [by destruct k | done].
  split; [| lia]. split; [by rewrite S | done | by rewrite S | done].
Qed.

Lemma req_url_ok s e : entry s e -> allowed s = Some url -> post e (case_req_url settings data e).
Proof.
  intros E A. pose proof (entry_marked _ _ E) as M. assert (forall k m, mark k e = Some m -> k = url /\ (m <= p e)%nat) as M'.
  { intros k m Ek. apply M in Ek. rewrite A in Ek. destruct Ek as [[=] ?]. auto. }
  destruct E as ([C O N Mk] & S & L). unfold case_req_url. split_tests.
  - apply data_end_ok; [done | by apply plain_core with (s' := p_state e) | done | cbn; lia |]. intros k m Ek. apply M'. by destruct k.
  - apply data_end_ok; cbn; [done | | by destruct (_ =? CR)%char | lia |]; [| intros k m Ek; apply M'; by destruct k].
    destruct C as [C _]. by destruct (_ =? CR)%char.
  - apply url_char_ok; [done | done | lia | done].
Qed.

(** ** Headers *)

Lemma header_field_start_ok e : entry s_header_field_start e -> post e (case_header_field_start e).
Proof.
  intros E. open_case E. unfold case_header_field_start. split_tests; [leaf.. |]. split; [| cbn; lia]. split; cbn; [| done | done |].
  - destruct C as [C _]. split; [done |]. by repeat case_match.
  - intros [] m [=]; subst. auto.
Qed.

Lemma skip_tokens_ok fuel limit i : (limit <= length data)%nat -> (length data < i + fuel)%nat -> (i < length data)%nat ->
  exists j, skip_tokens data fuel limit i = Some j /\ (i <= j < length data)%nat.
Proof.
  revert i. induction fuel as [|fuel IH]; intros i L F I; [lia |]. cbn [skip_tokens].
  destruct (Nat.ltb_spec (i + 1) limit); [| by exists i].
  destruct (lookup_lt_is_Some_2 data (i + 1)) as [c ->]; [lia |]. destruct (_ =? _)%char; [by exists i |].
  destruct (IH (i + 1)%nat) as (j & -> & ?); [lia..|]. exists j. split; [done | lia].
Qed.

(** What reading a name changes. *)
Definition in_field (hs : header_states) (i : Z) (j : nat) (c : ascii) e : exec U :=
  set_ch c (set_p j (on_parser (fun q => set_header_state hs (set_index i q)) e)).

Lemma match_word_field w c i h done : field_state h = true -> field_state done = true -> field_state (match_word w c i h_general done h) = true.
Proof. intros. unfold match_word. by repeat case_match. Qed.

(** Writes a state as one record. *)
Ltac records := lazy beta iota zeta delta [in_field set_ch set_p set_user UPDATE_STATE set_nread on_parser set_parser set_header_state set_index inc_index
  set_state set_flags add_flag set_content_length parser user p_state nread lenient p ch header_field_mark header_value_mark url_mark body_mark status_mark
  type flags state_of header_state index lenient_http_headers nread_of content_length http_major http_minor status_code method errno upgrade].

Lemma header_field_char_ok c e : field_state (header_state (parser e)) = true -> (p e < length data)%nat ->
  exists hs i j, header_field_char data c e = Break (in_field hs i j (ch e) e) /\ field_state hs = true /\ (p e <= j < length data)%nat.
Proof.
  intros F L. destruct e as [q u s n l x c0 m1 m2 m3 m4 m5], q as [ty fl st h i le nr cl ma mi sc me er up]. cbn in F, L. unfold header_field_char. cbn -[skip_tokens match_word].
  destruct h; try discriminate F.
  1: destruct (skip_tokens_ok (S (length data)) (limit_of data x) x) as (j & -> & Lj);
       [unfold limit_of, zlen; lia | lia | done |]; by exists h_general, i, j.
  all: try (eexists _, _, x; split; [records; reflexivity | split; [first [by apply match_word_field | by repeat case_match] | lia]]).
  all: destruct (negb _); [exists h_general, i, x | eexists _, i, x]; (split; [reflexivity | split; [done | lia]]).
Qed.

Lemma header_field_loop_ok fuel e : field_state (header_state (parser e)) = true -> (p e <= length data)%nat -> (length data < p e + fuel)%nat ->
  exists hs i j c, header_field_loop data fuel e = Break (in_field hs i j c e) /\ field_state hs = true /\ (p e <= j <= length data)%nat.
Proof.
  revert e. induction fuel as [|fuel IH]; intros e F L Fu; [lia |]. cbn [header_field_loop].
  destruct (Nat.eqb_spec (p e) (length data)) as [El | Nl].
  { exists (header_state (parser e)), (index (parser e)), (p e), (ch e). split; [| split; [done | lia]]. by destruct e as [[] ? ? ? ? ? ? ? ? ? ? ?]. }
  destruct (lookup_lt_is_Some_2 data (p e)) as [x Ex]; [lia |]. rewrite Ex. cbn [ch set_ch].
  destruct (TOKEN x =? NUL)%char.
  { exists (header_state (parser e)), (index (parser e)), (p e), x. split; [| split; [done | lia]]. by destruct e as [[] ? ? ? ? ? ? ? ? ? ? ?]. }
  destruct (header_field_char_ok (TOKEN x) (set_ch x e)) as (hs & i & j & -> & Fh & Lj); [done | cbn; lia |]. cbn [andthen]. cbn in Lj.
  destruct (IH (set_p (p (in_field hs i j (ch (set_ch x e)) (set_ch x e)) + 1) (in_field hs i j (ch (set_ch x e)) (set_ch x e)))) as (hs' & i' & j' & c' & -> & Fh' & Lj');
    [done | cbn; lia | cbn; lia |]. cbn in Lj'. exists hs', i', j', c'. split; [| split; [done | lia]]. by destruct e as [[] ? ? ? ? ? ? ? ? ? ? ?].
Qed.

Lemma count_then e0 v e k : (p e <= length data)%nat -> (forall n, post e0 (k (set_nread n e))) -> post e0 (andthen (COUNT_HEADER_SIZE v e) k).
Proof. intros L K. unfold COUNT_HEADER_SIZE. cbn [nread set_nread]. destruct (_ <? _); [done |]. apply K. Qed.

Lemma header_field_ok e : entry s_header_field e -> post e (case_header_field settings data e).
Proof.
  intros E. pose proof (entry_marked _ _ E) as M. destruct E as ([C O N Mk] & S & L). rewrite S in C. destruct C as [C F]. unfold case_header_field.
  destruct (header_field_loop_ok (Datatypes.S (length data)) e) as (hs & i & j & c & -> & Fh & Lj); [done | lia | lia |]. cbn [andthen].
  assert (forall k m, mark k e = Some m -> k = header_field /\ (m <= p e)%nat) as M'. { intros k m [[=] ?]%M. auto. }
  destruct (Nat.eqb_spec (p (in_field hs i j c e)) (length data)) as [El | Nl]; cbn in El || cbn in Nl.
  - rewrite <- (andthen_break (COUNT_HEADER_SIZE _ _)). apply count_then; [cbn; lia |]. intros n. split; [| cbn; lia].
    split; cbn [p_state parser set_nread set_p in_field set_ch on_parser set_parser]; rewrite ?S; [done | done | done |].
    intros k m Ek. destruct (M' k m) as [-> Lm]; [by destruct k |]. cbn. rewrite S. split; [done | lia].
  - apply count_then; [cbn; lia |]. intros n. destruct (_ =? _)%char; [| apply post_fail; [cbn; lia | done..]].
    apply data_end_ok; [done | done | done | cbn; lia |]. intros k m Ek. destruct (M' k m) as [-> Lm]; [by destruct k |]. cbn. split; [done | lia].
Qed.

Lemma uchar_digit c : IS_NUM c = true -> 0 <= uchar c - 48 <= 9.
Proof. unfold IS_NUM, between. intros [L1%Z.leb_le L2%Z.leb_le]%andb_true_iff. change (uchar "0") with 48 in L1. change (uchar "9") with 57 in L2. lia. Qed.

Lemma value_start_ok s e : entry s e -> allowed s = None -> post e (case_header_value_start e).
Proof.
  intros E A. pose proof (entry_unmarked _ _ E A) as Un. destruct E as ([[C _] O _ _] & _ & L). unfold case_header_value_start, MARK. rewrite (Un header_value).
  assert (forall (f : http_parser -> http_parser), (forall q, errno (f q) = errno q) -> 0 <= content_length (f (set_index 0 (parser e))) <= ULLONG_MAX ->
    value_state (header_state (f (set_index 0 (parser e)))) = true ->
    post e (Break (on_parser f (on_parser (set_index 0) (UPDATE_STATE s_header_value (set_mark header_value (Some (p e)) e)))))) as K.
  { intros f Fe Fc Fv. split; [| cbn; lia]. split; cbn -[mark ULLONG_MAX]; [by split | by rewrite Fe | done |].
    intros k m Ek. destruct (decide (k = header_value)) as [-> | Nk]; [cbn in Ek; injection Ek as <-; auto |].
    replace (mark k _) with (mark k e) in Ek by by destruct k. by rewrite Un in Ek. }
  cbn [header_state parser on_parser set_parser UPDATE_STATE set_mark ch set_index].
  destruct (header_state (parser e)) eqn:H; try (by apply K); try (apply K; [done | done |]; by repeat case_match).
  - destruct (IS_NUM _) eqn:D; [| apply post_fail; [cbn; lia | done..]]. cbn [negb]. apply uchar_digit in D. destruct (has _ _); [apply post_fail; [cbn; lia | done..] |].
    apply K; [done | cbn; unfold ULLONG_MAX; lia | done].
  - specialize (K id). replace (on_parser id _) with (on_parser (set_index 0) (UPDATE_STATE s_header_value (set_mark header_value (Some (p e)) e))) in K by done.
    apply K; [done | done | by cbn; rewrite H].
Qed.

Lemma header_value_discard_ws_ok e : entry s_header_value_discard_ws e -> post e (case_header_value_discard_ws e).
Proof.
  intros E. unfold case_header_value_discard_ws. split_tests; [| | | by eapply value_start_ok]; open_case E; leaf.
Qed.

Lemma value_flag_same q : content_length (value_flag q) = content_length q /\ errno (value_flag q) = errno q /\ nread_of (value_flag q) = nread_of q.
Proof. unfold value_flag. by destruct (header_state q). Qed.

Lemma header_value_lws_ok e : entry s_header_value_lws e -> post e (case_header_value_lws e).
Proof.
  intros E. open_case E. unfold case_header_value_lws. split_tests; [leaf |]. destruct (value_flag_same q) as (Vc & Ve & Vn). destruct C as [C _].
  split; [| cbn; lia]. split; cbn -[value_flag ULLONG_MAX]; [split; [by rewrite Vc | done] | by rewrite Ve | done | intros [] ?; done].
Qed.

Lemma header_value_discard_lws_ok e : entry s_header_value_discard_lws e -> post e (case_header_value_discard_lws settings data e).
Proof.
  intros E. open_case E. unfold case_header_value_discard_lws. split_tests; [leaf |]. destruct (value_flag_same q) as (Vc & Ve & Vn). destruct C as [C _].
  apply data_then; cbn -[value_flag ULLONG_MAX]; [by rewrite Ve | split; [by rewrite Vc | done] | done | lia | intros m [= <-]; lia |].
  intros e' R. split; [| rewrite (ran_p _ _ _ R), (ran_state _ _ _ R); cbn; lia].
  eapply ran_inv; [exact R | cbn -[value_flag ULLONG_MAX]; split; [by rewrite Vc | done] | cbn -[value_flag]; by rewrite Ve | done |].
  intros [] m Nk; cbn; done.
Qed.

Lemma memchr_ok c i n j : memchr data c i n = Some j -> (i <= j < length data)%nat /\ data !! j = Some c.
Proof.
  unfold memchr. intros ([k x] & (E & <- & _)%list_find_Some & ->)%fmap_Some. cbn [fst].
  apply lookup_take_Some in E as [E _]. rewrite lookup_drop in E. pose proof (lookup_lt_Some _ _ _ E). split; [lia | done].
Qed.

Lemma value_end_ok i x : data !! i = Some x -> x <> CR -> x <> LF -> (i < value_end data i <= length data)%nat.
Proof.
  intros E N1 N2. pose proof (lookup_lt_Some _ _ _ E). unfold value_end.
  assert (forall c n j, memchr data c i n = Some j -> x <> c -> (i < j < length data)%nat) as K.
  { intros c n j [L Ej]%memchr_ok Nx. destruct (decide (i = j)) as [<- | Nj]; [congruence | lia]. }
  destruct (memchr data CR i _) as [cr|] eqn:Ec, (memchr data LF i _) as [lf|] eqn:El; try apply K in Ec; try apply K in El; try done; try lia.
  destruct (lf <=? cr)%nat; lia.
Qed.

(** In the middle of a value; [h] is the local [h_state]. *)
Record in_value e0 (h : header_states) e : Prop := {
  iv_h : value_state h = true;
  iv_state : p_state e = s_header_value;
  iv_ok : errno (parser e) = HPE_OK;
  iv_length : 0 <= content_length (parser e) <= ULLONG_MAX;
  iv_marks : forall k m, mark k e = Some m -> k = header_value /\ (m <= p e0)%nat }.

(** The same, with other values in the parser. *)
Lemma in_value_next e0 h h' e (f : http_parser -> http_parser) : in_value e0 h e -> value_state h' = true -> (forall q, errno (f q) = errno q) ->
  0 <= content_length (f (parser e)) <= ULLONG_MAX -> in_value e0 h' (on_parser f e).
Proof. intros [_ S O C M] V Fe Fc. split; [done | done | cbn; by rewrite Fe | done |]. intros k m Ek. apply M. by destruct k. Qed.

Lemma in_value_state e0 h h' e : in_value e0 h e -> value_state h' = true -> in_value e0 h' e.
Proof. by intros [_ S O C M] V. Qed.

Lemma match_word_value w c i other done h : value_state other = true -> value_state done = true -> value_state h = true ->
  value_state (match_word w c i other done h) = true.
Proof. intros. unfold match_word. by repeat case_match. Qed.

Lemma digit_length n c : IS_NUM c = true -> ((ULLONG_MAX - 10) / 10 <? n) = false -> 0 <= n -> 0 <= u64 (u64 (n * 10) + (uchar c - 48)) < ULLONG_MAX.
Proof.
  intros D%uchar_digit N%Z.ltb_ge Nn. change ((ULLONG_MAX - 10) / 10) with 1844674407370955160 in N.
  rewrite (u64_small (n * 10)) by lia. rewrite u64_small by lia. unfold ULLONG_MAX. lia.
Qed.

Lemma header_value_char_ok e0 h e k : in_value e0 h e -> (p e0 <= p e < length data)%nat -> data !! p e = Some (ch e) -> ch e <> CR -> ch e <> LF ->
  (forall h' e', in_value e0 h' e' -> (p e <= p e' < length data)%nat -> post e0 (k h' e')) -> post e0 (header_value_char data h e k).
Proof.
  intros V L D N1 N2 K. pose proof V as [Vh Vs Vo Vc Vm].
  assert (forall h', value_state h' = true -> post e0 (k h' e)) as K1. { intros h' V'. apply K; [by eapply in_value_state | lia]. }
  assert (forall h' f, value_state h' = true -> (forall q, errno (f q) = errno q) -> 0 <= content_length (f (parser e)) <= ULLONG_MAX ->
    post e0 (k h' (on_parser f e))) as K2. { intros h' f V' Fe Fc. apply K; [by eapply in_value_next | cbn; lia]. }
  assert (forall w other done, value_state other = true -> value_state done = true ->
    post e0 (let e := on_parser inc_index e in k (match_word w (LOWER (ch e)) (index (parser e)) other done h) e)) as Kw.
  { intros w other dn V1 V2. apply K2; [by apply match_word_value | done | done]. }
  assert (forall f : Z, post e0 (if (ch e =? ",")%char then k h_matching_connection_token_start (on_parser (fun q => set_index 0 (add_flag f q)) e)
    else if negb (ch e =? SP)%char then k h_matching_connection_token e else k h e)) as Kc.
  { intros f. destruct (ch e =? ",")%char; [by apply K2 |]. destruct (negb _); by apply K1. }
  assert (post e0 (header_value_char data h_content_length_num e k)) as Kn.
  { unfold header_value_char. destruct (ch e =? SP)%char; [by apply K1 |]. destruct (IS_NUM (ch e)) eqn:Dg; [| split_and!; [cbn; lia | done..]]. cbn [negb].
    destruct (_ <? _) eqn:G; [split_and!; [cbn; lia | done..] |]. pose proof (digit_length _ _ Dg G (proj1 Vc)). apply K2; [done | done | cbn -[ULLONG_MAX]; lia]. }
  assert (post e0 (k h_general (UPDATE_STATE s_header_value e))) as Ku. { apply K; [split; try done; intros j m Ej; apply Vm; by destruct j | cbn; lia]. }
  destruct h; try discriminate Vh; try apply Kc; try exact Kn; unfold header_value_char; cbn zeta; try exact Ku; try by apply Kw.
  - pose proof (value_end_ok _ _ D N1 N2). apply K; [split; try done; intros j m Ej; apply Vm; by destruct j | cbn; lia].
  - destruct (ch e =? SP)%char eqn:Sp; [by apply K1 |]. unfold header_value_char in Kn. by rewrite Sp in Kn.
  - destruct (ch e =? SP)%char; [by apply K1 |]. split_and!; [cbn; lia | done..].
  - repeat (match goal with |- post _ (if ?b then _ else _) => destruct b end); by apply K1.
  - destruct (ch e =? ",")%char; [by apply K2 | by apply K1].
  - apply K1. by destruct (negb _).
Qed.

(** Behind the loop. *)
Lemma header_value_end_ok e0 h e : errno (parser e) = HPE_OK -> 0 <= content_length (parser e) <= ULLONG_MAX ->
  (p_state e = s_header_value /\ value_state h = true \/ p_state e = s_header_almost_done) ->
  (forall k m, mark k e = Some m -> allowed (p_state e) = Some k /\ (m <= p e0)%nat) -> (p e0 < length data)%nat -> (p e0 <= p e <= length data)%nat ->
  post e0 (header_value_end data (p e0) h e).
Proof.
  intros O C S M L0 L. unfold header_value_end. rewrite <- (andthen_break (COUNT_HEADER_SIZE _ _)).
  assert (forall e1 n, (e1 = on_parser (set_header_state h) e \/ exists i, (p e0 <= i)%nat /\ e1 = set_p i (on_parser (set_header_state h) e)) -> (p e0 <= p e1 < length data)%nat ->
    post e0 (Break (set_nread n e1))) as K.
  { intros e1 n E1 L1. split; [| done]. split; destruct E1 as [-> | (i & Li & ->)]; cbn [p_state parser set_nread set_p on_parser set_parser] in *; try done.
    1,2: destruct S as [[-> V] | ->]; done. 1,2: destruct S as [[-> V] | ->]; done.
    all: intros k m Ek; destruct (M k m) as [A Lm]; [by destruct k |]; split; [done | cbn in *; lia]. }
  destruct (Nat.eqb_spec (p (on_parser (set_header_state h) e)) (length data)) as [El | Nl]; cbn in El || cbn in Nl.
  - apply count_then; [cbn; lia |]. intros n. apply K; [right; eexists; split; [| reflexivity]; cbn; lia | cbn; lia].
  - apply count_then; [cbn; lia |]. intros n. apply K; [by left | cbn; lia].
Qed.

Lemma header_value_loop_ok fuel e0 h e : in_value e0 h e -> p_state e0 = s_header_value -> (p e0 < length data)%nat -> (p e0 <= p e <= length data)%nat ->
  (length data < p e + fuel)%nat -> post e0 (header_value_loop settings data fuel (p e0) h e).
Proof.
  revert h e. induction fuel as [|fuel IH]; intros h e V S0 L0 L F; [lia |]. cbn [header_value_loop]. pose proof V as [Vh Vs Vo Vc Vm].
  destruct (Nat.eqb_spec (p e) (length data)) as [El | Nl].
  { apply header_value_end_ok; [done | done | by left | | lia | lia]. intros k m Ek. rewrite Vs. by destruct (Vm _ _ Ek) as [-> ?]. }
  destruct (lookup_lt_is_Some_2 data (p e)) as [x Ex]; [lia |]. rewrite Ex. cbn [ch set_ch].
  destruct (Ascii.eqb_spec x CR) as [-> | Ncr].
  { apply data_then; cbn -[ULLONG_MAX]; [done | done | done | lia | |].
    - intros m Em. destruct (Vm header_value m Em). lia.
    - intros e' R. pose proof (ran_core _ _ _ s_header_almost_done R (conj Vc I)) as [C' _]. pose proof (ran_errno _ _ _ R Vo) as O'.
      destruct R as [_ Rs _ Rp _ _ Rm]. cbn in Rs, Rp. apply header_value_end_ok; [done | done | by right | | lia | lia].
      intros k m. rewrite Rm, Rs. case_bool_decide as Dk; [done |]. intros Ek. destruct (Vm k m) as [-> ?]; [by destruct k | done]. }
  destruct (Ascii.eqb_spec x LF) as [-> | Nlf].
  { apply count_then; [cbn; lia |]. intros n. apply data_then; cbn -[ULLONG_MAX]; [done | done | done | lia | |].
    - intros m Em. destruct (Vm header_value m Em). lia.
    - intros e' R. split; [| rewrite (ran_p _ _ _ R), (ran_state _ _ _ R), S0; cbn; lia].
      eapply ran_inv; [exact R | done | done | done |]. intros k m Nk Ek. destruct (Vm k m) as [-> ?]; [by destruct k | done]. }
  destruct (_ && _); [apply post_fail; [cbn; lia | done..] |].
  apply header_value_char_ok; [| cbn; lia | done | done | done |].
  - by split.
  - intros h' e' V' L'. cbn in L'. apply IH; [| done | lia | cbn; lia | cbn; lia]. by destruct V'.
Qed.

Lemma header_value_ok e : entry s_header_value e -> post e (case_header_value settings data e).
Proof.
  intros E. pose proof (entry_marked _ _ E) as M. destruct E as ([[C V] O _ _] & S & L). rewrite S in V. apply header_value_loop_ok; [| done | lia | lia | lia].
  split; [done | done | done | done |]. intros k m Ek. destruct (M _ _ Ek) as [[= <-] ?]. done.
Qed.

(** ** The end of the headers and of the message *)

Lemma new_message_core q : 0 <= content_length q <= ULLONG_MAX -> core (NEW_MESSAGE q) q /\ allowed (NEW_MESSAGE q) = None /\ NEW_MESSAGE q <> s_chunk_size_start.
Proof. intros C. unfold NEW_MESSAGE, start_state. destruct (http_should_keep_alive q); [case_bool_decide |]; done. Qed.

Lemma message_complete_then e0 e k : errno (parser e) = HPE_OK -> 0 <= content_length (parser e) <= ULLONG_MAX -> (p e < length data)%nat ->
  (forall e', ran None (UPDATE_STATE (NEW_MESSAGE (parser e)) e) e' -> post e0 (k e')) -> post e0 (andthen (message_complete settings e) k).
Proof.
  intros O C L K. destruct (new_message_core _ C) as (C' & _ & N). apply notify_then; [exact obeys_message_complete | done | done | done | done | | cbn; lia | done].
  by intros ?%N.
Qed.

Lemma ran_new_message e e' : ran None (UPDATE_STATE (NEW_MESSAGE (parser e)) e) e' -> errno (parser e) = HPE_OK -> 0 <= content_length (parser e) <= ULLONG_MAX ->
  (forall k, mark k e = None) -> inv 0 e'.
Proof.
  intros R O C Un. destruct (new_message_core _ C) as (C' & _ & N). eapply ran_inv; [exact R | done | done | by intros ?%N |].
  intros j m _ Ej. replace (mark j _) with (mark j e) in Ej by by destruct j. by rewrite Un in Ej.
Qed.

Lemma message_complete_ok e0 e : errno (parser e) = HPE_OK -> 0 <= content_length (parser e) <= ULLONG_MAX -> (p e0 <= p e < length data)%nat ->
  (forall k, mark k e = None) -> post e0 (message_complete settings e).
Proof.
  intros O C L Un. rewrite <- (andthen_break (message_complete _ _)). apply message_complete_then; [done | done | lia |].
  intros e' R. split; [by eapply ran_new_message | rewrite (ran_p _ _ _ R); done].
Qed.

(** The message is complete, and the rest of the bytes is not for the parser. *)
Lemma message_return_ok e0 e : errno (parser e) = HPE_OK -> 0 <= content_length (parser e) <= ULLONG_MAX -> (p e0 <= p e < length data)%nat ->
  (forall k, mark k e = None) -> upgrade (parser e) = true -> post e0 (andthen (message_complete settings e) (fun e => Return (p e + 1) e)).
Proof.
  intros O C L Un Up. apply message_complete_then; [done | done | lia |]. intros e' R. pose proof (ran_new_message _ _ R O C Un) as [C' O' N' _].
  split_and!; [rewrite (ran_p _ _ _ R); cbn; lia | intros _; cbn; split; [exact C' | exact N'] | right]. destruct R as [[-> | ->] _ _ _ _ _ _]; done.
Qed.

Lemma message_done_ok e : entry s_message_done e -> post e (case_message_done settings e).
Proof.
  intros E. pose proof (entry_unmarked _ _ E eq_refl) as Un. destruct E as ([[C _] O _ _] & S & L). unfold case_message_done.
  apply message_complete_then; [done | done | lia |]. intros e' R. pose proof (ran_new_message _ _ R O C Un) as I. pose proof (ran_p _ _ _ R) as Rp. cbn in Rp.
  destruct (upgrade (parser e')) eqn:Up; [| split; [done | lia]]. destruct I as [C' O' N' _].
  split_and!; [cbn; lia | intros _; cbn; split; [exact C' | exact N'] | by right].
Qed.

Lemma headers_done_ok e : entry s_headers_done e -> post e (case_headers_done settings e).
Proof.
  intros E. pose proof (entry_unmarked _ _ E eq_refl) as Un. destruct E as ([[C _] O _ _] & S & L). unfold case_headers_done, STRICT_CHECK.
  destruct (negb _); cbn [andthen]; [apply post_fail; [cbn; lia | done..] |].
  set (e1 := set_nread 0 (on_parser (set_nread_of 0) e)). assert (forall k, mark k e1 = None) as Un1 by (intros k; specialize (Un k); by destruct k).
  assert (forall s, core s (parser e1) -> post e (go s e1)) as K.
  { intros s Cs. split; [| cbn; lia]. split; [done | done | done |]. intros k m Ek. replace (mark k _) with (mark k e1) in Ek by by destruct k. by rewrite Un1 in Ek. }
  assert (content_length (parser e1) <> 0 -> content_length (parser e1) <> ULLONG_MAX -> core s_body_identity (parser e1)) as Kb.
  { intros. split; [done |]. cbn -[ULLONG_MAX] in *. lia. }
  assert (post e (message_complete settings e1)) as Km by (apply message_complete_ok; [done | done | cbn; lia | done]).
  repeat match goal with |- post _ (if ?b then _ else _) => destruct b eqn:? end; try exact Km; try (by apply K).
  - apply message_return_ok; [done | done | cbn; lia | done | by destruct (upgrade (parser e1))].
  - apply K, Kb; [by apply Z.eqb_neq | by apply Z.eqb_neq, negb_true_iff].
Qed.

Lemma obeys_length (f : http_cb U) q u : obeys f -> content_length (snd (fst (f q u))) = content_length q.
Proof. intros F. destruct (F q u) as [-> | (_ & ->)%pause_elim]; done. Qed.

Lemma headers_almost_done_ok e : entry s_headers_almost_done e -> post e (case_headers_almost_done settings e).
Proof.
  intros E. pose proof (entry_unmarked _ _ E eq_refl) as Un. destruct E as ([[C _] O _ _] & S & L). unfold case_headers_almost_done, STRICT_CHECK.
  destruct (negb (ch e =? LF)%char); cbn [andthen]; [apply post_fail; [lia | done..] |]. destruct (has F_TRAILING _).
  { apply notify_then; [exact obeys_chunk_complete | done | done | done | done | done | cbn; lia |]. intros e' R.
    split; [| rewrite (ran_p _ _ _ R), (ran_state _ _ _ R), S; cbn; lia]. eapply ran_inv; [exact R | done | done | done |].
    intros j m _ Ej. replace (mark j _) with (mark j e) in Ej by by destruct j. by rewrite Un in Ej. }
  destruct (_ && _); [apply post_fail; [lia | done..] |]. set (e1 := on_parser _ (UPDATE_STATE s_headers_done e)).
  assert (forall q u, 0 <= content_length q <= ULLONG_MAX ->
    post e (if negb (errno_ok (set_user u (set_parser q e1))) then Return (p e) (set_user u (set_parser q e1)) else Reexecute (set_user u (set_parser q e1)))) as K.
  { intros q u Cq. destruct (errno_ok _) eqn:Ok; unfold errno_ok in Ok; cbn in Ok; cbn [negb].
    - apply bool_decide_eq_true in Ok. split; [| rewrite S; cbn; lia]. split; [by split | done | done |].
      intros j m Ej. replace (mark j _) with (mark j e) in Ej by by destruct j. by rewrite Un in Ej.
    - apply bool_decide_eq_false in Ok. split_and!; [cbn; lia | intros _; by split | by left]. }
  destruct (on_headers_complete settings) as [f|] eqn:Ef; [| apply (K (parser e1) (user e1) C)]. cbn [andthen].
  pose proof (obeys_length f (parser e1) (user e1) (obeys_headers_complete _ Ef)) as Fl.
  destruct (f (parser e1) (user e1)) as [[v q] u]. cbn [fst snd] in *. assert (0 <= content_length q <= ULLONG_MAX) as Cq by (by rewrite Fl).
  destruct (v =? 0); [by apply K |]. destruct (v =? 2); [by apply (K (add_flag F_SKIPBODY (set_upgrade true q)) u) |].
  destruct (v =? 1); [by apply (K (add_flag F_SKIPBODY q) u) |]. split_and!; [cbn; lia | intros [Er | Er]; done | by left].
Qed.

(** ** The body *)

Lemma entry_body e s : entry s e -> allowed s = Some body -> forall k m, mark k e = Some m -> k = body /\ (m <= p e)%nat.
Proof. intros E A k m Ek. destruct (entry_marked _ _ E _ _ Ek) as [Ak ?]. rewrite A in Ak. injection Ak as <-. auto. Qed.

(** The bytes that are taken at once. *)
Lemma take_body_ok e : 0 < content_length (parser e) < ULLONG_MAX -> (p e < length data)%nat -> (forall k m, mark k e = Some m -> k = body /\ (m <= p e)%nat) ->
  let e' := take_body data e in
  0 <= content_length (parser e') < ULLONG_MAX /\ (p e <= p e' < length data)%nat /\ (forall k m, mark k e' = Some m -> k = body /\ (m <= p e)%nat) /\
  p_state e' = p_state e /\ errno (parser e') = errno (parser e) /\ flags (parser e') = flags (parser e) /\ nread e' = nread e.
Proof.
  intros C L M e'. subst e'. unfold take_body, MARK, to_read, zlen.
  assert (ULLONG_MAX = 2 ^ 64 - 1) as Um by done.
  destruct (mark body e) as [mb|] eqn:Eb; cbn -[ULLONG_MAX u64 mark]; rewrite u64_small by lia; (split_and!; [lia | lia | lia | lia | | done..]); intros k m Ek.
  - apply M. by destruct k.
  - destruct (decide (k = body)) as [-> | Nk]; [cbn in Ek; injection Ek as <-; auto |]. apply M. by destruct k.
Qed.

Lemma length_known_ok e : 0 < content_length (parser e) < ULLONG_MAX -> length_known e = true.
Proof. intros C. unfold length_known. rewrite (proj2 (Z.eqb_neq _ _)), (proj2 (Z.eqb_neq _ _)) by lia. done. Qed.

Lemma body_identity_ok e : entry s_body_identity e -> post e (case_body_identity settings data e).
Proof.
  intros E. pose proof (entry_body _ _ E eq_refl) as M. destruct E as ([C O _ _] & S & L). rewrite S in C. destruct C as [C Cl].
  unfold case_body_identity, assert_. rewrite length_known_ok by done. cbn [andthen].
  destruct (take_body_ok e Cl L M) as (Tc & Tp & Tm & Ts & To & _ & _). generalize dependent (take_body data e). intros e1 Tc Tp Tm Ts To.
  destruct (Z.eqb_spec (content_length (parser e1)) 0) as [Z0 | Nz].
  - apply data_then; [by rewrite <- O, <- To | cbn -[ULLONG_MAX]; split; [lia | done] | done | cbn; lia | |].
    + intros m Em. destruct (Tm body m Em). cbn in *. lia.
    + intros e' R. split; [| rewrite (ran_p _ _ _ R), (ran_state _ _ _ R), S; cbn in *; lia].
      eapply ran_inv; [exact R | cbn -[ULLONG_MAX]; split; [lia | done] | by rewrite <- O, <- To | done |].
      intros j m Nj Ej. destruct (Tm j m) as [-> ?]; [by destruct j | done].
  - split; [| done]. split; [rewrite Ts, S; split; lia | by rewrite To | by rewrite Ts, S |].
    intros k m Ek. destruct (Tm k m Ek) as [-> ?]. rewrite Ts, S. split; [done | lia].
Qed.

Lemma body_identity_eof_ok e : entry s_body_identity_eof e -> post e (case_body_identity_eof data e).
Proof.
  intros E. pose proof (entry_body _ _ E eq_refl) as M. destruct E as ([C O _ _] & S & L). unfold case_body_identity_eof, MARK.
  assert (forall e1, p_state e1 = p_state e -> parser e1 = parser e -> (forall k m, mark k e1 = Some m -> k = body /\ (m <= p e)%nat) ->
    post e (Break (set_p (length data - 1) e1))) as K.
  { intros e1 S1 P1 M1. split; [| cbn; lia]. split; cbn [p_state parser set_p nread]; rewrite ?S1, ?P1; [done | done | by rewrite S |].
    intros k m Ek. destruct (M1 k m) as [-> ?]; [by destruct k |]. cbn. rewrite S1, S. split; [done | lia]. }
  destruct (mark body e) as [mb|] eqn:Eb; apply K; try done. intros k m Ek. destruct (decide (k = body)) as [-> | Nk]; [cbn in Ek; injection Ek as <-; auto |].
  apply M. by destruct k.
Qed.

(** The assertions of the chunk states. *)
Lemma assert_chunked_then e0 e k : chunked (parser e) -> post e0 (k e) -> post e0 (andthen (assert_chunked e) k).
Proof. intros C K. unfold assert_chunked, assert_. by rewrite C. Qed.

Lemma unhex_range c : -1 <= unhex c <= 15.
Proof. destruct c as [[] [] [] [] [] [] [] []]; by vm_compute. Qed.

Lemma chunk_size_start_ok e : entry s_chunk_size_start e -> post e (case_chunk_size_start e).
Proof.
  intros E. pose proof (entry_unmarked _ _ E eq_refl) as Un. destruct E as ([C O N _] & S & L). rewrite S in C. destruct C as [C Ch]. specialize (N S).
  unfold case_chunk_size_start, assert_ at 1. rewrite N. cbn [Z.eqb andthen Pos.eqb]. apply assert_chunked_then; [done |].
  pose proof (unhex_range (ch e)). destruct (Z.eqb_spec (unhex (ch e)) (-1)); [apply post_fail; [lia | done..] |].
  split; [| cbn; lia]. split; [| done | done |].
  - cbn -[ULLONG_MAX unhex chunked u64]. rewrite u64_small by lia. split; [| split; [done |]]; cbn -[unhex]; unfold ULLONG_MAX; lia.
  - intros k m Ek. replace (mark k _) with (mark k e) in Ek by by destruct k. by rewrite Un in Ek.
Qed.

Lemma chunk_size_ok e : entry s_chunk_size e -> post e (case_chunk_size e).
Proof.
  intros E. pose proof (entry_unmarked _ _ E eq_refl) as Un. destruct E as ([C O N _] & S & L). rewrite S in C. destruct C as (C & Ch & Cl).
  assert (forall e1, (forall k, mark k e1 = mark k e) -> core (p_state e1) (parser e1) -> errno (parser e1) = HPE_OK -> p_state e1 <> s_chunk_size_start -> p e1 = p e ->
    post e (Break e1)) as K.
  { intros e1 M1 C1 O1 N1 P1. split; [| lia]. split; [done | done | done |]. intros k m Ek. by rewrite M1, Un in Ek. }
  unfold case_chunk_size. apply assert_chunked_then; [done |].
  destruct (_ =? CR)%char; [apply K; [by intros [] | done..] |]. pose proof (unhex_range (ch e)). destruct (Z.eqb_spec (unhex (ch e)) (-1)).
  { destruct (_ || _); [apply K; [by intros [] | done..] | apply post_fail; [lia | done..]]. }
  destruct (Z.ltb_spec ((ULLONG_MAX - 16) / 16) (content_length (parser e))) as [G | G]; [apply post_fail; [lia | done..] |].
  change ((ULLONG_MAX - 16) / 16) with 1152921504606846974 in G. apply K; [by intros [] | | done | cbn; congruence | done].
  cbn -[ULLONG_MAX unhex chunked u64]. rewrite S, (u64_small (_ * 16)), u64_small by lia. split; [| split; [done |]]; cbn -[unhex]; unfold ULLONG_MAX; lia.
Qed.

Lemma chunk_parameters_ok e : entry s_chunk_parameters e -> post e (case_chunk_parameters e).
Proof.
  intros E. open_case E. destruct C as (C & Ch & Cl). unfold case_chunk_parameters. apply assert_chunked_then; [done |].
  split_tests; (split; [| cbn; lia]); (split; [by split | done | done | intros [] ?; done]).
Qed.

Lemma chunk_size_almost_done_ok e : entry s_chunk_size_almost_done e -> post e (case_chunk_size_almost_done settings e).
Proof.
  intros E. open_case E. destruct C as (C & Ch & Cl). unfold case_chunk_size_almost_done, STRICT_CHECK. apply assert_chunked_then; [done |].
  destruct (negb _); cbn [andthen]; [apply post_fail; [cbn; lia | done..] |]. cbn [parser set_nread on_parser set_parser].
  assert (forall e1, core (p_state e1) (parser e1) -> errno (parser e1) = HPE_OK -> p_state e1 <> s_chunk_size_start -> p e1 = i -> (forall k, mark k e1 = None) ->
    post (mk_exec q u s_chunk_size_almost_done n l i c None None None None None) (CALLBACK_NOTIFY (on_chunk_header settings) HPE_CB_chunk_header e1)) as K.
  { intros e1 C1 O1 N1 P1 M1. unfold CALLBACK_NOTIFY. rewrite <- (andthen_break (CALLBACK_NOTIFY_ _ _ _ _)).
    apply notify_then; [exact obeys_chunk_header | done | done | done | done | done | lia |]. intros e' R.
    split; [eapply ran_inv; [exact R | done | done | done | by intros j m _; rewrite M1] | rewrite (ran_p _ _ _ R); cbn; lia]. }
  destruct (Z.eqb_spec (content_length (set_nread_of 0 q)) 0) as [Z0 | Nz]; cbn in Z0 || cbn in Nz; apply K; try done; try (by intros []).
  cbn -[ULLONG_MAX chunked]. split; [exact C | split; [exact Ch | cbn; lia]].
Qed.

Lemma chunk_data_ok e : entry s_chunk_data e -> post e (case_chunk_data data e).
Proof.
  intros E. pose proof (entry_body _ _ E eq_refl) as M. destruct E as ([C O _ _] & S & L). rewrite S in C. destruct C as (C & Ch & Cl).
  unfold case_chunk_data. apply assert_chunked_then; [done |]. unfold assert_. rewrite length_known_ok by done. cbn [andthen].
  destruct (take_body_ok e Cl L M) as (Tc & Tp & Tm & Ts & To & Tf & _). assert (chunked (parser (take_body data e))) as Ch' by (unfold chunked, has; by rewrite Tf).
  generalize dependent (take_body data e). intros e1 Tc Tp Tm Ts To Tf Ch'.
  destruct (Z.eqb_spec (content_length (parser e1)) 0) as [Z0 | Nz]; (split; [| done]).
  - split; cbn [p_state UPDATE_STATE parser]; [split; [lia | done] | by rewrite To | done |].
    intros k m Ek. destruct (Tm k m) as [-> ?]; [by destruct k |]. cbn. split; [done | lia].
  - split; rewrite ?Ts, ?S, ?To; [split; [lia | split; [done | lia]] | done | done |].
    intros k m Ek. destruct (Tm k m Ek) as [-> ?]. rewrite Ts, S. split; [done | lia].
Qed.

Lemma chunk_data_almost_done_ok e : entry s_chunk_data_almost_done e -> post e (case_chunk_data_almost_done settings data e).
Proof.
  intros E. pose proof (entry_body _ _ E eq_refl) as M. destruct E as ([C O _ _] & S & L). rewrite S in C. destruct C as (C & Ch & Cl).
  unfold case_chunk_data_almost_done, STRICT_CHECK. apply assert_chunked_then; [done |]. unfold assert_. rewrite Cl. change (0 =? 0) with true. cbn [andthen].
  destruct (negb _); [apply post_fail; [lia | done..] |]. apply data_end_ok; [done | by split | done | cbn; lia |]. intros k m Ek. apply M. by destruct k.
Qed.

Lemma chunk_data_done_ok e : entry s_chunk_data_done e -> post e (case_chunk_data_done settings e).
Proof.
  intros E. open_case E. destruct C as (C & Ch). unfold case_chunk_data_done, STRICT_CHECK. apply assert_chunked_then; [done |].
  destruct (negb _); cbn [andthen]; [apply post_fail; [cbn; lia | done..] |]. unfold CALLBACK_NOTIFY.
  rewrite <- (andthen_break (CALLBACK_NOTIFY_ _ _ _ _)). apply notify_then; [exact obeys_chunk_complete | done | done | done | by split | done | cbn; lia |].
  intros e' R. split; [eapply ran_inv; [exact R | by split | done | done | intros [] ? _; done] | rewrite (ran_p _ _ _ R); cbn; lia].
Qed.

(** ** The loop *)

Lemma switch_ok e : inv 1 e -> (p e < length data)%nat -> post e (switch settings data e).
Proof.
  intros I L. assert (forall s, p_state e = s -> entry s e) as E by done. specialize (E _ eq_refl). unfold switch. destruct (p_state e) eqn:S.
  all: first [exact (dead_ok _ E) | exact (start_req_or_res_ok _ E) | exact (res_or_resp_H_ok _ E) | exact (start_res_ok _ E) | by apply (expect_ok _ _ _ _ E)
    | by apply (http_major_ok _ _ _ E) | by apply (http_minor_ok _ _ _ E) | by apply (http_dot_ok _ _ _ E) | exact (res_http_end_ok _ E)
    | exact (res_first_status_code_ok _ E) | exact (res_status_code_ok _ E) | exact (res_status_start_ok _ E) | exact (res_status_ok _ E)
    | exact (start_req_ok _ E) | exact (req_method_ok _ E) | exact (req_spaces_before_url_ok _ E) | by apply (req_schema_ok _ _ E) | by apply (req_url_ok _ _ E)
    | exact (req_http_start_ok _ E) | exact (req_http_end_ok _ E) | exact (req_line_almost_done_ok _ E) | exact (header_field_start_ok _ E)
    | exact (header_field_ok _ E) | exact (header_value_discard_ws_ok _ E) | exact (header_value_discard_lws_ok _ E) | by apply (value_start_ok _ _ E)
    | exact (header_value_ok _ E) | exact (header_value_lws_ok _ E) | exact (header_almost_done_ok _ E) | exact (chunk_size_start_ok _ E) | exact (chunk_size_ok _ E)
    | exact (chunk_parameters_ok _ E) | exact (chunk_size_almost_done_ok _ E) | exact (headers_almost_done_ok _ E) | exact (headers_done_ok _ E)
    | exact (chunk_data_ok _ E) | exact (chunk_data_almost_done_ok _ E) | exact (chunk_data_done_ok _ E) | exact (body_identity_ok _ E)
    | exact (body_identity_eof_ok _ E) | exact (message_done_ok _ E)].
Qed.

(** What is left of [post] when the switch is not run again. *)
Definition post_round e0 (o : out U) : Prop := match o with Reexecute _ => False | _ => post e0 o end.

Lemma reexecute_ok fuel e0 e : inv 1 e -> (p e0 <= p e < length data)%nat -> (rank (p_state e) < fuel)%nat -> post_round e0 (reexecute settings data fuel e).
Proof.
  revert e. induction fuel as [|fuel IH]; intros e I L R; [lia |]. cbn [reexecute]. pose proof (switch_ok e I (proj2 L)) as P.
  destruct (switch settings data e) as [e'|e'|v e'|v e'|e'|]; cbn in P |- *; try done.
  - split; [apply P | lia].
  - apply IH; [apply P | lia | lia].
Qed.

Lemma rank_bound s : (rank s < 5)%nat.
Proof. destruct s; cbn; lia. Qed.

Lemma round_safe e : inv 0 e -> (p e < length data)%nat -> post_round e (round settings data e).
Proof.
  intros [C O N M] L. unfold round. destruct (lookup_lt_is_Some_2 data (p e) L) as [c ->].
  destruct (PARSING_HEADER (p_state e)) eqn:H.
  - unfold COUNT_HEADER_SIZE. cbn [nread set_nread set_ch]. destruct (_ <? _); [split_and!; [cbn; lia | done | done] |]. cbn [andthen].
    apply reexecute_ok; [| cbn; lia | apply rank_bound]. split; [done | done | | done]. cbn. intros S. rewrite N by done. done.
  - apply reexecute_ok; [| cbn; lia | apply rank_bound]. split; [done | done | | done]. cbn. intros S. by rewrite S in H.
Qed.

(** At the end of the buffer. *)
Definition post_loop (o : out U) : Prop :=
  match o with Break e => inv 0 e /\ p e = length data | Reexecute _ => False | _ => forall e0, post e0 o end.

Lemma loop_ok fuel e : inv 0 e -> (p e <= length data)%nat -> (length data < p e + fuel)%nat -> post_loop (loop settings data fuel e).
Proof.
  revert e. induction fuel as [|fuel IH]; intros e I L F; [lia |]. cbn [loop]. destruct (Nat.eqb_spec (p e) (length data)) as [El | Nl]; [done |].
  pose proof (round_safe e I ltac:(lia)) as P. destruct (round settings data e) as [e'|e'|v e'|v e'|e'|]; try done; try (intros ?; exact P). cbn [andthen]. destruct P as [I' L'].
  apply IH; [| cbn; lia | cbn; lia]. destruct I' as [C' O' N' M']. split; [done | done | done |]. intros k m Ek. destruct (M' k m) as [A Lm]; [by destruct k |]. split; [done | cbn; lia].
Qed.

Lemma marks_one e : marked e -> (marks e <= 1)%nat.
Proof.
  intros M. unfold marks. pose proof (M header_field) as M1. pose proof (M header_value) as M2. pose proof (M url) as M3. pose proof (M body) as M4. pose proof (M status) as M5.
  cbn in *. destruct (header_field_mark e), (header_value_mark e), (url_mark e), (body_mark e), (status_mark e); try lia;
    repeat match goal with H : forall m, Some ?x = Some m -> _ |- _ => specialize (H x eq_refl) as [H _] end; congruence.
Qed.

Lemma leftovers_ok e0 e : inv 0 e -> p e = length data -> post e0 (leftovers settings data e).
Proof.
  intros I P. unfold leftovers, assert_. rewrite (proj2 (Nat.leb_le _ _) (marks_one e (inv_marked _ _ I))). cbn [andthen].
  assert (forall kd e1 (k : exec U -> out U), inv 0 e1 /\ p e1 = length data /\ (p_state e1 = s_chunk_size_start -> mark kd e1 = None) ->
    (forall e2, inv 0 e2 /\ p e2 = length data -> post e0 (k e2)) -> post e0 (andthen (CALLBACK_DATA_NOADVANCE settings data kd e1) k)) as K.
  { intros kd e1 k (I1 & P1 & N1) K. destruct (mark kd e1) as [m|] eqn:Em.
    - destruct I1 as [C1 O1 N1' M1]. apply data_then; [done | done | | lia | |].
      + intros S. by specialize (N1 S).
      + intros m' Em'. destruct (M1 _ _ Em') as [_ Lm]. lia.
      + intros e2 R. apply K. split; [| by rewrite (ran_p _ _ _ R)]. eapply ran_inv; [exact R | done | done | done | by intros j m' _ Ej; apply M1].
    - unfold CALLBACK_DATA_NOADVANCE, CALLBACK_DATA_, assert_, errno_ok. rewrite (bool_decide_true _ (inv_ok _ _ I1)). cbn [andthen]. rewrite Em. by apply K. }
  assert (forall kd e1, inv 0 e1 /\ p e1 = length data -> inv 0 e1 /\ p e1 = length data /\ (p_state e1 = s_chunk_size_start -> mark kd e1 = None)) as K'.
  { intros kd e1 [I1 P1]. split_and!; [done | done |]. intros S. destruct (mark kd e1) as [m|] eqn:Em; [| done]. destruct (inv_marked _ _ I1 _ _ Em) as [A _]. by rewrite S in A. }
  do 5 (apply K; [by apply K' |]; clear e I P; intros e [I P]). split_and!; [lia | | lia]. destruct I as [C O N _]. intros _. cbn. split; [exact C | exact N].
Qed.

Lemma starting_marks_ok e : core (p_state e) (parser e) -> errno (parser e) = HPE_OK -> (p_state e = s_chunk_size_start -> nread e = 0) -> (forall k, mark k e = None) ->
  inv 0 (starting_marks e).
Proof.
  intros C O N Un. assert (parser (starting_marks e) = parser e /\ p_state (starting_marks e) = p_state e /\ nread (starting_marks e) = nread e) as (E1 & E2 & E3)
    by (unfold starting_marks; by destruct (p_state e) eqn:S).
  split; rewrite ?E1, ?E2, ?E3; [done | done | done |]. intros k m. rewrite E2. unfold starting_marks.
  destruct (p_state e); try (by rewrite Un); rewrite mark_set_mark, Un; (case_bool_decide as K; [subst k | done]); intros [= <-]; (split; [done | cbn; lia]).
Qed.

Definition stops (o : out U) : Prop := match o with Break _ | Reexecute _ => False | _ => True end.

Lemma data_then_stops kd n er e (k : exec U -> out U) : (forall e, stops (k e)) -> stops (andthen (CALLBACK_DATA_ settings data kd n er e) k).
Proof.
  intros K. unfold CALLBACK_DATA_, assert_. destruct (errno_ok e); [| done]. cbn [andthen]. destruct (mark kd e) as [m|]; [| apply K].
  destruct (negb _); [done |]. destruct (data_cb settings kd) as [f|]; [| apply K]. cbn zeta. destruct (errno_ok _); [apply K | done].
Qed.

Lemma leftovers_stops e : stops (leftovers settings data e).
Proof. unfold leftovers, assert_. destruct (_ <=? _)%nat; [cbn [andthen] | done]. by repeat (apply data_then_stops; intros ?). Qed.

(** The exits of the function. *)
Lemma finish_returns e0 o : post e0 o -> stops o ->
  exists v q u, finish o = Some (v, q, u) /\ (v <= length data)%nat /\ ready q /\ ((v < length data)%nat -> errno q <> HPE_OK \/ upgrade q = true).
Proof.
  intros P N. destruct o as [e|e|v e|v e|e|]; try done; cbn in P |- *; eexists _, _, _; (split; [reflexivity |]).
  - done.
  - destruct P as (L & Er & R). split_and!; [done | done | by left].
  - destruct P as (L & E1 & E2). unfold errno_ok. rewrite bool_decide_false by done. cbn. split_and!; [done | | by left]. intros [Er | Er]; done.
Qed.

Lemma end_of_stream_ok e : core (p_state e) (parser e) -> errno (parser e) = HPE_OK -> (p_state e = s_chunk_size_start -> nread_of (parser e) = 0) -> state_of (parser e) = p_state e -> p e = 0%nat ->
  exists v q u, finish (end_of_stream settings e) = Some (v, q, u) /\ (v <= 1)%nat /\ ready q.
Proof.
  intros C O N S P. assert (ready (parser e)) as R by (intros _; rewrite S; by split).
  assert (forall er, er <> HPE_OK -> er <> HPE_PAUSED -> ready (parser (SET_ERRNO er e))) as Re by (intros er N1 N2 [E | E]; cbn in E; congruence).
  unfold end_of_stream. destruct (p_state e) eqn:Ps; try (eexists _, _, _; split; [reflexivity | split; [lia | first [exact R | by apply Re]]]).
  unfold CALLBACK_NOTIFY_NOADVANCE, CALLBACK_NOTIFY_, assert_, errno_ok at 1. rewrite (bool_decide_true _ O). cbn [andthen].
  destruct (on_message_complete settings) as [f|] eqn:Ef; [| eexists _, _, _; split; [reflexivity | split; [lia | exact R]]].
  destruct (after_callback_ok f HPE_CB_message_complete e (obeys_message_complete f Ef)) as [[E Rn] | (E & Ne & Rn)]; [done | done | done | by rewrite Ps | by rewrite Ps | |]; rewrite E; cbn [andthen finish].
  - eexists _, _, _; split; [reflexivity | split; [lia |]]. intros _. destruct Rn as [[-> | ->] _ _ _ _ _ _]; [by rewrite S | by cbn; rewrite Ps].
  - eexists _, _, _; split; [reflexivity | split; [| exact Rn]]. lia.
Qed.

(** [http_parser_execute] returns. *)
Lemma execute_ok q u : ready q ->
  exists v q' u', http_parser_execute settings data q u = Some (v, q', u') /\ (v <= length data \/ data = [] /\ v = 1)%nat /\ ready q' /\
    ((v < length data)%nat -> errno q' <> HPE_OK \/ upgrade q' = true).
Proof.
  intros R. unfold http_parser_execute. set (e := mk_exec q u (state_of q) (nread_of q) (lenient_http_headers q) 0 NUL None None None None None).
  unfold errno_ok. cbn [parser e]. case_bool_decide as O; cbn [negb].
  2: { exists 0%nat, q, u. split_and!; [done | lia | done | by left]. }
  destruct (R (or_introl O)) as [C N]. destruct (Nat.eqb_spec (length data) 0) as [Z | Nz].
  - apply length_zero_iff_nil in Z. destruct (end_of_stream_ok e) as (v & q' & u' & -> & L & R'); [done | done | exact N | done | done |]. subst data. exists v, q', u'. split_and!; [done | | done | cbn; lia].
    destruct v as [|[|]]; [left; cbn; lia | by right | lia].
  - assert (inv 0 (starting_marks e)) as I by (by apply starting_marks_ok; [| | | intros []]).
    assert (p (starting_marks e) = 0%nat) as Ep by (unfold starting_marks; by destruct (p_state e)).
    pose proof (loop_ok (S (length data)) (starting_marks e) I ltac:(lia) ltac:(lia)) as P.
    assert (exists v q' u', finish (andthen (loop settings data (S (length data)) (starting_marks e)) (leftovers settings data)) = Some (v, q', u') /\
      (v <= length data)%nat /\ ready q' /\ ((v < length data)%nat -> errno q' <> HPE_OK \/ upgrade q' = true)) as (v & q' & u' & E & L & R' & Up).
    { destruct (loop settings data _ (starting_marks e)) as [e1|e1|v e1|v e1|e1|]; cbn [andthen] in *; [| done | by apply (finish_returns e); [apply P |].. | destruct (P e)].
      destruct P as [I1 P1]. apply (finish_returns e); [by apply leftovers_ok |]. by apply leftovers_stops. }
    exists v, q', u'. split_and!; [done | by left | done | done].
Qed.

End safe.

(** ** What the callbacks keep

    The parser hands the object of the callbacks to the callbacks and to
    nobody else: what they all keep is kept by a call. *)
Section keeps.
Context {U : Type} (settings : http_parser_settings U) (data : bytes) (I : U -> Prop).
Implicit Types (e : exec U) (q : http_parser).

Definition keeps_cb (f : http_cb U) : Prop := forall q u, I u -> I (snd (f q u)).

Class Keeps : Prop := {
  keeps_message_begin f : on_message_begin settings = Some f -> keeps_cb f;
  keeps_headers_complete f : on_headers_complete settings = Some f -> keeps_cb f;
  keeps_message_complete f : on_message_complete settings = Some f -> keeps_cb f;
  keeps_chunk_header f : on_chunk_header settings = Some f -> keeps_cb f;
  keeps_chunk_complete f : on_chunk_complete settings = Some f -> keeps_cb f;
  keeps_data k f : data_cb settings k = Some f -> forall d, (length d <= length data)%nat -> keeps_cb (fun q => f q d) }.
Context {KP : Keeps}.

Definition kept (o : out U) : Prop := match o with Break e | Reexecute e | Return _ e | Leave _ e | Error e => I (user e) | Abort => True end.

Lemma kept_then o k : kept o -> (forall e, I (user e) -> kept (k e)) -> kept (andthen o k).
Proof. destruct o; cbn; auto. Qed.

Lemma kept_notify cb err er e : (forall f, cb = Some f -> keeps_cb f) -> I (user e) -> kept (CALLBACK_NOTIFY_ cb err er e).
Proof.
  intros K H. unfold CALLBACK_NOTIFY_, assert_. destruct (errno_ok e); [| done]. cbn [andthen]. destruct cb as [f|]; [| done].
  specialize (K f eq_refl (parser (on_parser (set_state (p_state e)) e)) (user e) H). unfold after_callback. destruct (errno_ok _); cbn; by destruct (_ =? 0).
Qed.

Lemma kept_data k nf er e : I (user e) -> kept (CALLBACK_DATA_ settings data k nf er e).
Proof.
  intros H. unfold CALLBACK_DATA_, assert_. destruct (errno_ok e); [| done]. cbn [andthen]. destruct (mark k e) as [m|]; [| done]. destruct (negb _); [done |].
  destruct (data_cb settings k) as [f|] eqn:Ef; [| done]. pose proof (keeps_data k f Ef (take (nf m) (drop m data)) ltac:(rewrite length_take, length_drop; lia) (parser (on_parser (set_state (p_state e)) e)) (user e) H) as K.
  unfold after_callback. destruct (errno_ok _); cbn; by destruct (_ =? 0).
Qed.

Lemma kept_mark k e : I (user e) -> I (user (MARK k e)).
Proof. unfold MARK. by destruct (mark k e). Qed.

Ltac keep := repeat (match goal with
  | |- kept (andthen _ _) => apply kept_then; [| intros]
  | |- kept (CALLBACK_NOTIFY_ _ _ _ _) => apply kept_notify; [first [exact keeps_message_begin | exact keeps_headers_complete | exact keeps_message_complete | exact keeps_chunk_header | exact keeps_chunk_complete] |]
  | |- kept (CALLBACK_DATA_ _ _ _ _ _ _) => apply kept_data
  | |- kept (if ?b then _ else _) => destruct b
  | |- kept (match on_headers_complete settings with _ => _ end) => destruct (on_headers_complete settings) eqn:?
  | |- kept (match ?x with _ => _ end) => destruct x
  | |- kept (let _ := _ in _) => cbv zeta
  | |- context [if ?b then _ else _] => destruct b
  | |- I (user (MARK _ _)) => apply kept_mark
  | E : on_headers_complete settings = Some ?f |- I (snd (?f _ _)) => apply (keeps_headers_complete f E)
  | |- _ => progress cbn [kept user set_user on_parser set_parser UPDATE_STATE set_nread set_p set_ch set_mark SET_ERRNO fail go again begin_message parser] in *
  end; try assumption; try exact Logic.I; try done).

Lemma kept_field_char c e : I (user e) -> kept (header_field_char data c e).
Proof. intros H. unfold header_field_char. keep. Qed.

Lemma kept_field_loop fuel e : I (user e) -> kept (header_field_loop data fuel e).
Proof.
  revert e. induction fuel as [|fuel IH]; intros e H; cbn [header_field_loop]; [done |].
  destruct (_ =? _)%nat; [done |]. destruct (data !! p e); [| done]. cbv zeta. match goal with |- kept (if ?b then _ else _) => destruct b end; [done |].
  apply kept_then; [by apply kept_field_char | intros e' H'; by apply IH].
Qed.

Lemma kept_count v e : I (user e) -> kept (COUNT_HEADER_SIZE v e).
Proof. intros H. unfold COUNT_HEADER_SIZE. keep. Qed.

Lemma kept_field e : I (user e) -> kept (case_header_field settings data e).
Proof.
  intros H. unfold case_header_field. apply kept_then; [by apply kept_field_loop | intros e1 H1].
  destruct (_ =? _)%nat; [by apply kept_count |]. apply kept_then; [by apply kept_count | intros e2 H2]. unfold CALLBACK_DATA. keep.
Qed.

Lemma kept_value_char h e (k : header_states -> exec U -> out U) : I (user e) -> (forall h e, I (user e) -> kept (k h e)) -> kept (header_value_char data h e k).
Proof.
  intros H K. unfold header_value_char. destruct h; repeat (match goal with |- kept (if ?b then _ else _) => destruct b end); try exact Logic.I; try exact H; by apply K.
Qed.

Lemma kept_value_loop fuel start h e : I (user e) -> kept (header_value_loop settings data fuel start h e).
Proof.
  assert (F : forall h e, I (user e) -> kept (header_value_end data start h e)).
  { intros h' e' H. unfold header_value_end. apply kept_count. by destruct (_ =? _)%nat. }
  revert h e. induction fuel as [|fuel IH]; intros h e H; cbn [header_value_loop]; [done |].
  destruct (_ =? _)%nat; [by apply F |]. destruct (data !! p e); [| done]. cbv zeta. match goal with |- kept (if ?b then _ else _) => destruct b end.
  { apply kept_then; [by apply kept_data | intros; by apply F]. }
  match goal with |- kept (if ?b then _ else _) => destruct b end.
  { apply kept_then; [by apply kept_count | intros]. apply kept_then; [by apply kept_data | done]. }
  destruct (_ && _); [done |]. apply kept_value_char; [done | intros; by apply IH].
Qed.

Lemma kept_switch e : I (user e) -> kept (switch settings data e).
Proof.
  intros H. unfold switch. destruct (p_state e); try done.
  all: try by apply kept_field.
  all: try by apply kept_value_loop.
  all: unfold case_dead, case_start_req_or_res, case_res_or_resp_H, case_start_res, case_http_major, case_http_dot, case_http_minor, case_res_http_end,
    case_res_first_status_code, case_res_status_code, case_res_status_start, case_res_status, case_start_req, case_req_method, case_req_spaces_before_url, case_req_schema, case_req_url,
    case_req_http_start, case_req_http_end, case_req_line_almost_done, case_header_field_start, case_header_value_discard_ws, case_header_value_start, case_header_almost_done,
    case_header_value_lws, case_header_value_discard_lws, case_headers_almost_done, case_headers_done, case_body_identity, case_body_identity_eof, case_message_done,
    case_chunk_size_start, case_chunk_size, case_chunk_parameters, case_chunk_size_almost_done, case_chunk_data, case_chunk_data_almost_done, case_chunk_data_done, expect,
    url_char, message_complete, take_body, STRICT_CHECK, assert_chunked, assert_, CALLBACK_NOTIFY, CALLBACK_NOTIFY_NOADVANCE, CALLBACK_DATA, CALLBACK_DATA_NOADVANCE; keep.
Qed.

Lemma kept_reexecute fuel e : I (user e) -> kept (reexecute settings data fuel e).
Proof.
  revert e. induction fuel as [|fuel IH]; intros e H; cbn [reexecute]; [done |].
  pose proof (kept_switch e H) as K. destruct (switch settings data e); try exact K. by apply IH.
Qed.

Lemma kept_loop fuel e : I (user e) -> kept (loop settings data fuel e).
Proof.
  revert e. induction fuel as [|fuel IH]; intros e H; cbn [loop]; [done |]. destruct (_ =? _)%nat; [done |].
  apply kept_then; [| intros; by apply IH]. unfold round. destruct (data !! p e); [| done].
  apply kept_then; [| intros; by apply kept_reexecute]. destruct (PARSING_HEADER _); [by apply kept_count | done].
Qed.

Lemma kept_execute q u r : I u -> http_parser_execute settings data q u = Some r -> I (snd r).
Proof.
  intros H. unfold http_parser_execute. destruct (negb _); [by intros [= <-] |].
  assert (F : forall o, kept o -> finish o = Some r -> I (snd r)).
  { intros o K. unfold finish. destruct o; try done; intros [= <-]; cbn; try done. by destruct (errno_ok _). }
  destruct (_ =? _)%nat; apply F.
  - unfold end_of_stream, CALLBACK_NOTIFY_NOADVANCE. keep.
  - apply kept_then; [apply kept_loop; unfold starting_marks; by destruct (p_state _) |].
    intros. unfold leftovers, assert_, CALLBACK_DATA_NOADVANCE. keep.
Qed.
End keeps.

(** ** Claims *)

Section claims.
Context {U : Type} (settings : http_parser_settings U).

(** What an application does with a parser: it gives it bytes, and wakes it up
    when it is paused. *)
Inductive action := Feed (data : bytes) | Resume.

Definition act (a : action) (q : http_parser) (u : U) : option (http_parser * U) :=
  match a with
  | Feed data => '(_, q, u) ← http_parser_execute settings data q u; Some (q, u)
  | Resume => if bool_decide (errno q = HPE_PAUSED) then q ← http_parser_pause false q; Some (q, u) else Some (q, u)
  end.
Fixpoint acts (l : list action) (q : http_parser) (u : U) : option (http_parser * U) :=
  match l with [] => Some (q, u) | a :: l => '(q, u) ← act a q u; acts l q u end.

Lemma init_ready t : ready (http_parser_init t).
Proof. intros _. split; [split; [done | by destruct t] |]. by destruct t. Qed.

Lemma act_ready `{!Obeys settings} a q u : ready q -> exists q' u', act a q u = Some (q', u') /\ ready q'.
Proof.
  intros R. destruct a as [data|]; cbn [act].
  - destruct (execute_ok settings data q u R) as (v & q' & u' & -> & _ & R' & _). cbn. eauto.
  - case_bool_decide as E; [| eauto]. destruct (R (or_intror E)) as [C N]. unfold http_parser_pause. rewrite E. cbn. eexists _, _. split; [reflexivity |]. intros _. cbn. by split.
Qed.

Lemma acts_ready `{!Obeys settings} l q u : ready q -> exists q' u', acts l q u = Some (q', u') /\ ready q'.
Proof.
  revert q u. induction l as [|a l IH]; intros q u R; cbn [acts]; [eauto |].
  destruct (act_ready a q u R) as (q' & u' & -> & R'). cbn. by apply IH.
Qed.

(** C12: a parser that has been initialised can be given any bytes in any
    pieces, with callbacks that fail or pause it as they like and with it being
    woken up again: no assertion fails, nothing outside the buffers is read or
    handed to a callback, and every call of [http_parser_execute] returns.  A
    call that accepts fewer bytes than it was given has set an error, or has
    seen a message that changes the protocol. *)
Theorem http_parser_safe `{!Obeys settings} t l u data : 
  exists q1 u1, acts l (http_parser_init t) u = Some (q1, u1) /\
    exists n q2 u2, http_parser_execute settings data q1 u1 = Some (n, q2, u2) /\
      (n <= length data \/ data = [] /\ n = 1)%nat /\ ((n < length data)%nat -> errno q2 <> HPE_OK \/ upgrade q2 = true).
Proof.
  destruct (acts_ready l (http_parser_init t) u (init_ready t)) as (q1 & u1 & E & R). exists q1, u1. split; [done |].
  destruct (execute_ok settings data q1 u1 R) as (n & q2 & u2 & E2 & L & _ & Up). by exists n, q2, u2.
Qed.
End claims.

(** ** Examples *)

(** Callbacks that pause the parser at the end of every message, and fail for
    every body. *)
Definition sample_settings : http_parser_settings nat :=
  mk_settings None None None None None None (Some (fun q _ u => (1, q, u))) (Some (fun q u => (0, default q (http_parser_pause true q), S u))) None None.

#[local] Instance sample_obeys : Obeys sample_settings.
Proof.
  split; try done; intros f [= <-] || (intros [] f [= <-]; intros d); intros q u; cbn; [| by left].
  destruct (http_parser_pause true q) as [q'|] eqn:E; [by right | by left].
Qed.

Definition sample_request : bytes := str_bytes "GET / HTTP/1.1" ++ [CR; LF; CR; LF].

Lemma http_parser_safe_witness : exists n q u, http_parser_execute sample_settings sample_request (http_parser_init HTTP_BOTH) 0%nat = Some (n, q, u) /\ (n <= 18)%nat.
Proof.
  destruct (http_parser_safe sample_settings HTTP_BOTH [] 0%nat sample_request) as (q1 & u1 & [= <- <-] & n & q & u & E & L & _). exists n, q, u. split; [done |].
  destruct L as [L | [L _]]; [exact L | discriminate L].
Defined.
End HttpParserSafe.
