(* ===== verification/HttpSplit.v ===== *)
(** The HTTP parser does not depend on the pieces in which its input comes.

    [http_parser_execute] reads the names and values of headers and the bodies
    in loops of their own, with [memchr] and with jumps over whole runs of
    bytes, and hands strings over in one call or in many.  The reference is
    the parser that gets one byte at a time.  For every client that treats the
    parts of a string as the string ([on_text_app]) the two agree: bytes that
    are accepted one by one are accepted in whatever pieces they come, with
    the same parser and the same client at the end.

    The converse does not hold: a control character in a value is refused when
    it is the first byte of a piece, and is jumped over otherwise. *)

From S2P Require Import Prelude HttpParser HttpParserSafe.

Module HttpSplit.
Import HttpParser HttpParserSafe.

(** ** Clients *)

Inductive note := message_begin | message_complete_ | chunk_header | chunk_complete.

(** What a callback may look at: all fields but the counter and the state,
    which the parser writes back only now and then. *)
Definition view (q : http_parser) : http_parser := set_nread_of 0 (set_state s_dead q).

(** A client never fails, does not pause and does not write to the parser, and
    it takes the parts of a string as it takes the whole ([on_text_app]), as a
    client does that appends them to what it has.  [verdict] is what it answers
    at the end of the headers.  The callbacks of [CodecHttp] are no such client:
    they take each part of a string for all of it, and [decode] hands them all
    bytes in one call. *)
Record client (U : Type) := mk_client {
  on_note : note -> http_parser -> U -> U;
  on_headers : http_parser -> U -> U;
  verdict : http_parser -> U -> Z;
  on_text : data_kind -> bytes -> U -> U;
  on_text_app k a b u : on_text k (a ++ b) u = on_text k b (on_text k a u) }.
#[global] Arguments on_note {_}.
#[global] Arguments on_headers {_}.
#[global] Arguments verdict {_}.
#[global] Arguments on_text {_}.
#[global] Arguments on_text_app {_}.

Section split.
Context {U : Type} (cl : client U).
Implicit Types (e eb : exec U) (q : http_parser) (u : U).

Definition note_cb (n : note) : http_cb U := fun q u => (0, q, on_note cl n (view q) u).
Definition text_cb (k : data_kind) : http_data_cb U := fun q d u => (0, q, on_text cl k d u).
Definition headers_cb : http_cb U := fun q u => (verdict cl (view q) u, q, on_headers cl (view q) u).

Definition settings_of : http_parser_settings U :=
  mk_settings (Some (note_cb message_begin)) (Some (text_cb url)) (Some (text_cb status)) (Some (text_cb header_field)) (Some (text_cb header_value))
    (Some headers_cb) (Some (text_cb body)) (Some (note_cb message_complete_)) (Some (note_cb chunk_header)) (Some (note_cb chunk_complete)).
#[local] Abbreviation st := settings_of.

Lemma data_cb_st k : data_cb st k = Some (text_cb k).
Proof. by destruct k. Qed.

(** ** Calls of the parser *)

(** A call that takes all bytes, sets no error and does not hand over to
    another protocol. *)
Definition accept (d : bytes) (q : http_parser) (u : U) : option (http_parser * U) :=
  match http_parser_execute st d q u with
  | Some (n, q', u') => if (n =? length d)%nat && bool_decide (errno q' = HPE_OK) && negb (upgrade q') then Some (q', u') else None
  | None => None
  end.

Fixpoint accept_all (ds : list bytes) (q : http_parser) (u : U) : option (http_parser * U) :=
  match ds with [] => Some (q, u) | d :: ds => '(q, u) ← accept d q u; accept_all ds q u end.

(** The reference: one byte at a time. *)
Definition one_by_one (d : bytes) (q : http_parser) (u : U) : option (http_parser * U) := accept_all ((fun c => [c]) <$> d) q u.

Lemma accept_all_app ds ds' q u : accept_all (ds ++ ds') q u = '(q, u) ← accept_all ds q u; accept_all ds' q u.
Proof. revert q u. induction ds as [|d ds IH]; intros q u; [done |]. cbn [accept_all app]. destruct (accept d q u) as [[q' u']|]; [apply IH | done]. Qed.

Lemma one_by_one_app d d' q u : one_by_one (d ++ d') q u = '(q, u) ← one_by_one d q u; one_by_one d' q u.
Proof. unfold one_by_one. by rewrite fmap_app, accept_all_app. Qed.

Lemma one_by_one_cons c d q u : one_by_one (c :: d) q u = '(q, u) ← accept [c] q u; one_by_one d q u.
Proof. done. Qed.

(** The callbacks of a client always go on. *)
Lemma notify_eval n err er e : errno (parser e) = HPE_OK ->
  CALLBACK_NOTIFY_ (Some (note_cb n)) err er e = Break (set_user (on_note cl n (view (parser e)) (user e)) (on_parser (set_state (p_state e)) e)).
Proof.
  intros O. unfold CALLBACK_NOTIFY_, assert_, errno_ok, after_callback. rewrite (bool_decide_true _ O). cbn -[view]. change (0 =? 0) with true. cbn -[view].
  by rewrite (bool_decide_true _ O).
Qed.

Lemma data_eval data kd nf er e m : errno (parser e) = HPE_OK -> mark kd e = Some m -> (m <= p e)%nat -> (m + nf m <= length data)%nat ->
  CALLBACK_DATA_ st data kd nf er e = Break (set_mark kd None (set_user (on_text cl kd (take (nf m) (drop m data)) (user e)) (on_parser (set_state (p_state e)) e))).
Proof.
  intros O M L1 L2. unfold CALLBACK_DATA_, assert_, errno_ok, after_callback. rewrite (bool_decide_true _ O). cbn [andthen].
  rewrite M, (proj2 (Nat.leb_le _ _) L1), (proj2 (Nat.leb_le _ _) L2). cbn [negb andb]. rewrite data_cb_st. cbn -[set_mark]. change (0 =? 0) with true. cbn -[set_mark].
  by rewrite (bool_decide_true _ O).
Qed.

Lemma data_eval_none data kd nf er e : errno (parser e) = HPE_OK -> mark kd e = None -> CALLBACK_DATA_ st data kd nf er e = Break e.
Proof. intros O M. unfold CALLBACK_DATA_, assert_, errno_ok. rewrite (bool_decide_true _ O). cbn [andthen]. by rewrite M. Qed.

(** ** Two runs side by side *)

(** The parsers of the two runs differ in what has not been written back. *)
Definition twin q qb : Prop := exists n s, qb = set_nread_of n (set_state s q).

Lemma twin_refl q : twin q q.
Proof. exists (nread_of q), (state_of q). by destruct q. Qed.

Lemma twin_on f q qb : twin q qb -> (forall n s, twin (f q) (f (set_nread_of n (set_state s q)))) -> twin (f q) (f qb).
Proof. intros (n & s & ->) F. apply F. Qed.

Lemma twin_view q qb : twin q qb -> view q = view qb.
Proof. by intros (n & s & ->). Qed.

(** What a run has read of a string and not handed over yet. *)
Definition text (data : bytes) (k : data_kind) (m : nat) (p : nat) (u : U) : U :=
  if (m =? p)%nat then u else on_text cl k (take (p - m) (drop m data)) u.

Lemma text_text data k m p p' u : (m <= p < p')%nat -> (p' <= length data)%nat ->
  on_text cl k (take (p' - p) (drop p data)) (text data k m p u) = text data k m p' u.
Proof.
  intros L1 L2. unfold text. destruct (Nat.eqb_spec m p') as [E | _]; [lia |]. destruct (Nat.eqb_spec m p) as [E | N]; [by subst |].
  rewrite <- on_text_app. f_equal. replace (p' - m)%nat with ((p - m) + (p' - p))%nat by lia. rewrite <- (take_take_drop _ (p - m) (p' - p)), drop_drop.
  do 3 f_equal. lia.
Qed.

Context (data : bytes).

Section byte.
Context (c : ascii).

Definition unmarked e : Prop := forall k, mark k e = None.

(** The marks and the clients of the two runs: the run on the whole buffer has
    a string to hand over that the other one has handed over already. *)
Definition texts (o : option data_kind) e eb : Prop :=
  match o with
  | None => unmarked e /\ unmarked eb /\ user eb = user e
  | Some k => exists m, mark k e = Some m /\ (m <= p e)%nat /\ (forall j, j <> k -> mark j e = None /\ mark j eb = None) /\
      user eb = text data k m (p e) (user e) /\ (mark k eb = Some 0%nat \/ k = body /\ mark k eb = None /\ (m < p e)%nat)
  end.

(** The run on the whole buffer, at the byte [i], and the run on this byte. *)
Record sim (o : option data_kind) (i : nat) e eb : Prop := {
  sim_twin : twin (parser e) (parser eb);
  sim_ok : errno (parser e) = HPE_OK;
  sim_state : p_state eb = p_state e;
  sim_nread : nread eb = nread e;
  sim_lenient : lenient eb = lenient e;
  sim_ch : ch eb = ch e;
  sim_pb : p eb = 0%nat;
  sim_p : p e = i;
  sim_i : (i < length data)%nat;
  sim_texts : texts o e eb;
  sim_range : 0 <= nread e <= HTTP_MAX_HEADER_SIZE;
  sim_strict : lenient e = lenient_http_headers (parser e) }.

(** The mark that a byte leaves in a state; only the cases that read several
    bytes leave the mark of a body. *)
Definition fits (s : state) (o : option data_kind) : Prop := match allowed s with Some body => o = None | a => o = a end.
Definition batch (s : state) : bool :=
  match s with s_header_field | s_header_value | s_body_identity | s_body_identity_eof | s_chunk_data => true | _ => false end.

(** The first run follows the second one, as long as that one succeeds. *)
Definition simO (i : nat) (o ob : out U) : Prop :=
  match ob with
  | Break eb => exists e k, o = Break e /\ sim k i e eb /\ fits (p_state e) k
  | Reexecute eb => exists e k, o = Reexecute e /\ sim k i e eb /\ fits (p_state e) k /\ batch (p_state e) = false
  | Return _ eb => errno (parser eb) <> HPE_OK \/ upgrade (parser eb) = true
  | Leave _ eb => errno (parser eb) <> HPE_OK
  | _ => True
  end.

Lemma simO_then i o ob k kb : match ob with Break eb => exists e, o = Break e /\ simO i (k e) (kb eb) | _ => simO i o ob end -> simO i (andthen o k) (andthen ob kb).
Proof. destruct ob as [eb|eb|v eb|v eb|eb|]; cbn [andthen]; try done; [by intros (e & -> & H) |]. intros (e & k' & -> & H). by exists e, k'. Qed.

Lemma sim_on o i e eb f fb : sim o i e eb -> (forall q n s, twin (f q) (fb (set_nread_of n (set_state s q)))) -> (forall q, errno (f q) = errno q /\ lenient_http_headers (f q) = lenient_http_headers q) ->
  sim o i (on_parser f e) (on_parser fb eb).
Proof.
  intros [(n & s & T) O S N Le Ch Pb P I Tx Rg Ln] F Fe. split; try done; cbn; [rewrite T; apply F | by rewrite (proj1 (Fe _)) | by rewrite (proj2 (Fe _))].
Qed.

Lemma sim_update o i e eb s : sim o i e eb -> sim o i (UPDATE_STATE s e) (UPDATE_STATE s eb).
Proof. intros [T O S N Le Ch Pb P I Tx Rg Ln]. by split. Qed.

Lemma sim_set_nread o i e eb n : sim o i e eb -> 0 <= n <= HTTP_MAX_HEADER_SIZE -> sim o i (set_nread n e) (set_nread n eb).
Proof. intros [T O S N Le Ch Pb P I Tx Rg Ln] Rn. by split. Qed.

Lemma go_sim o i e eb s : sim o i e eb -> fits s o -> simO i (go s e) (go s eb).
Proof. intros S F. eexists _, o. split; [reflexivity |]. split; [by apply sim_update | done]. Qed.

Lemma again_sim o i e eb s : sim o i e eb -> fits s o /\ batch s = false -> simO i (again s e) (again s eb).
Proof. intros S F. eexists _, o. split; [reflexivity |]. split; [by apply sim_update | done]. Qed.

Lemma break_sim o i e eb : sim o i e eb -> fits (p_state e) o -> simO i (Break e) (Break eb).
Proof. intros S F. by eexists _, o. Qed.

(** The call of a notification when no string is open. *)
Lemma notify_sim n err er erb i e eb k kb : sim None i e eb ->
  (forall e' eb', sim None i e' eb' -> p_state e' = p_state e -> upgrade (parser e') = upgrade (parser e) -> upgrade (parser eb') = upgrade (parser eb) -> simO i (k e') (kb eb')) ->
  simO i (andthen (CALLBACK_NOTIFY_ (Some (note_cb n)) err er e) k) (andthen (CALLBACK_NOTIFY_ (Some (note_cb n)) err erb eb) kb).
Proof.
  intros [(x & y & T) O St N Le Ch Pb P I (Un & Unb & Eu) Rg Ln] K. rewrite !notify_eval by (rewrite ?T; done). cbn [andthen]. apply K; try done.
  split; try done; cbn -[view].
  - rewrite T, St. by exists x, (p_state e).
  - split_and!; [done | done |]. cbn -[view]. by rewrite Eu, T.
Qed.

(** The end of a string. *)
Lemma data_sim kd i e eb k kb nf nfb er erb : sim (Some kd) i e eb \/ sim None i e eb -> (forall m, nf m = p e - m)%nat -> (forall m, nfb m = p eb - m)%nat ->
  (forall e' eb', sim None i e' eb' -> p_state e' = p_state e -> simO i (k e') (kb eb')) ->
  simO i (andthen (CALLBACK_DATA_ st data kd nf er e) k) (andthen (CALLBACK_DATA_ st [c] kd nfb erb eb) kb).
Proof.
  intros Ss Nf Nfb K. destruct Ss as [[(x & y & T) O St N Le Ch Pb P I (m & Em & Lm & Mj & Eu & Mb) Rg Ln] | S].
  2: { pose proof S as [(x & y & T) O _ _ _ _ _ _ _ (Un & Unb & Eu) _ _]. rewrite !data_eval_none by (rewrite ?T; done). cbn [andthen]. by apply K. }
  rewrite (data_eval data kd nf er e m) by (rewrite ?Nf; done || lia). rewrite Nf. cbn [andthen].
  assert (forall u eb', parser eb' = parser eb \/ parser eb' = set_state (p_state eb) (parser eb) -> u = on_text cl kd (take (p e - m) (drop m data)) (user e) -> unmarked eb' ->
    user eb' = u -> p_state eb' = p_state eb -> nread eb' = nread eb -> lenient eb' = lenient eb -> ch eb' = ch eb -> p eb' = p eb ->
    simO i (k (set_mark kd None (set_user u (on_parser (set_state (p_state e)) e)))) (kb eb')) as Kx.
  { intros u eb' Pe -> Un E1 E2 E3 E4 E5 E6. apply K; [| done].
    split; [| exact O | exact (eq_trans E2 St) | exact (eq_trans E3 N) | exact (eq_trans E4 Le) | exact (eq_trans E5 Ch) | exact (eq_trans E6 Pb) | exact P | exact I | | exact Rg | exact Ln].
    - destruct Pe as [-> | ->]; rewrite T; cbn; by eexists _, _.
    - split_and!; [| done | done]. intros j. rewrite mark_set_mark. case_bool_decide; [done |]. by apply Mj. }
  destruct Mb as [Mb | (-> & Mb & Lm')].
  - rewrite (data_eval [c] kd nfb erb eb 0) by (rewrite ?Nfb, ?T; cbn; done || lia). rewrite Nfb, Pb. cbn [andthen]. apply Kx; cbn -[set_mark]; try done; [by right | |].
    + intros j. rewrite mark_set_mark. case_bool_decide; [done |]. by apply Mj.
    + rewrite Eu. unfold text. destruct (Nat.eqb_spec m (p e)) as [E | _]; [by rewrite E, Nat.sub_diag | by rewrite <- on_text_app, app_nil_r].
  - rewrite data_eval_none by (rewrite ?T; done). cbn [andthen]. apply Kx; try done; [by left | |].
    + intros j. destruct (decide (j = body)) as [-> | Nj]; [done | by apply Mj].
    + rewrite Eu. unfold text. destruct (Nat.eqb_spec m (p e)); [lia | done].
Qed.

(** ** The cases of one byte *)

Lemma twin_intro q qb : type q = type qb -> flags q = flags qb -> header_state q = header_state qb -> index q = index qb ->
  lenient_http_headers q = lenient_http_headers qb -> content_length q = content_length qb -> http_major q = http_major qb -> http_minor q = http_minor qb ->
  status_code q = status_code qb -> method q = method qb -> errno q = errno qb -> upgrade q = upgrade qb -> twin q qb.
Proof. intros. exists (nread_of qb), (state_of qb). destruct q, qb; cbn in *; subst; done. Qed.

(** Takes both runs apart when no string is open. *)
Ltac open_sim S e eb :=
  let O := fresh "O" in let I := fresh "I" in let Un := fresh "Un" in let Unb := fresh "Unb" in
  destruct S as [(nr & sr & ?) O ? ? ? ? ? ? I (Un & Unb & ?) Rg Ln];
  pose proof (Un header_field); pose proof (Un header_value); pose proof (Un url); pose proof (Un body); pose proof (Un status);
  pose proof (Unb header_field); pose proof (Unb header_value); pose proof (Unb url); pose proof (Unb body); pose proof (Unb status); clear Un Unb;
  destruct e as [q u ps n l j x m1 m2 m3 m4 m5], eb as [qb ub psb nb lb jb xb b1 b2 b3 b4 b5]; cbn in *; subst.

Ltac both := repeat match goal with |- simO _ (if ?b then _ else _) (if ?b' then _ else _) => replace b' with b by reflexivity; destruct b eqn:? end.

Lemma notify_break_sim n err er erb i e eb : sim None i e eb -> fits (p_state e) None ->
  simO i (CALLBACK_NOTIFY_ (Some (note_cb n)) err er e) (CALLBACK_NOTIFY_ (Some (note_cb n)) err erb eb).
Proof.
  intros S F. rewrite <- (andthen_break (CALLBACK_NOTIFY_ _ _ er e)), <- (andthen_break (CALLBACK_NOTIFY_ _ _ erb eb)). apply notify_sim; [done |].
  intros e' eb' S' E _ _. apply (break_sim None); [done | by rewrite E].
Qed.

Lemma data_break_sim kd i e eb : sim (Some kd) i e eb \/ sim None i e eb -> fits (p_state e) None ->
  simO i (CALLBACK_DATA st data kd e) (CALLBACK_DATA st [c] kd eb).
Proof.
  intros S F. rewrite <- (andthen_break (CALLBACK_DATA st data kd e)), <- (andthen_break (CALLBACK_DATA st [c] kd eb)). apply data_sim; [done | done | done |].
  intros e' eb' S' E. apply (break_sim None); [done | by rewrite E].
Qed.

(** A pair of ends: the parsers agree, and no string is open. *)
Ltac sim_now := split; try done; [by apply twin_intro | split_and!; try done; intros []; done].
Ltac sim_leaf := first [done | apply notify_break_sim; [sim_now | done] | eexists _, None; split; [reflexivity |]; split; [sim_now | done]].
Ltac sim_case S e eb := open_sim S e eb; both; sim_leaf.

Lemma dead_sim i e eb : p_state e = s_dead -> sim None i e eb -> simO i (case_dead e) (case_dead eb).
Proof. intros Es S. unfold case_dead. sim_case S e eb. Qed.

Lemma start_req_or_res_sim i e eb : p_state e = s_start_req_or_res -> sim None i e eb -> simO i (case_start_req_or_res st e) (case_start_req_or_res st eb).
Proof. intros Es S. unfold case_start_req_or_res. sim_case S e eb. Qed.

Lemma res_or_resp_H_sim i e eb : p_state e = s_res_or_resp_H -> sim None i e eb -> simO i (case_res_or_resp_H e) (case_res_or_resp_H eb).
Proof. intros Es S. unfold case_res_or_resp_H. sim_case S e eb. Qed.

Lemma start_res_sim i e eb : p_state e = s_start_res -> sim None i e eb -> simO i (case_start_res st e) (case_start_res st eb).
Proof. intros Es S. unfold case_start_res. sim_case S e eb. Qed.

Lemma expect_sim x s i e eb : fits s None -> sim None i e eb -> simO i (expect x s e) (expect x s eb).
Proof. intros F S. unfold expect, STRICT_CHECK. rewrite (sim_ch _ _ _ _ S). destruct (negb _); [done |]. by eapply go_sim. Qed.

Lemma http_major_sim s i e eb : fits s None -> sim None i e eb -> simO i (case_http_major s e) (case_http_major s eb).
Proof. intros F S. unfold case_http_major. sim_case S e eb. Qed.

Lemma http_minor_sim s i e eb : fits s None -> sim None i e eb -> simO i (case_http_minor s e) (case_http_minor s eb).
Proof. intros F S. unfold case_http_minor. sim_case S e eb. Qed.

Lemma http_dot_sim s i e eb : fits s None -> sim None i e eb -> simO i (case_http_dot s e) (case_http_dot s eb).
Proof. intros F S. unfold case_http_dot. sim_case S e eb. Qed.

Lemma res_http_end_sim i e eb : p_state e = s_res_http_end -> sim None i e eb -> simO i (case_res_http_end e) (case_res_http_end eb).
Proof. intros Es S. unfold case_res_http_end. sim_case S e eb. Qed.

Lemma res_first_status_code_sim i e eb : p_state e = s_res_first_status_code -> sim None i e eb -> simO i (case_res_first_status_code e) (case_res_first_status_code eb).
Proof. intros Es S. unfold case_res_first_status_code. sim_case S e eb. Qed.

Lemma res_status_code_sim i e eb : p_state e = s_res_status_code -> sim None i e eb -> simO i (case_res_status_code e) (case_res_status_code eb).
Proof. intros Es S. unfold case_res_status_code. sim_case S e eb. Qed.

Lemma req_http_start_sim i e eb : p_state e = s_req_http_start -> sim None i e eb -> simO i (case_req_http_start e) (case_req_http_start eb).
Proof. intros Es S. unfold case_req_http_start. sim_case S e eb. Qed.

Lemma req_http_end_sim i e eb : p_state e = s_req_http_end -> sim None i e eb -> simO i (case_req_http_end e) (case_req_http_end eb).
Proof. intros Es S. unfold case_req_http_end. sim_case S e eb. Qed.

Lemma req_line_almost_done_sim i e eb : p_state e = s_req_line_almost_done -> sim None i e eb -> simO i (case_req_line_almost_done e) (case_req_line_almost_done eb).
Proof. intros Es S. unfold case_req_line_almost_done. sim_case S e eb. Qed.

Lemma header_almost_done_sim i e eb : p_state e = s_header_almost_done -> sim None i e eb -> simO i (case_header_almost_done e) (case_header_almost_done eb).
Proof. intros Es S. unfold case_header_almost_done. sim_case S e eb. Qed.

Lemma start_req_sim i e eb : p_state e = s_start_req -> sim None i e eb -> simO i (case_start_req st e) (case_start_req st eb).
Proof.
  intros Es S. open_sim S e eb. unfold case_start_req. both; [sim_leaf | sim_leaf |]. cbn [ch on_parser begin_message set_parser].
  destruct (first_method x); [sim_leaf | done].
Qed.

Lemma req_method_sim i e eb : p_state e = s_req_method -> sim None i e eb -> simO i (case_req_method e) (case_req_method eb).
Proof.
  intros Es S. open_sim S e eb. unfold case_req_method. cbn [ch parser method index set_nread_of set_state]. both; [done |].
  destruct (c_at _ _) as [y|]; [| done]. destruct (_ && _); [sim_leaf |]. destruct (x =? y)%char; [sim_leaf |]. destruct (_ || _); [| done].
  destruct (other_method _ _ _); [sim_leaf | done].
Qed.

(** A string begins. *)
Lemma mark_sim k i e eb : sim None i e eb -> sim (Some k) i (MARK k e) (MARK k eb).
Proof.
  intros [T O St N Le Ch Pb P I (Un & Unb & Eu) Rg Ln]. unfold MARK. rewrite (Un k), (Unb k). split; try done. exists (p e). rewrite !mark_set_mark, bool_decide_true by done.
  split_and!; [done | done | | cbn -[set_mark]; unfold text; by rewrite Nat.eqb_refl | left; by rewrite Pb].
  intros j Nj. rewrite !mark_set_mark, bool_decide_false by congruence. by rewrite (Un j), (Unb j).
Qed.

Lemma res_status_start_sim i e eb : p_state e = s_res_status_start -> sim None i e eb -> simO i (case_res_status_start e) (case_res_status_start eb).
Proof.
  intros Es S. unfold case_res_status_start.
  assert (sim (Some status) i (on_parser (set_index 0) (UPDATE_STATE s_res_status (MARK status e))) (on_parser (set_index 0) (UPDATE_STATE s_res_status (MARK status eb)))) as S'.
  { apply sim_on; [by apply sim_update, mark_sim | by intros; apply twin_intro | done]. }
  rewrite (sim_ch _ _ _ _ S'). destruct (_ || _); eexists _, (Some status); (split; [reflexivity | split; [done | done]]).
Qed.

Lemma res_status_sim i e eb : p_state e = s_res_status -> sim (Some status) i e eb -> simO i (case_res_status st data e) (case_res_status st [c] eb).
Proof.
  intros Es S. unfold case_res_status. rewrite (sim_ch _ _ _ _ S). both.
  - apply data_break_sim; [left; by apply sim_update | done].
  - apply data_break_sim; [left; by apply sim_update | done].
  - apply (break_sim (Some status)); [done | by rewrite Es].
Qed.

Lemma url_char_sim i e eb : sim (Some url) i e eb -> simO i (url_char e) (url_char eb).
Proof.
  intros S. unfold url_char. cbn [p_state UPDATE_STATE]. rewrite (sim_ch _ _ _ _ S), (sim_state _ _ _ _ S). case_bool_decide as D; [done |].
  apply (break_sim (Some url)); [by apply sim_update |]. cbn [p_state UPDATE_STATE]. unfold fits. destruct (parse_url_char_states (p_state e) (ch e)) as [E | A%bool_decide_eq_true]; [done |].
  by rewrite A.
Qed.

Lemma req_spaces_before_url_sim i e eb : p_state e = s_req_spaces_before_url -> sim None i e eb ->
  simO i (case_req_spaces_before_url e) (case_req_spaces_before_url eb).
Proof.
  intros Es S. unfold case_req_spaces_before_url. rewrite (sim_ch _ _ _ _ S). both; [apply (break_sim None); [done | by rewrite Es] |].
  pose proof (mark_sim url _ _ _ S) as S'. apply url_char_sim. destruct (sim_twin _ _ _ _ S') as (n & s & T).
  replace (bool_decide (method (parser (MARK url eb)) = HTTP_CONNECT)) with (bool_decide (method (parser (MARK url e)) = HTTP_CONNECT)) by by rewrite T.
  destruct (bool_decide _); [by apply sim_update | done].
Qed.

Lemma req_schema_sim i e eb : sim (Some url) i e eb -> simO i (case_req_schema e) (case_req_schema eb).
Proof. intros S. unfold case_req_schema. rewrite (sim_ch _ _ _ _ S). both; [done | by apply url_char_sim]. Qed.

Lemma req_url_sim i e eb : sim (Some url) i e eb -> simO i (case_req_url st data e) (case_req_url st [c] eb).
Proof.
  intros S. unfold case_req_url. rewrite (sim_ch _ _ _ _ S). both.
  - apply data_break_sim; [left; by apply sim_update | done].
  - replace (ch (on_parser _ eb)) with (ch (on_parser (fun q => set_http_minor 9 (set_http_major 0 q)) e)) by (cbn; by rewrite (sim_ch _ _ _ _ S)).
    apply data_break_sim; [left; apply sim_update, sim_on; [done | by intros; apply twin_intro | done] |]. cbn. by destruct (_ =? CR)%char.
  - by apply url_char_sim.
Qed.

Lemma header_field_start_sim i e eb : p_state e = s_header_field_start -> sim None i e eb -> simO i (case_header_field_start e) (case_header_field_start eb).
Proof.
  intros Es S. unfold case_header_field_start. rewrite (sim_ch _ _ _ _ S). both; [by eapply go_sim | by eapply again_sim | done |].
  apply (break_sim (Some header_field)); [| done]. apply sim_on; [| by intros; apply twin_intro | done]. apply sim_update, sim_on; [by apply mark_sim | by intros; apply twin_intro | done].
Qed.

Lemma value_start_sim i e eb : sim None i e eb -> simO i (case_header_value_start e) (case_header_value_start eb).
Proof.
  intros S. unfold case_header_value_start.
  assert (sim (Some header_value) i (on_parser (set_index 0) (UPDATE_STATE s_header_value (MARK header_value e))) (on_parser (set_index 0) (UPDATE_STATE s_header_value (MARK header_value eb)))) as S'.
  { apply sim_on; [by apply sim_update, mark_sim | by intros; apply twin_intro | done]. }
  set (e1 := on_parser _ (UPDATE_STATE s_header_value (MARK header_value e))) in *. set (eb1 := on_parser _ (UPDATE_STATE s_header_value (MARK header_value eb))) in *.
  assert (p_state e1 = s_header_value) as E1 by done. clearbody e1 eb1.
  assert (forall f fb, (forall q n s, twin (f q) (fb (set_nread_of n (set_state s q)))) -> (forall q, errno (f q) = errno q /\ lenient_http_headers (f q) = lenient_http_headers q) ->
    simO i (Break (on_parser f e1)) (Break (on_parser fb eb1))) as K.
  { intros f fb F Fe. apply (break_sim (Some header_value)); [by apply sim_on |]. cbn. by rewrite E1. }
  assert (header_state (parser eb1) = header_state (parser e1) /\ has F_CONTENTLENGTH (parser eb1) = has F_CONTENTLENGTH (parser e1)) as [-> ->].
  { destruct (sim_twin _ _ _ _ S') as (n & s & ->). done. }
  rewrite (sim_ch _ _ _ _ S'). destruct (header_state (parser e1)); try (by apply K; [intros; apply twin_intro | done]).
  - destruct (negb _); [done |]. destruct (has _ _); [done |]. by apply K; [intros; apply twin_intro | done].
  - apply (break_sim (Some header_value)); [done | by rewrite E1].
Qed.

Lemma header_value_discard_ws_sim i e eb : p_state e = s_header_value_discard_ws -> sim None i e eb -> simO i (case_header_value_discard_ws e) (case_header_value_discard_ws eb).
Proof.
  intros Es S. unfold case_header_value_discard_ws. rewrite (sim_ch _ _ _ _ S). both;
    [apply (break_sim None); [done | by rewrite Es] | by eapply go_sim | by eapply go_sim | by apply value_start_sim].
Qed.

Lemma value_flag_twin q n s : twin (value_flag q) (value_flag (set_nread_of n (set_state s q))).
Proof. unfold value_flag. cbn. by destruct (header_state q); apply twin_intro. Qed.

Lemma value_flag_errno q : errno (value_flag q) = errno q /\ lenient_http_headers (value_flag q) = lenient_http_headers q.
Proof. unfold value_flag. by destruct (header_state q). Qed.

Lemma header_value_lws_sim i e eb : p_state e = s_header_value_lws -> sim None i e eb -> simO i (case_header_value_lws e) (case_header_value_lws eb).
Proof.
  intros Es S. unfold case_header_value_lws. rewrite (sim_ch _ _ _ _ S). both; [by eapply again_sim |].
  eapply again_sim; [apply sim_on; [exact S | apply value_flag_twin | apply value_flag_errno] | done].
Qed.

Lemma header_value_discard_lws_sim i e eb : p_state e = s_header_value_discard_lws -> sim None i e eb ->
  simO i (case_header_value_discard_lws st data e) (case_header_value_discard_lws st [c] eb).
Proof.
  intros Es S. unfold case_header_value_discard_lws. rewrite (sim_ch _ _ _ _ S). both; [by eapply go_sim |].
  apply data_sim; [left; apply sim_update, mark_sim, sim_on; [exact S | apply value_flag_twin | apply value_flag_errno] | done | done |].
  intros e' eb' S' E. eexists _, None. split; [reflexivity | split; [done | by rewrite E]].
Qed.

Lemma new_message_fits q : fits (NEW_MESSAGE q) None.
Proof. unfold NEW_MESSAGE, start_state. destruct (http_should_keep_alive q); [by case_bool_decide | done]. Qed.

Lemma message_complete_sim i e eb k kb : sim None i e eb ->
  (forall e' eb', sim None i e' eb' -> p_state e' = NEW_MESSAGE (parser e) -> upgrade (parser e') = upgrade (parser e) -> upgrade (parser eb') = upgrade (parser eb) -> simO i (k e') (kb eb')) ->
  simO i (andthen (message_complete st e) k) (andthen (message_complete st eb) kb).
Proof.
  intros S K. unfold message_complete. destruct (sim_twin _ _ _ _ S) as (n & s & T). replace (NEW_MESSAGE (parser eb)) with (NEW_MESSAGE (parser e)) by by rewrite T.
  apply notify_sim; [by apply sim_update |]. done.
Qed.

Lemma message_complete_break_sim i e eb : sim None i e eb -> simO i (message_complete st e) (message_complete st eb).
Proof.
  intros S. rewrite <- (andthen_break (message_complete st e)), <- (andthen_break (message_complete st eb)). apply message_complete_sim; [done |].
  intros e' eb' S' E _ _. apply (break_sim None); [done |]. rewrite E. apply new_message_fits.
Qed.

Lemma message_done_sim i e eb : p_state e = s_message_done -> sim None i e eb -> simO i (case_message_done st e) (case_message_done st eb).
Proof.
  intros Es S. unfold case_message_done. apply message_complete_sim; [done |]. intros e' eb' S' E _ _.
  destruct (sim_twin _ _ _ _ S') as (n & s & T). destruct (upgrade (parser eb')) eqn:Up; [by right |]. assert (upgrade (parser e') = false) as -> by by rewrite T in Up.
  apply (break_sim None); [done |]. rewrite E. apply new_message_fits.
Qed.

Lemma headers_almost_done_sim i e eb : p_state e = s_headers_almost_done -> sim None i e eb -> simO i (case_headers_almost_done st e) (case_headers_almost_done st eb).
Proof.
  intros Es S. unfold case_headers_almost_done, STRICT_CHECK. rewrite (sim_ch _ _ _ _ S). destruct (negb (ch e =? LF)%char); [done |]. cbn [andthen].
  destruct (sim_twin _ _ _ _ S) as (n & s & T). replace (has F_TRAILING (parser eb)) with (has F_TRAILING (parser e)) by by rewrite T.
  replace (has F_CHUNKED (parser eb)) with (has F_CHUNKED (parser e)) by by rewrite T. replace (has F_CONTENTLENGTH (parser eb)) with (has F_CONTENTLENGTH (parser e)) by by rewrite T.
  both.
  { apply notify_sim; [by apply sim_update |]. intros e' eb' S' E _ _. eexists _, None. split; [reflexivity | split; [done | by rewrite E]]. }
  { done. }
  set (f := fun q => set_upgrade _ q). assert (sim None i (on_parser f (UPDATE_STATE s_headers_done e)) (on_parser f (UPDATE_STATE s_headers_done eb))) as S1.
  { apply sim_on; [by apply sim_update | by intros; apply twin_intro | done]. }
  set (e1 := on_parser f (UPDATE_STATE s_headers_done e)) in *. set (eb1 := on_parser f (UPDATE_STATE s_headers_done eb)) in *.
  assert (p_state e1 = s_headers_done) as E1 by done. clearbody e1 eb1. clear f T n s. destruct S1 as [(n & s & T) O St N Le Ch Pb P I (Un & Unb & Eu) Rg Ln].
  cbn [on_headers_complete settings_of]. unfold headers_cb. cbn [fst snd].
  replace (verdict cl (view (parser eb1)) (user eb1)) with (verdict cl (view (parser e1)) (user e1)) by by rewrite Eu, T.
  replace (on_headers cl (view (parser eb1)) (user eb1)) with (on_headers cl (view (parser e1)) (user e1)) by by rewrite Eu, T.
  assert (forall g u, (forall q n s, twin (g q) (g (set_nread_of n (set_state s q)))) -> (forall q, errno (g q) = errno q /\ lenient_http_headers (g q) = lenient_http_headers q) ->
    simO i (if negb (errno_ok (on_parser g (set_user u (set_parser (parser e1) e1)))) then Return (p (on_parser g (set_user u (set_parser (parser e1) e1)))) (on_parser g (set_user u (set_parser (parser e1) e1)))
            else Reexecute (on_parser g (set_user u (set_parser (parser e1) e1))))
           (if negb (errno_ok (on_parser g (set_user u (set_parser (parser eb1) eb1)))) then Return (p (on_parser g (set_user u (set_parser (parser eb1) eb1)))) (on_parser g (set_user u (set_parser (parser eb1) eb1)))
            else Reexecute (on_parser g (set_user u (set_parser (parser eb1) eb1))))) as K.
  { intros g u G Ge. unfold errno_ok. cbn. rewrite T, (proj1 (Ge _)), (proj1 (Ge _)). cbn. rewrite (bool_decide_true _ O). cbn [negb]. eexists _, None. split; [reflexivity |].
    split; [| cbn; by rewrite E1]. apply sim_on; [| done | done]. by split; [exists n, s |..]. }
  set (v := verdict _ _ _). set (u := on_headers _ _ _).
  destruct (v =? 0); [cbn [andthen]; exact (K id u (fun q n s => ltac:(by eexists _, _)) (fun q => conj eq_refl eq_refl)) |].
  destruct (v =? 2); [cbn [andthen]; by apply (K (fun q => add_flag F_SKIPBODY (set_upgrade true q)) u); [intros; apply twin_intro |] |].
  destruct (v =? 1); [cbn [andthen]; by apply (K (add_flag F_SKIPBODY) u); [intros; apply twin_intro |] |]. cbn. by left.
Qed.

Lemma headers_done_sim i e eb : p_state e = s_headers_done -> sim None i e eb -> simO i (case_headers_done st e) (case_headers_done st eb).
Proof.
  intros Es S. unfold case_headers_done, STRICT_CHECK. rewrite (sim_ch _ _ _ _ S). destruct (negb (ch e =? LF)%char); [done |]. cbn [andthen].
  assert (sim None i (set_nread 0 (on_parser (set_nread_of 0) e)) (set_nread 0 (on_parser (set_nread_of 0) eb))) as S1.
  { apply sim_set_nread; [| done]. apply sim_on; [done | by intros; apply twin_intro | done]. }
  set (e1 := set_nread 0 _) in *. set (eb1 := set_nread 0 (on_parser _ eb)) in *. clearbody e1 eb1. destruct (sim_twin _ _ _ _ S1) as (n & s & T).
  rewrite T. cbn [upgrade method content_length set_nread_of set_state]. set (q := parser e1).
  replace (has F_CHUNKED (set_nread_of n (set_state s q))) with (has F_CHUNKED q) by done.
  replace (has F_SKIPBODY (set_nread_of n (set_state s q))) with (has F_SKIPBODY q) by done.
  replace (http_message_needs_eof (set_nread_of n (set_state s q))) with (http_message_needs_eof q) by done.
  both; try (by apply message_complete_break_sim); try (by eapply go_sim; [exact S1 | left || done]).
  - apply message_complete_sim; [done |]. intros e' eb' S' E U1 U2. right. rewrite U2, T. by destruct (upgrade q) eqn:Q.
Qed.

Lemma chunk_size_start_sim i e eb : p_state e = s_chunk_size_start -> sim None i e eb -> simO i (case_chunk_size_start e) (case_chunk_size_start eb).
Proof.
  intros Es S. open_sim S e eb. unfold case_chunk_size_start, assert_chunked, assert_. cbn [nread]. destruct (n =? 1); [cbn [andthen] | done].
  cbn [parser]. replace (has F_CHUNKED (set_nread_of nr (set_state sr q))) with (has F_CHUNKED q) by done. destruct (has F_CHUNKED q); [cbn [andthen ch] | done]. both; sim_leaf.
Qed.

Lemma chunk_size_sim i e eb : p_state e = s_chunk_size -> sim None i e eb -> simO i (case_chunk_size e) (case_chunk_size eb).
Proof.
  intros Es S. open_sim S e eb. unfold case_chunk_size, assert_chunked, assert_. cbn [parser]. replace (has F_CHUNKED (set_nread_of nr (set_state sr q))) with (has F_CHUNKED q) by done.
  destruct (has F_CHUNKED q); [cbn [andthen ch] | done]. both; sim_leaf.
Qed.

Lemma chunk_parameters_sim i e eb : p_state e = s_chunk_parameters -> sim None i e eb -> simO i (case_chunk_parameters e) (case_chunk_parameters eb).
Proof.
  intros Es S. open_sim S e eb. unfold case_chunk_parameters, assert_chunked, assert_. cbn [parser]. replace (has F_CHUNKED (set_nread_of nr (set_state sr q))) with (has F_CHUNKED q) by done.
  destruct (has F_CHUNKED q); [cbn [andthen ch] | done]. both; sim_leaf.
Qed.

Lemma chunk_size_almost_done_sim i e eb : p_state e = s_chunk_size_almost_done -> sim None i e eb ->
  simO i (case_chunk_size_almost_done st e) (case_chunk_size_almost_done st eb).
Proof.
  intros Es S. open_sim S e eb. unfold case_chunk_size_almost_done, assert_chunked, assert_, STRICT_CHECK. cbn [parser].
  replace (has F_CHUNKED (set_nread_of nr (set_state sr q))) with (has F_CHUNKED q) by done. destruct (has F_CHUNKED q); [cbn [andthen ch] | done].
  destruct (negb (x =? LF)%char); [done |]. cbn [andthen parser on_parser set_parser set_nread content_length set_nread_of set_state]. destruct (content_length q =? 0); sim_leaf.
Qed.

Lemma chunk_data_done_sim i e eb : p_state e = s_chunk_data_done -> sim None i e eb -> simO i (case_chunk_data_done st e) (case_chunk_data_done st eb).
Proof.
  intros Es S. open_sim S e eb. unfold case_chunk_data_done, assert_chunked, assert_, STRICT_CHECK. cbn [parser].
  replace (has F_CHUNKED (set_nread_of nr (set_state sr q))) with (has F_CHUNKED q) by done. destruct (has F_CHUNKED q); [cbn [andthen ch] | done].
  destruct (negb (x =? LF)%char); [done |]. sim_leaf.
Qed.

Lemma chunk_data_almost_done_sim i e eb : p_state e = s_chunk_data_almost_done -> sim None i e eb \/ sim (Some body) i e eb ->
  simO i (case_chunk_data_almost_done st data e) (case_chunk_data_almost_done st [c] eb).
Proof.
  intros Es Ss. assert (exists o, sim o i e eb) as (o & S) by (destruct Ss; eauto). destruct (sim_twin _ _ _ _ S) as (n & s & T).
  unfold case_chunk_data_almost_done, assert_chunked, assert_, STRICT_CHECK.
  replace (has F_CHUNKED (parser eb)) with (has F_CHUNKED (parser e)) by by rewrite T. destruct (has F_CHUNKED (parser e)); [cbn [andthen] | done].
  replace (content_length (parser eb)) with (content_length (parser e)) by by rewrite T. destruct (content_length (parser e) =? 0); [cbn [andthen] | done].
  rewrite (sim_ch _ _ _ _ S). destruct (negb _); [done |]. cbn [andthen]. apply data_break_sim; [| done]. destruct Ss; [right | left]; by apply sim_update.
Qed.

(** The mark in front of a byte. *)
Definition fits_before (s : state) (o : option data_kind) : Prop := fits s o \/ allowed s = Some body /\ o = Some body.

Lemma switch_sim k i e eb : sim k i e eb -> fits_before (p_state e) k -> batch (p_state e) = false -> simO i (switch st data e) (switch st [c] eb).
Proof.
  intros S F B. unfold switch. rewrite (sim_state _ _ _ _ S). destruct (p_state e) eqn:Es; try discriminate B; (destruct F as [F | [Fb F]]; cbn in F; try discriminate Fb; subst k).
  all: first [exact (dead_sim _ _ _ Es S) | exact (start_req_or_res_sim _ _ _ Es S) | exact (res_or_resp_H_sim _ _ _ Es S) | exact (start_res_sim _ _ _ Es S)
    | by apply expect_sim | by apply http_major_sim | by apply http_minor_sim | by apply http_dot_sim
    | exact (res_http_end_sim _ _ _ Es S) | exact (res_first_status_code_sim _ _ _ Es S) | exact (res_status_code_sim _ _ _ Es S) | exact (res_status_start_sim _ _ _ Es S)
    | exact (res_status_sim _ _ _ Es S) | exact (start_req_sim _ _ _ Es S) | exact (req_method_sim _ _ _ Es S) | exact (req_spaces_before_url_sim _ _ _ Es S)
    | exact (req_schema_sim _ _ _ S) | exact (req_url_sim _ _ _ S) | exact (req_http_start_sim _ _ _ Es S) | exact (req_http_end_sim _ _ _ Es S)
    | exact (req_line_almost_done_sim _ _ _ Es S) | exact (header_field_start_sim _ _ _ Es S) | exact (header_value_discard_ws_sim _ _ _ Es S)
    | exact (header_value_discard_lws_sim _ _ _ Es S) | exact (value_start_sim _ _ _ S) | exact (header_value_lws_sim _ _ _ Es S) | exact (header_almost_done_sim _ _ _ Es S)
    | exact (chunk_size_start_sim _ _ _ Es S) | exact (chunk_size_sim _ _ _ Es S) | exact (chunk_parameters_sim _ _ _ Es S) | exact (chunk_size_almost_done_sim _ _ _ Es S)
    | exact (headers_almost_done_sim _ _ _ Es S) | exact (headers_done_sim _ _ _ Es S) | exact (chunk_data_done_sim _ _ _ Es S) | exact (message_done_sim _ _ _ Es S)
    | exact (chunk_data_almost_done_sim _ _ _ Es (or_introl S)) | exact (chunk_data_almost_done_sim _ _ _ Es (or_intror S))].
Qed.

(** The same for a whole round. *)
Definition simR (i : nat) (o ob : out U) : Prop := match ob with Reexecute _ => False | _ => simO i o ob end.

Lemma reexecute_sim fuel k i e eb : sim k i e eb -> fits_before (p_state e) k -> batch (p_state e) = false ->
  simR i (reexecute st data fuel e) (reexecute st [c] fuel eb).
Proof.
  revert k e eb. induction fuel as [|fuel IH]; intros k e eb S F B; [done |]. cbn [reexecute]. pose proof (switch_sim k i e eb S F B) as H.
  destruct (switch st [c] eb) as [eb'|eb'|v eb'|v eb'|eb'|]; try done.
  - destruct H as (e' & k' & -> & H). by exists e', k'.
  - destruct H as (e' & k' & -> & S' & F' & B'). apply (IH k'); [done | by left | done].
Qed.

(** ** One call for one byte *)

(** The parser as it is written back. *)
Definition saved e : http_parser := set_state (p_state e) (set_nread_of (nread e) (parser e)).

(** At the end of a buffer the open string is handed over. *)
Definition open_text (buf : bytes) e (o : option data_kind) : U :=
  match o with None => user e | Some k => match mark k e with Some m => on_text cl k (take (p e - m) (drop m buf)) (user e) | None => user e end end.

Lemma leftovers_eval buf e o : errno (parser e) = HPE_OK -> p e = length buf ->
  (forall j, Some j <> o -> mark j e = None) -> (forall k m, mark k e = Some m -> (m <= p e)%nat) ->
  finish (leftovers st buf e) = Some (length buf, saved e, open_text buf e o).
Proof.
  intros O P Un L.
  assert (forall kd e1 (k : exec U -> out U), errno (parser e1) = HPE_OK -> mark kd e1 = None -> andthen (CALLBACK_DATA_NOADVANCE st buf kd e1) k = k e1) as K0.
  { intros kd e1 k O1 M1. unfold CALLBACK_DATA_NOADVANCE. by rewrite data_eval_none. }
  assert (forall kd m (k : exec U -> out U), mark kd e = Some m -> andthen (CALLBACK_DATA_NOADVANCE st buf kd e) k =
    k (set_mark kd None (set_user (on_text cl kd (take (p e - m) (drop m buf)) (user e)) (on_parser (set_state (p_state e)) e)))) as K1.
  { intros kd m k M1. unfold CALLBACK_DATA_NOADVANCE. rewrite (data_eval _ _ _ _ _ m); try done; [by eapply L |]. specialize (L _ _ M1). lia. }
  assert (marks e <= 1)%nat as Mk.
  { pose proof (Un header_field). pose proof (Un header_value). pose proof (Un url). pose proof (Un body). pose proof (Un status). unfold marks. cbn in *.
    destruct o as [[]|]; repeat match goal with H : ?a <> ?b -> _ = None |- _ => rewrite (H ltac:(done)) end; repeat case_match; lia. }
  unfold leftovers, assert_. rewrite (proj2 (Nat.leb_le _ _) Mk). cbn [andthen].
  assert (forall kd, o = Some kd -> forall m, mark kd e = Some m -> forall j, mark j (set_mark kd None (set_user (on_text cl kd (take (p e - m) (drop m buf)) (user e)) (on_parser (set_state (p_state e)) e))) = None) as K2.
  { intros kd -> m Em j. rewrite mark_set_mark. case_bool_decide; [done |]. apply Un. congruence. }
  destruct o as [kd|]; cbn [open_text].
  - destruct (mark kd e) as [m|] eqn:Em.
    + specialize (K2 kd eq_refl m Em). destruct kd; repeat first [rewrite K0 by (try apply Un; try apply K2; done) | rewrite (K1 _ m) by done]; done.
    + assert (forall j, mark j e = None) as Un' by (intros j; destruct (decide (j = kd)) as [-> | Nj]; [done | apply Un; congruence]).
      by rewrite !K0 by (try apply Un'; done).
  - by rewrite !K0 by (try apply Un; done).
Qed.

Definition begin_run (q : http_parser) (u : U) : exec U :=
  starting_marks (mk_exec q u (state_of q) (nread_of q) (lenient_http_headers q) 0 NUL None None None None None).

Lemma accept_one q u q' u' : accept [c] q u = Some (q', u') ->
  errno q = HPE_OK /\ errno q' = HPE_OK /\ upgrade q' = false /\
  match round st [c] (begin_run q u) with
  | Break eb => p eb = 0%nat /\ finish (leftovers st [c] (set_p 1 eb)) = Some (1%nat, q', u')
  | ob => finish ob = Some (1%nat, q', u')
  end.
Proof.
  unfold accept, http_parser_execute, errno_ok. cbn [parser length Nat.eqb]. case_bool_decide as O; cbn [negb]; [| done]. change (starting_marks _) with (begin_run q u).
  assert (p (begin_run q u) = 0%nat) as P by (unfold begin_run, starting_marks; by destruct (p_state _)).
  cbn [loop]. rewrite P. change (0 =? length [c])%nat with false. intros H.
  destruct (finish _) as [[[n q1] u1]|] eqn:F in H; [| done]. destruct (Nat.eqb_spec n 1) as [-> | _]; [| done]. destruct (bool_decide _) eqn:B in H; [| done].
  apply bool_decide_eq_true in B. destruct (upgrade q1) eqn:Up; [done |]. injection H as -> ->. split_and!; try done.
  destruct (round st [c] (begin_run q u)) as [eb|eb|v eb|v eb|eb|]; try done. cbn [andthen loop] in F.
  cbn [p set_p] in F. change (length [c]) with 1%nat in F. destruct (Nat.eqb_spec (p eb + 1) 1) as [E | N]; cbn [andthen] in F.
  - assert (p eb = 0%nat) as Pe by lia. split; [done |]. by rewrite Pe in F.
  - exfalso. unfold round in F. cbn [p set_p] in F. rewrite (lookup_ge_None_2 [c]) in F by (cbn; lia). done.
Qed.

(** ** The invariant of the run on the whole buffer

    In front of the byte [p e], the run one by one has come to [q] and [u]. *)
Record at_byte e q u : Prop := {
  at_twin : twin (parser e) q;
  at_ok : errno (parser e) = HPE_OK;
  at_state : state_of q = p_state e;
  at_nread : nread_of q = nread e;
  at_lenient : lenient e = lenient_http_headers (parser e);
  at_range : 0 <= nread e <= HTTP_MAX_HEADER_SIZE;
  at_p : (p e <= length data)%nat;
  at_text : exists k, fits_before (p_state e) k /\
    match k with
    | None => unmarked e /\ u = user e
    | Some k => exists m, mark k e = Some m /\ (m <= p e)%nat /\ ((m < p e)%nat \/ p e = 0%nat /\ k <> body) /\ (forall j, j <> k -> mark j e = None) /\ u = text data k m (p e) (user e)
    end }.

Lemma begin_run_marks q u j : mark j (begin_run q u) = if bool_decide (allowed (state_of q) = Some j /\ j <> body) then Some 0%nat else None.
Proof. unfold begin_run, starting_marks. cbn [p_state]. destruct (state_of q), j; reflexivity. Qed.

Lemma begin_run_fits q u k : fits_before (state_of q) k -> forall j, mark j (begin_run q u) = if bool_decide (k = Some j /\ j <> body) then Some 0%nat else None.
Proof.
  intros F j. rewrite begin_run_marks. rewrite (bool_decide_ext _ (k = Some j /\ j <> body)); [done |]. unfold fits_before, fits in F.
  destruct (allowed (state_of q)) as [[]|] eqn:A; destruct F as [F | [F1 F2]]; simplify_eq; naive_solver.
Qed.

Lemma begin_run_fields q u : let e := begin_run q u in
  parser e = q /\ user e = u /\ p_state e = state_of q /\ nread e = nread_of q /\ lenient e = lenient_http_headers q /\ p e = 0%nat.
Proof. unfold begin_run, starting_marks. cbn [p_state]. by destruct (state_of q). Qed.

Lemma begin_sim e q u : at_byte e q u -> (p e < length data)%nat -> exists k, sim k (p e) (set_ch c e) (set_ch c (begin_run q u)) /\ fits_before (p_state e) k.
Proof.
  intros [T O Es En El Er _ (k & F & Tx)] L. exists k. split; [| done]. pose proof (begin_run_fields q u) as (B1 & B2 & B3 & B4 & B5 & B6).
  rewrite <- Es in F. pose proof (begin_run_fits q u k F) as Bm.
  assert (lenient_http_headers q = lenient_http_headers (parser e)) as Lq by (by destruct T as (n & s & ->)).
  split; [change (parser (set_ch c (begin_run q u))) with (parser (begin_run q u)); by rewrite B1 | exact O | exact (eq_trans B3 Es) | exact (eq_trans B4 En)
         | exact (eq_trans B5 (eq_trans Lq (eq_sym El))) | done | exact B6 | done | done | | exact Er | exact El].
  destruct k as [k|].
  - destruct Tx as (m & Em & Lm & Lb & Mj & Eu). exists m. split_and!; [done | done | | exact (eq_trans B2 Eu) |].
    + intros j Nj. split; [exact (Mj j Nj) |]. change (mark j (begin_run q u) = None). rewrite Bm. case_bool_decide; naive_solver.
    + change (mark k (set_ch c (begin_run q u))) with (mark k (begin_run q u)). rewrite Bm. destruct (decide (k = body)) as [-> | Nk]; [right | left]; case_bool_decide; naive_solver.
  - destruct Tx as [Un Eu]. split_and!; [exact Un | | exact (eq_trans B2 Eu)]. intros j. change (mark j (begin_run q u) = None). rewrite Bm. case_bool_decide; naive_solver.
Qed.

Lemma round_sim e q u : at_byte e q u -> data !! p e = Some c -> batch (p_state e) = false -> simR (p e) (round st data e) (round st [c] (begin_run q u)).
Proof.
  intros A D B. pose proof (lookup_lt_Some _ _ _ D) as L. destruct (begin_sim e q u A L) as (k & S & F). pose proof (begin_run_fields q u) as (_ & _ & B3 & _ & _ & B6).
  unfold round. rewrite D, B6. cbn [lookup list_lookup]. rewrite B3, (at_state _ _ _ A).
  destruct (PARSING_HEADER (p_state e)); [| by apply (reexecute_sim _ k)]. unfold COUNT_HEADER_SIZE.
  change (nread (set_nread ?n (set_ch c e))) with n. change (nread (set_nread ?n (set_ch c (begin_run q u)))) with n. rewrite (sim_nread _ _ _ _ S).
  destruct (Z.ltb_spec HTTP_MAX_HEADER_SIZE (u32 (nread (set_ch c e) + Z.of_nat 1))) as [G | G]; [done |]. cbn [andthen].
  apply (reexecute_sim _ k); [| done | done]. apply sim_set_nread; [done |]. pose proof (u32_range (nread (set_ch c e) + Z.of_nat 1)). lia.
Qed.

(** What is behind a successful call for one byte. *)
Lemma accept_sim i o q u q' u' : simR i o (round st [c] (begin_run q u)) -> accept [c] q u = Some (q', u') ->
  exists eb e k, o = Break e /\ sim k i e eb /\ fits (p_state e) k /\ q' = saved eb /\ u' = open_text [c] (set_p 1 eb) k.
Proof.
  intros R (O & O' & Up & H)%accept_one. destruct (round st [c] (begin_run q u)) as [eb|eb|v eb|v eb|eb|]; [| done | | | |]; cbn in R; try done.
  - destruct H as [Pb H]. destruct R as (e & k & -> & S & F). exists eb, e, k. split_and!; [done | done | done | |].
    all: pose proof S as [(x & y & T) Ok St N Le Ch _ P I Tx _ _]; rewrite (leftovers_eval [c] (set_p 1 eb) k) in H; try done; try (by injection H as <- <-).
    all: try (by cbn; rewrite T).
    all: destruct k as [k|]; [destruct Tx as (m & Em & Lm & Mj & Eu & Mb) | destruct Tx as (Un & Unb & Eu)].
    all: try (intros j Nj; change (mark j eb = None); (apply Mj || apply Unb); congruence).
    all: intros j mj Ej; change (mark j eb = Some mj) in Ej; try (by rewrite Unb in Ej).
    all: destruct (decide (j = k)) as [-> | Nj]; [| by rewrite (proj2 (Mj j Nj)) in Ej]; destruct Mb as [Mb | (_ & Mb & _)]; rewrite Mb in Ej; [injection Ej as <-; cbn; lia | done].
  - injection H as _ <- <-. exfalso. cbn in O', Up. destruct R; congruence.
  - injection H as _ <- <-. congruence.
  - injection H as _ <- <-. exfalso. revert O'. unfold errno_ok. case_bool_decide; cbn; congruence.
Qed.

(** The invariant in front of the next byte. *)
Lemma sim_at_byte k i e eb : sim k i e eb -> fits (p_state e) k -> data !! i = Some c ->
  at_byte (set_p (i + 1) e) (saved eb) (open_text [c] (set_p 1 eb) k).
Proof.
  intros [(x & y & T) Ok St N Le Ch Pb P I Tx Rg Ln] F D. split; try done; [unfold saved; rewrite T; by eexists _, _ | cbn; lia |].
  exists k. split; [by left |]. destruct k as [k|]; [| by destruct Tx as (Un & Unb & Eu)]. destruct Tx as (m & Em & Lm & Mj & Eu & Mb).
  assert (k <> body) as Nb by (intros ->; unfold fits in F; by destruct (allowed (p_state e)) as [[]|]). destruct Mb as [Mb | (? & _)]; [| done].
  exists m. split_and!; [by destruct k | cbn; lia | left; cbn; lia | intros j Nj; destruct (Mj j Nj) as [Mj' _]; by destruct j |].
  cbn [open_text]. change (mark k (set_p 1 eb)) with (mark k eb). rewrite Mb. cbn [p set_p user drop take Nat.sub]. rewrite Eu, P.
  rewrite <- (text_text data k m i (i + 1)) by lia. f_equal. replace (i + 1 - i)%nat with 1%nat by lia. by rewrite (drop_S data c i) by done.
Qed.

Lemma step_one e q u q' u' : at_byte e q u -> data !! p e = Some c -> batch (p_state e) = false -> accept [c] q u = Some (q', u') ->
  exists e', round st data e = Break e' /\ p e' = p e /\ at_byte (set_p (p e + 1) e') q' u'.
Proof.
  intros A D B H. pose proof (lookup_lt_Some _ _ _ D) as L. destruct (accept_sim _ _ _ _ _ _ (round_sim e q u A D B) H) as (eb & e' & k & R & S & F & -> & ->).
  exists e'. split; [done |]. pose proof S as [(x & y & T) Ok St N Le Ch Pb P I Tx Rg Ln]. split; [done |]. apply (sim_at_byte k); done.
Qed.

End byte.

(** ** Names of headers *)

(** What one letter of a name does to the parser. *)
Definition field_f (c x : ascii) (q : http_parser) : http_parser :=
  let word w done := let q := inc_index q in set_header_state (match_word w c (index q) h_general done (header_state q)) q in
  match header_state q with
  | h_C => set_header_state (if (c =? "o")%char then h_CO else h_general) (inc_index q)
  | h_CO => set_header_state (if (c =? "n")%char then h_CON else h_general) (inc_index q)
  | h_CON => set_header_state (if (c =? "n")%char then h_matching_connection else if (c =? "t")%char then h_matching_content_length else h_general) (inc_index q)
  | h_matching_connection => word CONNECTION h_connection
  | h_matching_proxy_connection => word PROXY_CONNECTION h_connection
  | h_matching_content_length => word CONTENT_LENGTH h_content_length
  | h_matching_transfer_encoding => word TRANSFER_ENCODING h_transfer_encoding
  | h_matching_upgrade => word UPGRADE h_upgrade
  | h_connection | h_content_length | h_transfer_encoding | h_upgrade => if negb (x =? SP)%char then set_header_state h_general q else q
  | _ => q
  end.

Lemma header_field_char_eval buf c e : header_field_char buf c e =
  if field_state (header_state (parser e)) then
    if bool_decide (header_state (parser e) = h_general)
    then match skip_tokens buf (S (length buf)) (limit_of buf (p e)) (p e) with Some j => Break (set_p j e) | None => Abort end
    else Break (on_parser (field_f c (ch e)) e)
  else Abort.
Proof.
  unfold header_field_char, on_parser, field_f. destruct (header_state (parser e)) eqn:H; cbn [field_state]; try reflexivity; rewrite bool_decide_false by done; try done.
  all: try (by cbn; rewrite H). all: destruct (negb _); [done |]; by destruct e.
Qed.

Lemma field_f_fields c x q : let q' := field_f c x q in
  type q' = type q /\ flags q' = flags q /\ state_of q' = state_of q /\ lenient_http_headers q' = lenient_http_headers q /\ nread_of q' = nread_of q /\
  content_length q' = content_length q /\ http_major q' = http_major q /\ http_minor q' = http_minor q /\ status_code q' = status_code q /\ method q' = method q /\
  errno q' = errno q /\ upgrade q' = upgrade q.
Proof. unfold field_f. destruct (header_state q); try done. all: by destruct (negb _). Qed.

Lemma max_header : HTTP_MAX_HEADER_SIZE = 81920.
Proof. reflexivity. Qed.

Lemma count_eval e n : 0 <= nread e -> nread e + Z.of_nat n <= HTTP_MAX_HEADER_SIZE -> COUNT_HEADER_SIZE n e = Break (set_nread (nread e + Z.of_nat n) e).
Proof.
  intros R M. pose proof max_header. unfold COUNT_HEADER_SIZE. cbn [nread set_nread]. rewrite u32_small by lia. by rewrite (proj2 (Z.ltb_ge _ _) M).
Qed.

(** The run on one byte in the middle of a header: the byte is counted. *)
Lemma begin_header x q u : PARSING_HEADER (state_of q) = true -> 0 <= nread_of q <= HTTP_MAX_HEADER_SIZE ->
  round st [x] (begin_run q u) =
  if HTTP_MAX_HEADER_SIZE <? nread_of q + 1 then fail HPE_HEADER_OVERFLOW (set_nread (nread_of q + 1) (set_ch x (begin_run q u)))
  else reexecute st [x] 5 (set_nread (nread_of q + 1) (set_ch x (begin_run q u))).
Proof.
  intros Ph R. pose proof max_header. pose proof (begin_run_fields q u) as (_ & _ & B3 & B4 & _ & B6). unfold round. rewrite B6. cbn [lookup list_lookup]. rewrite B3, Ph.
  unfold COUNT_HEADER_SIZE. cbn [nread set_nread]. change (nread (set_ch x (begin_run q u))) with (nread (begin_run q u)). rewrite B4.
  change (Z.of_nat 1) with 1. rewrite u32_small by lia. by destruct (_ <? _).
Qed.

Lemma finish_error er (e : exec U) n q u : er <> HPE_OK -> finish (fail er e) = Some (n, q, u) -> errno q <> HPE_OK.
Proof. intros E. unfold fail, finish, errno_ok. cbn [parser SET_ERRNO on_parser set_parser errno set_errno]. rewrite (bool_decide_false _ E). intros [= _ <- _]. done. Qed.

(** One letter of a name is all there is. *)
Lemma letter_eval x e : p e = 0%nat -> (TOKEN x =? NUL)%char = false -> 0 <= nread e <= HTTP_MAX_HEADER_SIZE ->
  case_header_field st [x] e = if field_state (header_state (parser e)) then Break (on_parser (field_f (TOKEN x) x) (set_ch x e)) else Abort.
Proof.
  intros P Tk Rg. pose proof max_header. unfold case_header_field. cbn [header_field_loop length]. rewrite P. cbn [Nat.eqb lookup list_lookup ch set_ch]. rewrite Tk, header_field_char_eval.
  cbn [parser set_ch ch p]. destruct (field_state _) eqn:Fs; [| done]. rewrite P.
  destruct (decide (header_state (parser e) = h_general)) as [G | G]; [rewrite (bool_decide_true _ G) | rewrite (bool_decide_false _ G)].
  - change (limit_of [x] 0) with 1%nat. cbn [skip_tokens Nat.add Nat.ltb Nat.leb andthen header_field_loop length p set_p set_ch Nat.eqb Nat.sub]. rewrite count_eval by (cbn; lia).
    unfold field_f, on_parser. cbn [parser set_ch]. rewrite G. f_equal. destruct e; cbn in *. subst. unfold set_nread, set_p, set_ch, on_parser, set_parser; cbn. f_equal; lia.
  - cbn [andthen header_field_loop length p set_p set_ch on_parser set_parser]. rewrite P. cbn [Nat.eqb Nat.add Nat.sub andthen p set_p]. rewrite count_eval by (cbn; lia).
    f_equal. destruct e; cbn in *. subst. unfold set_nread, set_p, set_ch, on_parser, set_parser; cbn. f_equal; lia.
Qed.

(** The call for one letter of a name. *)
Lemma accept_letter x q u q' u' : state_of q = s_header_field -> (TOKEN x =? NUL)%char = false -> 0 <= nread_of q <= HTTP_MAX_HEADER_SIZE ->
  accept [x] q u = Some (q', u') ->
  nread_of q + 1 <= HTTP_MAX_HEADER_SIZE /\ field_state (header_state q) = true /\
  q' = set_state s_header_field (set_nread_of (nread_of q + 1) (field_f (TOKEN x) x q)) /\ u' = on_text cl header_field [x] u.
Proof.
  intros Es Tk Rg (O & O' & Up & H)%accept_one. pose proof max_header. rewrite begin_header in H; [| by rewrite Es | done].
  destruct (Z.ltb_spec HTTP_MAX_HEADER_SIZE (nread_of q + 1)) as [G | G]; [by apply finish_error in H |].
  unfold begin_run, starting_marks in H. cbn [p_state] in H. rewrite Es in H. cbn [reexecute switch p_state set_nread set_ch set_mark] in H.
  rewrite letter_eval in H; [| done | done | cbn; lia]. cbn [parser set_nread set_ch set_mark] in H. destruct (field_state (header_state q)) eqn:Fs; [| discriminate H]. destruct H as [_ H].
  rewrite (leftovers_eval [x] _ (Some header_field)) in H.
  - injection H as <- <-. done.
  - change (errno (field_f (TOKEN x) x q) = HPE_OK). destruct (field_f_fields (TOKEN x) x q) as (_ & _ & _ & _ & _ & _ & _ & _ & _ & _ & -> & _). done.
  - done.
  - intros [] Nj; done.
  - intros [] m Em; try discriminate Em. injection Em as <-. apply Nat.le_0_l.
Qed.

(** ** Runs inside of a name or a value

    The inner loop has come to the byte [p e]; it started at [start], which is
    the only byte counted so far.  [P] is the parser as it would be saved. *)
Record running (kd : data_kind) (s : state) (start : nat) (P : http_parser) e q u : Prop := {
  run_twin : twin P q;
  run_ok : errno P = HPE_OK;
  run_p_state : p_state e = s;
  run_state : state_of q = s;
  run_nread : nread_of q + 1 = nread e + Z.of_nat (p e - start);
  run_lenient : lenient e = lenient_http_headers P;
  run_range : 0 <= nread_of q <= HTTP_MAX_HEADER_SIZE;
  run_pos : 0 <= nread e;
  run_p : (start <= p e <= length data)%nat;
  run_text : exists m, mark kd e = Some m /\ (m <= start)%nat /\ (forall j, j <> kd -> mark j e = None) /\ u = text data kd m (p e) (user e) }.

#[local] Instance settings_obey : Obeys st.
Proof. split; try (intros f [= <-]; intros q u; by left). intros k f. rewrite data_cb_st. intros [= <-] d q u. by left. Qed.

Lemma accept_ready d q u q' u' : ready q -> accept d q u = Some (q', u') -> ready q'.
Proof.
  unfold accept. intros R. destruct (execute_ok st d q u R) as (n & q1 & u1 & -> & _ & R1 & _). destruct (_ && _); [| done]. by intros [= <- <-].
Qed.

(** What is still to come is accepted, byte by byte. *)
Context (r : http_parser * U).
Definition rest (i : nat) q u : Prop := ready q /\ one_by_one (drop i data) q u = Some r.

Lemma rest_next i q u x : rest i q u -> data !! i = Some x -> exists q' u', accept [x] q u = Some (q', u') /\ rest (i + 1) q' u'.
Proof.
  unfold rest. intros [Q R] D. rewrite (drop_S data x i D), one_by_one_cons in R. destruct (accept [x] q u) as [[q' u']|] eqn:A; [| done].
  exists q', u'. split; [done |]. split; [by eapply accept_ready |]. by replace (i + 1)%nat with (S i) by lia.
Qed.

Lemma text_next kd m i x u : data !! i = Some x -> (m <= i)%nat -> on_text cl kd [x] (text data kd m i u) = text data kd m (i + 1) u.
Proof.
  intros D L. pose proof (lookup_lt_Some _ _ _ D). rewrite <- (text_text data kd m i (i + 1)) by lia. f_equal. replace (i + 1 - i)%nat with 1%nat by lia. by rewrite (drop_S data x i) by done.
Qed.

Lemma running_next kd s start P P' e e' q Q u x : running kd s start P e q u -> data !! p e = Some x -> nread_of q + 1 <= HTTP_MAX_HEADER_SIZE ->
  twin P' Q -> errno P' = errno P -> lenient_http_headers P' = lenient_http_headers P ->
  p_state e' = p_state e -> nread e' = nread e -> lenient e' = lenient e -> user e' = user e -> (forall j, mark j e' = mark j e) -> p e' = (p e + 1)%nat ->
  running kd s start P' e' (set_state s (set_nread_of (nread_of q + 1) Q)) (on_text cl kd [x] u).
Proof.
  intros [T O Ps Es N Le Rg Ps0 Lp (m & Em & Lm & Mj & Eu)] D M T' O' Le' F1 F2 F3 F4 F5 F6. pose proof (lookup_lt_Some _ _ _ D). split; try congruence.
  - destruct T' as (n & s' & ->). by eexists _, _.
  - done.
  - cbn. lia.
  - cbn. lia.
  - lia.
  - exists m. rewrite F5, F6, F4, Eu. split_and!; [done | done | intros j Nj; rewrite F5; by apply Mj | by apply text_next; [| lia]].
Qed.

Lemma field_f_twin c x P q : twin P q -> twin (field_f c x P) (field_f c x q).
Proof.
  intros (n & s & ->). destruct P as [ty fl st h i le nr cl0 ma mi sc me er up]. unfold field_f. cbn -[match_word].
  destruct h; try (by apply twin_intro). all: destruct (negb _); by apply twin_intro.
Qed.

Lemma skip_tokens_spec fuel limit i j : skip_tokens data fuel limit i = Some j ->
  (i <= j)%nat /\ forall k, (i < k <= j)%nat -> exists x, data !! k = Some x /\ (TOKEN x =? NUL)%char = false.
Proof.
  revert i. induction fuel as [|fuel IH]; intros i H; [done |]. cbn [skip_tokens] in H. destruct (_ <? _)%nat; [| injection H as <-; split; [lia | intros; lia]].
  destruct (data !! (i + 1)%nat) as [x|] eqn:D; [| done]. destruct (_ =? _)%char eqn:Tk in H; [injection H as <-; split; [lia | intros; lia] |].
  apply IH in H as [L H]. split; [lia |]. intros k Lk. destruct (decide (k = i + 1)%nat) as [-> | Nk]; [by exists x | apply H; lia].
Qed.

Lemma field_f_general c x q : header_state q = h_general -> field_f c x q = q.
Proof. unfold field_f. by intros ->. Qed.

Lemma twin_fields P q : twin P q -> header_state q = header_state P /\ errno q = errno P /\ lenient_http_headers q = lenient_http_headers P /\ upgrade q = upgrade P.
Proof. by intros (n & s & ->). Qed.

#[local] Abbreviation in_name := (running header_field s_header_field).

(** A name that is not one of the known ones is read without a look at it. *)
Lemma letters_run n start P e q u : in_name start P e q u -> rest (p e) q u -> header_state P = h_general ->
  (forall i, (p e <= i < p e + n)%nat -> exists x, data !! i = Some x /\ (TOKEN x =? NUL)%char = false) ->
  exists q' u', in_name start P (set_p (p e + n) e) q' u' /\ rest (p e + n) q' u'.
Proof.
  revert e q u. induction n as [|n IH]; intros e q u R Rs G L. { exists q, u. rewrite Nat.add_0_r. split; [| done]. by destruct e. }
  destruct (L (p e)) as (x & D & Tk); [lia |]. destruct (rest_next _ _ _ _ Rs D) as (q1 & u1 & A & Rs1). destruct (twin_fields _ _ (run_twin _ _ _ _ _ _ _ R)) as (Hs & _).
  destruct (accept_letter _ _ _ _ _ (run_state _ _ _ _ _ _ _ R) Tk (run_range _ _ _ _ _ _ _ R) A) as (M & _ & -> & ->). rewrite field_f_general in Rs1 by congruence.
  destruct (IH (set_p (p e + 1) e) _ _ (running_next _ _ _ _ P e (set_p (p e + 1) e) q q u x R D M (run_twin _ _ _ _ _ _ _ R) eq_refl eq_refl eq_refl eq_refl eq_refl eq_refl (fun j => eq_refl) eq_refl) Rs1 G) as (q' & u' & R' & Rs').
  { intros i Li. apply L. cbn in Li. lia. }
  cbn [p set_p] in R', Rs'. exists q', u'. by replace (p e + S n)%nat with (p e + 1 + n)%nat by lia.
Qed.

Lemma field_loop fuel start e q u : in_name start (parser e) e q u -> rest (p e) q u -> (length data < p e + fuel)%nat ->
  exists e' q' u', header_field_loop data fuel e = Break e' /\ (p e <= p e')%nat /\ in_name start (parser e') e' q' u' /\ rest (p e') q' u' /\
    (p e' = length data \/ exists x, data !! p e' = Some x /\ ch e' = x /\ (TOKEN x =? NUL)%char = true).
Proof.
  revert e q u. induction fuel as [|fuel IH]; intros e q u R Rs Fu; [pose proof (run_p _ _ _ _ _ _ _ R); lia |]. cbn [header_field_loop].
  pose proof (run_p _ _ _ _ _ _ _ R) as Lp. destruct (Nat.eqb_spec (p e) (length data)) as [El | Nl]. { exists e, q, u. naive_solver. }
  destruct (lookup_lt_is_Some_2 data (p e)) as [x D]; [lia |]. rewrite D. cbn [ch set_ch]. destruct (TOKEN x =? NUL)%char eqn:Tk.
  { exists (set_ch x e), q, u. split_and!; [done | done | by destruct R | done | right; by exists x]. }
  destruct (rest_next _ _ _ _ Rs D) as (q1 & u1 & A & Rs1). pose proof (run_twin _ _ _ _ _ _ _ R) as T. destruct (twin_fields _ _ T) as (Hs & _).
  destruct (accept_letter _ _ _ _ _ (run_state _ _ _ _ _ _ _ R) Tk (run_range _ _ _ _ _ _ _ R) A) as (M & Fs & -> & ->). rewrite Hs in Fs.
  rewrite header_field_char_eval. cbn [parser set_ch ch]. rewrite Fs. pose proof (field_f_fields (TOKEN x) x (parser e)) as (_ & _ & _ & Fl & _ & _ & _ & _ & _ & _ & Fe & _).
  pose proof (fun e' => running_next _ _ _ _ _ e e' q _ u x R D M (field_f_twin (TOKEN x) x _ _ T) Fe Fl) as Nx.
  case_bool_decide as G.
  - destruct (skip_tokens_ok data (S (length data)) (limit_of data (p e)) (p e)) as (j & Ej & Lj); [unfold limit_of, zlen; lia | lia | lia |].
    cbn [p set_ch]. rewrite Ej. cbn [andthen p set_p]. destruct (skip_tokens_spec _ _ _ _ Ej) as [_ Sk]. rewrite (field_f_general _ _ (parser e) G) in Nx.
    specialize (Nx (set_p (p e + 1) (set_ch x e)) eq_refl eq_refl eq_refl eq_refl (fun j => eq_refl) eq_refl).
    destruct (letters_run (j - p e) _ _ _ _ _ Nx Rs1 G) as (q2 & u2 & R2 & Rs2); [intros i Li; apply Sk; cbn in Li; lia |].
    cbn [p set_p] in R2, Rs2. replace (p e + 1 + (j - p e))%nat with (j + 1)%nat in R2, Rs2 by lia.
    destruct (IH (set_p (j + 1) (set_p j (set_ch x e))) q2 u2 R2 Rs2) as (e' & q' & u' & -> & Le & H); [cbn; lia |]. exists e', q', u'. split; [done |]. split; [cbn in Le; lia | done].
  - specialize (Nx (set_p (p (on_parser (field_f (TOKEN x) x) (set_ch x e)) + 1) (on_parser (field_f (TOKEN x) x) (set_ch x e))) eq_refl eq_refl eq_refl eq_refl (fun j => eq_refl) eq_refl).
    cbn [andthen]. destruct (IH (set_p (p (on_parser (field_f (TOKEN x) x) (set_ch x e)) + 1) (on_parser (field_f (TOKEN x) x) (set_ch x e))) _ _ Nx Rs1)
      as (e' & q' & u' & -> & Le & H); [cbn; lia |]. exists e', q', u'. split; [done |]. split; [cbn in Le; lia | done].
Qed.

(** A call that succeeds counted its byte. *)
Lemma accept_counts x q u q' u' : PARSING_HEADER (state_of q) = true -> 0 <= nread_of q <= HTTP_MAX_HEADER_SIZE -> accept [x] q u = Some (q', u') ->
  nread_of q + 1 <= HTTP_MAX_HEADER_SIZE.
Proof.
  intros Ph Rg (O & O' & Up & H)%accept_one. rewrite begin_header in H by done.
  destruct (Z.ltb_spec HTTP_MAX_HEADER_SIZE (nread_of q + 1)) as [G | G]; [by apply finish_error in H | done].
Qed.

Lemma begin_running kd e q u x q' u' : at_byte e q u -> allowed (p_state e) = Some kd -> kd <> body -> PARSING_HEADER (p_state e) = true -> data !! p e = Some x ->
  accept [x] q u = Some (q', u') -> let e1 := set_nread (nread e + 1) (set_ch x e) in
  round st data e = reexecute st data 5 e1 /\ running kd (p_state e) (p e) (parser e) e1 q u.
Proof.
  intros [T O Es En El Er Lp (k & F & Tx)] Al Nb Ph D A. pose proof (lookup_lt_Some _ _ _ D). pose proof (accept_counts x q u q' u') as M. rewrite Es, En in M.
  specialize (M Ph Er A). pose proof max_header. split.
  - unfold round. rewrite D, Ph, count_eval; cbn [nread set_ch]; [done | lia | lia].
  - assert (k = Some kd) as -> by (unfold fits_before, fits in F; rewrite Al in F; destruct kd; naive_solver).
    destruct Tx as (m & Em & Lm & _ & Mj & Eu). split; try done; cbn; [lia | lia | lia |].
    exists m. split_and!; [by destruct kd | done | intros j Nj; rewrite <- (Mj j Nj); by destruct j | done].
Qed.

(** The bytes ran out. *)
Lemma running_end kd s start e e' q u : running kd s start (parser e) e q u -> allowed s = Some kd -> kd <> body -> p e = length data -> (start < length data)%nat ->
  parser e' = parser e -> p_state e' = p_state e -> nread e' = nread_of q -> lenient e' = lenient e -> user e' = user e -> (forall j, mark j e' = mark j e) ->
  p e' = length data -> at_byte e' q u.
Proof.
  intros [T O Ps Es N Le Rg Ps0 Lp (m & Em & Lm & Mj & Eu)] Al Nb P L F1 F2 F3 F4 F5 F6 F7. split; rewrite ?F1, ?F2, ?F3, ?F4, ?F7; try congruence; try done.
  exists (Some kd). split; [left; unfold fits; rewrite Ps, Al; by destruct kd |]. exists m. rewrite F6, F5, <- P.
  split_and!; [done | lia | left; lia | intros j Nj; rewrite F6; by apply Mj | done].
Qed.

(** The loop ends at the byte [x]. *)
Lemma running_sim kd s start P e q u x : running kd s start P e q u -> allowed s = Some kd -> kd <> body -> data !! p e = Some x -> ch e = x ->
  nread_of q + 1 <= HTTP_MAX_HEADER_SIZE ->
  sim (Some kd) (p e) (set_nread (nread_of q + 1) (set_parser P e)) (set_nread (nread_of q + 1) (set_ch x (begin_run q u))).
Proof.
  intros [T O Ps Es N Le Rg Ps0 Lp (m & Em & Lm & Mj & Eu)] Al Nb D Ec M. pose proof (begin_run_fields q u) as (B1 & B2 & B3 & B4 & B5 & B6).
  pose proof (lookup_lt_Some _ _ _ D). destruct (twin_fields _ _ T) as (_ & _ & Lq & _).
  split; [by cbn; rewrite B1 | exact O | cbn; congruence | done | cbn; congruence | done | done | done | done | | cbn; lia | done].
  exists m. split_and!; [done | cbn; lia | | cbn; congruence | left].
  - intros j Nj. split; [by apply Mj |]. change (mark j (begin_run q u) = None). rewrite begin_run_marks, Es, Al, bool_decide_false; [done | naive_solver].
  - change (mark kd (begin_run q u) = Some 0%nat). by rewrite begin_run_marks, Es, Al, bool_decide_true.
Qed.

(** The rounds of the loop: a round reads some bytes, one at least. *)
Definition advances e : Prop := exists e' q' u',
  round st data e = Break e' /\ (p e <= p e' < length data)%nat /\ at_byte (set_p (p e' + 1) e') q' u' /\ rest (p e' + 1) q' u'.

(** The byte behind a name. *)
Lemma field_stop_eval x e : p e = 0%nat -> (TOKEN x =? NUL)%char = true -> 0 <= nread e <= HTTP_MAX_HEADER_SIZE ->
  case_header_field st [x] e = if (x =? ":")%char then CALLBACK_DATA st [x] header_field (UPDATE_STATE s_header_value_discard_ws (set_ch x e)) else fail HPE_INVALID_HEADER_TOKEN (set_ch x e).
Proof.
  intros P Tk Rg. unfold case_header_field. cbn [header_field_loop length]. rewrite P. cbn [Nat.eqb lookup list_lookup ch set_ch]. rewrite Tk. cbn [andthen p set_ch]. rewrite P.
  cbn [Nat.eqb Nat.sub]. rewrite count_eval by (cbn [nread set_ch]; lia). cbn [andthen ch set_nread set_ch].
  replace (set_nread (nread (set_ch x e) + Z.of_nat 0) (set_ch x e)) with (set_ch x e); [done |]. destruct e. unfold set_nread, set_ch. cbn. f_equal. lia.
Qed.

(** Where [goto reexecute] leads. *)
Definition rerun (buf : bytes) (o : out U) : out U := match o with Reexecute e => reexecute st buf 4 e | o => o end.

Lemma rerun_eq buf e : reexecute st buf 5 e = rerun buf (switch st buf e).
Proof. unfold rerun. change (reexecute st buf 5 e) with (match switch st buf e with Reexecute e => reexecute st buf 4 e | o => o end). by destruct (switch st buf e). Qed.

Lemma rerun_sim x i o ob : simO i o ob -> simR i (rerun data o) (rerun [x] ob).
Proof.
  destruct ob as [eb|eb|v eb|v eb|eb|]; cbn [rerun]; try done; [by intros (e & k & -> & H); exists e, k |].
  intros (e & k & -> & S & F & B). apply (reexecute_sim _ _ k); [done | by left | done].
Qed.

(** The call for the last byte of a loop, side by side with what the loop does
    there. *)
Lemma last_byte i o q u x q' u' : data !! i = Some x -> PARSING_HEADER (state_of q) = true -> 0 <= nread_of q <= HTTP_MAX_HEADER_SIZE ->
  accept [x] q u = Some (q', u') -> simO i o (switch st [x] (set_nread (nread_of q + 1) (set_ch x (begin_run q u)))) ->
  exists e', rerun data o = Break e' /\ p e' = i /\ at_byte (set_p (i + 1) e') q' u'.
Proof.
  intros D Ph Rg A So. pose proof (accept_counts _ _ _ _ _ Ph Rg A) as M. apply (rerun_sim x) in So.
  assert (round st [x] (begin_run q u) = rerun [x] (switch st [x] (set_nread (nread_of q + 1) (set_ch x (begin_run q u))))) as E.
  { rewrite begin_header by done. by rewrite (proj2 (Z.ltb_ge _ _) M), rerun_eq. }
  rewrite <- E in So. destruct (accept_sim x _ _ _ _ _ _ So A) as (eb & e' & k & -> & S & F & -> & ->).
  exists e'. split; [done |]. split. { exact (sim_p _ _ _ _ S). } apply (sim_at_byte x k i e' eb); done.
Qed.

Lemma colon_advances start e q u q' u' x : in_name start (parser e) e q u -> data !! p e = Some x -> ch e = x -> (TOKEN x =? NUL)%char = true ->
  accept [x] q u = Some (q', u') ->
  exists e', rerun data (andthen (COUNT_HEADER_SIZE (p e - start) e) (fun e =>
      if (ch e =? ":")%char then CALLBACK_DATA st data header_field (UPDATE_STATE s_header_value_discard_ws e) else fail HPE_INVALID_HEADER_TOKEN e)) = Break e' /\
    p e' = p e /\ at_byte (set_p (p e + 1) e') q' u'.
Proof.
  intros R D Ec Tk A. pose proof (run_state _ _ _ _ _ _ _ R) as Es. pose proof (run_range _ _ _ _ _ _ _ R) as Rg. pose proof (run_nread _ _ _ _ _ _ _ R) as N.
  assert (nread_of q + 1 <= HTTP_MAX_HEADER_SIZE) as M by (eapply accept_counts; [by rewrite Es | done | done]).
  rewrite count_eval, <- N; [| by destruct R | lia]. cbn [andthen]. pose proof (running_sim _ _ _ _ _ _ _ x R eq_refl ltac:(done) D Ec M) as S.
  replace (set_parser (parser e) e) with e in S by (by destruct e). change (ch (set_nread (nread_of q + 1) e)) with (ch e). rewrite Ec.
  eapply last_byte; [done | by rewrite Es | done | done |]. unfold switch. pose proof (begin_run_fields q u) as (_ & _ & B3 & _ & _ & B6).
  cbn [p_state set_nread set_ch]. rewrite B3, Es, field_stop_eval; [| exact B6 | done | cbn; pose proof max_header; lia].
  destruct (x =? ":")%char; [| done]. apply (data_break_sim x header_field (p e)); [left; by apply sim_update | done].
Qed.

Lemma field_advances e q u : at_byte e q u -> rest (p e) q u -> (p e < length data)%nat -> p_state e = s_header_field -> advances e.
Proof.
  intros A Rs L Es. destruct (lookup_lt_is_Some_2 data (p e) L) as [x D]. destruct (rest_next _ _ _ _ Rs D) as (q1 & u1 & Ac & _).
  destruct (begin_running header_field e q u x q1 u1 A) as [Er R]; [by rewrite Es | done | by rewrite Es | done | done |]. rewrite Es in R.
  unfold advances. rewrite Er, rerun_eq. unfold switch. cbn [p_state set_nread set_ch]. rewrite Es.
  unfold case_header_field. cbn [p set_nread set_ch].
  destruct (field_loop (S (length data)) _ (set_nread (nread e + 1) (set_ch x e)) _ _ R Rs) as (e2 & q2 & u2 & -> & Le & R2 & Rs2 & [El | (y & D2 & Ec & Tk)]); [cbn; lia | |]; cbn [andthen]; cbn [p set_nread set_ch] in Le.
  - rewrite El, Nat.eqb_refl. pose proof (run_nread _ _ _ _ _ _ _ R2) as N. pose proof (run_range _ _ _ _ _ _ _ R2) as Rg. rewrite El in N.
    assert (nread e2 + Z.of_nat (length data - 1 - p e) = nread_of q2) as N' by lia. cbn [p set_p]. rewrite count_eval; cbn [nread set_p]; [| by destruct R2 | lia].
    eexists _, q2, u2. split; [reflexivity |]. cbn [p set_nread set_p]. replace (length data - 1 + 1)%nat with (length data) by lia. split; [lia |]. rewrite El in Rs2. split; [| done].
    by eapply running_end.
  - destruct (Nat.eqb_spec (p e2) (length data)) as [E | _]; [apply lookup_lt_Some in D2; lia |].
    destruct (rest_next _ _ _ _ Rs2 D2) as (q3 & u3 & A3 & Rs3). destruct (colon_advances _ _ _ _ _ _ _ R2 D2 Ec Tk A3) as (e' & -> & P' & A').
    exists e', q3, u3. rewrite P'. split; [done |]. split; [| done]. apply lookup_lt_Some in D2. lia.
Qed.

(** ** Values of headers *)

(** What one character of a value does, but for the jump over a value without
    a meaning. *)
Definition harmless (f : http_parser -> http_parser) : Prop :=
  (forall q n s h, f (set_header_state h (set_nread_of n (set_state s q))) = set_header_state h (set_nread_of n (set_state s (f q)))) /\
  (forall q, errno (f q) = errno q /\ lenient_http_headers (f q) = lenient_http_headers q).

Definition moves (h : header_states) (x : ascii) (i n : Z) (h' : header_states) (f : http_parser -> http_parser) : Prop :=
  harmless f /\ forall buf e k, ch e = x -> index (parser e) = i -> content_length (parser e) = n -> p_state e = s_header_value ->
    header_value_char buf h e k = k h' (on_parser f e).

Definition refuses (h : header_states) (x : ascii) (i n : Z) : Prop :=
  forall buf e k, ch e = x -> index (parser e) = i -> content_length (parser e) = n ->
    header_value_char buf h e k = Abort \/ exists e', header_value_char buf h e k = Error e' /\ errno (parser e') <> HPE_OK.

Lemma on_parser_id e : on_parser (fun q => q) e = e.
Proof. by destruct e. Qed.

Lemma value_char_cases h x i n : h <> h_general -> (exists h' f, moves h x i n h' f) \/ refuses h x i n.
Proof.
  intros Ng.
  assert (forall h', (forall buf e k, ch e = x -> index (parser e) = i -> content_length (parser e) = n -> p_state e = s_header_value -> header_value_char buf h e k = k h' e) ->
    exists h' f, moves h x i n h' f) as Kid.
  { intros h' H. exists h', (fun q => q). split; [done |]. intros buf e k E1 E2 E3 E4. rewrite (H buf e k), on_parser_id; done. }
  assert (forall h' f, harmless f -> (forall buf e k, ch e = x -> index (parser e) = i -> content_length (parser e) = n -> p_state e = s_header_value ->
    header_value_char buf h e k = k h' (on_parser f e)) -> exists h' f, moves h x i n h' f) as Kf by (intros h' f Hf H; by exists h', f).
  assert (harmless inc_index) as Hi by done.
  assert (harmless (set_index 0)) as H0 by done.
  assert (forall fl, harmless (fun q => set_index 0 (add_flag fl q))) as Ha by done.
  assert (forall fl, (forall buf e k, header_value_char buf h e k =
      if (ch e =? ",")%char then k h_matching_connection_token_start (on_parser (fun q => set_index 0 (add_flag fl q)) e)
      else if negb (ch e =? SP)%char then k h_matching_connection_token e else k h e) -> exists h' f, moves h x i n h' f) as Kcomma.
  { intros fl H. destruct (x =? ",")%char eqn:T1; [| destruct (x =? SP)%char eqn:T2].
    - eapply (Kf _ _ (Ha fl)). intros buf e k <- <- <- E4. by rewrite H, T1.
    - eapply Kid. intros buf e k <- <- <- E4. by rewrite H, T1, T2.
    - eapply Kid. intros buf e k <- <- <- E4. by rewrite H, T1, T2. }
  destruct h; try done.
  all: try (right; intros buf e k <- <- <-; unfold header_value_char; by left).
  all: try (left; eapply Kid; intros buf e k <- <- <- E4; unfold header_value_char; rewrite <- E4; by destruct e).
  all: try match goal with |- (exists h' f, moves ?h _ _ _ _ _) \/ _ =>
    let go w other done := left; apply (Kf (match_word w (LOWER x) ((i + 1) mod 128) other done h) inc_index Hi); intros buf e k <- <- <- E4; reflexivity in
    first [go CHUNKED h_general h_transfer_encoding_chunked | go KEEP_ALIVE h_matching_connection_token h_connection_keep_alive
          | go CLOSE h_matching_connection_token h_connection_close | go UPGRADE h_matching_connection_token h_connection_upgrade] end.
  1-2: destruct (x =? SP)%char eqn:T1;
    [left; eapply Kid; intros buf e k <- <- <- E4; unfold header_value_char; by rewrite T1 |].
  1-2: destruct (IS_NUM x) eqn:T2;
    [| right; intros buf e k <- <- <-; right; unfold header_value_char; rewrite T1, T2; by eexists].
  1-2: destruct ((ULLONG_MAX - 10) / 10 <? n) eqn:T3;
    [right; intros buf e k <- <- <-; right; unfold header_value_char; rewrite T1, T2, T3; by eexists |].
  1-2: left; apply (Kf h_content_length_num (set_content_length (u64 (u64 (n * 10) + (uchar x - 48))))); [done |];
    intros buf e k <- _ <- E4; unfold header_value_char; by rewrite T1, T2, T3.
  - destruct (x =? SP)%char eqn:T1.
    + left. eapply Kid. intros buf e k <- <- <- E4. unfold header_value_char. by rewrite T1.
    + right. intros buf e k <- <- <-. right. unfold header_value_char. rewrite T1. by eexists.
  - left. destruct (LOWER x =? "k")%char eqn:T1; [| destruct (LOWER x =? "c")%char eqn:T2; [| destruct (LOWER x =? "u")%char eqn:T3; [| destruct (STRICT_TOKEN (LOWER x) =? NUL)%char eqn:T4;
      [destruct ((LOWER x =? SP)%char || (LOWER x =? HT)%char) eqn:T5 |]]]].
    all: eapply Kid; intros buf e k <- <- <- E4; unfold header_value_char; rewrite ?T1, ?T2, ?T3, ?T4, ?T5; reflexivity.
  - left. destruct (x =? ",")%char eqn:T1.
    + eapply (Kf _ (set_index 0) H0). intros buf e k <- <- <- E4. unfold header_value_char. by rewrite T1.
    + eapply Kid. intros buf e k <- <- <- E4. unfold header_value_char. by rewrite T1.
  - left. destruct (x =? SP)%char eqn:T1; eapply Kid; intros buf e k <- <- <- E4; unfold header_value_char; rewrite T1; reflexivity.
  - left. by eapply Kcomma.
  - left. by eapply Kcomma.
  - left. by eapply Kcomma.
Qed.

Lemma value_end_eval buf start h e : (p e < length buf)%nat -> header_value_end buf start h e = COUNT_HEADER_SIZE (p e - start) (on_parser (set_header_state h) e).
Proof. intros L. unfold header_value_end. cbn [p on_parser set_parser]. by destruct (Nat.eqb_spec (p e) (length buf)); [lia |]. Qed.

Lemma value_loop_end buf fuel start h e : p e = length buf -> header_value_loop st buf (S fuel) start h e =
  COUNT_HEADER_SIZE (length buf - 1 - start) (set_p (length buf - 1) (on_parser (set_header_state h) e)).
Proof. intros P. cbn [header_value_loop]. rewrite P, Nat.eqb_refl. unfold header_value_end. cbn [p on_parser set_parser]. by rewrite P, Nat.eqb_refl. Qed.

Definition plain (x : ascii) : Prop := (x =? CR)%char = false /\ (x =? LF)%char = false.

Lemma value_loop_char buf fuel start h e x : buf !! p e = Some x -> plain x -> header_value_loop st buf (S fuel) start h e =
  if negb (lenient e) && negb (IS_HEADER_CHAR x) then fail HPE_INVALID_HEADER_TOKEN (set_ch x e)
  else header_value_char buf h (set_ch x e) (fun h e => header_value_loop st buf fuel start h (set_p (p e + 1) e)).
Proof.
  intros D [Nc Nl]. cbn [header_value_loop]. destruct (Nat.eqb_spec (p e) (length buf)) as [E | _]; [apply lookup_lt_Some in D; lia |].
  rewrite D. cbn [ch set_ch lenient]. by rewrite Nc, Nl.
Qed.

(** One character of a value is all there is. *)
Lemma value_eval x e h' f : plain x -> p e = 0%nat -> 0 <= nread e <= HTTP_MAX_HEADER_SIZE -> ch e = x -> p_state e = s_header_value ->
  negb (lenient e) && negb (IS_HEADER_CHAR x) = false ->
  (header_state (parser e) = h_general /\ h' = h_general /\ f = (fun q => q) \/
   header_state (parser e) <> h_general /\ moves (header_state (parser e)) x (index (parser e)) (content_length (parser e)) h' f) ->
  case_header_value st [x] e = Break (on_parser (fun q => set_header_state h' (f q)) e).
Proof.
  intros Pl P Rg Ec Ps Ok H. unfold case_header_value. change (S (length [x])) with 2%nat. rewrite (value_loop_char _ _ _ _ _ x) by (rewrite ?P; done). rewrite Ok, P.
  assert (header_value_char [x] (header_state (parser e)) (set_ch x e) (fun h e => header_value_loop st [x] 1 0 h (set_p (p e + 1) e)) =
    header_value_loop st [x] 1 0 h' (set_p 1 (on_parser f e))) as ->.
  - destruct H as [(Hg & -> & ->) | [Ng [_ Hm]]].
    + rewrite Hg. unfold header_value_char. cbn [p set_ch set_p]. rewrite P.
      pose proof (value_end_ok [x] 0 x eq_refl) as Ve. change (length [x]) with 1%nat in Ve. destruct Pl as [Nc%Ascii.eqb_neq Nl%Ascii.eqb_neq]. specialize (Ve Nc Nl).
      replace (value_end [x] 0) with 1%nat by lia. cbn [Nat.sub Nat.add]. rewrite on_parser_id. f_equal. rewrite <- Ec. by destruct e.
    + rewrite Hm by done. cbn [p on_parser set_parser set_ch]. rewrite P. rewrite <- Ec. by destruct e.
  - rewrite value_loop_end by done. rewrite count_eval by (cbn; pose proof max_header; lia). f_equal. destruct e; cbn in *; subst.
    unfold set_nread, set_p, on_parser, set_parser. cbn. f_equal. lia.
Qed.

(** The call for one character of a value. *)
Lemma accept_value x q u q' u' : state_of q = s_header_value -> plain x -> 0 <= nread_of q <= HTTP_MAX_HEADER_SIZE ->
  accept [x] q u = Some (q', u') ->
  nread_of q + 1 <= HTTP_MAX_HEADER_SIZE /\ negb (lenient_http_headers q) && negb (IS_HEADER_CHAR x) = false /\ exists h' f, harmless f /\
  (header_state q = h_general /\ h' = h_general /\ f = (fun q => q) \/ header_state q <> h_general /\ moves (header_state q) x (index q) (content_length q) h' f) /\
  q' = set_state s_header_value (set_nread_of (nread_of q + 1) (set_header_state h' (f q))) /\ u' = on_text cl header_value [x] u.
Proof.
  intros Es Pl Rg A. pose proof max_header as Mx. assert (nread_of q + 1 <= HTTP_MAX_HEADER_SIZE) as M by (eapply accept_counts; [by rewrite Es | done | done]). split; [done |].
  apply accept_one in A as (O & O' & Up & H). rewrite begin_header in H; [| by rewrite Es | done]. rewrite (proj2 (Z.ltb_ge _ _) M), rerun_eq in H.
  pose proof (begin_run_fields q u) as (B1 & B2 & B3 & B4 & B5 & B6). unfold switch in H. cbn [p_state set_nread set_ch] in H. rewrite B3, Es in H.
  set (e := set_nread (nread_of q + 1) (set_ch x (begin_run q u))) in *.
  assert (parser e = q) as Pe by exact B1. assert (lenient e = lenient_http_headers q) as Le by exact B5. assert (p e = 0%nat) as P by exact B6.
  destruct (negb (lenient_http_headers q) && negb (IS_HEADER_CHAR x)) eqn:Ok.
  { exfalso. unfold case_header_value in H. rewrite (value_loop_char _ _ _ _ _ x), Le, Ok in H by (rewrite ?P; done). cbn [rerun fail] in H. by apply finish_error in H. }
  split; [done |]. assert (forall h' f, harmless f ->
    (header_state q = h_general /\ h' = h_general /\ f = (fun q => q) \/ header_state q <> h_general /\ moves (header_state q) x (index q) (content_length q) h' f) ->
    q' = set_state s_header_value (set_nread_of (nread_of q + 1) (set_header_state h' (f q))) /\ u' = on_text cl header_value [x] u) as K.
  - intros h' f [_ Hf] Hm. rewrite <- Pe in Hm. rewrite (value_eval x e h' f) in H; try done; [| cbn; lia | by subst e; cbn; rewrite B3 | by rewrite Le].
    destruct H as [_ H]. rewrite (leftovers_eval [x] _ (Some header_value)) in H.
    + injection H as <- <-. split.
      * unfold saved. change (p_state _) with (p_state (begin_run q u)). change (parser _) with (set_header_state h' (f (parser e))). by rewrite B3, Es, Pe.
      * unfold open_text. change (header_value_mark (begin_run q u)) with (mark header_value (begin_run q u)). by rewrite begin_run_marks, Es, bool_decide_true, B2 by done.
    + cbn. by rewrite (proj1 (Hf _)), B1.
    + done.
    + intros j Nj. change (mark j (begin_run q u) = None). rewrite begin_run_marks, Es, bool_decide_false; [done | naive_solver].
    + intros j m. change (mark j (begin_run q u) = Some m -> (m <= 1)%nat). rewrite begin_run_marks. case_bool_decide; [intros [= <-]; lia | done].
  - destruct (decide (header_state q = h_general)) as [G | G]; [exists h_general, (fun q => q); split; [done |]; split; [by left | apply (K h_general (fun q => q)); [done | by left]] |].
    destruct (value_char_cases (header_state q) x (index q) (content_length q) G) as [(h' & f & Mv) | Rf].
    + exists h', f. split; [apply Mv |]. split; [by right | apply K; [apply Mv | by right]].
    + exfalso. clear K. unfold case_header_value in H. rewrite (value_loop_char _ _ _ _ _ x), Le, Ok, Pe in H by (rewrite ?P; done).
      match type of H with context [header_value_char ?b ?h ?e ?k] => destruct (Rf b e k) as [E | (e' & E & Er)] end; [done | by cbn; rewrite B1 | by cbn; rewrite B1 | |]; rewrite E in H; [done |].
      cbn in H. injection H as _ <- _. revert O'. unfold errno_ok. by case_bool_decide.
Qed.

Lemma memchr_none x i n k : memchr data x i n = None -> (i <= k < i + n)%nat -> data !! k <> Some x.
Proof.
  unfold memchr. intros H%fmap_None Lk D. rewrite list_find_None in H. rewrite Forall_forall in H. apply (H x); [| done].
  apply list_elem_of_lookup_2 with (k - i)%nat. rewrite lookup_take, lookup_drop by lia. rewrite decide_True by lia. by replace (i + (k - i))%nat with k by lia.
Qed.

Lemma memchr_first x i n j k : memchr data x i n = Some j -> (i <= k < j)%nat -> data !! k <> Some x.
Proof.
  unfold memchr. intros ([j' y] & (Ej & _ & H)%list_find_Some & ->)%fmap_Some Lk D. cbn [fst] in Lk. apply lookup_lt_Some in Ej. rewrite length_take in Ej.
  apply (H (k - i)%nat x); [| lia | done]. rewrite lookup_take_lt, lookup_drop by lia. by replace (i + (k - i))%nat with k by lia.
Qed.

(** Up to where a value is read: as far as [memchr] looked there is no end of
    a line. *)
Lemma value_end_plain i k y : (i <= k < value_end data i)%nat -> Z.of_nat (k - i) < HTTP_MAX_HEADER_SIZE -> data !! k = Some y -> plain y.
Proof.
  intros Lk Lm D. pose proof (lookup_lt_Some _ _ _ D) as Ld. assert (k < i + limit_of data i)%nat as Ll by (unfold limit_of, zlen; lia).
  assert (y <> CR /\ y <> LF) as [Nc Nl]; [| split; by apply Ascii.eqb_neq].
  unfold value_end in Lk. destruct (memchr data CR i _) as [cr|] eqn:Ec, (memchr data LF i _) as [lf|] eqn:El.
  1: destruct (Nat.leb_spec lf cr).
  all: split; intros ->; revert D; first [apply (memchr_none _ _ _ _ Ec) | apply (memchr_none _ _ _ _ El) | apply (memchr_first _ _ _ _ _ Ec) | apply (memchr_first _ _ _ _ _ El)]; lia.
Qed.

#[local] Abbreviation in_value_text := (running header_value s_header_value).

(** A value without a meaning is read without a look at it. *)
Lemma chars_run n start P e q u : in_value_text start P e q u -> rest (p e) q u -> header_state P = h_general -> (p e + n <= length data)%nat ->
  (forall i y, (p e <= i < p e + n)%nat -> nread_of q + Z.of_nat (i - p e) < HTTP_MAX_HEADER_SIZE -> data !! i = Some y -> plain y) ->
  exists q' u', in_value_text start P (set_p (p e + n) e) q' u' /\ rest (p e + n) q' u'.
Proof.
  revert e q u. induction n as [|n IH]; intros e q u R Rs G Ln L. { exists q, u. rewrite Nat.add_0_r. split; [| done]. by destruct e. }
  destruct (lookup_lt_is_Some_2 data (p e)) as [x D]; [lia |]. destruct (rest_next _ _ _ _ Rs D) as (q1 & u1 & A & Rs1).
  pose proof (run_twin _ _ _ _ _ _ _ R) as T. destruct (twin_fields _ _ T) as (Hs & _).
  pose proof (run_state _ _ _ _ _ _ _ R) as Es. pose proof (run_range _ _ _ _ _ _ _ R) as Rg.
  assert (nread_of q + 1 <= HTTP_MAX_HEADER_SIZE) as M by (eapply accept_counts; [by rewrite Es | done | done]).
  destruct (accept_value _ _ _ _ _ Es (L (p e) x ltac:(lia) ltac:(lia) D) Rg A) as (_ & _ & h' & f & _ & [(_ & -> & ->) | [Ng _]] & -> & ->); [| congruence].
  destruct (IH (set_p (p e + 1) e) _ _ (running_next _ _ _ _ P e (set_p (p e + 1) e) q (set_header_state h_general q) u x R D M ltac:(destruct T as (n1 & s1 & ->); destruct P; cbn in *; subst; by eexists _, _)
     eq_refl eq_refl eq_refl eq_refl eq_refl eq_refl (fun j => eq_refl) eq_refl) Rs1 G) as (q' & u' & R' & Rs').
  - cbn. lia.
  - intros i y Li Mi. apply L; [cbn in Li; lia |]. cbn in Mi, Li. lia.
  - cbn [p set_p] in R', Rs'. exists q', u'. by replace (p e + S n)%nat with (p e + 1 + n)%nat by lia.
Qed.

(** The ends of a value. *)
Lemma value_loop_cr buf fuel start h e : buf !! p e = Some CR -> header_value_loop st buf (S fuel) start h e =
  andthen (CALLBACK_DATA st buf header_value (on_parser (set_header_state h) (UPDATE_STATE s_header_almost_done (set_ch CR e)))) (header_value_end buf start h).
Proof.
  intros D. cbn [header_value_loop]. destruct (Nat.eqb_spec (p e) (length buf)) as [E | _]; [apply lookup_lt_Some in D; lia |]. by rewrite D.
Qed.

Lemma value_loop_lf buf fuel start h e : buf !! p e = Some LF -> header_value_loop st buf (S fuel) start h e =
  andthen (COUNT_HEADER_SIZE (p e - start) (UPDATE_STATE s_header_almost_done (set_ch LF e))) (fun e =>
  andthen (CALLBACK_DATA_NOADVANCE st buf header_value (on_parser (set_header_state h) e)) Reexecute).
Proof.
  intros D. cbn [header_value_loop]. destruct (Nat.eqb_spec (p e) (length buf)) as [E | _]; [apply lookup_lt_Some in D; lia |]. by rewrite D.
Qed.

(** Behind [CR] the bytes are counted after the callback, which does not see
    the counter. *)
Lemma cr_count buf start h e m : errno (parser e) = HPE_OK -> mark header_value e = Some m -> (m <= p e)%nat -> (p e < length buf)%nat ->
  0 <= nread e -> nread e + Z.of_nat (p e - start) <= HTTP_MAX_HEADER_SIZE ->
  andthen (CALLBACK_DATA st buf header_value e) (header_value_end buf start h) =
  andthen (CALLBACK_DATA st buf header_value (set_nread (nread e + Z.of_nat (p e - start)) e)) (fun e => Break (on_parser (set_header_state h) e)).
Proof.
  intros O M Lm L N0 N1. unfold CALLBACK_DATA. rewrite !(data_eval _ _ _ _ _ m) by (done || cbn [p set_nread]; lia). cbn [andthen].
  rewrite value_end_eval by exact L. match goal with |- COUNT_HEADER_SIZE _ ?E = _ => change (COUNT_HEADER_SIZE (p e - start) E = Break (set_nread (nread e + Z.of_nat (p e - start)) E)) end.
  by rewrite count_eval.
Qed.

Section line_end.
Context (start : nat) (h : header_states) (e : exec U) (q : http_parser) (u : U) (x : ascii) (q' : http_parser) (u' : U).
Hypothesis R : in_value_text start (set_header_state h (parser e)) e q u.
Hypothesis D : data !! p e = Some x.
Hypothesis A : accept [x] q u = Some (q', u').

Lemma line_end_setup : nread_of q + 1 <= HTTP_MAX_HEADER_SIZE /\ nread e + Z.of_nat (p e - start) = nread_of q + 1 /\ header_state q = h /\ state_of q = s_header_value /\
  sim (Some header_value) (p e) (set_nread (nread_of q + 1) (on_parser (set_header_state h) (set_ch x e)))
    (set_nread (nread_of q + 1) (on_parser (set_header_state h) (set_ch x (begin_run q u)))).
Proof.
  pose proof (run_state _ _ _ _ _ _ _ R) as Es. assert (nread_of q + 1 <= HTTP_MAX_HEADER_SIZE) as M by (eapply accept_counts; [by rewrite Es | by destruct R | exact A]).
  split_and!; [done | by destruct R | | done |].
  - by destruct (twin_fields _ _ (run_twin _ _ _ _ _ _ _ R)) as (-> & _).
  - assert (in_value_text start (set_header_state h (parser e)) (set_ch x e) q u) as R' by (by destruct R).
    pose proof (running_sim _ _ _ _ _ _ _ x R' eq_refl ltac:(done) D eq_refl M) as S.
    exact (sim_on _ _ _ _ (set_header_state h) (set_header_state h) S ltac:(intros ???; by eexists _, _) ltac:(done)).
Qed.

Lemma lf_advances fuel : x = LF -> exists e', rerun data (header_value_loop st data (S fuel) start h e) = Break e' /\ p e' = p e /\ at_byte (set_p (p e + 1) e') q' u'.
Proof.
  intros Ex. destruct line_end_setup as (M & N & Hh & Es & S). pose proof (run_range _ _ _ _ _ _ _ R) as Rg.
  eapply last_byte; [exact D | by rewrite Es | done | exact A |]. unfold switch. pose proof (begin_run_fields q u) as (B1 & _ & B3 & _ & _ & B6).
  cbn [p_state set_nread set_ch]. rewrite B3, Es. unfold case_header_value. cbn [parser p set_nread set_ch]. rewrite B1, B6, Hh. rewrite !value_loop_lf by (rewrite <- Ex; (exact D || by cbn; rewrite B6)).
  rewrite count_eval; cbn [nread UPDATE_STATE set_ch]; [| by destruct R | lia]. rewrite N.
  rewrite (count_eval _ (p (set_nread (nread_of q + 1) (set_ch x (begin_run q u))) - 0)); cbn [nread p set_nread UPDATE_STATE set_ch]; [| lia | rewrite B6; cbn; lia].
  rewrite B6. cbn [Nat.sub andthen]. change (Z.of_nat 0) with 0. rewrite Z.add_0_r. rewrite Ex in S |- *.
  apply data_sim; [left; apply (sim_update _ _ _ _ _ S) | done | done |]. intros e' eb' S' E. exists e', None. rewrite E. done.
Qed.

Lemma cr_advances fuel : x = CR -> exists e', rerun data (header_value_loop st data (S fuel) start h e) = Break e' /\ p e' = p e /\ at_byte (set_p (p e + 1) e') q' u'.
Proof.
  intros Ex. destruct line_end_setup as (M & N & Hh & Es & S). pose proof (run_range _ _ _ _ _ _ _ R) as Rg. pose proof (lookup_lt_Some _ _ _ D) as L.
  eapply last_byte; [exact D | by rewrite Es | done | exact A |]. unfold switch. pose proof (begin_run_fields q u) as (B1 & _ & B3 & _ & _ & B6).
  cbn [p_state set_nread set_ch]. rewrite B3, Es. unfold case_header_value. cbn [parser p set_nread set_ch]. rewrite B1, B6, Hh. rewrite !value_loop_cr by (rewrite <- Ex; (exact D || by cbn; rewrite B6)).
  pose proof (run_text _ _ _ _ _ _ _ R) as (m & Em & Lm & _). pose proof (run_p _ _ _ _ _ _ _ R) as Lp.
  rewrite (cr_count data start h _ m); [| by destruct R | done | cbn; lia | done | by destruct R | cbn; lia].
  rewrite (cr_count [x] 0 h _ 0); [| | | cbn; lia | cbn; rewrite B6; lia | cbn; lia | cbn; rewrite B6; cbn; lia].
  - match goal with |- context [set_nread (nread ?E + Z.of_nat (p ?E - start)) ?E] => change (nread E + Z.of_nat (p E - start)) with (nread e + Z.of_nat (p e - start)) end. rewrite N.
    match goal with |- context [set_nread (nread ?E + Z.of_nat (p ?E - 0)) ?E] => change (nread E + Z.of_nat (p E - 0)) with (nread_of q + 1 + Z.of_nat (p (begin_run q u) - 0)) end.
    rewrite B6, Z.add_0_r. rewrite Ex in S |- *. apply data_sim; [left; apply (sim_update _ _ _ _ _ S) | done | done |]. intros e' eb' S' E.
    apply (break_sim None); [| by cbn; rewrite E]. apply sim_on; [done | intros ???; by eexists _, _ | done].
  - destruct (accept_one _ _ _ _ _ A) as (O & _). cbn. by rewrite B1.
  - change (mark header_value (begin_run q u) = Some 0%nat). by rewrite begin_run_marks, Es, bool_decide_true.
Qed.
End line_end.

Lemma value_loop fuel start h e q u : in_value_text start (set_header_state h (parser e)) e q u -> rest (p e) q u -> (start < length data)%nat -> (length data < p e + fuel)%nat ->
  exists e' q' u', rerun data (header_value_loop st data fuel start h e) = Break e' /\ (start <= p e' < length data)%nat /\ at_byte (set_p (p e' + 1) e') q' u' /\ rest (p e' + 1) q' u'.
Proof.
  revert h e q u. induction fuel as [|fuel IH]; intros h e q u R Rs L Fu; [pose proof (run_p _ _ _ _ _ _ _ R); lia |].
  pose proof (run_p _ _ _ _ _ _ _ R) as Lp. destruct (decide (p e = length data)) as [El | Nl].
  { rewrite value_loop_end by done. pose proof (run_nread _ _ _ _ _ _ _ R) as N. pose proof (run_range _ _ _ _ _ _ _ R) as Rg. rewrite El in N.
    assert (nread e + Z.of_nat (length data - 1 - start) = nread_of q) as N' by lia.
    rewrite count_eval; cbn [nread set_p on_parser set_parser]; [| by destruct R | lia]. cbn [rerun]. eexists _, q, u. split; [reflexivity |]. cbn [p set_nread set_p].
    replace (length data - 1 + 1)%nat with (length data) by lia. split; [lia |]. rewrite El in Rs. split; [| done].
    assert (in_value_text start (parser (on_parser (set_header_state h) e)) (on_parser (set_header_state h) e) q u) as R' by (by destruct R). by eapply running_end. }
  destruct (lookup_lt_is_Some_2 data (p e)) as [x D]; [lia |]. destruct (rest_next _ _ _ _ Rs D) as (q1 & u1 & A & Rs1).
  destruct (Ascii.eqb_spec x CR) as [Ex | Nc]; [| destruct (Ascii.eqb_spec x LF) as [Ex | Nf]].
  1-2: destruct (cr_advances _ _ _ _ _ _ _ _ R D A fuel Ex) as (e' & -> & P' & A') || destruct (lf_advances _ _ _ _ _ _ _ _ R D A fuel Ex) as (e' & -> & P' & A');
    exists e', q1, u1; rewrite P'; split_and!; [done | lia | lia | done | done].
  assert (plain x) as Pl by (split; by apply Ascii.eqb_neq). rewrite (value_loop_char _ _ _ _ _ x) by done.
  pose proof (run_twin _ _ _ _ _ _ _ R) as T. destruct (accept_value _ _ _ _ _ (run_state _ _ _ _ _ _ _ R) Pl (run_range _ _ _ _ _ _ _ R) A) as (M & Ok & h' & f & Hf & Mv & -> & ->).
  destruct (twin_fields _ _ T) as (Hs & _ & Lq & _). change (header_state (set_header_state h (parser e))) with h in Hs. rewrite (run_lenient _ _ _ _ _ _ _ R), <- Lq, Ok.
  assert (twin (set_header_state h' (f (parser e))) (set_header_state h' (f q))) as T'.
  { destruct T as (n & s & ->). change (set_nread_of n (set_state s (set_header_state h (parser e)))) with (set_header_state h (set_nread_of n (set_state s (parser e)))).
    rewrite (proj1 Hf (parser e) n s h). by exists n, s. }
  pose proof (fun e' => running_next _ _ _ _ _ e e' q _ u x R D M T' (proj1 (proj2 Hf _)) (proj2 (proj2 Hf _))) as Nx. clear T' A.
  destruct Mv as [(Hg & -> & ->) | [Ng [_ Hm]]].
  - rewrite Hs in Hg. subst h. cbn [header_value_char p set_ch set_p]. pose proof (value_end_ok data (p e) x D Nc Nf) as Ve.
    specialize (Nx (set_p (p e + 1) (set_ch x e)) eq_refl eq_refl eq_refl eq_refl (fun j => eq_refl) eq_refl).
    destruct (chars_run (value_end data (p e) - 1 - p e) _ _ _ _ _ Nx Rs1 eq_refl) as (q2 & u2 & R2 & Rs2); [cbn; lia | |].
    { intros i y Li Mi Dy. cbn in Li, Mi. pose proof (run_range _ _ _ _ _ _ _ R). apply (value_end_plain (p e) i y); [lia | lia | done]. }
    cbn [p set_p] in R2, Rs2. replace (p e + 1 + (value_end data (p e) - 1 - p e))%nat with (value_end data (p e) - 1 + 1)%nat in R2, Rs2 by lia.
    apply (IH h_general (set_p (value_end data (p e) - 1 + 1) (set_p (value_end data (p e) - 1) (set_ch x e))) q2 u2 R2 Rs2); [done | cbn; lia].
  - rewrite Hs in Ng, Hm. rewrite Hm; [| done | by destruct T as (n & s & ->) | by destruct T as (n & s & ->) | by destruct R].
    apply (IH h' (set_p (p e + 1) (on_parser f (set_ch x e))) _ _ (Nx (set_p (p e + 1) (on_parser f (set_ch x e))) eq_refl eq_refl eq_refl eq_refl (fun j => eq_refl) eq_refl) Rs1); [done | cbn; lia].
Qed.

Lemma value_advances e q u : at_byte e q u -> rest (p e) q u -> (p e < length data)%nat -> p_state e = s_header_value -> advances e.
Proof.
  intros A Rs L Es. destruct (lookup_lt_is_Some_2 data (p e) L) as [x D]. destruct (rest_next _ _ _ _ Rs D) as (q1 & u1 & Ac & _).
  destruct (begin_running header_value e q u x q1 u1 A) as [Er R]; [by rewrite Es | done | by rewrite Es | done | done |]. rewrite Es in R.
  unfold advances. rewrite Er, rerun_eq. unfold switch. cbn [p_state set_nread set_ch]. rewrite Es. unfold case_header_value. cbn [p parser set_nread set_ch].
  apply (value_loop (S (length data)) (p e) (header_state (parser e)) (set_nread (nread e + 1) (set_ch x e)) q u); [| done | done | cbn; lia].
  change (parser (set_nread (nread e + 1) (set_ch x e))) with (parser e). replace (set_header_state (header_state (parser e)) (parser e)) with (parser e); [done | by destruct (parser e)].
Qed.

(** ** Bodies *)

(** In the middle of a body, which has a mark. *)
Record reading (s : state) (P : http_parser) e q u : Prop := {
  rd_twin : twin P q;
  rd_ok : errno P = HPE_OK;
  rd_state : state_of q = s;
  rd_nread : nread_of q = nread e;
  rd_lenient : lenient e = lenient_http_headers P;
  rd_range : 0 <= nread e <= HTTP_MAX_HEADER_SIZE;
  rd_p : (p e <= length data)%nat;
  rd_text : exists m, mark body e = Some m /\ (m <= p e)%nat /\ (forall j, j <> body -> mark j e = None) /\ u = text data body m (p e) (user e) }.

Lemma begin_reading e q u : at_byte e q u -> allowed (p_state e) = Some body -> reading (p_state e) (parser e) (MARK body e) q u.
Proof.
  intros [T O Es En El Er Lp (k & F & Tx)] Al. unfold MARK. destruct k as [k|].
  - assert (k = body) as -> by (unfold fits_before, fits in F; rewrite Al in F; naive_solver). destruct Tx as (m & Em & Lm & _ & Mj & Eu).
    rewrite Em. split; try done. by exists m.
  - destruct Tx as [Un ->]. rewrite (Un body). split; try done. exists (p e). split_and!; [done | done | intros j Nj; specialize (Un j); by destruct j |].
    unfold text. cbn. by rewrite Nat.eqb_refl.
Qed.

Lemma reading_next s s' P P' e q Q u x : reading s P e q u -> data !! p e = Some x -> twin P' Q -> errno P' = errno P -> lenient_http_headers P' = lenient_http_headers P ->
  nread_of Q = nread_of q -> state_of Q = s' -> reading s' P' (set_p (p e + 1) e) Q (on_text cl body [x] u).
Proof.
  intros [T O Es En El Er Lp (m & Em & Lm & Mj & Eu)] D T' O' L' N' S'. pose proof (lookup_lt_Some _ _ _ D). split; cbn; try congruence; [lia |].
  exists m. split_and!; [done | lia | intros j Nj; rewrite <- (Mj j Nj); by destruct j |]. rewrite Eu. by apply text_next.
Qed.

(** The bytes ran out, or the body did. *)
Lemma reading_end s P e e' q u : reading s P e q u -> allowed s = Some body -> parser e' = P -> p_state e' = s -> nread e' = nread e -> lenient e' = lenient e -> user e' = user e ->
  (forall j, mark j e' = mark j e) -> p e' = p e -> (exists m, mark body e = Some m /\ m < p e)%nat -> at_byte e' q u.
Proof.
  intros [T O Es En El Er Lp (m & Em & Lm & Mj & Eu)] Al F1 F2 F3 F4 F5 F6 F7 (m' & Em' & Lm'). rewrite Em in Em'. injection Em' as <-.
  split; rewrite ?F1, ?F2, ?F3, ?F4, ?F7; try congruence; try done.
  exists (Some body). split; [by right |]. exists m. rewrite F6, F5. split_and!; [done | lia | by left | intros j Nj; rewrite F6; by apply Mj | done].
Qed.

Lemma begin_body x q u : PARSING_HEADER (state_of q) = false -> round st [x] (begin_run q u) = rerun [x] (switch st [x] (set_ch x (begin_run q u))).
Proof.
  intros Ph. pose proof (begin_run_fields q u) as (_ & _ & B3 & _ & _ & B6). unfold round. rewrite B6. cbn [lookup list_lookup]. rewrite B3, Ph. cbn [andthen]. apply rerun_eq.
Qed.

(** A call that leaves nothing but a mark of the body. *)
Lemma accept_mark x q u q' u' s f : accept [x] q u = Some (q', u') -> PARSING_HEADER (state_of q) = false -> allowed (state_of q) = Some body ->
  switch st [x] (set_ch x (begin_run q u)) = Break (set_p 0 (UPDATE_STATE s (on_parser f (MARK body (set_ch x (begin_run q u)))))) -> errno (f q) = errno q ->
  q' = set_state s (set_nread_of (nread_of q) (f q)) /\ u' = on_text cl body [x] u.
Proof.
  intros (O & O' & Up & H)%accept_one Ph Al E Of. rewrite begin_body, E in H by done. destruct H as [_ H].
  pose proof (begin_run_fields q u) as (B1 & B2 & B3 & B4 & B5 & B6).
  assert (mark body (begin_run q u) = None) as Mb by (rewrite begin_run_marks, Al, bool_decide_false; [done | naive_solver]).
  unfold MARK in H. change (mark body (set_ch x (begin_run q u))) with (mark body (begin_run q u)) in H. rewrite Mb in H.
  rewrite (leftovers_eval [x] _ (Some body)) in H.
  - injection H as <- <-. unfold saved, open_text. cbn -[begin_run]. by rewrite B1, B2, B4, B6.
  - cbn -[begin_run]. by rewrite B1, Of.
  - done.
  - intros j Nj. transitivity (mark j (begin_run q u)); [by destruct j |]. rewrite begin_run_marks, Al, bool_decide_false; [done | naive_solver].
  - intros j m Ej. destruct j; try (match type of Ej with ?l = _ => match l with context [mark ?j _] => change (mark j (begin_run q u) = Some m) in Ej end end; rewrite begin_run_marks, Al in Ej; by case_bool_decide; naive_solver).
    cbn -[begin_run] in Ej. injection Ej as <-. cbn -[begin_run]. rewrite B6. lia.
Qed.

Lemma ready_core q : ready q -> errno q = HPE_OK -> core (state_of q) q.
Proof. intros R O. by destruct (R (or_introl O)). Qed.

Lemma max_length : ULLONG_MAX = 2 ^ 64 - 1.
Proof. reflexivity. Qed.

(** One byte of a body with a known length. *)
Lemma take_one x e : p e = 0%nat -> 0 < content_length (parser e) < ULLONG_MAX ->
  take_body [x] e = set_p 0 (UPDATE_STATE (p_state e) (on_parser (fun q => set_content_length (content_length q - 1) q) (MARK body e))).
Proof.
  intros P C. pose proof max_length. unfold take_body, to_read. rewrite P. change (zlen [x] - Z.of_nat 0) with 1. rewrite Z.min_r by lia. change (Z.to_nat (Z.of_nat 0 + 1 - 1)) with 0%nat.
  unfold on_parser. replace (content_length (parser (MARK body e))) with (content_length (parser e)) by (unfold MARK; by destruct (mark body e)). rewrite u64_small by lia.
  unfold MARK. by destruct (mark body e), e.
Qed.

Lemma known_length_ok e : 0 < content_length (parser e) < ULLONG_MAX -> length_known e = true.
Proof. intros C. unfold length_known. by rewrite (proj2 (Z.eqb_neq _ _)), (proj2 (Z.eqb_neq _ _)) by lia. Qed.

Lemma accept_body x q u q' u' : state_of q = s_body_identity \/ state_of q = s_chunk_data -> ready q -> 1 < content_length q -> accept [x] q u = Some (q', u') ->
  q' = set_content_length (content_length q - 1) q /\ u' = on_text cl body [x] u.
Proof.
  intros Es R C A. destruct (accept_one _ _ _ _ _ A) as (O & _). pose proof (ready_core q R O) as Co. pose proof (begin_run_fields q u) as (B1 & B2 & B3 & B4 & B5 & B6).
  assert (q = set_state (state_of q) (set_nread_of (nread_of q) q)) as Eq by by destruct q. rewrite Eq at 2.
  change (set_content_length (content_length q - 1) (set_state (state_of q) (set_nread_of (nread_of q) q))) with (set_state (state_of q) (set_nread_of (nread_of q) (set_content_length (content_length q - 1) q))).
  apply (accept_mark x q u q' u' _ (fun q => set_content_length (content_length q - 1) q) A); [by destruct Es as [-> | ->] | by destruct Es as [-> | ->] | | done].
  unfold switch. cbn [p_state set_ch]. rewrite B3.
  assert (content_length (parser (set_ch x (begin_run q u))) = content_length q) as Ec by (cbn -[begin_run]; by rewrite B1).
  assert (forall s, content_length (parser (set_p 0 (UPDATE_STATE s (on_parser (fun q => set_content_length (content_length q - 1) q) (MARK body (set_ch x (begin_run q u))))))) =
    content_length q - 1) as Ed by (intros s; unfold MARK; destruct (mark body _); cbn -[begin_run]; by rewrite B1).
  destruct Es as [Es | Es]; rewrite Es in Co |- *; unfold core in Co.
  - unfold case_body_identity, assert_. rewrite known_length_ok by (rewrite Ec; lia). cbn [andthen]. rewrite take_one; [| done | rewrite Ec; lia].
    rewrite Ed, (proj2 (Z.eqb_neq _ 0)) by lia. cbn [p_state set_ch]. by rewrite B3, Es.
  - unfold case_chunk_data, assert_chunked, assert_. cbn [parser set_ch]. rewrite B1. destruct Co as (_ & Ch & Cl). rewrite Ch. cbn [andthen]. rewrite known_length_ok by (rewrite Ec; lia). cbn [andthen].
    rewrite take_one; [| done | rewrite Ec; lia]. rewrite Ed, (proj2 (Z.eqb_neq _ 0)) by lia. cbn [p_state set_ch]. by rewrite B3, Es.
Qed.

(** The last byte of a chunk. *)
Lemma accept_chunk_end x q u q' u' : state_of q = s_chunk_data -> ready q -> content_length q = 1 -> accept [x] q u = Some (q', u') ->
  q' = set_state s_chunk_data_almost_done (set_content_length 0 q) /\ u' = on_text cl body [x] u.
Proof.
  intros Es R C A. destruct (accept_one _ _ _ _ _ A) as (O & _). pose proof (ready_core q R O) as Co. pose proof (begin_run_fields q u) as (B1 & B2 & B3 & B4 & B5 & B6).
  assert (q = set_nread_of (nread_of q) q) as Eq by by destruct q. rewrite Eq at 1.
  change (set_content_length 0 (set_nread_of (nread_of q) q)) with (set_nread_of (nread_of q) (set_content_length 0 q)). replace 0 with (content_length q - 1) by lia.
  apply (accept_mark x q u q' u' _ (fun q => set_content_length (content_length q - 1) q) A); [by rewrite Es | by rewrite Es | | done].
  unfold switch. cbn [p_state set_ch]. rewrite B3, Es in *. unfold core in Co. destruct Co as (_ & Ch & Cl).
  unfold case_chunk_data, assert_chunked, assert_. cbn [parser set_ch]. rewrite B1, Ch. cbn [andthen].
  assert (content_length (parser (set_ch x (begin_run q u))) = 1) as Ec by (cbn -[begin_run]; by rewrite B1).
  rewrite known_length_ok by (rewrite Ec, max_length; lia). cbn [andthen]. rewrite take_one; [| done | rewrite Ec, max_length; lia].
  destruct (Z.eqb_spec (content_length (parser (set_p 0 (UPDATE_STATE (p_state (set_ch x (begin_run q u)))
    (on_parser (fun q => set_content_length (content_length q - 1) q) (MARK body (set_ch x (begin_run q u)))))))) 0) as [_ | N]; [done |].
  exfalso. apply N. unfold MARK. destruct (mark body _); cbn -[begin_run]; rewrite B1, C; done.
Qed.

(** One byte of a body that ends with the stream. *)
Lemma accept_eof x q u q' u' : state_of q = s_body_identity_eof -> accept [x] q u = Some (q', u') -> q' = q /\ u' = on_text cl body [x] u.
Proof.
  intros Es A. pose proof (begin_run_fields q u) as (B1 & B2 & B3 & B4 & B5 & B6).
  destruct (accept_mark x q u q' u' s_body_identity_eof (fun q => q) A) as [-> ->]; [by rewrite Es | by rewrite Es | | done | split; [| done]].
  - unfold switch. cbn [p_state set_ch]. rewrite B3, Es. unfold case_body_identity_eof. f_equal. cbn [length Nat.sub]. rewrite on_parser_id. unfold MARK.
    destruct (mark body _); f_equal; unfold UPDATE_STATE; cbn -[begin_run]; rewrite <- Es, <- B3; done.
  - rewrite <- Es. by destruct q.
Qed.

Lemma twin_length P q n : twin P q -> content_length q = content_length P /\ twin (set_content_length n P) (set_content_length n q).
Proof. intros (m & s & ->). split; [done |]. by exists m, s. Qed.

Lemma body_run n s P e q u : reading s P e q u -> rest (p e) q u -> s = s_body_identity \/ s = s_chunk_data -> Z.of_nat n < content_length P -> (p e + n <= length data)%nat ->
  exists q' u', reading s (set_content_length (content_length P - Z.of_nat n) P) (set_p (p e + n) e) q' u' /\ rest (p e + n) q' u'.
Proof.
  revert P e q u. induction n as [|n IH]; intros P e q u R Rs Hs C L.
  { exists q, u. change (Z.of_nat 0) with 0. rewrite Nat.add_0_r, Z.sub_0_r. split; [| done]. by destruct e, P. }
  destruct (lookup_lt_is_Some_2 data (p e)) as [x D]; [lia |]. destruct (rest_next _ _ _ _ Rs D) as (q1 & u1 & A & Rs1). pose proof (rd_state _ _ _ _ _ R) as Es.
  destruct (twin_length _ _ (content_length P - 1) (rd_twin _ _ _ _ _ R)) as [Eq T].
  destruct (accept_body x q u q1 u1) as [-> ->]; [by rewrite Es | apply Rs | lia | done |]. rewrite Eq in Rs1.
  destruct (IH _ _ _ _ (reading_next s s P _ e q _ u x R D T eq_refl eq_refl eq_refl Es) Rs1 Hs) as (q' & u' & R' & Rs'); [cbn; lia | cbn; lia |].
  cbn [p set_p] in R', Rs'. exists q', u'. replace (p e + S n)%nat with (p e + 1 + n)%nat by lia. split; [| done].
  replace (content_length P - Z.of_nat (S n)) with (content_length P - 1 - Z.of_nat n) by lia. exact R'.
Qed.

Lemma eof_run n P e q u : reading s_body_identity_eof P e q u -> rest (p e) q u -> (p e + n <= length data)%nat ->
  exists q' u', reading s_body_identity_eof P (set_p (p e + n) e) q' u' /\ rest (p e + n) q' u'.
Proof.
  revert e q u. induction n as [|n IH]; intros e q u R Rs L. { exists q, u. rewrite Nat.add_0_r. split; [| done]. by destruct e. }
  destruct (lookup_lt_is_Some_2 data (p e)) as [x D]; [lia |]. destruct (rest_next _ _ _ _ Rs D) as (q1 & u1 & A & Rs1). pose proof (rd_state _ _ _ _ _ R) as Es.
  destruct (accept_eof x q u q1 u1 Es A) as [-> ->].
  destruct (IH _ _ _ (reading_next _ _ P P e q q u x R D (rd_twin _ _ _ _ _ R) eq_refl eq_refl eq_refl Es) Rs1) as (q' & u' & R' & Rs'); [cbn; lia |].
  cbn [p set_p] in R', Rs'. exists q', u'. by replace (p e + S n)%nat with (p e + 1 + n)%nat by lia.
Qed.

(** What is read at once. *)
Lemma take_eval e : 0 < content_length (parser e) < ULLONG_MAX -> (p e < length data)%nat -> exists n : nat, (0 < n <= length data - p e)%nat /\ Z.of_nat n <= content_length (parser e) /\
  (Z.of_nat n = content_length (parser e) \/ n = length data - p e)%nat /\
  take_body data e = set_p (p e + n - 1) (set_parser (set_content_length (content_length (parser e) - Z.of_nat n) (parser e)) (MARK body e)).
Proof.
  intros C L. pose proof max_length. exists (Z.to_nat (to_read data e)). unfold to_read, zlen. split_and!; [lia | lia | lia | lia |]. unfold take_body, to_read, zlen, on_parser.
  assert (parser (MARK body e) = parser e) as -> by (unfold MARK; by destruct (mark body e)). rewrite u64_small by lia. rewrite Z2Nat.id by lia. f_equal. lia.
Qed.

Lemma reading_ch s P e q u y : reading s P e q u -> reading s P (set_ch y e) q u.
Proof. intros [T O Es En El Er Lp (m & Em & Lm & Mj & Eu)]. split; try done. exists m. split_and!; try done. Qed.

(** Not the end of the body. *)
Lemma reading_all s P0 P e q u q' u' j : reading s P0 e q u -> allowed s = Some body -> (p e < length data)%nat -> p_state e = s ->
  reading s P (set_p (length data) e) q' u' -> j = (length data - 1)%nat -> at_byte (set_p (j + 1) (set_p j (set_parser P e))) q' u'.
Proof.
  intros R Al L Es R' ->. replace (length data - 1 + 1)%nat with (length data) by lia. eapply (reading_end s P _ _ _ _ R' Al); try done.
  destruct R as [_ _ _ _ _ _ _ (m & Em & Lm & _)]. exists m. split; [done |]. cbn. lia.
Qed.

Lemma begin_round e x : data !! p e = Some x -> PARSING_HEADER (p_state e) = false -> round st data e = rerun data (switch st data (set_ch x e)).
Proof. intros D Ph. unfold round. rewrite D, Ph. cbn [andthen]. apply rerun_eq. Qed.

Lemma at_byte_ch e q u y : at_byte e q u -> at_byte (set_ch y e) q u.
Proof. intros [T O Es En El Er Lp (k & F & Tx)]. split; try done. exists k. split; [done |]. by destruct k. Qed.

Lemma mark_body e : p (MARK body e) = p e /\ p_state (MARK body e) = p_state e /\ parser (MARK body e) = parser e /\ ch (MARK body e) = ch e.
Proof. unfold MARK. by destruct (mark body e). Qed.

Lemma begin_batch s e q u : at_byte e q u -> (p e < length data)%nat -> p_state e = s -> allowed s = Some body -> PARSING_HEADER s = false ->
  exists e1, round st data e = rerun data (switch st data e1) /\ p e1 = p e /\ p_state e1 = s /\ reading s (parser e1) (MARK body e1) q u.
Proof.
  intros A L Es Al Ph. destruct (lookup_lt_is_Some_2 data (p e) L) as [x D]. exists (set_ch x e). split; [apply begin_round; [done | by rewrite Es] |]. split_and!; [done | done |].
  subst s. by apply (begin_reading (set_ch x e)); [apply at_byte_ch |].
Qed.

Lemma eof_advances e q u : at_byte e q u -> rest (p e) q u -> (p e < length data)%nat -> p_state e = s_body_identity_eof -> advances e.
Proof.
  intros A Rs L Es. destruct (begin_batch _ _ _ _ A L Es eq_refl eq_refl) as (e1 & Er & P1 & S1 & R). unfold advances. rewrite Er, <- P1 in *.
  unfold switch. rewrite S1. unfold case_body_identity_eof. cbn [rerun]. destruct (mark_body e1) as (Pm & Sm & Qm & _).
  destruct (eof_run (length data - p e1) _ _ _ _ R) as (q' & u' & R' & Rs'); [by rewrite Pm | lia |]. rewrite Pm in R', Rs'. replace (p e1 + (length data - p e1))%nat with (length data) in R', Rs' by lia.
  eexists _, q', u'. split; [reflexivity |]. cbn [p set_p]. split; [lia |]. split; [| by replace (length data - 1 + 1)%nat with (length data) by lia].
  pose proof (reading_all _ _ _ _ _ _ _ _ _ R eq_refl ltac:(lia) ltac:(congruence) R' eq_refl) as H. by replace (set_parser (parser e1) (MARK body e1)) with (MARK body e1) in H by (rewrite <- Qm; by destruct (MARK body e1)).
Qed.

(** A body with a length: the part of it that is not the last one. *)
Lemma body_advances s e q u : at_byte e q u -> rest (p e) q u -> (p e < length data)%nat -> p_state e = s -> s = s_body_identity \/ s = s_chunk_data ->
  exists e1 n, round st data e = rerun data (switch st data e1) /\ p e1 = p e /\ p_state e1 = s /\ 0 < content_length (parser e1) < ULLONG_MAX /\ (p e + n < length data)%nat /\
    chunked (parser e1) = chunked q /\
    let e2 := set_p (p e + n) (set_parser (set_content_length (content_length (parser e1) - Z.of_nat (n + 1)) (parser e1)) (MARK body e1)) in take_body data e1 = e2 /\
    (content_length (parser e2) <> 0 /\ (exists q' u', at_byte (set_p (p e2 + 1) e2) q' u' /\ rest (p e2 + 1) q' u') \/
     content_length (parser e2) = 0 /\ exists q' u', reading s (set_content_length 1 (parser e2)) e2 q' u' /\ rest (p e2) q' u').
Proof.
  intros A Rs L Es Hs. destruct (begin_batch _ _ _ _ A L Es ltac:(by destruct Hs as [-> | ->]) ltac:(by destruct Hs as [-> | ->])) as (e1 & Er & P1 & S1 & R).
  destruct (mark_body e1) as (Pm & Sm & Qm & _). destruct (twin_length _ _ 0 (rd_twin _ _ _ _ _ R)) as [Eq _].
  assert (0 < content_length (parser e1) < ULLONG_MAX) as C.
  { rewrite <- Eq. pose proof (ready_core q (proj1 Rs)) as Co. rewrite (rd_state _ _ _ _ _ R) in Co. destruct (twin_fields _ _ (rd_twin _ _ _ _ _ R)) as (_ & Oq & _).
    specialize (Co (eq_trans Oq (rd_ok _ _ _ _ _ R))). unfold core in Co. destruct Hs as [-> | ->]; tauto. }
  destruct (take_eval e1 C) as (n & Ln & Cn & Hn & Et); [lia |]. exists e1, (n - 1)%nat. rewrite <- P1 in *.
  split_and!; [done | done | done | apply C | apply C | lia | by destruct (rd_twin _ _ _ _ _ R) as (x & y & ->) |].
  replace (n - 1 + 1)%nat with n by lia. rewrite Et. replace (p e1 + n - 1)%nat with (p e1 + (n - 1))%nat by lia. split; [done |].
  cbn [parser content_length set_p set_parser set_content_length p].
  destruct (decide (content_length (parser e1) - Z.of_nat n = 0)) as [Z0 | Nz]; [right | left]; (split; [done |]).
  - destruct (body_run (n - 1) _ _ _ _ _ R) as (q' & u' & R' & Rs'); [by rewrite Pm | done | lia | lia |]. exists q', u'. rewrite Pm in R', Rs'. split; [| done].
    replace (content_length (parser e1) - Z.of_nat (n - 1)) with 1 in R' by lia. destruct R' as [T O Es' En El Er' Lp (m & Em & Lm & Mj & Eu)]. split; try done. by exists m.
  - destruct (body_run n _ _ _ _ _ R) as (q' & u' & R' & Rs'); [by rewrite Pm | done | lia | lia |]. exists q', u'. rewrite Pm in R', Rs'.
    replace (p e1 + n)%nat with (length data) in R', Rs' by lia. replace (p e1 + (n - 1) + 1)%nat with (length data) by lia. split; [| done].
    pose proof (reading_all _ _ _ _ _ _ _ _ (p e1 + (n - 1)) R ltac:(by destruct Hs as [-> | ->]) ltac:(lia) ltac:(congruence) R' ltac:(lia)) as H.
    by replace (p e1 + (n - 1) + 1)%nat with (length data) in H by lia.
Qed.

Lemma chunk_data_advances e q u : at_byte e q u -> rest (p e) q u -> (p e < length data)%nat -> p_state e = s_chunk_data -> advances e.
Proof.
  intros A Rs L Es. destruct (body_advances _ _ _ _ A Rs L Es (or_intror eq_refl)) as (e1 & n & Er & P1 & S1 & C & Ln & Ck & Et & H).
  assert (chunked (parser e1)) as Ch.
  { rewrite Ck. pose proof (ready_core q (proj1 Rs)) as Co. rewrite (at_state _ _ _ A), Es in Co. destruct (twin_fields _ _ (at_twin _ _ _ A)) as (_ & Oq & _).
    by destruct (Co (eq_trans Oq (at_ok _ _ _ A))) as (_ & ? & _). }
  unfold advances. rewrite Er. unfold switch. rewrite S1. unfold case_chunk_data, assert_chunked, assert_. rewrite Ch. cbn [andthen]. rewrite (known_length_ok e1 C). cbn [andthen]. rewrite Et.
  match type of Et with _ = ?E => set (e2 := E) in * end. assert (p e2 = p e + n)%nat as P2 by done. assert (p_state e2 = s_chunk_data) as S2 by (destruct (mark_body e1) as (_ & Sm & _); exact (eq_trans Sm S1)). clearbody e2.
  destruct H as [(Nz & q' & u' & A' & Rs') | (Z0 & q' & u' & R' & Rs')].
  - rewrite (proj2 (Z.eqb_neq _ _) Nz). cbn [rerun]. exists e2, q', u'. split; [done |]. split; [lia | done].
  - rewrite Z0. change (0 =? 0) with true. cbn [rerun go]. destruct (lookup_lt_is_Some_2 data (p e2)) as [y D]; [lia |]. destruct (rest_next _ _ _ _ Rs' D) as (q2 & u2 & A2 & Rs2).
    pose proof (rd_state _ _ _ _ _ R') as Es'. destruct (twin_length _ _ 0 (rd_twin _ _ _ _ _ R')) as [Eq T].
    destruct (accept_chunk_end y q' u' q2 u2 Es') as [-> ->]; [apply Rs' | by rewrite Eq | done |].
    exists (UPDATE_STATE s_chunk_data_almost_done e2). eexists _, _. split; [reflexivity |]. cbn [p UPDATE_STATE]. split; [lia |]. split; [| exact Rs2].
    assert (twin (parser e2) (set_state s_chunk_data_almost_done (set_content_length 0 q'))) as T2.
    { destruct T as (a & b & ->). exists a, s_chunk_data_almost_done. rewrite <- Z0. by destruct (parser e2). }
    eapply (reading_end _ _ _ _ _ _ (reading_next _ s_chunk_data_almost_done _ (parser e2) e2 q' _ u' y R' D T2 eq_refl eq_refl eq_refl eq_refl)); try done.
    destruct R' as [_ _ _ _ _ _ _ (m & Em & Lm & _)]. exists m. split; [done |]. cbn. lia.
Qed.

(** The last byte of a body: the message ends, and the byte is executed again. *)
Lemma message_done_ch y e e1 : errno (parser e) = HPE_OK -> p_state e = s_message_done -> reexecute st data 4 (set_ch y e) = Break e1 ->
  exists e2, reexecute st data 4 e = Break e2 /\ e1 = set_ch y e2.
Proof.
  intros O Es. cbn [reexecute]. unfold switch. cbn [p_state set_ch]. rewrite Es. unfold case_message_done, message_complete, CALLBACK_NOTIFY.
  change (on_message_complete st) with (Some (note_cb message_complete_)). rewrite !notify_eval by exact O. cbn [andthen parser set_user on_parser set_parser UPDATE_STATE upgrade set_state set_ch].
  destruct (upgrade (parser e)); [done |]. intros [= <-]. by eexists.
Qed.

Lemma rerun_again e : rerun data (andthen (Break e) Reexecute) = reexecute st data 4 e.
Proof. reflexivity. Qed.

Lemma last_body_sim e q u y : reading s_body_identity (set_content_length 1 (parser e)) e q u -> content_length (parser e) = 0 -> data !! p e = Some y -> ch e = y ->
  p_state e = s_body_identity ->
  simO (p e) (andthen (CALLBACK_DATA_ st data body (fun m => p e - m + 1)%nat (p e) (UPDATE_STATE s_message_done e)) Reexecute)
    (switch st [y] (set_ch y (begin_run q u))).
Proof.
  intros [T O Es En El Er Lp (m & Em & Lm & Mj & Eu)] Z0 D Ec Ps. pose proof (begin_run_fields q u) as (B1 & B2 & B3 & B4 & B5 & B6). pose proof (lookup_lt_Some _ _ _ D) as Ld.
  destruct (twin_length _ _ 0 T) as [Eq T0]. cbn in Eq. change (errno (parser e) = HPE_OK) in O.
  unfold switch. cbn [p_state set_ch]. rewrite B3, Es. unfold case_body_identity, assert_. rewrite known_length_ok by (cbn -[ULLONG_MAX begin_run]; rewrite B1, Eq, max_length; lia).
  cbn [andthen]. rewrite take_one; [| done | cbn -[ULLONG_MAX begin_run]; rewrite B1, Eq, max_length; lia].
  assert (mark body (begin_run q u) = None) as Mb by (rewrite begin_run_marks, Es, bool_decide_false; [done | naive_solver]).
  unfold MARK. change (mark body (set_ch y (begin_run q u))) with (mark body (begin_run q u)). rewrite Mb.
  match goal with |- context [(content_length (parser ?E) =? 0)] => set (eb := E) end.
  assert (parser eb = set_content_length 0 q /\ user eb = u /\ nread eb = nread e /\ lenient eb = lenient e /\ ch eb = y /\ p eb = 0%nat /\
    forall j, mark j eb = if bool_decide (j = body) then Some 0%nat else None) as (F1 & F2 & F3 & F4 & F5 & F6 & F7).
  { destruct (twin_fields _ _ T) as (_ & _ & Lq & _). subst eb. cbn -[begin_run set_mark]. split_and!; [| exact B2 | exact (eq_trans B4 En) | exact (eq_trans B5 (eq_trans Lq (eq_sym El))) | done | done |].
    - change (set_content_length (content_length (parser (begin_run q u)) - 1) (parser (begin_run q u)) = set_content_length 0 q). by rewrite B1, Eq.
    - intros j. transitivity (mark j (set_mark body (Some (p (begin_run q u))) (begin_run q u))); [by destruct j |]. rewrite mark_set_mark, B6.
      destruct (decide (j = body)) as [-> | Nj]; [done |]. rewrite !bool_decide_false by congruence. rewrite begin_run_marks, bool_decide_false; [done |]. rewrite Es. naive_solver. }
  clearbody eb. rewrite F1. change (content_length (set_content_length 0 q)) with 0. change (0 =? 0) with true. cbv iota.
  rewrite (data_eval data _ _ _ _ m); [| exact O | exact Em | exact Lm | cbn; lia]. cbn [andthen].
  rewrite (data_eval [y] _ _ _ _ 0); [| change (errno (parser eb) = HPE_OK); rewrite F1; exact (eq_trans (proj1 (proj2 (twin_fields _ _ T))) O) | by change (mark body eb = Some 0%nat); rewrite F7 | cbn; lia | cbn; rewrite F6; cbn; lia].
  cbn [andthen]. eexists _, None. split; [reflexivity |]. split; [| split; done]. split.
  - cbn. rewrite F1. destruct T0 as (a & b & ->). exists a, s_message_done. rewrite <- Z0 at 1. by destruct (parser e).
  - exact O.
  - done.
  - exact F3.
  - exact F4.
  - exact (eq_trans F5 (eq_sym Ec)).
  - exact F6.
  - done.
  - done.
  - split_and!.
    + intros j. rewrite mark_set_mark. case_bool_decide; [done |]. apply Mj. congruence.
    + intros j. rewrite mark_set_mark. case_bool_decide as Ej; [done |]. change (mark j eb = None). by rewrite F7, bool_decide_false by congruence.
    + cbn [user set_mark set_user p UPDATE_STATE]. rewrite F6, F2. cbn [Nat.sub Nat.add take drop on_parser set_parser]. rewrite Eu.
      change (user (UPDATE_STATE s_message_done e)) with (user e). rewrite (text_next body m (p e) y) by done. unfold text. destruct (Nat.eqb_spec m (p e + 1)); [lia |].
      do 3 f_equal. lia.
  - exact Er.
  - exact El.
Qed.

Lemma identity_advances e q u : at_byte e q u -> rest (p e) q u -> (p e < length data)%nat -> p_state e = s_body_identity -> advances e.
Proof.
  intros A Rs L Es. destruct (body_advances _ _ _ _ A Rs L Es (or_introl eq_refl)) as (e1 & n & Er & P1 & S1 & C & Ln & _ & Et & H).
  unfold advances. rewrite Er. unfold switch. rewrite S1. unfold case_body_identity, assert_. rewrite (known_length_ok e1 C). cbn [andthen]. rewrite Et.
  match type of Et with _ = ?E => set (e2 := E) in * end. assert (p e2 = p e + n)%nat as P2 by done.
  assert (p_state e2 = s_body_identity) as S2 by (destruct (mark_body e1) as (_ & Sm & _); exact (eq_trans Sm S1)). clearbody e2.
  destruct H as [(Nz & q' & u' & A' & Rs') | (Z0 & q' & u' & R' & Rs')].
  - rewrite (proj2 (Z.eqb_neq _ _) Nz). cbn [rerun]. exists e2, q', u'. split; [done |]. split; [lia | done].
  - rewrite Z0. change (0 =? 0) with true. cbv iota. destruct (lookup_lt_is_Some_2 data (p e2)) as [y D]; [lia |]. destruct (rest_next _ _ _ _ Rs' D) as (q2 & u2 & A2 & Rs2).
    pose proof (last_body_sim (set_ch y e2) q' u' y (reading_ch _ _ _ _ _ y R') Z0 D eq_refl S2) as So. apply (rerun_sim y) in So. rewrite <- begin_body in So by (by rewrite (rd_state _ _ _ _ _ R')).
    destruct (accept_sim y _ _ _ _ _ _ So A2) as (eb & e' & k & E & S & F & -> & ->). pose proof (sim_at_byte y k _ e' eb S F D) as A'.
    destruct R' as [_ O' _ _ _ _ _ (m & Em & Lm & _)]. change (errno (parser e2) = HPE_OK) in O'.
    rewrite (data_eval data _ _ _ _ m) in E; [| exact O' | exact Em | exact Lm | cbn; lia]. rewrite (data_eval data _ _ _ _ m); [| exact O' | exact Em | exact Lm | cbn; lia].
    rewrite rerun_again in E. rewrite rerun_again.
    match goal with |- exists e'0 q'0 u'0, reexecute _ _ _ ?X = _ /\ _ => match type of E with reexecute _ _ _ ?Y = _ => assert (Y = set_ch y X) as EX by reflexivity; rewrite EX in E end;
      destruct (message_done_ch y X e') as (e3 & -> & ->); [exact O' | reflexivity | exact E |] end.
    clear E EX So A2. pose proof (sim_p _ _ _ _ S) as P3. change (p e3 = p e2) in P3. exists e3, (saved eb), (open_text [y] (set_p 1 eb) k). rewrite P3. split; [reflexivity |]. split; [lia |].
    split; [| exact Rs2]. replace e3 with (set_ch (ch e3) (set_ch y e3)) by (by destruct e3). exact (at_byte_ch _ _ _ (ch e3) A').
Qed.

(** ** The whole buffer *)

Lemma advance e q u : at_byte e q u -> rest (p e) q u -> (p e < length data)%nat -> advances e.
Proof.
  intros A Rs L. destruct (batch (p_state e)) eqn:B.
  - destruct (p_state e) eqn:Es; try discriminate B;
      [by eapply field_advances | by eapply value_advances | by eapply chunk_data_advances | by eapply identity_advances | by eapply eof_advances].
  - destruct (lookup_lt_is_Some_2 data (p e) L) as [x D]. destruct (rest_next _ _ _ _ Rs D) as (q1 & u1 & Ac & Rs1).
    destruct (step_one x e q u q1 u1 A D B Ac) as (e' & E & P & A'). exists e', q1, u1. rewrite P. split_and!; [done | lia | lia | done | done].
Qed.

Lemma loop_all fuel e q u : at_byte e q u -> rest (p e) q u -> (length data < p e + fuel)%nat ->
  exists e', loop st data fuel e = Break e' /\ p e' = length data /\ at_byte e' (fst r) (snd r).
Proof.
  revert e q u. induction fuel as [|fuel IH]; intros e q u A Rs Fu; [pose proof (at_p _ _ _ A); lia |]. cbn [loop]. destruct (Nat.eqb_spec (p e) (length data)) as [El | Nl].
  - exists e. split; [done |]. split; [done |]. destruct Rs as [_ Rs]. rewrite El, drop_all in Rs. by injection Rs as <-.
  - pose proof (at_p _ _ _ A). destruct (advance e q u A Rs) as (e' & q' & u' & -> & Lp & A' & Rs'); [lia |]. cbn [andthen]. by apply (IH _ q' u'); [| | cbn; lia].
Qed.

Lemma begin_at_byte q u : errno q = HPE_OK -> 0 <= nread_of q <= HTTP_MAX_HEADER_SIZE -> at_byte (begin_run q u) q u.
Proof.
  intros O Rg. pose proof (begin_run_fields q u) as (B1 & B2 & B3 & B4 & B5 & B6). split; rewrite ?B1, ?B3, ?B4, ?B5, ?B6; try done; [apply twin_refl | lia |].
  assert ((exists k, allowed (state_of q) = Some k /\ k <> body) \/ ~ exists k, allowed (state_of q) = Some k /\ k <> body) as [(k & Al & Nk) | N]
    by (destruct (allowed (state_of q)) as [[]|]; naive_solver).
  - exists (Some k). split; [left; unfold fits; rewrite Al; by destruct k |]. exists 0%nat. rewrite begin_run_marks, bool_decide_true by done.
    split_and!; [done | lia | by right | intros j Nj; rewrite begin_run_marks, bool_decide_false; [done | rewrite Al; naive_solver] | by rewrite B2].
  - exists None. split; [left; unfold fits; destruct (allowed (state_of q)) as [[]|]; try done; destruct N; by eexists |]. split; [| done].
    intros j. rewrite begin_run_marks, bool_decide_false; [done |]. naive_solver.
Qed.

Lemma one_by_one_ok d q u q' u' : d <> [] -> one_by_one d q u = Some (q', u') -> errno q = HPE_OK /\ upgrade q' = false.
Proof.
  intros Nd H. split.
  - destruct d as [|x d]; [done |]. rewrite one_by_one_cons in H. destruct (accept [x] q u) as [[q1 u1]|] eqn:A; [| done]. by destruct (accept_one _ _ _ _ _ A).
  - destruct d as [|x d _] using rev_ind; [done |]. rewrite one_by_one_app in H. destruct (one_by_one d q u) as [[q1 u1]|]; [| done]. cbn [mbind option_bind] in H.
    rewrite one_by_one_cons in H. destruct (accept [x] q1 u1) as [[q2 u2]|] eqn:A; [| done]. injection H as <- <-. by destruct (accept_one _ _ _ _ _ A) as (_ & _ & ? & _).
Qed.

(** A buffer is accepted at once if it is accepted byte by byte. *)
Lemma accept_whole q u : data <> [] -> ready q -> 0 <= nread_of q <= HTTP_MAX_HEADER_SIZE -> one_by_one data q u = Some r ->
  accept data q u = Some r /\ 0 <= nread_of (fst r) <= HTTP_MAX_HEADER_SIZE.
Proof.
  intros Nd Rd Rg H. destruct r as [q' u'] eqn:Er. destruct (one_by_one_ok _ _ _ _ _ Nd H) as [O Up]. pose proof (begin_run_fields q u) as (_ & _ & _ & _ & _ & B6).
  destruct (loop_all (S (length data)) (begin_run q u) q u) as (e & E & P & [T Oe Es En El Rge Lp (k & F & Tx)]); [by apply begin_at_byte | split; [done | by rewrite B6, drop_0, Er] | lia |].
  rewrite Er in *. cbn [fst snd] in *. split; [| by rewrite En]. assert (saved e = q') as Sv by (unfold saved; rewrite <- Es, <- En; destruct T as (a & b & ->); reflexivity).
  unfold accept, http_parser_execute, errno_ok. cbn [parser]. rewrite bool_decide_true by done. cbn [negb]. destruct (Nat.eqb_spec (length data) 0) as [Z | _]; [by apply length_zero_iff_nil in Z |].
  change (starting_marks _) with (begin_run q u). rewrite E. cbn [andthen].
  assert (p e <> 0%nat) as Np by (rewrite P; intros Z; by apply length_zero_iff_nil in Z).
  rewrite (leftovers_eval data e k); [| done | done | |].
  - rewrite Sv, Nat.eqb_refl, bool_decide_true, Up by (rewrite <- Sv; exact Oe). cbn [andb negb]. f_equal. f_equal.
    destruct k as [k|]; [| by destruct Tx as [_ ->]]. destruct Tx as (m & Em & Lm & [Lm' | [? _]] & Mj & ->); [| done]. cbn [open_text]. rewrite Em. unfold text. by destruct (Nat.eqb_spec m (p e)); [lia |].
  - intros j Nj. destruct k as [k|]; [| apply Tx]. destruct Tx as (m & Em & Lm & _ & Mj & _). apply Mj. congruence.
  - intros j m Ej. destruct k as [k|]; [| by rewrite (proj1 Tx j) in Ej]. destruct Tx as (m' & Em & Lm & _ & Mj & _). destruct (decide (j = k)) as [-> | Nj]; [congruence | by rewrite (Mj j Nj) in Ej].
Qed.

End split.

Section claims.
Context {U : Type} (cl : client U).

Lemma accept_pieces ds q u r : Forall (fun d => d <> []) ds -> ready q -> 0 <= nread_of q <= HTTP_MAX_HEADER_SIZE -> one_by_one cl (concat ds) q u = Some r -> accept_all cl ds q u = Some r.
Proof.
  intros Ne. revert q u. induction Ne as [|d ds Nd _ IH]; intros q u Rd Rg H; [done |]. cbn [concat accept_all] in *. rewrite one_by_one_app in H.
  destruct (one_by_one cl d q u) as [[q1 u1]|] eqn:E; [| done]. destruct (accept_whole cl d _ q u Nd Rd Rg E) as [A Rg1]. rewrite A. cbn. apply IH; [| done | done].
  by eapply accept_ready.
Qed.

(** C4: however the bytes of a stream are cut into pieces, the parser does the
    same with them: bytes that a new parser accepts one at a time are accepted
    in all pieces, without an error, and at the end the parser and the object of
    the callbacks are the same.

    The callbacks are those of a [client]: they never fail, pause or write to
    the parser, and handling the parts of a string one after the other is
    handling the whole string.  Accepted means that every call takes all of its
    bytes, sets no error and does not hand over to another protocol; no piece is
    empty, since an empty one says that the stream is at its end.  The property
    is one of the parser: the callbacks of [CodecHttp] replace a string by its
    next part, and so rely on getting a message in one piece. *)
Theorem http_split_invariant t d ds u q' u' :
  one_by_one cl d (http_parser_init t) u = Some (q', u') -> concat ds = d -> Forall (fun d => d <> []) ds ->
  accept_all cl ds (http_parser_init t) u = Some (q', u').
Proof. intros H <- Ne. apply accept_pieces; [done | apply init_ready | done | done]. Qed.
End claims.

(** ** Examples *)

(** A client that writes down what it is told, parts of a string as one. *)
Inductive event := ev_note (n : note) | ev_headers (m : http_method) | ev_text (k : data_kind) (d : bytes).

Definition log_text (k : data_kind) (d : bytes) (u : list event) : list event :=
  match u with
  | ev_text k' d' :: u' => if bool_decide (k = k') then ev_text k (d' ++ d) :: u' else ev_text k d :: u
  | _ => ev_text k d :: u
  end.

Lemma log_text_app k a b u : log_text k (a ++ b) u = log_text k b (log_text k a u).
Proof. destruct u as [|[| |k' d'] u]; cbn; rewrite ?bool_decide_true by done; try done. case_bool_decide; cbn; rewrite ?bool_decide_true by done; [by rewrite app_assoc | done]. Qed.

Definition log_client : client (list event) :=
  mk_client _ (fun n _ u => ev_note n :: u) (fun q u => ev_headers (method q) :: u) (fun _ _ => 0) log_text log_text_app.

Definition crlf : bytes := [CR; LF].
Definition sample_request : bytes := str_bytes "POST /a HTTP/1.1" ++ crlf ++ str_bytes "Content-Length: 3" ++ crlf ++ str_bytes "Ab: c d" ++ crlf ++ crlf ++ str_bytes "xyz".

Lemma http_split_invariant_witness : exists q u,
  accept_all log_client [take 3 sample_request; take 17 (drop 3 sample_request); drop 20 sample_request] (http_parser_init HTTP_REQUEST) [] = Some (q, u) /\
  head (tail u) = Some (ev_text body (str_bytes "xyz")).
Proof.
  destruct (one_by_one log_client sample_request (http_parser_init HTTP_REQUEST) []) as [[q u]|] eqn:E; [| by vm_compute in E].
  exists q, u. split.
  - apply (http_split_invariant log_client HTTP_REQUEST sample_request _ [] q u E); [by vm_compute | by repeat constructor].
  - revert E. vm_compute. by intros [= <- <-].
Defined.

(** A request with a control character in a value. *)
Definition control_request : bytes := str_bytes "GET / HTTP/1.1" ++ crlf ++ str_bytes "A: bcd" ++ [char_of 1] ++ crlf ++ crlf.

(** The other way round this is wrong: a request whose header has a control
    character in its value is accepted in one piece, because [memchr] jumps over
    the character, and refused when a piece begins with that character. *)
Theorem http_split_control_char :
  is_Some (accept log_client control_request (http_parser_init HTTP_REQUEST) []) /\
  exists q u, accept log_client (take 22 control_request) (http_parser_init HTTP_REQUEST) [] = Some (q, u) /\
    exists n q' u', http_parser_execute (settings_of log_client) (drop 22 control_request) q u = Some (n, q', u') /\ errno q' = HPE_INVALID_HEADER_TOKEN.
Proof.
  split; [vm_compute; eexists; reflexivity |]. eexists _, _. split; [vm_compute; reflexivity |]. eexists _, _, _. split; [vm_compute; reflexivity | reflexivity].
Qed.

End HttpSplit.
