(* ===== verification/HttpUrl.v ===== *)
(** The URLs of the HTTP parser: [http_parser_parse_url].

    The loop over the URL follows [parse_url_char] and notes where each part
    begins and how long it is; the authority is then split by a machine of its
    own, [http_parse_host_char].  The offsets and lengths are 16-bit numbers.

    The model returns [None] where the code would read outside of the buffer
    or fail an assertion. *)

From S2P Require Import Prelude HttpParser.

Module HttpUrl.
Import HttpParser.

(** ** The result *)

(** [enum http_parser_url_fields], without [UF_MAX]. *)
Inductive url_field := UF_SCHEMA | UF_HOST | UF_PORT | UF_PATH | UF_QUERY | UF_FRAGMENT | UF_USERINFO.
#[global] Instance url_field_eq_dec : EqDecision url_field.
Proof. solve_decision. Defined.
Definition uf_num (f : url_field) : Z :=
  match f with UF_SCHEMA => 0 | UF_HOST => 1 | UF_PORT => 2 | UF_PATH => 3 | UF_QUERY => 4 | UF_FRAGMENT => 5 | UF_USERINFO => 6 end.

Definition u16 (z : Z) : Z := z mod 2 ^ 16.

(** [struct http_parser_url]; the array [field_data] as two functions. *)
Record http_parser_url := mk_url { field_set : Z; port : Z; off : url_field -> Z; len : url_field -> Z }.

Definition upd (f : url_field) (v : Z) (g : url_field -> Z) : url_field -> Z := fun f' => if bool_decide (f = f') then v else g f'.
Definition set_off (f : url_field) (v : Z) (u : http_parser_url) : http_parser_url := mk_url (field_set u) (port u) (upd f (u16 v) (off u)) (len u).
Definition set_len (f : url_field) (v : Z) (u : http_parser_url) : http_parser_url := mk_url (field_set u) (port u) (off u) (upd f (u16 v) (len u)).
Definition inc_len (f : url_field) (u : http_parser_url) : http_parser_url := set_len f (len u f + 1) u.
Definition add_field (f : url_field) (u : http_parser_url) : http_parser_url := mk_url (u16 (Z.lor (field_set u) (Z.shiftl 1 (uf_num f)))) (port u) (off u) (len u).
Definition set_port (v : Z) (u : http_parser_url) : http_parser_url := mk_url (field_set u) (u16 v) (off u) (len u).
Definition is_set (f : url_field) (u : http_parser_url) : bool := negb (Z.land (field_set u) (Z.shiftl 1 (uf_num f)) =? 0).

Definition http_parser_url_init : http_parser_url := mk_url 0 0 (fun _ => 0) (fun _ => 0).

(** ** The authority *)

Inductive http_host_state :=
  | s_http_host_dead | s_http_userinfo_start | s_http_userinfo | s_http_host_start | s_http_host_v6_start | s_http_host | s_http_host_v6
  | s_http_host_v6_end | s_http_host_v6_zone_start | s_http_host_v6_zone | s_http_host_port_start | s_http_host_port.
#[global] Instance http_host_state_eq_dec : EqDecision http_host_state.
Proof. solve_decision. Defined.

#[local] Notation "a ≟ b" := (Ascii.eqb a b) (at level 70).

Definition http_parse_host_char (s : http_host_state) (ch : ascii) : http_host_state :=
  let v6_end := if ch ≟ ":" then s_http_host_port_start else s_http_host_dead in
  let v6_start :=
    if IS_HEX ch || (ch ≟ ":") || (ch ≟ ".") then s_http_host_v6
    else if bool_decide (s = s_http_host_v6) && (ch ≟ "%") then s_http_host_v6_zone_start else s_http_host_dead in
  let zone_start :=
    if IS_ALPHANUM ch || (ch ≟ "%") || (ch ≟ ".") || (ch ≟ "-") || (ch ≟ "_") || (ch ≟ "~") then s_http_host_v6_zone else s_http_host_dead in
  match s with
  | s_http_userinfo | s_http_userinfo_start =>
      if ch ≟ "@" then s_http_host_start else if IS_USERINFO_CHAR ch then s_http_userinfo else s_http_host_dead
  | s_http_host_start => if ch ≟ "[" then s_http_host_v6_start else if IS_HOST_CHAR ch then s_http_host else s_http_host_dead
  | s_http_host => if IS_HOST_CHAR ch then s_http_host else v6_end
  | s_http_host_v6_end => v6_end
  | s_http_host_v6 => if ch ≟ "]" then s_http_host_v6_end else v6_start
  | s_http_host_v6_start => v6_start
  | s_http_host_v6_zone => if ch ≟ "]" then s_http_host_v6_end else zone_start
  | s_http_host_v6_zone_start => zone_start
  | s_http_host_port | s_http_host_port_start => if IS_NUM ch then s_http_host_port else s_http_host_dead
  | s_http_host_dead => s_http_host_dead
  end.

Section buffer.
Context (buf : bytes).

(** The switch on [new_s] in the loop of [http_parse_host]. *)
Definition host_step (p : nat) (s new_s : http_host_state) (u : http_parser_url) : http_parser_url :=
  let begin f u := if negb (bool_decide (s = new_s)) then add_field f (set_len f 0 (set_off f (Z.of_nat p) u)) else u in
  match new_s with
  | s_http_host | s_http_host_v6 => inc_len UF_HOST (if negb (bool_decide (s = new_s)) then set_off UF_HOST (Z.of_nat p) u else u)
  | s_http_host_v6_zone_start | s_http_host_v6_zone => inc_len UF_HOST u
  | s_http_host_port => inc_len UF_PORT (begin UF_PORT u)
  | s_http_userinfo => inc_len UF_USERINFO (begin UF_USERINFO u)
  | _ => u
  end.

(** [for (p = buf + off; p < buf + buflen; p++)], [n] bytes from [p] on. *)
Fixpoint host_loop (n p : nat) (s : http_host_state) (u : http_parser_url) : option (Z * http_host_state * http_parser_url) :=
  match n with
  | O => Some (0, s, u)
  | S n =>
      c ← buf !! p;
      let new_s := http_parse_host_char s c in
      if bool_decide (new_s = s_http_host_dead) then Some (1, s, u)
      else host_loop n (S p) new_s (host_step p s new_s u)
  end.

(** Where an authority may end. *)
Definition host_final (s : http_host_state) : bool :=
  match s with
  | s_http_host_start | s_http_host_v6_start | s_http_host_v6 | s_http_host_v6_zone_start | s_http_host_v6_zone | s_http_host_port_start
  | s_http_userinfo | s_http_userinfo_start => false
  | _ => true
  end.

Definition http_parse_host (u : http_parser_url) (found_at : bool) : option (Z * http_parser_url) :=
  let buflen := off u UF_HOST + len u UF_HOST in
  if negb (is_set UF_HOST u) then None else
  let u := set_len UF_HOST 0 u in
  let s := if found_at then s_http_userinfo_start else s_http_host_start in
  '(r, s, u) ← host_loop (Z.to_nat (buflen - off u UF_HOST)) (Z.to_nat (off u UF_HOST)) s u;
  Some (if (r =? 0) && host_final s then 0 else 1, u).

(** ** The URL *)

(** The switch on [s]: a part, a delimiter, or the end. *)
Inductive url_part := part (f : url_field) | delimiter | bad_url | unexpected.
Definition part_of (s : state) : url_part :=
  match s with
  | s_dead => bad_url
  | s_req_schema_slash | s_req_schema_slash_slash | s_req_server_start | s_req_query_string_start | s_req_fragment_start => delimiter
  | s_req_schema => part UF_SCHEMA
  | s_req_server_with_at | s_req_server => part UF_HOST
  | s_req_path => part UF_PATH
  | s_req_query_string => part UF_QUERY
  | s_req_fragment => part UF_FRAGMENT
  | _ => unexpected
  end.

(** The loop over the bytes from [p] on; it returns [found_at]. *)
Fixpoint url_loop (bs : bytes) (p : nat) (s : state) (old_uf : option url_field) (found_at : bool) (u : http_parser_url) : option (Z * bool * http_parser_url) :=
  match bs with
  | [] => Some (0, found_at, u)
  | c :: bs =>
      let s := parse_url_char s c in
      match part_of s with
      | bad_url => Some (1, found_at, u)
      | delimiter => url_loop bs (S p) s old_uf found_at u
      | unexpected => None
      | part uf =>
          let found_at := found_at || bool_decide (s = s_req_server_with_at) in
          if bool_decide (Some uf = old_uf) then url_loop bs (S p) s old_uf found_at (inc_len uf u)
          else url_loop bs (S p) s (Some uf) found_at (add_field uf (set_len uf 1 (set_off uf (Z.of_nat p) u)))
      end
  end.

(** The number behind the colon: [n] bytes from [p] on. *)
Fixpoint port_loop (n p : nat) (v : Z) : option (option Z) :=
  match n with
  | O => Some (Some v)
  | S n =>
      c ← buf !! p;
      let v := u64 (u64 (v * 10) + u64 (schar c - 48)) in
      if 65535 <? v then Some None else port_loop n (S p) v
  end.

Definition parse_port (u : http_parser_url) : option (Z * http_parser_url) :=
  if is_set UF_PORT u then
    if negb (off u UF_PORT + len u UF_PORT <=? zlen buf) then None
    else r ← port_loop (Z.to_nat (len u UF_PORT)) (Z.to_nat (off u UF_PORT)) 0;
         Some (match r with Some v => (0, set_port v u) | None => (1, u) end)
  else Some (0, u).

Definition http_parser_parse_url (is_connect : bool) (u : http_parser_url) : option (Z * http_parser_url) :=
  if zlen buf =? 0 then Some (1, u)
  else
    let u := mk_url 0 0 (off u) (len u) in
    '(r, found_at, u) ← url_loop buf 0 (if is_connect then s_req_server_start else s_req_spaces_before_url) None false u;
    if negb (r =? 0) then Some (1, u)
    else if is_set UF_SCHEMA u && negb (is_set UF_HOST u) then Some (1, u)
    else
      '(r, u) ← (if is_set UF_HOST u then http_parse_host u found_at else Some (0, u));
      if negb (r =? 0) then Some (1, u)
      else if is_connect && negb (field_set u =? Z.lor (Z.shiftl 1 (uf_num UF_HOST)) (Z.shiftl 1 (uf_num UF_PORT))) then Some (1, u)
      else parse_port u.

End buffer.

Definition field_text (buf : bytes) (u : http_parser_url) (f : url_field) : option bytes :=
  if is_set f u then Some (take (Z.to_nat (len u f)) (drop (Z.to_nat (off u f)) buf)) else None.

(** ** Fields that are set *)

Lemma is_set_testbit f u : is_set f u = Z.testbit (field_set u) (uf_num f).
Proof.
  unfold is_set. rewrite Z.shiftl_1_l. assert (0 <= uf_num f) as N by by destruct f.
  destruct (Z.testbit (field_set u) (uf_num f)) eqn:T.
  - apply negb_true_iff, Z.eqb_neq. intros E. assert (Z.testbit (Z.land (field_set u) (2 ^ uf_num f)) (uf_num f) = false) as H by (rewrite E; apply Z.bits_0).
    by rewrite Z.land_spec, T, Z.pow2_bits_true in H.
  - apply negb_false_iff, Z.eqb_eq. apply Z.bits_inj'. intros n Hn. rewrite Z.bits_0, Z.land_spec.
    destruct (decide (n = uf_num f)) as [-> | Nn]; [by rewrite T | by rewrite Z.pow2_bits_false, andb_false_r by congruence].
Qed.

Lemma is_set_add f g u : is_set f (add_field g u) = bool_decide (f = g) || is_set f u.
Proof.
  rewrite !is_set_testbit. unfold add_field, u16. cbn [field_set]. rewrite Z.mod_pow2_bits_low by (destruct f; done). rewrite Z.lor_spec, Z.shiftl_1_l.
  destruct (decide (f = g)) as [-> | N]; [rewrite bool_decide_true, Z.pow2_bits_true by (done || by destruct g); apply orb_true_r |].
  rewrite bool_decide_false, Z.pow2_bits_false by (done || (intros E; apply N; destruct f, g; done)). by rewrite orb_false_r.
Qed.

(** The fields as a map. *)
Definition fields (u : http_parser_url) (f : url_field) : option (Z * Z) := if is_set f u then Some (off u f, len u f) else None.
Definition put (f : url_field) (v : option (Z * Z)) (g : url_field -> option (Z * Z)) : url_field -> option (Z * Z) := fun f' => if bool_decide (f = f') then v else g f'.

Lemma u16_small z : 0 <= z < 65536 -> u16 z = z.
Proof. apply Z.mod_small. Qed.

Lemma fields_begin f p u f' : 0 <= p < 65536 -> fields (add_field f (set_len f 1 (set_off f p u))) f' = put f (Some (p, 1)) (fields u) f'.
Proof.
  intros P. unfold fields, put. rewrite is_set_add. unfold set_len, set_off, upd. cbn. destruct (decide (f = f')) as [<- | N].
  - rewrite !bool_decide_true by done. cbn. by rewrite u16_small.
  - by rewrite !bool_decide_false by congruence.
Qed.

Lemma fields_inc f u f' o l : fields u f = Some (o, l) -> 0 <= l < 65535 -> fields (inc_len f u) f' = put f (Some (o, l + 1)) (fields u) f'.
Proof.
  unfold fields, put, inc_len, set_len, upd, is_set. cbn. intros E L. destruct (decide (f = f')) as [<- | N].
  - rewrite !bool_decide_true by done. destruct (negb _); [| done]. injection E as -> ->. by rewrite u16_small by lia.
  - by rewrite !bool_decide_false by congruence.
Qed.

(** ** Safety *)

Lemma part_expected s c : part_of (parse_url_char s c) <> unexpected.
Proof. unfold parse_url_char. by repeat case_match. Qed.

(** The bytes of a part end before the limit of the part. *)
Definition within (lim : url_field -> Z) (u : http_parser_url) : Prop := forall f, is_set f u = true -> 0 <= off u f /\ 0 <= len u f /\ off u f + len u f <= lim f.

Lemma within_mono lim lim' u : within lim u -> (forall f, is_set f u = true -> lim f <= lim' f) -> within lim' u.
Proof. intros W L f S. specialize (W f S). specialize (L f S). lia. Qed.

Lemma u16_range z : 0 <= z -> 0 <= u16 z <= z.
Proof. intros Z0. unfold u16. pose proof (Z.mod_pos_bound z (2 ^ 16)). pose proof (Z.mod_le z (2 ^ 16)). lia. Qed.

Lemma within_begin f n p lim lim' u : within lim u -> 0 <= p -> 0 <= n -> p + n <= lim' f -> (forall g, lim g <= lim' g) -> within lim' (add_field f (set_len f n (set_off f p u))).
Proof.
  intros W P N Lf L g. rewrite is_set_add. unfold set_len, set_off, upd. cbn. destruct (decide (f = g)) as [<- | Ng].
  - rewrite !bool_decide_true by done. pose proof (u16_range p P). pose proof (u16_range n N). lia.
  - rewrite !bool_decide_false by congruence. intros S. specialize (W g S). specialize (L g). lia.
Qed.

Lemma within_inc f lim lim' u : within lim u -> lim f + 1 <= lim' f -> (forall g, lim g <= lim' g) -> within lim' (inc_len f u).
Proof.
  intros W Lf L g S. specialize (W g S). specialize (L g). cbn. unfold upd. case_bool_decide; [subst g | lia]. pose proof (u16_range (len u f + 1)). lia.
Qed.

Lemma url_loop_safe bs p s old fa u : within (fun _ => Z.of_nat p) u ->
  (forall f, f = UF_PORT \/ f = UF_USERINFO -> is_set f u = false) ->
  exists r fa' u', url_loop bs p s old fa u = Some (r, fa', u') /\ within (fun _ => Z.of_nat (p + length bs)) u' /\ (forall f, f = UF_PORT \/ f = UF_USERINFO -> is_set f u' = false).
Proof.
  revert p s old fa u. induction bs as [|c bs IH]; intros p s old fa u W N; cbn [url_loop length].
  - exists 0, fa, u. by rewrite Nat.add_0_r.
  - pose proof (part_expected s c). replace (p + S (length bs))%nat with (S p + length bs)%nat by lia.
    destruct (part_of (parse_url_char s c)) as [f | | |] eqn:Ef; [case_bool_decide | | | done].
    + apply IH; [| done]. eapply within_inc; [done | lia | intros; lia].
    + apply IH; [eapply within_begin; [done | lia..] |]. intros g Hg. rewrite is_set_add. change (is_set g (set_len _ _ _)) with (is_set g u). rewrite N by done.
      rewrite bool_decide_false; [done |]. intros ->. destruct (parse_url_char s c); try discriminate Ef; injection Ef as <-; naive_solver.
    + apply IH; [| done]. eapply within_mono; [done | lia].
    + eexists _, _, _. split; [done |]. split; [| done]. eapply within_mono; [done | lia].
Qed.

(** In the authority the host has no byte before its first one. *)
Definition host_fresh (s : http_host_state) : bool :=
  match s with s_http_userinfo_start | s_http_userinfo | s_http_host_start | s_http_host_v6_start => true | _ => false end.

(** The steps that set a field of the authority. *)
Lemma host_next s c : let n := http_parse_host_char s c in
  match n with
  | s_http_host | s_http_host_v6 => s = n \/ host_fresh s = true
  | s_http_userinfo_start | s_http_userinfo | s_http_host_start | s_http_host_v6_start => host_fresh s = true
  | _ => True
  end.
Proof. unfold http_parse_host_char. destruct s; repeat match goal with |- context [if ?b then _ else _] => destruct b end; auto. Qed.

Section safety.
Context (buf : bytes).

(** The parts of the authority end before [p]. *)
Definition host_limit (p : Z) (f : url_field) : Z := match f with UF_HOST | UF_PORT | UF_USERINFO => p | _ => zlen buf end.

Record host_inv (p : nat) (s : http_host_state) (u : http_parser_url) : Prop := {
  hi_within : within (host_limit (Z.of_nat p)) u;
  hi_set : is_set UF_HOST u = true;
  hi_fresh : host_fresh s = true -> len u UF_HOST = 0 }.

Lemma host_limit_next p f : host_limit (Z.of_nat p) f <= host_limit (Z.of_nat (S p)) f.
Proof. destruct f; cbn; lia. Qed.

Lemma within_host p u : within (host_limit (Z.of_nat p)) u -> len u UF_HOST = 0 -> within (host_limit (Z.of_nat p)) (set_off UF_HOST (Z.of_nat p) u).
Proof.
  intros W L g S. specialize (W g S). cbn. unfold upd. case_bool_decide; [subst g | lia]. pose proof (u16_range (Z.of_nat p)). cbn [host_limit] in *. lia.
Qed.

Lemma host_step_inv p s c u : host_inv p s u -> host_inv (S p) (http_parse_host_char s c) (host_step p s (http_parse_host_char s c) u).
Proof.
  intros [W S F]. pose proof (host_next s c) as N. set (n := http_parse_host_char s c) in *. clearbody n. cbn zeta in N.
  assert (forall u', within (host_limit (Z.of_nat p)) u' -> is_set UF_HOST u' = true -> host_fresh n = false -> host_inv (Datatypes.S p) n (inc_len UF_HOST u')) as K1.
  { intros u' W' S' Fn. split; [eapply within_inc; [done | cbn; lia | apply host_limit_next] | done | by rewrite Fn]. }
  assert (forall f, f = UF_PORT \/ f = UF_USERINFO -> (host_fresh n = true -> host_fresh s = true) ->
    host_inv (Datatypes.S p) n (inc_len f (if negb (bool_decide (s = n)) then add_field f (set_len f 0 (set_off f (Z.of_nat p) u)) else u))) as K2.
  { intros f Hf Hn. assert (f <> UF_HOST) as Nf by naive_solver. assert (host_limit (Z.of_nat p) f = Z.of_nat p) as Lf by by destruct Hf as [-> | ->].
    split.
    - eapply within_inc; [| | apply host_limit_next]; [destruct (negb _); [eapply within_begin; [done | lia | lia | rewrite Lf; lia | intros; lia] | done] | by destruct Hf as [-> | ->]; cbn; lia].
    - change (is_set UF_HOST (inc_len f ?v)) with (is_set UF_HOST v). destruct (negb _); [by rewrite is_set_add; cbn; rewrite bool_decide_false by congruence | done].
    - intros Fn. destruct (negb _); cbn; unfold upd; rewrite !bool_decide_false by done; auto. }
  assert (host_inv (Datatypes.S p) n u \/ (host_fresh n = true /\ host_fresh s = false)) as K3.
  { destruct (host_fresh n) eqn:Fn; [destruct (host_fresh s) eqn:Fs; [left | by right] | left]; (split; [eapply within_mono; [done | intros; apply host_limit_next] | done | by rewrite ?Fn; auto]). }
  destruct n; cbn [host_step]; try (destruct K3 as [K3 | [Fn Fs]]; [exact K3 | exfalso; cbn in Fn; congruence]); try (by apply K1); try (apply K2; [auto | done]).
  all: apply K1; [| by destruct (negb _) | done]; match goal with |- context [bool_decide (?a = ?x)] => destruct (bool_decide_reflect (a = x)) as [E | E] end; cbn [negb]; try done.
  all: destruct N as [N | N]; [congruence |]; apply within_host; auto.
Qed.

Lemma host_loop_safe n p s u : host_inv p s u -> (p + n <= length buf)%nat -> exists r s' u', host_loop buf n p s u = Some (r, s', u') /\ within (fun _ => zlen buf) u'.
Proof.
  revert p s u. induction n as [|n IH]; intros p s u I L; cbn [host_loop].
  - exists 0, s, u. split; [done |]. eapply within_mono; [by destruct I |]. intros f _. destruct f; cbn; unfold zlen; lia.
  - destruct (lookup_lt_is_Some_2 buf p) as [c Dc]; [lia |]. rewrite Dc. cbn [mbind option_bind]. case_bool_decide.
    + exists 1, s, u. split; [done |]. eapply within_mono; [by destruct I |]. intros f _. destruct f; cbn; unfold zlen; lia.
    + apply IH; [by apply host_step_inv | lia].
Qed.

Lemma parse_host_safe u fa : within (fun _ => zlen buf) u -> is_set UF_HOST u = true -> (forall f, f = UF_PORT \/ f = UF_USERINFO -> is_set f u = false) ->
  exists r u', http_parse_host buf u fa = Some (r, u') /\ within (fun _ => zlen buf) u'.
Proof.
  intros W S N. destruct (W _ S) as (O & L & B). unfold http_parse_host. rewrite S. cbn [negb]. change (off (set_len UF_HOST 0 u) UF_HOST) with (off u UF_HOST).
  destruct (host_loop_safe (Z.to_nat (off u UF_HOST + len u UF_HOST - off u UF_HOST)) (Z.to_nat (off u UF_HOST)) (if fa then s_http_userinfo_start else s_http_host_start) (set_len UF_HOST 0 u))
    as (r & s' & u' & -> & W'); [| unfold zlen in *; lia | eexists _, _; split; [reflexivity | done]].
  split; [| done | by cbn; unfold upd; rewrite bool_decide_true]. intros f Sf. change (is_set f u = true) in Sf. specialize (W f Sf). cbn. unfold upd.
  case_bool_decide; [subst f; change (u16 0) with 0; cbn; lia |]. destruct f; cbn; try lia; try done; rewrite N in Sf by auto; done.
Qed.

Lemma port_loop_safe n p v : (p + n <= length buf)%nat -> is_Some (port_loop buf n p v).
Proof.
  revert p v. induction n as [|n IH]; intros p v L; cbn [port_loop]; [done |]. destruct (lookup_lt_is_Some_2 buf p) as [c ->]; [lia |]. cbn [mbind option_bind].
  destruct (_ <? _); [done |]. apply IH. lia.
Qed.

Lemma parse_port_safe u : within (fun _ => zlen buf) u -> exists r u', parse_port buf u = Some (r, u') /\ within (fun _ => zlen buf) u'.
Proof.
  intros W. unfold parse_port. destruct (is_set UF_PORT u) eqn:S; [| by eexists _, _]. destruct (W _ S) as (O & L & B). rewrite (proj2 (Z.leb_le _ _) B). cbn [negb].
  destruct (port_loop_safe (Z.to_nat (len u UF_PORT)) (Z.to_nat (off u UF_PORT)) 0) as [r ->]; [unfold zlen in *; lia |]. cbn [mbind option_bind]. destruct r; by eexists _, _.
Qed.

Lemma field_set_zero f g h : is_set f (mk_url 0 0 g h) = false.
Proof. rewrite is_set_testbit. apply Z.bits_0. Qed.

(** Every part that is set lies in the buffer, however long the buffer is. *)
Lemma parse_url_safe c u : exists r u', http_parser_parse_url buf c u = Some (r, u') /\ (r = 0 -> within (fun _ => zlen buf) u').
Proof.
  unfold http_parser_parse_url. destruct (zlen buf =? 0); [by eexists _, _ |].
  destruct (url_loop_safe buf 0 (if c then s_req_server_start else s_req_spaces_before_url) None false (mk_url 0 0 (off u) (len u))) as (r & fa & u1 & -> & W & N).
  { intros f. by rewrite field_set_zero. } { intros f _. apply field_set_zero. }
  cbn [mbind option_bind Nat.add] in *. change (Z.of_nat (length buf)) with (zlen buf) in W. destruct (negb (r =? 0)); [by eexists _, _ |]. destruct (is_set UF_SCHEMA u1 && _); [by eexists _, _ |].
  assert (exists r u2, (if is_set UF_HOST u1 then http_parse_host buf u1 fa else Some (0, u1)) = Some (r, u2) /\ within (fun _ => zlen buf) u2) as (r2 & u2 & -> & W2).
  { destruct (is_set UF_HOST u1) eqn:S; [by apply parse_host_safe | by eexists _, _]. }
  cbn [mbind option_bind]. destruct (negb (r2 =? 0)); [by eexists _, _ |]. destruct (c && _); [by eexists _, _ |]. destruct (parse_port_safe u2 W2) as (r3 & u3 & -> & W3). by exists r3, u3.
Qed.
End safety.

(** ** Reading what was written *)

Definition agree (u : http_parser_url) (g : url_field -> option (Z * Z)) : Prop := forall f, fields u f = g f.

Lemma agree_put u g f v : agree u g -> forall f', put f v (fields u) f' = put f v g f'.
Proof. intros A f'. unfold put. case_bool_decide; [done | apply A]. Qed.

(** The bytes [cs] belong to the part [f]; the state behind them. *)
Fixpoint steps (f : url_field) (s : state) (cs : bytes) : option state :=
  match cs with
  | [] => Some s
  | c :: cs => match part_of (parse_url_char s c) with part f' => if bool_decide (f = f') then steps f (parse_url_char s c) cs else None | _ => None end
  end.

Fixpoint seen_at (s : state) (cs : bytes) : bool :=
  match cs with [] => false | c :: cs => bool_decide (parse_url_char s c = s_req_server_with_at) || seen_at (parse_url_char s c) cs end.

Lemma steps_app f s cs cs' : steps f s (cs ++ cs') = s' ← steps f s cs; steps f s' cs'.
Proof. revert s. induction cs as [|c cs IH]; intros s; [done |]. cbn. destruct (part_of _); try done. case_bool_decide; [apply IH | done]. Qed.

Lemma seen_at_app s s' f cs cs' : steps f s cs = Some s' -> seen_at s (cs ++ cs') = seen_at s cs || seen_at s' cs'.
Proof.
  revert s. induction cs as [|c cs IH]; intros s E; [by injection E as -> |]. cbn in *. destruct (part_of _); try done. case_bool_decide; [| done]. by rewrite IH, orb_assoc.
Qed.

Lemma url_continue f cs bs p s s' fa u g o l : steps f s cs = Some s' -> agree u g -> g f = Some (o, l) -> 0 <= l -> l + zlen cs <= 65535 ->
  exists u', url_loop (cs ++ bs) p s (Some f) fa u = url_loop bs (p + length cs) s' (Some f) (fa || seen_at s cs) u' /\ agree u' (put f (Some (o, l + zlen cs)) g).
Proof.
  revert p s fa u g l. induction cs as [|c cs IH]; intros p s fa u g l E A Ef L0 L.
  - injection E as <-. exists u. rewrite Nat.add_0_r. cbn [seen_at app]. rewrite orb_false_r. split; [done |]. intros f'. unfold put. case_bool_decide; [subst f' | apply A].
    change (zlen []) with 0. by rewrite Z.add_0_r, A.
  - cbn [steps app url_loop seen_at] in *. unfold zlen in *. cbn [length] in *. destruct (part_of (parse_url_char s c)) as [f'| | |]; try done. destruct (decide (f = f')) as [<- | Nf]; [rewrite bool_decide_true in E by done | by rewrite bool_decide_false in E by done]. rewrite bool_decide_true by done.
    destruct (IH (S p) (parse_url_char s c) (fa || bool_decide (parse_url_char s c = s_req_server_with_at)) (inc_len f u) (put f (Some (o, l + 1)) g) (l + 1)) as (u' & Eu & A'); [done | | | lia | lia |].
    + intros f'. rewrite (fields_inc f u f' o l) by (rewrite ?A; done || lia). by apply agree_put.
    + unfold put. by rewrite bool_decide_true.
    + exists u'. rewrite Eu, orb_assoc. split; [f_equal; lia |]. intros f'. rewrite A'. unfold put. destruct (bool_decide (f = f')); [by rewrite Nat2Z.inj_succ, <- Z.add_1_l, Z.add_assoc | done].
Qed.

Lemma url_segment f cs bs p s s' old fa u g : cs <> [] -> steps f s cs = Some s' -> old <> Some f -> agree u g -> Z.of_nat p + zlen cs <= 65535 ->
  exists u', url_loop (cs ++ bs) p s old fa u = url_loop bs (p + length cs) s' (Some f) (fa || seen_at s cs) u' /\ agree u' (put f (Some (Z.of_nat p, zlen cs)) g).
Proof.
  intros Nc E No A L. destruct cs as [|c cs]; [done |]. cbn [steps app url_loop seen_at] in *. unfold zlen in *. cbn [length] in *.
  destruct (part_of (parse_url_char s c)) as [f'| | |]; try done. destruct (decide (f = f')) as [<- | Nf]; [rewrite bool_decide_true in E by done | by rewrite bool_decide_false in E by done]. rewrite bool_decide_false by done.
  destruct (url_continue f cs bs (S p) (parse_url_char s c) s' (fa || bool_decide (parse_url_char s c = s_req_server_with_at)) (add_field f (set_len f 1 (set_off f (Z.of_nat p) u)))
    (put f (Some (Z.of_nat p, 1)) g) (Z.of_nat p) 1) as (u' & Eu & A'); [done | | | lia | unfold zlen; lia |].
  - intros f'. rewrite fields_begin by lia. by apply agree_put.
  - unfold put. by rewrite bool_decide_true.
  - exists u'. rewrite Eu, orb_assoc. split; [f_equal; lia |]. intros f'. rewrite A'. unfold put, zlen. destruct (bool_decide (f = f')); [by rewrite Nat2Z.inj_succ, <- Z.add_1_l | done].
Qed.

(** Characters of the parts. *)
Ltac all_chars := let c := fresh in intros c; destruct c as [[] [] [] [] [] [] [] []]; vm_compute; (reflexivity || discriminate).

Lemma alpha_begins c : IS_ALPHA c = true -> parse_url_char s_req_spaces_before_url c = s_req_schema.
Proof. revert c. all_chars. Qed.
Lemma alpha_schema c : IS_ALPHA c = true -> parse_url_char s_req_schema c = s_req_schema.
Proof. revert c. all_chars. Qed.
Lemma userinfo_server_start c : IS_USERINFO_CHAR c = true -> parse_url_char s_req_server_start c = s_req_server.
Proof. revert c. all_chars. Qed.
Lemma userinfo_server c : IS_USERINFO_CHAR c = true -> parse_url_char s_req_server c = s_req_server.
Proof. revert c. all_chars. Qed.
Lemma userinfo_server_at c : IS_USERINFO_CHAR c = true -> parse_url_char s_req_server_with_at c = s_req_server.
Proof. revert c. all_chars. Qed.
Lemma host_userinfo c : IS_HOST_CHAR c = true -> IS_USERINFO_CHAR c = true.
Proof. revert c. all_chars. Qed.
Lemma num_userinfo c : IS_NUM c = true -> IS_USERINFO_CHAR c = true.
Proof. revert c. all_chars. Qed.
Lemma url_path c : IS_URL_CHAR c = true -> parse_url_char s_req_path c = s_req_path.
Proof. revert c. all_chars. Qed.
Definition query_char (c : ascii) : bool := IS_URL_CHAR c || (c =? "?")%char.
Lemma url_query_start c : query_char c = true -> parse_url_char s_req_query_string_start c = s_req_query_string.
Proof. revert c. all_chars. Qed.
Lemma url_query c : query_char c = true -> parse_url_char s_req_query_string c = s_req_query_string.
Proof. revert c. all_chars. Qed.
Lemma url_fragment_start c : query_char c = true -> parse_url_char s_req_fragment_start c = s_req_fragment.
Proof. revert c. all_chars. Qed.
Lemma url_fragment c : query_char c = true -> parse_url_char s_req_fragment c = s_req_fragment.
Proof. revert c. all_chars. Qed.
Lemma host_name c : IS_HOST_CHAR c = true -> http_parse_host_char s_http_host_start c = s_http_host /\ http_parse_host_char s_http_host c = s_http_host.
Proof. intros H. split; revert c H; all_chars. Qed.
Lemma host_user c : IS_USERINFO_CHAR c = true -> http_parse_host_char s_http_userinfo_start c = s_http_userinfo /\ http_parse_host_char s_http_userinfo c = s_http_userinfo.
Proof. intros H. split; revert c H; all_chars. Qed.
Lemma host_digit c : IS_NUM c = true -> http_parse_host_char s_http_host_port_start c = s_http_host_port /\ http_parse_host_char s_http_host_port c = s_http_host_port.
Proof. intros H. split; revert c H; all_chars. Qed.

(** The parts of the authority. *)
Definition host_part (s : http_host_state) : option url_field :=
  match s with s_http_host => Some UF_HOST | s_http_userinfo => Some UF_USERINFO | s_http_host_port => Some UF_PORT | _ => None end.

Lemma host_step_same p s f u : host_part s = Some f -> host_step p s s u = inc_len f u.
Proof. destruct s; try done; intros [= <-]; cbn; by rewrite bool_decide_true. Qed.

Lemma host_step_begin p s n f u g o : host_part n = Some f -> s <> n -> agree u g -> (f = UF_HOST -> g f = Some (o, 0)) -> 0 <= Z.of_nat p < 65536 ->
  agree (host_step p s n u) (put f (Some (Z.of_nat p, 1)) g).
Proof.
  intros Hp Ns A Hh P f'. rewrite <- (agree_put u g f _ A f').
  assert (f <> UF_HOST -> fields (inc_len f (add_field f (set_len f 0 (set_off f (Z.of_nat p) u)))) f' = put f (Some (Z.of_nat p, 1)) (fields u) f') as K.
  { intros Nf. unfold fields, put. change (is_set f' (inc_len f ?v)) with (is_set f' v). rewrite is_set_add. unfold inc_len, set_len, set_off, upd. cbn.
    destruct (decide (f = f')) as [<- | N]; [rewrite !bool_decide_true by done; cbn; by rewrite u16_small | by rewrite !bool_decide_false by congruence]. }
  destruct n; try done; injection Hp as <-; cbn [host_step]; rewrite (bool_decide_false _ Ns); cbn [negb]; try (by apply K).
  assert (fields u UF_HOST = Some (o, 0)) as Eo by (rewrite A; auto). unfold fields in *. destruct (is_set UF_HOST u) eqn:S; [| done]. injection Eo as Eo1 Eo2.
  unfold put, inc_len, set_len, set_off, upd. change (is_set f' (mk_url _ _ _ _)) with (is_set f' u). cbn. case_bool_decide; [subst f'; rewrite S, Eo2; change (u16 (0 + 1)) with 1; by rewrite u16_small | done].
Qed.

Section authority.
Context (buf : bytes).

Lemma host_continue st f cs rest n p u g o l (C : ascii -> bool) : host_part st = Some f -> (forall c, C c = true -> http_parse_host_char st c = st) -> Forall (fun c => C c = true) cs ->
  drop p buf = cs ++ rest -> agree u g -> g f = Some (o, l) -> 0 <= l -> l + zlen cs <= 65535 ->
  exists u', host_loop buf (length cs + n) p st u = host_loop buf n (p + length cs) st u' /\ agree u' (put f (Some (o, l + zlen cs)) g).
Proof.
  intros Hp Hc Fc. revert p u g l. induction Fc as [|c cs Cc Fc IH]; intros p u g l D A Ef L0 L.
  - exists u. rewrite Nat.add_0_r. split; [done |]. intros f'. unfold put. case_bool_decide; [subst f' | apply A]. change (zlen []) with 0. by rewrite Z.add_0_r, A.
  - unfold zlen in *. cbn [length Nat.add host_loop] in *. assert (buf !! p = Some c) as -> by (rewrite <- (Nat.add_0_r p), <- lookup_drop, D; done). cbn [mbind option_bind].
    rewrite (Hc c Cc), bool_decide_false, (host_step_same _ _ f) by (done || by destruct st).
    destruct (IH (S p) (inc_len f u) (put f (Some (o, l + 1)) g) (l + 1)) as (u' & Eu & A'); [| | | lia | lia |].
    + rewrite <- Nat.add_1_r, <- drop_drop, D. done.
    + intros f'. rewrite (fields_inc f u f' o l) by (rewrite ?A; done || lia). by apply agree_put.
    + unfold put. by rewrite bool_decide_true.
    + exists u'. rewrite Eu. split; [f_equal; lia |]. intros f'. rewrite A'. unfold put. destruct (bool_decide (f = f')); [by rewrite Nat2Z.inj_succ, <- Z.add_1_l, Z.add_assoc | done].
Qed.

Lemma host_segment s st f cs rest n p u g o (C : ascii -> bool) : host_part st = Some f -> s <> st ->
  (forall c, C c = true -> http_parse_host_char s c = st /\ http_parse_host_char st c = st) -> Forall (fun c => C c = true) cs -> cs <> [] ->
  drop p buf = cs ++ rest -> agree u g -> (f = UF_HOST -> g f = Some (o, 0)) -> Z.of_nat p + zlen cs <= 65535 ->
  exists u', host_loop buf (length cs + n) p s u = host_loop buf n (p + length cs) st u' /\ agree u' (put f (Some (Z.of_nat p, zlen cs)) g).
Proof.
  intros Hp Ns Hc Fc Nc D A Hh L. destruct Fc as [|c cs Cc Fc]; [done |]. unfold zlen in *. cbn [length Nat.add host_loop] in *.
  assert (buf !! p = Some c) as -> by (rewrite <- (Nat.add_0_r p), <- lookup_drop, D; done). cbn [mbind option_bind].
  rewrite (proj1 (Hc c Cc)), bool_decide_false by (by destruct st).
  destruct (host_continue st f cs rest n (S p) (host_step p s st u) (put f (Some (Z.of_nat p, 1)) g) (Z.of_nat p) 1 C) as (u' & Eu & A');
    [done | intros c' Cc'; by apply Hc | done | by rewrite <- Nat.add_1_r, <- drop_drop, D | eapply host_step_begin; (done || lia) | unfold put; by rewrite bool_decide_true | lia | unfold zlen; lia |].
  exists u'. rewrite Eu. split; [f_equal; lia |]. intros f'. rewrite A'. unfold put, zlen. destruct (bool_decide (f = f')); [by rewrite Nat2Z.inj_succ, <- Z.add_1_l | done].
Qed.

(** A byte between two parts. *)
Lemma host_delimiter s s' c rest n p u : http_parse_host_char s c = s' -> (forall u, host_step p s s' u = u) -> s' <> s_http_host_dead -> drop p buf = c :: rest ->
  host_loop buf (S n) p s u = host_loop buf n (S p) s' u.
Proof.
  intros E H Nd D. cbn [host_loop]. assert (buf !! p = Some c) as -> by (rewrite <- (Nat.add_0_r p), <- lookup_drop, D; done). cbn [mbind option_bind]. by rewrite E, bool_decide_false, H.
Qed.
End authority.

(** URLs as they are written: the origin form and the absolute form. *)
Record authority := mk_authority { a_schema : bytes; a_userinfo : option bytes; a_host : bytes; a_port : option bytes }.
Record target := mk_target { t_auth : option authority; t_path : bytes; t_query : option bytes; t_fragment : option bytes }.

Definition behind (c : ascii) (x : option bytes) : bytes := match x with Some x => c :: x | None => [] end.
Definition show_userinfo (a : authority) : bytes := match a_userinfo a with Some i => i ++ ["@"%char] | None => [] end.
Definition show_authority (a : authority) : bytes := show_userinfo a ++ a_host a ++ behind ":" (a_port a).
Definition show_origin (t : target) : bytes := match t_auth t with Some a => a_schema a ++ str_bytes "://" ++ show_authority a | None => [] end.
Definition show_url (t : target) : bytes := show_origin t ++ t_path t ++ behind "?" (t_query t) ++ behind "#" (t_fragment t).

Definition dec_value (d : bytes) : Z := foldl (fun v c => v * 10 + (uchar c - 48)) 0 d.

Definition all_of (C : ascii -> bool) (x : bytes) : Prop := Forall (fun c => C c = true) x.
Definition opt_of (C : ascii -> bool) (x : option bytes) : Prop := match x with Some x => all_of C x | None => True end.

Record wf_authority (a : authority) : Prop := {
  wa_schema : a_schema a <> [] /\ all_of IS_ALPHA (a_schema a);
  wa_userinfo : opt_of IS_USERINFO_CHAR (a_userinfo a);
  wa_host : a_host a <> [] /\ all_of IS_HOST_CHAR (a_host a);
  wa_port : match a_port a with Some d => d <> [] /\ all_of IS_NUM d /\ dec_value d <= 65535 | None => True end }.

(** The URLs that the parser takes apart: without an authority there is a path,
    a path begins with a slash, and a fragment has a path or a query in front
    of it. *)
Record wf_target (t : target) : Prop := {
  wt_auth : match t_auth t with Some a => wf_authority a | None => t_path t <> [] end;
  wt_path : match t_path t with [] => True | c :: _ => c = "/"%char end /\ all_of IS_URL_CHAR (t_path t);
  wt_query : opt_of query_char (t_query t);
  wt_fragment : opt_of query_char (t_fragment t) /\ (t_path t = [] -> t_query t = None -> t_fragment t = None) }.

(** What the parser shall find. *)
Definition nonempty (x : option bytes) : option bytes := match x with Some [] => None | _ => x end.
Definition url_text (t : target) (f : url_field) : option bytes :=
  match f with
  | UF_SCHEMA => a_schema <$> t_auth t
  | UF_HOST => a_host <$> t_auth t
  | UF_PORT => t_auth t ≫= a_port
  | UF_PATH => nonempty (Some (t_path t))
  | UF_QUERY => nonempty (t_query t)
  | UF_FRAGMENT => nonempty (t_fragment t)
  | UF_USERINFO => nonempty (t_auth t ≫= a_userinfo)
  end.

(** A part that may be empty, and then is not set. *)
Definition place (f : url_field) (p : Z) (x : bytes) (g : url_field -> option (Z * Z)) : url_field -> option (Z * Z) :=
  match x with [] => g | _ => put f (Some (p, zlen x)) g end.
Definition place_opt (f : url_field) (p : Z) (x : option bytes) (g : url_field -> option (Z * Z)) : url_field -> option (Z * Z) :=
  match x with Some x => place f (p + 1) x g | None => g end.

Lemma steps_all f s s' cs (C : ascii -> bool) : part_of s' = part f -> (forall c, C c = true -> parse_url_char s c = s') -> (forall c, C c = true -> parse_url_char s' c = s') ->
  all_of C cs -> cs <> [] -> steps f s cs = Some s'.
Proof.
  intros Hp H1 H2 Fc Nc. destruct Fc as [|c cs Cc Fc]; [done |]. cbn [steps]. rewrite (H1 c Cc), Hp, bool_decide_true by done. clear c Cc Nc.
  induction Fc as [|c cs Cc Fc IH]; [done |]. cbn [steps]. by rewrite (H2 c Cc), Hp, bool_decide_true.
Qed.

(** The part that was read last comes before the part [f]. *)
Definition before (n : Z) (old : option url_field) : Prop := match old with Some f => uf_num f < n | None => True end.

(** The rest of a URL is read to its end. *)
Definition lands (bs : bytes) (p : nat) (s : state) (n : Z) (G G' : url_field -> option (Z * Z)) : Prop :=
  forall u old fa, agree u G -> before n old -> exists u', url_loop bs p s old fa u = Some (0, fa, u') /\ agree u' G'.

Lemma seen_at_none f s cs s' : steps f s cs = Some s' -> f <> UF_HOST -> seen_at s cs = false.
Proof.
  revert s. induction cs as [|c cs IH]; intros s E Nf; [done |]. cbn in *. destruct (part_of (parse_url_char s c)) as [f'| | |] eqn:Ep; try done.
  destruct (decide (f = f')) as [<- | N]; [rewrite bool_decide_true in E by done | by rewrite bool_decide_false in E by done].
  rewrite bool_decide_false, (IH _ E Nf); [done |]. intros Es. rewrite Es in Ep. cbn in Ep. congruence.
Qed.

Lemma lands_segment f cs bs p s s' n G G' : steps f s cs = Some s' -> f <> UF_HOST -> n <= uf_num f -> Z.of_nat p + zlen cs <= 65535 ->
  lands bs (p + length cs) s' (uf_num f + 1) (place f (Z.of_nat p) cs G) G' -> lands (cs ++ bs) p s n G G'.
Proof.
  intros E Nf No L H u old fa A B. assert (before (uf_num f) old) as B' by (destruct old; cbn in *; [lia | done]). destruct (decide (cs = [])) as [-> | Nc].
  - injection E as <-. rewrite Nat.add_0_r in H. apply H; [done |]. destruct old; cbn in *; [lia | done].
  - destruct (url_segment f cs bs p s s' old fa u G) as (u1 & E1 & A1); [done | done | intros ->; cbn in B'; lia | done | done |].
    rewrite E1, (seen_at_none _ _ _ _ E Nf), orb_false_r. apply H; [by destruct cs | cbn; lia].
Qed.

Lemma lands_delimiter c bs p s s' n G G' : parse_url_char s c = s' -> part_of s' = delimiter -> lands bs (S p) s' n G G' -> lands (c :: bs) p s n G G'.
Proof. intros E Hd H u old fa A B. cbn [url_loop]. rewrite E, Hd. by apply H. Qed.

Lemma lands_nil p s n G : lands [] p s n G G.
Proof. intros u old fa A B. by exists u. Qed.

(** The parts behind the path. *)
Lemma lands_fragment x p s n G : opt_of query_char x -> (is_Some x -> parse_url_char s "#" = s_req_fragment_start) -> n <= 5 -> Z.of_nat p + zlen (behind "#" x) <= 65535 ->
  lands (behind "#" x) p s n G (place_opt UF_FRAGMENT (Z.of_nat p) x G).
Proof.
  intros C Hs N L. destruct x as [x|]; [| apply lands_nil]. cbn [behind place_opt]. eapply lands_delimiter; [by apply Hs | done |]. rewrite <- (app_nil_r x) at 1. unfold zlen in L. cbn in L.
  eapply (lands_segment UF_FRAGMENT x [] _ _ (match x with [] => s_req_fragment_start | _ => s_req_fragment end)); [| done | done | unfold zlen; lia |].
  - destruct x as [|c x]; [done |]. apply (steps_all _ _ _ _ query_char); [done | apply url_fragment_start | apply url_fragment | done | done].
  - rewrite Nat2Z.inj_succ. apply lands_nil.
Qed.

Lemma lands_query x y p s G : opt_of query_char x -> opt_of query_char y -> (is_Some x -> parse_url_char s "?" = s_req_query_string_start) ->
  (is_Some y -> x = None -> parse_url_char s "#" = s_req_fragment_start) -> Z.of_nat p + zlen (behind "?" x ++ behind "#" y) <= 65535 ->
  lands (behind "?" x ++ behind "#" y) p s 4 G (place_opt UF_FRAGMENT (Z.of_nat (p + length (behind "?" x))) y (place_opt UF_QUERY (Z.of_nat p) x G)).
Proof.
  intros C Cy Hs Hf L. unfold zlen in L. rewrite length_app in L. destruct x as [x|].
  - cbn [behind app length] in *. eapply lands_delimiter; [by apply Hs | done |].
    eapply (lands_segment UF_QUERY x _ _ _ (match x with [] => s_req_query_string_start | _ => s_req_query_string end)); [| done | done | unfold zlen; lia |].
    + destruct x as [|c x]; [done |]. apply (steps_all _ _ _ _ query_char); [done | apply url_query_start | apply url_query | done | done].
    + replace (p + S (length x))%nat with (S p + length x)%nat by lia. cbn [place_opt]. replace (Z.of_nat p + 1) with (Z.of_nat (S p)) by lia.
      apply lands_fragment; [done | by destruct x | done | unfold zlen; lia].
  - cbn [behind app length place_opt] in *. rewrite Nat.add_0_r. apply lands_fragment; [done | auto | done | unfold zlen; lia].
Qed.

Lemma lands_path t p s G : wf_target t -> Z.of_nat p + zlen (t_path t ++ behind "?" (t_query t) ++ behind "#" (t_fragment t)) <= 65535 ->
  s = s_req_server \/ s = s_req_spaces_before_url /\ t_path t <> [] ->
  lands (t_path t ++ behind "?" (t_query t) ++ behind "#" (t_fragment t)) p s 3 G
    (place_opt UF_FRAGMENT (Z.of_nat (p + length (t_path t) + length (behind "?" (t_query t)))) (t_fragment t)
      (place_opt UF_QUERY (Z.of_nat (p + length (t_path t))) (t_query t) (place UF_PATH (Z.of_nat p) (t_path t) G))).
Proof.
  intros [_ [Wc Wp] Wq [Wf Wn]] L Hs. unfold zlen in L. rewrite length_app in L.
  eapply (lands_segment UF_PATH (t_path t) _ _ _ (match t_path t with [] => s | _ => s_req_path end)); [| done | done | unfold zlen; lia |].
  - destruct (t_path t) as [|c x]; [done |]. subst c. inversion Wp; subst. cbn [steps].
    assert (parse_url_char s "/" = s_req_path) as -> by (by destruct Hs as [-> | [-> _]]). cbn. destruct x as [|c x]; [done |].
    apply (steps_all UF_PATH _ _ _ IS_URL_CHAR); [done | apply url_path | apply url_path | done | done].
  - apply lands_query; [done | done | | | unfold zlen; lia].
    + intros _. destruct (t_path t); [| done]. by destruct Hs as [-> | [_ ?]].
    + intros [y Ey] En. destruct (t_path t); [| done]. by rewrite Wn in Ey.
Qed.

(** The authority, as the first loop sees it. *)
Lemma host_port_chars a : wf_authority a -> all_of IS_USERINFO_CHAR (a_host a ++ behind ":" (a_port a)) /\ a_host a ++ behind ":" (a_port a) <> [].
Proof.
  intros [_ _ [Nh Wh] Wp]. split; [| by destruct (a_host a)]. apply Forall_app. split; [eapply Forall_impl; [exact Wh | apply host_userinfo] |].
  destruct (a_port a) as [d|]; [| by constructor]. cbn [behind]. constructor; [done |]. eapply Forall_impl; [apply Wp | apply num_userinfo].
Qed.

Lemma seen_at_userinfo s cs : s = s_req_server_start \/ s = s_req_server \/ s = s_req_server_with_at -> all_of IS_USERINFO_CHAR cs -> seen_at s cs = false.
Proof.
  intros Hs Fc. revert s Hs. induction Fc as [|c cs Cc Fc IH]; intros s Hs; [done |]. cbn [seen_at].
  assert (parse_url_char s c = s_req_server) as -> by (destruct Hs as [-> | [-> | ->]]; [by apply userinfo_server_start | by apply userinfo_server | by apply userinfo_server_at]). cbn. apply IH. auto.
Qed.

Lemma steps_authority a : wf_authority a -> steps UF_HOST s_req_server_start (show_authority a) = Some s_req_server /\
  seen_at s_req_server_start (show_authority a) = (if a_userinfo a is Some _ then true else false).
Proof.
  intros W. destruct (host_port_chars a W) as [Fc Nc]. unfold show_authority, show_userinfo. destruct W as [_ Wu _ _]. destruct (a_userinfo a) as [i|].
  - rewrite <- app_assoc. set (s1 := match i with [] => s_req_server_start | _ => s_req_server end).
    assert (steps UF_HOST s_req_server_start i = Some s1) as E1.
    { destruct i as [|c i]; [done |]. apply (steps_all _ _ _ _ IS_USERINFO_CHAR); [done | apply userinfo_server_start | apply userinfo_server | done | done]. }
    assert (parse_url_char s1 "@" = s_req_server_with_at) as E2 by (by destruct i).
    split.
    + rewrite steps_app, E1. cbn [mbind option_bind app steps]. rewrite E2. cbn. apply (steps_all _ _ _ _ IS_USERINFO_CHAR); [done | apply userinfo_server_at | apply userinfo_server | done | done].
    + rewrite (seen_at_app _ _ _ _ _ E1). cbn [app seen_at]. rewrite E2. cbn. by rewrite orb_true_r.
  - cbn [app]. split; [apply (steps_all _ _ _ _ IS_USERINFO_CHAR); [done | apply userinfo_server_start | apply userinfo_server | done | done] | apply seen_at_userinfo; auto].
Qed.

Lemma url_authority a bs u G : wf_authority a -> agree u G -> zlen (a_schema a ++ str_bytes "://" ++ show_authority a) <= 65535 ->
  exists u', url_loop ((a_schema a ++ str_bytes "://" ++ show_authority a) ++ bs) 0 s_req_spaces_before_url None false u =
    url_loop bs (length (a_schema a ++ str_bytes "://" ++ show_authority a)) s_req_server (Some UF_HOST) (if a_userinfo a is Some _ then true else false) u' /\
    agree u' (put UF_HOST (Some (zlen (a_schema a) + 3, zlen (show_authority a))) (put UF_SCHEMA (Some (0, zlen (a_schema a))) G)).
Proof.
  intros W A L. destruct (wa_schema a W) as [Ns Ws]. destruct (steps_authority a W) as [E2 S2]. destruct (wa_host a W) as [Nh _]. unfold zlen in L. rewrite !length_app in L. cbn in L.
  rewrite <- !app_assoc. destruct (url_segment UF_SCHEMA (a_schema a) (str_bytes "://" ++ show_authority a ++ bs) 0 s_req_spaces_before_url s_req_schema None false u G) as (u1 & -> & A1);
    [done | apply (steps_all _ _ _ _ IS_ALPHA); [done | apply alpha_begins | apply alpha_schema | done | done] | done | done | unfold zlen; lia |].
  rewrite (seen_at_none UF_SCHEMA _ _ s_req_schema) by (done || (apply (steps_all _ _ _ _ IS_ALPHA); [done | apply alpha_begins | apply alpha_schema | done | done])).
  cbn [str_bytes app url_loop orb Nat.add]. change (parse_url_char s_req_schema ":") with s_req_schema_slash. cbn [part_of].
  change (parse_url_char s_req_schema_slash "/") with s_req_schema_slash_slash. cbn [part_of]. change (parse_url_char s_req_schema_slash_slash "/") with s_req_server_start. cbn [part_of].
  destruct (url_segment UF_HOST (show_authority a) bs (S (S (S (length (a_schema a))))) s_req_server_start s_req_server (Some UF_SCHEMA) false u1 (put UF_SCHEMA (Some (0, zlen (a_schema a))) G))
    as (u2 & -> & A2); [unfold show_authority; by destruct (show_userinfo a), (a_host a) | done | done | done | unfold zlen; lia |].
  rewrite S2. exists u2. split; [f_equal; rewrite !length_app; cbn; lia |]. unfold zlen in *. by replace (Z.of_nat (length (a_schema a)) + 3) with (Z.of_nat (S (S (S (length (a_schema a)))))) by lia.
Qed.

(** The authority, as its own loop sees it. *)
Lemma drop_head (A : Type) (x : A) (p : nat) (buf rest : list A) : drop p buf = x :: rest -> drop (S p) buf = rest.
Proof. intros D. by rewrite <- Nat.add_1_r, <- drop_drop, D. Qed.

Lemma drop_behind (A : Type) (x : list A) (p : nat) (buf rest : list A) : drop p buf = x ++ rest -> drop (p + length x) buf = rest.
Proof. intros D. by rewrite <- drop_drop, D, drop_app_length. Qed.

Definition put_port (o : Z) (x : option bytes) (G : url_field -> option (Z * Z)) : url_field -> option (Z * Z) :=
  match x with Some d => put UF_PORT (Some (o + 1, zlen d)) G | None => G end.

Lemma host_port_eval buf a p post u G o : wf_authority a -> drop p buf = (a_host a ++ behind ":" (a_port a)) ++ post -> agree u G -> G UF_HOST = Some (o, 0) ->
  Z.of_nat p + zlen (a_host a ++ behind ":" (a_port a)) <= 65535 ->
  exists s u', host_loop buf (length (a_host a ++ behind ":" (a_port a))) p s_http_host_start u = Some (0, s, u') /\ host_final s = true /\
    agree u' (put_port (Z.of_nat (p + length (a_host a))) (a_port a) (put UF_HOST (Some (Z.of_nat p, zlen (a_host a))) G)).
Proof.
  intros [_ _ [Nh Wh] Wp] D A Hg L. unfold zlen in L. rewrite length_app in L |- *. rewrite <- app_assoc in D.
  destruct (host_segment buf s_http_host_start s_http_host UF_HOST (a_host a) (behind ":" (a_port a) ++ post) (length (behind ":" (a_port a))) p u G o IS_HOST_CHAR) as (u1 & -> & A1);
    [done | done | apply host_name | done | done | done | done | done | unfold zlen; lia |].
  apply drop_behind in D. destruct (a_port a) as [d|]; cbn [behind length put_port] in *; [| by exists s_http_host, u1].
  destruct Wp as (Nd & Wd & _). rewrite (host_delimiter buf s_http_host s_http_host_port_start ":" (d ++ post)) by (done || by cbn).
  apply drop_head in D. destruct (host_segment buf s_http_host_port_start s_http_host_port UF_PORT d post 0 (S (p + length (a_host a))) u1 (put UF_HOST (Some (Z.of_nat p, zlen (a_host a))) G) 0 IS_NUM) as (u2 & E2 & A2);
    [done | done | apply host_digit | done | done | exact D | exact A1 | done | unfold zlen; lia |].
  rewrite Nat.add_0_r in E2. rewrite E2. exists s_http_host_port, u2. split; [done |]. split; [done |].
  by replace (Z.of_nat (p + length (a_host a)) + 1) with (Z.of_nat (S (p + length (a_host a)))) by lia.
Qed.

Lemma parse_host_eval buf a p post u G : wf_authority a -> drop p buf = show_authority a ++ post -> agree u G -> G UF_HOST = Some (Z.of_nat p, zlen (show_authority a)) ->
  Z.of_nat p + zlen (show_authority a) <= 65535 -> let ph := (p + length (show_userinfo a))%nat in
  exists u', http_parse_host buf u (if a_userinfo a is Some _ then true else false) = Some (0, u') /\
    agree u' (put_port (Z.of_nat (ph + length (a_host a))) (a_port a) (put UF_HOST (Some (Z.of_nat ph, zlen (a_host a))) (place UF_USERINFO (Z.of_nat p) (default [] (a_userinfo a)) G))).
Proof.
  intros W D A Hg L ph. pose proof (A UF_HOST) as Ah. rewrite Hg in Ah. unfold fields in Ah. destruct (is_set UF_HOST u) eqn:S; [| done]. injection Ah as Ho Hl.
  unfold http_parse_host. rewrite S. cbn [negb]. change (off (set_len UF_HOST 0 u) UF_HOST) with (off u UF_HOST). rewrite Ho, Hl, Nat2Z.id.
  replace (Z.to_nat (Z.of_nat p + zlen (show_authority a) - Z.of_nat p)) with (length (show_authority a)) by (unfold zlen; lia).
  assert (agree (set_len UF_HOST 0 u) (put UF_HOST (Some (Z.of_nat p, 0)) G)) as A0.
  { intros f. unfold fields, put. change (is_set f (set_len UF_HOST 0 u)) with (is_set f u). cbn. unfold upd. case_bool_decide; [subst f; by rewrite S, Ho | apply A]. }
  assert (forall u1 G1, agree u1 G1 -> G1 UF_HOST = Some (Z.of_nat p, 0) -> (forall f, put UF_HOST (Some (Z.of_nat ph, zlen (a_host a))) G1 f =
      put UF_HOST (Some (Z.of_nat ph, zlen (a_host a))) (place UF_USERINFO (Z.of_nat p) (default [] (a_userinfo a)) G) f) ->
    exists u', ('(r, s, u) ← host_loop buf (length (a_host a ++ behind ":" (a_port a))) ph s_http_host_start u1; Some (if (r =? 0) && host_final s then 0 else 1, u)) = Some (0, u') /\
    agree u' (put_port (Z.of_nat (ph + length (a_host a))) (a_port a) (put UF_HOST (Some (Z.of_nat ph, zlen (a_host a))) (place UF_USERINFO (Z.of_nat p) (default [] (a_userinfo a)) G)))) as K.
  { intros u1 G1 A1 H1 Eg. unfold show_authority in D, L. rewrite <- app_assoc in D. apply drop_behind in D. unfold zlen in L. rewrite length_app in L.
    destruct (host_port_eval buf a ph post u1 G1 (Z.of_nat p) W D A1 H1) as (s & u' & -> & Fs & A'); [unfold zlen; lia |].
    exists u'. cbn [mbind option_bind]. rewrite Fs. split; [done |]. intros f. rewrite A'. unfold put_port. destruct (a_port a); [| apply Eg]. unfold put at 1 3. case_bool_decide; [done | apply Eg]. }
  unfold show_authority in D, L |- *. rewrite <- app_assoc in D. rewrite length_app. unfold zlen in L. rewrite length_app in L. subst ph.
  unfold show_userinfo in *. destruct W as [_ Wu _ _]. destruct (a_userinfo a) as [i|]; cbn [default from_option].
  - rewrite length_app in *. cbn [length] in *. rewrite <- app_assoc in D. destruct (decide (i = [])) as [-> | Ni].
    + cbn [length Nat.add app] in *. rewrite (host_delimiter buf s_http_userinfo_start s_http_host_start "@" ((a_host a ++ behind ":" (a_port a)) ++ post)) by (done || by cbn).
      rewrite Nat.add_1_r in K |- *. apply (K _ _ A0); [unfold put; by rewrite bool_decide_true |]. intros f. cbn [place]. unfold put. by case_bool_decide.
    + rewrite <- Nat.add_assoc. destruct (host_segment buf s_http_userinfo_start s_http_userinfo UF_USERINFO i ("@"%char :: (a_host a ++ behind ":" (a_port a)) ++ post)
        (1 + length (a_host a ++ behind ":" (a_port a))) p (set_len UF_HOST 0 u) (put UF_HOST (Some (Z.of_nat p, 0)) G) 0 IS_USERINFO_CHAR) as (u1 & -> & A1); [done | done | apply host_user | done | done | exact D | exact A0 | done | unfold zlen; lia |].
      apply drop_behind in D. cbn [Nat.add]. rewrite (host_delimiter buf s_http_userinfo s_http_host_start "@" ((a_host a ++ behind ":" (a_port a)) ++ post)) by (done || by cbn).
      replace (Datatypes.S (p + length i)) with (p + (length i + 1))%nat by lia. apply (K _ _ A1); [reflexivity |].
      intros f. destruct i as [|c i]; [done |]. change (place UF_USERINFO (Z.of_nat p) (default [] (Some (c :: i))) G) with (put UF_USERINFO (Some (Z.of_nat p, zlen (c :: i))) G).
      unfold put. by destruct (bool_decide (UF_HOST = f)), (bool_decide (UF_USERINFO = f)).
  - cbn [length app Nat.add] in *. rewrite Nat.add_0_r in K |- *. apply (K _ _ A0); [unfold put; by rewrite bool_decide_true |]. intros f. cbn [place]. unfold put. by case_bool_decide.
Qed.

(** The number behind the colon. *)
Lemma digit_value c : IS_NUM c = true -> u64 (schar c - 48) = uchar c - 48 /\ 0 <= uchar c - 48 <= 9.
Proof. revert c. intros c H. split; [revert c H; all_chars |]. revert H. unfold IS_NUM, between. intros [L1%Z.leb_le L2%Z.leb_le]%andb_true_iff. change (uchar "0") with 48 in L1. change (uchar "9") with 57 in L2. lia. Qed.

Lemma foldl_dec_mono d v : all_of IS_NUM d -> 0 <= v -> v <= foldl (fun v c => v * 10 + (uchar c - 48)) v d.
Proof.
  intros Fd. revert v. induction Fd as [|c d Hc Fd IH]; intros v V; cbn; [lia |]. destruct (digit_value c Hc) as [_ ?]. specialize (IH (v * 10 + (uchar c - 48))). lia.
Qed.

Lemma port_loop_eval buf d post p v : all_of IS_NUM d -> drop p buf = d ++ post -> 0 <= v -> foldl (fun v c => v * 10 + (uchar c - 48)) v d <= 65535 ->
  port_loop buf (length d) p v = Some (Some (foldl (fun v c => v * 10 + (uchar c - 48)) v d)).
Proof.
  intros Fd. revert p v. induction Fd as [|c d Hc Fd IH]; intros p v D V L; cbn [length port_loop foldl]; [done |].
  assert (buf !! p = Some c) as -> by (rewrite <- (Nat.add_0_r p), <- lookup_drop, D; done). cbn [mbind option_bind]. destruct (digit_value c Hc) as [-> Hv]. cbn in L.
  pose proof (foldl_dec_mono d (v * 10 + (uchar c - 48)) Fd ltac:(lia)) as M. rewrite (u64_small (v * 10)) by lia. rewrite u64_small by lia.
  rewrite (proj2 (Z.ltb_ge _ _)) by lia. apply IH; [by apply drop_head in D | lia | done].
Qed.

(** Where the parts of a URL are. *)
Definition layout (t : target) : url_field -> option (Z * Z) :=
  let n := length (show_origin t) in
  let tail G := place_opt UF_FRAGMENT (Z.of_nat (n + length (t_path t) + length (behind "?" (t_query t)))) (t_fragment t)
    (place_opt UF_QUERY (Z.of_nat (n + length (t_path t))) (t_query t) (place UF_PATH (Z.of_nat n) (t_path t) G)) in
  match t_auth t with
  | None => tail (fun _ => None)
  | Some a =>
      let p := (length (a_schema a) + 3)%nat in
      let ph := (p + length (show_userinfo a))%nat in
      put_port (Z.of_nat (ph + length (a_host a))) (a_port a) (put UF_HOST (Some (Z.of_nat ph, zlen (a_host a))) (place UF_USERINFO (Z.of_nat p) (default [] (a_userinfo a))
        (tail (put UF_HOST (Some (Z.of_nat p, zlen (show_authority a))) (put UF_SCHEMA (Some (0, zlen (a_schema a))) (fun _ => None))))))
  end.

Lemma agree_zero g h : agree (mk_url 0 0 g h) (fun _ => None).
Proof. intros f. unfold fields. by rewrite field_set_zero. Qed.

Lemma agree_set u G f : agree u G -> is_set f u = if G f is Some _ then true else false.
Proof. intros A. rewrite <- (A f). unfold fields. by destruct (is_set f u). Qed.

Lemma put_eq f v G : put f v G f = v.
Proof. unfold put. by rewrite bool_decide_true. Qed.
Lemma put_ne f v G g : f <> g -> put f v G g = G g.
Proof. intros N. unfold put. by rewrite bool_decide_false. Qed.
Lemma place_ne f p x G g : f <> g -> place f p x G g = G g.
Proof. intros N. destruct x; [done | by apply put_ne]. Qed.
Lemma place_opt_ne f p x G g : f <> g -> place_opt f p x G g = G g.
Proof. intros N. destruct x; [by apply place_ne | done]. Qed.
Lemma put_port_ne p x G g : UF_PORT <> g -> put_port p x G g = G g.
Proof. intros N. destruct x; [by apply put_ne | done]. Qed.
Ltac places := repeat first [rewrite put_eq | rewrite put_ne by done | rewrite place_ne by done | rewrite place_opt_ne by done | rewrite put_port_ne by done].

(** The port is written at the end only. *)
Lemma url_loop_port bs p s old fa u r fa' u' : url_loop bs p s old fa u = Some (r, fa', u') -> port u' = port u.
Proof.
  revert p s old fa u. induction bs as [|c bs IH]; intros p s old fa u; cbn [url_loop]; [by intros [= _ _ <-] |].
  destruct (part_of _); [| apply IH | by intros [= _ _ <-] | done]. destruct (bool_decide (Some f = old)); intros E; by apply IH in E.
Qed.

Lemma host_step_port p s n u : port (host_step p s n u) = port u.
Proof. unfold host_step. destruct n; try done; by destruct (negb _). Qed.

Lemma parse_host_port buf u fa r u' : http_parse_host buf u fa = Some (r, u') -> port u' = port u.
Proof.
  assert (forall n p s u r s' u', host_loop buf n p s u = Some (r, s', u') -> port u' = port u) as K.
  { clear. induction n as [|n IH]; intros p s u r s' u'; cbn [host_loop]; [by intros [= _ _ <-] |]. destruct (buf !! p) as [c|]; [| done]. cbn [mbind option_bind].
    case_bool_decide; [by intros [= _ _ <-] |]. intros E. apply IH in E. by rewrite E, host_step_port. }
  unfold http_parse_host. destruct (negb _); [done |]. destruct (host_loop _ _ _ _ _) as [[[r' s'] u1]|] eqn:E; [| done]. cbn [mbind option_bind]. intros [= _ <-]. by apply K in E.
Qed.

Lemma show_url_ne t : wf_target t -> zlen (show_url t) <> 0.
Proof.
  intros [Wa _ _ _]. unfold show_url, show_origin, zlen. rewrite !length_app. destruct (t_auth t) as [a|]; [| destruct (t_path t); cbn; (done || lia)].
  destruct Wa as [[Ns _] _ _ _]. rewrite length_app. destruct (a_schema a); [done | cbn; lia].
Qed.

Definition url_port (t : target) : Z := match t_auth t ≫= a_port with Some d => dec_value d | None => 0 end.

Lemma parse_port_none buf u : is_set UF_PORT u = false -> parse_port buf u = Some (0, u).
Proof. unfold parse_port. by intros ->. Qed.

Lemma parse_port_eval buf u G d p post : agree u G -> G UF_PORT = Some (Z.of_nat p, zlen d) -> drop p buf = d ++ post -> d <> [] -> all_of IS_NUM d -> dec_value d <= 65535 ->
  exists u', parse_port buf u = Some (0, u') /\ agree u' G /\ port u' = dec_value d.
Proof.
  intros A Hg D Nd Fd L. pose proof (A UF_PORT) as Ap. rewrite Hg in Ap. unfold fields in Ap. destruct (is_set UF_PORT u) eqn:S; [| done]. injection Ap as Ho Hl.
  unfold parse_port. rewrite S, Ho, Hl. assert (length (drop p buf) = length d + length post)%nat as Ln by (rewrite D; apply length_app). rewrite length_drop in Ln.
  assert (0 < length d)%nat by (destruct d; [done | cbn; lia]).
  rewrite (proj2 (Z.leb_le _ _)) by (unfold zlen; lia). cbn [negb]. rewrite Nat2Z.id. unfold zlen. rewrite Nat2Z.id, (port_loop_eval _ _ post) by (done || lia). cbn [mbind option_bind].
  eexists. split; [reflexivity |]. split; [exact A |]. cbn. apply u16_small. pose proof (foldl_dec_mono d 0 Fd). unfold dec_value in *. lia.
Qed.

Lemma parse_url_eval t u0 : wf_target t -> zlen (show_url t) <= 65535 ->
  exists u, http_parser_parse_url (show_url t) false u0 = Some (0, u) /\ agree u (layout t) /\ port u = url_port t.
Proof.
  intros W L. unfold http_parser_parse_url. rewrite (proj2 (Z.eqb_neq _ _) (show_url_ne t W)). pose proof (agree_zero (off u0) (len u0)) as A0. set (u1 := mk_url 0 0 (off u0) (len u0)) in *.
  unfold layout, url_port. pose proof W as [Wa _ _ _]. unfold show_url, show_origin in *. destruct (t_auth t) as [a|] eqn:Ea.
  - set (org := a_schema a ++ str_bytes "://" ++ show_authority a) in *. set (tl := t_path t ++ behind "?" (t_query t) ++ behind "#" (t_fragment t)) in *.
    unfold zlen in L. rewrite length_app in L. assert (length org = length (a_schema a) + 3 + length (show_authority a))%nat as Lo by (subst org; rewrite !length_app; cbn; lia).
    destruct (url_authority a tl u1 _ Wa A0) as (u2 & E2 & A2); [fold org; unfold zlen; lia |]. fold org in E2. rewrite E2.
    replace (zlen (a_schema a) + 3) with (Z.of_nat (length (a_schema a) + 3)) in A2 by (unfold zlen; lia).
    destruct (lands_path t (length org) s_req_server _ W ltac:(fold tl; unfold zlen; lia) (or_introl eq_refl) u2 (Some UF_HOST) (if a_userinfo a is Some _ then true else false) A2) as (u3 & E3 & A3); [done |].
    fold tl in E3. pose proof (url_loop_port _ _ _ _ _ _ _ _ _ (eq_trans E2 E3)) as P3. rewrite E3. cbn [mbind option_bind]. change (negb (0 =? 0)) with false. cbv iota.
    assert (is_set UF_HOST u3 = true) as Sh by (rewrite (agree_set _ _ _ A3); by places). rewrite Sh, andb_false_r.
    match type of A3 with agree _ ?G => destruct (parse_host_eval (org ++ tl) a (length (a_schema a) + 3) tl u3 G Wa) as (u4 & E4 & A4) end.
    + subst org. rewrite <- !app_assoc. rewrite app_assoc. replace (length (a_schema a) + 3)%nat with (length (a_schema a ++ str_bytes "://")) by (rewrite length_app; done). by rewrite drop_app_length.
    + exact A3.
    + by places.
    + unfold zlen. lia.
    + rewrite E4. cbn [mbind option_bind andb]. change (negb (0 =? 0)) with false. cbv iota. pose proof (parse_host_port _ _ _ _ _ E4) as P4. cbn [mbind option_bind].
      destruct Wa as [_ _ _ Wp]. destruct (a_port a) as [d|] eqn:Ed.
      * destruct Wp as (Nd & Fd & Ld). match type of A4 with agree _ ?G => destruct (parse_port_eval (org ++ tl) u4 G d (length (a_schema a) + 3 + length (show_userinfo a) + length (a_host a) + 1) tl A4) as (u5 & -> & A5 & P5) end;
          [cbn [put_port]; rewrite put_eq; do 2 f_equal; lia | | done | done | done | by exists u5].
        subst org. unfold show_authority. rewrite Ed. cbn [behind]. rewrite <- !app_assoc. cbn [app].
        replace (a_schema a ++ str_bytes "://" ++ show_userinfo a ++ a_host a ++ ":"%char :: d ++ tl) with ((a_schema a ++ str_bytes "://" ++ show_userinfo a ++ a_host a ++ [":"%char]) ++ d ++ tl)
          by (rewrite <- !app_assoc; done).
        replace (length (a_schema a) + 3 + length (show_userinfo a) + length (a_host a) + 1)%nat with (length (a_schema a ++ str_bytes "://" ++ show_userinfo a ++ a_host a ++ [":"%char]))
          by (rewrite !length_app; cbn; lia). apply drop_app_length.
      * rewrite parse_port_none by (rewrite (agree_set _ _ _ A4); cbn [put_port]; by places). exists u4. split; [done |]. split; [exact A4 |]. by rewrite P4, P3.
  - cbn [app length] in *. destruct (lands_path t 0 s_req_spaces_before_url _ W L (or_intror (conj eq_refl Wa)) u1 None false A0) as (u2 & E2 & A2); [done |].
    pose proof (url_loop_port _ _ _ _ _ _ _ _ _ E2) as P2. rewrite E2. cbn [mbind option_bind]. change (negb (0 =? 0)) with false. cbv iota.
    rewrite !(agree_set _ _ _ A2). places. cbn [andb mbind option_bind]. change (negb (0 =? 0)) with false. cbv iota.
    rewrite parse_port_none by (rewrite (agree_set _ _ _ A2); by places). by exists u2.
Qed.

(** A part of the buffer. *)
Lemma part_text (pre x post : bytes) : take (Z.to_nat (zlen x)) (drop (Z.to_nat (Z.of_nat (length pre))) (pre ++ x ++ post)) = x.
Proof. unfold zlen. rewrite !Nat2Z.id, drop_app_length. apply take_app_length. Qed.

Definition text_at (buf : bytes) (ol : Z * Z) : bytes := take (Z.to_nat (snd ol)) (drop (Z.to_nat (fst ol)) buf).

Lemma text_at_part buf pre x post o : buf = pre ++ x ++ post -> o = Z.of_nat (length pre) -> text_at buf (o, zlen x) = x.
Proof. intros -> ->. apply part_text. Qed.

Lemma place_text f buf pre x post o G : buf = pre ++ x ++ post -> o = Z.of_nat (length pre) -> G f = None -> text_at buf <$> place f o x G f = nonempty (Some x).
Proof. intros E Eo Hg. destruct x as [|c x]; cbn [place]; [by rewrite Hg |]. rewrite put_eq. cbn [fmap option_fmap option_map nonempty]. f_equal. by eapply text_at_part. Qed.

Lemma place_opt_text f buf pre c x post o G : buf = pre ++ behind c x ++ post -> o = Z.of_nat (length pre) -> G f = None -> text_at buf <$> place_opt f o x G f = nonempty x.
Proof.
  intros E Eo Hg. destruct x as [x|]; cbn [place_opt]; [| by rewrite Hg]. eapply (place_text f buf (pre ++ [c]) x post); [by rewrite E, <- app_assoc | rewrite length_app; cbn; lia | done].
Qed.

Lemma layout_text t f : wf_target t -> text_at (show_url t) <$> layout t f = url_text t f.
Proof.
  intros W. pose proof W as [Wa _ _ _]. unfold layout, url_text, show_url, show_origin. destruct (t_auth t) as [a|].
  - set (org := a_schema a ++ str_bytes "://" ++ show_authority a). destruct f; places.
    + cbn [fmap option_fmap option_map]. f_equal. subst org. rewrite <- !app_assoc. by eapply (text_at_part _ []).
    + cbn [fmap option_fmap option_map]. f_equal. subst org. unfold show_authority.
      eapply (text_at_part _ (a_schema a ++ str_bytes "://" ++ show_userinfo a)); [by rewrite <- !app_assoc | rewrite !length_app; cbn; lia].
    + cbn [mbind option_bind]. destruct (a_port a) as [d|] eqn:Ed; cbn [put_port]; [| by places]. rewrite put_eq. cbn [fmap option_fmap option_map]. f_equal. subst org. unfold show_authority. rewrite Ed. cbn [behind].
      eapply (text_at_part _ (a_schema a ++ str_bytes "://" ++ show_userinfo a ++ a_host a ++ [":"%char])); [by rewrite <- !app_assoc | rewrite !length_app; cbn; lia].
    + eapply (place_text _ _ org); [done | done | by places].
    + eapply (place_opt_text _ _ (org ++ t_path t) "?"); [by rewrite <- !app_assoc | by rewrite length_app | by places].
    + eapply (place_opt_text _ _ (org ++ t_path t ++ behind "?" (t_query t)) "#" _ []); [by rewrite app_nil_r, <- !app_assoc | rewrite !length_app; lia | by places].
    + cbn [mbind option_bind]. rewrite (place_text UF_USERINFO _ (a_schema a ++ str_bytes "://") _ (match a_userinfo a with Some _ => ["@"%char] | None => [] end ++ a_host a ++ behind ":" (a_port a) ++ t_path t ++ behind "?" (t_query t) ++ behind "#" (t_fragment t)));
        [by destruct (a_userinfo a) as [[]|] | | rewrite length_app; cbn; lia | by places].
      subst org. unfold show_authority, show_userinfo. by destruct (a_userinfo a); cbn [default from_option]; rewrite <- !app_assoc.
  - cbn [app length Nat.add] in *. destruct f; places; try done.
    + eapply (place_text _ _ []); done.
    + eapply (place_opt_text _ _ (t_path t) "?"); [done | done | by places].
    + eapply (place_opt_text _ _ (t_path t ++ behind "?" (t_query t)) "#" _ []); [by rewrite app_nil_r, <- !app_assoc | by rewrite length_app | by places].
Qed.

Lemma parse_url_parts t u0 : wf_target t -> zlen (show_url t) <= 65535 ->
  exists u, http_parser_parse_url (show_url t) false u0 = Some (0, u) /\ port u = url_port t /\ forall f, field_text (show_url t) u f = url_text t f.
Proof.
  intros W L. destruct (parse_url_eval t u0 W L) as (u & E & A & P). exists u. split; [done |]. split; [done |]. intros f. rewrite <- (layout_text t f W), <- (A f).
  unfold field_text, fields. by destruct (is_set f u).
Qed.

(** ** Claims *)

(** C38: whatever the bytes are, [http_parser_parse_url] reads no byte outside
    of the URL, fails no assertion and returns; and when it returns 0 every
    part that it has set lies in the URL, also where the 16-bit offsets and
    lengths wrap around. *)
Theorem parse_url_in_bounds buf c u : exists r u', http_parser_parse_url buf c u = Some (r, u') /\
  (r = 0 -> forall f, is_set f u' = true -> 0 <= off u' f /\ 0 <= len u' f /\ off u' f + len u' f <= zlen buf).
Proof. destruct (parse_url_safe buf c u) as (r & u' & E & W). exists r, u'. split; [done | exact W]. Qed.

(** A fragment right behind the authority. *)
Lemma fragment_refused a f u0 : wf_authority a -> zlen (a_schema a ++ str_bytes "://" ++ show_authority a) <= 65535 ->
  exists u, http_parser_parse_url ((a_schema a ++ str_bytes "://" ++ show_authority a) ++ "#"%char :: f) false u0 = Some (1, u).
Proof.
  intros W L. unfold http_parser_parse_url. set (buf := (_ ++ _ ++ _) ++ _). destruct (Z.eqb_spec (zlen buf) 0) as [E|_]; [by exists u0 |].
  destruct (url_authority a ("#"%char :: f) (mk_url 0 0 (off u0) (len u0)) _ W (agree_zero _ _) L) as (u & E & _). subst buf. rewrite E. by exists u.
Qed.

(** C15: a URL that is put together from its parts is taken apart into the same
    parts: the schema, the user information, the host, the port as text and as
    a number, the path, the query and the fragment; a part is set if and only if
    it is there and not empty.  The URL is a path with a query and a fragment, or
    has a schema of letters and an authority in front of them, with a host of
    letters, digits, dots and dashes (no IPv6 address) and a port up to 65535; it
    is no target of [CONNECT] and has at most 65535 bytes.  The path begins with a
    slash, or there is none; and a fragment needs a path or a query in front of
    it, because behind an authority alone the parser takes no [#]: such a URL is
    refused. *)
Theorem parse_url_roundtrip t u0 : wf_target t -> zlen (show_url t) <= 65535 ->
  (exists u, http_parser_parse_url (show_url t) false u0 = Some (0, u) /\ port u = url_port t /\ forall f, field_text (show_url t) u f = url_text t f) /\
  (t_path t = [] -> t_query t = None -> forall f, exists u, http_parser_parse_url (show_url t ++ "#"%char :: f) false u0 = Some (1, u)).
Proof.
  intros W L. split; [by apply parse_url_parts |]. intros Ep Eq f. destruct W as [Wa _ _ [_ Wf]]. unfold show_url, show_origin in *. rewrite Ep, Eq, Wf in * by done. cbn [behind app] in *.
  rewrite !app_nil_r in *. destruct (t_auth t) as [a|]; [by apply fragment_refused | done].
Qed.

(** ** Examples *)

Definition sample_url : target :=
  mk_target (Some (mk_authority (str_bytes "http") (Some (str_bytes "me:x")) (str_bytes "a.b-c") (Some (str_bytes "8080")))) (str_bytes "/p/q") (Some (str_bytes "k=v")) (Some (str_bytes "top")).

Lemma sample_url_wf : wf_target sample_url.
Proof. repeat split; try done; cbn; unfold all_of; repeat (constructor; [reflexivity |]); try constructor; by vm_compute. Qed.

Lemma parse_url_roundtrip_witness : exists u, http_parser_parse_url (str_bytes "http://me:x@a.b-c:8080/p/q?k=v#top") false http_parser_url_init = Some (0, u) /\
  port u = 8080 /\ field_text (str_bytes "http://me:x@a.b-c:8080/p/q?k=v#top") u UF_PATH = Some (str_bytes "/p/q").
Proof.
  destruct (parse_url_roundtrip sample_url http_parser_url_init sample_url_wf) as [(u & E & P & T) _]; [by vm_compute |].
  exists u. split; [exact E |]. split; [exact P | exact (T UF_PATH)].
Defined.

End HttpUrl.
