(* ===== verification/HttpMessage.v ===== *)
(** The HTTP parser reads what is printed.

    A message as it stands in the text of RFC 7230: a start line, fields and a
    body with its [Content-Length].  [http_parser_execute] gets such a message
    in one call and tells its client the parts of it, in order, each of them
    in one piece, and takes all bytes. *)

From S2P Require Import Prelude HttpParser HttpParserSafe HttpSplit.

Module HttpMessage.
Import HttpParser HttpParserSafe.
#[local] Abbreviation note := HttpSplit.note.
#[local] Abbreviation view := HttpSplit.view.
#[local] Notation "a ≟ b" := (Ascii.eqb a b) (at level 70).

(** ** Handlers *)

(** What a handler looks at: nothing of the state of the parser, and nothing
    of its place in a header. *)
Definition look (q : http_parser) : http_parser := set_header_state h_general (set_index 0 (view q)).

(** A client that never fails and does not write to the parser. *)
Record handler (U : Type) := mk_handler {
  on_note : note -> http_parser -> U -> U;
  on_headers : http_parser -> U -> U;
  on_text : data_kind -> http_parser -> bytes -> U -> U }.
#[global] Arguments mk_handler {_}.
#[global] Arguments on_note {_}.
#[global] Arguments on_headers {_}.
#[global] Arguments on_text {_}.

(** ** States that look at one byte

    Without a mark and without a callback: the next state and parser are a
    function of the byte.  It is the switch itself, run without a buffer. *)
Definition one_byte (s : state) : bool :=
  match s with
  | s_res_or_resp_H | s_res_HT | s_res_HTT | s_res_HTTP | s_res_http_major | s_res_http_dot | s_res_http_minor | s_res_http_end
  | s_res_first_status_code | s_res_status_code | s_res_line_almost_done | s_req_method | s_req_http_start | s_req_http_H | s_req_http_HT | s_req_http_HTT
  | s_req_http_HTTP | s_req_http_major | s_req_http_dot | s_req_http_minor | s_req_http_end | s_req_line_almost_done | s_header_almost_done => true
  | _ => false
  end.

Definition no_settings : http_parser_settings unit := mk_settings None None None None None None None None None None.

Definition simple (s : state) (c : ascii) (q : http_parser) : option (state * http_parser) :=
  if one_byte s then
    match switch no_settings [] (mk_exec q tt s 0 false 0 c None None None None None) with Break e => Some (p_state e, parser e) | _ => None end
  else None.

Fixpoint simple_run (s : state) (t : bytes) (q : http_parser) : option (state * http_parser) :=
  match t with [] => Some (s, q) | c :: t => '(s, q) ← simple s c q; simple_run s t q end.

(** All branches of the cases above. *)
Ltac one_byte_cases O :=
  match type of O with one_byte ?s = true => destruct s; try discriminate O end; clear O;
  unfold switch, case_res_or_resp_H, expect, case_http_major, case_http_dot, case_http_minor, case_res_http_end, case_res_first_status_code, case_res_status_code,
    case_req_http_start, case_req_http_end, case_req_line_almost_done, case_header_almost_done, STRICT_CHECK, case_req_method;
  cbn -[uchar Ascii.eqb IS_NUM c_at other_method];
  repeat match goal with
    | |- context [if ?b then _ else _] => destruct b; cbn -[uchar Ascii.eqb IS_NUM c_at other_method]
    | |- context [match ?x with Some _ => _ | None => _ end] => destruct x; cbn -[uchar Ascii.eqb IS_NUM c_at other_method]
    end.

Lemma simple_view s c q : prod_map id view <$> simple s c q = simple s c (view q).
Proof. unfold simple. destruct (one_byte s) eqn:O; [| done]. one_byte_cases O; done. Qed.

(** ** What a value does to the parser

    Its first character, and the characters behind it: the state [h_state] and
    the parser, again as the code itself has it. *)
Definition value_first (x : ascii) (q : http_parser) : option http_parser :=
  match case_header_value_start (mk_exec q tt s_header_value_discard_ws 0 false 0 x None None None None None) with Break e => Some (parser e) | _ => None end.

Definition value_step (h : header_states) (x : ascii) (q : http_parser) : option (header_states * http_parser) :=
  match header_value_char [] h (mk_exec q h s_header_value 0 false 0 x None None None None None) (fun h e => Break (set_user h e)) with
  | Break e => Some (user e, parser e) | _ => None end.

Fixpoint value_run (h : header_states) (t : bytes) (q : http_parser) : option (header_states * http_parser) :=
  match t with [] => Some (h, q) | c :: t => '(h, q) ← value_step h c q; value_run h t q end.

Lemma value_first_view x q : view <$> value_first x q = value_first x (view q).
Proof.
  unfold value_first, case_header_value_start. cbn -[Ascii.eqb LOWER IS_NUM has uchar]. change (has F_CONTENTLENGTH (set_index 0 (view q))) with (has F_CONTENTLENGTH (set_index 0 q)).
  destruct (header_state q); try done; cbn -[Ascii.eqb LOWER IS_NUM has uchar].
  all: destruct (negb _); [done |]; by destruct (has _ _).
Qed.

Lemma value_step_view h x q : prod_map id view <$> value_step h x q = value_step h x (view q).
Proof.
  unfold value_step, header_value_char. destruct h; cbn -[Ascii.eqb LOWER IS_NUM match_word uchar Z.ltb Z.div u64 Z.mul];
    repeat match goal with |- context [if ?b then _ else _] => destruct b; cbn -[Ascii.eqb LOWER IS_NUM match_word uchar Z.ltb Z.div u64 Z.mul] end; done.
Qed.

Lemma value_run_view h t q : prod_map id view <$> value_run h t q = value_run h t (view q).
Proof.
  revert h q. induction t as [|c t IH]; intros h q; [done |]. cbn [value_run]. rewrite <- value_step_view. destruct (value_step h c q) as [[h1 q1]|]; [| done]. cbn. apply IH.
Qed.

Lemma value_run_general t q : value_run h_general t q = Some (h_general, q).
Proof. induction t as [|c t IH]; [done |]. exact IH. Qed.

(** Characters of a value. *)
Definition value_char (c : ascii) : bool := (c ≟ HT) || ((32 <=? uchar c) && negb (uchar c =? 127)).

Lemma value_char_ok c : value_char c = true -> (c ≟ CR) = false /\ (c ≟ LF) = false /\ IS_HEADER_CHAR c = true.
Proof. intros V. destruct c as [[] [] [] [] [] [] [] []]; by try discriminate V. Qed.

(** ** Numbers *)

Definition decimal (n : Z) : bytes := str_bytes (pretty n).

Definition numeral (a : Z) (ds : bytes) : Z := fold_left (fun a c => a * 10 + (uchar c - 48)) ds a.

Lemma pretty_digits x s : exists ds, str_bytes (pretty_N_go x s) = ds ++ str_bytes s /\ forallb IS_NUM ds = true /\ (forall a, numeral a ds = a * 10 ^ zlen ds + Z.of_N x) /\ ((0 < x)%N -> ds <> []).
Proof.
  revert s. induction (N.lt_wf_0 x) as [x _ IH]; intros s. destruct (decide (x = 0%N)) as [-> | Nx].
  { exists []. rewrite pretty_N_go_0. split_and!; [done | done | intros a; change (a = a * 10 ^ 0 + 0); lia | lia]. }
  rewrite pretty_N_go_step by lia. destruct (IH (x `div` 10)%N ltac:(apply N.div_lt; lia) (String (pretty_N_char (x `mod` 10)) s)) as (ds & E & F & V & _).
  pose proof (N.mod_lt x 10 ltac:(done)) as L. exists (ds ++ [pretty_N_char (x `mod` 10)]). split_and!.
  - rewrite E, <- app_assoc. done.
  - rewrite forallb_app, F. cbn. unfold pretty_N_char. by repeat case_match.
  - intros a. unfold numeral. rewrite fold_left_app. cbn [fold_left]. fold (numeral a ds). rewrite V.
    assert (uchar (pretty_N_char (x `mod` 10)) - 48 = Z.of_N (x `mod` 10)) as ->.
    { assert (forall d, (d < 10)%N -> uchar (pretty_N_char d) - 48 = Z.of_N d) as K; [| by apply K]. intros d Ld.
      assert (d = 0 \/ d = 1 \/ d = 2 \/ d = 3 \/ d = 4 \/ d = 5 \/ d = 6 \/ d = 7 \/ d = 8 \/ d = 9)%N as D by lia. by repeat destruct D as [-> | D]; [..| subst]. }
    unfold zlen. rewrite length_app. cbn [length]. rewrite Nat2Z.inj_add, Z.pow_add_r by lia. pose proof (N.div_mod x 10 ltac:(done)). lia.
  - intros _. by destruct ds.
Qed.

Lemma decimal_digits n : 0 <= n -> forallb IS_NUM (decimal n) = true /\ numeral 0 (decimal n) = n /\ decimal n <> [].
Proof.
  intros P. destruct n as [|p|p]; [by vm_compute | | lia]. destruct (pretty_digits (N.pos p) "") as (ds & E & F & V & Ne). rewrite app_nil_r in E.
  change (decimal (Z.pos p)) with (str_bytes (pretty_N_go (N.pos p) "")). rewrite E. split_and!; [done | by rewrite V | by apply Ne].
Qed.

(** ** Messages *)

Definition field_line (name value : bytes) : bytes := name ++ [":"; SP]%char ++ value ++ [CR; LF].

Definition Connection : bytes := str_bytes "Connection".
Definition Content_Length : bytes := str_bytes "Content-Length".
Definition close : bytes := str_bytes "close".
Definition keep_alive : bytes := str_bytes "keep-alive".

Section run.
Context {U : Type} (h : handler U).

Definition note_cb (n : note) : http_cb U := fun q u => (0, q, on_note h n (look q) u).
Definition text_cb (k : data_kind) : http_data_cb U := fun q d u => (0, q, on_text h k (look q) d u).
Definition headers_cb : http_cb U := fun q u => (0, q, on_headers h (look q) u).
Definition settings_of : http_parser_settings U :=
  mk_settings (Some (note_cb HttpSplit.message_begin)) (Some (text_cb url)) (Some (text_cb status)) (Some (text_cb header_field)) (Some (text_cb header_value))
    (Some headers_cb) (Some (text_cb body)) (Some (note_cb HttpSplit.message_complete_)) (Some (note_cb HttpSplit.chunk_header)) (Some (note_cb HttpSplit.chunk_complete)).
#[local] Abbreviation st := settings_of.

Context (data : bytes).
Implicit Types (e : exec U) (q v : http_parser) (u : U) (i : nat).

Lemma note_eval n err er e : errno (parser e) = HPE_OK ->
  CALLBACK_NOTIFY_ (Some (note_cb n)) err er e = Break (set_user (on_note h n (look (parser e)) (user e)) (on_parser (set_state (p_state e)) e)).
Proof.
  intros O. unfold CALLBACK_NOTIFY_, assert_, errno_ok, after_callback. rewrite (bool_decide_true _ O). cbn -[look]. change (0 =? 0) with true. cbn -[look].
  by rewrite (bool_decide_true _ O).
Qed.

Lemma text_eval kd nf er e m : errno (parser e) = HPE_OK -> mark kd e = Some m -> (m <= p e)%nat -> (m + nf m <= length data)%nat ->
  CALLBACK_DATA_ st data kd nf er e = Break (set_mark kd None (set_user (on_text h kd (look (parser e)) (take (nf m) (drop m data)) (user e)) (on_parser (set_state (p_state e)) e))).
Proof.
  intros O M L1 L2. unfold CALLBACK_DATA_, assert_, errno_ok, after_callback. rewrite (bool_decide_true _ O). cbn [andthen].
  rewrite M, (proj2 (Nat.leb_le _ _) L1), (proj2 (Nat.leb_le _ _) L2). cbn [negb andb].
  assert (data_cb st kd = Some (text_cb kd)) as -> by (by destruct kd). cbn -[set_mark look]. change (0 =? 0) with true. cbn -[set_mark look].
  by rewrite (bool_decide_true _ O).
Qed.

(** ** Steps of the loop *)

Definition step e e' : Prop := (p e < length data)%nat /\ exists e1, round st data e = Break e1 /\ (p e <= p e1)%nat /\ e' = set_p (p e1 + 1) e1.

Definition leads (P Q : exec U -> Prop) : Prop := forall e, P e -> exists e', rtc step e e' /\ Q e'.

Lemma leads_trans P Q R : leads P Q -> leads Q R -> leads P R.
Proof. intros A B e H. destruct (A e H) as (e1 & S1 & H1). destruct (B e1 H1) as (e2 & S2 & H2). exists e2. split; [by etrans | done]. Qed.

Lemma leads_refl (P Q : exec U -> Prop) : (forall e, P e -> Q e) -> leads P Q.
Proof. intros A e H. exists e. split; [constructor | by apply A]. Qed.

Lemma loop_steps fuel e e' : rtc step e e' -> p e' = length data -> (length data < p e + fuel)%nat -> loop st data fuel e = Break e'.
Proof.
  intros S. revert fuel. induction S as [e | e e1 e2 [L (e3 & R & Le & ->)] _ IH]; intros fuel E Fu.
  - destruct fuel; [lia |]. cbn [loop]. by rewrite E, Nat.eqb_refl.
  - destruct fuel; [lia |]. cbn [loop]. destruct (Nat.eqb_spec (p e) (length data)); [lia |]. rewrite R. cbn [andthen]. apply IH; [done |]. cbn. lia.
Qed.

(** The state between two bytes of the head, where every byte counts: the
    parser up to what has not been written back, and the mark that is set. *)
Definition run_at (i : nat) (s : state) (q : http_parser) (u : U) (mk : option (data_kind * nat)) (c : ascii) : exec U :=
  let m k := match mk with Some (k', j) => if bool_decide (k' = k) then Some j else None | None => None end in
  mk_exec q u s (Z.of_nat i) false i c (m header_field) (m header_value) (m url) (m body) (m status).

Definition at_ (i : nat) (s : state) (v : http_parser) (u : U) (mk : option (data_kind * nat)) (e : exec U) : Prop := exists q c, view q = v /\ e = run_at i s q u mk c.

(** In a round, the byte [c] being counted. *)
Definition inside (i : nat) (s : state) (q : http_parser) (u : U) (mk : option (data_kind * nat)) (c : ascii) : exec U := set_nread (Z.of_nat (S i)) (run_at i s q u mk c).

Lemma step_header i s v u mk c (Q : exec U -> Prop) : data !! i = Some c -> PARSING_HEADER s = true -> Z.of_nat i < HTTP_MAX_HEADER_SIZE ->
  (forall q, view q = v -> exists e', reexecute st data 5 (inside i s q u mk c) = Break e' /\ (i <= p e')%nat /\ Q (set_p (p e' + 1) e')) ->
  leads (at_ i s v u mk) Q.
Proof.
  intros D Ph M H e (q & c0 & V & ->). destruct (H q V) as (e' & R & L & Hq). exists (set_p (p e' + 1) e'). split; [| exact Hq].
  apply rtc_once. split; [by apply lookup_lt_Some in D |]. exists e'. split; [| done]. unfold round. change (p (run_at i s q u mk c0)) with i. rewrite D.
  change (p_state (run_at i s q u mk c0)) with s. rewrite Ph. rewrite HttpSplit.count_eval.
  - cbn [andthen]. change (nread (set_ch c (run_at i s q u mk c0))) with (Z.of_nat i). replace (Z.of_nat i + Z.of_nat 1) with (Z.of_nat (S i)) by lia. exact R.
  - cbn. lia.
  - cbn. lia.
Qed.

Lemma reexecute_break n e e' : switch st data e = Break e' -> reexecute st data (S n) e = Break e'.
Proof. intros E. cbn [reexecute]. by rewrite E. Qed.

Lemma switch_again e e1 : switch st data e = Reexecute e1 -> reexecute st data 5 e = reexecute st data 4 e1.
Proof. intros E. by rewrite (eq_refl : reexecute st data 5 e = match switch st data e with Reexecute e => reexecute st data 4 e | o => o end), E. Qed.

(** A round that goes on to the next byte. *)
Lemma step_next i s v u mk c s' v' u' mk' : data !! i = Some c -> PARSING_HEADER s = true -> Z.of_nat i < HTTP_MAX_HEADER_SIZE ->
  (forall q, view q = v -> exists q', view q' = v' /\ reexecute st data 5 (inside i s q u mk c) = Break (inside i s' q' u' mk' c)) ->
  leads (at_ i s v u mk) (at_ (S i) s' v' u' mk').
Proof.
  intros D Ph M H. apply (step_header i s v u mk c); [done.. |]. intros q V. destruct (H q V) as (q' & V' & R). exists (inside i s' q' u' mk' c). split; [done |].
  split; [done |]. exists q', c. split; [done |]. unfold inside, run_at, set_nread, set_p. cbn. by rewrite Nat.add_1_r.
Qed.

(** The text [t] stands at [i]. *)
Definition have (i : nat) (t : bytes) : Prop := exists r, drop i data = t ++ r.

Lemma have_cons i c t : have i (c :: t) -> data !! i = Some c /\ have (S i) t.
Proof.
  intros [r E]. split.
  - replace i with (i + 0)%nat by lia. by rewrite <- lookup_drop, E.
  - exists r. replace (S i) with (i + 1)%nat by lia. rewrite <- drop_drop, E. done.
Qed.

Lemma have_app i a b : have i (a ++ b) -> have i a /\ have (i + length a) b.
Proof.
  intros [r E]. rewrite <- app_assoc in E. split; [by exists (b ++ r) |]. exists r. by rewrite <- drop_drop, E, drop_app_length.
Qed.

Lemma have_take i t : have i t -> take (length t) (drop i data) = t.
Proof. intros [r ->]. by rewrite take_app_length. Qed.

Lemma have_length i t : have i t -> t <> [] -> (i + length t <= length data)%nat.
Proof. intros [r E] N. apply (f_equal length) in E. rewrite length_drop, length_app in E. destruct t; [done |]. cbn [length] in *. lia. Qed.

(** ** The start line *)

Lemma simple_switch i s q u c s' q' : simple s c q = Some (s', q') -> switch st data (inside i s q u None c) = Break (inside i s' q' u None c).
Proof. unfold simple. destruct (one_byte s) eqn:O; [| done]. one_byte_cases O; try done; by intros [= <- <-]. Qed.

Lemma simple_header s c q r : simple s c q = Some r -> PARSING_HEADER s = true.
Proof. unfold simple. destruct (one_byte s) eqn:O; [| done]. by destruct s. Qed.

Lemma simple_leads i s v u t s' v' : have i t -> Z.of_nat (i + length t) <= HTTP_MAX_HEADER_SIZE -> simple_run s t v = Some (s', v') ->
  leads (at_ i s v u None) (at_ (i + length t) s' v' u None).
Proof.
  revert i s v. induction t as [|c t IH]; intros i s v Hv M R.
  - injection R as <- <-. rewrite Nat.add_0_r. by apply leads_refl.
  - cbn [simple_run] in R. destruct (simple s c v) as [[s1 v1]|] eqn:S1; [| done]. cbn in R. apply have_cons in Hv as [D Hv]. cbn [length] in *.
    replace (i + S (length t))%nat with (S i + length t)%nat by lia. eapply leads_trans; [| apply (IH _ _ _ Hv ltac:(lia) R)].
    apply (step_next i s v u None c); [done | by eapply simple_header | lia |]. intros q <-. rewrite <- simple_view in S1.
    destruct (simple s c q) as [[s2 q2]|] eqn:S2; [| done]. injection S1 as <- <-. exists q2. split; [done |]. by apply reexecute_break, simple_switch.
Qed.

Lemma start_response i v u : data !! i = Some "H"%char -> Z.of_nat i < HTTP_MAX_HEADER_SIZE -> errno v = HPE_OK ->
  let v' := set_content_length ULLONG_MAX (set_flags 0 v) in
  leads (at_ i s_start_req_or_res v u None) (at_ (S i) s_res_or_resp_H v' (on_note h HttpSplit.message_begin (look v') u) None).
Proof.
  intros D M O v'. apply (step_next i _ _ _ _ "H"%char); [done.. |]. intros q <-. eexists. split; [| apply reexecute_break].
  2: { unfold switch. cbn [p_state inside run_at set_nread]. unfold case_start_req_or_res. cbn [ch inside run_at set_nread Ascii.eqb Bool.eqb orb]. etransitivity; [by apply (note_eval HttpSplit.message_begin) | reflexivity]. }
  done.
Qed.

(** The reason of a response. *)
Lemma reason_leads i m v u t : have i t -> Forall (fun c => c <> CR /\ c <> LF) t -> Z.of_nat (i + length t) <= HTTP_MAX_HEADER_SIZE ->
  leads (at_ i s_res_status v u (Some (status, m))) (at_ (i + length t) s_res_status v u (Some (status, m))).
Proof.
  revert i. induction t as [|c t IH]; intros i Hv F M.
  - rewrite Nat.add_0_r. by apply leads_refl.
  - apply have_cons in Hv as [D Hv]. apply Forall_cons in F as [[Nc Nl] F]. cbn [length] in *. replace (i + S (length t))%nat with (S i + length t)%nat by lia.
    eapply leads_trans; [| apply IH; [done | done | lia]]. apply (step_next i _ _ _ _ c); [done | done | lia |]. intros q V. exists q. split; [done |]. apply reexecute_break.
    unfold switch. cbn [p_state inside run_at set_nread]. unfold case_res_status. cbn [ch inside run_at set_nread].
    by rewrite (proj2 (Ascii.eqb_neq _ _) Nc), (proj2 (Ascii.eqb_neq _ _) Nl).
Qed.

Lemma reason_first i v u c : data !! i = Some c -> c <> CR -> c <> LF -> Z.of_nat i < HTTP_MAX_HEADER_SIZE ->
  leads (at_ i s_res_status_start v u None) (at_ (S i) s_res_status (set_index 0 v) u (Some (status, i))).
Proof.
  intros D Nc Nl M. apply (step_next i _ _ _ _ c); [done | done | lia |]. intros q <-. exists (set_index 0 q). split; [done |]. apply reexecute_break.
  unfold switch. cbn [p_state inside run_at set_nread]. unfold case_res_status_start. cbn [ch inside run_at set_nread on_parser set_parser UPDATE_STATE MARK mark set_mark status_mark].
  by rewrite (proj2 (Ascii.eqb_neq _ _) Nc), (proj2 (Ascii.eqb_neq _ _) Nl).
Qed.

Lemma reason_end i m v u t : have m t -> i = (m + length t)%nat -> t <> [] -> data !! i = Some CR -> Z.of_nat i < HTTP_MAX_HEADER_SIZE -> errno v = HPE_OK ->
  leads (at_ i s_res_status v u (Some (status, m))) (at_ (S i) s_res_line_almost_done v (on_text h status (look v) t u) None).
Proof.
  intros Hv E Ne D M O. apply (step_next i _ _ _ _ CR); [done | done | lia |]. intros q <-. eexists. split; [| apply reexecute_break].
  2: { unfold switch. cbn [p_state inside run_at set_nread]. unfold case_res_status. cbn [ch inside run_at set_nread]. change (CR ≟ CR) with true. cbv iota.
       etransitivity; [apply (text_eval status _ _ _ m) |]; [done | done | cbn; lia | |].
       - pose proof (have_length _ _ Hv Ne). cbn. lia.
       - cbn [p inside run_at set_nread UPDATE_STATE user parser p_state]. replace (i - m)%nat with (length t) by lia. rewrite (have_take _ _ Hv). reflexivity. }
  done.
Qed.

Definition digit (d : Z) : ascii := char_of (48 + d).

Lemma digit_num d : 0 <= d <= 9 -> IS_NUM (digit d) = true /\ uchar (digit d) - 48 = d.
Proof. intros H. assert (d = 0 \/ d = 1 \/ d = 2 \/ d = 3 \/ d = 4 \/ d = 5 \/ d = 6 \/ d = 7 \/ d = 8 \/ d = 9) as E by lia. by repeat destruct E as [-> | E]; [..| subst]. Qed.

Lemma version_run s1 s2 s3 a b v t r : 0 <= a <= 9 -> 0 <= b <= 9 ->
  (s1, s2, s3) = (s_res_http_major, s_res_http_minor, s_res_http_end) \/ (s1, s2, s3) = (s_req_http_major, s_req_http_minor, s_req_http_end) ->
  simple_run s3 t (set_http_minor b (set_http_major a v)) = r -> simple_run s1 (digit a :: "."%char :: digit b :: t) v = r.
Proof.
  intros [Na Ua]%digit_num [Nb Ub]%digit_num E <-. unfold simple_run. fold simple_run.
  assert (forall s s', (s, s') = (s_res_http_major, s_res_http_dot) \/ (s, s') = (s_req_http_major, s_req_http_dot) -> simple s (digit a) v = Some (s', set_http_major a v)) as A.
  { intros ? ? [[= -> ->] | [= -> ->]]; unfold simple; cbn [one_byte switch p_state]; unfold case_http_major; cbn [ch]; rewrite Na, Ua; reflexivity. }
  assert (forall s s' w, (s, s') = (s_res_http_minor, s_res_http_end) \/ (s, s') = (s_req_http_minor, s_req_http_end) -> simple s (digit b) w = Some (s', set_http_minor b w)) as B.
  { intros ? ? ? [[= -> ->] | [= -> ->]]; unfold simple; cbn [one_byte switch p_state]; unfold case_http_minor; cbn [ch]; rewrite Nb, Ub; reflexivity. }
  destruct E as [[= -> -> ->] | [= -> -> ->]]; (erewrite A by (by auto)); cbn -[simple simple_run]; change (simple ?s "." ?w) with (Some (match s with s_res_http_dot => s_res_http_minor | _ => s_req_http_minor end, w)); cbn -[simple simple_run]; by erewrite B by auto.
Qed.

Lemma status_run a b c v : 0 <= a <= 9 -> 0 <= b <= 9 -> 0 <= c <= 9 ->
  simple_run s_res_http_end (SP :: [digit a; digit b; digit c; SP]) v = Some (s_res_status_start, set_status_code (100 * a + 10 * b + c) v).
Proof.
  intros Ha Hb Hc. destruct (digit_num a Ha) as [Na Ua], (digit_num b Hb) as [Nb Ub], (digit_num c Hc) as [Nc Uc].
  assert (forall d w, 0 <= d <= 9 -> 0 <= status_code w -> 10 * status_code w + d <= 999 ->
    simple s_res_status_code (digit d) w = Some (s_res_status_code, set_status_code (10 * status_code w + d) w)) as St.
  { intros d w Hd P L. destruct (digit_num d Hd) as [Nd Ud]. unfold simple. cbn [one_byte switch p_state]. unfold case_res_status_code. cbn [ch]. rewrite Nd. cbn [negb].
    cbn [on_parser set_parser parser ch status_code set_status_code]. rewrite Ud. rewrite (Z.mod_small (status_code w * 10)) by lia. rewrite Z.mod_small by lia.
    destruct (Z.ltb_spec 999 (status_code w * 10 + d)); [lia |]. cbn [p_state parser on_parser set_parser]. do 2 f_equal.
    transitivity (set_status_code (((status_code w * 10) mod 2 ^ 16 + d) mod 2 ^ 16) w); [reflexivity |]. rewrite !Z.mod_small by (rewrite ?Z.mod_small; lia). f_equal. lia. }
  unfold simple_run. change (simple s_res_http_end SP v) with (Some (s_res_first_status_code, v)). cbn -[simple].
  assert (simple s_res_first_status_code (digit a) v = Some (s_res_status_code, set_status_code a v)) as ->.
  { unfold simple. cbn [one_byte switch p_state]. unfold case_res_first_status_code. cbn [ch]. rewrite Na, Ua. reflexivity. }
  cbn -[simple]. rewrite (St b) by (cbn; lia). cbn -[simple Z.mul Z.add]. rewrite (St c) by (cbn -[Z.mul Z.add]; lia). cbn -[simple Z.mul Z.add].
  change (simple s_res_status_code SP ?w) with (Some (s_res_status_start, w)).
  transitivity (Some (s_res_status_start, set_status_code (10 * (10 * a + b) + c) v)); [reflexivity | do 3 f_equal; lia].
Qed.

(** What the parser knows behind a status line. *)
Definition response_head (major minor code : Z) (v : http_parser) : http_parser :=
  set_index 0 (set_status_code code (set_http_minor minor (set_http_major major (set_type HTTP_RESPONSE (set_content_length ULLONG_MAX (set_flags 0 v)))))).

Definition status_line (major minor code : Z) (reason : bytes) : bytes :=
  str_bytes "HTTP/" ++ [digit major; "."%char; digit minor; SP; digit (code / 100); digit (code / 10 mod 10); digit (code mod 10); SP] ++ reason ++ [CR; LF].

Definition line_text (t : bytes) : Prop := Forall (fun c => c <> CR /\ c <> LF) t.

Lemma reason_line i v u t : have i (t ++ [CR; LF]) -> t <> [] -> line_text t -> Z.of_nat (i + length (t ++ [CR; LF])) <= HTTP_MAX_HEADER_SIZE -> errno v = HPE_OK ->
  leads (at_ i s_res_status_start v u None) (at_ (i + length (t ++ [CR; LF])) s_header_field_start (set_index 0 v) (on_text h status (look v) t u) None).
Proof.
  intros Hv Ne Lt M O. rewrite length_app in *. apply have_app in Hv as [Ht Hl]. apply have_cons in Hl as [Dc Hl]. destruct t as [|c t]; [done |].
  pose proof Ht as [D Ht']%have_cons. pose proof Lt as [[Nc Nl] F]%Forall_cons. cbn [length] in *.
  eapply leads_trans; [apply (reason_first i _ _ c); [done.. | lia] |].
  eapply leads_trans; [apply (reason_leads (S i) i _ _ t); [done | done | lia] |].
  eapply leads_trans; [apply (reason_end _ i _ _ (c :: t)); [done | cbn; lia | done | | lia | done] |]; [by replace (S i + length t)%nat with (i + S (length t))%nat by lia |].
  replace (i + (S (length t) + 2))%nat with (S (S i + length t) + length [LF])%nat by (cbn; lia). apply simple_leads; [| cbn; lia | done].
  by replace (S (S i + length t))%nat with (S (i + S (length t)))%nat by lia.
Qed.

Lemma code_digits code : 0 <= code <= 999 -> 0 <= code / 100 <= 9 /\ 0 <= code / 10 mod 10 <= 9 /\ 0 <= code mod 10 <= 9 /\ 100 * (code / 100) + 10 * (code / 10 mod 10) + code mod 10 = code.
Proof. intros H. assert (code / 100 = code / 10 / 10) as -> by (rewrite Z.div_div by lia; done). Z.to_euclidean_division_equations. lia. Qed.

Lemma status_line_leads major minor code reason v u : have 0 (status_line major minor code reason) -> 0 <= major <= 9 -> 0 <= minor <= 9 -> 0 <= code <= 999 ->
  reason <> [] -> line_text reason -> zlen (status_line major minor code reason) <= HTTP_MAX_HEADER_SIZE -> errno v = HPE_OK ->
  let v' := response_head major minor code v in
  leads (at_ 0 s_start_req_or_res v u None) (at_ (length (status_line major minor code reason)) s_header_field_start v'
    (on_text h status (look v') reason (on_note h HttpSplit.message_begin (look (set_content_length ULLONG_MAX (set_flags 0 v))) u)) None).
Proof.
  intros Hv Ma Mi Co Ne Lt M O v'. unfold status_line in *. unfold zlen in M. rewrite !length_app in *. cbn [length str_bytes] in *.
  destruct (have_cons _ _ _ Hv) as [H0 Hv1]. eapply leads_trans; [by apply start_response; [| cbn; lia |] |].
  set (v1 := set_content_length _ _). set (u1 := on_note _ _ _ _).
  pose (t := str_bytes "TTP/" ++ [digit major; "."%char; digit minor] ++ SP :: [digit (code / 100); digit (code / 10 mod 10); digit (code mod 10); SP]).
  assert (have 1 (t ++ reason ++ [CR; LF])) as H1 by exact Hv1. apply have_app in H1 as [H1 H2].
  destruct (code_digits code Co) as (C1 & C2 & C3 & C4).
  eapply leads_trans; [apply (simple_leads 1 _ _ _ t s_res_status_start (set_status_code code (set_http_minor minor (set_http_major major (set_type HTTP_RESPONSE v1))))) |];
    [done | cbn in *; lia | |].
  { change (simple_run s_res_or_resp_H t v1) with (simple_run s_res_http_major ([digit major; "."%char; digit minor] ++ SP :: [digit (code / 100); digit (code / 10 mod 10); digit (code mod 10); SP]) (set_type HTTP_RESPONSE v1)).
    apply (version_run s_res_http_major s_res_http_minor s_res_http_end); [done | done | by left |]. rewrite status_run by done. by rewrite C4. }
  replace (5 + (8 + (length reason + 2)))%nat with (1 + length t + length (reason ++ [CR; LF]))%nat by (rewrite length_app; cbn; lia).
  change (look v') with (look (set_status_code code (set_http_minor minor (set_http_major major (set_type HTTP_RESPONSE v1))))).
  apply reason_line; [done | done | done | rewrite length_app; cbn in *; lia | done].
Qed.

(** The method and the target of a request. *)

Definition visible (c : ascii) : bool := (33 <=? uchar c) && (uchar c <=? 126).

Definition in_target (s : state) : bool := match s with s_req_path | s_req_query_string_start | s_req_query_string | s_req_fragment_start | s_req_fragment => true | _ => false end.

Lemma visible_target s c : in_target s = true -> visible c = true -> in_target (parse_url_char s c) = true /\ (c ≟ SP) = false /\ (c ≟ CR) = false /\ (c ≟ LF) = false.
Proof. intros T V. destruct c as [[] [] [] [] [] [] [] []]; try discriminate V; split_and!; try done; by destruct s. Qed.

Lemma target_leads i m s v u t : have i t -> forallb visible t = true -> in_target s = true -> Z.of_nat (i + length t) <= HTTP_MAX_HEADER_SIZE ->
  exists s', in_target s' = true /\ leads (at_ i s v u (Some (url, m))) (at_ (i + length t) s' v u (Some (url, m))).
Proof.
  revert i s. induction t as [|c t IH]; intros i s Hv F T M.
  - exists s. rewrite Nat.add_0_r. split; [done |]. by apply leads_refl.
  - apply have_cons in Hv as [D Hv]. apply andb_prop in F as [Vc F]. cbn [length] in *. destruct (visible_target s c T Vc) as (T' & Ns & Nc & Nl).
    destruct (IH (S i) (parse_url_char s c)) as (s' & Ts & L); [done | done | done | lia |]. exists s'. split; [done |].
    replace (i + S (length t))%nat with (S i + length t)%nat by lia. eapply leads_trans; [| exact L]. apply (step_next i _ _ _ _ c); [done | by destruct s | lia |].
    intros q V. exists q. split; [done |]. apply reexecute_break.
    assert (switch st data (inside i s q u (Some (url, m)) c) = case_req_url st data (inside i s q u (Some (url, m)) c)) as -> by (by destruct s).
    unfold case_req_url. cbn [ch inside run_at set_nread]. rewrite Ns, Nc, Nl. cbn [orb]. unfold url_char. cbn [p_state UPDATE_STATE ch inside run_at set_nread].
    rewrite bool_decide_false; [done |]. intros E. by rewrite E in T'.
Qed.

Lemma target_first i v u : data !! i = Some "/"%char -> Z.of_nat i < HTTP_MAX_HEADER_SIZE -> method v <> HTTP_CONNECT ->
  leads (at_ i s_req_spaces_before_url v u None) (at_ (S i) s_req_path v u (Some (url, i))).
Proof.
  intros D M C. apply (step_next i _ _ _ _ "/"%char); [done.. |]. intros q V. exists q. split; [done |]. apply reexecute_break.
  unfold switch. cbn [p_state inside run_at set_nread]. unfold case_req_spaces_before_url. cbn [ch inside run_at set_nread]. change ("/" ≟ SP)%char with false. cbv iota zeta.
  rewrite bool_decide_false; [done |]. subst v. exact C.
Qed.

Lemma target_end i m s v u t : have m t -> i = (m + length t)%nat -> t <> [] -> data !! i = Some SP -> Z.of_nat i < HTTP_MAX_HEADER_SIZE -> errno v = HPE_OK -> in_target s = true ->
  leads (at_ i s v u (Some (url, m))) (at_ (S i) s_req_http_start v (on_text h url (look v) t u) None).
Proof.
  intros Hv E Ne D M O T. apply (step_next i _ _ _ _ SP); [done | by destruct s | lia |]. intros q <-. eexists. split; [| apply reexecute_break].
  2: { assert (switch st data (inside i s q u (Some (url, m)) SP) = case_req_url st data (inside i s q u (Some (url, m)) SP)) as -> by (by destruct s).
       unfold case_req_url. cbn [ch inside run_at set_nread]. change (SP ≟ SP) with true. cbv iota.
       etransitivity; [apply (text_eval url _ _ _ m) |]; [done | done | cbn; lia | |].
       - pose proof (have_length _ _ Hv Ne). cbn. lia.
       - cbn [p inside run_at set_nread UPDATE_STATE user parser p_state]. replace (i - m)%nat with (length t) by lia. rewrite (have_take _ _ Hv). reflexivity. }
  done.
Qed.

(** The state behind the method and its space, and the parser there. *)
Definition request_method (m : http_method) (v : http_parser) : http_parser :=
  set_index (zlen (method_string m) + 1) (set_method m (set_type HTTP_REQUEST (set_content_length ULLONG_MAX (set_flags 0 v)))).

Lemma start_request i v u c m : data !! i = Some c -> first_method c = Some m -> c <> "H"%char -> Z.of_nat i < HTTP_MAX_HEADER_SIZE -> errno v = HPE_OK ->
  let v' := set_method m (set_index 1 (set_type HTTP_REQUEST (set_content_length ULLONG_MAX (set_flags 0 v)))) in
  leads (at_ i s_start_req_or_res v u None) (at_ (S i) s_req_method v' (on_note h HttpSplit.message_begin (look v') u) None).
Proof.
  intros D Fm Nh M O v'. apply (step_next i _ _ _ _ c); [done.. |]. intros q <-.
  assert ((c ≟ CR) = false /\ (c ≟ LF) = false /\ IS_ALPHA c = true) as (Nc & Nl & Al) by (destruct c as [[] [] [] [] [] [] [] []]; by try discriminate Fm).
  eexists. split; [| rewrite (switch_again _ (UPDATE_STATE s_start_req (on_parser (fun q => set_type HTTP_REQUEST (set_content_length ULLONG_MAX (set_flags 0 q))) (inside i s_start_req_or_res q u None c))))].
  3: { unfold switch. cbn [p_state inside run_at set_nread]. unfold case_start_req_or_res. cbn [ch inside run_at set_nread begin_message on_parser set_parser].
       by rewrite Nc, Nl, (proj2 (Ascii.eqb_neq _ _) Nh). }
  2: { apply reexecute_break. unfold switch. cbn [p_state UPDATE_STATE]. unfold case_start_req. cbn [ch UPDATE_STATE on_parser set_parser begin_message inside run_at set_nread].
       rewrite Nc, Nl, Al, Fm. cbn [orb negb]. etransitivity; [by apply (note_eval HttpSplit.message_begin) | reflexivity]. }
  done.
Qed.

Lemma method_leads m v u : have 0 (method_string m ++ [SP]) -> m <> HTTP_CONNECT -> m <> HTTP_MSEARCH -> errno v = HPE_OK ->
  exists vb, leads (at_ 0 s_start_req_or_res v u None) (at_ (length (method_string m) + 1) s_req_spaces_before_url (request_method m v) (on_note h HttpSplit.message_begin (look vb) u) None).
Proof.
  intros Hv Nc Nm O. pose proof HttpSplit.max_header as Mx. destruct (decide (m = HTTP_HEAD)) as [-> | Nh].
  - destruct (have_cons _ _ _ Hv) as [H0 Hv1]. eexists. eapply leads_trans; [by apply start_response; [| cbn; lia |] |].
    apply (simple_leads 1 _ _ _ (str_bytes "EAD ")); [exact Hv1 | cbn; lia | reflexivity].
  - assert (exists c t m0, method_string m ++ [SP] = c :: t /\ first_method c = Some m0 /\ c <> "H"%char /\ zlen t <= 100 /\ length t = length (method_string m) /\
      simple_run s_req_method t (set_method m0 (set_index 1 (set_type HTTP_REQUEST (set_content_length ULLONG_MAX (set_flags 0 v))))) = Some (s_req_spaces_before_url, request_method m v))
      as (c & t & m0 & E & Fm & Nh' & Lt & Le & R).
    { destruct m; try done; (eexists _, _, _; split_and!; [reflexivity | reflexivity | done | vm_compute; discriminate | reflexivity | reflexivity]). }
    rewrite E in Hv. destruct (have_cons _ _ _ Hv) as [H0 Hv1]. eexists. eapply leads_trans; [by eapply start_request; [| | | cbn; lia |] |].
    rewrite <- Le, Nat.add_comm. apply simple_leads; [done | unfold zlen in Lt; lia | done].
Qed.

(** What the parser knows behind a request line. *)
Definition request_head (m : http_method) (major minor : Z) (v : http_parser) : http_parser := set_http_minor minor (set_http_major major (request_method m v)).

Definition request_line (m : http_method) (target : bytes) (major minor : Z) : bytes :=
  (method_string m ++ [SP]) ++ target ++ [SP] ++ str_bytes "HTTP/" ++ [digit major; "."%char; digit minor; CR; LF].

(** The method and the target of a request, whatever follows. *)
Definition request_front (m : http_method) (target : bytes) : bytes := (method_string m ++ [SP]) ++ target ++ [SP].

Lemma request_front_leads m l v u : let target := "/"%char :: l in
  have 0 (request_front m target) -> m <> HTTP_CONNECT -> m <> HTTP_MSEARCH -> forallb visible l = true ->
  zlen (request_front m target) <= HTTP_MAX_HEADER_SIZE -> errno v = HPE_OK ->
  exists vb, leads (at_ 0 s_start_req_or_res v u None) (at_ (length (request_front m target)) s_req_http_start (request_method m v)
    (on_text h url (look (request_method m v)) target (on_note h HttpSplit.message_begin (look vb) u)) None).
Proof.
  intros target Hv Nc Nm Vt M O. unfold request_front in *. unfold zlen in M. rewrite !length_app in M.
  apply have_app in Hv as [Hm Hv]. apply have_app in Hv as [Ht Hv]. destruct (method_leads m v u Hm Nc Nm O) as [vb Lm]. exists vb. rewrite !length_app in *. cbn [length target] in *.
  eapply leads_trans; [exact Lm |]. destruct (have_cons _ _ _ Ht) as [D Ht']. eapply leads_trans; [apply target_first; [exact D | lia | exact Nc] |].
  destruct (target_leads _ (length (method_string m) + 1) s_req_path (request_method m v) (on_note h HttpSplit.message_begin (look vb) u) l Ht' Vt eq_refl ltac:(lia)) as (s' & Ts & L).
  eapply leads_trans; [exact L |]. destruct (have_cons _ _ _ Hv) as [Ds _].
  match goal with |- leads (at_ ?i _ _ _ _) (at_ ?j _ _ _ _) => replace j with (S i) by lia end.
  apply (target_end _ _ _ _ _ target); [exact Ht | cbn; lia | done | | lia | done | done]. rewrite <- Ds. f_equal. lia.
Qed.

Lemma request_line_leads m l major minor v u : let target := "/"%char :: l in
  have 0 (request_line m target major minor) -> m <> HTTP_CONNECT -> m <> HTTP_MSEARCH -> forallb visible l = true -> 0 <= major <= 9 -> 0 <= minor <= 9 ->
  zlen (request_line m target major minor) <= HTTP_MAX_HEADER_SIZE -> errno v = HPE_OK ->
  exists vb, leads (at_ 0 s_start_req_or_res v u None) (at_ (length (request_line m target major minor)) s_header_field_start (request_head m major minor v)
    (on_text h url (look (request_method m v)) target (on_note h HttpSplit.message_begin (look vb) u)) None).
Proof.
  intros target Hv Nc Nm Vt Ma Mi M O. pose (t := str_bytes "HTTP/" ++ [digit major; "."%char; digit minor] ++ [CR; LF]).
  assert (request_line m target major minor = request_front m target ++ t) as E by (unfold request_line, request_front; by rewrite <- !app_assoc). rewrite E in *. rewrite zlen_app in M.
  pose proof (zlen_nonneg t). apply have_app in Hv as [Hf Ht]. assert (zlen (request_front m target) <= HTTP_MAX_HEADER_SIZE) as Mf by lia. destruct (request_front_leads m l v u Hf Nc Nm Vt Mf O) as [vb L]. exists vb. eapply leads_trans; [exact L |].
  rewrite length_app. apply simple_leads; [exact Ht | unfold zlen in M; lia |].
  change (simple_run s_req_http_start t (request_method m v)) with (simple_run s_req_http_major ([digit major; "."%char; digit minor] ++ [CR; LF]) (request_method m v)).
  apply (version_run s_req_http_major s_req_http_minor s_req_http_end); [done | done | by right | reflexivity].
Qed.

(** ** Fields *)

Definition token (c : ascii) : bool := negb (TOKEN c ≟ NUL).

(** The letters of a name behind the first one. *)
Fixpoint run_name (t : bytes) (q : http_parser) : http_parser := match t with [] => q | c :: t => run_name t (HttpSplit.field_f (TOKEN c) c q) end.

Definition first_letter (c : ascii) (q : http_parser) : http_parser :=
  set_header_state (match TOKEN c with "c"%char => h_C | "p"%char => h_matching_proxy_connection | "t"%char => h_matching_transfer_encoding
    | "u"%char => h_matching_upgrade | _ => h_general end) (set_index 0 q).

Lemma run_name_general t q : header_state q = h_general -> run_name t q = q.
Proof. intros G. induction t as [|c t IH]; [done |]. cbn [run_name]. by rewrite HttpSplit.field_f_general. Qed.

Lemma field_f_state c x q : field_state (header_state q) = true -> field_state (header_state (HttpSplit.field_f c x q)) = true.
Proof.
  intros F. unfold HttpSplit.field_f. destruct (header_state q) eqn:E; try done; cbn -[match_word].
  all: try (apply match_word_field; [by rewrite ?E | done]). all: by repeat case_match; cbn; rewrite ?E.
Qed.

Lemma name_loop t fuel e : have (p e) (t ++ [":"%char]) -> forallb token t = true -> field_state (header_state (parser e)) = true -> (length data < p e + fuel)%nat ->
  header_field_loop data fuel e = Break (set_ch ":"%char (set_p (p e + length t) (on_parser (run_name t) e))).
Proof.
  remember (length t) as n eqn:En. revert t fuel e En. induction n as [n IH] using lt_wf_ind. intros t fuel e En Hv Tk Fs Fu.
  pose proof (have_length _ _ Hv ltac:(by destruct t)) as Le. rewrite length_app in Le. cbn [length] in Le.
  destruct fuel as [|fuel]; [lia |]. cbn [header_field_loop]. destruct (Nat.eqb_spec (p e) (length data)); [lia |]. destruct t as [|c t].
  { apply have_cons in Hv as [D _]. rewrite D. change (TOKEN (ch (set_ch ":"%char e)) ≟ NUL) with true. cbv iota. subst n. f_equal. unfold on_parser. cbn [run_name length]. rewrite Nat.add_0_r. by destruct e. }
  pose proof Hv as Hv0. apply have_cons in Hv as [D Hv]. apply andb_prop in Tk as [Tc Tk]. rewrite D. cbn [ch set_ch]. apply negb_true_iff in Tc. rewrite Tc.
  rewrite HttpSplit.header_field_char_eval. cbn [parser set_ch p]. rewrite Fs. cbn [length] in En, Le.
  destruct (decide (header_state (parser e) = h_general)) as [G | G]; [rewrite (bool_decide_true _ G) | rewrite (bool_decide_false _ G)].
  - destruct (skip_tokens_ok data (S (length data)) (limit_of data (p e)) (p e)) as (j & Ej & Lj); [unfold limit_of, zlen; lia | lia | lia |]. rewrite Ej. cbn [andthen].
    destruct (HttpSplit.skip_tokens_spec _ _ _ _ _ Ej) as [_ Sk].
    assert (j < p e + n)%nat as Lj'.
    { destruct (decide (j < p e + n)%nat) as [| Nj]; [done | exfalso]. destruct (Sk (p e + n)%nat ltac:(lia)) as (x & Dx & Tx).
      replace (p e + n)%nat with (S (p e) + length t)%nat in Dx by lia. apply have_app in Hv as [_ Hc]. apply have_cons in Hc as [Dc _]. rewrite Dc in Dx. by injection Dx as <-. }
    rewrite (IH (n - (j + 1 - p e))%nat ltac:(lia) (drop (j - p e) t)).
    + unfold on_parser. cbn [parser p set_p set_ch set_parser]. rewrite !run_name_general by done. f_equal. replace (j + 1 + (n - (j + 1 - p e)))%nat with (p e + n)%nat by lia. by destruct e.
    + rewrite length_drop. lia.
    + cbn [p set_p set_ch]. destruct Hv as [r E]. exists r. replace (j + 1)%nat with (S (p e) + (j - p e))%nat by lia. rewrite <- drop_drop, E.
      rewrite <- app_assoc, drop_app_le by lia. by rewrite app_assoc.
    + change (forallb token t = true) in Tk. rewrite <- (take_drop (j - p e) t), forallb_app in Tk. by apply andb_prop in Tk as [].
    + done.
    + cbn. lia.
  - cbn [andthen]. rewrite (IH (length t) ltac:(lia) t); [| done | | done | by apply field_f_state | cbn; lia].
    + f_equal. subst n. cbn [p set_p on_parser set_ch set_parser run_name ch]. replace (p e + 1 + length t)%nat with (p e + S (length t))%nat by lia. by destruct e.
    + cbn [p set_p on_parser set_ch set_parser]. by rewrite Nat.add_1_r.
Qed.

Lemma field_f_look c x q : look (HttpSplit.field_f c x q) = look q.
Proof. unfold HttpSplit.field_f. destruct (header_state q); try done. all: by destruct (negb _). Qed.

Lemma run_name_look t q : look (run_name t q) = look q.
Proof. revert q. induction t as [|c t IH]; intros q; [done |]. cbn [run_name]. by rewrite IH, field_f_look. Qed.

Lemma field_f_view c x q : HttpSplit.field_f c x (view q) = view (HttpSplit.field_f c x q).
Proof. unfold HttpSplit.field_f. change (header_state (view q)) with (header_state q). destruct (header_state q); try done. all: by destruct (negb _). Qed.

Lemma run_name_view t q : run_name t (view q) = view (run_name t q).
Proof. revert q. induction t as [|c t IH]; intros q; [done |]. cbn [run_name]. by rewrite field_f_view, IH. Qed.

Lemma field_f_place c x q q' : header_state q = header_state q' -> index q = index q' ->
  header_state (HttpSplit.field_f c x q) = header_state (HttpSplit.field_f c x q') /\ index (HttpSplit.field_f c x q) = index (HttpSplit.field_f c x q').
Proof.
  intros H I. unfold HttpSplit.field_f. rewrite <- H. destruct (header_state q) eqn:E; try done; cbn -[match_word]; unfold inc_index; cbn -[match_word]; rewrite <- ?I, <- ?H, ?E; try done.
  all: by destruct (negb _); cbn; rewrite <- ?H, ?E.
Qed.

Lemma run_name_place t q q' : header_state q = header_state q' -> index q = index q' -> header_state (run_name t q) = header_state (run_name t q').
Proof. revert q q'. induction t as [|c t IH]; intros q q' H I; [done |]. cbn [run_name]. destruct (field_f_place (TOKEN c) c q q' H I). by apply IH. Qed.

(** What the parser takes a name for. *)
Definition name_state (name : bytes) : header_states :=
  match name with [] => h_general | c :: t => header_state (run_name t (first_letter c (http_parser_init HTTP_BOTH))) end.

Lemma name_state_field name : field_state (name_state name) = true.
Proof.
  destruct name as [|c t]; [done |]. cbn [name_state].
  assert (forall q, field_state (header_state q) = true -> field_state (header_state (run_name t q)) = true) as K.
  { clear. induction t as [|c t IH]; intros q F; [done |]. cbn [run_name]. by apply IH, field_f_state. }
  apply K. unfold first_letter. cbn [header_state set_header_state]. by repeat case_match.
Qed.

(** The names with a meaning, in small letters. *)
Definition words : list (bytes * header_states) :=
  [(CONNECTION, h_connection); (PROXY_CONNECTION, h_connection); (CONTENT_LENGTH, h_content_length); (TRANSFER_ENCODING, h_transfer_encoding); (UPGRADE, h_upgrade)].

(** The letters [l] of a name so far, when the parser is at [hs] and [i]. *)
Definition spells (l : bytes) (hs : header_states) (i : Z) : Prop :=
  let part w := l = take (Z.to_nat (i + 1)) w /\ 0 <= i < zlen w - 1 in
  match hs with
  | h_C => l = str_bytes "c" /\ i = 0
  | h_CO => l = str_bytes "co" /\ i = 1
  | h_CON => l = str_bytes "con" /\ i = 2
  | h_matching_connection => part CONNECTION
  | h_matching_proxy_connection => part PROXY_CONNECTION
  | h_matching_content_length => part CONTENT_LENGTH
  | h_matching_transfer_encoding => part TRANSFER_ENCODING
  | h_matching_upgrade => part UPGRADE
  | h_connection | h_content_length | h_transfer_encoding | h_upgrade => (l, hs) ∈ words
  | _ => True
  end.

Lemma spells_word l w (n : Z) c here matched : c <> NUL -> l = take (Z.to_nat (n + 1)) w -> 0 <= n < zlen w - 1 -> (forall l, l = w -> spells l matched (n + 1)) ->
  (forall l, l = take (Z.to_nat (n + 1 + 1)) w /\ 0 <= n + 1 < zlen w - 1 -> spells l here (n + 1)) -> spells (l ++ [c]) (match_word w c (n + 1) h_general matched here) (n + 1).
Proof.
  intros Nc -> Hi Hm Hh. unfold match_word. destruct (Z.ltb_spec (zlen w) (n + 1)); [lia |]. cbn [orb]. case_bool_decide as C; cbn [negb]; [| done].
  assert (take (Z.to_nat (n + 1)) w ++ [c] = take (Z.to_nat (n + 1 + 1)) w) as E.
  { unfold c_at in C. destruct (decide (Z.to_nat (n + 1) < length w)%nat); [rewrite lookup_app_l in C by done | unfold zlen in *; lia].
    replace (Z.to_nat (n + 1 + 1)) with (S (Z.to_nat (n + 1))) by lia. by rewrite (take_S_r _ _ c). }
  destruct (Z.eqb_spec (n + 1) (zlen w - 1)) as [Ei | Ni].
  - apply Hm. rewrite E. apply take_ge. unfold zlen in *. lia.
  - apply Hh. split; [exact E | lia].
Qed.

Lemma words_short l hs : (l, hs) ∈ words -> zlen l <= 17.
Proof. intros H. repeat (apply elem_of_cons in H as [[= -> ->] | H]; [done |]). by apply elem_of_nil in H. Qed.

Lemma spells_next l c q : token c = true -> spells l (header_state q) (index q) -> field_state (header_state q) = true ->
  spells (l ++ [TOKEN c]) (header_state (HttpSplit.field_f (TOKEN c) c q)) (index (HttpSplit.field_f (TOKEN c) c q)).
Proof.
  intros T S F. assert (TOKEN c <> NUL) as Nt by (by apply Ascii.eqb_neq, negb_true_iff). assert (c <> SP) as Ns by (by intros ->).
  assert (forall w hs, (w, hs) ∈ words -> 0 <= index q < zlen w - 1 -> index (inc_index q) = index q + 1) as Ii.
  { intros w hs Hw%words_short Hi. apply inc_index_ok. lia. }
  unfold HttpSplit.field_f. destruct (header_state q) eqn:H; try done; cbn [spells] in S; try (by rewrite H).
  all: try (rewrite (proj2 (Ascii.eqb_neq _ _) Ns); exact I).
  1-3: destruct S as [-> Ei]; unfold inc_index; cbn [header_state set_header_state index set_index]; rewrite Ei;
    repeat (match goal with |- context [TOKEN ?a ≟ ?x] => destruct (Ascii.eqb_spec (TOKEN a) x) as [-> | _] end); by split.
  all: destruct S as [El Hi]; cbn [header_state set_header_state index]; change (header_state (inc_index q)) with (header_state q); rewrite H.
  all: match goal with |- context [match_word ?w _ _ _ ?m _] => rewrite (Ii w m) by (done || (unfold words; set_solver)) end.
  all: apply spells_word; [done | done | done | intros ? ->; cbn [spells]; unfold words; set_solver | intros ? E'; exact E'].
Qed.

Lemma spells_run t l q : forallb token t = true -> spells l (header_state q) (index q) -> field_state (header_state q) = true ->
  spells (l ++ (TOKEN <$> t)) (header_state (run_name t q)) (index (run_name t q)).
Proof.
  revert l q. induction t as [|c t IH]; intros l q Tk S F; [by rewrite app_nil_r |]. apply andb_prop in Tk as [Tc Tk]. cbn [run_name fmap list_fmap].
  change (TOKEN c :: (TOKEN <$> t)) with ([TOKEN c] ++ (TOKEN <$> t)). rewrite app_assoc. apply IH; [done | by apply spells_next | by apply field_f_state].
Qed.

(** Only the names with a meaning are taken for them. *)
Lemma name_state_ordinary name hs : forallb token name = true -> (TOKEN <$> name, hs) ∉ words -> name_state name = hs -> In hs [h_connection; h_content_length; h_transfer_encoding; h_upgrade] -> False.
Proof.
  intros Tk Nw E Hs. destruct name as [|c t]; [subst hs; cbn in Hs; naive_solver |]. apply andb_prop in Tk as [Tc Tk]. cbn [name_state] in E.
  pose proof (spells_run t [TOKEN c] (first_letter c (http_parser_init HTTP_BOTH)) Tk) as S. rewrite E in S. apply Nw. cbn [app] in S.
  assert (spells (TOKEN <$> c :: t) hs (index (run_name t (first_letter c (http_parser_init HTTP_BOTH)))) -> (TOKEN <$> c :: t, hs) ∈ words) as K by (cbn in Hs; destruct hs; naive_solver).
  apply K, S; unfold first_letter; cbn [header_state set_header_state index set_index].
  - destruct (TOKEN c) as [[] [] [] [] [] [] [] []]; by try (split; [done | by vm_compute]).
  - by repeat case_match.
Qed.

(** The start of a line in the head; the flag of the line before may be
    missing yet. *)
Definition at_line (i : nat) (v : http_parser) (u : U) (e : exec U) : Prop :=
  exists w, look w = v /\ at_ i s_header_field_start w u None e \/ look (value_flag w) = v /\ at_ i s_header_value_lws w u None e.

Lemma leads_ex {A} (P : A -> exec U -> Prop) Q : (forall x, leads (P x) Q) -> leads (fun e => exists x, P x e) Q.
Proof. intros H e [x Hx]. by apply (H x). Qed.

Lemma leads_or (P P' : exec U -> Prop) Q : leads P Q -> leads P' Q -> leads (fun e => P e \/ P' e) Q.
Proof. intros A B e [H | H]; [by apply A | by apply B]. Qed.

Lemma leads_and (X : Prop) (P : exec U -> Prop) Q : (X -> leads P Q) -> leads (fun e => X /\ P e) Q.
Proof. intros A e [Hx H]. by apply A. Qed.

Lemma leads_weaken P (Q Q' : exec U -> Prop) : leads P Q -> (forall e, Q e -> Q' e) -> leads P Q'.
Proof. intros A B e H. destruct (A e H) as (e' & S & H'). exists e'. auto. Qed.

Lemma first_letter_switch i q u c : token c = true ->
  switch st data (inside i s_header_field_start q u None c) = Break (inside i s_header_field (first_letter c q) u (Some (header_field, i)) c).
Proof.
  intros T. unfold switch. cbn [p_state inside run_at set_nread]. unfold case_header_field_start. cbn [ch inside run_at set_nread].
  assert ((c ≟ CR) = false /\ (c ≟ LF) = false) as [-> ->] by (destruct c as [[] [] [] [] [] [] [] []]; by try discriminate T).
  unfold token in T. apply negb_true_iff in T. rewrite T. reflexivity.
Qed.

Lemma lws_again i q u c : c <> SP -> c <> HT -> switch st data (inside i s_header_value_lws q u None c) = Reexecute (inside i s_header_field_start (value_flag q) u None c).
Proof.
  intros N1 N2. unfold switch. cbn [p_state inside run_at set_nread]. unfold case_header_value_lws. cbn [ch inside run_at set_nread].
  by rewrite (proj2 (Ascii.eqb_neq _ _) N1), (proj2 (Ascii.eqb_neq _ _) N2).
Qed.

Lemma value_flag_view q : value_flag (view q) = view (value_flag q).
Proof. unfold value_flag. change (header_state (view q)) with (header_state q). by destruct (header_state q). Qed.

Lemma name_first i v u c : data !! i = Some c -> token c = true -> Z.of_nat i < HTTP_MAX_HEADER_SIZE ->
  leads (at_line i v u) (fun e => exists w, look w = v /\ at_ (S i) s_header_field (first_letter c w) u (Some (header_field, i)) e).
Proof.
  intros D T M. assert (c <> SP /\ c <> HT) as [Ns Nh] by (by split; intros ->).
  apply leads_ex. intros w. apply leads_or; apply leads_and; intros L.
  - eapply leads_weaken; [| intros e H; exists w; split; [exact L | exact H]]. apply (step_next i _ _ _ _ c); [done.. |]. intros q <-. exists (first_letter c q). split; [done |].
    by apply reexecute_break, first_letter_switch.
  - eapply leads_weaken; [| intros e H; exists (value_flag w); split; [exact L | exact H]]. apply (step_next i _ _ _ _ c); [done.. |]. intros q <-. exists (first_letter c (value_flag q)).
    split; [by rewrite value_flag_view |]. rewrite (switch_again _ _ (lws_again i q u c Ns Nh)). by apply reexecute_break, first_letter_switch.
Qed.

Lemma name_rest i w u c t : have i (c :: t ++ [":"%char]) -> forallb token t = true -> field_state (header_state w) = true -> errno w = HPE_OK ->
  Z.of_nat (i + length (c :: t)) < HTTP_MAX_HEADER_SIZE ->
  leads (at_ (S i) s_header_field w u (Some (header_field, i)))
    (at_ (i + length (c :: t) + 1) s_header_value_discard_ws (run_name t w) (on_text h header_field (look w) (c :: t) u) None).
Proof.
  intros Hv Tk Fs O M. pose proof Hv as Hn. change (c :: t ++ [":"%char]) with ((c :: t) ++ [":"%char]) in Hn. apply have_app in Hn as [Hn Hc]. apply have_cons in Hc as [Dc _].
  apply have_cons in Hv as [_ Hv]. pose proof (lookup_lt_Some _ _ _ Dc) as Lc. cbn [length] in *.
  destruct (lookup_lt_is_Some_2 data (S i)) as [x Dx]; [lia |]. apply (step_header (S i) _ _ _ _ x); [done | done | lia |]. intros q <-.
  set (k := (i + S (length t))%nat) in *. set (q' := run_name t q).
  exists (set_nread (Z.of_nat (S k)) (run_at k s_header_value_discard_ws (set_state s_header_value_discard_ws q') (on_text h header_field (look q) (c :: t) u) None ":"%char)).
  split; [| split; [cbn; lia |]].
  2: { exists (set_state s_header_value_discard_ws q'), ":"%char. split; [unfold q'; by rewrite run_name_view |]. cbn [p set_nread run_at]. rewrite !Nat.add_1_r. done. }
  apply reexecute_break. unfold switch. cbn [p_state inside run_at set_nread]. unfold case_header_field. rewrite (name_loop t); [| exact Hv | done | exact Fs | cbn; lia]. cbn [andthen].
  cbn [p set_ch set_p on_parser set_parser inside run_at set_nread]. replace (S i + length t)%nat with k by lia. destruct (Nat.eqb_spec k (length data)); [lia |].
  rewrite HttpSplit.count_eval by (cbn; lia). cbn [andthen ch set_nread set_ch]. change (":" ≟ ":")%char with true. cbv iota. etransitivity; [apply (text_eval header_field _ _ _ i) |].
  - change (errno (run_name t q) = HPE_OK). change (errno (run_name t q)) with (errno (look (run_name t q))). rewrite run_name_look. exact O.
  - done.
  - cbn. lia.
  - cbn. lia.
  - cbn [p set_ch set_p on_parser set_parser inside run_at set_nread UPDATE_STATE user parser p_state nread]. replace (k - i)%nat with (length (c :: t)) by (cbn; lia).
    rewrite (have_take _ _ Hn), run_name_look. replace (Z.of_nat (S (S i)) + Z.of_nat (k - S i)) with (Z.of_nat (S k)) by lia. reflexivity.
Qed.

Lemma look_ok w v : look w = v -> errno v = HPE_OK -> errno w = HPE_OK.
Proof. by intros <-. Qed.

(** A name, the colon and the space behind it. *)
Lemma name_leads i v u name : have i (name ++ [":"; SP]%char) -> name <> [] -> forallb token name = true -> errno v = HPE_OK ->
  Z.of_nat (i + length name + 2) <= HTTP_MAX_HEADER_SIZE ->
  leads (at_line i v u) (fun e => exists w, (look w = v /\ header_state w = name_state name) /\ at_ (i + length name + 2) s_header_value_discard_ws w (on_text h header_field v name u) None e).
Proof.
  intros Hv Ne Tk O M. destruct name as [|c t]; [done |]. apply andb_prop in Tk as [Tc Tk].
  replace ((c :: t) ++ [":"; SP]%char) with ((c :: t ++ [":"%char]) ++ [SP]) in Hv by (cbn; by rewrite <- app_assoc). apply have_app in Hv as [Hv Hs]. apply have_cons in Hs as [Ds _].
  cbn [length] in Ds, M. rewrite length_app in Ds. cbn [length] in Ds. pose proof Hv as [D _]%have_cons.
  eapply leads_trans; [apply (name_first i v u c); [done | done | lia] |]. apply leads_ex. intros w. apply leads_and. intros L.
  eapply leads_trans; [apply (name_rest i _ _ c t) |]; [done | done | | exact (look_ok _ _ L O) | cbn; lia |].
  { unfold first_letter. cbn [header_state set_header_state]. by repeat case_match. }
  change (look (first_letter c w)) with (look w). rewrite L.
  eapply leads_weaken; [| intros e H; exists (run_name t (first_letter c w)); split; [split; [by rewrite run_name_look | by apply run_name_place] | exact H]].
  replace (i + length (c :: t) + 2)%nat with (S (i + length (c :: t) + 1)) by lia.
  apply (step_next _ _ _ _ _ SP); [| done | cbn; lia |]. { rewrite <- Ds. f_equal. cbn. lia. }
  intros q V. exists q. split; [done |]. by apply reexecute_break.
Qed.

Lemma value_step_eval hs x q hs' q' e k : value_step hs x q = Some (hs', q') -> hs <> h_general -> parser e = q -> ch e = x -> p_state e = s_header_value ->
  header_value_char data hs e k = k hs' (set_parser q' e).
Proof.
  intros S N <- <- Ps.  assert (e = set_parser (parser e) e) as Ee by (by destruct e). assert (UPDATE_STATE s_header_value e = e) as Eu by (destruct e; cbn in *; by subst).
  revert S. unfold value_step, header_value_char. destruct hs; try done; cbn -[Ascii.eqb LOWER IS_NUM match_word uchar Z.ltb Z.div u64 Z.mul];
    repeat match goal with |- context [if ?b then _ else _] => destruct b; cbn -[Ascii.eqb LOWER IS_NUM match_word uchar Z.ltb Z.div u64 Z.mul] end; try done; intros [= <- <-]; rewrite ?Eu, <- ?Ee; done.
Qed.

Lemma memchr_at c i n : data !! (i + n)%nat = Some c -> (forall m, (m < n)%nat -> data !! (i + m)%nat <> Some c) -> forall l, (n < l)%nat -> memchr data c i l = Some (i + n)%nat.
Proof.
  intros D B l L. unfold memchr. assert (list_find (eq c) (take l (drop i data)) = Some (n, c)) as ->; [| done]. apply list_find_Some. split_and!.
  - rewrite lookup_take_lt by lia. by rewrite lookup_drop.
  - done.
  - intros m y Hy Lm <-. rewrite lookup_take_lt, lookup_drop in Hy by lia. by apply (B m).
Qed.

Lemma memchr_behind c i n l j : memchr data c i l = Some j -> (forall m, (m < n)%nat -> data !! (i + m)%nat <> Some c) -> (i + n <= j)%nat.
Proof.
  unfold memchr. intros H B. destruct (list_find _ _) as [[m y]|] eqn:E; [| done]. injection H as <-. apply list_find_Some in E as (E & <- & _). cbn.
  destruct (decide (n <= m)%nat); [lia | exfalso]. apply lookup_take_Some in E as [E _]. rewrite lookup_drop in E. by apply (B m ltac:(lia)).
Qed.

Lemma value_end_at i t : have i (t ++ [CR]) -> forallb value_char t = true -> zlen t < HTTP_MAX_HEADER_SIZE -> value_end data i = (i + length t)%nat.
Proof.
  intros Hv Vt M. pose proof (have_length _ _ Hv ltac:(by destruct t)) as Le. rewrite length_app in Le. cbn [length] in Le. apply have_app in Hv as [Ht Hc]. apply have_cons in Hc as [Dc _].
  assert (forall c, (c = CR \/ c = LF) -> forall m, (m < length t)%nat -> data !! (i + m)%nat <> Some c) as B.
  { intros c Ec m Lm E. destruct Ht as [r Et]. rewrite <- lookup_drop, Et, lookup_app_l in E by done. apply list_elem_of_lookup_2, list_elem_of_In in E.
    rewrite forallb_forall in Vt. apply Vt, value_char_ok in E as (E1 & E2 & _). by destruct Ec as [-> | ->]. }
  unfold value_end. rewrite (memchr_at CR i (length t) Dc (B CR ltac:(by left))) by (unfold limit_of, zlen in *; lia).
  destruct (memchr data LF i _) as [lf|] eqn:El; [| done]. pose proof (memchr_behind _ _ (length t) _ _ El (B LF ltac:(by right))).
  destruct (Nat.leb_spec lf (i + length t)); [lia | done].
Qed.

(** The loop over a value stops at its [CR]. *)
Definition at_cr (start k : nat) (hs : header_states) (q : http_parser) (e : exec U) : out U :=
  andthen (CALLBACK_DATA st data header_value (on_parser (set_header_state hs) (UPDATE_STATE s_header_almost_done (set_ch CR (set_p k (set_parser q e)))))) (header_value_end data start hs).

Lemma value_run_cr fuel start hs e : data !! p e = Some CR -> header_value_loop st data (S fuel) start hs e = at_cr start (p e) hs (parser e) e.
Proof.
  intros D. cbn [header_value_loop]. destruct (Nat.eqb_spec (p e) (length data)) as [E | _]; [apply lookup_lt_Some in D; lia |]. rewrite D. unfold at_cr. by destruct e.
Qed.

Lemma value_run_loop t fuel start hs e hs' q' : have (p e) (t ++ [CR]) -> forallb value_char t = true -> zlen t < HTTP_MAX_HEADER_SIZE -> lenient e = false -> p_state e = s_header_value ->
  value_run hs t (parser e) = Some (hs', q') -> (length data < p e + fuel)%nat ->
  header_value_loop st data fuel start hs e = at_cr start (p e + length t) hs' q' e.
Proof.
  revert fuel hs e. induction t as [|c t IH]; intros fuel hs e Hv Vt M Le Ps R Fu; destruct fuel as [|fuel].
  1, 3: pose proof (have_length _ _ Hv ltac:(done)) as L; rewrite length_app in L; cbn in L; lia.
  { injection R as <- <-. apply have_cons in Hv as [D _]. rewrite Nat.add_0_r. by apply value_run_cr. }
  pose proof Hv as [D Hv']%have_cons. pose proof (lookup_lt_Some _ _ _ D). pose proof Vt as [Vc Vt']%andb_prop. destruct (value_char_ok c Vc) as (Nc & Nl & Hc).
  cbn [header_value_loop]. destruct (Nat.eqb_spec (p e) (length data)); [lia |]. rewrite D. cbn [ch set_ch]. rewrite Nc, Nl. cbn [lenient set_ch]. rewrite Le, Hc. cbn [negb andb].
  cbn [value_run] in R. destruct (value_step hs c (parser e)) as [[h1 q1]|] eqn:S1; [| done]. cbn in R. unfold zlen in M. cbn [length] in M.
  destruct (decide (hs = h_general)) as [-> | Ng].
  - injection S1 as <- <-. rewrite value_run_general in R. injection R as <- <-. cbn [header_value_char]. cbn [p set_ch set_p]. rewrite (value_end_at _ (c :: t)) by (unfold zlen; done || lia). cbn [length].
    replace (p e + S (length t) - 1 + 1)%nat with (p e + S (length t))%nat by lia. destruct fuel as [|fuel]; [apply (have_length _ _) in Hv; [rewrite length_app in Hv; cbn in Hv; lia | done] |].
    rewrite value_run_cr; [by unfold at_cr; destruct e |]. change (c :: t ++ [CR]) with ((c :: t) ++ [CR]) in Hv. apply have_app in Hv as [_ Dc]. by apply have_cons in Dc as [Dc _].
  - rewrite (value_step_eval hs c (parser e) h1 q1) by done. rewrite (IH fuel h1 (set_p (p (set_parser q1 (set_ch c e)) + 1) (set_parser q1 (set_ch c e)))).
    + cbn [p set_p set_parser set_ch length]. replace (p e + 1 + length t)%nat with (p e + S (length t))%nat by lia. unfold at_cr. by destruct e.
    + cbn [p set_p set_parser set_ch]. by rewrite Nat.add_1_r.
    + done.
    + unfold zlen. lia.
    + done.
    + done.
    + done.
    + cbn. lia.
Qed.

Lemma value_rest i w u x y hs' w' : have i (x :: y ++ [CR]) -> forallb value_char y = true -> errno w = HPE_OK -> errno w' = HPE_OK -> Z.of_nat (i + length (x :: y)) < HTTP_MAX_HEADER_SIZE ->
  value_run (header_state w) y w = Some (hs', w') ->
  leads (at_ (S i) s_header_value w u (Some (header_value, i)))
    (at_ (i + length (x :: y) + 1) s_header_almost_done (set_header_state hs' w') (on_text h header_value (look w') (x :: y) u) None).
Proof.
  intros Hv Vy O O' M R. pose proof Hv as Hn. change (x :: y ++ [CR]) with ((x :: y) ++ [CR]) in Hn. apply have_app in Hn as [Hn Hc]. apply have_cons in Hc as [Dc _].
  apply have_cons in Hv as [_ Hv]. pose proof (lookup_lt_Some _ _ _ Dc) as Lc. cbn [length] in *.
  destruct (lookup_lt_is_Some_2 data (S i)) as [z Dz]; [lia |]. apply (step_header (S i) _ _ _ _ z); [done | done | lia |]. intros q <-.
  set (k := (i + S (length y))%nat) in *. rewrite <- value_run_view in R. destruct (value_run (header_state (view q)) y q) as [[h1 q1]|] eqn:R1; [| done]. injection R as -> <-.
  exists (set_nread (Z.of_nat (S k)) (run_at k s_header_almost_done (set_header_state hs' (set_state s_header_almost_done q1)) (on_text h header_value (look q1) (x :: y) u) None CR)).
  split; [| split; [cbn; lia |]].
  2: { exists (set_header_state hs' (set_state s_header_almost_done q1)), CR. split; [done |]. cbn [p set_nread run_at]. rewrite !Nat.add_1_r. done. }
  apply reexecute_break. unfold switch. cbn [p_state inside run_at set_nread]. unfold case_header_value.
  rewrite (value_run_loop y _ _ _ _ hs' q1); [| exact Hv | done | unfold zlen; lia | done | done | exact R1 | cbn; lia].
  cbn [p inside run_at set_nread]. replace (S i + length y)%nat with k by lia. unfold at_cr, CALLBACK_DATA. rewrite (text_eval header_value _ _ _ i); [| exact O' | done | cbn; lia | cbn; lia].
  cbn [andthen]. unfold header_value_end.
  cbn [p set_mark set_user on_parser set_parser UPDATE_STATE set_ch set_p user parser p_state set_nread run_at inside]. destruct (Nat.eqb_spec k (length data)); [lia |].
  rewrite HttpSplit.count_eval by (cbn; lia). cbn [p set_mark set_user on_parser set_parser UPDATE_STATE set_ch set_p user parser p_state set_nread run_at inside nread].
  replace (k - i)%nat with (length (x :: y)) by (cbn; lia). rewrite (have_take _ _ Hn). replace (Z.of_nat (S (S i)) + Z.of_nat (k - S i)) with (Z.of_nat (S k)) by lia. reflexivity.
Qed.

Lemma value_leads i w u x y w1 hs' w' : have i (x :: y ++ [CR; LF]) -> value_char x = true -> x <> SP -> x <> HT -> forallb value_char y = true -> errno w1 = HPE_OK -> errno w' = HPE_OK ->
  Z.of_nat (i + length (x :: y) + 2) <= HTTP_MAX_HEADER_SIZE -> value_first x w = Some w1 -> value_run (header_state w1) y w1 = Some (hs', w') ->
  leads (at_ i s_header_value_discard_ws w u None) (at_line (i + length (x :: y) + 2) (look (value_flag (set_header_state hs' w'))) (on_text h header_value (look w') (x :: y) u)).
Proof.
  intros Hv Vx Ns Nh Vy O1 O' M F R. destruct (value_char_ok x Vx) as (Nc & Nl & _). pose proof Hv as [D _]%have_cons.
  eapply leads_trans; [apply (step_next i _ _ _ _ x s_header_value w1 u (Some (header_value, i))); [done | done | lia |] |].
  { intros q <-. rewrite <- value_first_view in F. destruct (value_first x q) as [q1|] eqn:E; [| done]. injection F as <-. exists q1. split; [done |]. apply reexecute_break.
    unfold switch. cbn [p_state inside run_at set_nread]. unfold case_header_value_discard_ws. cbn [ch inside run_at set_nread].
    rewrite (proj2 (Ascii.eqb_neq _ _) Ns), (proj2 (Ascii.eqb_neq _ _) Nh), Nc, Nl. cbn [orb]. revert E. unfold value_first, case_header_value_start.
    cbn -[Ascii.eqb LOWER IS_NUM has uchar]. destruct (header_state q); try (intros [= <-]; reflexivity). destruct (negb _); [done |]. destruct (has _ _); [done |]. intros [= <-]. reflexivity. }
  replace (x :: y ++ [CR; LF]) with ((x :: y ++ [CR]) ++ [LF]) in Hv by (cbn; by rewrite <- app_assoc). apply have_app in Hv as [Hv Hl].
  eapply leads_trans; [apply (value_rest i w1 u x y hs' w'); [done.. | cbn in *; lia | done] |].
  eapply leads_weaken; [apply (simple_leads _ _ _ _ [LF] s_header_value_lws (set_header_state hs' w')) |].
  - replace (i + length (x :: y) + 1)%nat with (i + length (x :: y ++ [CR]))%nat by (cbn; rewrite length_app; cbn; lia). exact Hl.
  - cbn in *. lia.
  - done.
  - intros e H. exists (set_header_state hs' w'). right. split; [done |]. cbn [length] in H. by replace (i + length (x :: y) + 2)%nat with (i + length (x :: y) + 1 + 1)%nat by lia.
Qed.

Definition value_ok (value : bytes) : bool :=
  match value with [] => false | x :: y => negb (x ≟ SP) && negb (x ≟ HT) && forallb value_char value end.

Lemma field_leads i v u name value v1 v2 : have i (field_line name value) -> name <> [] -> forallb token name = true -> value_ok value = true -> errno v = HPE_OK -> errno v1 = HPE_OK ->
  Z.of_nat (i + length (field_line name value)) <= HTTP_MAX_HEADER_SIZE ->
  (forall w, look w = v -> header_state w = name_state name -> exists x y w1 hs' w', value = x :: y /\ value_first x w = Some w1 /\ errno w1 = HPE_OK /\
    value_run (header_state w1) y w1 = Some (hs', w') /\ look w' = v1 /\ look (value_flag (set_header_state hs' w')) = v2) ->
  leads (at_line i v u) (at_line (i + length (field_line name value)) v2 (on_text h header_value v1 value (on_text h header_field v name u))).
Proof.
  intros Hv Ne Tk Vo O O1 M H. unfold field_line in *. rewrite app_assoc in Hv. apply have_app in Hv as [Hn Hv]. rewrite !length_app in *. cbn [length] in *.
  eapply leads_trans; [apply (name_leads i v u name); [done | done | done | done | lia] |].
  apply leads_ex. intros w. apply leads_and. intros [L Hs]. destruct (H w L Hs) as (x & y & w1 & hs' & w' & -> & F & Ow & R & <- & <-).
  cbn [value_ok] in Vo. apply andb_prop in Vo as [[Ns Nh]%andb_prop [Vx Vy]%andb_prop]. cbn [length] in *.
  replace (i + (length name + (2 + (S (length y) + 2))))%nat with (i + length name + 2 + length (x :: y) + 2)%nat by (cbn; lia).
  apply (value_leads _ _ _ _ _ w1); [| done | by intros -> | by intros -> | done | done | done | cbn; lia | done | done].
  by replace (i + length name + 2)%nat with (i + (length name + 2))%nat by lia.
Qed.

(** A field without a meaning changes nothing. *)
Lemma plain_field_leads i v u name value : have i (field_line name value) -> name <> [] -> forallb token name = true -> (forall hs, (TOKEN <$> name, hs) ∉ words) ->
  value_ok value = true -> errno v = HPE_OK -> Z.of_nat (i + length (field_line name value)) <= HTTP_MAX_HEADER_SIZE ->
  leads (at_line i v u) (at_line (i + length (field_line name value)) v (on_text h header_value v value (on_text h header_field v name u))).
Proof.
  intros Hv Ne Tk Nw Vo O M. apply field_leads; [done.. |]. intros w L Hs. destruct value as [|x y]; [done |].
  assert (value_first x w = Some (set_header_state h_general (set_index 0 w))) as F.
  { unfold value_first, case_header_value_start. cbn -[Ascii.eqb LOWER IS_NUM has uchar]. pose proof (name_state_ordinary name (header_state w) Tk (Nw _) (eq_sym Hs)) as K.
    pose proof (name_state_field name) as Fs. rewrite <- Hs in Fs. clear -K Fs. destruct (header_state w); try discriminate Fs; try (by destruct K; cbn; auto); done. }
  exists x, y, (set_header_state h_general (set_index 0 w)), h_general, (set_header_state h_general (set_index 0 w)).
  split_and!; [done | done | exact (look_ok _ _ L O) | apply value_run_general | exact L | exact L].
Qed.

Lemma connection_leads i v u closing : let value := if (closing : bool) then close else keep_alive in
  have i (field_line Connection value) -> errno v = HPE_OK -> Z.of_nat (i + length (field_line Connection value)) <= HTTP_MAX_HEADER_SIZE ->
  leads (at_line i v u) (at_line (i + length (field_line Connection value)) (add_flag (if closing then F_CONNECTION_CLOSE else F_CONNECTION_KEEP_ALIVE) v)
    (on_text h header_value v value (on_text h header_field v Connection u))).
Proof.
  intros value Hv O M. apply field_leads; [done | done | done | by destruct closing | done | done | done |]. intros w L Hs. change (name_state Connection) with h_connection in Hs.
  pose (w1 hs := set_header_state hs (set_index 0 w)).
  assert (forall x, value_first x w = Some (w1 (if LOWER x ≟ "k" then h_matching_connection_keep_alive else if LOWER x ≟ "c" then h_matching_connection_close
                               else if LOWER x ≟ "u" then h_matching_connection_upgrade else h_matching_connection_token)%char)) as F.
  { intros x. unfold value_first, case_header_value_start. cbn -[Ascii.eqb LOWER]. by rewrite Hs. }
  destruct closing.
  - exists "c"%char, (str_bytes "lose"), (w1 h_matching_connection_close), h_connection_close, (set_index 4 (w1 h_matching_connection_close)).
    split_and!; [done | by rewrite F | exact (look_ok _ _ L O) | reflexivity | exact L | by rewrite <- L].
  - exists "k"%char, (str_bytes "eep-alive"), (w1 h_matching_connection_keep_alive), h_connection_keep_alive, (set_index 9 (w1 h_matching_connection_keep_alive)).
    split_and!; [done | by rewrite F | exact (look_ok _ _ L O) | reflexivity | exact L | by rewrite <- L].
Qed.

(** The length of the body. *)
Lemma number_run y q : forallb IS_NUM y = true -> 0 <= content_length q -> numeral (content_length q) y < 2 ^ 60 ->
  value_run h_content_length_num y q = Some (h_content_length_num, set_content_length (numeral (content_length q) y) q).
Proof.
  revert q. induction y as [|x y IH]; intros q N P L; [by destruct q |]. apply andb_prop in N as [Nx N]. pose proof (uchar_digit x Nx) as Dx.
  assert (forall ds a, forallb IS_NUM ds = true -> 0 <= a -> a <= numeral a ds) as Mono.
  { clear. induction ds as [|d ds IH]; intros a N P; [cbn; lia |]. apply andb_prop in N as [Nd N]. pose proof (uchar_digit d Nd). cbn [numeral fold_left].
    specialize (IH (a * 10 + (uchar d - 48)) N ltac:(lia)). unfold numeral in IH. lia. }
  change (numeral (content_length q) (x :: y)) with (numeral (content_length q * 10 + (uchar x - 48)) y) in *.
  pose proof (Mono y (content_length q * 10 + (uchar x - 48)) N ltac:(lia)) as Le.
  cbn [value_run]. assert (value_step h_content_length_num x q = Some (h_content_length_num, set_content_length (content_length q * 10 + (uchar x - 48)) q)) as ->.
  { unfold value_step, header_value_char. cbn [ch parser]. assert ((x ≟ SP) = false) as -> by (destruct (Ascii.eqb_spec x SP) as [-> |]; done). rewrite Nx. cbn [negb].
    rewrite (u64_small (content_length q * 10)) by lia. rewrite u64_small by lia. destruct (Z.ltb_spec ((ULLONG_MAX - 10) / 10) (content_length q)) as [B |]; [| done].
    change ((ULLONG_MAX - 10) / 10) with 1844674407370955160 in B. lia. }
  cbn -[value_run numeral]. rewrite IH; [done | done | cbn; lia | done].
Qed.

Lemma length_leads i v u n : let value := decimal n in
  have i (field_line Content_Length value) -> 0 <= n < 2 ^ 60 -> has F_CONTENTLENGTH v = false -> errno v = HPE_OK ->
  Z.of_nat (i + length (field_line Content_Length value)) <= HTTP_MAX_HEADER_SIZE ->
  let v' := set_content_length n (add_flag F_CONTENTLENGTH v) in
  leads (at_line i v u) (at_line (i + length (field_line Content_Length value)) v' (on_text h header_value v' value (on_text h header_field v Content_Length u))).
Proof.
  intros value Hv Rn Nf O M v'. destruct (decimal_digits n ltac:(lia)) as (Nd & Vn & Ne). fold value in Nd, Vn, Ne.
  assert (value_ok value = true) as Vo.
  { destruct value as [|x y]; [done |]. cbn [value_ok]. assert (forall c, IS_NUM c = true -> value_char c = true /\ (c ≟ SP) = false /\ (c ≟ HT) = false) as K
      by (intros c; destruct c as [[] [] [] [] [] [] [] []]; intros; by try discriminate).
    pose proof Nd as [Nx _]%andb_prop. destruct (K x Nx) as (_ & -> & ->). cbn [negb andb]. apply forallb_forall. intros c Hc. rewrite forallb_forall in Nd. by apply K, Nd. }
  apply field_leads; [done | done | done | done | done | done | done |]. intros w L Hs. change (name_state Content_Length) with h_content_length in Hs.
  destruct value as [|x y]; [done |]. pose proof Nd as [Nx Ny]%andb_prop. pose proof (uchar_digit x Nx) as Dx.
  pose (w1 := set_header_state h_content_length_num (set_content_length (uchar x - 48) (add_flag F_CONTENTLENGTH (set_index 0 w)))).
  exists x, y, w1, h_content_length_num, (set_content_length n w1). split_and!; [done | | exact (look_ok _ _ L O) | | by unfold v'; rewrite <- L | by unfold v'; rewrite <- L].
  - unfold value_first, case_header_value_start. cbn -[IS_NUM has uchar]. rewrite Hs, Nx. cbn -[has uchar].
    assert (has F_CONTENTLENGTH (set_index 0 w) = false) as -> by (by rewrite <- L in Nf). done.
  - change (header_state w1) with h_content_length_num. change (numeral 0 (x :: y)) with (numeral (content_length w1) y) in Vn. rewrite number_run; [by rewrite Vn | done | change (0 <= uchar x - 48); lia | rewrite Vn; lia].
Qed.

(** ** The end of the head, and the body *)

Lemma blank_line i v u : data !! i = Some CR -> Z.of_nat i < HTTP_MAX_HEADER_SIZE ->
  leads (at_line i v u) (fun e => exists w, look w = v /\ at_ (S i) s_headers_almost_done w u None e).
Proof.
  intros D M. apply leads_ex. intros w. apply leads_or; apply leads_and; intros L.
  - eapply leads_weaken; [| intros e H; exists w; split; [exact L | exact H]]. apply (step_next i _ _ _ _ CR); [done.. |]. intros q <-. exists q. split; [done |]. by apply reexecute_break.
  - eapply leads_weaken; [| intros e H; exists (value_flag w); split; [exact L | exact H]]. apply (step_next i _ _ _ _ CR); [done.. |]. intros q <-. exists (value_flag q).
    split; [by rewrite value_flag_view |]. rewrite (switch_again _ _ (lws_again i q u CR ltac:(done) ltac:(done))). by apply reexecute_break.
Qed.

(** A message of a known length. *)
Record sized (n : Z) (v : http_parser) : Prop := {
  sized_length : content_length v = n;
  sized_bound : 0 <= n < 2 ^ 60;
  sized_ok : errno v = HPE_OK;
  sized_method : method v <> HTTP_CONNECT;
  sized_flags : has F_TRAILING v = false /\ has F_CHUNKED v = false /\ has F_UPGRADE v = false /\ has F_SKIPBODY v = false }.

(** Behind the head nothing is counted. *)
Definition bare (i : nat) (s : state) (q : http_parser) (u : U) (c : ascii) : exec U := mk_exec q u s 0 false i c None None None None None.

Lemma headers_almost_done_switch i n q u : sized n (look q) ->
  switch st data (inside i s_headers_almost_done q u None LF) =
  Reexecute (set_nread (Z.of_nat (S i)) (bare i s_headers_done (set_upgrade false q) (on_headers h (look (set_upgrade false q)) u) LF)).
Proof.
  intros [E B O C (F1 & F2 & F3 & F4)]. unfold switch. cbn [p_state inside run_at set_nread]. unfold case_headers_almost_done, STRICT_CHECK. cbn [ch inside run_at set_nread negb andthen].
  change (LF ≟ LF) with true. cbn [negb andthen parser inside run_at set_nread].
  change (has F_TRAILING q) with (has F_TRAILING (look q)). change (has F_CHUNKED q) with (has F_CHUNKED (look q)). rewrite F1, F2. cbn [andb].
  cbn [UPDATE_STATE on_parser set_parser parser inside run_at set_nread]. change (has F_UPGRADE q) with (has F_UPGRADE (look q)). rewrite F3. cbn [andb].
  assert (bool_decide (method q = HTTP_CONNECT) = false) as -> by (by apply bool_decide_false). cbn -[look]. change (0 =? 0) with true. cbn [andthen].
  unfold errno_ok. cbn [parser set_user set_parser]. by rewrite (bool_decide_true (errno (set_upgrade false q) = HPE_OK) O).
Qed.

(** What the client has been told behind the last byte. *)
Definition told (u : U) (e : exec U) : Prop := p e = length data /\ (forall k, mark k e = None) /\ errno (parser e) = HPE_OK /\ user e = u.

Lemma message_complete_eval e : errno (parser e) = HPE_OK ->
  message_complete st e = Break (set_user (on_note h HttpSplit.message_complete_ (look (parser e)) (user e))
    (on_parser (set_state (NEW_MESSAGE (parser e))) (UPDATE_STATE (NEW_MESSAGE (parser e)) e))).
Proof. intros O. unfold message_complete. etransitivity; [by apply (note_eval HttpSplit.message_complete_) | reflexivity]. Qed.

Lemma headers_done_switch i n q u : sized n (look q) -> upgrade q = false ->
  switch st data (set_nread (Z.of_nat (S i)) (bare i s_headers_done q u LF)) =
  if n =? 0 then message_complete st (bare i s_headers_done (set_nread_of 0 q) u LF) else Break (bare i s_body_identity (set_nread_of 0 q) u LF).
Proof.
  intros [E B O C (F1 & F2 & F3 & F4)] Up. unfold switch. cbn [p_state bare set_nread]. unfold case_headers_done, STRICT_CHECK. cbn [ch bare set_nread].
  change (LF ≟ LF) with true. cbn [negb andthen]. cbn [on_parser set_parser parser bare set_nread]. change (upgrade (set_nread_of 0 q)) with (upgrade q). rewrite Up. cbn [andb].
  change (has F_SKIPBODY (set_nread_of 0 q)) with (has F_SKIPBODY (look q)). change (has F_CHUNKED (set_nread_of 0 q)) with (has F_CHUNKED (look q)). rewrite F4, F2.
  change (content_length (set_nread_of 0 q)) with (content_length (look q)). rewrite E. destruct (Z.eqb_spec n 0); [done |].
  destruct (Z.eqb_spec n ULLONG_MAX) as [En |]; [unfold ULLONG_MAX in En; lia | done].
Qed.

Lemma head_end i n v u : data !! i = Some LF -> Z.of_nat i < HTTP_MAX_HEADER_SIZE -> sized n v -> forall w, look w = v ->
  let v' := set_upgrade false v in let u' := on_headers h v' u in
  leads (at_ i s_headers_almost_done w u None)
    (fun e => if n =? 0 then length data = S i -> told (on_note h HttpSplit.message_complete_ v' u') e else exists q, look q = v' /\ e = bare (S i) s_body_identity q u' LF).
Proof.
  intros D M Sz w L v' u'. apply (step_header i _ _ _ _ LF); [done.. |]. intros q <-. assert (look q = v) as Lq by exact L. clear L. subst v.
  rewrite (switch_again _ _ (headers_almost_done_switch i n q u Sz)).
  assert (sized n (look (set_upgrade false q))) as Sz' by (by destruct Sz; split).
  pose proof (headers_done_switch i n (set_upgrade false q) (on_headers h (look (set_upgrade false q)) u) Sz' eq_refl) as E. destruct Sz as [_ B O _ _].
  destruct (Z.eqb_spec n 0) as [-> | Nn].
  - rewrite message_complete_eval in E by exact O. eexists. split; [by apply reexecute_break |]. split; [done |]. intros Le. split_and!; [cbn; lia | by intros [] | exact O | done].
  - eexists. split; [by apply reexecute_break |]. split; [done |]. exists (set_nread_of 0 (set_upgrade false q)). split; [done |]. unfold bare, set_p. cbn. by rewrite Nat.add_1_r.
Qed.

Lemma body_leads i n q u c v t : look q = v -> sized n v -> upgrade q = false -> drop i data = t -> n = zlen t -> t <> [] ->
  let v' := set_content_length 0 v in
  leads (fun e => e = bare i s_body_identity q u c) (told (on_note h HttpSplit.message_complete_ v' (on_text h body v' t u))).
Proof.
  intros <- [E B O _ _] Up Et En Ne v' ? ->. assert (length data = i + length t)%nat as Le by (apply (f_equal length) in Et; rewrite length_drop in Et; destruct t; [done | cbn in *; lia]).
  assert (0 < length t)%nat as Pt by (destruct t; [done | cbn; lia]). destruct (lookup_lt_is_Some_2 data i) as [x Dx]; [lia |].
  pose (q1 := set_state s_message_done (set_content_length 0 q)). remember (i + length t - 1)%nat as j eqn:Ej. pose (e1 := bare j s_message_done q1 (on_text h body v' t u) x).
  assert (switch st data (bare i s_body_identity q u x) = Reexecute e1) as S1.
  { unfold switch. cbn [p_state bare]. unfold case_body_identity, assert_, length_known. cbn [parser bare]. change (content_length (look q)) with (content_length q) in E. rewrite E.
    assert (0 < n) as Pn by (rewrite En; unfold zlen; lia).
    destruct (Z.eqb_spec n 0); [lia |]. destruct (Z.eqb_spec n ULLONG_MAX) as [Em |]; [unfold ULLONG_MAX in Em; lia |]. cbn [negb andb andthen].
    unfold take_body, to_read. cbn [parser p bare]. rewrite E. replace (Z.min n (zlen data - Z.of_nat i)) with n by (unfold zlen in *; lia).
    cbn [parser on_parser set_parser set_p MARK mark body_mark bare set_mark content_length set_content_length]. rewrite E, Z.sub_diag. change (u64 0) with 0. change (0 =? 0) with true. cbv iota.
    replace (Z.to_nat (Z.of_nat i + n - 1)) with j by (unfold zlen in *; lia). erewrite (text_eval body _ _ _ i); [| exact O | done | cbn; lia | cbn; lia].
    cbn [p set_p UPDATE_STATE on_parser set_parser]. replace (j - i + 1)%nat with (length t) by lia. rewrite Et, take_ge by lia. cbn [andthen]. unfold on_parser.
    cbn [parser user p_state set_parser set_mark bare UPDATE_STATE set_p set_user]. rewrite E, Z.sub_diag. reflexivity. }
  exists (set_p (length data) (set_user (on_note h HttpSplit.message_complete_ v' (on_text h body v' t u)) (on_parser (set_state (NEW_MESSAGE q1)) (UPDATE_STATE (NEW_MESSAGE q1) e1)))).
  split; [| split_and!; [done | by intros [] | exact O | done]]. apply rtc_once. split; [cbn; lia |].
  exists (set_user (on_note h HttpSplit.message_complete_ v' (on_text h body v' t u)) (on_parser (set_state (NEW_MESSAGE q1)) (UPDATE_STATE (NEW_MESSAGE q1) e1))). split; [| split; [cbn; lia |]].
  - unfold round. cbn [p bare]. rewrite Dx. cbn [p_state bare]. change (PARSING_HEADER s_body_identity) with false. cbn [andthen]. change (set_ch x (bare i s_body_identity q u c)) with (bare i s_body_identity q u x).
    rewrite (switch_again _ _ S1). apply reexecute_break. unfold switch. cbn [p_state e1 bare]. unfold case_message_done. rewrite message_complete_eval by exact O. cbn [andthen].
    change (upgrade (parser (set_user ?a (on_parser ?f ?b)))) with (upgrade q). rewrite Up. done.
  - cbn [p set_user on_parser set_parser UPDATE_STATE e1 bare]. f_equal. lia.
Qed.

(** ** Whole messages *)

(** The fields of a message, but for [Content-Length].  A plain name is a
    non-empty token that means nothing to the parser: none of [connection],
    [proxy-connection], [content-length], [transfer-encoding] and [upgrade], in
    small or capital letters.  Its value is not empty, does not begin with a
    blank, and has no control characters but tabs.  The only other field is
    [Connection], with [close] or [keep-alive]. *)
Definition plain_name (name : bytes) : bool := negb (bool_decide (name = [])) && forallb token name && negb (existsb (fun w => bool_decide ((TOKEN <$> name) = fst w)) words).
Definition field_ok (f : bytes * bytes) : bool :=
  plain_name (fst f) && value_ok (snd f) || bool_decide (fst f = Connection) && (bool_decide (snd f = close) || bool_decide (snd f = keep_alive)).

Definition effect (f : bytes * bytes) (v : http_parser) : http_parser :=
  if bool_decide (fst f = Connection) then add_flag (if bool_decide (snd f = close) then F_CONNECTION_CLOSE else F_CONNECTION_KEEP_ALIVE) v else v.

Definition print_fields (l : list (bytes * bytes)) : bytes := concat ((fun f => field_line (fst f) (snd f)) <$> l).

(** What the client is told of them. *)
Definition tell (s : http_parser * U) (f : bytes * bytes) : http_parser * U :=
  (effect f (fst s), on_text h header_value (fst s) (snd f) (on_text h header_field (fst s) (fst f) (snd s))).

Lemma one_field_leads i v u f : have i (field_line (fst f) (snd f)) -> field_ok f = true -> errno v = HPE_OK -> Z.of_nat (i + length (field_line (fst f) (snd f))) <= HTTP_MAX_HEADER_SIZE ->
  leads (at_line i v u) (at_line (i + length (field_line (fst f) (snd f))) (fst (tell (v, u) f)) (snd (tell (v, u) f))).
Proof.
  intros Hv Fo O M. destruct f as [name value]. unfold tell, effect. cbn [fst snd] in *. unfold field_ok in Fo. cbn [fst snd] in Fo.
  destruct (plain_name name && value_ok value) eqn:Pl.
  - apply andb_prop in Pl as [[[Ne%negb_true_iff%bool_decide_eq_false Tk]%andb_prop Nw%negb_true_iff]%andb_prop Vo].
    rewrite bool_decide_false by (by intros ->). apply plain_field_leads; [done | done | done | | done | done | done].
    intros hs Hw. assert (existsb (fun w => bool_decide ((TOKEN <$> name) = fst w)) words = true); [| congruence]. apply existsb_exists. exists (TOKEN <$> name, hs).
    split; [by apply list_elem_of_In | by apply bool_decide_true].
  - cbn [orb] in Fo. apply andb_prop in Fo as [->%bool_decide_eq_true Fo]. rewrite (bool_decide_true (Connection = Connection)) by done.
    apply orb_prop in Fo as [->%bool_decide_eq_true | ->%bool_decide_eq_true]; [by apply (connection_leads i v u true) | by apply (connection_leads i v u false)].
Qed.

Lemma effect_errno f v : errno (effect f v) = errno v.
Proof. unfold effect. by destruct (bool_decide _). Qed.

Lemma fields_leads l i v u : have i (print_fields l) -> forallb field_ok l = true -> errno v = HPE_OK -> Z.of_nat (i + length (print_fields l)) <= HTTP_MAX_HEADER_SIZE ->
  leads (at_line i v u) (at_line (i + length (print_fields l)) (fst (fold_left tell l (v, u))) (snd (fold_left tell l (v, u)))).
Proof.
  revert i v u. induction l as [|f l IH]; intros i v u Hv Fo O M; [rewrite Nat.add_0_r; by apply leads_refl |].
  change (print_fields (f :: l)) with (field_line (fst f) (snd f) ++ print_fields l) in *. rewrite length_app in *. apply andb_prop in Fo as [F1 Fo]. apply have_app in Hv as [H1 Hv].
  eapply leads_trans; [apply (one_field_leads i v u f); [done | done | done | lia] |]. cbn [fold_left]. rewrite Nat.add_assoc.
  rewrite (surjective_pairing (tell (v, u) f)) at 3 4. apply IH; [done | done | cbn [tell fst]; by rewrite effect_errno | lia].
Qed.

Lemma has_add_flag f g v : Z.land g f = 0 -> has f (add_flag g v) = has f v.
Proof. intros E. unfold has, add_flag. cbn [flags set_flags]. by rewrite Z.land_lor_distr_l, E, Z.lor_0_r. Qed.

(** What the parser knows of a message before [Content-Length]. *)
Record open_head (v : http_parser) : Prop := {
  open_ok : errno v = HPE_OK;
  open_method : method v <> HTTP_CONNECT;
  open_flags f : In f [F_TRAILING; F_CHUNKED; F_UPGRADE; F_SKIPBODY; F_CONTENTLENGTH] -> has f v = false }.

Lemma effect_open f v : open_head v -> open_head (effect f v).
Proof.
  intros [O M F]. unfold effect. destruct (bool_decide _); [| by split]. split; [done | done |]. intros g Hg. rewrite has_add_flag; [by apply F |].
  destruct (bool_decide _); cbn in Hg; naive_solver.
Qed.

Lemma tell_open l s : open_head (fst s) -> open_head (fst (fold_left tell l s)).
Proof. revert s. induction l as [|f l IH]; intros s Os; [done |]. cbn [fold_left]. by apply IH, effect_open. Qed.

Definition with_length (n : Z) (v : http_parser) : http_parser := set_upgrade false (set_content_length n (add_flag F_CONTENTLENGTH v)).

Lemma length_sized n v : open_head v -> 0 <= n < 2 ^ 60 -> sized n (set_content_length n (add_flag F_CONTENTLENGTH v)).
Proof. intros [O M F] B. split; [done | done | done | done |]. split_and!; (etransitivity; [by apply (has_add_flag _ F_CONTENTLENGTH v) | apply F; cbn; naive_solver]). Qed.

(** The text behind the start line. *)
Definition print_rest (fields : list (bytes * bytes)) (content : bytes) : bytes := print_fields fields ++ field_line Content_Length (decimal (zlen content)) ++ [CR; LF].

(** What the client is told behind the start line. *)
Definition tell_rest (fields : list (bytes * bytes)) (content : bytes) (v : http_parser) (u : U) : U :=
  let '(v, u) := fold_left tell fields (v, u) in
  let n := zlen content in
  let v' := set_content_length n (add_flag F_CONTENTLENGTH v) in
  let u := on_headers h (with_length n v) (on_text h header_value v' (decimal n) (on_text h header_field v Content_Length u)) in
  on_note h HttpSplit.message_complete_ (with_length 0 v) (if n =? 0 then u else on_text h body (with_length 0 v) content u).

Lemma rest_leads i v u fields content : drop i data = print_rest fields content ++ content -> forallb field_ok fields = true -> open_head v -> upgrade v = false ->
  Z.of_nat (i + length (print_rest fields content)) <= HTTP_MAX_HEADER_SIZE -> zlen content < 2 ^ 60 ->
  leads (at_line i v u) (told (tell_rest fields content v u)).
Proof.
  intros Ed Fo Op Up M B. assert (have i (print_rest fields content)) as Hv by (by exists content). unfold print_rest in *. pose proof (tell_open fields (v, u) Op) as Op1. unfold tell_rest.
  pose proof (fields_leads fields i v u) as Lf. destruct (fold_left tell fields (v, u)) as [v1 u1]. cbn [fst snd] in *. set (n := zlen content) in *. pose proof (zlen_nonneg content) as Pn. fold n in Pn.
  rewrite !length_app in M. cbn [length] in M.
  apply have_app in Hv as [H1 H2]. apply have_app in H2 as [H2 H3]. pose proof H3 as [Dc [Dl _]%have_cons]%have_cons.
  eapply leads_trans; [apply Lf; [done | done | apply Op | lia] |].
  eapply leads_trans; [apply (length_leads _ v1 u1 n); [exact H2 | lia | apply Op1; cbn; auto 10 | apply Op1 | lia] |].
  eapply leads_trans; [apply blank_line; [exact Dc | lia] |]. apply leads_ex. intros w. apply leads_and. intros Lw.
  pose proof (length_sized n v1 Op1 ltac:(lia)) as Sz. set (k := (i + length (print_fields fields) + length (field_line Content_Length (decimal n)))%nat) in *.
  assert (drop (S (S k)) data = content) as Et.
  { replace (S (S k)) with (i + length (print_fields fields ++ field_line Content_Length (decimal n) ++ [CR; LF]))%nat by (unfold k; rewrite !length_app; cbn [length]; lia).
    by rewrite <- drop_drop, Ed, drop_app_length. }
  assert (length data = S (S k) + length content)%nat as Le.
  { pose proof (lookup_lt_Some _ _ _ Dl). apply (f_equal length) in Et. rewrite length_drop in Et. lia. }
  eapply leads_trans; [apply (head_end (S k) n _ _ Dl ltac:(unfold k; lia) Sz w Lw) |]. destruct (Z.eqb_spec n 0) as [E0 | Ne].
  - apply leads_refl. intros e He. rewrite E0 in He |- *. apply He. unfold n, zlen in E0. lia.
  - apply leads_ex. intros q. apply leads_and. intros Lq. apply (body_leads _ n _ _ _ (with_length n v1)); [done | | | done | done |].
    + destruct Sz. by split.
    + change (upgrade (look q) = false). by rewrite Lq.
    + intros ->. by apply Ne.
Qed.

Lemma execute_told q u u' : leads (at_ 0 s_start_req_or_res (view q) u None) (told u') -> data <> [] -> q = http_parser_init HTTP_BOTH ->
  exists q', http_parser_execute st data q u = Some (length data, q', u') /\ errno q' = HPE_OK.
Proof.
  intros L Ne ->. destruct (L (run_at 0 s_start_req_or_res (http_parser_init HTTP_BOTH) u None NUL)) as (e & S & P & Mk & O & Hu); [by exists (http_parser_init HTTP_BOTH), NUL |].
  unfold http_parser_execute. change (negb (errno_ok _)) with false. cbv iota. destruct (Nat.eqb_spec (length data) 0) as [E | _]; [by apply length_zero_iff_nil in E |].
  change (starting_marks _) with (run_at 0 s_start_req_or_res (http_parser_init HTTP_BOTH) u None NUL). erewrite (loop_steps _ _ e S P) by (cbn; lia). cbn [andthen].
  assert (leftovers st data e = Return (length data) e) as ->; [| eexists; split; [cbn [finish]; by rewrite Hu | exact O]].
  assert (forall k, CALLBACK_DATA_NOADVANCE st data k e = Break e) as K.
  { intros k. unfold CALLBACK_DATA_NOADVANCE, CALLBACK_DATA_, assert_, errno_ok. rewrite (bool_decide_true _ O). cbn [andthen]. by rewrite Mk. }
  unfold leftovers. assert (marks e = 0%nat) as M0.
  { unfold marks. by rewrite (Mk header_field : header_field_mark e = None), (Mk header_value : header_value_mark e = None), (Mk url : url_mark e = None),
      (Mk body : body_mark e = None), (Mk status : status_mark e = None). }
  rewrite M0. cbn [assert_ Nat.leb andthen]. by rewrite !K; cbn [andthen]; rewrite !K; cbn [andthen]; rewrite !K; cbn [andthen]; rewrite !K; cbn [andthen]; rewrite !K.
Qed.

(** *** A request with another protocol *)

Lemma loop_fails fuel e e' e'' : rtc step e e' -> (p e' < length data)%nat -> round st data e' = Error e'' -> (length data < p e + fuel)%nat -> loop st data fuel e = Error e''.
Proof.
  intros S L R. revert fuel. induction S as [e | e e1 e2 [Le (e3 & R3 & L3 & ->)] _ IH]; intros fuel Fu.
  - destruct fuel; [lia |]. cbn [loop]. destruct (Nat.eqb_spec (p e) (length data)); [lia |]. by rewrite R.
  - destruct fuel; [lia |]. cbn [loop]. destruct (Nat.eqb_spec (p e) (length data)); [lia |]. rewrite R3. cbn [andthen]. apply IH; [done | done |]. cbn. lia.
Qed.

(** Behind the target only [H] and spaces are taken; any other byte is an error,
    whatever follows it. *)
Lemma execute_bad_protocol m l x rest u : let target := "/"%char :: l in let q0 := http_parser_init HTTP_BOTH in
  data = request_front m target ++ x :: rest -> m <> HTTP_CONNECT -> m <> HTTP_MSEARCH -> forallb visible l = true -> x <> "H"%char -> x <> SP ->
  zlen (request_front m target) < HTTP_MAX_HEADER_SIZE ->
  exists q vb, http_parser_execute st data q0 u = Some (length (request_front m target), q, on_text h url (look (request_method m q0)) target (on_note h HttpSplit.message_begin (look vb) u)) /\
    errno q = HPE_INVALID_CONSTANT.
Proof.
  intros target q0 Ed Nc Nm Vt Nh Ns M. assert (have 0 (request_front m target)) as Hf by (exists (x :: rest); by rewrite drop_0).
  assert (zlen (request_front m target) <= HTTP_MAX_HEADER_SIZE) as Mf by lia. destruct (request_front_leads m l (view q0) u Hf Nc Nm Vt Mf eq_refl) as [vb L]. fold target in L.
  destruct (L (run_at 0 s_start_req_or_res q0 u None NUL)) as (e & S & q & c & V & ->); [by exists q0, NUL |]. set (n := length (request_front m target)) in *.
  assert (data !! n = Some x) as D by (rewrite Ed; unfold n; by rewrite lookup_app_r, Nat.sub_diag by lia).
  assert (round st data (run_at n s_req_http_start q (on_text h url (look (request_method m (view q0))) target (on_note h HttpSplit.message_begin (look vb) u)) None c) =
    Error (SET_ERRNO HPE_INVALID_CONSTANT (inside n s_req_http_start q (on_text h url (look (request_method m (view q0))) target (on_note h HttpSplit.message_begin (look vb) u)) None x))) as R.
  { unfold round. cbn [p run_at]. rewrite D. cbn [p_state run_at]. change (PARSING_HEADER s_req_http_start) with true. cbv iota. rewrite HttpSplit.count_eval; [| cbn; unfold n, zlen in *; lia..].
    cbn [andthen]. cbn [reexecute]. unfold switch. cbn [p_state set_ch run_at set_nread]. unfold case_req_http_start. cbn [ch set_ch run_at set_nread].
    rewrite (proj2 (Ascii.eqb_neq _ _) Nh), (proj2 (Ascii.eqb_neq _ _) Ns). unfold fail. do 2 f_equal. unfold inside, run_at, set_nread, set_ch. cbn. f_equal. lia. }
  unfold http_parser_execute. change (negb (errno_ok _)) with false. cbv iota. destruct (Nat.eqb_spec (length data) 0) as [E | _]; [apply length_zero_iff_nil in E; by rewrite E in D |].
  change (starting_marks _) with (run_at 0 s_start_req_or_res q0 u None NUL). apply lookup_lt_Some in D as Lt.
  erewrite (loop_fails _ _ _ _ S) by ((cbn; lia) || exact R). cbn [andthen finish]. eexists _, vb. split; [reflexivity | reflexivity].
Qed.

End run.

(** ** Claims *)

Inductive start_line :=
  | Request (m : http_method) (target : bytes) (major minor : Z)
  | Response (major minor code : Z) (reason : bytes).

Record message := mk_message { start : start_line; fields : list (bytes * bytes); content : bytes }.

Definition print_start (s : start_line) : bytes :=
  match s with Request m target major minor => request_line m target major minor | Response major minor code reason => status_line major minor code reason end.

Definition print_head (m : message) : bytes := print_start (start m) ++ print_rest (fields m) (content m).
Definition print (m : message) : bytes := print_head m ++ content m.

(** Versions have one digit, codes have three; the target is a path of visible
    characters.  [CONNECT] takes another kind of target, and the parser does
    not know [M-SEARCH] by the name it prints. *)
Definition start_ok (s : start_line) : Prop :=
  match s with
  | Request m target major minor => m <> HTTP_CONNECT /\ m <> HTTP_MSEARCH /\ 0 <= major <= 9 /\ 0 <= minor <= 9 /\ exists l, target = "/"%char :: l /\ forallb visible l = true
  | Response major minor code reason => 0 <= major <= 9 /\ 0 <= minor <= 9 /\ 0 <= code <= 999 /\ reason <> [] /\ line_text reason
  end.

Record message_ok (m : message) : Prop := {
  ok_start : start_ok (start m);
  ok_fields : forallb field_ok (fields m) = true;
  ok_head : zlen (print_head m) <= HTTP_MAX_HEADER_SIZE;
  ok_content : zlen (content m) < 2 ^ 60 }.

Section claims.
Context {U : Type} (h : handler U).

(** The parser of the first line: when the first string is handed over, and
    behind the line. *)
Definition start_parser (s : start_line) : http_parser :=
  let v := http_parser_init HTTP_BOTH in
  look match s with Request m _ major minor => request_head m major minor v | Response major minor code _ => response_head major minor code v end.

Definition tell_start (begun : http_parser) (s : start_line) (u : U) : U :=
  let u := on_note h HttpSplit.message_begin (look begun) u in
  match s with
  | Request m target _ _ => on_text h url (look (request_method m (http_parser_init HTTP_BOTH))) target u
  | Response _ _ _ reason => on_text h status (start_parser s) reason u
  end.

(** All that the client of the parser is told of a message, in order. *)
Definition tell_message (begun : http_parser) (m : message) (u : U) : U :=
  tell_rest h (fields m) (content m) (start_parser (start m)) (tell_start begun (start m) u).

Lemma start_leads data s u : have data 0 (print_start s) -> start_ok s -> zlen (print_start s) <= HTTP_MAX_HEADER_SIZE ->
  exists begun, leads h data (at_ 0 s_start_req_or_res (view (http_parser_init HTTP_BOTH)) u None) (at_line (length (print_start s)) (start_parser s) (tell_start begun s u)).
Proof.
  intros Hv So M. destruct s as [m target major minor | major minor code reason].
  - destruct So as (N1 & N2 & Ma & Mi & l & -> & Vl). destruct (request_line_leads h data m l major minor (view (http_parser_init HTTP_BOTH)) u Hv N1 N2 Vl Ma Mi M eq_refl) as [vb L].
    exists vb. eapply leads_weaken; [exact L |]. intros e He. eexists. left. split; [| exact He]. done.
  - destruct So as (Ma & Mi & Co & Ne & Lt). eexists.
    eapply leads_weaken; [exact (status_line_leads h data major minor code reason (view (http_parser_init HTTP_BOTH)) u Hv Ma Mi Co Ne Lt M eq_refl) |]. intros e He. eexists. left. split; [| exact He]. done.
Qed.

Lemma start_parser_open s : start_ok s -> open_head (start_parser s) /\ upgrade (start_parser s) = false.
Proof.
  intros So. split; [| by destruct s]. destruct s as [m target major minor | major minor code reason].
  - destruct So as (N1 & _). split; [done | exact N1 |]. intros f Hf. cbn in Hf. naive_solver.
  - split; [done | done |]. intros f Hf. cbn in Hf. naive_solver.
Qed.

Lemma print_nonempty m : print m <> [].
Proof. unfold print, print_head. destruct (start m) as [[] | ]; done. Qed.

Lemma http_message m u : message_ok m ->
  exists q begun, http_parser_execute (settings_of h) (print m) (http_parser_init HTTP_BOTH) u = Some (length (print m), q, tell_message begun m u) /\ errno q = HPE_OK.
Proof.
  intros [So Fo Mh Mc]. set (data := print m). assert (have data 0 (print_start (start m))) as Hs.
  { exists (print_rest (fields m) (content m) ++ content m). unfold data, print, print_head. by rewrite drop_0, <- app_assoc. }
  unfold print_head in Mh. rewrite zlen_app in Mh. pose proof (zlen_nonneg (print_rest (fields m) (content m))).
  destruct (start_leads data (start m) u Hs So ltac:(lia)) as [begun L]. destruct (start_parser_open (start m) So) as [Op Up].
  destruct (execute_told h data (http_parser_init HTTP_BOTH) u (tell_message begun m u)) as (q & E & O).
  - eapply leads_trans; [exact L |]. apply rest_leads; [| done | done | done | unfold zlen in *; lia | done].
    unfold data, print, print_head. by rewrite <- app_assoc, drop_app_length.
  - apply print_nonempty.
  - done.
  - by exists q, begun.
Qed.

(** C9: the parser reads what is printed.  A request or a response, printed
    with its [Content-Length] and handed over in one call, is taken to its last
    byte without an error, and the client is told the target or the reason,
    every field and its value, the end of the headers, the body and the end of
    the message: each string as it was printed, in one piece, in this order, and
    nothing else.

    Which messages ([message_ok]): the method is neither CONNECT nor M-SEARCH,
    and the target a slash and visible characters; the status has up to three
    digits, and the reason is not empty and has neither CR nor LF; the numbers
    of the version are one digit each; the fields are those of [field_ok]: plain
    names with values that are not empty, and [Connection] with [close] or
    [keep-alive]; the head has at most the 80 KB of [HTTP_MAX_HEADER_SIZE], and
    the body less than [2^60] bytes.  The callbacks are any that answer 0 and do
    not write to the parser. *)
Theorem http_parser_reads_message m u : message_ok m ->
  exists q begun, http_parser_execute (settings_of h) (print m) (http_parser_init HTTP_BOTH) u = Some (length (print m), q, tell_message begun m u) /\ errno q = HPE_OK.
Proof. exact (http_message m u). Qed.
End claims.

(** ** Examples *)

(** A client that writes down what it is told. *)
Inductive event := ev_note (n : note) | ev_headers | ev_text (k : data_kind) (d : bytes).
Definition log : handler (list event) := mk_handler (fun n _ l => l ++ [ev_note n]) (fun _ l => l ++ [ev_headers]) (fun k _ d l => l ++ [ev_text k d]).

Definition sample_message : message :=
  mk_message (Request HTTP_POST (str_bytes "/login?user=kim") 1 1) [(str_bytes "Host", str_bytes "example.org"); (Connection, keep_alive)] (str_bytes "hello").

Lemma http_parser_reads_message_witness : exists q,
  http_parser_execute (settings_of log) (print sample_message) (http_parser_init HTTP_BOTH) [] = Some (length (print sample_message), q,
    [ev_note HttpSplit.message_begin; ev_text url (str_bytes "/login?user=kim"); ev_text header_field (str_bytes "Host"); ev_text header_value (str_bytes "example.org");
     ev_text header_field Connection; ev_text header_value keep_alive; ev_text header_field Content_Length; ev_text header_value (str_bytes "5"); ev_headers;
     ev_text body (str_bytes "hello"); ev_note HttpSplit.message_complete_]).
Proof.
  destruct (http_parser_reads_message log sample_message []) as (q & begun & E & _).
  - split; [| by vm_compute | by vm_compute | by vm_compute]. split_and!; try done. by exists (str_bytes "login?user=kim").
  - exists q. rewrite E. reflexivity.
Defined.
End HttpMessage.
