(* ===== verification/CodecHttp.v ===== *)
(** The HTTP codec: [codec/codec_http.cpp] over the parser and the buffers.

    [decode] starts a new parser for every call, gives it all bytes of the
    buffer, and writes to the message in the callbacks.  [encode] prints a
    message into the buffer.  The message is the protobuf message [HttpMsg].

    [None] is undefined behaviour of the code. *)

From Stdlib Require Import SpecFloat.
From S2P Require Import Prelude SocketBuffer Proto CodecProto Util CFloat HttpParser HttpParserSafe HttpUrl.

#[local] Open Scope Z_scope.
#[local] Notation "a ≟ b" := (Ascii.eqb a b) (at level 70).

(** [atof] of the C library. *)
Module Atof.
Import CFloat Util.

Definition isspace (c : ascii) : bool := (uchar c =? 32) || ((9 <=? uchar c) && (uchar c <=? 13)).
Definition isdigit (c : ascii) : bool := (48 <=? uchar c) && (uchar c <=? 57).
Definition xdigit (c : ascii) : option Z :=
  let c := uchar (Codec.tolower c) in
  if (48 <=? c) && (c <=? 57) then Some (c - 48) else if (97 <=? c) && (c <=? 102) then Some (c - 87) else None.

Fixpoint skip_space (l : bytes) : bytes := match l with c :: l' => if isspace c then skip_space l' else l | [] => [] end.

(** Digits in front: their value, how many there are, and the rest. *)
Fixpoint digits (digit : ascii -> option Z) (base : Z) (v n : Z) (l : bytes) : Z * Z * bytes :=
  match l with
  | c :: l' => match digit c with Some d => digits digit base (v * base + d) (n + 1) l' | None => (v, n, l) end
  | [] => (v, n, [])
  end.
Definition decimal (c : ascii) : option Z := if isdigit c then Some (uchar c - 48) else None.

(** Digits with a point: the digits as a number, how many are behind the
    point, how many there are at all, and the rest. *)
Definition mantissa (digit : ascii -> option Z) (base : Z) (l : bytes) : Z * Z * Z * bytes :=
  let '(v, n, l) := digits digit base 0 0 l in
  match l with
  | c :: l' => if c ≟ "." then let '(w, m, l2) := digits digit base v 0 l' in if n + m =? 0 then (v, 0, 0, l) else (w, m, n + m, l2) else (v, 0, n, l)
  | [] => (v, 0, n, l)
  end.

(** An exponent behind the letter [x], or 0. *)
Definition exponent (x : ascii) (l : bytes) : Z :=
  match l with
  | c :: l =>
      if Codec.tolower c ≟ x then
        let '(neg, l) := match l with c :: l' => if c ≟ "-" then (true, l') else if c ≟ "+" then (false, l') else (false, l) | [] => (false, []) end in
        let '(v, _, _) := digits decimal 10 0 0 l in if (neg : bool) then - v else v
      else 0
  | [] => 0
  end.

(** The double nearest to [n * 10 ^ k].  With a negative [k] the quotient is
    taken with 64 bits more than a double has, and one bit for the rest; what is
    below all doubles and above all doubles is cut off. *)
Definition dec_double (n k : Z) : double :=
  if n =? 0 then S754_zero false
  else if 0 <=? k then (if 400 <? k then S754_infinity false else to_double (n * 10 ^ k) 0)
  else if Z.log2 n + 1 + 3 * k <? -1200 then S754_zero false
  else
    let d := 10 ^ (- k) in
    let s := Z.log2 d + 128 in
    let q := n * 2 ^ s / d in
    to_double (2 * q + (if n * 2 ^ s mod d =? 0 then 0 else 1)) (- s - 1).

Definition neg_if (b : bool) (f : double) : double := if b then SFopp f else f.

Definition starts (w : string) (l : bytes) : bool := bool_decide (take (String.length w) (Codec.tolower <$> l) = str_bytes w).

Definition atof (s : bytes) : double :=
  let l := skip_space (c_cut s) in
  let '(neg, l) := match l with c :: l' => if c ≟ "-" then (true, l') else if c ≟ "+" then (false, l') else (false, l) | [] => (false, []) end in
  neg_if neg
    (if starts "inf" l then S754_infinity false
     else if starts "nan" l then S754_nan
     else
       let '(v, m, n, r) := mantissa xdigit 16 (drop 2 l) in
       if starts "0x" l && negb (n =? 0) then to_double v (exponent "p" r - 4 * m)
       else
         let '(v, m, n, r) := mantissa decimal 10 l in
         if n =? 0 then S754_zero false else dec_double v (exponent "e" r - m)).

(** Conversions of [float]. *)
Definition float_of_u64 (n : Z) : spec_float := binary_normalize 24 128 n 0 false.
Definition u64_of_float (f : spec_float) : option Z := v ← trunc f; if (0 <=? v) && (v <? 2 ^ 64) then Some v else None.
Definition float_ge0 (f : spec_float) : bool := match f with S754_nan => false | S754_zero _ => true | S754_infinity s | S754_finite s _ _ => negb s end.
End Atof.

Module CodecHttp.
Import SocketBuffer Codec HttpParser HttpUrl Atof.

(** ** The message *)

Record HttpMsg := mk_msg {
  msg_type : Z; msg_major : Z; msg_minor : Z; msg_content_length : Z; msg_method : Z; msg_status : Z; msg_encoding : Z;
  msg_url : bytes; msg_headers : gmap bytes bytes; msg_body : bytes; msg_params : gmap bytes bytes; msg_keep_alive : spec_float; msg_path : bytes;
  msg_decoding : bool }.

Definition empty_msg : HttpMsg := mk_msg 0 0 0 0 0 0 0 [] ∅ [] ∅ (S754_zero false) [] false.

Definition set_type v m := mk_msg v (msg_major m) (msg_minor m) (msg_content_length m) (msg_method m) (msg_status m) (msg_encoding m) (msg_url m) (msg_headers m) (msg_body m) (msg_params m) (msg_keep_alive m) (msg_path m) (msg_decoding m).
Definition set_version a b m := mk_msg (msg_type m) a b (msg_content_length m) (msg_method m) (msg_status m) (msg_encoding m) (msg_url m) (msg_headers m) (msg_body m) (msg_params m) (msg_keep_alive m) (msg_path m) (msg_decoding m).
Definition set_msg_method v m := mk_msg (msg_type m) (msg_major m) (msg_minor m) (msg_content_length m) v (msg_status m) (msg_encoding m) (msg_url m) (msg_headers m) (msg_body m) (msg_params m) (msg_keep_alive m) (msg_path m) (msg_decoding m).
Definition set_status v m := mk_msg (msg_type m) (msg_major m) (msg_minor m) (msg_content_length m) (msg_method m) v (msg_encoding m) (msg_url m) (msg_headers m) (msg_body m) (msg_params m) (msg_keep_alive m) (msg_path m) (msg_decoding m).
Definition set_url v m := mk_msg (msg_type m) (msg_major m) (msg_minor m) (msg_content_length m) (msg_method m) (msg_status m) (msg_encoding m) v (msg_headers m) (msg_body m) (msg_params m) (msg_keep_alive m) (msg_path m) (msg_decoding m).
Definition set_headers v m := mk_msg (msg_type m) (msg_major m) (msg_minor m) (msg_content_length m) (msg_method m) (msg_status m) (msg_encoding m) (msg_url m) v (msg_body m) (msg_params m) (msg_keep_alive m) (msg_path m) (msg_decoding m).
Definition set_body v m := mk_msg (msg_type m) (msg_major m) (msg_minor m) (msg_content_length m) (msg_method m) (msg_status m) (msg_encoding m) (msg_url m) (msg_headers m) v (msg_params m) (msg_keep_alive m) (msg_path m) (msg_decoding m).
Definition set_params v m := mk_msg (msg_type m) (msg_major m) (msg_minor m) (msg_content_length m) (msg_method m) (msg_status m) (msg_encoding m) (msg_url m) (msg_headers m) (msg_body m) v (msg_keep_alive m) (msg_path m) (msg_decoding m).
Definition set_msg_keep_alive v m := mk_msg (msg_type m) (msg_major m) (msg_minor m) (msg_content_length m) (msg_method m) (msg_status m) (msg_encoding m) (msg_url m) (msg_headers m) (msg_body m) (msg_params m) v (msg_path m) (msg_decoding m).
Definition set_path v m := mk_msg (msg_type m) (msg_major m) (msg_minor m) (msg_content_length m) (msg_method m) (msg_status m) (msg_encoding m) (msg_url m) (msg_headers m) (msg_body m) (msg_params m) (msg_keep_alive m) v (msg_decoding m).
Definition set_decoding v m := mk_msg (msg_type m) (msg_major m) (msg_minor m) (msg_content_length m) (msg_method m) (msg_status m) (msg_encoding m) (msg_url m) (msg_headers m) (msg_body m) (msg_params m) (msg_keep_alive m) (msg_path m) v.

(** [enum http_parser_type] as a number. *)
Definition HTTP_REQUEST_ : Z := 0.
Definition HTTP_RESPONSE_ : Z := 1.

(** ** Parameters of a query *)

Fixpoint params_loop (s : bytes) (is_value : bool) (key value : bytes) (params : gmap bytes bytes) : gmap bytes bytes :=
  let store := match key with [] => params | _ => <[key := value]> params end in
  match s with
  | [] => store
  | c :: s =>
      if c ≟ "&" then params_loop s false [] [] store
      else if c ≟ "=" then params_loop s true key value params
      else if is_value then params_loop s is_value key (value ++ [c]) params
      else params_loop s is_value (key ++ [c]) value params
  end.

Definition decode_params (s : bytes) : gmap bytes bytes := params_loop s false [] [] ∅.


(** ** The callbacks *)

(** The filters of the compression library; [None] is the exception
    [InvalidDataFormat]. *)
Class Zip := { deflate : bytes -> option bytes; inflate : bytes -> option bytes }.

Section codec.
Context `{Malloc} `{Zip}.

(** What is in a [struct http_parser_url] on the stack before it is written. *)
Context (stack_url : http_parser_url).

(** [Codec::gzip], [Codec::ungzip]: the result and [dst]. *)
Definition gzip (src : bytes) : bool * bytes := match deflate src with Some d => (true, d) | None => (false, []) end.
Definition ungzip (src : bytes) : bool * bytes := match inflate src with Some d => (true, d) | None => (false, []) end.

(** [strncpy(dst, src, n)]: [n] bytes in any case. *)
Definition strncpy (src : bytes) (n : nat) : bytes := let s := take n (Util.c_cut src) in s ++ replicate (n - length s) NUL.

(** The object of the callbacks is the message, or nothing after undefined
    behaviour. *)
Definition object : Type := option HttpMsg.
Definition notify (f : http_parser -> HttpMsg -> HttpMsg) : http_cb object := fun q u => (0, q, f q <$> u).
Definition receive (f : http_parser -> bytes -> HttpMsg -> option HttpMsg) : http_data_cb object := fun q d u => (0, q, u ≫= f q d).

Definition on_message_begin (q : http_parser) (msg : HttpMsg) : HttpMsg := set_decoding true msg.

Definition on_url (q : http_parser) (at_ : bytes) (msg : HttpMsg) : option HttpMsg :=
  let msg := set_url at_ msg in
  '(r, u) ← http_parser_parse_url at_ false stack_url;
  if r =? 0 then
    msg ← (if is_set UF_PATH u then
             let n := len u UF_PATH in
             _ ← malloc n;
             Some (set_path (strncpy (drop (Z.to_nat (off u UF_PATH)) at_) (Z.to_nat n)) msg)
           else Some msg);
    Some (if is_set UF_QUERY u then
            let query := take (Z.to_nat (len u UF_QUERY)) (drop (Z.to_nat (off u UF_QUERY)) at_) in
            set_params (decode_params query ∪ msg_params msg) msg
          else msg)
  else Some msg.

Definition on_status (q : http_parser) (at_ : bytes) (msg : HttpMsg) : option HttpMsg := Some (set_status (status_code q) msg).

Definition on_header_field (q : http_parser) (at_ : bytes) (msg : HttpMsg) : option HttpMsg := Some (set_body at_ msg).

Definition on_header_value (q : http_parser) (value : bytes) (msg : HttpMsg) : option HttpMsg :=
  let header := msg_body msg in
  let msg := set_headers (<[header := value]> (msg_headers msg)) (set_body [] msg) in
  Some (if bool_decide (header = str_bytes "Keep-Alive") then set_msg_keep_alive (CFloat.to_float (atof value)) msg
        else if bool_decide (header = str_bytes "Connection") then
          if bool_decide (value = str_bytes "keep-alive") then set_msg_keep_alive (S754_zero false) msg
          else if bool_decide (value = str_bytes "close") then set_msg_keep_alive (S754_zero false) msg
          else msg
        else msg).

Definition on_body (q : http_parser) (at_ : bytes) (msg : HttpMsg) : option HttpMsg :=
  Some (if 0 <? zlen (msg_body msg) then set_body (msg_body msg ++ at_) msg else set_body at_ msg).

Definition on_headers_complete (q : http_parser) (msg : HttpMsg) : HttpMsg := msg.
Definition on_chunk_header (q : http_parser) (msg : HttpMsg) : HttpMsg := msg.
Definition on_chunk_complete (q : http_parser) (msg : HttpMsg) : HttpMsg := msg.

Definition on_message_complete (q : http_parser) (msg : HttpMsg) : HttpMsg :=
  let msg := if negb (status_code q =? 0) then set_type HTTP_RESPONSE_ (set_status (status_code q) msg)
             else set_type HTTP_REQUEST_ (set_msg_method (method_num (method q)) msg) in
  let msg := set_decoding false (set_version (http_major q) (http_minor q) msg) in
  if negb (http_should_keep_alive q) then set_msg_keep_alive (S754_zero false) msg else msg.

Definition m_parser_setting : http_parser_settings object :=
  mk_settings (Some (notify on_message_begin)) (Some (receive on_url)) (Some (receive on_status)) (Some (receive on_header_field)) (Some (receive on_header_value))
    (Some (notify on_headers_complete)) (Some (receive on_body)) (Some (notify on_message_complete)) (Some (notify on_chunk_header)) (Some (notify on_chunk_complete)).

(** ** The codec *)

(** The parser is not part of the state: [decode] begins a new one. *)
Record CodecHttp := mk_codec {
  m_http_major : Z; m_http_minor : Z; m_encode_cnt : Z; m_decode_cnt : Z; m_is_client : bool; m_keep_alive : Z; m_http_headers : gmap bytes bytes }.

Definition new_codec (keep_alive : Z) : CodecHttp := mk_codec 1 1 0 0 false keep_alive ∅.
Definition set_http_headers (h : gmap bytes bytes) (c : CodecHttp) : CodecHttp :=
  mk_codec (m_http_major c) (m_http_minor c) (m_encode_cnt c) (m_decode_cnt c) (m_is_client c) (m_keep_alive c) h.

(** [++n] of an [int]. *)
Definition inc_int (n : Z) : option Z := if n <? 2 ^ 31 - 1 then Some (n + 1) else None.

Definition decode (c : CodecHttp) (sbuf : SocketBuffer) (msg : HttpMsg) : option (STATUS * CodecHttp * SocketBuffer * HttpMsg) :=
  if negb (is_readable sbuf) then Some (PAUSE, c, sbuf, msg)
  else
    n ← inc_int (m_decode_cnt c);
    let c := mk_codec (m_http_major c) (m_http_minor c) (m_encode_cnt c) n (m_is_client c) (m_keep_alive c) (m_http_headers c) in
    buffer ← mem_read (m_buffer sbuf) (m_read_idx sbuf) (readable_len sbuf);
    '(len, q, u) ← http_parser_execute m_parser_setting buffer (http_parser_init HTTP_BOTH) (Some msg);
    msg ← u;
    if msg_decoding msg then Some (PAUSE, c, sbuf, msg)
    else if negb (bool_decide (errno q = HPE_OK)) then Some (ERR, c, sbuf, msg)
    else
      let sbuf := advance_read_index sbuf (Z.of_nat len) in
      c ← (if msg_type msg =? HTTP_REQUEST_ then
             k ← u64_of_float (if float_ge0 (msg_keep_alive msg) then msg_keep_alive msg else float_of_u64 (m_keep_alive c));
             Some (mk_codec (msg_major msg) (msg_minor msg) (m_encode_cnt c) (m_decode_cnt c) (m_is_client c) k (m_http_headers c))
           else Some c);
      if bool_decide (msg_headers msg !! str_bytes "Content-Encoding" = Some (str_bytes "gzip")) then
        let '(ok, data) := ungzip (msg_body msg) in
        if ok then Some (OK, c, sbuf, set_body data msg) else Some (ERR, c, sbuf, msg)
      else Some (OK, c, sbuf, msg).


(** *** encode *)

(** [static const char* status_string(int code)]; [None] is the null pointer. *)
Definition status_strings : list (Z * bytes) :=
  [(100, str_bytes "Continue"); (101, str_bytes "Switching Protocols"); (102, str_bytes "Processing"); (200, str_bytes "OK"); (201, str_bytes "Created"); (202, str_bytes "Accepted");
   (203, str_bytes "Non-Authoritative Information"); (204, str_bytes "No Content"); (205, str_bytes "Reset Content"); (206, str_bytes "Partial Content"); (207, str_bytes "Multi-Status");
   (300, str_bytes "Multiple Choices"); (301, str_bytes "Moved Permanently"); (302, str_bytes "Moved Temporarily"); (303, str_bytes "See Other"); (304, str_bytes "Not Modified");
   (305, str_bytes "Use Proxy"); (307, str_bytes "Temporary Redirect"); (400, str_bytes "Bad Request"); (401, str_bytes "Unauthorized"); (402, str_bytes "Payment Required");
   (403, str_bytes "Forbidden"); (404, str_bytes "Not Found"); (405, str_bytes "Method Not Allowed"); (406, str_bytes "Not Acceptable"); (407, str_bytes "Proxy Authentication Required");
   (408, str_bytes "Request Time-out"); (409, str_bytes "Conflict"); (410, str_bytes "Gone"); (411, str_bytes "Length Required"); (412, str_bytes "Precondition Failed");
   (413, str_bytes "Request Entity Too Large"); (414, str_bytes "Request-URI Too Large"); (415, str_bytes "Unsupported Media Type"); (416, str_bytes "Requested Range Not Satisfiable");
   (417, str_bytes "Expectation Failed"); (418, str_bytes "I" ++ ["034"%char] ++ str_bytes "m a teapot"); (422, str_bytes "Unprocessable Entity"); (423, str_bytes "Locked");
   (424, str_bytes "Failed Dependency"); (425, str_bytes "Unordered Collection"); (426, str_bytes "Upgrade Required"); (500, str_bytes "Internal Server Error");
   (501, str_bytes "Not Implemented"); (502, str_bytes "Bad Gateway"); (503, str_bytes "Service Unavailable"); (504, str_bytes "Gateway Time-out"); (505, str_bytes "HTTP Version not supported");
   (506, str_bytes "Variant Also Negotiates"); (507, str_bytes "Insufficient Storage"); (509, str_bytes "Bandwidth Limit Exceeded"); (510, str_bytes "Not Extended")].
Definition status_string (code : Z) : option bytes := (fun r => snd (snd r)) <$> list_find (fun r => fst r = code) status_strings.

(** [%u], [%d] and [%x]. *)
Definition fmt_u (n : Z) : bytes := CFloat.digits_of (u32 n).
Definition fmt_d (n : Z) : bytes := CFloat.digits_of (i32 n).
Definition hex_digit (d : Z) : ascii := char_of (if d <? 10 then 48 + d else 87 + d).
Fixpoint hex_loop (fuel : nat) (n : Z) (acc : bytes) : bytes :=
  match fuel with
  | O => acc
  | S fuel => let acc := hex_digit (n mod 16) :: acc in if n / 16 =? 0 then acc else hex_loop fuel (n / 16) acc
  end.
Definition fmt_x (n : Z) : bytes := hex_loop 8 (u32 n) [].
Definition crlf : bytes := [CR; LF].

(** [std::string::substr]; it throws when [pos] is behind the end. *)
Definition substr (s : bytes) (pos n : Z) : option bytes := if pos <=? zlen s then Some (take (Z.to_nat n) (drop (Z.to_nat pos) s)) else None.
Definition npos : Z := 2 ^ 64 - 1.
Definition find_first_of (c : ascii) (s : bytes) : Z := match list_find (eq c) s with Some (i, _) => Z.of_nat i | None => npos end.

(** The buffer and [writed_len]; [CHECK_WRITE] leaves for the label [error],
    which is [false]. *)
Definition written : Type := bool * SocketBuffer * Z.
Definition and_then (x : option written) (k : SocketBuffer -> Z -> option written) : option written := '(ok, b, n) ← x; if (ok : bool) then k b n else Some (false, b, n).
Definition checked (r : option (Z * SocketBuffer)) (n : Z) : option written := '(size, b) ← r; if size <? 0 then Some (false, b, n) else Some (true, b, i32 (n + size)).
Definition _printf (text : bytes) (b : SocketBuffer) (n : Z) : option written := checked (_vprintf b text) n.
Definition put_bytes (d : bytes) (b : SocketBuffer) (n : Z) : option written := checked (_write b d) n.

Definition request_line (msg : HttpMsg) (b : SocketBuffer) : option written :=
  let url := msg_url msg in
  '(r, u) ← http_parser_parse_url url false stack_url;
  if negb (r =? 0) then Some (false, b, 0)
  else
    let port_ := if is_set UF_PORT u then port u else 80 in
    host ← (if is_set UF_HOST u then substr url (off u UF_HOST) (len u UF_HOST) else Some []);
    host ← (if is_set UF_PATH u then substr url (off u UF_PATH) (len u UF_PATH) else Some host);
    schema ← substr url 0 (find_first_of ":" url);
    let port_ := if bool_decide (schema = str_bytes "https") then 443 else port_ in
    if zlen url <=? off u UF_PATH then Some (false, b, 0)
    else
      path ← substr url (off u UF_PATH) npos;
      and_then (_printf (http_method_str (msg_method msg) ++ str_bytes " " ++ Util.c_cut path ++ str_bytes " HTTP/" ++ fmt_u (msg_major msg) ++ str_bytes "." ++ fmt_u (msg_minor msg) ++ crlf) b 0) (fun b n =>
      _printf (str_bytes "Host: " ++ Util.c_cut host ++ str_bytes ":" ++ fmt_d port_ ++ crlf) b n).

Definition status_line (c : CodecHttp) (msg : HttpMsg) (b : SocketBuffer) : option written :=
  if msg_status msg =? 0 then Some (false, b, 0)
  else
    text ← status_string (msg_status msg);
    _printf (str_bytes "HTTP/" ++ fmt_u (m_http_major c) ++ str_bytes "." ++ fmt_u (m_http_minor c) ++ str_bytes " " ++ fmt_u (msg_status msg) ++ str_bytes " " ++ text ++ crlf) b 0.

(** The headers that a response always has. *)
Definition own_headers (c : CodecHttp) (h : gmap bytes bytes) : gmap bytes bytes :=
  let h := if negb (m_is_client c) then <[str_bytes "Connection" := if m_keep_alive c =? 0 then str_bytes "close" else str_bytes "keep-alive"]> h else h in
  <[str_bytes "Server" := str_bytes "KimHttp"]> (<[str_bytes "Allow" := str_bytes "POST,GET"]> h).

(** The headers of the message, in the order in which they come. *)
Fixpoint merge_headers (l : list (bytes * bytes)) (h : gmap bytes bytes) : gmap bytes bytes :=
  match l with
  | [] => h
  | (k, v) :: l =>
      if bool_decide (k = str_bytes "Host") || bool_decide (k = str_bytes "Content-Length") then merge_headers l h
      else match h !! k with Some _ => merge_headers l (<[k := v]> h) | None => merge_headers l h end
  end.

(** [is_gzip] and [is_chunked]. *)
Definition gzip_header (l : list (bytes * bytes)) : bool := existsb (fun '(k, v) => bool_decide (k = str_bytes "Content-Encoding") && bool_decide (v = str_bytes "gzip")) l.
Definition chunked_header (l : list (bytes * bytes)) : bool := existsb (fun '(k, v) => bool_decide (k = str_bytes "Transfer-Encoding") && bool_decide (v = str_bytes "chunked")) l.

Fixpoint print_headers (l : list (bytes * bytes)) (b : SocketBuffer) (n : Z) : option written :=
  match l with
  | [] => Some (true, b, n)
  | (k, v) :: l => and_then (_printf (Util.c_cut k ++ str_bytes ": " ++ Util.c_cut v ++ crlf) b n) (print_headers l)
  end.

(** [sbuf->set_write_index(sbuf->write_index() - writed_len)] *)
Definition rewind (b : SocketBuffer) (n : Z) : SocketBuffer := set_write_index b (u64 (m_write_idx b - n)).

(** The empty line of a chunked message, or nothing but its next chunk. *)
Definition chunk_start (msg : HttpMsg) (keep : bool) (b : SocketBuffer) (n : Z) : option written :=
  if msg_encoding msg =? 0 then _printf crlf b n else Some (true, rewind b n, if keep then n else 0).

Definition print_body (msg : HttpMsg) (is_gzip is_chunked : bool) (b : SocketBuffer) (n : Z) : option written :=
  if 0 <? zlen (msg_body msg) then
    let '(failed, gzip_data) := if is_gzip then gzip (msg_body msg) else (false, []) in
    if (failed : bool) then Some (false, b, n)
    else
      let data := if 0 <? zlen gzip_data then gzip_data else msg_body msg in
      if is_chunked then
        and_then (chunk_start msg false b n) (fun b n =>
        and_then (if 0 <? zlen data then and_then (_printf (fmt_x (zlen data) ++ crlf) b n) (put_bytes data) else Some (true, b, n)) (fun b n =>
        _printf (crlf ++ str_bytes "0" ++ crlf ++ crlf) b n))
      else
        and_then (_printf (str_bytes "Content-Length: " ++ fmt_u (zlen data) ++ crlf ++ crlf) b n) (put_bytes data)
  else if is_chunked then and_then (chunk_start msg true b n) (_printf (str_bytes "0" ++ crlf ++ crlf))
  else _printf (str_bytes "Content-Length: 0" ++ crlf ++ crlf) b n.

(** The orders in which the two maps are walked through. *)
Context (msg_order codec_order : gmap bytes bytes -> list (bytes * bytes)).

Definition start_line (c : CodecHttp) (msg : HttpMsg) (b : SocketBuffer) : option (written * gmap bytes bytes) :=
  if msg_type msg =? HTTP_REQUEST_ then w ← request_line msg b; Some (w, m_http_headers c)
  else if msg_type msg =? HTTP_RESPONSE_ then
    w ← status_line c msg b;
    Some (w, if fst (fst (w : written)) then own_headers c (m_http_headers c) else m_http_headers c)
  else Some (true, b, 0, m_http_headers c).

Definition encode (c : CodecHttp) (msg : HttpMsg) (sbuf : SocketBuffer) : option (STATUS * CodecHttp * SocketBuffer) :=
  n ← inc_int (m_encode_cnt c);
  let c := mk_codec (m_http_major c) (m_http_minor c) n (m_decode_cnt c) (m_is_client c || (m_decode_cnt c <? n)) (m_keep_alive c) (m_http_headers c) in
  if (msg_major msg =? 0) || ((msg_type msg =? HTTP_REQUEST_) && (zlen (msg_url msg) =? 0)) then Some (ERR, set_http_headers ∅ c, sbuf)
  else
    '(w, headers) ← start_line c msg sbuf;
    let headers := merge_headers (msg_order (msg_headers msg)) headers in
    let order := codec_order headers in
    '(ok, b, n) ← and_then (Some w) (fun b n =>
      and_then (print_headers order b n) (fun b n =>
      print_body msg (gzip_header order) (chunked_header order) b n));
    if (ok : bool) then
      (* m_http_headers.clear(); CHECK_WRITE(size = sbuf->write_byte('\\0')) *)
      '(size, b) ← write_byte b NUL;
      if size <? 0 then Some (ERR, set_http_headers ∅ c, rewind b n)
      else Some (OK, set_http_headers ∅ c, set_write_index b (u64 (m_write_idx b - size)))
    else Some (ERR, set_http_headers ∅ c, rewind b n).

(** *** The framing of the internal protocol, which this codec refuses *)

Definition encode_proto (head : Pb.MsgHead) (body : Pb.MsgBody) (sbuf : SocketBuffer) : STATUS * SocketBuffer := (ERR, sbuf).
Definition decode_proto (sbuf : SocketBuffer) (head : Pb.MsgHead) (body : Pb.MsgBody) : STATUS * SocketBuffer * Pb.MsgHead * Pb.MsgBody := (ERR, sbuf, head, body).

(** [int keep_alive() { return m_keep_alive; }] *)
Definition get_keep_alive (c : CodecHttp) : Z := i32 (m_keep_alive c).

(** *** to_string *)

Definition to_string (msg : HttpMsg) : bytes :=
  let prover := str_bytes "HTTP/" ++ fmt_u (msg_major msg) ++ str_bytes "." ++ fmt_u (msg_minor msg) in
  (if msg_type msg =? HTTP_REQUEST_ then http_method_str (msg_method msg) ++ str_bytes " " ++ msg_url msg ++ str_bytes " " ++ prover ++ crlf
   else prover ++ (if 0 <? msg_status msg then crlf ++ fmt_d (msg_status msg) ++ crlf else [])) ++
  concat ((fun '(k, v) => k ++ str_bytes ":" ++ v ++ crlf) <$> msg_order (msg_headers msg)) ++ crlf ++
  (if 0 <? zlen (msg_body msg) then msg_body msg ++ crlf ++ crlf else []).

End codec.
End CodecHttp.
