(* ===== verification/CodecHttpSpec.v ===== *)
(** What the HTTP codec promises.

    A printed request or response ([HttpMessage]) is decoded into the message
    it stands for; a response that is encoded is decoded into the status, the
    version and the body it was made of.  Any other bytes are decoded without
    undefined behaviour, but for the conversion of a [Keep-Alive] that is out
    of range, and bytes that are no complete message stay in the buffer. *)

From Stdlib Require Import SpecFloat.
From S2P Require Import Prelude SocketBuffer CodecProto Util CFloat CJsonText HttpParser HttpParserSafe HttpSplit HttpUrl HttpMessage CodecHttp.

#[local] Open Scope Z_scope.

Module CodecHttpSpec.
Import SocketBuffer Codec Util HttpParser HttpUrl HttpMessage CodecHttp.

Section spec.
Context `{MallocSpec} `{Zip} (stack_url : http_parser_url).
Implicit Types (c : CodecHttp) (b : SocketBuffer) (msg : HttpMsg) (m : message).

(** ** The callbacks as a handler *)

Definition codec_handler : handler object :=
  mk_handler
    (fun n q u => match n with
                  | HttpSplit.message_begin => CodecHttp.on_message_begin q <$> u
                  | HttpSplit.message_complete_ => CodecHttp.on_message_complete q <$> u
                  | HttpSplit.chunk_header => CodecHttp.on_chunk_header q <$> u
                  | HttpSplit.chunk_complete => CodecHttp.on_chunk_complete q <$> u
                  end)
    (fun q u => CodecHttp.on_headers_complete q <$> u)
    (fun k q d u => u ≫= match k with
                         | url => CodecHttp.on_url stack_url q d
                         | status => CodecHttp.on_status q d
                         | header_field => CodecHttp.on_header_field q d
                         | header_value => CodecHttp.on_header_value q d
                         | body => CodecHttp.on_body q d
                         end).

Lemma codec_settings : settings_of codec_handler = m_parser_setting stack_url.
Proof. reflexivity. Qed.

(** ** What the callbacks make of a printed message *)

Lemma add_field_eval q q' k x msg : msg_body msg = [] -> msg_keep_alive msg = S754_zero false -> k <> str_bytes "Keep-Alive" ->
  (CodecHttp.on_header_field q k msg ≫= CodecHttp.on_header_value q' x) = Some (set_headers (<[k := x]> (msg_headers msg)) msg).
Proof.
  intros B K N. destruct msg as [ty ma mi cl me st en ur he bo pa ka ph de]. cbn in B, K. subst bo ka. unfold CodecHttp.on_header_field, CodecHttp.on_header_value. cbn -[bool_decide].
  rewrite (bool_decide_false _ N). by repeat match goal with |- context [bool_decide ?P] => destruct (bool_decide P) end.
Qed.

Definition add_fields (l : list (bytes * bytes)) (h : gmap bytes bytes) : gmap bytes bytes := fold_left (fun h f => <[fst f := snd f]> h) l h.

Lemma tell_fields l v msg : msg_body msg = [] -> msg_keep_alive msg = S754_zero false -> str_bytes "Keep-Alive" ∉ l.*1 ->
  snd (fold_left (tell codec_handler) l (v, Some msg : object)) = Some (set_headers (add_fields l (msg_headers msg)) msg).
Proof.
  revert v msg. induction l as [|[k x] l IH]; intros v msg B K N; [by destruct msg |]. cbn [fmap list_fmap fst] in N. apply not_elem_of_cons in N as [N1 N].
  cbn [fold_left]. unfold tell at 2. cbn [fst snd codec_handler on_text mbind option_bind].
  change (snd (fold_left (tell codec_handler) l (effect (k, x) v, CodecHttp.on_header_field v k msg ≫= CodecHttp.on_header_value v x)) = Some (set_headers (add_fields ((k, x) :: l) (msg_headers msg)) msg)).
  rewrite add_field_eval by done. rewrite IH; done.
Qed.

Lemma parser_of_fields l v u : exists f, fst (fold_left (tell codec_handler) l (v, u)) = set_flags f v.
Proof.
  revert v u. induction l as [|k l IH]; intros v u; [exists (flags v); by destruct v |]. cbn [fold_left]. unfold tell at 2. cbn [fst snd].
  destruct (IH (effect k v) (on_text codec_handler header_value v k.2 (on_text codec_handler header_field v k.1 u))) as [f ->]. unfold effect. destruct (bool_decide _); by exists f.
Qed.

(** The message behind the callbacks, for a client that knew nothing. *)
Definition finished (v : http_parser) (l : list (bytes * bytes)) (d : bytes) (msg : HttpMsg) : HttpMsg :=
  CodecHttp.on_message_complete v (set_body d (set_headers (<[Content_Length := decimal (zlen d)]> (add_fields l (msg_headers msg))) msg)).

Lemma tell_rest_eval l d v msg : msg_body msg = [] -> msg_keep_alive msg = S754_zero false -> str_bytes "Keep-Alive" ∉ l.*1 ->
  exists f, tell_rest codec_handler l d v (Some msg) = Some (finished (set_upgrade false (set_content_length 0 (set_flags f v))) l d msg).
Proof.
  intros B K N. unfold tell_rest. pose proof (tell_fields l v msg B K N) as E. destruct (parser_of_fields l v (Some msg)) as [f Ef].
  destruct (fold_left (tell codec_handler) l (v, Some msg : object)) as [v1 u1]. simpl in E, Ef. rewrite E, Ef. clear E Ef. set (msg1 := set_headers _ msg).
  exists (Z.lor f F_CONTENTLENGTH). 
  assert (forall q q', (CodecHttp.on_header_field q Content_Length msg1 ≫= CodecHttp.on_header_value q' (decimal (zlen d))) =
    Some (set_headers (<[Content_Length := decimal (zlen d)]> (msg_headers msg1)) msg1)) as E by (intros; by apply add_field_eval).
  cbn [codec_handler on_text on_headers on_note mbind option_bind]. rewrite E. unfold finished. set (msg2 := set_headers _ msg1).
  change (set_headers (<[Content_Length := decimal (zlen d)]> (add_fields l (msg_headers msg))) msg) with msg2. assert (msg_body msg2 = []) as B2 by exact B.
  assert (forall q, CodecHttp.on_body q d msg2 = Some (set_body d msg2)) as Eb by (intros; unfold CodecHttp.on_body; by rewrite B2).
  destruct (Z.eqb_spec (zlen d) 0) as [Z0 | _]; [| cbn [fmap option_fmap option_map mbind option_bind]; unfold CodecHttp.on_headers_complete; by rewrite Eb]. destruct d as [|x d]; [| unfold zlen in Z0; cbn in Z0; lia].
  assert (set_body [] msg2 = msg2) as -> by (rewrite <- B2; by destruct msg2). done.
Qed.

(** ** Decoding a printed message *)

Lemma c_cut_app x y : NUL ∉ x -> c_cut (x ++ y) = x ++ c_cut y.
Proof. intros N. induction x as [|c x IH]; [done |]. apply not_elem_of_cons in N as [N1 N]. cbn [app c_cut]. rewrite bool_decide_false by (by intros ->). by rewrite IH. Qed.

Lemma strncpy_part x src n : take n src = x -> length x = n -> NUL ∉ x -> strncpy src n = x.
Proof.
  intros E L N. unfold strncpy. rewrite <- (take_drop n src), E, c_cut_app by done. rewrite take_app_le, take_ge by lia. by rewrite L, Nat.sub_diag, app_nil_r.
Qed.

(** What [on_url] does with a path and a query. *)
Lemma on_url_eval q t msg : wf_target t -> t_auth t = None -> zlen (show_url t) <= 65535 -> alloc_ok 65535 -> NUL ∉ t_path t ->
  CodecHttp.on_url stack_url q (show_url t) msg =
  Some (let msg := set_path (t_path t) (set_url (show_url t) msg) in
        match nonempty (t_query t) with Some query => set_params (decode_params query ∪ msg_params msg) msg | None => msg end).
Proof.
  intros W A L Al Nn. unfold CodecHttp.on_url. destruct (parse_url_parts t stack_url W L) as (u & E & _ & P). destruct (parse_url_safe (show_url t) false stack_url) as (r & u' & E' & Wi).
  rewrite E in E'. injection E' as <- <-. specialize (Wi eq_refl). rewrite E. cbn [mbind option_bind]. change (0 =? 0) with true. cbv iota.
  pose proof (P UF_PATH) as Pp. pose proof (P UF_QUERY) as Pq. unfold field_text in Pp, Pq. cbn [url_text] in Pp, Pq.
  pose proof (wt_auth _ W) as Ne. rewrite A in Ne. assert (nonempty (Some (t_path t)) = Some (t_path t)) as Np by (by destruct (t_path t)). rewrite Np in Pp.
  destruct (is_set UF_PATH u) eqn:Sp; [| done]. injection Pp as Pp. destruct (Wi _ Sp) as (O1 & O2 & O3). cbn in O3.
  destruct (malloc (len u UF_PATH)) eqn:Ml; [| by destruct (Al (len u UF_PATH)); [lia |]]. cbn [mbind option_bind].
  rewrite (strncpy_part (t_path t)); [| done | rewrite <- Pp, length_take, length_drop; unfold zlen in *; lia | done].
  destruct (is_set UF_QUERY u); rewrite <- Pq; done.
Qed.

Lemma finished_fields v l d msg : let msg' := finished v l d msg in
  msg_decoding msg' = false /\ msg_headers msg' = <[Content_Length := decimal (zlen d)]> (add_fields l (msg_headers msg)) /\ msg_body msg' = d /\
  msg_major msg' = http_major v /\ msg_minor msg' = http_minor v /\ msg_url msg' = msg_url msg /\ msg_path msg' = msg_path msg /\ msg_params msg' = msg_params msg /\
  (msg_keep_alive msg = S754_zero false -> msg_keep_alive msg' = S754_zero false) /\
  (if status_code v =? 0 then msg_type msg' = HTTP_REQUEST_ /\ msg_method msg' = method_num (method v) else msg_type msg' = HTTP_RESPONSE_ /\ msg_status msg' = status_code v).
Proof. unfold finished, CodecHttp.on_message_complete. cbn zeta. destruct (status_code v =? 0), (http_should_keep_alive v); cbn; split_and!; done. Qed.

Lemma add_fields_none k l h : k ∉ l.*1 -> h !! k = None -> add_fields l h !! k = None.
Proof.
  revert h. induction l as [|[k' x] l IH]; intros h N E; [done |]. cbn [fmap list_fmap fst] in N. apply not_elem_of_cons in N as [N1 N]. cbn [add_fields fold_left]. apply IH; [done |].
  rewrite lookup_insert_ne; [done | simpl in *; congruence].
Qed.

(** The codec behind a message. *)
Definition after_decode c (msg : HttpMsg) : CodecHttp :=
  if msg_type msg =? HTTP_REQUEST_ then mk_codec (msg_major msg) (msg_minor msg) (m_encode_cnt c) (m_decode_cnt c + 1) (m_is_client c) 0 (m_http_headers c)
  else mk_codec (m_http_major c) (m_http_minor c) (m_encode_cnt c) (m_decode_cnt c + 1) (m_is_client c) (m_keep_alive c) (m_http_headers c).

Lemma decode_printed c b m msg1 : wf b -> contents b = print m -> message_ok m -> m_decode_cnt c < 2 ^ 31 - 1 ->
  (forall begun, tell_start codec_handler begun (start m) (Some empty_msg) = Some msg1) -> msg_body msg1 = [] -> msg_headers msg1 = ∅ -> msg_keep_alive msg1 = S754_zero false ->
  str_bytes "Keep-Alive" ∉ (fields m).*1 -> str_bytes "Content-Encoding" ∉ (fields m).*1 ->
  exists f b', let msg := finished (set_upgrade false (set_content_length 0 (set_flags f (start_parser (start m))))) (fields m) (content m) msg1 in
    decode stack_url c b empty_msg = Some (OK, after_decode c msg, b', msg) /\ wf b' /\ contents b' = [].
Proof.
  intros W Cb Mo Dc Ts B1 H1' K1 Nk Ne. destruct (http_message codec_handler m (Some empty_msg) Mo) as (q & begun & Ex & Eo). rewrite codec_settings in Ex.
  unfold tell_message in Ex. rewrite Ts in Ex. destruct (tell_rest_eval (fields m) (content m) (start_parser (start m)) msg1 B1 K1 Nk) as [f Ef]. rewrite Ef in Ex. exists f.
  set (msg := finished _ _ _ _) in *. pose proof (finished_fields (set_upgrade false (set_content_length 0 (set_flags f (start_parser (start m))))) (fields m) (content m) msg1) as F.
  fold msg in F. destruct F as (F1 & F2 & F3 & F4 & F5 & _ & _ & _ & F9 & _). specialize (F9 K1).
  pose proof (zlen_contents b W) as Lc. assert (0 < zlen (contents b)) as Pos. { rewrite Cb. unfold zlen. pose proof (print_nonempty m). destruct (print m); [done | cbn; lia]. }
  destruct (consume_spec b (zlen (contents b)) W ltac:(lia)) as (Rd & W' & C'). rewrite take_ge in Rd by (unfold zlen; lia). rewrite drop_ge in C' by (unfold zlen; lia).
  eexists. cbn zeta. split; [| split; [exact W' | exact C']].
  unfold decode, is_readable. rewrite (proj2 (Z.ltb_lt _ _)) by lia. cbn [negb]. unfold inc_int. rewrite (proj2 (Z.ltb_lt _ _) Dc). cbn [mbind option_bind].
  rewrite readable_len_contents by done. rewrite Rd. cbn [mbind option_bind]. rewrite Cb, Ex. cbn [mbind option_bind]. rewrite F1. cbv iota. rewrite (bool_decide_true _ Eo). cbn [negb].
  match goal with |- (?x ≫= _) = _ => assert (x = Some (after_decode c msg)) as -> end.
  { unfold after_decode. destruct (msg_type msg =? HTTP_REQUEST_); [| done]. by rewrite F9. }
  cbn [mbind option_bind]. rewrite F2, bool_decide_false; [by rewrite <- Cb |]. rewrite lookup_insert_ne by done. rewrite add_fields_none; [done | done | by rewrite H1'].
Qed.

Lemma url_char_visible x : query_char x = true -> visible x = true.
Proof. intros Q. destruct x as [[] [] [] [] [] [] [] []]; by try discriminate Q. Qed.

Lemma target_visible t : wf_target t -> t_auth t = None -> (NUL ∉ t_path t) /\ exists l, show_url t = "/"%char :: l /\ forallb visible l = true.
Proof.
  intros [Wa [Wp Wc] Wq [Wf _]] A. rewrite A in Wa.
  assert (forall x, all_of query_char x -> forallb visible x = true) as Vq.
  { intros x Hx. apply forallb_forall. intros y Hy. apply list_elem_of_In in Hy. eapply Forall_forall in Hx; [| done]. by apply url_char_visible. }
  assert (forall x, all_of IS_URL_CHAR x -> all_of query_char x) as Uq by (intros x Hx; eapply Forall_impl; [exact Hx |]; intros y Hy; unfold query_char; by rewrite Hy).
  assert (forall x y, opt_of query_char y -> visible x = true -> forallb visible (behind x y) = true) as Vb.
  { intros x [y|] Hy Vx; [| done]. cbn [behind forallb]. by rewrite Vx, Vq. }
  split.
  - intros N. eapply Forall_forall in Wc; [| done]. by vm_compute in Wc.
  - unfold show_url, show_origin. rewrite A. destruct (t_path t) as [|x p]; [done |]. subst x. eexists. split; [reflexivity |]. apply Forall_cons in Wc as [_ Wc].
    rewrite !forallb_app. rewrite Vq by (by apply Uq). by rewrite !Vb.
Qed.

(** A request as it stands in a buffer. *)
Record request_ok (meth : http_method) (t : target) (major minor : Z) (l : list (bytes * bytes)) (d : bytes) : Prop := {
  req_method_ok : meth <> HTTP_CONNECT /\ meth <> HTTP_MSEARCH;
  req_target : wf_target t /\ t_auth t = None /\ zlen (show_url t) <= 65535;
  req_version : 0 <= major <= 9 /\ 0 <= minor <= 9;
  req_fields : forallb field_ok l = true /\ (str_bytes "Keep-Alive" ∉ l.*1) /\ (str_bytes "Content-Encoding" ∉ l.*1);
  req_head : zlen (print_head (mk_message (Request meth (show_url t) major minor) l d)) <= HTTP_MAX_HEADER_SIZE;
  req_body : zlen d < 2 ^ 60 }.

Lemma after_request c msg : msg_type msg = HTTP_REQUEST_ ->
  m_http_major (after_decode c msg) = msg_major msg /\ m_http_minor (after_decode c msg) = msg_minor msg /\
  m_http_headers (after_decode c msg) = m_http_headers c /\ m_encode_cnt (after_decode c msg) = m_encode_cnt c.
Proof. unfold after_decode. intros ->. done. Qed.

Lemma decode_request c b meth t major minor l d : wf b -> alloc_ok 65535 -> m_decode_cnt c < 2 ^ 31 - 1 -> request_ok meth t major minor l d ->
  contents b = print (mk_message (Request meth (show_url t) major minor) l d) ->
  exists b' msg, decode stack_url c b empty_msg = Some (OK, after_decode c msg, b', msg) /\ (wf b' /\ contents b' = []) /\
    (msg_type msg = HTTP_REQUEST_ /\ msg_method msg = method_num meth /\ msg_url msg = show_url t /\ msg_path msg = t_path t /\ msg_params msg = decode_params (default [] (t_query t))) /\
    (msg_major msg = major /\ msg_minor msg = minor) /\
    msg_headers msg = <[Content_Length := decimal (zlen d)]> (add_fields l ∅) /\ msg_body msg = d.
Proof.
  intros W Al Dc [[N1 N2] (Wt & At & Lt) [Ma Mi] (Fo & Nk & Ne) Mh Mb] Cb. destruct (target_visible t Wt At) as [Nn Vt].
  pose (msg0 := set_path (t_path t) (set_url (show_url t) (set_decoding true empty_msg))).
  pose (msg1 := match nonempty (t_query t) with Some query => set_params (decode_params query ∪ msg_params msg0) msg0 | None => msg0 end).
  destruct (decode_printed c b (mk_message (Request meth (show_url t) major minor) l d) msg1) as (f & b' & E & W' & C'); try done.
  - intros begun. unfold tell_start. cbn [start]. change (CodecHttp.on_url stack_url (look (request_method meth (http_parser_init HTTP_BOTH))) (show_url t) (set_decoding true empty_msg) = Some msg1).
    by rewrite on_url_eval.
  - unfold msg1. by destruct (nonempty _).
  - unfold msg1. by destruct (nonempty _).
  - unfold msg1. by destruct (nonempty _).
  - cbn [start fields content] in E. match type of E with context [finished ?v ?l ?d ?m] => pose proof (finished_fields v l d m) as F; set (msg := finished v l d m) in * end.
    destruct F as (_ & F2 & F3 & F4 & F5 & F6 & F7 & F8 & _ & F10). cbn in F4, F5. change (status_code _ =? 0) with true in F10. destruct F10 as [F10 F11].
    exists b', msg. split; [exact E |]. split; [done |].
    rewrite F2, F3, F6, F7, F8, F10, F11. split_and!; try done.
    + unfold msg1. by destruct (nonempty _).
    + unfold msg1. by destruct (nonempty _).
    + unfold msg1, nonempty. destruct (t_query t) as [[|x query]|]; try done. cbn -[decode_params]. by rewrite map_union_empty.
    + unfold msg1. by destruct (nonempty _).
Qed.

(** A request in the buffer is decoded: whatever its method, path, query,
    fields and body are, [decode] answers [OK], takes its bytes out of the
    buffer, and fills the message with the method, the URL, the path, the
    parameters of the query, the version, the fields and the body, and takes
    the version over for its answers. *)
Theorem http_decode_request c b meth t major minor l d : wf b -> alloc_ok 65535 -> m_decode_cnt c < 2 ^ 31 - 1 -> request_ok meth t major minor l d ->
  contents b = print (mk_message (Request meth (show_url t) major minor) l d) ->
  exists c' b' msg, decode stack_url c b empty_msg = Some (OK, c', b', msg) /\ (wf b' /\ contents b' = []) /\
    (msg_type msg = HTTP_REQUEST_ /\ msg_method msg = method_num meth /\ msg_url msg = show_url t /\ msg_path msg = t_path t /\ msg_params msg = decode_params (default [] (t_query t))) /\
    (msg_major msg = major /\ msg_minor msg = minor /\ m_http_major c' = major /\ m_http_minor c' = minor) /\
    msg_headers msg = <[Content_Length := decimal (zlen d)]> (add_fields l ∅) /\ msg_body msg = d.
Proof.
  intros W Al Dc R Cb. destruct (decode_request c b meth t major minor l d W Al Dc R Cb) as (b' & msg & E & Wb & Ft & [F1 F2] & F).
  exists (after_decode c msg), b', msg. split; [exact E |]. destruct (after_request c msg (proj1 Ft)) as (-> & -> & _). by rewrite F1, F2.
Qed.

(** ** Decoding any bytes *)

Lemma on_url_some q d msg : alloc_ok (zlen d) -> is_Some (CodecHttp.on_url stack_url q d msg).
Proof.
  intros Al. unfold CodecHttp.on_url. destruct (parse_url_safe d false stack_url) as (r & u & -> & Wi). cbn [mbind option_bind]. destruct (Z.eqb_spec r 0) as [-> | _]; [| by eexists].
  specialize (Wi eq_refl). destruct (is_set UF_PATH u) eqn:Sp; [| by eexists]. destruct (Wi _ Sp) as (O1 & O2 & O3).
  destruct (malloc (len u UF_PATH)) eqn:Ml; [by eexists |]. destruct (Al (len u UF_PATH)); [lia | done].
Qed.

Lemma notify_some f : HttpParserSafe.keeps_cb is_Some (notify f).
Proof. intros q u [msg ->]. by eexists. Qed.

Lemma codec_keeps data : alloc_ok (zlen data) -> HttpParserSafe.Keeps (m_parser_setting stack_url) data is_Some.
Proof.
  intros Al. split; try (intros f [= <-]; apply notify_some). intros k f E d L q u [msg ->].
  assert (alloc_ok (zlen d)) as Ad by (intros n Hn; apply Al; unfold zlen in *; lia).
  destruct k; injection E as <-; cbn; [by eexists.. | | by eexists | by eexists]. by apply on_url_some.
Qed.

Lemma codec_obeys : HttpParserSafe.Obeys (m_parser_setting stack_url).
Proof. split; try (intros f [= <-] q u; by left). intros k f E d q u. destruct k; injection E as <-; by left. Qed.

(** The number of seconds that becomes [m_keep_alive] with a request. *)
Definition new_keep_alive c msg : spec_float := if Atof.float_ge0 (msg_keep_alive msg) then msg_keep_alive msg else Atof.float_of_u64 (m_keep_alive c).

(** C22: no bytes make [decode] misbehave, but for one case: whatever is in a
    well-formed buffer, [decode] returns, what it takes out of the buffer is a
    prefix of it, and with [PAUSE] it takes nothing; it is undefined only when
    the parser has returned without an error, for all of the bytes or a part of
    them, and the [Keep-Alive] of the message is out of the range of 64 bits.
    Assumed are that [malloc] gives as many bytes as the buffer holds (the path
    of a request is copied) and that the count of decodings is below
    [2^31 - 1], the last [int] that can be incremented. *)
Theorem http_decode_safe c b msg : wf b -> alloc_ok (zlen (contents b)) -> m_decode_cnt c < 2 ^ 31 - 1 ->
  match decode stack_url c b msg with
  | Some (s, c', b', msg') => wf b' /\ (exists taken, contents b = taken ++ contents b') /\ (s = PAUSE -> b' = b)
  | None => exists n q msg', http_parser_execute (m_parser_setting stack_url) (contents b) (http_parser_init HTTP_BOTH) (Some msg) = Some (n, q, Some msg') /\
      errno q = HPE_OK /\ Atof.u64_of_float (new_keep_alive c msg') = None
  end.
Proof.
  intros W Al Dc. unfold decode, is_readable. destruct (Z.ltb_spec (m_read_idx b) (m_write_idx b)) as [Rd |]; cbn [negb]; [| split; [done |]; split; [by exists [] | done]].
  unfold inc_int. rewrite (proj2 (Z.ltb_lt _ _) Dc). cbn [mbind option_bind]. rewrite readable_len_contents by done. pose proof (zlen_nonneg (contents b)) as Pl.
  destruct (consume_spec b (zlen (contents b)) W ltac:(lia)) as (-> & _). rewrite take_ge by (unfold zlen; lia). cbn [mbind option_bind].
  pose proof codec_obeys. destruct (HttpParserSafe.execute_ok (m_parser_setting stack_url) (contents b) (http_parser_init HTTP_BOTH) (Some msg) (HttpParserSafe.init_ready _)) as (n & q & u & Ex & Ln & _).
  pose proof (HttpParserSafe.kept_execute (KP := codec_keeps _ Al) (m_parser_setting stack_url) (contents b) is_Some _ _ _ (mk_is_Some (Some msg) msg eq_refl) Ex) as [msg' Em]. cbn in Em. subst u.
  rewrite Ex. cbn [mbind option_bind]. destruct (msg_decoding msg'); [split; [done |]; split; [by exists [] | done] |].
  destruct (decide (errno q = HPE_OK)) as [Eo | Eo]; [rewrite (bool_decide_true _ Eo) | rewrite (bool_decide_false _ Eo); split; [done |]; split; [by exists [] | done]]. cbn [negb].
  assert (0 <= Z.of_nat n <= zlen (contents b)) as Rn. { destruct Ln as [Ln | [E _]]; [unfold zlen; lia |]. pose proof (zlen_contents b W) as Lc. rewrite E in Lc. change (zlen []) with 0 in Lc. lia. }
  destruct (consume_spec b (Z.of_nat n) W Rn) as (_ & W' & C'). change (set_read_index b (u64 (m_read_idx b + Z.of_nat n))) with (advance_read_index b (Z.of_nat n)) in W', C'.
  assert (exists taken, contents b = taken ++ contents (advance_read_index b (Z.of_nat n))) as Tk by (exists (take (Z.to_nat (Z.of_nat n)) (contents b)); by rewrite C', take_drop).
  match goal with |- context [mbind _ ?x] => destruct x as [c1|] eqn:Ec end.
  - cbn [mbind option_bind]. destruct (bool_decide _); [| done]. by destruct (ungzip _) as [[] data].
  - cbn [mbind option_bind]. exists n, q, msg'. split; [done |]. split; [done |]. unfold new_keep_alive.
    destruct (msg_type msg' =? HTTP_REQUEST_); [| done]. by destruct (Atof.u64_of_float _) eqn:E in Ec.
Qed.

Lemma on_url_decoding q d msg msg' : CodecHttp.on_url stack_url q d msg = Some msg' -> msg_decoding msg' = msg_decoding msg.
Proof.
  unfold CodecHttp.on_url. destruct (http_parser_parse_url _ _ _) as [[r u]|]; [| done]. cbn [mbind option_bind]. destruct (r =? 0); [| by intros [= <-]].
  destruct (is_set UF_PATH u); [destruct (malloc _); [| done] |]; cbn [mbind option_bind]; destruct (is_set UF_QUERY u); by intros [= <-].
Qed.

(** C40: a request line that is not HTTP is never refused.  Where the protocol
    should stand behind the method (any but CONNECT and M-SEARCH) and a target
    of visible characters that begins with a slash, any byte but [H] and a space
    makes the parser fail with [HPE_INVALID_CONSTANT], whatever follows; [decode]
    asks first whether the message is complete, answers [PAUSE] instead of [ERR],
    and leaves the buffer as it is, so that the next call, with more bytes or
    without, meets the same error and pauses again.  Assumed are a well-formed
    buffer, memory for as many bytes as it holds, a count of decodings below
    [2^31 - 1], and a front of the request below the 80 KB of a head. *)
Theorem http_malformed_request_pauses c b msg0 meth l x rest : wf b -> alloc_ok (zlen (contents b)) -> m_decode_cnt c < 2 ^ 31 - 1 ->
  meth <> HTTP_CONNECT -> meth <> HTTP_MSEARCH -> forallb visible l = true -> x <> "H"%char -> x <> SP ->
  zlen (request_front meth ("/"%char :: l)) < HTTP_MAX_HEADER_SIZE -> contents b = request_front meth ("/"%char :: l) ++ x :: rest ->
  exists c' msg, decode stack_url c b msg0 = Some (PAUSE, c', b, msg) /\
    exists n q, http_parser_execute (m_parser_setting stack_url) (contents b) (http_parser_init HTTP_BOTH) (Some msg0) = Some (n, q, Some msg) /\ errno q = HPE_INVALID_CONSTANT.
Proof.
  intros W Al Dc Nc Nm Vl Nh Ns M Cb. destruct (execute_bad_protocol codec_handler (contents b) meth l x rest (Some msg0) Cb Nc Nm Vl Nh Ns M) as (q & vb & Ex & Eq). rewrite codec_settings in Ex.
  assert (alloc_ok (zlen ("/"%char :: l))) as Ad.
  { intros k Hk. apply Al. split; [lia |]. etrans; [apply Hk |]. rewrite Cb. unfold request_front, zlen. rewrite !length_app. lia. }
  destruct (on_url_some (look (request_method meth (http_parser_init HTTP_BOTH))) ("/"%char :: l) (set_decoding true msg0) Ad) as [msg Em].
  pose proof (on_url_decoding _ _ _ _ Em) as Md. change (http_parser_execute (m_parser_setting stack_url) (contents b) (http_parser_init HTTP_BOTH) (Some msg0) =
    Some (length (request_front meth ("/"%char :: l)), q, CodecHttp.on_url stack_url (look (request_method meth (http_parser_init HTTP_BOTH))) ("/"%char :: l) (set_decoding true msg0))) in Ex. rewrite Em in Ex.
  eexists _, msg. split; [| by eexists _, q]. pose proof (zlen_contents b W) as Lc. assert (0 < zlen (contents b)) as Pl by (rewrite Cb, zlen_app; pose proof (zlen_nonneg (request_front meth ("/"%char :: l))); unfold zlen in *; cbn [length]; lia).
  unfold decode, is_readable. rewrite (proj2 (Z.ltb_lt _ _)) by lia. cbn [negb]. unfold inc_int. rewrite (proj2 (Z.ltb_lt _ _) Dc). cbn [mbind option_bind].
  rewrite readable_len_contents by done. destruct (consume_spec b (zlen (contents b)) W ltac:(lia)) as (-> & _). rewrite take_ge by (unfold zlen; lia). cbn [mbind option_bind].
  rewrite Ex. cbn [mbind option_bind]. rewrite Md. reflexivity.
Qed.

(** ** Encoding *)

(** [f] writes [text], with a buffer that grows from at most [L] to at most
    [L'] bytes. *)
Definition puts (L L' : Z) (f : SocketBuffer -> Z -> option written) (text : bytes) : Prop :=
  forall b n, wf b -> m_buffer_len b <= L -> exists b' n', f b n = Some (true, b', n') /\ wf b' /\ contents b' = contents b ++ text /\ m_buffer_len b' <= L'.

Lemma puts_then L L1 L2 f g x y : puts L L1 f x -> puts L1 L2 g y -> puts L L2 (fun b n => and_then (f b n) g) (x ++ y).
Proof.
  intros F G b n W B. destruct (F b n W B) as (b1 & n1 & E1 & W1 & C1 & B1). destruct (G b1 n1 W1 B1) as (b2 & n2 & E2 & W2 & C2 & B2).
  exists b2, n2. rewrite E1. cbn. split_and!; [done | done | by rewrite C2, C1, app_assoc | done].
Qed.

Hypothesis enough : alloc_ok ADDRESS_SPACE.

Lemma alloc_ok_less n : n <= ADDRESS_SPACE -> alloc_ok n.
Proof. intros L k Hk. apply enough. lia. Qed.

Lemma puts_printf L text : 2 ^ 20 <= L <= 2 ^ 50 -> zlen text <= 2 ^ 18 -> puts L (8 * L) (_printf text) text.
Proof.
  intros HL Ht b n W B. pose proof (zlen_nonneg text). pose proof W as [? ? ? ? ?].
  destruct (_vprintf_grows b text W ltac:(lia)) as (b0 & b' & _ & E & [W' C'] & B'); [apply alloc_ok_less; unfold ADDRESS_SPACE; lia |].
  unfold _printf, checked. rewrite E. cbn [mbind option_bind]. destruct (Z.ltb_spec ((if zlen text <? writeable_len b0 then 1 else 2) * zlen text) 0) as [Ng | _]; [destruct (_ <? _) in Ng; lia |].
  eexists _, _. split; [done |]. split_and!; [done | done | lia].
Qed.

Lemma puts_bytes L d : 2 ^ 20 <= L <= 2 ^ 50 -> zlen d <= 2 ^ 28 -> puts L (8 * L + 2 ^ 30) (put_bytes d) d.
Proof.
  intros HL Hd b n W B. pose proof (zlen_nonneg d). pose proof W as [? ? ? ? ?].
  destruct (_write_spec b d W) as (r & b' & E & W' & B' & [[-> C'] | (_ & _ & Al)]); [unfold INT_MAX; lia | |].
  - unfold put_bytes, checked. rewrite E. cbn [mbind option_bind]. destruct (Z.ltb_spec (zlen d) 0); [lia |]. eexists _, _. split; [done |]. unfold grow_bound in B'. split_and!; [done | done | lia].
  - exfalso. eapply alloc_ok_fails; [exact enough | exact Al |]. unfold grow_bound, ADDRESS_SPACE. lia.
Qed.

(** The terminator behind the text is not part of it. *)
Lemma terminated b : wf b -> m_buffer_len b <= 2 ^ 55 ->
  exists size b', write_byte b NUL = Some (size, b') /\ (size <? 0) = false /\
    wf (set_write_index b' (u64 (m_write_idx b' - size))) /\ contents (set_write_index b' (u64 (m_write_idx b' - size))) = contents b.
Proof.
  intros W B. pose proof W as [? ? ? ? ?]. destruct (_write_spec b [NUL] W) as (r & b' & E & W' & B' & [[-> C'] | (_ & _ & Al)]); [by vm_compute | |].
  - exists (zlen [NUL]), b'. split; [exact E |]. split; [done |]. change (zlen [NUL]) with 1. pose proof (zlen_contents b' W') as L'. rewrite C', zlen_app in L'. change (zlen [NUL]) with 1 in L'.
    pose proof (zlen_nonneg (contents b)). pose proof W' as [? ? ? ? ?]. unfold ADDRESS_SPACE in *. rewrite u64_small by lia. split.
    + split; cbn; unfold ADDRESS_SPACE; lia.
    + unfold contents at 1. cbn [m_read_idx m_write_idx m_buffer set_write_index].
      assert (slice (m_read_idx b') (m_write_idx b' - 1 - m_read_idx b') (m_buffer b') = take (Z.to_nat (zlen (contents b))) (contents b')) as ->.
      { unfold contents at 2, slice. rewrite take_take. f_equal. lia. }
      rewrite C', take_app_le, take_ge by (unfold zlen; lia). done.
  - exfalso. eapply alloc_ok_fails; [exact enough | exact Al |]. unfold grow_bound, ADDRESS_SPACE. change (zlen [NUL]) with 1. lia.
Qed.

(** *** The headers of a response *)

(** The maps are walked through in some order. *)
Context (msg_order codec_order : gmap bytes bytes -> list (bytes * bytes)).
Hypothesis msg_order_perm : forall h, msg_order h ≡ₚ map_to_list h.
Hypothesis codec_order_perm : forall h, codec_order h ≡ₚ map_to_list h.

Definition own_fields c : list (bytes * bytes) :=
  [(str_bytes "Server", str_bytes "KimHttp"); (str_bytes "Allow", str_bytes "POST,GET")] ++
  (if m_is_client c then [] else [(Connection, if m_keep_alive c =? 0 then close else keep_alive)]).

Lemma own_headers_perm c : codec_order (own_headers c ∅) ≡ₚ own_fields c.
Proof.
  rewrite codec_order_perm. unfold own_headers, own_fields. destruct (m_is_client c); cbn [negb app].
  - rewrite map_to_list_insert by done. by rewrite map_to_list_insert, map_to_list_empty by done.
  - rewrite map_to_list_insert by (by rewrite !lookup_insert_ne). rewrite map_to_list_insert by (by rewrite !lookup_insert_ne).
    by rewrite map_to_list_insert, map_to_list_empty by done.
Qed.

Lemma own_headers_elem c f : f ∈ codec_order (own_headers c ∅) -> f ∈ own_fields c.
Proof. by rewrite own_headers_perm. Qed.

Definition short (f : bytes * bytes) : Prop := (NUL ∉ fst f) /\ (NUL ∉ snd f) /\ zlen (field_line (fst f) (snd f)) <= 2 ^ 18.

Lemma own_fields_ok c f : f ∈ own_fields c ->
  short f /\ field_ok f = true /\ fst f <> str_bytes "Keep-Alive" /\ fst f <> str_bytes "Content-Encoding" /\ fst f <> str_bytes "Transfer-Encoding" /\ zlen (field_line (fst f) (snd f)) <= 30.
Proof.
  unfold own_fields. intros F. assert (f = (str_bytes "Server", str_bytes "KimHttp") \/ f = (str_bytes "Allow", str_bytes "POST,GET") \/ f = (Connection, close) \/ f = (Connection, keep_alive)) as E.
  { destruct (m_is_client c), (m_keep_alive c =? 0); set_solver. }
  assert (forall x : bytes, bool_decide (NUL ∈ x) = false -> NUL ∉ x) as K by (intros x Hx; by apply bool_decide_eq_false in Hx).
  destruct E as [-> | [-> | [-> | ->]]]; (split; [split_and!; [apply K; by vm_compute | apply K; by vm_compute | by vm_compute] | split_and!; by vm_compute]).
Qed.

Lemma puts_headers l L : Forall short l -> 2 ^ 20 <= L -> 8 ^ zlen l * L <= 2 ^ 50 -> puts L (8 ^ zlen l * L) (print_headers l) (print_fields l).
Proof.
  intros F. revert L. induction F as [|[k v] l (N1 & N2 & S) _ IH]; intros L HL HM.
  - intros b n W B. exists b, n. split_and!; [done | done | by rewrite app_nil_r | change (8 ^ zlen []) with 1; lia].
  - assert (zlen ((k, v) :: l) = zlen l + 1) as Z1 by (unfold zlen; cbn [length]; lia). rewrite Z1, Z.pow_add_r in * by (try apply zlen_nonneg; lia). change (8 ^ 1) with 8 in *.
    pose proof (Z.pow_pos_nonneg 8 (zlen l) ltac:(lia) (zlen_nonneg l)). change (print_fields ((k, v) :: l)) with (field_line k v ++ print_fields l).
    replace (8 ^ zlen l * 8 * L) with (8 ^ zlen l * (8 * L)) by lia.
    apply (puts_then L (8 * L) _ (_printf (c_cut k ++ str_bytes ": " ++ c_cut v ++ crlf)) (print_headers l)); [| apply IH; nia].
    cbn [fst snd] in *. rewrite !c_cut_id by done. apply puts_printf; [nia | done].
Qed.

Lemma merge_headers_none l h : (forall k v, (k, v) ∈ l -> h !! k = None) -> merge_headers l h = h.
Proof.
  induction l as [|[k v] l IH]; intros N; [done |]. cbn [merge_headers]. rewrite (N k v) by (by left). rewrite IH by (intros k' v' E; apply (N k' v'); by right). by destruct (_ || _).
Qed.

Lemma own_headers_lookup c k : k <> str_bytes "Connection" -> k <> str_bytes "Allow" -> k <> str_bytes "Server" -> own_headers c ∅ !! k = None.
Proof. intros N1 N2 N3. unfold own_headers. rewrite !lookup_insert_ne by done. destruct (negb _); [by rewrite lookup_insert_ne | done]. Qed.

(** *** The text of a response *)

Lemma fmt_u_digit a : 0 <= a <= 9 -> fmt_u a = [digit a].
Proof. intros Ha. assert (a = 0 \/ a = 1 \/ a = 2 \/ a = 3 \/ a = 4 \/ a = 5 \/ a = 6 \/ a = 7 \/ a = 8 \/ a = 9) as E by lia. by repeat destruct E as [-> | E]; [..| subst]. Qed.

Lemma status_string_in code text : status_string code = Some text -> (code, text) ∈ status_strings.
Proof.
  unfold status_string. intros E. apply fmap_Some in E as ([i [k x]] & E & ->). apply list_find_Some in E as (E & <- & _). cbn. by eapply list_elem_of_lookup_2.
Qed.

Definition status_row_ok (r : Z * bytes) : bool :=
  bool_decide (100 <= fst r <= 999) && bool_decide (fmt_u (fst r) = [digit (fst r / 100); digit (fst r / 10 mod 10); digit (fst r mod 10)]) && negb (bool_decide (snd r = [])) &&
  forallb (fun x => negb (Ascii.eqb x CR) && negb (Ascii.eqb x LF)) (snd r) && (zlen (snd r) <=? 40).

Lemma status_rows : forallb status_row_ok status_strings = true.
Proof. by vm_compute. Qed.

Lemma status_string_ok code text : status_string code = Some text ->
  100 <= code <= 999 /\ fmt_u code = [digit (code / 100); digit (code / 10 mod 10); digit (code mod 10)] /\ text <> [] /\ line_text text /\ zlen text <= 40.
Proof.
  intros E%status_string_in. pose proof status_rows as R. rewrite forallb_forall in R. apply list_elem_of_In in E. apply R in E. unfold status_row_ok in E. cbn [fst snd] in E.
  apply andb_prop in E as [E L%Z.leb_le]. apply andb_prop in E as [E F]. apply andb_prop in E as [E N%negb_true_iff%bool_decide_eq_false]. apply andb_prop in E as [B%bool_decide_eq_true D%bool_decide_eq_true].
  split_and!; [lia | lia | done | done | | done]. apply Forall_forall. intros x Hx. rewrite forallb_forall in F. apply list_elem_of_In, F in Hx. apply andb_prop in Hx as [H2 H3].
  split; intros ->; [by vm_compute in H2 | by vm_compute in H3].
Qed.

Lemma zlen_status_line major minor code text : zlen (HttpMessage.status_line major minor code text) = 15 + zlen text.
Proof. unfold HttpMessage.status_line. rewrite !zlen_app. change (zlen (str_bytes "HTTP/")) with 5. change (zlen [CR; LF]) with 2. change (zlen (digit major :: _)) with 8. lia. Qed.

Lemma puts_status_line c msg text L : status_string (msg_status msg) = Some text -> 0 <= m_http_major c <= 9 -> 0 <= m_http_minor c <= 9 -> 2 ^ 20 <= L <= 2 ^ 50 ->
  puts L (8 * L) (fun b _ => CodecHttp.status_line c msg b) (HttpMessage.status_line (m_http_major c) (m_http_minor c) (msg_status msg) text).
Proof.
  intros St Ma Mi HL. destruct (status_string_ok _ _ St) as (Rc & Fc & _ & _ & Lt). intros b n W B. unfold CodecHttp.status_line. destruct (Z.eqb_spec (msg_status msg) 0); [lia |]. rewrite St. cbn [mbind option_bind].
  rewrite (fmt_u_digit (m_http_major c)), (fmt_u_digit (m_http_minor c)), Fc by done. pose proof (zlen_status_line (m_http_major c) (m_http_minor c) (msg_status msg) text).
  apply (puts_printf L (HttpMessage.status_line (m_http_major c) (m_http_minor c) (msg_status msg) text)); [done | lia | done | done].
Qed.

Lemma zlen_decimal n : 0 <= n < 2 ^ 60 -> zlen (decimal n) <= 20.
Proof. intros R. apply (CJsonText.dec_pos_length 20); lia. Qed.

Lemma puts_body msg L : zlen (msg_body msg) <= 2 ^ 28 -> 2 ^ 20 <= L <= 2 ^ 46 ->
  puts L (64 * L + 2 ^ 30) (print_body msg false false) (field_line Content_Length (decimal (zlen (msg_body msg))) ++ [CR; LF] ++ msg_body msg).
Proof.
  intros Lb HL. pose proof (zlen_nonneg (msg_body msg)) as Pn. unfold print_body. destruct (Z.ltb_spec 0 (zlen (msg_body msg))) as [G | G].
  - cbn [fst snd]. change (0 <? zlen []) with false. cbv iota zeta beta. rewrite (app_assoc (field_line _ _)).
    assert (str_bytes "Content-Length: " ++ fmt_u (zlen (msg_body msg)) ++ crlf ++ crlf = field_line Content_Length (decimal (zlen (msg_body msg))) ++ [CR; LF]) as <-.
    { unfold fmt_u. rewrite u32_small by lia. unfold field_line, CFloat.digits_of. fold (decimal (zlen (msg_body msg))).
      change (str_bytes "Content-Length: ") with (Content_Length ++ [":"; SP]%char). by rewrite <- !app_assoc. }
    replace (64 * L + 2 ^ 30) with (8 * (8 * L) + 2 ^ 30) by lia. eapply puts_then; [apply puts_printf | apply puts_bytes]; [lia | | lia | done].
    rewrite !zlen_app. change (fmt_u (zlen (msg_body msg))) with (decimal (u32 (zlen (msg_body msg)))). rewrite u32_small by lia. pose proof (zlen_decimal (zlen (msg_body msg)) ltac:(lia)).
    change (zlen (str_bytes "Content-Length: ")) with 16. change (zlen crlf) with 2. lia.
  - assert (msg_body msg = []) as -> by (apply zlen_nil_inv; lia). rewrite app_nil_r. intros b n W B.
    destruct (puts_printf L (str_bytes "Content-Length: 0" ++ crlf ++ crlf) ltac:(lia) ltac:(by vm_compute) b n W B) as (b' & n' & E & W' & C' & B'). exists b', n'. split_and!; [exact E | done | exact C' | lia].
Qed.

(** The codec after it has counted a call of [encode]. *)
Definition counted c : CodecHttp :=
  let n := m_encode_cnt c + 1 in mk_codec (m_http_major c) (m_http_minor c) n (m_decode_cnt c) (m_is_client c || (m_decode_cnt c <? n)) (m_keep_alive c) (m_http_headers c).

(** A response that the codec can print; the headers that it sets itself are
    not those of the message. *)
Record response_ok c msg (text : bytes) : Prop := {
  rsp_type : msg_type msg = HTTP_RESPONSE_ /\ msg_major msg <> 0;
  rsp_status : status_string (msg_status msg) = Some text;
  rsp_version : 0 <= m_http_major c <= 9 /\ 0 <= m_http_minor c <= 9;
  rsp_headers : msg_headers msg !! str_bytes "Connection" = None /\ msg_headers msg !! str_bytes "Allow" = None /\ msg_headers msg !! str_bytes "Server" = None;
  rsp_body : zlen (msg_body msg) <= 2 ^ 28;
  rsp_codec : m_http_headers c = ∅ /\ m_encode_cnt c < 2 ^ 31 - 1 }.

(** The message that stands for it. *)
Definition response_message c msg (text : bytes) : message :=
  mk_message (Response (m_http_major c) (m_http_minor c) (msg_status msg) text) (codec_order (own_headers (counted c) ∅)) (msg_body msg).

Lemma no_encoding c : gzip_header (codec_order (own_headers c ∅)) = false /\ chunked_header (codec_order (own_headers c ∅)) = false.
Proof.
  split; apply not_true_iff_false; intros ([k v] & F & E)%existsb_exists; apply list_elem_of_In, own_headers_elem, own_fields_ok in F as (_ & _ & _ & N1 & N2 & _);
    apply andb_prop in E as [->%bool_decide_eq_true _]; [by destruct N1 | by destruct N2].
Qed.

Lemma foreign_headers c msg : msg_headers msg !! str_bytes "Connection" = None -> msg_headers msg !! str_bytes "Allow" = None -> msg_headers msg !! str_bytes "Server" = None ->
  forall k v, (k, v) ∈ msg_order (msg_headers msg) -> own_headers c ∅ !! k = None.
Proof. intros Hc Ha Hs k v E. rewrite msg_order_perm, elem_of_map_to_list in E. apply own_headers_lookup; intros ->; congruence. Qed.

Lemma encode_response c msg text b : response_ok c msg text -> wf b -> m_buffer_len b <= 2 ^ 24 ->
  exists b', encode stack_url msg_order codec_order c msg b = Some (OK, set_http_headers ∅ (counted c), b') /\ wf b' /\ contents b' = contents b ++ print (response_message c msg text).
Proof.
  intros [[Ty Mj] St [Ma Mi] (Hc & Ha & Hs) Lb [Hh Ec]] W B. pose proof (own_headers_perm (counted c)) as Pm. set (order := codec_order (own_headers (counted c) ∅)) in *.
  assert (zlen order <= 3) as Lo. { unfold zlen. rewrite Pm. unfold own_fields. destruct (m_is_client _); cbn; lia. }
  assert (Forall short order) as So by (apply Forall_forall; intros f Hf%own_headers_elem; by apply own_fields_ok in Hf as []).
  pose proof (Z.pow_le_mono_r 8 (zlen order) 3 ltac:(lia) Lo) as P3. change (8 ^ 3) with 512 in P3. pose proof (Z.pow_pos_nonneg 8 (zlen order) ltac:(lia) (zlen_nonneg order)).
  pose proof (puts_then _ _ _ _ _ _ _ (puts_headers order (8 * 2 ^ 24) So ltac:(lia) ltac:(lia)) (puts_body msg (8 ^ zlen order * (8 * 2 ^ 24)) Lb ltac:(lia))) as Pr.
  pose proof (puts_then _ _ _ _ _ _ _ (puts_status_line (counted c) msg text (2 ^ 24) St Ma Mi ltac:(lia)) Pr b 0 W B) as (b1 & n1 & E1 & W1 & C1 & B1).
  destruct (terminated b1 W1 ltac:(lia)) as (size & b2 & E2 & N2 & W2 & C2).
  exists (set_write_index b2 (u64 (m_write_idx b2 - size))). split; [| split; [exact W2 |]].
  - unfold encode, inc_int. rewrite (proj2 (Z.ltb_lt _ _) Ec). cbn [mbind option_bind]. fold (counted c). rewrite Ty. change (HTTP_RESPONSE_ =? HTTP_REQUEST_) with false. cbn [andb].
    destruct (Z.eqb_spec (msg_major msg) 0); [done |]. cbn [orb]. unfold start_line. rewrite Ty. change (HTTP_RESPONSE_ =? HTTP_REQUEST_) with false. change (HTTP_RESPONSE_ =? HTTP_RESPONSE_) with true. cbv iota.
    change (m_http_headers (counted c)) with (m_http_headers c). rewrite Hh. destruct (CodecHttp.status_line (counted c) msg b) as [[[[] bs] ns]|]; [| done | done]. cbn [mbind option_bind fst].
    rewrite merge_headers_none by (by apply foreign_headers). fold order. destruct (no_encoding (counted c)) as [Ng Nc]. fold order in Ng, Nc. rewrite Ng, Nc.
    change (and_then (Some (true, bs, ns)) ?k) with (k bs ns) in E1 |- *. cbv beta in E1 |- *.
    change (fun b n => print_body msg false false b n) with (print_body msg false false). rewrite E1. cbn [mbind option_bind]. rewrite E2. cbn [mbind option_bind]. by rewrite N2.
  - rewrite C2, C1. f_equal. unfold print, print_head, print_rest. cbn [start fields content response_message print_start]. by rewrite <- !app_assoc.
Qed.

(** *** There and back *)

Lemma add_fields_lookup l h k : NoDup l.*1 -> add_fields l h !! k = match (list_to_map l : gmap bytes bytes) !! k with Some v => Some v | None => h !! k end.
Proof.
  revert h. induction l as [|[k' v] l IH]; intros h Nd; [done |]. cbn [fmap list_fmap fst] in Nd. apply NoDup_cons in Nd as [Ni Nd]. cbn [add_fields fold_left fst snd].
  change (add_fields l (<[k' := v]> h) !! k = match (<[k' := v]> (list_to_map l : gmap bytes bytes)) !! k with Some v => Some v | None => h !! k end). rewrite IH by done.
  destruct (decide (k' = k)) as [-> | Nk]; [| by rewrite !lookup_insert_ne]. rewrite !lookup_insert_eq. by rewrite not_elem_of_list_to_map_1.
Qed.

Lemma add_fields_perm (l : list (bytes * bytes)) (m : gmap bytes bytes) : l ≡ₚ map_to_list m -> add_fields l ∅ = m.
Proof.
  intros P. assert (NoDup l.*1) as Nd by (rewrite P; apply NoDup_fst_map_to_list). apply map_eq. intros k. rewrite add_fields_lookup by done.
  assert ((list_to_map l : gmap bytes bytes) = m) as -> by (rewrite <- (list_to_map_to_list m); by apply list_to_map_proper). rewrite lookup_empty. by destruct (m !! k).
Qed.

Lemma zlen_print_fields l : Forall (fun f => zlen (field_line (fst f) (snd f)) <= 30) l -> zlen (print_fields l) <= 30 * zlen l.
Proof.
  intros F. induction F as [|f l Hf _ IH]; [done |]. change (print_fields (f :: l)) with (field_line (fst f) (snd f) ++ print_fields l). rewrite zlen_app.
  replace (zlen (f :: l)) with (1 + zlen l) by (unfold zlen; cbn [length]; lia). lia.
Qed.

Lemma zlen_response_head c msg text : response_ok c msg text -> zlen (print_head (response_message c msg text)) <= 200.
Proof.
  intros [_ St _ _ Lb _]. destruct (status_string_ok _ _ St) as (_ & _ & _ & _ & Ls). pose proof (own_headers_perm (counted c)) as Pm. pose proof (zlen_nonneg (msg_body msg)).
  assert (Forall (fun f => zlen (field_line (fst f) (snd f)) <= 30) (codec_order (own_headers (counted c) ∅))) as Sh.
  { apply Forall_forall. intros f Hf%own_headers_elem. by apply own_fields_ok in Hf as (_ & _ & _ & _ & _ & ?). }
  apply zlen_print_fields in Sh. assert (zlen (codec_order (own_headers (counted c) ∅)) <= 3) as Lo. { unfold zlen. rewrite Pm. unfold own_fields. destruct (m_is_client _); cbn; lia. }
  unfold print_head, print_rest. cbn [start fields content response_message print_start]. rewrite !zlen_app, zlen_status_line. unfold field_line. rewrite !zlen_app.
  pose proof (zlen_decimal (zlen (msg_body msg)) ltac:(lia)). change (zlen Content_Length) with 14. change (zlen [":"; SP]%char) with 2. change (zlen [CR; LF]) with 2. lia.
Qed.

Lemma response_message_ok c msg text : response_ok c msg text -> message_ok (response_message c msg text).
Proof.
  intros R. pose proof (zlen_response_head c msg text R) as Lh. destruct R as [_ St [Ma Mi] _ Lb _]. destruct (status_string_ok _ _ St) as (Rc & _ & Ne & Lt & _).
  split; cbn [start fields content response_message].
  - split_and!; try lia; done.
  - apply forallb_forall. intros f Hf. apply list_elem_of_In, own_headers_elem, own_fields_ok in Hf. by destruct Hf as (_ & ? & _).
  - rewrite HttpSplit.max_header. lia.
  - lia.
Qed.

Lemma decode_response c c' msg text rb : response_ok c msg text -> m_decode_cnt c' < 2 ^ 31 - 1 -> wf rb -> contents rb = print (response_message c msg text) ->
  exists rb1 msg1, decode stack_url c' rb empty_msg = Some (OK, after_decode c' msg1, rb1, msg1) /\ (wf rb1 /\ contents rb1 = []) /\
    (msg_type msg1 = HTTP_RESPONSE_ /\ msg_status msg1 = msg_status msg /\ msg_body msg1 = msg_body msg) /\ (msg_major msg1 = m_http_major c /\ msg_minor msg1 = m_http_minor c) /\
    msg_headers msg1 = <[Content_Length := decimal (zlen (msg_body msg))]> (own_headers (counted c) ∅).
Proof.
  intros R Dc Wr Cr. destruct (status_string_ok _ _ (rsp_status _ _ _ R)) as (Rc & _). pose (msg0 := set_status (msg_status msg) (set_decoding true empty_msg)).
  assert (forall k, (forall f, f ∈ own_fields (counted c) -> fst f <> k) -> k ∉ (fields (response_message c msg text)).*1) as Nk.
  { intros k Hk (f & -> & Hf)%list_elem_of_fmap. apply own_headers_elem, Hk in Hf. done. }
  destruct (decode_printed c' rb (response_message c msg text) msg0 Wr Cr (response_message_ok _ _ _ R) Dc) as (f & rb1 & D & W2 & C2); try done.
  - apply Nk. intros f Hf. by apply own_fields_ok in Hf as (_ & _ & ? & _).
  - apply Nk. intros f Hf. by apply own_fields_ok in Hf as (_ & _ & _ & ? & _).
  - cbn [start fields content response_message] in D. match type of D with context [finished ?v ?l ?d ?m] => pose proof (finished_fields v l d m) as F; set (msg1 := finished v l d m) in * end.
    destruct F as (_ & F2 & F3 & F4 & F5 & _ & _ & _ & _ & F10). cbn [status_code set_upgrade set_content_length set_flags start_parser look response_head set_header_state set_index set_status_code] in F10.
    change (status_code _) with (msg_status msg) in F10. destruct (Z.eqb_spec (msg_status msg) 0); [lia |]. destruct F10 as [F10 F11].
    exists rb1, msg1. split; [exact D |]. split; [done |]. split; [done |]. split; [done |]. rewrite F2. f_equal. apply add_fields_perm, codec_order_perm.
Qed.

(** C23: a response survives the way from the server to the client.  Whatever
    the status of the table and the body of up to [2^28] bytes are, and the
    headers but for those that the server sets, [encode] answers
    [OK] and appends one message to the buffer, and [decode] of these bytes, by
    any other codec and in any other buffer, answers [OK], takes them all, and
    gives the status, the body, the version of the server and the headers that
    the server sets; other headers of the message are not sent.

    The message has a version (its major number is not 0; what is printed is
    the version of the codec, of one digit each), and the codec has no headers
    of its own yet ([m_http_headers] is empty, as a new codec and every
    [encode] leave it); the counts of the codecs are below [2^31 - 1], the
    buffer is empty and has at most [2^24] bytes of memory, and [malloc]
    succeeds. *)
Theorem http_response_roundtrip c c' msg text b rb : response_ok c msg text -> wf b -> m_buffer_len b <= 2 ^ 24 -> contents b = [] -> m_decode_cnt c' < 2 ^ 31 - 1 ->
  exists b1, encode stack_url msg_order codec_order c msg b = Some (OK, set_http_headers ∅ (counted c), b1) /\ wf b1 /\
    (wf rb -> contents rb = contents b1 -> exists c1 rb1 msg1, decode stack_url c' rb empty_msg = Some (OK, c1, rb1, msg1) /\ (wf rb1 /\ contents rb1 = []) /\
      (msg_type msg1 = HTTP_RESPONSE_ /\ msg_status msg1 = msg_status msg /\ msg_body msg1 = msg_body msg) /\ (msg_major msg1 = m_http_major c /\ msg_minor msg1 = m_http_minor c) /\
      msg_headers msg1 = <[Content_Length := decimal (zlen (msg_body msg))]> (own_headers (counted c) ∅)).
Proof.
  intros R W B Cb Dc. destruct (encode_response c msg text b R W B) as (b1 & E & W1 & C1). exists b1. split; [done |]. split; [done |]. intros Wr Cr. rewrite C1, Cb in Cr.
  destruct (decode_response c c' msg text rb R Dc Wr Cr) as (rb1 & msg1 & D & K). by exists (after_decode c' msg1), rb1, msg1.
Qed.

End spec.

(** ** Examples *)

(** A compression that does nothing. *)
#[local] Instance plain_zip : Zip := {| deflate := Some; inflate := Some |}.
#[local] Existing Instance zero_malloc.
#[local] Existing Instance zero_malloc_spec.

Definition login : target := mk_target None (str_bytes "/login") (Some (str_bytes "user=kim&x=1")) None.
Definition login_fields : list (bytes * bytes) := [(str_bytes "Host", str_bytes "example.org"); (Connection, keep_alive)].

Lemma login_ok : request_ok HTTP_POST login 1 1 login_fields (str_bytes "hello").
Proof.
  split; try done.
  - split_and!; [| done | by vm_compute]. split; cbn; [done | split; [done |] | | done]; unfold all_of; repeat (constructor; [reflexivity |]); constructor.
  - split_and!; [by vm_compute | |]; apply (bool_decide_unpack _); by vm_compute.
Qed.

Definition login_request : bytes := print (mk_message (Request HTTP_POST (show_url login) 1 1) login_fields (str_bytes "hello")).

Lemma http_decode_request_witness : exists c' b' msg, decode http_parser_url_init (new_codec 75) (buffer_of login_request) empty_msg = Some (OK, c', b', msg) /\
  msg_path msg = str_bytes "/login" /\ msg_body msg = str_bytes "hello".
Proof.
  destruct (http_decode_request http_parser_url_init (new_codec 75) (buffer_of login_request) HTTP_POST login 1 1 login_fields (str_bytes "hello")) as (c' & b' & msg & E & _ & F & _ & _ & Fb).
  - apply wf_buffer_of. by vm_compute.
  - by apply zero_malloc_ok.
  - done.
  - apply login_ok.
  - apply contents_buffer_of.
  - exists c', b', msg. destruct F as (_ & _ & _ & Fp & _). split_and!; [exact E | exact Fp | exact Fb].
Defined.

Lemma http_decode_safe_witness : exists s c' b' msg', decode http_parser_url_init (new_codec 75) (buffer_of (str_bytes "GET / HTPP")) empty_msg = Some (s, c', b', msg') /\ wf b'.
Proof.
  pose proof (http_decode_safe http_parser_url_init (new_codec 75) (buffer_of (str_bytes "GET / HTPP")) empty_msg) as K.
  destruct (decode http_parser_url_init (new_codec 75) (buffer_of (str_bytes "GET / HTPP")) empty_msg) as [[[[s c'] b'] msg']|] eqn:E.
  - exists s, c', b', msg'. split; [reflexivity |]. apply K; [by apply wf_buffer_of | by apply zero_malloc_ok | done].
  - by vm_compute in E.
Defined.

Definition not_found : HttpMsg := set_body (str_bytes "no such page") (set_status 404 (set_version 1 1 (set_type HTTP_RESPONSE_ empty_msg))).

Lemma not_found_ok : response_ok (new_codec 75) not_found (str_bytes "Not Found").
Proof. split; by vm_compute. Qed.

Lemma http_response_roundtrip_witness : exists b1 c1 rb1 msg1, encode http_parser_url_init map_to_list map_to_list (new_codec 75) not_found empty = Some (OK, set_http_headers ∅ (counted (new_codec 75)), b1) /\
  decode http_parser_url_init (new_codec 0) b1 empty_msg = Some (OK, c1, rb1, msg1) /\ msg_status msg1 = 404 /\ msg_body msg1 = str_bytes "no such page".
Proof.
  assert (alloc_ok ADDRESS_SPACE) as Al by (by apply zero_malloc_ok).
  destruct (encode http_parser_url_init map_to_list map_to_list (new_codec 75) not_found empty) as [[[s c] b1]|] eqn:E.
  - destruct (http_response_roundtrip http_parser_url_init Al map_to_list map_to_list ltac:(done) ltac:(done) (new_codec 75) (new_codec 0) not_found (str_bytes "Not Found") empty b1 not_found_ok wf_empty)
      as (b & E' & W & K); [done | done | done |]. rewrite E in E'. injection E' as -> -> ->. destruct (K W eq_refl) as (c1 & rb1 & msg1 & D & _ & (_ & F1 & F2) & _).
    exists b, c1, rb1, msg1. split_and!; [reflexivity | exact D | exact F1 | exact F2].
  - destruct (http_response_roundtrip http_parser_url_init Al map_to_list map_to_list ltac:(done) ltac:(done) (new_codec 75) (new_codec 0) not_found (str_bytes "Not Found") empty empty not_found_ok wf_empty)
      as (b & E' & _); [done | done | done |]. by rewrite E in E'.
Defined.

Definition get (path : bytes) : bytes := str_bytes "GET " ++ path ++ str_bytes " HTTP/1.1" ++ [CR; LF; CR; LF].

(** An example: two requests that arrive together are one for [decode]: it answers
    [OK], takes the bytes of both, and the message that it gives is the second
    one, so that the first one is never answered. *)
Example http_pipelined_request_lost : exists c b msg,
  decode http_parser_url_init (new_codec 75) (buffer_of (get (str_bytes "/first") ++ get (str_bytes "/second"))) empty_msg = Some (OK, c, b, msg) /\
  contents b = [] /\ msg_url msg = str_bytes "/second" /\ msg_path msg = str_bytes "/second".
Proof. eexists _, _, _. split; [vm_compute; reflexivity |]. split_and!; vm_compute; reflexivity. Qed.

Lemma http_malformed_request_pauses_witness : exists c msg, decode http_parser_url_init (new_codec 75) (buffer_of (str_bytes "GET /a?b TTP/1.1")) empty_msg = Some (PAUSE, c, buffer_of (str_bytes "GET /a?b TTP/1.1"), msg).
Proof.
  destruct (http_malformed_request_pauses http_parser_url_init (new_codec 75) (buffer_of (str_bytes "GET /a?b TTP/1.1")) empty_msg HTTP_GET (str_bytes "a?b") "T"%char (str_bytes "TP/1.1"))
    as (c & msg & E & _); [by apply wf_buffer_of | by apply zero_malloc_ok | reflexivity | discriminate | discriminate | reflexivity | discriminate | discriminate | reflexivity | reflexivity |].
  exists c, msg. exact E.
Defined.
End CodecHttpSpec.
