(* ===== verification/ConnectionHttp.v ===== *)
(** * A connection that speaks HTTP

    The paths of [connection.cpp] that go through [CodecHttp]: the overloads of
    [conn_read], [fetch_data] and [conn_write] for [HttpMsg], and [decode_http].
    A connection with its codec is a [Connection] with the object its [m_codec]
    points to; [Connection] keeps the keep-alive time of that object, which
    [keep_alive] reads.  The last section has a request and its response
    between two connections. *)

From S2P Require Import Prelude SocketBuffer Proto CodecProto Connection HttpParser HttpSplit HttpUrl HttpMessage CodecHttp CodecHttpSpec.

#[local] Open Scope Z_scope.

Module ConnectionHttp.
Import SocketBuffer Codec Connection.

Record http_conn := mk_conn { base : Connection; codec : CodecHttp.CodecHttp }.

(** The object behind [m_codec] is now [k]. *)
Definition with_codec (c : Connection) (k : CodecHttp.CodecHttp) : http_conn :=
  match m_codec c with
  | Some (Connection.mk_codec (CHttp _) t) => mk_conn (Connection.set_codec c (Some (Connection.mk_codec (CHttp (CodecHttp.m_keep_alive k)) t))) k
  | _ => mk_conn c k
  end.

Definition set_base (c : http_conn) (b : Connection) : http_conn := mk_conn b (codec c).

(** [dynamic_cast<CodecHttp*>(m_codec) != nullptr] *)
Definition has_http (c : Connection) : bool := match m_codec c with Some (Connection.mk_codec (CHttp _) _) => true | _ => false end.

Section io.
Context `{Malloc} `{CodecHttp.Zip} (stack_url : HttpUrl.http_parser_url).
Context (msg_order codec_order : gmap bytes bytes -> list (bytes * bytes)).

(** [codec->decode(m_recv_buf, msg)] on a null pointer is undefined. *)
Definition decode_http (c : http_conn) (msg : CodecHttp.HttpMsg) : option (STATUS * CodecHttp.HttpMsg * http_conn) :=
  if has_http (base c) then
    b ← m_recv_buf (base c);
    '(st, k, b, msg) ← CodecHttp.decode stack_url (codec c) b msg;
    Some (st, msg, with_codec (set_recv_buf (base c) (Some b)) k)
  else Some (ERR, msg, c).

Definition fetch_http (c : http_conn) (msg : CodecHttp.HttpMsg) : option (STATUS * CodecHttp.HttpMsg * http_conn) :=
  match m_state (base c) with
  | UNKOWN | ERROR => Some (ERR, msg, c)
  | _ => decode_http c msg
  end.

(** [Connection::conn_read(HttpMsg& msg)] *)
Definition conn_read_http (c : http_conn) (msg : CodecHttp.HttpMsg) (now : Z) (sock : list io_read) : option (STATUS * CodecHttp.HttpMsg * http_conn * list io_read) :=
  '(ret, b, sock) ← conn_read_sock (base c) now sock;
  let c := set_base c b in
  if bool_decide (ret = OK) then '(ret, msg, c) ← decode_http c msg; Some (ret, msg, c, sock) else Some (ret, msg, c, sock).

(** [Connection::conn_write(const HttpMsg& msg, SocketBuffer** buf)], where
    [buf] points to the send buffer ([None]) or to a buffer of the caller; the
    caller's buffer is part of the result. *)
Definition conn_write_buf (c : http_conn) (msg : CodecHttp.HttpMsg) (buf : option (option SocketBuffer)) (now : Z) (sock : list io_write)
  : option (STATUS * bytes * http_conn * option (option SocketBuffer) * list io_write) :=
  if is_invalid (base c) then Some (ERR, [], c, buf, sock) else
  if negb (has_http (base c)) then Some (ERR, [], c, buf, sock) else
  let sbuf := default empty (match buf with None => m_send_buf (base c) | Some b => b end) in
  '(status, k, sbuf) ← CodecHttp.encode stack_url msg_order codec_order (codec c) msg sbuf;
  let '(b, buf) := match buf with None => (set_send_buf (base c) (Some sbuf), None) | Some _ => (base c, Some (Some sbuf)) end in
  let c := with_codec b k in
  if bool_decide (status = OK) then
    '(st, out, b, sock) ← conn_write_sock (base c) now sock; Some (st, out, set_base c b, buf, sock)
  else Some (status, [], c, buf, sock).

(** [Connection::conn_write(const HttpMsg& msg)] *)
Definition conn_write_http (c : http_conn) (msg : CodecHttp.HttpMsg) (now : Z) (sock : list io_write) : option (STATUS * bytes * http_conn * list io_write) :=
  '(st, out, c, _, sock) ← conn_write_buf c msg None now sock; Some (st, out, c, sock).

End io.

(** ** One request and its response *)

Record http_ready (c : http_conn) : Prop := {
  ready_codec : has_http (base c) = true;
  ready_valid : is_invalid (base c) = false;
  ready_recv : wf (default empty (m_recv_buf (base c)));
  ready_send : wf (default empty (m_send_buf (base c)));
  ready_count : CodecHttp.m_decode_cnt (codec c) < 2 ^ 31 - 1 }.

(** The kernel may hand over [d] in one read. *)
Definition fits `{Malloc} (c : http_conn) (d : bytes) : Prop :=
  recv_ok (default empty (m_recv_buf (base c))) d /\ alloc_ok (grow_bound (default empty (m_recv_buf (base c))) (zlen d)) /\ zlen d <= INT_MAX.

Lemma with_codec_base c k : exists t, base (with_codec c k) = Connection.set_codec c t /\ has_http (base (with_codec c k)) = has_http c /\ codec (with_codec c k) = k.
Proof.
  unfold with_codec, has_http. destruct (m_codec c) as [[[] t]|] eqn:E; simpl; [exists (m_codec c) | by eexists | exists (m_codec c)];
    (split_and!; [destruct c; simpl in *; by rewrite ?E | by rewrite E | done]).
Qed.

Lemma zlen_print_pos m : 0 < zlen (HttpMessage.print m).
Proof. pose proof (HttpMessage.print_nonempty m). unfold zlen. destruct (HttpMessage.print m); [done | cbn; lia]. Qed.

Section exchange.
Context `{MallocSpec} `{CodecHttp.Zip} (stack_url : HttpUrl.http_parser_url).
Implicit Types c s : http_conn.

(** Reading one message: what [decode] makes of the bytes. *)
Lemma conn_read_one c now d sock : http_ready c -> rx (base c) = [] -> 0 < zlen d -> fits c d ->
  exists b, wf b /\ contents b = d /\ forall k' b' msg, CodecHttp.decode stack_url (codec c) b CodecHttp.empty_msg = Some (OK, k', b', msg) -> wf b' ->
    exists c', conn_read_http stack_url c CodecHttp.empty_msg now (RecvData d :: sock) = Some (OK, msg, c', sock) /\ has_http (base c') = true /\ is_invalid (base c') = false /\
      m_send_buf (base c') = m_send_buf (base c) /\ codec c' = k'.
Proof.
  intros [Kc Kv Kr Ks _] Er Pd (Ro & Al & Li). destruct (conn_read_sock_bytes (base c) now d sock Kv Kr Pd Ro Al) as (c1 & b & Es & S & Sb & Rb & W & C); [by rewrite Er |]. rewrite Er in C.
  exists b. split; [done |]. split; [done |]. intros k' b' msg D W'. destruct S as (_ & Sc & _ & Ss & _).
  destruct (with_codec_base (set_recv_buf c1 (Some b')) k') as (t & Eb & Eh & Ek). eexists. split.
  - unfold conn_read_http. rewrite Es. cbn [mbind option_bind]. rewrite bool_decide_true by done. unfold decode_http. cbn [base set_base codec].
    unfold has_http at 1. rewrite Sc. fold (has_http (base c)). rewrite Kc, Rb. cbn [mbind option_bind]. rewrite D. reflexivity.
  - split_and!; [rewrite Eh; unfold has_http; cbn; by rewrite Sc | rewrite Eb; unfold is_invalid; cbn; by rewrite Ss | by rewrite Eb | done].
Qed.
Context (alloc : alloc_ok ADDRESS_SPACE).
Context (msg_order codec_order : gmap bytes bytes -> list (bytes * bytes)).
Context (msg_order_perm : forall m, msg_order m ≡ₚ map_to_list m) (codec_order_perm : forall m, codec_order m ≡ₚ map_to_list m).

Lemma zlen_response k msg text : CodecHttpSpec.response_ok k msg text ->
  zlen (HttpMessage.print (CodecHttpSpec.response_message codec_order k msg text)) <= 200 + zlen (CodecHttp.msg_body msg).
Proof.
  intros R. pose proof (CodecHttpSpec.zlen_response_head alloc msg_order codec_order msg_order_perm codec_order_perm k msg text R) as Lh.
  unfold HttpMessage.print. rewrite zlen_app. cbn [HttpMessage.content CodecHttpSpec.response_message]. lia.
Qed.

(** Writing one response: what the kernel takes and what waits make up the
    response. *)
Lemma conn_write_one s msg text now io : has_http (base s) = true -> is_invalid (base s) = false -> wf (default empty (m_send_buf (base s))) -> tx (base s) = [] ->
  m_buffer_len (default empty (m_send_buf (base s))) <= 2 ^ 24 -> CodecHttpSpec.response_ok (codec s) msg text ->
  let d := HttpMessage.print (CodecHttpSpec.response_message codec_order (codec s) msg text) in
  match io with SentBytes n => 0 <= n <= zlen d | SendErr _ => True end ->
  exists st out s' sock', conn_write_http stack_url msg_order codec_order s msg now [io] = Some (st, out, s', sock') /\ out ++ tx (base s') = d /\ (st = OK <-> tx (base s') = []).
Proof.
  intros Kh Kv Ks Te Bl R d Io. destruct (CodecHttpSpec.encode_response stack_url alloc msg_order codec_order msg_order_perm codec_order_perm (codec s) msg text _ R Ks Bl) as (b & E & W & C).
  rewrite <- tx_default, Te in C. cbn [app] in C. fold d in C. pose proof (zlen_response _ _ _ R) as Ld. fold d in Ld. pose proof (CodecHttpSpec.rsp_body _ _ _ R).
  set (k := CodecHttp.set_http_headers ∅ (CodecHttpSpec.counted (codec s))) in *. destruct (with_codec_base (set_send_buf (base s) (Some b)) k) as (t & Eb & _ & _).
  set (s1 := with_codec _ k) in *. assert (tx (base s1) = d) as T1 by (rewrite Eb; exact C).
  destruct (conn_write_sock_any (base s1) now io []) as (st & out & c' & sock' & Ew & _ & _ & _ & To & So).
  - rewrite Eb. exact Kv.
  - by rewrite Eb.
  - rewrite T1. unfold INT_MAX. lia.
  - unfold send_ok. by rewrite T1.
  - exists st, out, (set_base s1 c'), sock'. split; [| rewrite T1 in To; done].
    unfold conn_write_http, conn_write_buf. rewrite Kv, Kh. cbn [negb]. rewrite E. cbn [mbind option_bind]. fold s1. rewrite bool_decide_true by done. rewrite Ew. reflexivity.
Qed.
(** A reply that the codec can print before a request can be printed after it,
    with the version of the request. *)
Lemma response_ok_after k msg reply text : CodecHttpSpec.response_ok k reply text -> CodecHttp.msg_type msg = CodecHttp.HTTP_REQUEST_ ->
  0 <= CodecHttp.msg_major msg <= 9 -> 0 <= CodecHttp.msg_minor msg <= 9 -> CodecHttpSpec.response_ok (CodecHttpSpec.after_decode k msg) reply text.
Proof. intros [] Ty Ma Mi. destruct (CodecHttpSpec.after_request k msg Ty) as (E1 & E2 & E3 & E4). split; rewrite ?E1, ?E2, ?E3, ?E4; done. Qed.

(** C2: a request and its response between two connections.  A server that has
    nothing buffered reads a request from its socket and gets it as it was
    printed: its method, path, query, fields and body.  The reply that it
    writes, with any status of the table and a body of up to [2^28] bytes, has
    at most 200 bytes besides its body and goes to the socket as far as the
    kernel takes it and waits in the send buffer otherwise, and [conn_write]
    says which; a client that reads these bytes gets the status and the body of
    the reply and the version of the request.

    Which requests ([request_ok]): the method is neither CONNECT nor M-SEARCH;
    the target is a path of at most 65535 bytes, with or without query and
    fragment; the digits of the version are 0 to 9; the fields are those of
    [field_ok], that is names that mean nothing to the parser, with values that
    are not empty, and [Connection] with [close] or [keep-alive], so that there
    is no [Transfer-Encoding], [Upgrade], [Proxy-Connection] or
    [Content-Length] besides the one that is printed; [Keep-Alive] and
    [Content-Encoding] are excluded too; the head has at most 80 KB and the body
    less than [2^60] bytes.  Which replies ([response_ok]): the message has a
    version and none of the headers [Connection], [Allow] and [Server], the
    codec has no headers of its own yet, and less than [2^31 - 1] messages have
    been encoded.  Each message arrives in one read, which the kernel may hand
    over ([fits]: the room of the buffer, memory for it, at most [INT_MAX]
    bytes); both connections are open, have well-formed buffers and have decoded
    less than [2^31 - 1] messages ([http_ready]); the send buffer of the server
    is empty and has at most [2^24] bytes of memory; [malloc] succeeds. *)
Theorem http_connection_exchange s c meth t major minor l d reply text now : http_ready s -> http_ready c -> rx (base s) = [] -> tx (base s) = [] -> rx (base c) = [] ->
  m_buffer_len (default empty (m_send_buf (base s))) <= 2 ^ 24 -> CodecHttpSpec.request_ok meth t major minor l d -> CodecHttpSpec.response_ok (codec s) reply text ->
  let request := HttpMessage.print (HttpMessage.mk_message (HttpMessage.Request meth (HttpUrl.show_url t) major minor) l d) in fits s request ->
  exists s1 msg, conn_read_http stack_url s CodecHttp.empty_msg now [RecvData request] = Some (OK, msg, s1, []) /\
    (CodecHttp.msg_method msg = HttpParser.method_num meth /\ CodecHttp.msg_path msg = HttpUrl.t_path t /\ CodecHttp.msg_params msg = CodecHttp.decode_params (default [] (HttpUrl.t_query t)) /\
     CodecHttp.msg_headers msg = <[HttpMessage.Content_Length := HttpMessage.decimal (zlen d)]> (CodecHttpSpec.add_fields l ∅) /\ CodecHttp.msg_body msg = d) /\
    exists response, zlen response <= 200 + zlen (CodecHttp.msg_body reply) /\ forall io, match io with SentBytes n => 0 <= n <= zlen response | SendErr _ => True end ->
      exists st out s2 sock', conn_write_http stack_url msg_order codec_order s1 reply now [io] = Some (st, out, s2, sock') /\ out ++ tx (base s2) = response /\ (st = OK <-> tx (base s2) = []) /\
        (fits c response -> exists c1 msg1, conn_read_http stack_url c CodecHttp.empty_msg now [RecvData response] = Some (OK, msg1, c1, []) /\
           CodecHttp.msg_status msg1 = CodecHttp.msg_status reply /\ CodecHttp.msg_body msg1 = CodecHttp.msg_body reply /\ CodecHttp.msg_major msg1 = major /\ CodecHttp.msg_minor msg1 = minor).
Proof.
  intros Rs Rc Es Ts Ec Bl Q R request Fs.
  destruct (conn_read_one s now request [] Rs Es) as (b & Wb & Cb & K); [apply zlen_print_pos | done |].
  destruct (CodecHttpSpec.decode_request stack_url (codec s) b meth t major minor l d Wb) as (b' & msg & D & [Wb' _] & (Ty & F1 & _ & F2 & F3) & (Ma & Mi) & F4 & F5);
    [apply (CodecHttpSpec.alloc_ok_less alloc); by vm_compute | apply Rs | done | done |].
  destruct (K _ _ _ D Wb') as (s1 & E1 & H1' & V1 & S1 & C1). exists s1, msg. split; [exact E1 |]. split; [done |].
  assert (CodecHttpSpec.response_ok (codec s1) reply text) as R1. { rewrite C1. apply response_ok_after; [done | done | |]; destruct Q as [_ _ [] _ _ _]; lia. }
  exists (HttpMessage.print (CodecHttpSpec.response_message codec_order (codec s1) reply text)). split; [by apply zlen_response |]. intros io Io.
  destruct (conn_write_one s1 reply text now io) as (st & out & s2 & sock' & E2 & T2 & O2); try done; [by rewrite S1; apply Rs | unfold tx; rewrite S1; exact Ts | by rewrite S1 |].
  exists st, out, s2, sock'. split; [exact E2 |]. split; [done |]. split; [done |]. intros Fc.
  destruct (conn_read_one c now _ [] Rc Ec (zlen_print_pos _) Fc) as (rb & Wr & Cr & K').
  destruct (CodecHttpSpec.decode_response stack_url alloc msg_order codec_order msg_order_perm codec_order_perm (codec s1) (codec c) reply text rb R1) as (rb1 & msg1 & D1 & [Wr1 _] & (_ & G1 & G2) & (G3 & G4) & _); try done; [apply Rc |].
  destruct (K' _ _ _ D1 Wr1) as (c1 & E3 & _). exists c1, msg1. split; [exact E3 |]. destruct (CodecHttpSpec.after_request (codec s) msg Ty) as (A1 & A2 & _).
  rewrite C1, A1 in G3. rewrite C1, A2 in G4. split_and!; congruence.
Qed.
End exchange.

(** ** An example *)

#[local] Existing Instance CodecHttpSpec.plain_zip.
#[local] Existing Instance zero_malloc.
#[local] Existing Instance zero_malloc_spec.

(** A new connection of the type http. *)
Definition fresh : http_conn := mk_conn (set_state (snd (init (new 8 1 0) HTTP 0)) CONNECTED) (CodecHttp.new_codec 0).

Lemma fresh_ready : http_ready fresh.
Proof. split; try done; apply wf_empty. Qed.

Lemma fits_fresh d : zlen d <= EXTRABUF_SIZE -> fits fresh d.
Proof.
  intros L. unfold EXTRABUF_SIZE in L. pose proof (zlen_nonneg d). split_and!.
  - split; [unfold MAX_RW_COUNT; lia |]. change (writeable_len (default empty (m_recv_buf (base fresh)))) with 0. unfold EXTRABUF_SIZE. destruct (_ <? _) eqn:E; [by vm_compute in E | lia].
  - apply zero_malloc_ok. unfold grow_bound, ADDRESS_SPACE. cbn. lia.
  - unfold INT_MAX. lia.
Qed.

Lemma http_connection_exchange_witness : exists s1 msg st out s2 sock' c1 msg1,
  conn_read_http HttpUrl.http_parser_url_init fresh CodecHttp.empty_msg 5 [RecvData CodecHttpSpec.login_request] = Some (OK, msg, s1, []) /\ CodecHttp.msg_body msg = str_bytes "hello" /\
  conn_write_http HttpUrl.http_parser_url_init map_to_list map_to_list s1 CodecHttpSpec.not_found 5 [SendErr EAGAIN] = Some (st, out, s2, sock') /\
  conn_read_http HttpUrl.http_parser_url_init fresh CodecHttp.empty_msg 5 [RecvData (out ++ tx (base s2))] = Some (OK, msg1, c1, []) /\
  CodecHttp.msg_status msg1 = 404 /\ CodecHttp.msg_body msg1 = str_bytes "no such page".
Proof.
  assert (alloc_ok ADDRESS_SPACE) as Al by (by apply zero_malloc_ok).
  assert (forall h : gmap bytes bytes, map_to_list h ≡ₚ map_to_list h) as Pm by (intros h; reflexivity).
  destruct (http_connection_exchange HttpUrl.http_parser_url_init Al map_to_list map_to_list Pm Pm fresh fresh HttpParser.HTTP_POST CodecHttpSpec.login 1 1
    CodecHttpSpec.login_fields (str_bytes "hello") CodecHttpSpec.not_found (str_bytes "Not Found") 5 fresh_ready fresh_ready) as (s1 & msg & E1 & (_ & _ & _ & _ & F1) & response & L & K).
  - reflexivity.
  - reflexivity.
  - reflexivity.
  - discriminate.
  - apply CodecHttpSpec.login_ok.
  - split; by vm_compute.
  - apply fits_fresh. by vm_compute.
  - destruct (K (SendErr EAGAIN) I) as (st & out & s2 & sock' & E2 & <- & _ & K2).
    destruct K2 as (c1 & msg1 & E3 & F2 & F3 & _). { apply fits_fresh. change (200 + _) with 212 in L. unfold EXTRABUF_SIZE. lia. }
    exists s1, msg, st, out, s2, sock', c1, msg1. split_and!; [exact E1 | exact F1 | exact E2 | exact E3 | exact F2 | exact F3].
Defined.
End ConnectionHttp.
